(* ===== verification/_CoqProject ===== *)
-Q . S2P
Prelude.v
BmcCommon.v
BmcKern.v
BmcLoops.v
BmcCache.v
BmcPipeline.v
BmcCoherence.v
BmcLimits.v
BmcChecksum.v
BmcSystem.v
BmcExamples.v
BmcUser.v
McItoa.v
McUtil.v
McBipbuffer.v
McCache.v
McAuthfile.v
McThread.v
McItem.v
McAssoc.v
McHash.v
McCrc.v
McLru.v
McSlabs.v
McItems.v
McItemStore.v
McPayload.v
McItemOps.v
McItemHistory.v
McStore.v
McToken.v
McProto.v
McOutput.v
McGet.v
McConn.v
McBinary.v
McBinaryReply.v
McPrefix.v
McAutomove.v
BmcMemcached.v
