(* ===== verification/Prelude.v ===== *)
(** * BMC and its memcached: a verification library

    The repository holds two programs that work on the same data.  BMC (src/bmc/) is an
    in-kernel cache in front of memcached: eBPF programs look at the packets of a memcached
    server, answer GET requests from a table in the kernel, drop table entries when a SET
    passes by and fill them from the replies that leave the host.  memcached
    (src/memcached-sr/, version 1.5.19 with several sockets) is the server behind it: a hash
    table of items in memory that a slab allocator hands out and that LRU queues decide about.

    ** Files

    Prelude (this file): fixed-width integers, byte strings, generic lemmas, tactics and the
    hint databases.

    BMC.
    - BmcCommon: constants, cache entry and statistics of bmc_common.h, FNV-1a.
    - BmcKern: the seven programs of bmc_kern.c.  A frame is a buffer cut at the two packet
      cursors, a program is a function from frame and maps to an outcome, tail calls are
      outcomes resolved by the dispatchers [xdp_run] and [tc_run].  The kernel's helpers
      (bpf_xdp_adjust_head, bpf_xdp_adjust_tail, map lookups) are the class
      [BpfHelpers] with documented laws and a concrete instance.
    - BmcLoops, BmcCache, BmcPipeline, BmcCoherence: what the loops compute, the cache as a
      map from keys to replies, the GET path end to end, and how the cache follows the
      server.
    - BmcLimits, BmcChecksum: behaviour beyond the sizes the main path assumes; the header
      checksum.
    - BmcSystem: several CPUs over one cache, programs as atomic steps in any interleaving.
    - BmcExamples: concrete packets, and the instances of the theorems.
    - BmcUser: the loader bmc_user.c; system calls are recorded as effects.

    memcached, the leaves.
    - McItoa, McUtil: printing and parsing numbers, URI encoding, byte swapping
      (itoa_ljust.c, util.c).
    - McBipbuffer: the byte queue of bipbuffer.c.  McCache: the object cache of cache.c.
    - McAuthfile: the password file of authfile.c.
    - McThread: the hand-over of connections to the worker threads of thread.c: queues, the pool
      of their items, pipes; sections under a lock are steps in any interleaving.
    - McHash, McCrc: MurmurHash3, Jenkins' hash, CRC-32C (murmur3_hash.c, jenkins_hash.c,
      hash.c, crc32c.c).

    memcached, the store.
    - McItem: the item structure (memcached.h), memory as a map from addresses to items,
      chains and doubly linked segments.  The class [KeyHash] is what the table needs of a
      hash function.
    - McAssoc: the hash table of assoc.c with its incremental expansion.
    - McLru: the LRU queues of items.c with the crawlers' moves.
    - McSlabs: the slab allocator of slabs.c: size classes (computed with IEEE doubles as in
      slabs_init), free lists, pages, page pool and limits.
    - McItems: the operations of items.c over one [server] state that joins table, queues and
      allocator: allocation with eviction, links, references, lazy expiry, bumps, the passes
      of the maintenance thread, and the request to the page mover.
    - McItemStore: the invariant [wf] of that state and its preservation by the primitive
      operations.  McPayload: no operation writes what readers see.  McItemOps: the larger
      operations.  McItemHistory: histories of all of them and the theorems about them.

    memcached, the commands (memcached.c).
    - McStore: do_store_item (set, add, replace, append, prepend, cas) and do_add_delta (incr,
      decr), proved step by step as histories of the item store: [store_contract] is what
      do_store_item promises to the commands.
    - McToken: tokenize_command and realtime.
    - McProto: the dispatch of process_command and the storage, arithmetic, touch and delete
      commands of an ASCII connection, from the command line to the reply.
    - McOutput: the messages of an answer (add_iov, add_msghdr, build_udp_headers) and their
      transmission (transmit) over TCP and UDP.  The class [Collector] is what the commands
      need of an answer under construction.
    - McGet: the get commands, from the line to the messages.
    - McConn: the connection: read buffer, command parsing, the states of drive_machine for an
      ASCII connection over TCP or UDP.
    - McBinary: the binary protocol: headers, dispatch, the reading of extras, key and value, and the
      handlers.  McBinaryReply: the bytes of its responses, and get, set, add and replace over the
      item store.

    memcached, around the store.
    - McPrefix: the statistics per key prefix (stats.c).
    - McAutomove: the page automover (slab_automove.c) and the rounds of the maintenance
      thread (items.c).

    Both programs.
    - BmcMemcached: what memcached answers over UDP is what BMC caches and serves.

    ** What the theorems show

    BMC: a GET is answered from the cache with the right bytes (get_request_served), a
    reply that was cached comes back unchanged (cached_reply_round_trip), a SET takes its key
    out (set_invalidates) and keeps it out under every interleaving
    (no_reply_after_invalidation), the state stays well formed (run_preserves_wf), the three
    hash loops agree (hashers_agree); and, with the places where the programs fall short:
    packets too large, too many keys or tail calls, prefixes with equal hashes, pipelined
    SETs, newlines in values, unterminated requests.

    memcached: the bip buffer is a queue, the object cache never shares a buffer, printing
    and parsing are inverse, the CRC routines agree with the polynomial division, the hash of
    a key does not depend on where it lies.  The hash table refines a map also in the middle
    of an expansion, and expansions end; the LRU queues refine lists; the slab allocator
    never hands out overlapping memory and fails only at its limit.  A password file lets in exactly
    the accounts of its first eight lines (authfile_accepts_exactly), and every connection reaches
    its thread once and in order (handover_exact).  For the item store, over
    every history of operations: they act on the map from keys to items as they should and
    never run into the assertion of assoc_delete (item_ops_refine_map), the components agree
    (item_store_consistent), reference counts are exact (refcounts_exact), and nobody's
    operation changes what another one is reading (held_items_stable).  The storage commands
    answer as the protocol says and leave the right value under the key
    (store_item_semantics), incr and decr count (add_delta_semantics), the tokenizer finds
    the words of a line (tokenize_splits), and the set, delete and get commands do what they
    should from the line to the reply (set_command_stores, delete_command_deletes,
    get_command_answers).  An answer is delivered however the kernel cuts the writes
    (tcp_answer_delivered), or is in datagrams with their headers (udp_answer_datagrams).  A
    connection cuts its input into commands and values whatever the sizes of the pieces
    that arrive (connection_frames_stream), and its state machine always comes back
    (drive_machine_ends).  In the binary protocol headers and their bytes determine each other
    (binary_header_typed), a request is delimited by its header (binary_request_framed), get
    answers with the bytes of the protocol (bin_get_answers), and set, add and replace
    store by the same decision table as the ASCII commands (bin_update_stores).

    Around the store: the prefix statistics are exact as long as no prefix continues another
    (prefix_stats_exact), the automover decides by its window (automove_decides), and every
    class is juggled again in time (classes_juggled_in_time).  For both programs together: a reply
    memcached sends for one key is served by BMC byte for byte (bmc_relays_memcached).

    ** Bounds and fuel

    Loops of BMC have the constant bounds of the source.  Loops over chains and queues take
    the number of items in memory as fuel, which is enough because a chain never meets an
    item twice; the refinement theorems are stated for the functions with that fuel.  The
    tail loop of lru_pull_tail takes 6 more, for its five tries.  The theorems about the
    store assume fewer than 2^16 - 3 references to one item, the width of the counter, pages
    below 2^31 bytes, and no tail repair; those about commands leave room for the references
    the command itself takes ([few]).  The rounds of the tokenizer take the length of the
    line as fuel: every round consumes a word.  The split of an entry into datagrams takes the
    length of the entry and 3 as fuel, the rounds of a get the length of the line and 1, the
    reads of try_read_network 6, for its four growths of the buffer.  [drive] takes any fuel;
    drive_machine_ends gives a measure that bounds it.  The doubling of the read buffer in
    bin_read_key takes the size that is needed as fuel.

    ** Not modelled

    In memcached.c: the meta commands, stats and the administration commands of the ASCII
    protocol, stat and SASL of the binary protocol, listening sockets, protocol negotiation,
    ASCII authentication, the options and start-up.  Of thread.c all but the
    hand-over of connections: start, pause and stop of threads, and the item locks (the commands run with the lock of their key held, which allocations see as a failed try),
    the crawler threads (crawler.c), the page mover of slabs.c, external storage, logging,
    restart from a memory file, statistics text, SASL and TLS; they are I/O, threads or
    formatting around the store.  The item store treats values that need several chunks only
    up to their header.  In BMC: option parsing and messages of the
    loader; verifier and maps of the kernel are represented by their documented behaviour. *)
From stdpp Require Export base numbers list gmap strings.
From Stdlib Require Export Lia.

Open Scope Z_scope.

(** ** Fixed-width integers *)

(** An unsigned [w]-bit value of C: arithmetic is done in [Z] and wrapped. *)
Definition wrap (w x : Z) : Z := x mod 2 ^ w.

(** The two's-complement reading of the low [w] bits of [x]. *)
Definition signed (w x : Z) : Z :=
  let y := wrap w x in if y <? 2 ^ (w - 1) then y else y - 2 ^ w.

Declare Scope c_scope.
Delimit Scope c_scope with C.
Abbreviation u8 := (wrap 8).
Abbreviation u16 := (wrap 16).
Abbreviation u32 := (wrap 32).
Abbreviation u64 := (wrap 64).
Abbreviation s8 := (signed 8).
Abbreviation s32 := (signed 32).
Abbreviation s64 := (signed 64).
Notation "x +32 y" := (u32 (x + y)) (at level 50, left associativity) : c_scope.
Notation "x -32 y" := (u32 (x - y)) (at level 50, left associativity) : c_scope.
Notation "x *32 y" := (u32 (x * y)) (at level 40, left associativity) : c_scope.

(** A byte of memory is a [Z] between 0 and 255. *)
Definition is_byte (b : Z) : bool := (0 <=? b) && (b <? 256).

(** The bytes of a Rocq string, used for the character constants of the source. *)
Fixpoint bytes (s : string) : list Z :=
  match s with
  | EmptyString => []
  | String c s' => Z.of_N (Ascii.N_of_ascii c) :: bytes s'
  end.

Arguments bytes s%_string.

Create HintDb cint.
Create Rewrite HintDb cint.

Lemma wrap_range w x : 0 <= w -> 0 <= wrap w x < 2 ^ w.
Proof. intros H. unfold wrap. apply Z.mod_pos_bound. lia. Qed.

Lemma wrap_small w x : 0 <= x < 2 ^ w -> wrap w x = x.
Proof. apply Z.mod_small. Qed.

Lemma wrap_wrap w x : wrap w (wrap w x) = wrap w x.
Proof. unfold wrap. apply Zmod_mod. Qed.

Lemma wrap_add_l w x y : wrap w (wrap w x + y) = wrap w (x + y).
Proof. unfold wrap. apply Zplus_mod_idemp_l. Qed.

Lemma wrap_add_r w x y : wrap w (x + wrap w y) = wrap w (x + y).
Proof. unfold wrap. apply Zplus_mod_idemp_r. Qed.

Lemma wrap_mul_l w x y : wrap w (wrap w x * y) = wrap w (x * y).
Proof. unfold wrap. apply Zmult_mod_idemp_l. Qed.

Lemma wrap_sub_l w x y : wrap w (wrap w x - y) = wrap w (x - y).
Proof. unfold wrap. apply Zminus_mod_idemp_l. Qed.

Lemma wrap_sub_r w x y : wrap w (x - wrap w y) = wrap w (x - y).
Proof. unfold wrap. apply Zminus_mod_idemp_r. Qed.

Lemma wrap_signed w x : 0 < w -> wrap w (signed w x) = wrap w x.
Proof.
  intros Hw. unfold signed. cbn zeta.
  destruct (_ <? _); [apply wrap_wrap|].
  unfold wrap. rewrite Zminus_mod, Z_mod_same_full, Z.sub_0_r, !Zmod_mod. done.
Qed.

Lemma signed_range w x : 0 < w -> - 2 ^ (w - 1) <= signed w x < 2 ^ (w - 1).
Proof.
  intros Hw. unfold signed. cbn zeta.
  pose proof (wrap_range w x ltac:(lia)) as Hr.
  assert (2 ^ w = 2 * 2 ^ (w - 1)) as Hp.
  { rewrite <- Z.pow_succ_r by lia. f_equal. lia. }
  destruct (Z.ltb_spec (wrap w x) (2 ^ (w - 1))); lia.
Qed.

Lemma u32_range x : 0 <= u32 x < 4294967296.
Proof. apply (wrap_range 32 x). lia. Qed.

Lemma u16_range x : 0 <= u16 x < 65536.
Proof. apply (wrap_range 16 x). lia. Qed.

#[export] Hint Rewrite wrap_wrap wrap_add_l wrap_add_r wrap_mul_l wrap_sub_l : cint.
#[export] Hint Resolve u32_range u16_range : cint.

(** ** Byte buffers *)

(** [slice off n l] reads [n] bytes at [off]; [write off bs l] stores [bs] at [off]. *)
Definition slice (off n : nat) (l : list Z) : list Z := take n (drop off l).
Definition write (off : nat) (bs l : list Z) : list Z :=
  take off l ++ bs ++ drop (off + length bs)%nat l.

(** One byte of a buffer, after the bounds check of the source. *)
Definition byte_at (l : list Z) (i : nat) : Z := nth i l 0.

(** Big-endian (network order) 16-bit fields. *)
Definition be16 (l : list Z) (off : nat) : Z := 256 * byte_at l off + byte_at l (S off).
Definition put_be16 (off : nat) (v : Z) (l : list Z) : list Z :=
  write off [wrap 8 (v / 256); wrap 8 v] l.

Lemma length_slice off n l : (off + n <= length l)%nat -> length (slice off n l) = n.
Proof. intros. unfold slice. rewrite length_take, length_drop. lia. Qed.

Lemma length_write off bs l :
  (off + length bs <= length l)%nat -> length (write off bs l) = length l.
Proof. intros. unfold write. rewrite !length_app, length_take, length_drop. lia. Qed.

Lemma write_nil off l : write off [] l = l.
Proof. unfold write. cbn [length app]. rewrite Nat.add_0_r. apply take_drop. Qed.

(** A store leaves the bytes before and after it alone, and reads back what was stored. *)
Lemma slice_write_same off bs l :
  (off + length bs <= length l)%nat -> slice off (length bs) (write off bs l) = bs.
Proof.
  intros. unfold slice, write.
  rewrite drop_app_ge by (rewrite length_take; lia).
  rewrite length_take, Nat.min_l, Nat.sub_diag by lia.
  rewrite drop_0, take_app_length. done.
Qed.

Lemma slice_write_before off bs l i n :
  (off + length bs <= length l)%nat -> (i + n <= off)%nat ->
  slice i n (write off bs l) = slice i n l.
Proof.
  intros. unfold slice, write.
  rewrite <- (take_drop off l) at 3.
  rewrite !drop_app_le by (rewrite length_take; lia).
  rewrite !take_app_le by (rewrite length_drop, length_take; lia). done.
Qed.

Lemma slice_write_after off bs l i n :
  (off + length bs <= length l)%nat -> (off + length bs <= i)%nat ->
  slice i n (write off bs l) = slice i n l.
Proof.
  intros. unfold slice, write. rewrite app_assoc.
  rewrite drop_app_ge by (rewrite length_app, length_take; lia).
  rewrite length_app, length_take, drop_drop.
  f_equal. f_equal. lia.
Qed.

(** Stores and loads in the front part of a buffer. *)
Lemma slice_app_l off n l p :
  (off + n <= length l)%nat -> slice off n (l ++ p) = slice off n l.
Proof.
  intros. unfold slice. rewrite drop_app_le by lia.
  rewrite take_app_le by (rewrite length_drop; lia). done.
Qed.

Lemma write_app_l off bs l p :
  (off + length bs <= length l)%nat -> write off bs (l ++ p) = write off bs l ++ p.
Proof.
  intros. unfold write. rewrite take_app_le, drop_app_le by lia.
  by rewrite <- !app_assoc.
Qed.

(** Lengths of buffers built from stores and loads. *)
Ltac blen :=
  cbn [length]; solve
    [ lia
    | rewrite length_write by blen; blen
    | rewrite length_slice by blen; blen
    | rewrite length_app; blen ].

(** ** Automation *)

(** Case analysis on the boolean tests of the source, as arithmetic facts. *)
Ltac zbool :=
  repeat match goal with
  | H : _ && _ = true |- _ => apply andb_true_iff in H; destruct H
  | H : _ || _ = false |- _ => apply orb_false_iff in H; destruct H
  | H : negb _ = true |- _ => apply negb_true_iff in H
  | H : negb _ = false |- _ => apply negb_false_iff in H
  | H : (_ =? _) = true |- _ => apply Z.eqb_eq in H
  | H : (_ =? _) = false |- _ => apply Z.eqb_neq in H
  | H : (_ <? _) = true |- _ => apply Z.ltb_lt in H
  | H : (_ <? _) = false |- _ => apply Z.ltb_ge in H
  | H : (_ <=? _) = true |- _ => apply Z.leb_le in H
  | H : (_ <=? _) = false |- _ => apply Z.leb_gt in H
  | H : (_ =? _)%nat = true |- _ => apply Nat.eqb_eq in H
  | H : (_ =? _)%nat = false |- _ => apply Nat.eqb_neq in H
  | H : (_ <? _)%nat = true |- _ => apply Nat.ltb_lt in H
  | H : (_ <? _)%nat = false |- _ => apply Nat.ltb_ge in H
  | H : (_ <=? _)%nat = true |- _ => apply Nat.leb_le in H
  | H : (_ <=? _)%nat = false |- _ => apply Nat.leb_gt in H
  end.

(** Split the innermost [if] of the goal, keeping the test as a fact. *)
Ltac case_if :=
  match goal with
  | |- context [if ?b then _ else _] =>
      lazymatch b with
      | context [if _ then _ else _] => fail
      | _ => destruct b eqn:?
      end
  end; zbool.
