(* ===== verification/BmcCommon.v ===== *)
(** The data the two halves of BMC share (bmc/bmc_common.h): sizes, the cache entry, the
    statistics block, and the FNV-1a hash that both bmc_kern.c and bmc_user.c compute. *)
From S2P Require Import Prelude.

(** ** Constants of bmc_common.h *)

Definition BMC_MAX_KEY_LENGTH : nat := 250.
Definition BMC_MAX_VAL_LENGTH : nat := 1000.
Definition BMC_MAX_ADDITIONAL_PAYLOAD_BYTES : nat := 53.
Definition BMC_MAX_CACHE_DATA_SIZE : nat :=
  BMC_MAX_KEY_LENGTH + BMC_MAX_VAL_LENGTH + BMC_MAX_ADDITIONAL_PAYLOAD_BYTES.
Definition BMC_MAX_KEY_IN_MULTIGET : Z := 30.
Definition BMC_CACHE_ENTRY_COUNT : Z := 3250000.
Definition BMC_MAX_PACKET_LENGTH : nat := 1500.
Definition BMC_MAX_KEY_IN_PACKET : Z := BMC_MAX_KEY_IN_MULTIGET.

Definition FNV_OFFSET_BASIS_32 : Z := 2166136261.
Definition FNV_PRIME_32 : Z := 16777619.

(** Slots of the two program arrays. *)
Inductive xdp_slot :=
  | BMC_PROG_XDP_HASH_KEYS
  | BMC_PROG_XDP_PREPARE_PACKET
  | BMC_PROG_XDP_WRITE_REPLY
  | BMC_PROG_XDP_INVALIDATE_CACHE.

Inductive tc_slot :=
  | BMC_PROG_TC_UPDATE_CACHE.

#[export] Instance xdp_slot_eq_dec : EqDecision xdp_slot.
Proof. solve_decision. Defined.

#[export] Instance tc_slot_eq_dec : EqDecision tc_slot.
Proof. solve_decision. Defined.

(** [struct bmc_cache_entry]; the spin lock is not a field: the code between lock and unlock
    is one transition of the model. [valid] is a [char], [hash] an [int]. *)
Record bmc_cache_entry := mk_entry {
  len : Z;
  valid : Z;
  hash : Z;
  data : list Z
}.

(** Array maps start zeroed. *)
Definition zero_entry : bmc_cache_entry :=
  mk_entry 0 0 0 (replicate BMC_MAX_CACHE_DATA_SIZE 0).

(** [struct bmc_stats]: eight [unsigned int] counters. *)
Record bmc_stats := mk_stats {
  get_recv_count : Z;
  set_recv_count : Z;
  get_resp_count : Z;
  hit_misprediction : Z;
  hit_count : Z;
  miss_count : Z;
  update_count : Z;
  invalidation_count : Z
}.

Definition zero_stats : bmc_stats := mk_stats 0 0 0 0 0 0 0 0.

(** ** FNV-1a *)

(** [hash ^= c; hash *= FNV_PRIME_32] for a [char] [c]: the character is sign-extended to
    [int], converted to [u32], and the product wraps at 32 bits. *)
Definition fnv_step (h c : Z) : Z :=
  u32 (Z.lxor h (u32 (s8 c)) * FNV_PRIME_32).

(** The loop of [fnv1a_hash32] in bmc_user.c. *)
Fixpoint fnv1a_hash32 (key : list Z) (h : Z) : Z :=
  match key with
  | [] => h
  | c :: key' => fnv1a_hash32 key' (fnv_step h c)
  end.

(** The hash of a key as the kernel programs compute it. *)
Definition key_hash (key : list Z) : Z := fnv1a_hash32 key FNV_OFFSET_BASIS_32.

(** The cache slot of a hash. *)
Definition cache_idx_of (h : Z) : Z := h mod BMC_CACHE_ENTRY_COUNT.

Lemma fnv_step_range h c : 0 <= fnv_step h c < 4294967296.
Proof. unfold fnv_step. auto with cint. Qed.

Lemma fnv1a_app k1 k2 h :
  fnv1a_hash32 (k1 ++ k2) h = fnv1a_hash32 k2 (fnv1a_hash32 k1 h).
Proof. revert h. induction k1 as [|c k1 IH]; intros h; simpl; auto. Qed.

Lemma fnv1a_range key h : 0 <= h < 4294967296 -> 0 <= fnv1a_hash32 key h < 4294967296.
Proof.
  revert h. induction key as [|c key IH]; intros h Hh; simpl; [done|].
  apply IH, fnv_step_range.
Qed.

Lemma key_hash_range key : 0 <= key_hash key < 4294967296.
Proof. apply fnv1a_range. unfold FNV_OFFSET_BASIS_32. lia. Qed.

Lemma cache_idx_range h : 0 <= cache_idx_of h < BMC_CACHE_ENTRY_COUNT.
Proof. unfold cache_idx_of. apply Z.mod_pos_bound. reflexivity. Qed.

#[export] Hint Resolve fnv_step_range key_hash_range cache_idx_range : cint.

(** The pair the source gives as a collision: two distinct keys, one 32-bit hash. *)
Example fnv_collision :
  key_hash (bytes "declinate0123456") = key_hash (bytes "macallums0123456").
Proof. vm_compute. reflexivity. Qed.
