(* ===== verification/BmcKern.v ===== *)
(** The seven eBPF programs of bmc/bmc_kern.c.

    A frame is the buffer the kernel hands to a program, cut at the two cursors [ctx->data]
    and [ctx->data_end]; a test [p + n <= data_end] of the source is a test on the length of
    the middle part. Each program is a function from the frame and the maps to an outcome, a
    frame and maps; a tail call is an outcome, resolved by the dispatchers [xdp_run] and
    [tc_run]. The section between [bpf_spin_lock] and [bpf_spin_unlock] lies inside one
    program, so programs are the atomic steps of the model. *)
From S2P Require Import Prelude BmcCommon.

(** ** Packets and headers *)

(** [struct xdp_md]: the bytes before [data], from [data] to [data_end], and after it. *)
Record xdp_md := mk_xdp {
  xdp_head : list Z;
  xdp_pkt : list Z;
  xdp_tail : list Z
}.

(** [struct __sk_buff]: [len] counts the whole packet, [data .. data_end] its linear part. *)
Record sk_buff := mk_skb {
  skb_len : Z;
  skb_data : list Z
}.

(** Sizes of the headers in front of a memcached payload. *)
Definition ETH_HLEN : nat := 14.
Definition IP_HLEN : nat := 20.
Definition UDP_HLEN : nat := 8.
Definition TCP_HLEN : nat := 20.
Definition MEMCACHED_UDP_HLEN : nat := 8.
Definition UDP_PAYLOAD_OFF : nat := ETH_HLEN + IP_HLEN + UDP_HLEN + MEMCACHED_UDP_HLEN.
Definition TCP_PAYLOAD_OFF : nat := ETH_HLEN + IP_HLEN + TCP_HLEN.
Definition ADJUST_HEAD_LEN : nat := 128.
Definition BMC_DEMAND_THRESHOLD : Z := 10.

Definition IPPROTO_TCP : Z := 6.
Definition IPPROTO_UDP : Z := 17.
Definition MEMCACHED_PORT : Z := 11211.

(** Return codes (linux/bpf.h and linux/pkt_cls.h). *)
Definition XDP_DROP : Z := 1.
Definition XDP_PASS : Z := 2.
Definition XDP_TX : Z := 3.
Definition TC_ACT_OK : Z := 0.
Definition TC_ACT_SHOT : Z := 2.

Definition SPACE : Z := 32.
Definition CR : Z := 13.
Definition LF : Z := 10.

(** ** The maps *)

Record memcached_key := mk_key {
  khash : Z;
  kdata : list Z;
  klen : Z
}.

Definition zero_key : memcached_key := mk_key 0 (replicate BMC_MAX_KEY_LENGTH 0) 0.

Record parsing_context := mk_pctx {
  key_count : Z;
  current_key : Z;
  read_pkt_offset : Z;
  write_pkt_offset : Z
}.

(** The maps one CPU sees: the shared cache, and its own slots of the per-CPU maps. *)
Record kmaps := mk_maps {
  map_kcache : gmap Z bmc_cache_entry;
  map_keys : gmap Z memcached_key;
  map_parsing_context : parsing_context;
  map_stats : bmc_stats
}.

Definition kcache_get (m : gmap Z bmc_cache_entry) (i : Z) : bmc_cache_entry :=
  default zero_entry (m !! i).
Definition keys_get (m : gmap Z memcached_key) (i : Z) : memcached_key :=
  default zero_key (m !! i).

Definition set_kcache (c : gmap Z bmc_cache_entry) (m : kmaps) : kmaps :=
  mk_maps c (map_keys m) (map_parsing_context m) (map_stats m).
Definition set_keys (k : gmap Z memcached_key) (m : kmaps) : kmaps :=
  mk_maps (map_kcache m) k (map_parsing_context m) (map_stats m).
Definition set_pctx (p : parsing_context) (m : kmaps) : kmaps :=
  mk_maps (map_kcache m) (map_keys m) p (map_stats m).
Definition set_stats (s : bmc_stats) (m : kmaps) : kmaps :=
  mk_maps (map_kcache m) (map_keys m) (map_parsing_context m) s.

(** Counter updates, wrapping at 32 bits. *)
Definition incr_get_recv (s : bmc_stats) : bmc_stats :=
  mk_stats (u32 (get_recv_count s + 1)) (set_recv_count s) (get_resp_count s)
    (hit_misprediction s) (hit_count s) (miss_count s) (update_count s) (invalidation_count s).
Definition incr_set_recv (s : bmc_stats) : bmc_stats :=
  mk_stats (get_recv_count s) (u32 (set_recv_count s + 1)) (get_resp_count s)
    (hit_misprediction s) (hit_count s) (miss_count s) (update_count s) (invalidation_count s).
Definition incr_get_resp (s : bmc_stats) : bmc_stats :=
  mk_stats (get_recv_count s) (set_recv_count s) (u32 (get_resp_count s + 1))
    (hit_misprediction s) (hit_count s) (miss_count s) (update_count s) (invalidation_count s).
Definition add_mispredict (n : Z) (s : bmc_stats) : bmc_stats :=
  mk_stats (get_recv_count s) (set_recv_count s) (get_resp_count s)
    (u32 (hit_misprediction s + n)) (hit_count s) (miss_count s) (update_count s)
    (invalidation_count s).
Definition incr_hit (s : bmc_stats) : bmc_stats :=
  mk_stats (get_recv_count s) (set_recv_count s) (get_resp_count s)
    (hit_misprediction s) (u32 (hit_count s + 1)) (miss_count s) (update_count s)
    (invalidation_count s).
Definition incr_miss (s : bmc_stats) : bmc_stats :=
  mk_stats (get_recv_count s) (set_recv_count s) (get_resp_count s)
    (hit_misprediction s) (hit_count s) (u32 (miss_count s + 1)) (update_count s)
    (invalidation_count s).
Definition incr_update (s : bmc_stats) : bmc_stats :=
  mk_stats (get_recv_count s) (set_recv_count s) (get_resp_count s)
    (hit_misprediction s) (hit_count s) (miss_count s) (u32 (update_count s + 1))
    (invalidation_count s).
Definition incr_invalidation (s : bmc_stats) : bmc_stats :=
  mk_stats (get_recv_count s) (set_recv_count s) (get_resp_count s)
    (hit_misprediction s) (hit_count s) (miss_count s) (update_count s)
    (u32 (invalidation_count s + 1)).

(** ** Kernel helpers *)

(** The helpers belong to the kernel, so they are parameters. [map_lookup_ok n i] says that
    [bpf_map_lookup_elem] on an array map of [n] entries returns a non-null pointer for index
    [i]; the other two return the helper's result code with the context it leaves. *)
Class BpfHelpers := {
  bpf_xdp_adjust_head : xdp_md -> Z -> Z * xdp_md;
  bpf_xdp_adjust_tail : xdp_md -> Z -> Z * xdp_md;
  map_lookup_ok : Z -> Z -> bool
}.

(** Moving [data] by [d] bytes moves the cut between the first two parts of the frame. *)
Definition move_head (c : xdp_md) (d : Z) : option xdp_md :=
  let all := xdp_head c ++ xdp_pkt c in
  let pos := Z.of_nat (length (xdp_head c)) + d in
  if (0 <=? pos) && (pos <=? Z.of_nat (length all)) then
    Some (mk_xdp (take (Z.to_nat pos) all) (drop (Z.to_nat pos) all) (xdp_tail c))
  else None.

(** Moving [data_end] likewise. *)
Definition move_tail (c : xdp_md) (d : Z) : option xdp_md :=
  let all := xdp_pkt c ++ xdp_tail c in
  let pos := Z.of_nat (length (xdp_pkt c)) + d in
  if (0 <=? pos) && (pos <=? Z.of_nat (length all)) then
    Some (mk_xdp (xdp_head c) (take (Z.to_nat pos) all) (drop (Z.to_nat pos) all))
  else None.

(** What bpf-helpers(7) documents of them: zero means the cursor moved by that many bytes,
    non-zero means nothing changed; array maps have exactly the indices below [max_entries]. *)
Class BpfHelpersLaws (H : BpfHelpers) : Prop := {
  adjust_head_success c d c' :
    bpf_xdp_adjust_head c d = (0, c') -> move_head c d = Some c';
  adjust_head_failure c d r c' :
    bpf_xdp_adjust_head c d = (r, c') -> r <> 0 -> c' = c;
  adjust_tail_success c d c' :
    bpf_xdp_adjust_tail c d = (0, c') -> move_tail c d = Some c';
  adjust_tail_failure c d r c' :
    bpf_xdp_adjust_tail c d = (r, c') -> r <> 0 -> c' = c;
  map_lookup_spec n i : map_lookup_ok n i = true <-> 0 <= i < n
}.

(** ** Outcomes *)

(** A program returns a code, or tail-calls a slot; [fallthrough] is the code it returns
    when the tail call does not happen. *)
Inductive outcome (slot : Type) :=
  | Return (code : Z)
  | TailCall (target : slot) (fallthrough : Z).
Arguments Return {slot} code.
Arguments TailCall {slot} target fallthrough.

Definition xdp_result : Type := outcome xdp_slot * xdp_md * kmaps.
Definition tc_result : Type := outcome tc_slot * kmaps.

(** ** Loops of the programs *)

(** [for (off = 4; ...; off++) {}] of the receive filter; [p] is the payload from [off]. *)
Fixpoint skip_spaces (off : nat) (p : list Z) : nat :=
  match p with
  | [] => off
  | c :: p' =>
      if (off <? BMC_MAX_PACKET_LENGTH)%nat && (c =? SPACE) then skip_spaces (S off) p'
      else off
  end.

(** State of the key-hashing loop when it stops. *)
Record key_scan := mk_scan {
  scan_hash : Z;
  scan_len : Z;
  scan_off : nat;
  scan_done : bool
}.

Fixpoint hash_key_loop (off : nat) (h n : Z) (p : list Z) : key_scan :=
  match p with
  | [] => mk_scan h n off false
  | c :: p' =>
      if (off <? BMC_MAX_KEY_LENGTH + 1)%nat then
        if c =? CR then mk_scan h n off true
        else if c =? SPACE then mk_scan h n off false
        else hash_key_loop (S off) (fnv_step h c) (u32 (n + 1)) p'
      else mk_scan h n off false
  end.

(** The copy of the request key into the per-CPU key slot. *)
Fixpoint copy_key_loop (i : nat) (n : Z) (p dst : list Z) : list Z :=
  match p with
  | [] => dst
  | c :: p' =>
      if Z.of_nat i <? n then copy_key_loop (S i) n p' (<[i := c]> dst) else dst
  end.

(** The key comparison of the reply writer: any differing byte clears [cache_hit]. *)
Fixpoint compare_key_loop (fuel i : nat) (n : Z) (kd ed : list Z) (hit : bool) : bool :=
  match fuel with
  | O => hit
  | S fuel' =>
      if (i <? BMC_MAX_KEY_LENGTH)%nat && (Z.of_nat i <? n) then
        compare_key_loop fuel' (S i) n kd ed
          (if byte_at kd i =? byte_at ed (6 + i) then hit else false)
      else hit
  end.

(** Eight bytes at a time, while they fit the array, the entry and the packet. *)
Fixpoint copy_words_loop (fuel off : nat) (elen : Z) (ed payload : list Z) : nat * list Z :=
  match fuel with
  | O => (off, payload)
  | S fuel' =>
      if (off + 8 <? BMC_MAX_CACHE_DATA_SIZE)%nat
         && (Z.of_nat (off + 8) <=? elen)
         && (off + 8 <=? length payload)%nat then
        copy_words_loop fuel' (off + 8) elen ed (write off (slice off 8 ed) payload)
      else (off, payload)
  end.

(** Then byte by byte. *)
Fixpoint copy_bytes_loop (fuel off : nat) (elen : Z) (ed payload : list Z) : nat * list Z :=
  match fuel with
  | O => (off, payload)
  | S fuel' =>
      if (off <? BMC_MAX_CACHE_DATA_SIZE)%nat
         && (Z.of_nat off <? elen)
         && (off + 1 <=? length payload)%nat then
        copy_bytes_loop fuel' (off + 1) elen ed (write off [byte_at ed off] payload)
      else (off, payload)
  end.

(** Both copy loops; [written] equals the final offset, since each step adds what it copied. *)
Definition copy_entry (e : bmc_cache_entry) (payload : list Z) : nat * list Z :=
  let '(off, p1) := copy_words_loop BMC_MAX_CACHE_DATA_SIZE 0 (len e) (data e) payload in
  copy_bytes_loop BMC_MAX_CACHE_DATA_SIZE off (len e) (data e) p1.

(** ** IP checksum *)

(** The header as little-endian 16-bit words, as the loop reads them on the target. *)
Fixpoint sum_u16 (l : list Z) : Z :=
  match l with
  | lo :: hi :: l' => lo + 256 * hi + sum_u16 l'
  | _ => 0
  end.

(** [compute_ip_checksum]: zero the field, add the ten words, fold the carries once. *)
Definition compute_ip_checksum (ip : list Z) : Z :=
  let ip0 := write 10 [0; 0] ip in
  let csum := u32 (sum_u16 ip0) in
  u16 (Z.lnot (Z.land csum 65535 + Z.shiftr csum 16)).

(** ** Loops of the cache-maintaining programs *)

(** Hash of the key in a reply, from byte 6 on; [n] is [off - 6]. *)
Fixpoint update_hash_loop (n : nat) (h : Z) (p : list Z) : Z :=
  match p with
  | [] => h
  | c :: p' =>
      if (n <? BMC_MAX_KEY_LENGTH)%nat && negb (c =? SPACE)
      then update_hash_loop (S n) (fnv_step h c) p'
      else h
  end.

(** The comparison of the cached key with the one in the reply; the result is [diff]. *)
Fixpoint diff_loop (off : nat) (elen : Z) (ed p : list Z) : bool :=
  match p with
  | [] => false
  | c :: p' =>
      if (off - 6 <? BMC_MAX_KEY_LENGTH)%nat && (Z.of_nat off <? elen)
         && (negb (c =? SPACE) || negb (byte_at ed off =? SPACE))
      then if byte_at ed off =? c then diff_loop (S off) elen ed p' else true
      else false
  end.

(** The copy of a reply into the entry, up to and including the second newline. *)
Fixpoint store_loop (j : nat) (count : Z) (elen : Z) (ed p : list Z) : Z * Z * list Z :=
  match p with
  | [] => (count, elen, ed)
  | c :: p' =>
      if (j <? BMC_MAX_CACHE_DATA_SIZE)%nat && (count <? 2)
      then store_loop (S j) (if c =? LF then count + 1 else count) (u32 (elen + 1))
             (<[j := c]> ed) p'
      else (count, elen, ed)
  end.

(** ** The programs *)

Section Programs.

Context `{H : BpfHelpers}.

(** Transport header: destination port and payload offset, if the header fits. *)
Definition rx_transport (pkt : list Z) : option (Z * nat) :=
  let proto := byte_at pkt (ETH_HLEN + 9) in
  if proto =? IPPROTO_UDP then
    if (length pkt <? ETH_HLEN + IP_HLEN + UDP_HLEN)%nat then None
    else Some (be16 pkt (ETH_HLEN + IP_HLEN + 2), UDP_PAYLOAD_OFF)
  else if proto =? IPPROTO_TCP then
    if (length pkt <? ETH_HLEN + IP_HLEN + TCP_HLEN)%nat then None
    else Some (be16 pkt (ETH_HLEN + IP_HLEN + 2), TCP_PAYLOAD_OFF)
  else None.

(** [bmc_rx_filter_main]: recognise memcached traffic on ingress. *)
Definition bmc_rx_filter_main (ctx : xdp_md) (m : kmaps) : xdp_result :=
  let pkt := xdp_pkt ctx in
  let pass := (Return XDP_PASS, ctx, m) in
  if (length pkt <? ETH_HLEN + IP_HLEN)%nat then pass else
  match rx_transport pkt with
  | None => pass
  | Some (dport, payload) =>
      let proto := byte_at pkt (ETH_HLEN + 9) in
      if (dport =? MEMCACHED_PORT) && (payload + 4 <=? length pkt)%nat then
        if (proto =? IPPROTO_UDP) && bool_decide (slice payload 4 pkt = bytes "get ") then
          if negb (map_lookup_ok 1 0) then pass else
          let m1 := set_stats (incr_get_recv (map_stats m)) m in
          if negb (map_lookup_ok 1 0) then (Return XDP_PASS, ctx, m1) else
          let rpo := read_pkt_offset (map_parsing_context m) in
          let m2 := set_pctx (mk_pctx 0 0 rpo 0) m1 in
          let off := skip_spaces 4 (drop (payload + 4) pkt) in
          if (off <? BMC_MAX_PACKET_LENGTH)%nat then
            let m3 := set_pctx (mk_pctx 0 0 (u16 (Z.of_nat off)) 0) m2 in
            let '(r, ctx') := bpf_xdp_adjust_head ctx (Z.of_nat (UDP_PAYLOAD_OFF + off)) in
            if r =? 0 then (TailCall BMC_PROG_XDP_HASH_KEYS XDP_PASS, ctx', m3)
            else (Return XDP_PASS, ctx', m3)
          else (Return XDP_PASS, ctx, m2)
        else if proto =? IPPROTO_TCP then
          (TailCall BMC_PROG_XDP_INVALIDATE_CACHE XDP_PASS, ctx, m)
        else pass
      else pass
  end.

(** Entry test shared by the hasher and the reply writer. *)
Definition entry_matches (e : bmc_cache_entry) (h : Z) : bool :=
  negb (valid e =? 0) && (u32 (hash e) =? h).

(** Second half of [bmc_hash_keys_main]: go on with the next key, or build the reply. *)
Definition hash_keys_next (ctx : xdp_md) (m : kmaps) (s : key_scan) : xdp_result :=
  let pc := map_parsing_context m in
  if scan_done s then
    let '(_, ctx') := bpf_xdp_adjust_head ctx
      (0 - (Z.of_nat UDP_PAYLOAD_OFF + read_pkt_offset pc)) in
    if 0 <? key_count pc then (TailCall BMC_PROG_XDP_PREPARE_PACKET XDP_PASS, ctx', m)
    else (Return XDP_PASS, ctx', m)
  else
    let off := Z.of_nat (S (scan_off s)) in
    let m' := set_pctx (mk_pctx (key_count pc) (current_key pc)
                          (u16 (read_pkt_offset pc + off)) (write_pkt_offset pc)) m in
    let '(r, ctx') := bpf_xdp_adjust_head ctx off in
    if r =? 0 then (TailCall BMC_PROG_XDP_HASH_KEYS XDP_PASS, ctx', m')
    else (Return XDP_PASS, ctx', m').

(** [bmc_hash_keys_main]: hash one key of a GET and look it up. *)
Definition bmc_hash_keys_main (ctx : xdp_md) (m : kmaps) : xdp_result :=
  let payload := xdp_pkt ctx in
  let pass := (Return XDP_PASS, ctx, m) in
  if (length payload =? 0)%nat then pass else
  if negb (map_lookup_ok 1 0) then pass else
  let pc := map_parsing_context m in
  if negb (map_lookup_ok BMC_MAX_KEY_IN_PACKET (key_count pc)) then pass else
  let key := keys_get (map_keys m) (key_count pc) in
  let s := hash_key_loop 0 FNV_OFFSET_BASIS_32 0 payload in
  let m1 := set_keys (<[key_count pc := mk_key (scan_hash s) (kdata key) (klen key)]>
                        (map_keys m)) m in
  if (scan_len s =? 0) || (Z.of_nat BMC_MAX_KEY_LENGTH <? scan_len s) then
    let '(_, ctx') := bpf_xdp_adjust_head ctx
      (0 - (Z.of_nat UDP_PAYLOAD_OFF + read_pkt_offset pc)) in
    (Return XDP_PASS, ctx', m1)
  else
  let cache_idx := cache_idx_of (scan_hash s) in
  if negb (map_lookup_ok BMC_CACHE_ENTRY_COUNT cache_idx) then (Return XDP_PASS, ctx, m1) else
  let entry := kcache_get (map_kcache m1) cache_idx in
  if entry_matches entry (scan_hash s) then
    let key' := mk_key (scan_hash s) (copy_key_loop 0 (scan_len s) payload (kdata key))
                  (scan_len s) in
    let m2 := set_keys (<[key_count pc := key']> (map_keys m1)) m1 in
    let m3 := set_pctx (mk_pctx (u32 (key_count pc + 1)) (current_key pc)
                          (read_pkt_offset pc) (write_pkt_offset pc)) m2 in
    hash_keys_next ctx m3 s
  else
    if negb (map_lookup_ok 1 0) then (Return XDP_PASS, ctx, m1) else
    hash_keys_next ctx (set_stats (incr_miss (map_stats m1)) m1) s.

(** The address swap of [bmc_prepare_packet_main] on the new headers. *)
Definition swap_addresses (pkt : list Z) : list Z :=
  let tmp_mac := slice 6 6 pkt in
  let p1 := write 6 (slice 0 6 pkt) pkt in
  let p2 := write 0 tmp_mac p1 in
  let tmp_ip := slice 26 4 p2 in
  let p3 := write 26 (slice 30 4 p2) p2 in
  let p4 := write 30 tmp_ip p3 in
  let tmp_port := slice 34 2 p4 in
  let p5 := write 34 (slice 36 2 p4) p4 in
  write 36 tmp_port p5.

(** [bmc_prepare_packet_main]: make room and turn the request headers into reply headers. *)
Definition bmc_prepare_packet_main (ctx : xdp_md) (m : kmaps) : xdp_result :=
  let '(r, ctx1) := bpf_xdp_adjust_head ctx (- Z.of_nat ADJUST_HEAD_LEN) in
  if negb (r =? 0) then (Return XDP_PASS, ctx1, m) else
  let pkt := xdp_pkt ctx1 in
  if (length pkt <=? UDP_PAYLOAD_OFF)%nat
     || (length pkt <=? ADJUST_HEAD_LEN + UDP_PAYLOAD_OFF + 1)%nat
  then (Return XDP_PASS, ctx1, m) else
  let moved := write 0 (slice ADJUST_HEAD_LEN UDP_PAYLOAD_OFF pkt) pkt in
  let ctx2 := mk_xdp (xdp_head ctx1) (swap_addresses moved) (xdp_tail ctx1) in
  let '(r2, ctx3) := bpf_xdp_adjust_head ctx2 (Z.of_nat UDP_PAYLOAD_OFF) in
  if negb (r2 =? 0) then (Return XDP_PASS, ctx3, m)
  else (TailCall BMC_PROG_XDP_WRITE_REPLY XDP_PASS, ctx3, m).

(** Lengths and checksums of the reply headers; [total] is the reply's payload size. *)
Definition reply_headers (pkt : list Z) (total : Z) : list Z :=
  let p1 := put_be16 16 (Z.of_nat (IP_HLEN + UDP_HLEN + MEMCACHED_UDP_HLEN) + total) pkt in
  let c := compute_ip_checksum (slice ETH_HLEN IP_HLEN p1) in
  let p2 := write 24 [wrap 8 c; wrap 8 (c / 256)] p1 in
  let p3 := write 40 [0; 0] p2 in
  put_be16 38 (Z.of_nat (UDP_HLEN + MEMCACHED_UDP_HLEN) + total) p3.

(** The branch of [bmc_write_reply_main] that ends and sends the reply. *)
Definition send_reply (ctx : xdp_md) (m : kmaps) (written : nat) : xdp_result :=
  let pkt := xdp_pkt ctx in
  if (written + 5 <=? length pkt)%nat then
    let ctx1 := mk_xdp (xdp_head ctx) (write written (bytes "END" ++ [CR; LF]) pkt)
                  (xdp_tail ctx) in
    let wpo := write_pkt_offset (map_parsing_context m) in
    let '(r, ctx2) := bpf_xdp_adjust_head ctx1 (0 - (Z.of_nat UDP_PAYLOAD_OFF + wpo)) in
    if negb (r =? 0) then (Return XDP_DROP, ctx2, m) else
    let pkt2 := xdp_pkt ctx2 in
    if (length pkt2 <? ETH_HLEN + IP_HLEN + UDP_HLEN)%nat then (Return XDP_PASS, ctx2, m) else
    let total := wpo + Z.of_nat (written + 5) in
    let ctx3 := mk_xdp (xdp_head ctx2) (reply_headers pkt2 total) (xdp_tail ctx2) in
    let '(_, ctx4) := bpf_xdp_adjust_tail ctx3
      (0 - (Z.of_nat (length pkt2) - (Z.of_nat UDP_PAYLOAD_OFF + total))) in
    (Return XDP_TX, ctx4, m)
  else (Return XDP_DROP, ctx, m).

(** The end of [bmc_write_reply_main], after [current_key] has been advanced: send the reply,
    give the untouched request to the stack, or go on with the next key. *)
Definition write_reply_next (ctx : xdp_md) (m : kmaps) (written : nat) : xdp_result :=
  let pc := map_parsing_context m in
  if (current_key pc =? key_count pc)
     && ((0 <? write_pkt_offset pc) || (0 <? Z.of_nat written)) then
    send_reply ctx m written
  else if current_key pc =? key_count pc then
    let m' := set_stats (add_mispredict (key_count pc) (map_stats m)) m in
    let '(_, ctx') := bpf_xdp_adjust_head ctx
      (Z.of_nat ADJUST_HEAD_LEN - Z.of_nat UDP_PAYLOAD_OFF) in
    (Return XDP_PASS, ctx', m')
  else if current_key pc <? BMC_MAX_KEY_IN_PACKET then
    let m' := set_pctx (mk_pctx (key_count pc) (current_key pc) (read_pkt_offset pc)
                          (u16 (write_pkt_offset pc + Z.of_nat written))) m in
    let '(r, ctx') := bpf_xdp_adjust_head ctx (Z.of_nat written) in
    if negb (r =? 0) then (Return XDP_DROP, ctx', m')
    else (TailCall BMC_PROG_XDP_WRITE_REPLY XDP_DROP, ctx', m')
  else (Return XDP_DROP, ctx, m).

(** [bmc_write_reply_main]: append the cached reply of one key. *)
Definition bmc_write_reply_main (ctx : xdp_md) (m : kmaps) : xdp_result :=
  let payload := xdp_pkt ctx in
  let pass := (Return XDP_PASS, ctx, m) in
  if (length payload =? 0)%nat then pass else
  if negb (map_lookup_ok 1 0) then pass else
  let pc := map_parsing_context m in
  if negb (map_lookup_ok BMC_MAX_KEY_IN_PACKET (current_key pc)) then pass else
  let key := keys_get (map_keys m) (current_key pc) in
  let cache_idx := cache_idx_of (khash key) in
  if negb (map_lookup_ok BMC_CACHE_ENTRY_COUNT cache_idx) then (Return XDP_DROP, ctx, m) else
  let entry := kcache_get (map_kcache m) cache_idx in
  let '(cache_hit, written, payload') :=
    if entry_matches entry (khash key) then
      if compare_key_loop BMC_MAX_KEY_LENGTH 0 (klen key) (kdata key) (data entry) true
      then let '(w, p') := copy_entry entry payload in (true, w, p')
      else (false, O, payload)
    else (true, O, payload) in
  let ctx1 := mk_xdp (xdp_head ctx) payload' (xdp_tail ctx) in
  if negb (map_lookup_ok 1 0) then (Return XDP_PASS, ctx1, m) else
  let m1 := set_stats (if cache_hit then incr_hit (map_stats m) else incr_miss (map_stats m)) m in
  let m2 := set_pctx (mk_pctx (key_count pc) (u32 (current_key pc + 1)) (read_pkt_offset pc)
                        (write_pkt_offset pc)) m1 in
  write_reply_next ctx1 m2 written.

(** Clearing the entry of a key that a SET names. *)
Definition invalidate_entry (h : Z) (m : kmaps) : kmaps :=
  let i := cache_idx_of h in
  let e := kcache_get (map_kcache m) i in
  if negb (valid e =? 0) then
    set_stats (incr_invalidation (map_stats m))
      (set_kcache (<[i := mk_entry (len e) 0 (hash e) (data e)]> (map_kcache m)) m)
  else m.

(** Whether [p] goes on with "et", in bounds. *)
Definition starts_et (p : list Z) : bool :=
  match p with
  | e :: t :: _ => (e =? 101) && (t =? 116)
  | _ => false
  end.

(** The scanning loop of [bmc_invalidate_cache_main]; [p] is the payload from [off]. *)
Fixpoint invalidate_loop (off : nat) (set_found key_found : bool) (h : Z) (p : list Z)
    (m : kmaps) {struct p} : kmaps :=
  match p with
  | [] => m
  | c :: p1 =>
      if (off <? BMC_MAX_PACKET_LENGTH)%nat then
        if negb set_found && (c =? 115) && starts_et p1 then
          let m' := set_stats (incr_set_recv (map_stats m)) m in
          match p1 with
          | _ :: _ :: _ :: p5 => invalidate_loop (off + 4) true key_found h p5 m'
          | _ => m'
          end
        else if negb key_found && set_found && negb (c =? SPACE) then
          if c =? CR then invalidate_loop (S off) false false h p1 m
          else invalidate_loop (S off) set_found true (fnv_step FNV_OFFSET_BASIS_32 c) p1 m
        else if key_found then
          if c =? SPACE then
            if map_lookup_ok BMC_CACHE_ENTRY_COUNT (cache_idx_of h)
            then invalidate_loop (S off) false false h p1 (invalidate_entry h m)
            else m
          else invalidate_loop (S off) set_found key_found (fnv_step h c) p1 m
        else invalidate_loop (S off) set_found key_found h p1 m
      else m
  end.

(** [bmc_invalidate_cache_main]: drop the entries that TCP SET commands name. *)
Definition bmc_invalidate_cache_main (ctx : xdp_md) (m : kmaps) : xdp_result :=
  let pkt := xdp_pkt ctx in
  if (length pkt <=? TCP_PAYLOAD_OFF)%nat then (Return XDP_PASS, ctx, m) else
  if negb (map_lookup_ok 1 0) then (Return XDP_PASS, ctx, m) else
  (Return XDP_PASS, ctx, invalidate_loop 0 false false 0 (drop TCP_PAYLOAD_OFF pkt) m).

(** [bmc_tx_filter_main]: recognise GET replies on egress. *)
Definition bmc_tx_filter_main (skb : sk_buff) (m : kmaps) : tc_result :=
  let pkt := skb_data skb in
  if Z.of_nat (BMC_MAX_CACHE_DATA_SIZE + UDP_PAYLOAD_OFF) <? skb_len skb then
    (Return TC_ACT_OK, m)
  else if (length pkt <? ETH_HLEN + IP_HLEN)%nat then (Return XDP_PASS, m)
  else if negb (byte_at pkt (ETH_HLEN + 9) =? IPPROTO_UDP) then (Return TC_ACT_OK, m)
  else if (length pkt <? ETH_HLEN + IP_HLEN + UDP_HLEN)%nat then (Return TC_ACT_OK, m)
  else if (be16 pkt (ETH_HLEN + IP_HLEN) =? MEMCACHED_PORT)
          && (UDP_PAYLOAD_OFF + 5 + 1 <=? length pkt)%nat
          && bool_decide (slice UDP_PAYLOAD_OFF 6 pkt = bytes "VALUE ") then
    if negb (map_lookup_ok 1 0) then (Return XDP_PASS, m)
    else (TailCall BMC_PROG_TC_UPDATE_CACHE TC_ACT_OK,
          set_stats (incr_get_resp (map_stats m)) m)
  else (Return TC_ACT_OK, m).

(** [bmc_update_cache_main]: store a GET reply in the cache. *)
Definition bmc_update_cache_main (skb : sk_buff) (m : kmaps) : tc_result :=
  let payload := drop UDP_PAYLOAD_OFF (skb_data skb) in
  let h := update_hash_loop 0 FNV_OFFSET_BASIS_32 (drop 6 payload) in
  let cache_idx := cache_idx_of h in
  if negb (map_lookup_ok BMC_CACHE_ENTRY_COUNT cache_idx) then (Return TC_ACT_OK, m) else
  let e := kcache_get (map_kcache m) cache_idx in
  if entry_matches e h && negb (diff_loop 6 (len e) (data e) (drop 6 payload)) then
    (Return TC_ACT_OK, m)
  else
  let '(count, elen, ed) := store_loop 0 0 0 (data e) payload in
  if count =? 2 then
    let m1 := set_kcache (<[cache_idx := mk_entry elen 1 (s32 h) ed]> (map_kcache m)) m in
    if negb (map_lookup_ok 1 0) then (Return XDP_PASS, m1)
    else (Return TC_ACT_OK, set_stats (incr_update (map_stats m1)) m1)
  else
    (Return TC_ACT_OK,
     set_kcache (<[cache_idx := mk_entry elen (valid e) (hash e) ed]> (map_kcache m)) m).

(** ** Dispatch *)

(** [map_progs_xdp] and [map_progs_tc] as bmc_user.c fills them. *)
Definition xdp_prog (s : xdp_slot) : xdp_md -> kmaps -> xdp_result :=
  match s with
  | BMC_PROG_XDP_HASH_KEYS => bmc_hash_keys_main
  | BMC_PROG_XDP_PREPARE_PACKET => bmc_prepare_packet_main
  | BMC_PROG_XDP_WRITE_REPLY => bmc_write_reply_main
  | BMC_PROG_XDP_INVALIDATE_CACHE => bmc_invalidate_cache_main
  end.

Definition tc_prog (s : tc_slot) : sk_buff -> kmaps -> tc_result :=
  match s with
  | BMC_PROG_TC_UPDATE_CACHE => bmc_update_cache_main
  end.

(** Resolve an outcome with [budget] tail calls left: the kernel bounds their number, and a
    tail call beyond the bound falls through to the code after it. *)
Fixpoint xdp_resume (budget : nat) (r : xdp_result) : Z * xdp_md * kmaps :=
  let '(o, ctx, m) := r in
  match o with
  | Return code => (code, ctx, m)
  | TailCall s fallthrough =>
      match budget with
      | O => (fallthrough, ctx, m)
      | S budget' => xdp_resume budget' (xdp_prog s ctx m)
      end
  end.

(** An ingress frame, from the entry program to the verdict. *)
Definition xdp_run (budget : nat) (ctx : xdp_md) (m : kmaps) : Z * xdp_md * kmaps :=
  xdp_resume budget (bmc_rx_filter_main ctx m).

Definition tc_resume (budget : nat) (skb : sk_buff) (r : tc_result) : Z * kmaps :=
  let '(o, m) := r in
  match o with
  | Return code => (code, m)
  | TailCall s fallthrough =>
      match budget with
      | O => (fallthrough, m)
      | S _ =>
          match tc_prog s skb m with
          | (Return code, m') => (code, m')
          | (TailCall _ ft, m') => (ft, m')
          end
      end
  end.

(** An egress packet, from the entry program to the verdict. *)
Definition tc_run (budget : nat) (skb : sk_buff) (m : kmaps) : Z * kmaps :=
  tc_resume budget skb (bmc_tx_filter_main skb m).

End Programs.

(** ** A concrete kernel *)

(** Helpers that follow the kernel's rule: [data] may go back to the start of the headroom and
    forward as long as an Ethernet header remains; [data_end] may only shrink the frame to
    the same limit. *)
Definition plain_adjust_head (c : xdp_md) (d : Z) : Z * xdp_md :=
  match move_head c d with
  | Some c' => if (ETH_HLEN <=? length (xdp_pkt c'))%nat then (0, c') else (-22, c)
  | None => (-22, c)
  end.

Definition plain_adjust_tail (c : xdp_md) (d : Z) : Z * xdp_md :=
  match move_tail c d with
  | Some c' => if (d <=? 0) && (ETH_HLEN <=? length (xdp_pkt c'))%nat then (0, c') else (-22, c)
  | None => (-22, c)
  end.

#[local] Instance plain_helpers : BpfHelpers := {
  bpf_xdp_adjust_head := plain_adjust_head;
  bpf_xdp_adjust_tail := plain_adjust_tail;
  map_lookup_ok n i := (0 <=? i) && (i <? n)
}.

#[local] Instance plain_helpers_laws : BpfHelpersLaws plain_helpers.
Proof.
  split; cbn; unfold plain_adjust_head, plain_adjust_tail; intros;
    repeat case_match; simplify_eq; auto; lia.
Qed.
