(* ===== verification/BmcLoops.v ===== *)
(** What each loop of bmc_kern.c computes, as a function of the whole input. *)
From S2P Require Import Prelude BmcCommon BmcKern.

(** A key as the text protocol delimits it: no space and no carriage return. *)
Definition key_chars (k : list Z) : Prop := Forall (fun c => c <> SPACE /\ c <> CR) k.

(** The specification of the reply copier: everything up to the [n]-th newline. *)
Fixpoint take_lines (n : nat) (p : list Z) : list Z :=
  match n, p with
  | O, _ => []
  | _, [] => []
  | S n', c :: p' => c :: take_lines (if (c =? LF) then n' else n) p'
  end.

(** Number of newlines. *)
Definition count_lf (p : list Z) : nat := length (filter (fun c => c = LF) p).

Lemma MAX_DATA : BMC_MAX_CACHE_DATA_SIZE = 1303%nat.
Proof. reflexivity. Qed.

Lemma insert_app_mid (pre d : list Z) c c0 :
  <[length pre := c]> (pre ++ c0 :: d) = (pre ++ [c]) ++ d.
Proof. rewrite insert_app_r_alt, Nat.sub_diag by lia. by rewrite <- app_assoc. Qed.

Lemma skip_spaces_stop off c p : c <> SPACE -> skip_spaces off (c :: p) = off.
Proof.
  intros. simpl. destruct (_ <? _)%nat; [|done].
  by rewrite (proj2 (Z.eqb_neq c SPACE)).
Qed.

Lemma hash_key_loop_app k : forall off h n p,
  key_chars k -> 0 <= n -> (off + length k <= 250)%nat -> n + Z.of_nat (length k) < 2 ^ 32 ->
  hash_key_loop off h n (k ++ p) =
  hash_key_loop (off + length k) (fnv1a_hash32 k h) (n + Z.of_nat (length k)) p.
Proof.
  induction k as [|c k IH]; intros off h n p Hk Hn Hl Hw; cbn [app length fnv1a_hash32].
  - by rewrite Nat.add_0_r, Z.add_0_r.
  - inversion_clear Hk as [|? ? [Hs Hc] Hk'].
    cbn [hash_key_loop]. cbn [length] in *.
    rewrite (proj2 (Nat.ltb_lt _ _)) by (unfold BMC_MAX_KEY_LENGTH; lia).
    rewrite !(proj2 (Z.eqb_neq _ _)) by done.
    rewrite wrap_small by lia. rewrite IH by (done || lia).
    f_equal; lia.
Qed.

(** The hashing loop on a key and its delimiter. *)
Lemma hash_key_loop_key k c p :
  key_chars k -> (length k <= 250)%nat -> c = CR \/ c = SPACE ->
  hash_key_loop 0 FNV_OFFSET_BASIS_32 0 (k ++ c :: p) =
  mk_scan (key_hash k) (Z.of_nat (length k)) (length k) (c =? CR).
Proof.
  intros Hk Hl Hc. rewrite hash_key_loop_app by (done || lia).
  cbn [hash_key_loop]. rewrite (proj2 (Nat.ltb_lt _ _)) by (unfold BMC_MAX_KEY_LENGTH; lia).
  rewrite Z.add_0_l. destruct Hc as [-> | ->]; done.
Qed.

(** On a key that the packet ends with. *)
Lemma hash_key_loop_end k :
  key_chars k -> (length k <= 250)%nat ->
  hash_key_loop 0 FNV_OFFSET_BASIS_32 0 k =
  mk_scan (key_hash k) (Z.of_nat (length k)) (length k) false.
Proof.
  intros Hk Hl. rewrite <- (app_nil_r k) at 1. by rewrite hash_key_loop_app by (done || lia).
Qed.

Lemma copy_key_loop_app k : forall pre n p d,
  n = Z.of_nat (length pre + length k) -> (length k <= length d)%nat ->
  copy_key_loop (length pre) n (k ++ p) (pre ++ d) = pre ++ k ++ drop (length k) d.
Proof.
  induction k as [|c k IH]; intros pre n p d Hn Hl; cbn [app length] in *.
  - rewrite drop_0. destruct p as [|c p]; [done|]. simpl.
    rewrite (proj2 (Z.ltb_ge _ _)) by lia. done.
  - destruct d as [|c0 d]; simpl in Hl; [lia|].
    cbn [copy_key_loop]. rewrite (proj2 (Z.ltb_lt _ _)) by lia.
    rewrite insert_app_mid.
    replace (S (length pre)) with (length (pre ++ [c])) by (rewrite length_app; simpl; lia).
    rewrite IH by (rewrite ?length_app; simpl; lia).
    rewrite <- !app_assoc. done.
Qed.

Lemma copy_key_loop_key k p d :
  (length k <= length d)%nat ->
  copy_key_loop 0 (Z.of_nat (length k)) (k ++ p) d = k ++ drop (length k) d.
Proof. intros. apply (copy_key_loop_app k []); simpl; lia. Qed.

(** The comparison accepts exactly when all [n] key bytes agree. *)
Lemma compare_key_loop_spec kd ed n : forall fuel i hit,
  (250 <= fuel + i)%nat -> 0 <= n ->
  compare_key_loop fuel i n kd ed hit = true <->
  hit = true /\
  forall j, (i <= j < 250)%nat -> Z.of_nat j < n -> byte_at kd j = byte_at ed (6 + j).
Proof.
  induction fuel as [|fuel IH]; intros i hit Hf Hn; cbn [compare_key_loop].
  - split; [intros ->; split; [done|lia] | tauto].
  - destruct ((i <? BMC_MAX_KEY_LENGTH)%nat && (Z.of_nat i <? n)) eqn:Hg.
    + zbool. rewrite IH by lia. unfold BMC_MAX_KEY_LENGTH in *.
      destruct (Z.eqb_spec (byte_at kd i) (byte_at ed (6 + i))) as [He|He].
      * split; intros [Hh Hj]; split; auto; intros j Hr Hjn; [|apply Hj; lia].
        destruct (decide (j = i)) as [->|]; [done|apply Hj; lia].
      * split; [intros [? _]; done|].
        intros [_ Hj]. exfalso. apply He, Hj; lia.
    + split; [|tauto]. intros ->. split; [done|]. intros j Hj Hjn.
      apply andb_false_iff in Hg. destruct Hg; zbool; unfold BMC_MAX_KEY_LENGTH in *; lia.
Qed.

(** Overwriting the front of the payload, one step further. *)
Lemma write_prefix off bs ed payload :
  (off + length bs <= length payload)%nat -> (off + length bs <= length ed)%nat ->
  slice off (length bs) ed = bs ->
  write off bs (take off ed ++ drop off payload) =
  take (off + length bs) ed ++ drop (off + length bs) payload.
Proof.
  intros Hp He Hs. unfold write.
  rewrite take_app_le, take_idemp by (rewrite length_take; lia).
  rewrite <- Hs at 1. unfold slice. rewrite (app_assoc (take off ed)), take_take_drop.
  f_equal. rewrite drop_app_ge by (rewrite length_take; lia).
  rewrite length_take, drop_drop. f_equal. lia.
Qed.

(** State of both copy loops: the first [off] bytes are copied. *)
Definition copied (ed payload : list Z) (off : nat) : list Z := take off ed ++ drop off payload.

Lemma length_copied ed payload off :
  (off <= length ed)%nat -> (off <= length payload)%nat ->
  length (copied ed payload off) = length payload.
Proof. intros. unfold copied. rewrite length_app, length_take, length_drop. lia. Qed.

Lemma copy_words_loop_spec ed payload elen : length ed = 1303%nat -> 0 <= elen ->
  forall fuel off, (off <= 1303)%nat -> Z.of_nat off <= elen -> (off <= length payload)%nat ->
  exists off', (off <= off' <= 1303)%nat /\ Z.of_nat off' <= elen /\ (off' <= length payload)%nat /\
    copy_words_loop fuel off elen ed (copied ed payload off) = (off', copied ed payload off').
Proof.
  intros He Hlen. induction fuel as [|fuel IH]; intros off H1 H2 H3; cbn [copy_words_loop].
  - exists off. auto with lia.
  - rewrite length_copied by lia. rewrite MAX_DATA.
    destruct (_ && _) eqn:Hg; [|exists off; auto with lia].
    zbool.
    destruct (IH (off + 8)%nat) as (off' & ? & ? & ? & Hrun); [lia..|].
    exists off'. repeat split; [lia..|].
    rewrite <- Hrun. f_equal. unfold copied.
    assert (length (slice off 8 ed) = 8%nat) as Hl by (apply length_slice; lia).
    rewrite write_prefix; rewrite ?Hl; done || lia.
Qed.

Lemma slice_one off ed : (off < length ed)%nat -> slice off 1 ed = [byte_at ed off].
Proof.
  intros H. unfold slice, byte_at.
  destruct (lookup_lt_is_Some_2 ed off H) as [x Hx].
  rewrite (drop_S _ x) by done. simpl. rewrite (nth_lookup_Some _ _ _ x) by done. by destruct (drop (S off) ed).
Qed.

Lemma copy_bytes_loop_spec ed payload elen : length ed = 1303%nat -> 0 <= elen ->
  forall fuel off, (off <= 1303)%nat -> (1303 <= fuel + off)%nat ->
  Z.of_nat off <= elen -> (off <= length payload)%nat ->
  let w := Nat.min 1303 (Nat.min (Z.to_nat elen) (length payload)) in
  copy_bytes_loop fuel off elen ed (copied ed payload off) = (w, copied ed payload w).
Proof.
  intros He Hlen. induction fuel as [|fuel IH]; intros off H1 H2 H3 H4 w; cbn [copy_bytes_loop].
  - replace w with off by lia. done.
  - rewrite length_copied, MAX_DATA by lia.
    destruct (_ && _) eqn:Hg.
    + zbool. rewrite <- (slice_one off ed) by lia.
      unfold copied at 1. rewrite write_prefix; rewrite ?slice_one by lia; simpl; try lia;
        [|done].
      apply (IH (off + 1)%nat); lia.
    + replace w with off; [done|].
      apply andb_false_iff in Hg as [Hg|Hg]; [apply andb_false_iff in Hg as [Hg|Hg]|]; zbool; lia.
Qed.

(** The two copy loops together copy as many bytes as entry, array and packet allow. *)
Lemma copy_entry_spec e payload :
  length (data e) = 1303%nat -> 0 <= len e ->
  let w := Nat.min 1303 (Nat.min (Z.to_nat (len e)) (length payload)) in
  copy_entry e payload = (w, take w (data e) ++ drop w payload).
Proof.
  intros He Hl w. unfold copy_entry. rewrite MAX_DATA.
  destruct (copy_words_loop_spec (data e) payload (len e) He Hl 1303 0)
    as (off & ? & ? & ? & Hrun); [lia..|].
  unfold copied in Hrun at 1. rewrite take_0, drop_0, app_nil_l in Hrun.
  rewrite Hrun. by apply copy_bytes_loop_spec; lia || done.
Qed.

Lemma update_hash_loop_key k : forall n h p,
  key_chars k -> (n + length k <= 250)%nat ->
  update_hash_loop n h (k ++ SPACE :: p) = fnv1a_hash32 k h.
Proof.
  induction k as [|c k IH]; intros n h p Hk Hl; simpl.
  - by destruct (_ <? _)%nat.
  - inversion_clear Hk as [|? ? [Hs _] Hk']. simpl in Hl.
    rewrite (proj2 (Nat.ltb_lt _ _)) by (unfold BMC_MAX_KEY_LENGTH; lia).
    rewrite (proj2 (Z.eqb_neq _ _)) by done. simpl. apply IH; [done|lia].
Qed.

Lemma take_lines_length n p : (length (take_lines n p) <= length p)%nat.
Proof. revert n. induction p as [|c p IH]; intros [|n]; simpl; try lia. specialize (IH (if c =? LF then n else S n)). lia. Qed.

Lemma take_lines_prefix n p : take_lines n p = take (length (take_lines n p)) p.
Proof. revert n. induction p as [|c p IH]; intros [|n]; simpl; try done. by f_equal. Qed.

Lemma count_lf_cons c p : count_lf (c :: p) = ((if (c =? LF)%Z then 1 else 0) + count_lf p)%nat.
Proof.
  unfold count_lf. rewrite filter_cons. destruct (Z.eqb_spec c LF); case_decide; done.
Qed.

Lemma count_take_lines n p : (count_lf (take_lines n p) <= n)%nat.
Proof.
  revert n. induction p as [|c p IH]; intros [|n]; simpl; try (unfold count_lf; simpl; lia).
  rewrite count_lf_cons. destruct (c =? LF); [specialize (IH n)|specialize (IH (S n))]; lia.
Qed.

(** The store loop writes exactly the lines it should and counts them. *)
Lemma store_loop_gen p : forall pre d cnt,
  (cnt <= 2)%nat -> (length pre + length d = 1303)%nat ->
  let t := take_lines (2 - cnt) (take (1303 - length pre) p) in
  store_loop (length pre) (Z.of_nat cnt) (Z.of_nat (length pre)) (pre ++ d) p =
  (Z.of_nat (cnt + count_lf t), Z.of_nat (length pre + length t),
   pre ++ t ++ drop (length t) d).
Proof.
  induction p as [|c p IH]; intros pre d cnt Hc Hl t.
  - subst t. rewrite take_nil. cbn [store_loop].
    destruct (2 - cnt)%nat; simpl; by rewrite Nat.add_0_r, ?Nat.add_0_r, drop_0.
  - cbn [store_loop]. rewrite MAX_DATA. destruct (_ && _) eqn:Hg.
    + zbool. destruct d as [|c0 d]; simpl in Hl; [lia|].
      rewrite insert_app_mid.
      replace (S (length pre)) with (length (pre ++ [c])) by (rewrite length_app; simpl; lia).
      rewrite wrap_small by lia.
      replace (Z.of_nat (length pre) + 1) with (Z.of_nat (length (pre ++ [c])))
        by (rewrite length_app; simpl; lia).
      subst t. replace (1303 - length pre)%nat with (S (1303 - length (pre ++ [c])))
        by (rewrite length_app; simpl; lia).
      replace (2 - cnt)%nat with (S (1 - cnt)) by lia. cbn [take take_lines].
      rewrite count_lf_cons. cbn [length app drop].
      destruct (c =? LF) eqn:Hlf.
      * replace (Z.of_nat cnt + 1) with (Z.of_nat (S cnt)) by lia.
        rewrite IH by (rewrite ?length_app; simpl; lia). cbn zeta.
        replace (2 - S cnt)%nat with (1 - cnt)%nat by lia.
        rewrite <- !app_assoc. do 2 f_equal; try done; rewrite ?length_app; simpl; lia.
      * rewrite IH by (rewrite ?length_app; simpl; lia). cbn zeta.
        replace (2 - cnt)%nat with (S (1 - cnt)) by lia.
        rewrite <- !app_assoc. do 2 f_equal; try done; rewrite ?length_app; simpl; lia.
    + assert (t = []) as ->.
      { subst t. apply andb_false_iff in Hg as [Hg|Hg]; zbool.
        - replace (1303 - length pre)%nat with 0%nat by lia. destruct (2 - cnt)%nat; done.
        - replace (2 - cnt)%nat with 0%nat by lia. by destruct (take _ _). }
      simpl. by rewrite !Nat.add_0_r, drop_0.
Qed.

Lemma store_loop_spec ed p :
  length ed = 1303%nat ->
  let t := take_lines 2 (take 1303 p) in
  store_loop 0 0 0 ed p =
  (Z.of_nat (count_lf t), Z.of_nat (length t), t ++ drop (length t) ed).
Proof. intros He. apply (store_loop_gen p [] ed 0); simpl; lia. Qed.

(** Matching a key against itself finds no difference. *)
Lemma diff_loop_same k : forall off elen ed p,
  key_chars k -> (6 <= off)%nat -> slice off (length k) ed = k -> byte_at ed (off + length k) = SPACE ->
  diff_loop off elen ed (k ++ SPACE :: p) = false.
Proof.
  induction k as [|c k IH]; intros off elen ed p Hk Hoff Hs He.
  - simpl in *. rewrite Nat.add_0_r in He. rewrite He. by rewrite !Z.eqb_refl, andb_false_r.
  - inversion_clear Hk as [|? ? [Hc _] Hk']. cbn [length] in *.
    assert (byte_at ed off = c /\ slice (S off) (length k) ed = k) as [Hb Hs'].
    { unfold slice, byte_at in *. destruct (drop off ed) as [|x l] eqn:Hd; [done|].
      simpl in Hs. injection Hs as -> Hs. split.
      - apply nth_lookup_Some. rewrite <- (Nat.add_0_r off), <- lookup_drop, Hd. done.
      - rewrite <- Hs at 2. f_equal. replace (S off) with (off + 1)%nat by lia.
        by rewrite <- drop_drop, Hd. }
    cbn [app diff_loop]. destruct (_ && _); [|done].
    rewrite Hb, Z.eqb_refl. apply IH; auto.
    rewrite <- He. f_equal. lia.
Qed.

(** C6: the hash that a GET computes while scanning a key, the one the egress path computes for
    the key of a reply, and the loader's [fnv1a_hash32] are the same function of the key, so
    requests, replies and invalidations meet in one cache slot. *)
Theorem hashers_agree k c p :
  key_chars k -> (length k <= 250)%nat -> c = CR \/ c = SPACE ->
  scan_hash (hash_key_loop 0 FNV_OFFSET_BASIS_32 0 (k ++ c :: p)) =
    fnv1a_hash32 k FNV_OFFSET_BASIS_32 /\
  update_hash_loop 0 FNV_OFFSET_BASIS_32 (k ++ SPACE :: p) = fnv1a_hash32 k FNV_OFFSET_BASIS_32 /\
  0 <= cache_idx_of (fnv1a_hash32 k FNV_OFFSET_BASIS_32) < BMC_CACHE_ENTRY_COUNT.
Proof.
  intros Hk Hl Hc. rewrite hash_key_loop_key, update_hash_loop_key by (done || lia).
  auto with cint.
Qed.

Lemma hashers_agree_witness :
  scan_hash (hash_key_loop 0 FNV_OFFSET_BASIS_32 0 (bytes "user:42" ++ SPACE :: bytes "k2")) =
    fnv1a_hash32 (bytes "user:42") FNV_OFFSET_BASIS_32 /\
  update_hash_loop 0 FNV_OFFSET_BASIS_32 (bytes "user:42" ++ SPACE :: bytes "k2") =
    fnv1a_hash32 (bytes "user:42") FNV_OFFSET_BASIS_32 /\
  0 <= cache_idx_of (fnv1a_hash32 (bytes "user:42") FNV_OFFSET_BASIS_32) < BMC_CACHE_ENTRY_COUNT.
Proof.
  apply hashers_agree; [repeat constructor; discriminate|simpl; lia|by right].
Defined.
