(* ===== verification/BmcCache.v ===== *)
(** The kernel cache as a map from keys to replies: what [bmc_update_cache_main] stores, what
    [bmc_invalidate_cache_main] drops, and the well-formedness both preserve. *)
From S2P Require Import Prelude BmcCommon BmcKern BmcLoops.

(** ** The abstract view *)

(** The key comparison of the reply writer on a request key. *)
Definition key_in_entry (k : list Z) (e : bmc_cache_entry) : bool :=
  compare_key_loop BMC_MAX_KEY_LENGTH 0 (Z.of_nat (length k)) k (data e) true.

(** The reply the cache holds for a key, as the reply writer decides it. *)
Definition cached_reply (c : gmap Z bmc_cache_entry) (k : list Z) : option (list Z) :=
  let e := kcache_get c (cache_idx_of (key_hash k)) in
  if entry_matches e (key_hash k) && key_in_entry k e
  then Some (take (Z.to_nat (len e)) (data e)) else None.

(** ** Well-formedness *)

Definition entry_wf (e : bmc_cache_entry) : Prop :=
  length (data e) = 1303%nat /\ 0 <= len e <= 1303.

Definition cache_wf (c : gmap Z bmc_cache_entry) : Prop :=
  forall i e, c !! i = Some e -> entry_wf e.

Lemma zero_entry_wf : entry_wf zero_entry.
Proof. split; [reflexivity|simpl; lia]. Qed.

Lemma kcache_get_wf c i : cache_wf c -> entry_wf (kcache_get c i).
Proof.
  intros Hc. unfold kcache_get. destruct (c !! i) eqn:He; simpl;
    [by eapply Hc|apply zero_entry_wf].
Qed.

Lemma cache_wf_insert c i e : cache_wf c -> entry_wf e -> cache_wf (<[i := e]> c).
Proof.
  intros Hc He j e'. destruct (decide (i = j)) as [->|Hne].
  - rewrite lookup_insert_eq. by intros [= <-].
  - rewrite lookup_insert_ne by done. apply Hc.
Qed.

Lemma kcache_get_insert c i e : kcache_get (<[i := e]> c) i = e.
Proof. unfold kcache_get. by rewrite lookup_insert_eq. Qed.

Lemma kcache_get_insert_ne c i j e : i <> j -> kcache_get (<[i := e]> c) j = kcache_get c j.
Proof. intros. unfold kcache_get. by rewrite lookup_insert_ne. Qed.

Create HintDb bmc.
#[export] Hint Resolve zero_entry_wf kcache_get_wf cache_wf_insert : bmc.

Lemma entry_matches_stored h n ed :
  0 <= h < 4294967296 -> entry_matches (mk_entry n 1 (s32 h) ed) h = true.
Proof.
  intros Hh. unfold entry_matches; cbn [valid hash]. rewrite wrap_signed by lia.
  rewrite wrap_small by lia. by rewrite Z.eqb_refl.
Qed.

Lemma key_in_entry_spec k e :
  (length k <= 250)%nat ->
  key_in_entry k e = true <->
  forall j, (j < length k)%nat -> byte_at k j = byte_at (data e) (6 + j).
Proof.
  intros Hk. unfold key_in_entry. rewrite compare_key_loop_spec by (unfold BMC_MAX_KEY_LENGTH; lia).
  split; [intros [_ Hj] j ?; apply Hj; lia|].
  intros Hj. split; [done|]. intros j ??. apply Hj. lia.
Qed.

Lemma byte_at_app_r l1 l2 j : byte_at (l1 ++ l2) (length l1 + j) = byte_at l2 j.
Proof. unfold byte_at. rewrite app_nth2 by lia. f_equal. lia. Qed.

Lemma byte_at_app_l l1 l2 j : (j < length l1)%nat -> byte_at (l1 ++ l2) j = byte_at l1 j.
Proof. unfold byte_at. intros. by rewrite app_nth1. Qed.

(** The reply text of a key starts with "VALUE ", the key and a space. *)
Definition reply_for (k rest : list Z) : list Z := bytes "VALUE " ++ k ++ SPACE :: rest.

Lemma key_in_entry_reply k e l t :
  (length k <= 250)%nat -> data e = reply_for k l ++ t -> key_in_entry k e = true.
Proof.
  intros Hk He. apply key_in_entry_spec; [done|]. intros j Hj. rewrite He.
  unfold reply_for. rewrite <- !app_assoc, (byte_at_app_r (bytes "VALUE ")).
  by rewrite byte_at_app_l.
Qed.

(** Cutting a text after two lines keeps any newline-free front. *)
Lemma take_lines_app n hd p :
  Forall (fun c => c <> LF) hd -> (0 < n)%nat -> take_lines n (hd ++ p) = hd ++ take_lines n p.
Proof.
  intros Hh Hn. induction Hh as [|c hd Hc Hh IH]; [done|]. destruct n as [|n]; [lia|].
  simpl. rewrite (proj2 (Z.eqb_neq _ _)) by done. by f_equal.
Qed.

Lemma take_lines_two hd v p :
  Forall (fun c => c <> LF) hd -> Forall (fun c => c <> LF) v ->
  take_lines 2 (hd ++ LF :: v ++ LF :: p) = hd ++ LF :: v ++ [LF].
Proof.
  intros Hh Hv. rewrite take_lines_app by (done || lia). f_equal. simpl. f_equal.
  rewrite take_lines_app by (done || lia). f_equal. simpl. by destruct p.
Qed.

Lemma count_lf_app p q : count_lf (p ++ q) = (count_lf p + count_lf q)%nat.
Proof. unfold count_lf. by rewrite filter_app, length_app. Qed.

Lemma count_lf_none p : Forall (fun c => c <> LF) p -> count_lf p = O.
Proof.
  induction 1 as [|c p Hc _ IH]; [done|]. rewrite count_lf_cons, IH.
  by rewrite (proj2 (Z.eqb_neq _ _)).
Qed.

Lemma count_lf_two hd v :
  Forall (fun c => c <> LF) hd -> Forall (fun c => c <> LF) v ->
  count_lf (hd ++ LF :: v ++ [LF]) = 2%nat.
Proof.
  intros. rewrite count_lf_app, count_lf_cons, count_lf_app, count_lf_cons.
  rewrite !count_lf_none by done. done.
Qed.

(** ** Updates *)

Section Update.

Context `{HL : BpfHelpersLaws}.

Lemma lookup_kcache h : map_lookup_ok BMC_CACHE_ENTRY_COUNT (cache_idx_of h) = true.
Proof. apply map_lookup_spec. auto with cint. Qed.

Lemma lookup_zero : map_lookup_ok 1 0 = true.
Proof. apply map_lookup_spec. lia. Qed.

(** The egress payload of a packet. *)
Definition skb_payload (skb : sk_buff) : list Z := drop UDP_PAYLOAD_OFF (skb_data skb).

(** What the updater writes into the slot of the reply's key. *)
Definition stored_entry (skb : sk_buff) (h : Z) (e : bmc_cache_entry) : bmc_cache_entry :=
  let t := take_lines 2 (take 1303 (skb_payload skb)) in
  let d := t ++ drop (length t) (data e) in
  if (count_lf t =? 2)%nat then mk_entry (Z.of_nat (length t)) 1 (s32 h) d
  else mk_entry (Z.of_nat (length t)) (valid e) (hash e) d.

Lemma stored_entry_wf skb h e : entry_wf e -> entry_wf (stored_entry skb h e).
Proof.
  intros [Hd _]. unfold stored_entry. cbn zeta.
  set (t := take_lines _ _).
  assert (length t <= 1303)%nat.
  { pose proof (take_lines_length 2 (take 1303 (skb_payload skb))) as Hl.
    rewrite length_take in Hl. unfold t. lia. }
  destruct (_ =? _)%nat; split; simpl; rewrite ?length_app, ?length_drop; lia.
Qed.

(** The updater on every branch: an up-to-date entry is kept, any other is overwritten. *)
Lemma update_cache_kcache skb m :
  cache_wf (map_kcache m) ->
  let p := skb_payload skb in
  let h := update_hash_loop 0 FNV_OFFSET_BASIS_32 (drop 6 p) in
  let i := cache_idx_of h in
  let e := kcache_get (map_kcache m) i in
  map_kcache (bmc_update_cache_main skb m).2 =
    (if entry_matches e h && negb (diff_loop 6 (len e) (data e) (drop 6 p))
     then map_kcache m
     else <[i := stored_entry skb h e]> (map_kcache m)).
Proof.
  intros Hwf p h i e. unfold bmc_update_cache_main.
  fold (skb_payload skb). fold p. fold h. fold i. fold e.
  rewrite (lookup_kcache h : map_lookup_ok _ i = true). cbn [negb].
  destruct (entry_matches e h && _); [done|].
  assert (entry_wf e) as [He _] by (unfold e; auto with bmc).
  rewrite store_loop_spec by done. cbn zeta. rewrite lookup_zero.
  unfold stored_entry. cbn zeta. fold p.
  set (t := take_lines 2 (take 1303 p)).
  destruct (Z.eqb_spec (Z.of_nat (count_lf t)) 2), (Nat.eqb_spec (count_lf t) 2); try lia; done.
Qed.

Lemma update_cache_wf skb m :
  cache_wf (map_kcache m) -> cache_wf (map_kcache (bmc_update_cache_main skb m).2).
Proof.
  intros Hwf. rewrite update_cache_kcache by done. cbn zeta.
  destruct (_ && _); [done|]. apply cache_wf_insert; [done|].
  apply stored_entry_wf. auto with bmc.
Qed.

Lemma update_cache_keys skb m : map_keys (bmc_update_cache_main skb m).2 = map_keys m.
Proof.
  unfold bmc_update_cache_main. cbn zeta. rewrite lookup_kcache, lookup_zero. cbn [negb].
  destruct (_ && _); [done|]. destruct (store_loop _ _ _ _ _) as [[? ?] ?].
  by destruct (_ =? _).
Qed.

(** The hash the updater computes is the hash of the reply's key. *)
Lemma update_hash_reply k rest :
  key_chars k -> (length k <= 250)%nat ->
  update_hash_loop 0 FNV_OFFSET_BASIS_32 (drop 6 (reply_for k rest)) = key_hash k.
Proof. intros. apply (update_hash_loop_key k 0); [done|lia]. Qed.

Lemma cached_reply_stored c k e t :
  (length k <= 250)%nat ->
  c !! cache_idx_of (key_hash k) = Some e ->
  e = mk_entry (Z.of_nat (length t)) 1 (s32 (key_hash k)) (data e) ->
  (exists l r, data e = reply_for k l ++ r) -> (exists r, data e = t ++ r) ->
  cached_reply c k = Some t.
Proof.
  intros Hk Hi He (l & r & Hd) (r' & Ht). unfold cached_reply, kcache_get.
  rewrite Hi. simpl. rewrite He, entry_matches_stored by auto with cint. rewrite <- He.
  rewrite (key_in_entry_reply k e l r) by done. cbn [andb].
  rewrite He. cbn [len data]. rewrite Ht, Nat2Z.id, take_app_length. done.
Qed.

(** A complete reply that leaves the server for a key the cache does not already hold is
    what the cache holds for that key afterwards. *)
Lemma update_cache_stores skb m k hd v rest :
  cache_wf (map_kcache m) -> key_chars k -> (length k <= 250)%nat ->
  let line := bytes "VALUE " ++ k ++ SPACE :: hd in
  skb_payload skb = line ++ LF :: v ++ LF :: rest ->
  Forall (fun c => c <> LF) line -> Forall (fun c => c <> LF) v ->
  (length line + length v + 2 <= 1303)%nat ->
  let i := cache_idx_of (key_hash k) in
  let e := kcache_get (map_kcache m) i in
  entry_matches e (key_hash k) &&
    negb (diff_loop 6 (len e) (data e) (k ++ SPACE :: hd ++ LF :: v ++ LF :: rest)) = false ->
  cached_reply (map_kcache (bmc_update_cache_main skb m).2) k =
    Some (line ++ LF :: v ++ [LF]).
Proof.
  intros Hwf Hkc Hk line Hp Hline Hv Hlen i e Hstale.
  assert (forall x, line ++ x = reply_for k (hd ++ x)) as Hr
    by (intros; unfold line, reply_for; by rewrite <- !app_assoc).
  clearbody line. set (t := line ++ LF :: v ++ [LF]).
  assert (skb_payload skb = t ++ rest) as Hp'
    by (rewrite Hp; unfold t; rewrite <- app_assoc; cbn [app]; by rewrite <- app_assoc).
  assert (take_lines 2 (take 1303 (skb_payload skb)) = t) as Ht.
  { assert (length t <= 1303)%nat
      by (unfold t; rewrite length_app; cbn [length]; rewrite length_app; simpl; lia).
    assert (forall x, take_lines 2 (t ++ x) = t) as Hx.
    { intros x. unfold t. rewrite <- app_assoc. cbn [app]. rewrite <- app_assoc.
      cbn [app]. by apply take_lines_two. }
    rewrite Hp', take_app_ge by done. apply Hx. }
  rewrite update_cache_kcache by done. cbn zeta.
  rewrite Hp, Hr, update_hash_reply by done. fold i. fold e.
  change (drop 6 (reply_for k ?x)) with (k ++ SPACE :: x). rewrite Hstale.
  assert (stored_entry skb (key_hash k) e =
          mk_entry (Z.of_nat (length t)) 1 (s32 (key_hash k)) (t ++ drop (length t) (data e)))
    as -> by (unfold stored_entry; rewrite Ht; unfold t at 1; by rewrite count_lf_two).
  eapply cached_reply_stored; [done|apply lookup_insert_eq|done|..]; cbn [data].
  - eexists _, _. f_equal. apply Hr.
  - by eexists.
Qed.

End Update.

(** ** Invalidation *)

(** Clearing the valid flag is the only change an invalidation makes. *)
Definition cleared (e : bmc_cache_entry) : bmc_cache_entry :=
  mk_entry (len e) 0 (hash e) (data e).

Definition only_clears (c c' : gmap Z bmc_cache_entry) : Prop :=
  forall i, kcache_get c' i = kcache_get c i \/ kcache_get c' i = cleared (kcache_get c i).

#[export] Instance only_clears_preorder : PreOrder only_clears.
Proof.
  split.
  - intros c i. by left.
  - intros c1 c2 c3 H12 H23 i. destruct (H23 i) as [-> | ->]; [apply H12|].
    right. by destruct (H12 i) as [-> | ->].
Qed.

Lemma only_clears_cached c c' k :
  only_clears c c' -> cached_reply c k = None -> cached_reply c' k = None.
Proof.
  intros Hc. unfold cached_reply.
  destruct (Hc (cache_idx_of (key_hash k))) as [-> | ->]; [done|].
  unfold entry_matches, cleared; cbn [valid]. done.
Qed.

Lemma invalidate_entry_clears h m : only_clears (map_kcache m) (map_kcache (invalidate_entry h m)).
Proof.
  intros i. unfold invalidate_entry. destruct (negb _); [|by left]. cbn [map_kcache set_stats set_kcache].
  destruct (decide (cache_idx_of h = i)) as [<-|Hne].
  - right. by rewrite kcache_get_insert.
  - left. by rewrite kcache_get_insert_ne.
Qed.

Lemma invalidate_entry_wf h m :
  cache_wf (map_kcache m) -> cache_wf (map_kcache (invalidate_entry h m)).
Proof.
  intros Hwf. unfold invalidate_entry. destruct (negb _); [|done].
  apply cache_wf_insert; [done|]. apply (kcache_get_wf _ (cache_idx_of h) Hwf).
Qed.

Lemma invalidate_entry_none k m :
  cached_reply (map_kcache (invalidate_entry (key_hash k) m)) k = None.
Proof.
  unfold invalidate_entry, cached_reply.
  destruct (valid _ =? 0) eqn:Hv; simpl.
  - unfold entry_matches. by rewrite Hv.
  - by rewrite kcache_get_insert.
Qed.

#[export] Hint Resolve invalidate_entry_clears invalidate_entry_wf : bmc.

Section Invalidate.

Context `{HL : BpfHelpersLaws}.

(** Any property of the maps that clearing an entry and counting keep is kept by the scan. *)
Lemma invalidate_loop_ind (P : kmaps -> Prop) :
  (forall m s, P m -> P (set_stats s m)) ->
  (forall m h, P m -> P (invalidate_entry h m)) ->
  forall n p off sf kf h m, (length p <= n)%nat -> P m -> P (invalidate_loop off sf kf h p m).
Proof.
  intros Hst Hinv. induction n as [|n IH]; intros p off sf kf h m Hn Hm;
    destruct p as [|c p1]; cbn [length] in Hn; try lia; cbn [invalidate_loop]; try done.
  destruct (_ <? _)%nat; [|done].
  destruct (_ && starts_et p1).
  - destruct p1 as [|? [|? [|? p5]]]; auto. apply IH; [simpl in Hn; lia|auto].
  - repeat case_if; try (apply IH; [lia|]); auto.
Qed.

Lemma invalidate_loop_clears off sf kf h p m :
  only_clears (map_kcache m) (map_kcache (invalidate_loop off sf kf h p m)).
Proof.
  apply (invalidate_loop_ind (fun m' => only_clears (map_kcache m) (map_kcache m')))
    with (n := length p); [done| |done|reflexivity].
  cbn beta. intros m' h' Hm. etransitivity; eauto with bmc.
Qed.

Lemma invalidate_loop_wf off sf kf h p m :
  cache_wf (map_kcache m) -> cache_wf (map_kcache (invalidate_loop off sf kf h p m)).
Proof.
  apply (invalidate_loop_ind (fun m' => cache_wf (map_kcache m'))) with (n := length p);
    auto with bmc.
Qed.

(** The scan runs over bytes other than 's' without effect. *)
Lemma invalidate_loop_skip pre : forall off h p m,
  Forall (fun c => c <> 115) pre -> (off + length pre <= 1500)%nat ->
  invalidate_loop off false false h (pre ++ p) m =
  invalidate_loop (off + length pre) false false h p m.
Proof.
  induction pre as [|c pre IH]; intros off h p m Hp Hl; cbn [app length] in *.
  - by rewrite Nat.add_0_r.
  - inversion_clear Hp. cbn [invalidate_loop].
    rewrite (proj2 (Nat.ltb_lt _ _)) by (unfold BMC_MAX_PACKET_LENGTH; lia).
    rewrite (proj2 (Z.eqb_neq c 115)) by done. cbn [negb andb].
    rewrite IH by (done || lia). f_equal. lia.
Qed.

(** The scan of a key, up to the space that ends it. *)
Lemma invalidate_loop_key k : forall off h p m,
  key_chars k -> (off + length k < 1500)%nat ->
  invalidate_loop off true true h (k ++ SPACE :: p) m =
  invalidate_loop (off + length k + 1) false false (fnv1a_hash32 k h) p
    (invalidate_entry (fnv1a_hash32 k h) m).
Proof.
  induction k as [|c k IH]; intros off h p m Hk Hl; cbn [app length fnv1a_hash32] in *;
    cbn [invalidate_loop];
    rewrite (proj2 (Nat.ltb_lt _ _)) by (unfold BMC_MAX_PACKET_LENGTH; lia);
    cbn [negb andb].
  - rewrite Z.eqb_refl, lookup_kcache. f_equal; lia.
  - inversion_clear Hk as [|? ? [Hs _] Hk']. rewrite (proj2 (Z.eqb_neq _ _)) by done.
    rewrite IH by (done || lia). f_equal; lia.
Qed.

(** A SET found by the scan clears its key's entry and the scan goes on. *)
Lemma invalidate_loop_set k off h p m :
  key_chars k -> k <> [] -> (off + 4 + length k < 1500)%nat ->
  invalidate_loop off false false h (bytes "set " ++ k ++ SPACE :: p) m =
  invalidate_loop (off + 5 + length k) false false (key_hash k) p
    (invalidate_entry (key_hash k) (set_stats (incr_set_recv (map_stats m)) m)).
Proof.
  intros Hk Hne Hl. destruct k as [|c k]; [done|].
  inversion_clear Hk as [|? ? [Hs Hc] Hk']. cbn [length] in *.
  cbn [bytes app invalidate_loop].
  rewrite (proj2 (Nat.ltb_lt _ _)) by (unfold BMC_MAX_PACKET_LENGTH; lia). simpl (_ && _).
  cbn [app]. cbn [invalidate_loop].
  rewrite (proj2 (Nat.ltb_lt _ _)) by (unfold BMC_MAX_PACKET_LENGTH; lia). cbn [negb andb].
  rewrite !(proj2 (Z.eqb_neq _ _)) by done. cbn [negb].
  rewrite invalidate_loop_key by (done || lia).
  unfold key_hash. cbn [fnv1a_hash32]. f_equal. lia.
Qed.

(** The scan of a payload with no "set" in it changes nothing. *)
Lemma invalidate_loop_no_set p : forall off h m,
  (forall a b, p <> a ++ bytes "set" ++ b) -> invalidate_loop off false false h p m = m.
Proof.
  induction p as [|c p IH]; intros off h m Hno; cbn [invalidate_loop]; [done|].
  destruct (_ <? _)%nat; [|done].
  destruct (_ && starts_et p) eqn:Hs.
  - exfalso. cbn [negb andb] in Hs. zbool. subst c.
    destruct p as [|e [|t p]]; simpl in *; try done. zbool. subst.
    by apply (Hno [] p).
  - cbn [negb andb]. apply IH. intros a b ->. by apply (Hno (c :: a) b).
Qed.

End Invalidate.
