(* ===== verification/BmcPipeline.v ===== *)
(** The GET path of BMC end to end: the receive filter, one hashing step per key, the header
    rewrite and one reply-writing step per key, composed by tail calls. *)
From S2P Require Import Prelude BmcCommon BmcKern BmcLoops BmcCache.

(** A kernel that accepts every move that stays inside the frame's memory and leaves an
    Ethernet header's worth of packet. *)
Class BpfRoom (H : BpfHelpers) : Prop := {
  head_accepts c d c' :
    move_head c d = Some c' -> (ETH_HLEN <= length (xdp_pkt c'))%nat ->
    bpf_xdp_adjust_head c d = (0, c');
  tail_accepts c d c' :
    move_tail c d = Some c' -> d <= 0 -> (ETH_HLEN <= length (xdp_pkt c'))%nat ->
    bpf_xdp_adjust_tail c d = (0, c')
}.

Lemma plain_helpers_room : BpfRoom plain_helpers.
Proof.
  split; cbn; unfold plain_adjust_head, plain_adjust_tail; intros c d c' -> Hd **;
    rewrite ?(proj2 (Nat.leb_le _ _)), ?(proj2 (Z.leb_le _ _)) by done; done.
Qed.

(** ** Requests *)

(** The text of a GET after the command word: keys separated by one space, then CR. *)
Fixpoint keys_text (ks : list (list Z)) (rest : list Z) : list Z :=
  match ks with
  | [] => []
  | [k] => k ++ CR :: rest
  | k :: ks' => k ++ SPACE :: keys_text ks' rest
  end.

Definition key_ok (k : list Z) : Prop := key_chars k /\ (1 <= length k <= 250)%nat.

(** A memcached UDP request header: 50 bytes up to the payload, UDP, port 11211. *)
Definition udp_request_header (hdr : list Z) : Prop :=
  length hdr = UDP_PAYLOAD_OFF /\ byte_at hdr (ETH_HLEN + 9) = IPPROTO_UDP /\
  be16 hdr (ETH_HLEN + IP_HLEN + 2) = MEMCACHED_PORT.

(** The frame of a multi-key GET. *)
Definition get_frame (room hdr : list Z) (ks : list (list Z)) (rest tl : list Z) : xdp_md :=
  mk_xdp room (hdr ++ bytes "get " ++ keys_text ks rest) tl.

(** What a reply header must say: addresses and ports exchanged, the rest of the request's
    UDP framing echoed, and the lengths of a reply with [n] payload bytes. *)
Definition reply_header (hdr hdr' : list Z) (n : Z) : Prop :=
  length hdr' = UDP_PAYLOAD_OFF /\
  slice 0 6 hdr' = slice 6 6 hdr /\ slice 6 6 hdr' = slice 0 6 hdr /\
  slice 26 4 hdr' = slice 30 4 hdr /\ slice 30 4 hdr' = slice 26 4 hdr /\
  slice 34 2 hdr' = slice 36 2 hdr /\ slice 36 2 hdr' = slice 34 2 hdr /\
  slice 42 8 hdr' = slice 42 8 hdr /\
  slice 16 2 hdr' = [wrap 8 ((36 + n) / 256); wrap 8 (36 + n)] /\
  slice 38 2 hdr' = [wrap 8 ((16 + n) / 256); wrap 8 (16 + n)] /\
  slice 40 2 hdr' = [0; 0].

(** ** Frame moves *)

Lemma move_head_fwd h a b t :
  move_head (mk_xdp h (a ++ b) t) (Z.of_nat (length a)) = Some (mk_xdp (h ++ a) b t).
Proof.
  unfold move_head; cbn. rewrite !length_app.
  rewrite !(proj2 (Z.leb_le _ _)) by lia. cbn [andb]. do 2 f_equal.
  - replace (Z.to_nat _) with (length (h ++ a)) by (rewrite length_app; lia).
    by rewrite app_assoc, take_app_length.
  - replace (Z.to_nat _) with (length (h ++ a)) by (rewrite length_app; lia).
    by rewrite app_assoc, drop_app_length.
Qed.

Lemma move_head_back h a b t d :
  d = 0 - Z.of_nat (length a) ->
  move_head (mk_xdp (h ++ a) b t) d = Some (mk_xdp h (a ++ b) t).
Proof.
  intros ->. unfold move_head; cbn. rewrite !length_app.
  rewrite !(proj2 (Z.leb_le _ _)) by lia. cbn [andb]. rewrite <- app_assoc.
  replace (Z.to_nat _) with (length h) by lia.
  by rewrite take_app_length, drop_app_length.
Qed.

Lemma move_tail_cut h a b t d :
  d = 0 - Z.of_nat (length b) ->
  move_tail (mk_xdp h (a ++ b) t) d = Some (mk_xdp h a (b ++ t)).
Proof.
  intros ->. unfold move_tail; cbn. rewrite !length_app.
  rewrite !(proj2 (Z.leb_le _ _)) by lia. cbn [andb]. rewrite <- app_assoc.
  replace (Z.to_nat _) with (length a) by lia.
  by rewrite take_app_length, drop_app_length.
Qed.

(** ** Headers *)

(** Enumerate the bytes of a header of known length. *)
Ltac explode l Hl :=
  change (length l = 50%nat) in Hl;
  do 50 (destruct l as [|? l]; [discriminate Hl|apply eq_add_S in Hl]);
  destruct l; [clear Hl|discriminate Hl].

Lemma swap_addresses_app hdr p :
  length hdr = UDP_PAYLOAD_OFF -> swap_addresses (hdr ++ p) = swap_addresses hdr ++ p.
Proof. intros Hl. explode hdr Hl. reflexivity. Qed.

Lemma reply_headers_app hdr p n :
  length hdr = UDP_PAYLOAD_OFF -> reply_headers (hdr ++ p) n = reply_headers hdr n ++ p.
Proof.
  intros Hl. unfold reply_headers, put_be16. cbn zeta. change (length hdr = 50%nat) in Hl.
  unfold ETH_HLEN, IP_HLEN. rewrite (write_app_l 16), slice_app_l, !write_app_l by blen.
  done.
Qed.

Lemma reply_header_ok hdr n :
  length hdr = UDP_PAYLOAD_OFF -> reply_header hdr (reply_headers (swap_addresses hdr) n) n.
Proof.
  intros Hl. explode hdr Hl. unfold reply_headers. cbn zeta.
  set (c := compute_ip_checksum _). clearbody c.
  repeat split; reflexivity.
Qed.

Lemma length_swap_addresses hdr :
  length hdr = UDP_PAYLOAD_OFF -> length (swap_addresses hdr) = UDP_PAYLOAD_OFF.
Proof. intros Hl. explode hdr Hl. reflexivity. Qed.

(** ** The hashing phase *)

(** A per-CPU key slot holds a request key. *)
Definition slot_holds (s : memcached_key) (k : list Z) : Prop :=
  khash s = key_hash k /\ klen s = Z.of_nat (length k) /\ take (length k) (kdata s) = k.

Definition keys_wf (km : gmap Z memcached_key) : Prop :=
  forall i, length (kdata (keys_get km i)) = BMC_MAX_KEY_LENGTH.

(** The maps after the hits [loaded] have been collected. *)
Record hash_inv (c : gmap Z bmc_cache_entry) (loaded : list (list Z)) (rpo : Z) (m : kmaps)
    : Prop := {
  hi_cache : map_kcache m = c;
  hi_keys : keys_wf (map_keys m);
  hi_pctx : map_parsing_context m = mk_pctx (Z.of_nat (length loaded)) 0 rpo 0;
  hi_slots : forall j k, loaded !! j = Some k ->
    slot_holds (keys_get (map_keys m) (Z.of_nat j)) k
}.

(** The keys whose entry carries their hash: the predicted hits. *)
Definition predicted (c : gmap Z bmc_cache_entry) (k : list Z) : bool :=
  entry_matches (kcache_get c (cache_idx_of (key_hash k))) (key_hash k).

Lemma keys_get_insert km i s j :
  keys_get (<[i := s]> km) j = if decide (i = j) then s else keys_get km j.
Proof. unfold keys_get. rewrite lookup_insert. by destruct (decide (i = j)). Qed.

Lemma keys_wf_insert km i s :
  keys_wf km -> length (kdata s) = BMC_MAX_KEY_LENGTH -> keys_wf (<[i := s]> km).
Proof. intros Hk Hs j. rewrite keys_get_insert. case_decide; auto. Qed.

Lemma filter_snoc_bool {A} (f : A -> bool) l k :
  filter (fun x => f x = true) (l ++ [k]) =
  filter (fun x => f x = true) l ++ (if f k then [k] else []).
Proof. rewrite filter_app. f_equal. rewrite filter_cons, filter_nil. by destruct (f k). Qed.

Abbreviation hits_of c := (filter (fun k => predicted c k = true)).

Section Hashing.

Context `{HL : BpfHelpersLaws} {HR : BpfRoom H}.

(** One run of the hasher on a key: it collects the key or counts a miss, whatever ends it. *)
Lemma hash_keys_scan c loaded rpo m h k p t dn :
  hash_inv c loaded rpo m -> (length loaded < 30)%nat -> key_ok k ->
  let s := mk_scan (key_hash k) (Z.of_nat (length k)) (length k) dn in
  hash_key_loop 0 FNV_OFFSET_BASIS_32 0 (k ++ p) = s ->
  exists m', hash_inv c (loaded ++ (if predicted c k then [k] else [])) rpo m' /\
    bmc_hash_keys_main (mk_xdp h (k ++ p) t) m = hash_keys_next (mk_xdp h (k ++ p) t) m' s.
Proof.
  intros [Hc Hk Hp Hs] Hl [Hkc Hkl] s Hscan.
  unfold bmc_hash_keys_main. cbn [xdp_pkt].
  rewrite (proj2 (Nat.eqb_neq _ _)) by (rewrite length_app; simpl; lia).
  rewrite lookup_zero, Hp. cbn [negb key_count current_key read_pkt_offset write_pkt_offset].
  rewrite (proj2 (map_lookup_spec _ _)) by (unfold BMC_MAX_KEY_IN_PACKET, BMC_MAX_KEY_IN_MULTIGET; lia).
  rewrite Hscan. unfold s. cbn [negb scan_hash scan_len].
  rewrite (proj2 (Z.eqb_neq _ _)), (proj2 (Z.ltb_ge _ _))
    by (unfold BMC_MAX_KEY_LENGTH; lia).
  rewrite lookup_kcache. cbn [orb negb map_kcache set_keys]. rewrite Hc.
  fold (predicted c k).
  pose proof (Hk (Z.of_nat (length loaded))) as Hkd. unfold BMC_MAX_KEY_LENGTH in Hkd.
  destruct (predicted c k).
  - eexists; split; [|reflexivity]. split; cbn.
    + done.
    + repeat apply keys_wf_insert; cbn; auto.
      rewrite copy_key_loop_key by lia. rewrite length_app, length_drop.
      unfold BMC_MAX_KEY_LENGTH. lia.
    + rewrite length_app; simpl. rewrite wrap_small by lia. f_equal. lia.
    + intros j k' Hj. rewrite !keys_get_insert. repeat case_decide.
      * assert (j = length loaded) as -> by lia.
        rewrite list_lookup_middle in Hj by done. injection Hj as <-.
        repeat split. cbn. rewrite copy_key_loop_key by lia. by rewrite take_app_length.
      * apply Hs. rewrite lookup_app_l in Hj; [done|].
        apply lookup_lt_Some in Hj. rewrite length_app in Hj; simpl in Hj. lia.
  - eexists; split; [|reflexivity]. rewrite app_nil_r. split; cbn; auto.
    + apply keys_wf_insert; cbn; auto.
    + intros j k' Hj. rewrite keys_get_insert. case_decide; [|by apply Hs].
      apply lookup_lt_Some in Hj. lia.
Qed.

Lemma hash_keys_step c loaded rpo m h k d p t :
  hash_inv c loaded rpo m -> (length loaded < 30)%nat -> key_ok k -> d = CR \/ d = SPACE ->
  exists m', hash_inv c (loaded ++ (if predicted c k then [k] else [])) rpo m' /\
    bmc_hash_keys_main (mk_xdp h (k ++ d :: p) t) m =
    hash_keys_next (mk_xdp h (k ++ d :: p) t) m'
      (mk_scan (key_hash k) (Z.of_nat (length k)) (length k) (d =? CR)).
Proof.
  intros Hi Hl Hk Hd. eapply hash_keys_scan; [done..|]. destruct Hk.
  by apply hash_key_loop_key; [|lia|].
Qed.

Lemma xdp_resume_return b code ctx m : xdp_resume b (Return code, ctx, m) = (code, ctx, m).
Proof. by destruct b. Qed.

(** The keys that are followed by another key, as they stand in the request. *)
Definition prefix_text (ks : list (list Z)) : list Z := concat ((fun k => k ++ [SPACE]) <$> ks).

Lemma keys_text_snoc ks k rest :
  keys_text (ks ++ [k]) rest = prefix_text ks ++ k ++ CR :: rest.
Proof.
  induction ks as [|k1 ks IH]; [done|].
  assert (keys_text ((k1 :: ks) ++ [k]) rest = k1 ++ SPACE :: keys_text (ks ++ [k]) rest) as ->
    by (cbn [app keys_text]; by destruct (ks ++ [k]) eqn:He; [destruct ks|]).
  rewrite IH. unfold prefix_text. cbn. by rewrite <- !app_assoc.
Qed.

Lemma hits_cons c k ks : hits_of c (k :: ks) = (if predicted c k then [k] else []) ++ hits_of c ks.
Proof. rewrite filter_cons. by destruct (predicted c k). Qed.

(** The hashing phase up to the last key: each key costs one tail call, the predicted hits
    are collected in order, and [data] moves past the keys. *)
Lemma hash_prefix c room tl p ks : forall loaded rpo m consumed b,
  hash_inv c loaded rpo m -> 0 <= rpo -> (14 <= length p)%nat ->
  rpo + Z.of_nat (length (prefix_text ks)) < 65536 ->
  Forall key_ok ks -> (length loaded + length ks <= 30)%nat ->
  exists m', hash_inv c (loaded ++ hits_of c ks) (rpo + Z.of_nat (length (prefix_text ks))) m' /\
    xdp_resume (length ks + b)
      (bmc_hash_keys_main (mk_xdp (room ++ consumed) (prefix_text ks ++ p) tl) m) =
    xdp_resume b
      (bmc_hash_keys_main (mk_xdp (room ++ consumed ++ prefix_text ks) p tl) m').
Proof.
  induction ks as [|k ks IH]; intros loaded rpo m consumed b Hi Hrpo Hp Htot Hok Hn.
  - exists m. cbn. rewrite !app_nil_r, Z.add_0_r. done.
  - inversion_clear Hok as [|? ? Hk Hks]. cbn [length] in Hn.
    change (prefix_text (k :: ks)) with ((k ++ [SPACE]) ++ prefix_text ks) in *.
    set (q := k ++ [SPACE]) in *.
    assert (length q = S (length k)) as Hq by (unfold q; rewrite length_app; simpl; lia).
    assert ((q ++ prefix_text ks) ++ p = k ++ SPACE :: prefix_text ks ++ p) as Heq
      by (unfold q; by rewrite <- !app_assoc).
    rewrite length_app in Htot.
    destruct (hash_keys_step c loaded rpo m (room ++ consumed) k SPACE (prefix_text ks ++ p) tl)
      as (m1 & Hi1 & Hstep); [done|lia|done|by right|].
    rewrite Heq, Hstep. unfold hash_keys_next. cbn [scan_done scan_off].
    change (SPACE =? CR) with false. cbn match.
    rewrite (hi_pctx _ _ _ _ Hi1), <- Heq, <- app_assoc, <- Hq.
    cbn [read_pkt_offset key_count current_key write_pkt_offset].
    rewrite (head_accepts _ _ (mk_xdp ((room ++ consumed) ++ q) (prefix_text ks ++ p) tl));
      [|apply move_head_fwd|cbn; rewrite length_app; unfold ETH_HLEN; lia].
    cbn [Z.eqb]. cbn [length Nat.add xdp_resume xdp_prog]. rewrite <- (app_assoc room).
    set (m2 := set_pctx _ m1).
    destruct (IH (loaded ++ (if predicted c k then [k] else [])) (rpo + Z.of_nat (length q)) m2
                (consumed ++ q) b) as (m' & Hi' & Hrun); [|lia|done|lia|done| |].
    + destruct Hi1 as [? ? Hp1 ?]. split; try done. unfold m2. cbn.
      f_equal. by rewrite wrap_small by lia.
    + rewrite length_app. destruct (predicted c k); cbn; lia.
    + exists m'. rewrite hits_cons, (length_app q), Nat2Z.inj_add, Z.add_assoc, !app_assoc in *.
      done.
Qed.

(** The last key: the request is put back in one piece for the next program or the stack. *)
Lemma hash_last c room tl k rest loaded rpo m consumed :
  hash_inv c loaded rpo m -> 0 <= rpo -> Z.of_nat (length consumed) = 50 + rpo ->
  key_ok k -> (length loaded < 30)%nat ->
  let all := loaded ++ hits_of c [k] in
  let ctx := mk_xdp room (consumed ++ k ++ CR :: rest) tl in
  exists m', hash_inv c all rpo m' /\
    bmc_hash_keys_main (mk_xdp (room ++ consumed) (k ++ CR :: rest) tl) m =
    (if (0 <? length all)%nat then TailCall BMC_PROG_XDP_PREPARE_PACKET XDP_PASS
     else Return XDP_PASS, ctx, m').
Proof.
  intros Hi Hrpo Hcons Hk Hn all ctx.
  destruct (hash_keys_step c loaded rpo m (room ++ consumed) k CR rest tl)
    as (m' & Hi' & ->); [done|done|done|by left|].
  exists m'. unfold all. rewrite hits_cons, filter_nil, app_nil_r. split; [done|].
  unfold hash_keys_next. cbn [scan_done]. change (CR =? CR) with true. cbn match.
  rewrite (hi_pctx _ _ _ _ Hi'). cbn [read_pkt_offset key_count].
  change (Z.of_nat UDP_PAYLOAD_OFF) with 50.
  rewrite (head_accepts _ _ ctx);
    [| by apply move_head_back; lia | cbn; rewrite length_app; unfold ETH_HLEN; lia].
  destruct (Nat.ltb_spec 0 (length (loaded ++ (if predicted c k then [k] else [])))).
  - by rewrite (proj2 (Z.ltb_lt _ _)) by lia.
  - by rewrite (proj2 (Z.ltb_ge _ _)) by lia.
Qed.

(** The hashing phase over the whole request. *)
Lemma hash_phase c room tl rest ks k m consumed b :
  hash_inv c [] 4 m -> Z.of_nat (length consumed) = 54 ->
  Z.of_nat (length (prefix_text ks)) < 65000 ->
  Forall key_ok ks -> key_ok k -> (length ks < 30)%nat -> (14 <= length k + 1 + length rest)%nat ->
  let text := prefix_text ks ++ k ++ CR :: rest in
  let all := hits_of c (ks ++ [k]) in
  exists m' rpo', hash_inv c all rpo' m' /\
    xdp_resume (length ks + b) (bmc_hash_keys_main (mk_xdp (room ++ consumed) text tl) m) =
    xdp_resume b (if (0 <? length all)%nat then TailCall BMC_PROG_XDP_PREPARE_PACKET XDP_PASS
                  else Return XDP_PASS, mk_xdp room (consumed ++ text) tl, m').
Proof.
  intros Hi Hc Hsz Hok Hk Hn H14 text all.
  destruct (hash_prefix c room tl (k ++ CR :: rest) ks [] 4 m consumed b)
    as (m1 & Hi1 & Hrun); [done|lia|rewrite length_app; simpl; lia|lia|done|simpl; lia|].
  rewrite app_nil_l in Hi1.
  assert (length (hits_of c ks) <= length ks)%nat by apply length_filter.
  destruct (hash_last c room tl k rest _ _ m1 (consumed ++ prefix_text ks) Hi1)
    as (m2 & Hi2 & Hlast); [lia|rewrite length_app; lia|done|lia|].
  exists m2, (4 + Z.of_nat (length (prefix_text ks))).
  unfold all. rewrite filter_app. split; [done|].
  unfold text. rewrite Hrun, Hlast. by rewrite <- app_assoc.
Qed.

End Hashing.

(** ** The reply phase *)

(** The bytes the writer contributes for a key. *)
Definition reply_of (c : gmap Z bmc_cache_entry) (k : list Z) : list Z :=
  default [] (cached_reply c k).

Definition replies (c : gmap Z bmc_cache_entry) (ks : list (list Z)) : list Z :=
  concat (reply_of c <$> ks).

Definition END_LINE : list Z := bytes "END" ++ [CR; LF].

(** The maps while replies are written: [pend] are the keys still to answer. *)
Record write_inv (c : gmap Z bmc_cache_entry) (pend : list (list Z)) (cur wpo : Z) (m : kmaps)
    : Prop := {
  wi_cache : map_kcache m = c;
  wi_count : key_count (map_parsing_context m) = cur + Z.of_nat (length pend);
  wi_current : current_key (map_parsing_context m) = cur;
  wi_wpo : write_pkt_offset (map_parsing_context m) = wpo;
  wi_slots : forall j k, pend !! j = Some k ->
    slot_holds (keys_get (map_keys m) (cur + Z.of_nat j)) k
}.

Lemma compare_slot s k e :
  slot_holds s k -> (length k <= 250)%nat -> length (kdata s) = BMC_MAX_KEY_LENGTH ->
  compare_key_loop BMC_MAX_KEY_LENGTH 0 (klen s) (kdata s) (data e) true = key_in_entry k e.
Proof.
  intros (_ & Hl & Hd) Hk Hlen. apply eq_true_iff_eq.
  rewrite key_in_entry_spec, compare_key_loop_spec by (unfold BMC_MAX_KEY_LENGTH; lia).
  assert (forall j, (j < length k)%nat -> byte_at (kdata s) j = byte_at k j) as Hb.
  { intros j Hj. rewrite <- (take_drop (length k) (kdata s)), Hd. by apply byte_at_app_l. }
  split.
  - intros [_ Hj] j ?. rewrite <- Hb by done. apply Hj; lia.
  - intros Hj. split; [done|]. intros j ??. rewrite Hb by lia. apply Hj. lia.
Qed.

Section Writing.

Context `{HL : BpfHelpersLaws} {HR : BpfRoom H}.

(** One run of the writer: as much of the key's cached reply as fits is appended. *)
Lemma write_reply_cut c k pend cur wpo m h rem t :
  cache_wf c -> keys_wf (map_keys m) -> write_inv c (k :: pend) cur wpo m ->
  0 <= cur < 30 -> key_ok k -> (0 < length rem)%nat ->
  let r := take (length rem) (reply_of c k) in
  exists m', write_inv c pend (cur + 1) wpo m' /\ map_keys m' = map_keys m /\
    bmc_write_reply_main (mk_xdp h rem t) m =
    write_reply_next (mk_xdp h (r ++ drop (length r) rem) t) m' (length r).
Proof.
  intros Hwf Hkw [Hc Hcount Hcur Hwpo Hslots] Hb Hk Hrem r.
  destruct (Hslots O k eq_refl) as [Hh Hrest]; rewrite Z.add_0_r in Hh, Hrest.
  unfold bmc_write_reply_main. cbn [xdp_pkt xdp_head xdp_tail].
  rewrite (proj2 (Nat.eqb_neq _ _)) by lia. rewrite lookup_zero, Hcur. cbn [negb].
  rewrite (proj2 (map_lookup_spec _ _)) by (unfold BMC_MAX_KEY_IN_PACKET, BMC_MAX_KEY_IN_MULTIGET; lia).
  rewrite Hh, lookup_kcache, Hc. cbn [negb].
  rewrite (compare_slot _ k) by (done || apply Hk || apply Hkw || (split; [done|]; apply Hrest)).
  set (e := kcache_get c (cache_idx_of (key_hash k))).
  assert (entry_wf e) as [Hd Hle] by (unfold e; auto with bmc).
  set (body := if entry_matches e (key_hash k) then _ else _).
  assert (exists hit, body = (hit, length r, r ++ drop (length r) rem)) as [hit ->].
  { unfold body. unfold r, reply_of, cached_reply in *. fold e.
    destruct (entry_matches e (key_hash k));
      [|exists true; cbn; by rewrite take_nil, drop_0].
    destruct (key_in_entry k e); [|exists false; cbn; by rewrite take_nil, drop_0].
    cbn [andb default] in *. unfold id in *. rewrite copy_entry_spec by (done || lia). cbn zeta.
    rewrite take_take, length_take, Hd. exists true.
    replace (Nat.min 1303 _) with (Nat.min (Nat.min (length rem) (Z.to_nat (len e))) 1303) by lia.
    f_equal. f_equal. rewrite <- (take_take (data e)). by rewrite (take_ge (data e) 1303) by lia. }
  eexists; split; [|split; [|reflexivity]]; [|done].
  cbn [length] in Hcount.
  split; cbn; auto; try lia; [rewrite wrap_small by lia; lia|].
  intros j k' Hj. rewrite <- Z.add_assoc. specialize (Hslots (S j) k' Hj).
  by replace (cur + (1 + Z.of_nat j)) with (cur + Z.of_nat (S j)) by lia.
Qed.

(** The whole of it, when it fits. *)
Lemma write_reply_step c k pend cur wpo m h rem t :
  cache_wf c -> keys_wf (map_keys m) -> write_inv c (k :: pend) cur wpo m ->
  0 <= cur < 30 -> key_ok k -> (0 < length rem)%nat ->
  (length (reply_of c k) <= length rem)%nat ->
  let r := reply_of c k in
  exists m', write_inv c pend (cur + 1) wpo m' /\ map_keys m' = map_keys m /\
    bmc_write_reply_main (mk_xdp h rem t) m =
    write_reply_next (mk_xdp h (r ++ drop (length r) rem) t) m' (length r).
Proof.
  intros Hwf Hkw Hi Hb Hk Hrem Hfit r.
  destruct (write_reply_cut c k pend cur wpo m h rem t Hwf Hkw Hi Hb Hk Hrem) as (m' & Hm).
  rewrite take_ge in Hm by done. by exists m'.
Qed.

(** Ending and sending a reply of which [acc ++ r] is written. *)
Lemma send_reply_spec m h hdr acc r rem t :
  length hdr = UDP_PAYLOAD_OFF -> (5 <= length rem)%nat ->
  write_pkt_offset (map_parsing_context m) = Z.of_nat (length acc) ->
  let total := Z.of_nat (length (acc ++ r ++ END_LINE)) in
  send_reply (mk_xdp (h ++ hdr ++ acc) (r ++ rem) t) m (length r) =
  (Return XDP_TX,
   mk_xdp h (reply_headers hdr total ++ acc ++ r ++ END_LINE) (drop 5 rem ++ t), m).
Proof.
  intros Hh Hrem Hw total. unfold send_reply. cbn [xdp_pkt xdp_head xdp_tail].
  rewrite (proj2 (Nat.leb_le _ _)) by (rewrite length_app; lia). rewrite Hw.
  assert (write (length r) (bytes "END" ++ [CR; LF]) (r ++ rem) = r ++ END_LINE ++ drop 5 rem)
    as ->.
  { unfold write. rewrite take_app_length. f_equal. f_equal.
    rewrite drop_app_ge by (simpl; lia). f_equal. simpl. lia. }
  change (Z.of_nat UDP_PAYLOAD_OFF) with 50. change (length hdr = 50%nat) in Hh.
  set (body := r ++ END_LINE ++ drop 5 rem).
  rewrite (head_accepts _ _ (mk_xdp h ((hdr ++ acc) ++ body) t));
    [| by apply move_head_back; rewrite length_app; lia
     | cbn; rewrite !length_app; unfold ETH_HLEN; lia].
  cbn [xdp_pkt xdp_head xdp_tail negb Z.eqb].
  rewrite (proj2 (Nat.ltb_ge _ _)) by (rewrite !length_app; unfold ETH_HLEN, IP_HLEN, UDP_HLEN; lia).
  assert (Z.of_nat (length acc) + Z.of_nat (length r + 5) = total) as ->
    by (unfold total; rewrite !length_app; simpl; lia).
  rewrite <- (app_assoc hdr), reply_headers_app by done.
  assert (length (reply_headers hdr total) = 50%nat) as Hrh.
  { unfold reply_headers, put_be16. unfold ETH_HLEN, IP_HLEN. blen. }
  replace (reply_headers hdr total ++ acc ++ body)
    with ((reply_headers hdr total ++ acc ++ r ++ END_LINE) ++ drop 5 rem)
    by (unfold body; by rewrite <- !app_assoc).
  rewrite (tail_accepts _ _ (mk_xdp h (reply_headers hdr total ++ acc ++ r ++ END_LINE)
                               (drop 5 rem ++ t))); [done| | |].
  - apply move_tail_cut. unfold total, body. rewrite !length_app, length_drop. simpl. lia.
  - unfold total, body. rewrite !length_app, length_drop. simpl. lia.
  - cbn. rewrite !length_app. unfold ETH_HLEN. lia.
Qed.

(** The last key: send what was written, or hand the request over untouched. *)
Lemma write_last m h hdr acc r rem t :
  length hdr = UDP_PAYLOAD_OFF -> (length r + 14 <= length rem)%nat ->
  (acc ++ r = [] -> (92 <= length rem)%nat) ->
  current_key (map_parsing_context m) = key_count (map_parsing_context m) ->
  write_pkt_offset (map_parsing_context m) = Z.of_nat (length acc) ->
  let total := Z.of_nat (length (acc ++ r ++ END_LINE)) in
  exists code ctx m',
    write_reply_next (mk_xdp (h ++ hdr ++ acc) (r ++ drop (length r) rem) t) m (length r) =
      (Return code, ctx, m') /\ map_kcache m' = map_kcache m /\
    if decide (acc ++ r = []) then code = XDP_PASS /\ xdp_pkt ctx = drop 78 rem
    else code = XDP_TX /\ xdp_pkt ctx = reply_headers hdr total ++ acc ++ r ++ END_LINE.
Proof.
  intros Hh Hr Hrem Hck Hw total. unfold write_reply_next. rewrite Hck, Z.eqb_refl, Hw.
  cbn [andb].
  destruct (decide (acc ++ r = [])) as [He|Hne].
  - specialize (Hrem He). apply app_eq_nil in He as [-> ->]. cbn [length Z.of_nat]. cbn [orb Z.ltb Z.compare].
    rewrite app_nil_l, drop_0.
    rewrite (head_accepts _ _ (mk_xdp ((h ++ hdr ++ []) ++ take 78 rem) (drop 78 rem) t)).
    + do 3 eexists. split; [reflexivity|]. done.
    + rewrite <- (take_drop 78 rem) at 1.
      rewrite <- move_head_fwd. f_equal. rewrite length_take. unfold ADJUST_HEAD_LEN.
      change (Z.of_nat UDP_PAYLOAD_OFF) with 50. lia.
    + cbn. rewrite length_drop. unfold ETH_HLEN. lia.
  - assert ((0 <? Z.of_nat (length acc)) || (0 <? Z.of_nat (length r)) = true) as ->.
    { destruct acc as [|? ?]; [|done]. destruct r; done. }
    rewrite send_reply_spec by (done || (rewrite length_drop; lia)).
    do 3 eexists. split; [reflexivity|]. done.
Qed.

(** The reply phase: the cached replies of the pending keys, in order, then the END line. *)
Lemma write_phase c h hdr t : cache_wf c -> length hdr = UDP_PAYLOAD_OFF ->
  forall pend acc cur rem m b,
  keys_wf (map_keys m) -> write_inv c pend cur (Z.of_nat (length acc)) m ->
  0 <= cur -> cur + Z.of_nat (length pend) <= 30 -> pend <> [] -> Forall key_ok pend ->
  (length (replies c pend) + 14 <= length rem)%nat ->
  Z.of_nat (length acc + length (replies c pend)) < 65536 ->
  (acc = [] -> (92 <= length rem)%nat) ->
  let body := acc ++ replies c pend in
  let total := Z.of_nat (length (body ++ END_LINE)) in
  exists code ctx m',
    xdp_resume (length pend + b) (bmc_write_reply_main (mk_xdp (h ++ hdr ++ acc) rem t) m) =
      (code, ctx, m') /\ map_kcache m' = c /\
    if decide (body = []) then code = XDP_PASS /\ xdp_pkt ctx = drop 78 rem
    else code = XDP_TX /\ xdp_pkt ctx = reply_headers hdr total ++ body ++ END_LINE.
Proof.
  intros Hwf Hh. induction pend as [|k pend IH];
    intros acc cur rem m b Hkw Hi Hcur Hmax Hne Hok Hfit H16 Hroom; [done|]. clear Hne.
  inversion_clear Hok as [|? ? Hk Hpend].
  change (replies c (k :: pend)) with (reply_of c k ++ replies c pend) in *.
  rewrite length_app in Hfit, H16. cbn [length] in Hmax.
  destruct (write_reply_step c k pend cur (Z.of_nat (length acc)) m (h ++ hdr ++ acc) rem t)
    as (m' & Hi' & Hkeys & ->); [done..|lia|done|lia|lia|].
  set (r := reply_of c k) in *. destruct Hi' as [Hc' Hcount' Hcur' Hwpo' Hslots'].
  destruct pend as [|k2 pend].
  - (* last key *)
    cbn [length] in *. change (replies c []) with (@nil Z). rewrite !app_nil_r.
    destruct (write_last m' h hdr acc r rem t) as (code & ctx & m2 & -> & Hc2 & Hres);
      [done|lia| |lia|done|].
    { intros He. apply Hroom. by apply app_eq_nil in He as [-> _]. }
    exists code, ctx, m2. rewrite xdp_resume_return. split; [done|]. split; [congruence|].
    by rewrite <- !app_assoc.
  - (* more keys *)
    set (pend2 := k2 :: pend) in *.
    assert (0 < length pend2)%nat as Hlp by (unfold pend2; simpl; lia).
    unfold write_reply_next. rewrite Hcount', Hcur', Hwpo'.
    rewrite (proj2 (Z.eqb_neq _ _)) by lia. cbn [andb].
    rewrite (proj2 (Z.ltb_lt _ _))
      by (unfold BMC_MAX_KEY_IN_PACKET, BMC_MAX_KEY_IN_MULTIGET; lia).
    rewrite (head_accepts _ _ (mk_xdp ((h ++ hdr ++ acc) ++ r) (drop (length r) rem) t));
      [|apply move_head_fwd|cbn; rewrite length_drop; unfold ETH_HLEN; lia].
    cbn [negb Z.eqb].
    change (length (k :: pend2) + b)%nat with (S (length pend2 + b)). cbn [xdp_resume xdp_prog].
    rewrite <- (app_assoc h), <- (app_assoc hdr).
    set (m2 := set_pctx _ m').
    destruct (IH (acc ++ r) (cur + 1) (drop (length r) rem) m2 b)
      as (code & ctx & m3 & Hrun & Hc3 & Hres);
      [ by unfold m2; cbn; rewrite Hkeys | | lia | lia | done | done
      | rewrite length_drop; lia | rewrite length_app; lia | | ].
    + split; cbn; auto; try lia. rewrite wrap_small by lia. rewrite length_app. lia.
    + intros He. apply app_eq_nil in He as [-> He]. rewrite He, drop_0. auto.
    + exists code, ctx, m3. split; [done|]. split; [done|].
      rewrite <- app_assoc in Hres.
      destruct (decide (acc ++ r ++ replies c pend2 = [])) as [Hn|Hn]; [|done].
      destruct Hres as [-> ->]. split; [done|].
      apply app_eq_nil in Hn as [_ Hn]. apply app_eq_nil in Hn as [-> _]. by rewrite drop_0.
Qed.

End Writing.

(** ** The whole request *)

Section Request.

Context `{HL : BpfHelpersLaws} {HR : BpfRoom H}.

(** The receive filter accepts a GET and moves to its first key. *)
Lemma rx_filter_text room hdr x text tl m :
  udp_request_header hdr -> x <> SPACE -> (14 <= length (x :: text))%nat ->
  bmc_rx_filter_main (mk_xdp room (hdr ++ bytes "get " ++ x :: text) tl) m =
  (TailCall BMC_PROG_XDP_HASH_KEYS XDP_PASS,
   mk_xdp (room ++ hdr ++ bytes "get ") (x :: text) tl,
   set_pctx (mk_pctx 0 0 4 0) (set_stats (incr_get_recv (map_stats m)) m)).
Proof.
  intros (Hl & Hp & Hd) Hx H14. change (length hdr = 50%nat) in Hl.
  unfold bmc_rx_filter_main. cbn [xdp_pkt].
  pose proof (skip_spaces_stop 4 x text Hx) as Hskip.
  set (body := x :: text) in *. clearbody body. set (pkt := hdr ++ bytes "get " ++ body).
  assert (forall i, (i < 50)%nat -> byte_at pkt i = byte_at hdr i) as Hb
    by (intros; apply byte_at_app_l; lia).
  assert (length pkt = 54 + length body)%nat as Hlen
    by (unfold pkt; rewrite length_app; simpl; lia).
  rewrite (proj2 (Nat.ltb_ge _ _)) by (unfold ETH_HLEN, IP_HLEN; lia).
  unfold rx_transport. rewrite Hb by (unfold ETH_HLEN; lia). rewrite Hp, Z.eqb_refl.
  rewrite (proj2 (Nat.ltb_ge _ _)) by (unfold ETH_HLEN, IP_HLEN, UDP_HLEN; lia).
  unfold be16. rewrite !Hb by (unfold ETH_HLEN, IP_HLEN; lia). fold (be16 hdr (ETH_HLEN + IP_HLEN + 2)).
  rewrite Hd, Z.eqb_refl, (proj2 (Nat.leb_le _ _)) by (change UDP_PAYLOAD_OFF with 50%nat; lia).
  assert (slice UDP_PAYLOAD_OFF 4 pkt = bytes "get ") as Hs.
  { unfold slice, pkt. change UDP_PAYLOAD_OFF with 50%nat. rewrite <- Hl, drop_app_length. done. }
  rewrite bool_decide_eq_true_2 by done. rewrite lookup_zero. cbn [andb negb].
  assert (drop (UDP_PAYLOAD_OFF + 4) pkt = body) as ->.
  { unfold pkt. change UDP_PAYLOAD_OFF with 50%nat. rewrite app_assoc.
    rewrite <- Hl. change 4%nat with (length (bytes "get ")). rewrite <- length_app.
    apply drop_app_length. }
  rewrite Hskip.
  change (4 <? BMC_MAX_PACKET_LENGTH)%nat with true. cbn match.
  assert (pkt = (hdr ++ bytes "get ") ++ body) as -> by (unfold pkt; by rewrite <- app_assoc).
  rewrite (head_accepts _ _ (mk_xdp (room ++ hdr ++ bytes "get ") body tl)); [done| |done].
  rewrite <- move_head_fwd. f_equal. rewrite length_app, Hl. done.
Qed.

Lemma rx_filter_get room hdr ks rest tl m :
  udp_request_header hdr -> ks <> [] -> Forall key_ok ks ->
  (14 <= length (keys_text ks rest))%nat ->
  bmc_rx_filter_main (get_frame room hdr ks rest tl) m =
  (TailCall BMC_PROG_XDP_HASH_KEYS XDP_PASS,
   mk_xdp (room ++ hdr ++ bytes "get ") (keys_text ks rest) tl,
   set_pctx (mk_pctx 0 0 4 0) (set_stats (incr_get_recv (map_stats m)) m)).
Proof.
  intros Hh Hne Hok H14. unfold get_frame.
  assert (exists x text, x <> SPACE /\ keys_text ks rest = x :: text) as (x & text & Hx & He).
  { destruct ks as [|[|x k] ks]; [done|..]; inversion_clear Hok as [|? ? [Hc [Hk _]] _];
      [simpl in Hk; lia|]. inversion_clear Hc as [|? ? [Hx _] _].
    exists x. destruct ks; cbn [keys_text app]; by eexists. }
  rewrite He in *. by apply rx_filter_text.
Qed.

(** The header rewrite leaves 78 bytes of new room in front of the old request. *)
Lemma prepare_packet_get room hdr body tl m :
  length hdr = UDP_PAYLOAD_OFF -> (128 <= length room)%nat -> (2 <= length body)%nat ->
  exists room' rem,
    length rem = (128 + length body)%nat /\ drop 78 rem = hdr ++ body /\
    bmc_prepare_packet_main (mk_xdp room (hdr ++ body) tl) m =
    (TailCall BMC_PROG_XDP_WRITE_REPLY XDP_PASS,
     mk_xdp (room' ++ swap_addresses hdr) rem tl, m).
Proof.
  intros Hl Hroom Hbody. pose proof (length_swap_addresses hdr Hl) as Hsw.
  change (length hdr = 50%nat) in Hl. change (length (swap_addresses hdr) = 50%nat) in Hsw.
  set (n := (length room - 128)%nat).
  set (r1 := drop n room). assert (length r1 = 128%nat) as Hr1
    by (unfold r1; rewrite length_drop; lia).
  exists (take n room), (drop 50 r1 ++ hdr ++ body).
  assert (length (drop 50 r1) = 78%nat) as H78 by (rewrite length_drop; lia).
  split; [rewrite !length_app; lia|]. split; [by rewrite <- H78, drop_app_length|].
  unfold bmc_prepare_packet_main.
  rewrite (head_accepts _ _ (mk_xdp (take n room) (r1 ++ hdr ++ body) tl));
    [| by rewrite <- (take_drop n room) at 1; apply move_head_back; unfold ADJUST_HEAD_LEN; fold r1; lia
     | cbn; rewrite !length_app; unfold ETH_HLEN; lia].
  cbn [negb Z.eqb xdp_pkt xdp_head xdp_tail].
  rewrite !(proj2 (Nat.leb_gt _ _))
    by (rewrite !length_app; change UDP_PAYLOAD_OFF with 50%nat; unfold ADJUST_HEAD_LEN; lia).
  cbn [orb].
  assert (slice ADJUST_HEAD_LEN UDP_PAYLOAD_OFF (r1 ++ hdr ++ body) = hdr) as ->.
  { unfold slice, ADJUST_HEAD_LEN. rewrite <- Hr1, drop_app_length.
    change UDP_PAYLOAD_OFF with 50%nat. by rewrite <- Hl, take_app_length. }
  assert (write 0 hdr (r1 ++ hdr ++ body) = hdr ++ drop 50 r1 ++ hdr ++ body) as ->.
  { unfold write. rewrite take_0, app_nil_l, Hl. f_equal.
    by rewrite drop_app_le by (rewrite Hr1; simpl; lia). }
  rewrite swap_addresses_app by done.
  rewrite (head_accepts _ _ (mk_xdp (take n room ++ swap_addresses hdr)
                               (drop 50 r1 ++ hdr ++ body) tl)); [done| |].
  - rewrite <- move_head_fwd. f_equal. by rewrite Hsw.
  - cbn. rewrite !length_app. unfold ETH_HLEN. lia.
Qed.

Lemma hash_inv_start m :
  keys_wf (map_keys m) ->
  hash_inv (map_kcache m) [] 4 (set_pctx (mk_pctx 0 0 4 0) (set_stats (incr_get_recv (map_stats m)) m)).
Proof. intros. split; cbn; auto. intros j k Hj. done. Qed.

Lemma hash_inv_write c all rpo m : hash_inv c all rpo m -> write_inv c all 0 0 m.
Proof. intros [? ? Hp ?]. split; rewrite ?Hp; cbn; auto. Qed.

(** Keys that are not predicted hits contribute nothing to the reply. *)
Lemma replies_predicted c ks :
  replies c (filter (fun k => predicted c k = true) ks) = replies c ks.
Proof.
  induction ks as [|k ks IH]; [done|]. rewrite filter_cons.
  change (replies c (k :: ks)) with (reply_of c k ++ replies c ks).
  destruct (decide (predicted c k = true)) as [Hp|Hp].
  - change (replies c (k :: ?l)) with (reply_of c k ++ replies c l). by rewrite IH.
  - rewrite IH. unfold reply_of, cached_reply. fold (predicted c k).
    by destruct (predicted c k).
Qed.

Lemma hits_key_ok c ks : Forall key_ok ks -> Forall key_ok (hits_of c ks).
Proof.
  intros Hok. apply Forall_forall. intros x Hx. apply list_elem_of_filter in Hx as [_ Hx].
  by eapply Forall_forall in Hok.
Qed.

(** The text from the last key on bounds the text from below. *)
Lemma keys_text_room ks rest n :
  ks <> [] -> (forall k, last ks = Some k -> (n <= length k + 1 + length rest)%nat) ->
  (n <= length (keys_text ks rest))%nat.
Proof.
  intros Hne Hl. destruct (exists_last Hne) as (ks1 & k & ->).
  specialize (Hl k (last_snoc _ _)). rewrite keys_text_snoc, !length_app. simpl. lia.
Qed.

(** From the frame to the end of the hashing phase. *)
Lemma get_hashed room hdr ks rest tl m b :
  udp_request_header hdr -> ks <> [] -> (length ks <= 30)%nat -> Forall key_ok ks ->
  (forall k, last ks = Some k -> (14 <= length k + 1 + length rest)%nat) ->
  Z.of_nat (length (keys_text ks rest)) < 65000 -> keys_wf (map_keys m) ->
  (length ks <= b)%nat ->
  let c := map_kcache m in
  exists m' rpo', hash_inv c (hits_of c ks) rpo' m' /\
    xdp_run b (get_frame room hdr ks rest tl) m =
    xdp_resume (b - length ks)
      (if (0 <? length (hits_of c ks))%nat then TailCall BMC_PROG_XDP_PREPARE_PACKET XDP_PASS
       else Return XDP_PASS, get_frame room hdr ks rest tl, m').
Proof.
  intros Hh Hne Hlen Hok Hlast Hsz Hkw Hb c.
  pose proof (keys_text_room ks rest 14 Hne Hlast) as H14. pose proof Hh as (Hl & _).
  unfold xdp_run. rewrite rx_filter_get by done.
  destruct (exists_last Hne) as (ks1 & k & ->).
  specialize (Hlast k (last_snoc _ _)). apply Forall_app in Hok as [Hok1 Hk].
  inversion_clear Hk as [|? ? Hk' _]. unfold get_frame. rewrite keys_text_snoc in *.
  rewrite !length_app in *. cbn [length] in *.
  destruct b as [|b]; [lia|]. cbn [xdp_resume xdp_prog].
  destruct (hash_phase c room tl rest ks1 k _ (hdr ++ bytes "get ") (b - length ks1)
              (hash_inv_start m Hkw)) as (m1 & rpo' & Hi & Hrun);
    [by rewrite length_app, Hl|lia|done|done|lia|lia|].
  replace (length ks1 + (b - length ks1))%nat with b in Hrun by lia.
  exists m1, rpo'. split; [done|]. rewrite Hrun, <- app_assoc.
  by replace (S b - (length ks1 + 1))%nat with (b - length ks1)%nat by lia.
Qed.

(** The served request, from the two phases. *)
Lemma get_request_spec room hdr ks rest tl m b :
  udp_request_header hdr -> (128 <= length room)%nat ->
  ks <> [] -> (length ks <= 30)%nat -> Forall key_ok ks ->
  (forall k, last ks = Some k -> (14 <= length k + 1 + length rest)%nat) ->
  Z.of_nat (length (keys_text ks rest)) < 65000 ->
  cache_wf (map_kcache m) -> keys_wf (map_keys m) ->
  (length (replies (map_kcache m) ks) + 14 <= 132 + length (keys_text ks rest))%nat ->
  (2 * length ks + 2 <= b)%nat ->
  let ctx := get_frame room hdr ks rest tl in
  let reply := replies (map_kcache m) ks in
  exists code ctx' m', xdp_run b ctx m = (code, ctx', m') /\ map_kcache m' = map_kcache m /\
    if decide (reply = []) then code = XDP_PASS /\ xdp_pkt ctx' = xdp_pkt ctx
    else code = XDP_TX /\
      exists hdr', xdp_pkt ctx' = hdr' ++ reply ++ END_LINE /\
        reply_header hdr hdr' (Z.of_nat (length (reply ++ END_LINE))).
Proof.
  intros Hh Hroom Hne Hlen Hok Hlast Hsz Hwf Hkw Hfit Hb ctx reply.
  pose proof (keys_text_room ks rest 14 Hne Hlast) as H14.
  destruct (get_hashed room hdr ks rest tl m b) as (m1 & rpo' & Hi & Hrun); [done..|lia|].
  set (c := map_kcache m) in *. set (body := bytes "get " ++ keys_text ks rest) in *.
  assert (length body = 4 + length (keys_text ks rest))%nat as Hbody
    by (unfold body; by rewrite length_app).
  pose proof Hh as (Hl & _). unfold ctx. rewrite Hrun. clear Hrun.
  change (get_frame room hdr ks rest tl) with (mk_xdp room (hdr ++ body) tl).
  set (hits := hits_of c ks) in *.
  assert (reply = replies c hits) as Hrep by (unfold reply, hits; by rewrite replies_predicted).
  assert (length hits <= length ks)%nat as Hhl by apply length_filter.
  destruct (Nat.ltb_spec 0 (length hits)) as [Hpos|Hzero].
  - destruct (b - length ks)%nat as [|[|b2]] eqn:Hb2; [lia..|]. cbn [xdp_resume xdp_prog].
    destruct (prepare_packet_get room hdr body tl m1) as (room' & rem & Hrem & Hdrop & ->);
      [done|done|lia|]. cbn [xdp_resume xdp_prog].
    destruct (write_phase c room' (swap_addresses hdr) tl Hwf (length_swap_addresses hdr Hl)
                hits [] 0 rem m1 (b2 - length hits))
      as (code & ctx' & m' & Hrun & Hc & Hres);
      [apply Hi|by apply hash_inv_write with rpo'|lia|lia|by destruct hits; simpl in Hpos; [lia|]
      |by apply hits_key_ok|rewrite <- Hrep; unfold reply; lia
      |rewrite <- Hrep; unfold reply; simpl; lia|lia|].
    rewrite !app_nil_r, app_nil_l, <- Hrep in *.
    replace (length hits + (b2 - length hits))%nat with b2 in Hrun by lia.
    exists code, ctx', m'. split; [done|]. split; [done|].
    destruct (decide (reply = [])); destruct Hres as [-> Hpkt]; split; auto.
    + rewrite Hpkt, Hdrop. done.
    + eexists; split; [exact Hpkt|]. by apply reply_header_ok.
  - rewrite xdp_resume_return.
    exists XDP_PASS, (mk_xdp room (hdr ++ body) tl), m1. split; [done|].
    split; [apply Hi|].
    assert (hits = []) as Hnil by (destruct hits; [done|simpl in Hzero; lia]).
    rewrite Hrep, Hnil. done.
Qed.


End Request.
