(* ===== verification/BmcCoherence.v ===== *)
(** How the cache follows the server: replies that leave the host enter it, SET commands that
    arrive take keys out of it, and a GET is answered from what is left. *)
From S2P Require Import Prelude BmcCommon BmcKern BmcLoops BmcCache BmcPipeline.

(** Headers of a memcached UDP reply and of a TCP segment to the server. *)
Definition udp_reply_header (hdr : list Z) : Prop :=
  length hdr = UDP_PAYLOAD_OFF /\ byte_at hdr (ETH_HLEN + 9) = IPPROTO_UDP /\
  be16 hdr (ETH_HLEN + IP_HLEN) = MEMCACHED_PORT.

Definition tcp_request_header (hdr : list Z) : Prop :=
  length hdr = TCP_PAYLOAD_OFF /\ byte_at hdr (ETH_HLEN + 9) = IPPROTO_TCP /\
  be16 hdr (ETH_HLEN + IP_HLEN + 2) = MEMCACHED_PORT.

(** The line "VALUE <key> <flags> <bytes>\r" of a reply. *)
Definition value_line (k args : list Z) : list Z := bytes "VALUE " ++ k ++ SPACE :: args ++ [CR].

Lemma value_line_reply k args x : value_line k args ++ x = reply_for k ((args ++ [CR]) ++ x).
Proof. unfold value_line, reply_for. rewrite <- app_assoc. f_equal. rewrite <- app_assoc. f_equal. Qed.

Section Coherence.

Context `{HL : BpfHelpersLaws}.

(** The receive filter hands every TCP segment for the server to the invalidator. *)
Lemma xdp_run_tcp room hdr payload tl m b :
  tcp_request_header hdr -> (4 <= length payload)%nat -> (0 < b)%nat ->
  xdp_run b (mk_xdp room (hdr ++ payload) tl) m =
  (XDP_PASS, mk_xdp room (hdr ++ payload) tl, invalidate_loop 0 false false 0 payload m).
Proof.
  intros (Hl & Hp & Hd) H4 Hb. change (length hdr = 54%nat) in Hl.
  unfold xdp_run, bmc_rx_filter_main. cbn [xdp_pkt]. set (pkt := hdr ++ payload).
  assert (forall i, (i < 54)%nat -> byte_at pkt i = byte_at hdr i) as Hbt
    by (intros; apply byte_at_app_l; lia).
  assert (length pkt = 54 + length payload)%nat as Hlen by (unfold pkt; rewrite length_app; lia).
  rewrite (proj2 (Nat.ltb_ge _ _)) by (unfold ETH_HLEN, IP_HLEN; lia).
  unfold rx_transport. rewrite Hbt by (unfold ETH_HLEN; lia). rewrite Hp.
  change (IPPROTO_TCP =? IPPROTO_UDP) with false. rewrite Z.eqb_refl.
  rewrite (proj2 (Nat.ltb_ge _ _)) by (unfold ETH_HLEN, IP_HLEN, TCP_HLEN; lia).
  unfold be16. rewrite !Hbt by (unfold ETH_HLEN, IP_HLEN; lia).
  fold (be16 hdr (ETH_HLEN + IP_HLEN + 2)). rewrite Hd, Z.eqb_refl.
  rewrite (proj2 (Nat.leb_le _ _)) by (change TCP_PAYLOAD_OFF with 54%nat; lia).
  cbn [andb]. destruct b as [|b]; [lia|]. cbn [xdp_resume xdp_prog].
  unfold bmc_invalidate_cache_main. cbn [xdp_pkt]. fold pkt.
  rewrite (proj2 (Nat.leb_gt _ _)) by (change TCP_PAYLOAD_OFF with 54%nat; lia).
  rewrite lookup_zero. cbn [negb]. rewrite xdp_resume_return. unfold pkt at 2.
  change TCP_PAYLOAD_OFF with 54%nat. by rewrite <- Hl, drop_app_length.
Qed.

(** Egress keeps the maps well formed, whatever the packet. *)
Lemma tc_run_wf b skb m :
  cache_wf (map_kcache m) -> keys_wf (map_keys m) ->
  cache_wf (map_kcache (tc_run b skb m).2) /\ keys_wf (map_keys (tc_run b skb m).2).
Proof.
  intros Hc Hk. unfold tc_run.
  assert (cache_wf (map_kcache (bmc_tx_filter_main skb m).2) /\
          keys_wf (map_keys (bmc_tx_filter_main skb m).2)) as [Hc1 Hk1]
    by (unfold bmc_tx_filter_main; repeat case_if; done).
  destruct (bmc_tx_filter_main skb m) as [[code|[] ft] m1]; [done|]. cbn [snd] in *.
  destruct b as [|b]; [done|]. cbn [tc_resume tc_prog].
  pose proof (update_cache_wf skb m1 Hc1) as Hc2.
  pose proof (update_cache_keys skb m1) as Hk2.
  destruct (bmc_update_cache_main skb m1) as [[?|??] m2]; cbn in *; by rewrite Hk2.
Qed.

(** The egress filter hands every GET reply that fits an entry to the updater. *)
Lemma tc_run_reply hdr k rest n m b :
  udp_reply_header hdr -> n <= 1353 -> (0 < b)%nat ->
  let skb := mk_skb n (hdr ++ reply_for k rest) in
  map_kcache (tc_run b skb m).2 =
  map_kcache (bmc_update_cache_main skb (set_stats (incr_get_resp (map_stats m)) m)).2.
Proof.
  intros (Hl & Hp & Hd) Hn Hb skb. change (length hdr = 50%nat) in Hl.
  unfold tc_run, bmc_tx_filter_main. cbn [skb_data skb_len]. unfold skb at 1 2 3 4 5 6 7.
  cbn [skb_data skb_len]. set (pkt := hdr ++ reply_for k rest).
  assert (length pkt = 57 + length k + length rest)%nat as Hlen
    by (unfold pkt, reply_for; rewrite !length_app; simpl; lia).
  assert (forall i, (i < 50)%nat -> byte_at pkt i = byte_at hdr i) as Hbt
    by (intros; apply byte_at_app_l; lia).
  rewrite (proj2 (Z.ltb_ge _ _)) by (change (BMC_MAX_CACHE_DATA_SIZE + UDP_PAYLOAD_OFF)%nat with 1353%nat; lia).
  rewrite (proj2 (Nat.ltb_ge _ _)) by (unfold ETH_HLEN, IP_HLEN; lia).
  rewrite Hbt by (unfold ETH_HLEN; lia). rewrite Hp. cbn [negb Z.eqb].
  rewrite Z.eqb_refl. cbn [negb].
  rewrite (proj2 (Nat.ltb_ge _ _)) by (unfold ETH_HLEN, IP_HLEN, UDP_HLEN; lia).
  unfold be16. rewrite !Hbt by (unfold ETH_HLEN, IP_HLEN; lia).
  fold (be16 hdr (ETH_HLEN + IP_HLEN)). rewrite Hd, Z.eqb_refl.
  rewrite (proj2 (Nat.leb_le _ _)) by (change UDP_PAYLOAD_OFF with 50%nat; lia).
  assert (slice UDP_PAYLOAD_OFF 6 pkt = bytes "VALUE ") as Hs.
  { unfold slice, pkt. change UDP_PAYLOAD_OFF with 50%nat. rewrite <- Hl, drop_app_length. done. }
  rewrite bool_decide_eq_true_2 by done. rewrite lookup_zero. cbn [andb negb].
  destruct b as [|b]; [lia|]. cbn [tc_resume tc_prog].
  change (mk_skb n pkt) with skb. by destruct (bmc_update_cache_main skb _) as [[?|??] ?].
Qed.


(** A segment in which "set" does not occur leaves every map as it was, so replies cached
    before an "add", "delete", "incr", "append" or "touch" keep being served after it. *)
Theorem other_commands_keep_cache room hdr payload tl m b :
  tcp_request_header hdr -> (4 <= length payload)%nat -> (0 < b)%nat ->
  (forall x y, payload <> x ++ bytes "set" ++ y) ->
  let ctx := mk_xdp room (hdr ++ payload) tl in
  xdp_run b ctx m = (XDP_PASS, ctx, m).
Proof.
  intros Hh Hl Hb Hno ctx. unfold ctx. rewrite xdp_run_tcp by done.
  by rewrite invalidate_loop_no_set.
Qed.

(** What the updater makes of a reply for a key whose slot holds no valid entry of its hash. *)
Lemma cold_reply_cached hdr k args v rest n m b :
  udp_reply_header hdr -> n <= 1353 -> (0 < b)%nat -> key_ok k ->
  Forall (fun c => c <> LF) k -> Forall (fun c => c <> LF) args ->
  Forall (fun c => c <> LF) v ->
  (length k + length args + length v + 10 <= 1303)%nat ->
  cache_wf (map_kcache m) -> predicted (map_kcache m) k = false ->
  let skb := mk_skb n (hdr ++ value_line k args ++ LF :: v ++ LF :: rest) in
  cached_reply (map_kcache (tc_run b skb m).2) k = Some (value_line k args ++ LF :: v ++ [LF]).
Proof.
  intros Hh Hn Hb [Hkc Hkl] Hk Ha Hv Hlen Hwf Hcold skb.
  unfold skb. rewrite value_line_reply, tc_run_reply by done. rewrite <- value_line_reply.
  apply update_cache_stores with (hd := args ++ [CR]) (rest := rest); try done; try lia.
  - unfold skb_payload. cbn [skb_data]. destruct Hh as [Hl _]. rewrite <- Hl.
    by rewrite drop_app_length.
  - apply Forall_app_2; [by repeat constructor|]. apply Forall_app_2; [done|].
    constructor; [done|]. apply Forall_app_2; [done|]. by repeat constructor.
  - rewrite !length_app. simpl. rewrite !length_app. simpl. lia.
  - by unfold predicted in Hcold; cbn; rewrite Hcold.
Qed.

Context {HR : BpfRoom H}.

(** A reply that leaves through the egress path answers the next GET of its key. *)
Lemma relayed_reply hdr k args v rest n m b room rq rest' tl :
  udp_reply_header hdr -> n <= 1353 -> key_ok k ->
  Forall (fun c => c <> LF) k -> Forall (fun c => c <> LF) args ->
  Forall (fun c => c <> LF) v ->
  (length k + length args + length v + 10 <= 1303)%nat ->
  cache_wf (map_kcache m) -> keys_wf (map_keys m) -> predicted (map_kcache m) k = false ->
  udp_request_header rq -> (128 <= length room)%nat ->
  (14 <= length k + 1 + length rest')%nat -> (length rest' <= 2000)%nat ->
  let reply := value_line k args ++ LF :: v ++ [LF] in
  (length reply + 14 <= 133 + length k + length rest')%nat -> (4 <= b)%nat ->
  let m1 := (tc_run b (mk_skb n (hdr ++ value_line k args ++ LF :: v ++ LF :: rest)) m).2 in
  exists ctx' m' rq', xdp_run b (get_frame room rq [k] rest' tl) m1 = (XDP_TX, ctx', m') /\
    xdp_pkt ctx' = rq' ++ reply ++ END_LINE /\
    reply_header rq rq' (Z.of_nat (length (reply ++ END_LINE))).
Proof.
  intros Hh Hn Hk Hk' Ha Hv Hlen Hwf Hkw Hcold Hrq Hroom H14 H2000 reply Hfit Hb m1.
  assert (cached_reply (map_kcache m1) k = Some reply) as Hc
    by (apply cold_reply_cached; done || lia).
  assert (cache_wf (map_kcache m1) /\ keys_wf (map_keys m1)) as [Hwf1 Hkw1]
    by (apply tc_run_wf; done).
  assert (replies (map_kcache m1) [k] = reply) as Hr
    by (unfold replies, reply_of; cbn; rewrite Hc; apply app_nil_r).
  destruct Hk as [? [? ?]].
  destruct (get_request_spec room rq [k] rest' tl m1 b) as (code & ctx' & m' & Hrun & _ & Hres);
    try done; cbn [length keys_text]; rewrite ?length_app; cbn [length]; try lia.
  - constructor; [by split|constructor].
  - intros ? [= <-]. done.
  - rewrite Hr. lia.
  - rewrite Hr in Hres. destruct (decide (reply = [])) as [Hnil|]; [discriminate Hnil|].
    destruct Hres as [-> (rq' & Hp & Hhd)]. exists ctx', m', rq'. rewrite length_app in Hhd. auto.
Qed.


End Coherence.
