(* ===== verification/BmcLimits.v ===== *)
(** Limits and corner cases of the kernel programs: what happens beyond the sizes, key counts
    and tail-call budgets the main path assumes, and the places where the programs do
    something other than their comments say. *)
From S2P Require Import Prelude BmcCommon BmcKern BmcLoops BmcCache BmcPipeline BmcCoherence.

Lemma hits_all c ks : Forall (fun k => predicted c k = true) ks -> hits_of c ks = ks.
Proof.
  induction 1 as [|k ks Hk _ IH]; [done|]. rewrite filter_cons.
  destruct (decide (predicted c k = true)); [by f_equal|done].
Qed.

Lemma entry_matches_unique e h h' :
  entry_matches e h = true -> entry_matches e h' = true -> h = h'.
Proof. unfold entry_matches. intros. zbool. congruence. Qed.

Section Limits.

Context `{HL : BpfHelpersLaws} {HR : BpfRoom H}.

(** A cached reply that does not fit the request's frame plus the 78 bytes of headroom is
    not served and not passed on either: the request is dropped. *)
Theorem oversized_reply_drops room hdr k rest tl m b :
  udp_request_header hdr -> (128 <= length room)%nat -> key_ok k ->
  (14 <= length k + 1 + length rest)%nat -> (length rest <= 2000)%nat ->
  cache_wf (map_kcache m) -> keys_wf (map_keys m) ->
  (133 + length k + length rest < length (reply_of (map_kcache m) k) + 5)%nat ->
  (4 <= b)%nat ->
  exists ctx' m', xdp_run b (get_frame room hdr [k] rest tl) m = (XDP_DROP, ctx', m').
Proof.
  intros Hh Hroom Hk H14 H2000 Hwf Hkw Hbig Hb. set (c := map_kcache m) in *.
  assert (predicted c k = true) as Hp.
  { unfold reply_of, cached_reply in Hbig. fold (predicted c k) in Hbig.
    destruct (predicted c k); [done|]. cbn in Hbig. lia. }
  assert (hits_of c [k] = [k]) as Hhits by (rewrite filter_cons, filter_nil; by case_decide).
  pose proof Hk as [_ [Hk1 Hk2]].
  destruct (get_hashed room hdr [k] rest tl m b) as (m1 & rpo & Hi & Hrun);
    [done|done|simpl; lia|by constructor|by intros ? [= <-]|cbn; rewrite length_app; simpl; lia|done
    |simpl; lia|].
  fold c in Hi, Hrun. rewrite Hhits in Hi, Hrun. rewrite Hrun. clear Hrun.
  cbn [length Nat.ltb Nat.leb]. destruct b as [|[|[|[|b]]]]; try lia.
  cbn [Nat.sub xdp_resume xdp_prog]. unfold get_frame.
  destruct (prepare_packet_get room hdr (bytes "get " ++ keys_text [k] rest) tl m1)
    as (room' & rem & Hrem & _ & ->); [apply Hh|done|rewrite length_app; simpl; lia|].
  cbn [xdp_resume xdp_prog].
  assert (length rem = 133 + length k + length rest)%nat as Hlr
    by (rewrite Hrem; cbn; rewrite length_app; simpl; lia).
  destruct (write_reply_cut c k [] 0 0 m1 (room' ++ swap_addresses hdr) rem tl)
    as (m2 & [_ Hcnt Hcur Hwpo _] & _ & ->);
    [done|apply Hi|by apply hash_inv_write with rpo|lia|done|lia|].
  set (r := take (length rem) (reply_of c k)).
  assert (length r = Nat.min (length rem) (length (reply_of c k))) as Hr
    by apply length_take.
  unfold write_reply_next. rewrite Hcnt, Hcur, Hwpo. cbn [length].
  rewrite Z.add_0_r, Z.eqb_refl, (proj2 (Z.ltb_lt 0 (Z.of_nat _))) by lia.
  rewrite orb_true_r. cbn [andb]. unfold send_reply. cbn [xdp_pkt].
  rewrite (proj2 (Nat.leb_gt _ _)) by (rewrite length_app, length_drop; lia).
  by do 2 eexists.
Qed.

(** Running out of tail calls while replies are being written drops the request. *)
Lemma write_phase_starved c h hdr t : cache_wf c -> length hdr = UDP_PAYLOAD_OFF ->
  forall pend acc cur rem m b,
  keys_wf (map_keys m) -> write_inv c pend cur (Z.of_nat (length acc)) m ->
  0 <= cur -> cur + Z.of_nat (length pend) <= 30 -> Forall key_ok pend ->
  (length (replies c pend) + 14 <= length rem)%nat ->
  Z.of_nat (length acc + length (replies c pend)) < 65536 ->
  (b + 1 < length pend)%nat ->
  exists ctx m',
    xdp_resume b (bmc_write_reply_main (mk_xdp (h ++ hdr ++ acc) rem t) m) = (XDP_DROP, ctx, m').
Proof.
  intros Hwf Hh. induction pend as [|k pend IH];
    intros acc cur rem m b Hkw Hi Hcur Hmax Hok Hfit H16 Hb; [simpl in Hb; lia|].
  inversion_clear Hok as [|? ? Hk Hpend].
  change (replies c (k :: pend)) with (reply_of c k ++ replies c pend) in *.
  rewrite length_app in Hfit, H16. cbn [length] in Hmax, Hb.
  destruct (write_reply_step c k pend cur (Z.of_nat (length acc)) m (h ++ hdr ++ acc) rem t)
    as (m' & [Hc' Hcount' Hcur' Hwpo' Hslots'] & Hkeys & ->); [done..|lia|done|lia|lia|].
  set (r := reply_of c k) in *.
  unfold write_reply_next. rewrite Hcount', Hcur', Hwpo'.
  rewrite (proj2 (Z.eqb_neq _ _)) by lia. cbn [andb].
  rewrite (proj2 (Z.ltb_lt _ _))
    by (unfold BMC_MAX_KEY_IN_PACKET, BMC_MAX_KEY_IN_MULTIGET; lia).
  rewrite (head_accepts _ _ (mk_xdp ((h ++ hdr ++ acc) ++ r) (drop (length r) rem) t));
    [|apply move_head_fwd|cbn; rewrite length_drop; unfold ETH_HLEN; lia].
  cbn [negb Z.eqb]. destruct b as [|b]; [by do 2 eexists|]. cbn [xdp_resume xdp_prog].
  rewrite <- (app_assoc h), <- (app_assoc hdr).
  set (m2 := set_pctx _ m').
  apply (IH (acc ++ r) (cur + 1) (drop (length r) rem) m2 b); try lia; auto.
  - unfold m2; cbn. by rewrite Hkeys.
  - split; cbn; auto; try lia. rewrite wrap_small by lia. rewrite length_app. lia.
  - rewrite length_drop. lia.
  - rewrite length_app. lia.
Qed.

(** Answering [n] cached keys takes [2 n + 1] tail calls; a kernel that allows fewer (but
    enough to reach the reply writer) drops the request, though 30 keys are meant to work. *)
Theorem tail_call_budget_drops room hdr ks rest tl m b :
  udp_request_header hdr -> (128 <= length room)%nat ->
  ks <> [] -> (length ks <= 30)%nat -> Forall key_ok ks ->
  (forall k, last ks = Some k -> (14 <= length k + 1 + length rest)%nat) ->
  Z.of_nat (length (keys_text ks rest)) < 65000 ->
  cache_wf (map_kcache m) -> keys_wf (map_keys m) ->
  (length (replies (map_kcache m) ks) + 14 <= 132 + length (keys_text ks rest))%nat ->
  Forall (fun k => predicted (map_kcache m) k = true) ks ->
  (length ks + 2 <= b <= 2 * length ks)%nat ->
  exists ctx' m', xdp_run b (get_frame room hdr ks rest tl) m = (XDP_DROP, ctx', m').
Proof.
  intros Hh Hroom Hne Hlen Hok Hlast Hsz Hwf Hkw Hfit Hall Hb. set (c := map_kcache m) in *.
  pose proof (keys_text_room ks rest 14 Hne Hlast) as H14. pose proof Hh as (Hl & _).
  pose proof (hits_all c ks Hall) as Hhits.
  destruct (get_hashed room hdr ks rest tl m b) as (m1 & rpo & Hi & ->); [done..|lia|].
  fold c in Hi |- *. rewrite Hhits in *.
  assert (0 < length ks)%nat by (destruct ks; simpl; [done|lia]).
  rewrite (proj2 (Nat.ltb_lt _ _)) by done.
  destruct (b - length ks)%nat as [|[|b2]] eqn:Hb2; [lia..|]. cbn [xdp_resume xdp_prog].
  unfold get_frame.
  destruct (prepare_packet_get room hdr (bytes "get " ++ keys_text ks rest) tl m1)
    as (room' & rem & Hrem & _ & ->); [done|done|rewrite length_app; simpl; lia|].
  rewrite length_app in Hrem. simpl (length (bytes _)) in Hrem. cbn [xdp_resume xdp_prog].
  destruct (write_phase_starved c room' (swap_addresses hdr) tl Hwf (length_swap_addresses hdr Hl)
              ks [] 0 rem m1 b2) as (ctx' & m' & Hrun);
    [apply Hi|by apply hash_inv_write with rpo|lia|lia|done|lia|simpl; lia|lia|].
  rewrite app_nil_r in Hrun. by exists ctx', m'.
Qed.

(** With 30 keys collected, one more key makes the hasher return without putting the
    headers back: the stack is handed the tail of the request text instead of the packet. *)
Theorem thirty_first_key_loses_headers room hdr ks k rest tl m b :
  udp_request_header hdr -> length ks = 30%nat -> Forall key_ok ks -> key_ok k ->
  (14 <= length k + 1 + length rest)%nat ->
  Z.of_nat (length (keys_text (ks ++ [k]) rest)) < 65000 -> keys_wf (map_keys m) ->
  Forall (fun k => predicted (map_kcache m) k = true) ks ->
  (31 <= b)%nat ->
  exists ctx' m', xdp_run b (get_frame room hdr (ks ++ [k]) rest tl) m = (XDP_PASS, ctx', m') /\
    xdp_pkt ctx' = k ++ CR :: rest.
Proof.
  intros Hh Hlen Hok Hk H14 Hsz Hkw Hall Hb. set (c := map_kcache m).
  pose proof Hh as (Hl & _).
  pose proof (hits_all c ks Hall) as Hhits.
  unfold xdp_run. rewrite rx_filter_get; [|done|by destruct ks|by apply Forall_app_2; [|constructor]|
    rewrite keys_text_snoc, !length_app; simpl; lia].
  rewrite keys_text_snoc in *. rewrite !length_app in Hsz.
  destruct b as [|b]; [lia|]. cbn [xdp_resume xdp_prog].
  destruct (hash_prefix c room tl (k ++ CR :: rest) ks [] 4 _ (hdr ++ bytes "get ") (b - 30)
              (hash_inv_start m Hkw)) as (m1 & Hi & Hrun);
    [lia|rewrite length_app; simpl; lia|lia|done|simpl; lia|].
  rewrite Hlen in Hrun. replace (30 + (b - 30))%nat with b in Hrun by lia. rewrite Hrun.
  rewrite app_nil_l, Hhits in Hi.
  assert (bmc_hash_keys_main (mk_xdp (room ++ (hdr ++ bytes "get ") ++ prefix_text ks)
                                (k ++ CR :: rest) tl) m1 =
          (Return XDP_PASS, mk_xdp (room ++ (hdr ++ bytes "get ") ++ prefix_text ks)
                                (k ++ CR :: rest) tl, m1)) as ->.
  { unfold bmc_hash_keys_main. cbn [xdp_pkt].
    rewrite (proj2 (Nat.eqb_neq _ _)) by (rewrite length_app; simpl; lia).
    rewrite lookup_zero, (hi_pctx _ _ _ _ Hi), Hlen. cbn [negb key_count].
    destruct (map_lookup_ok _ _) eqn:Hm; [|done].
    apply map_lookup_spec in Hm. unfold BMC_MAX_KEY_IN_PACKET, BMC_MAX_KEY_IN_MULTIGET in Hm. lia. }
  rewrite xdp_resume_return. by do 2 eexists.
Qed.

(** A GET whose last key is not followed by CR is passed to the stack without its headers:
    the hasher cannot move past the key and returns without putting them back. *)
Theorem unterminated_get_loses_headers room hdr k tl m b :
  udp_request_header hdr -> key_ok k -> (14 <= length k)%nat -> keys_wf (map_keys m) ->
  (1 <= b)%nat ->
  exists ctx' m',
    xdp_run b (mk_xdp room (hdr ++ bytes "get " ++ k) tl) m = (XDP_PASS, ctx', m') /\
    xdp_pkt ctx' = k.
Proof.
  intros Hh Hk H14 Hkw Hb. pose proof Hk as [Hkc Hkl].
  assert (bmc_rx_filter_main (mk_xdp room (hdr ++ bytes "get " ++ k) tl) m =
          (TailCall BMC_PROG_XDP_HASH_KEYS XDP_PASS, mk_xdp (room ++ hdr ++ bytes "get ") k tl,
           set_pctx (mk_pctx 0 0 4 0) (set_stats (incr_get_recv (map_stats m)) m))) as Hrx.
  { destruct k as [|x k']; [simpl in H14; lia|]. inversion Hkc as [|? ? [Hx _] _].
    by apply rx_filter_text. }
  unfold xdp_run. rewrite Hrx. destruct b as [|b]; [lia|]. cbn [xdp_resume xdp_prog].
  destruct (hash_keys_scan (map_kcache m) [] 4 _ (room ++ hdr ++ bytes "get ") k [] tl false
              (hash_inv_start m Hkw)) as (m' & Hi & Hstep);
    [simpl; lia|done|rewrite app_nil_r; by apply hash_key_loop_end; [|lia]|].
  rewrite app_nil_r in Hstep. rewrite Hstep. unfold hash_keys_next. cbn [scan_done scan_off].
  destruct (bpf_xdp_adjust_head _ _) as [r ctx'] eqn:Ha.
  destruct (Z.eqb_spec r 0) as [->|Hr].
  - apply adjust_head_success in Ha. unfold move_head in Ha. cbn [xdp_head xdp_pkt] in Ha.
    rewrite (proj2 (Z.leb_gt _ (Z.of_nat (length ((room ++ hdr ++ bytes "get ") ++ k))))) in Ha
      by (rewrite !length_app; lia).
    by rewrite andb_false_r in Ha.
  - apply adjust_head_failure in Ha; [|done]. subst ctx'. rewrite xdp_resume_return.
    by do 2 eexists.
Qed.

(** An egress frame whose linear part is shorter than an Ethernet and an IP header gets the
    code XDP_PASS from the traffic-control program, which is the code that drops it there. *)
Lemma short_egress_frame_shot skb m b :
  skb_len skb <= 1353 -> (length (skb_data skb) < 34)%nat ->
  tc_run b skb m = (TC_ACT_SHOT, m).
Proof.
  intros Hn Hl. unfold tc_run, bmc_tx_filter_main.
  rewrite (proj2 (Z.ltb_ge _ _))
    by (change (BMC_MAX_CACHE_DATA_SIZE + UDP_PAYLOAD_OFF)%nat with 1353%nat; lia).
  by rewrite (proj2 (Nat.ltb_lt _ _)) by (unfold ETH_HLEN, IP_HLEN; lia).
Qed.

(** A value with a newline in it is cached cut off: of a reply whose data block is
    [v1], newline, [v2], only the part up to that newline is stored and later served. *)
Theorem newline_in_value_truncates hdr k args v1 v2 rest n m b :
  udp_reply_header hdr -> n <= 1353 -> (0 < b)%nat -> key_ok k ->
  Forall (fun c => c <> LF) k -> Forall (fun c => c <> LF) args -> Forall (fun c => c <> LF) v1 ->
  (length k + length args + length v1 + 10 <= 1303)%nat ->
  cache_wf (map_kcache m) -> predicted (map_kcache m) k = false ->
  let value := v1 ++ LF :: v2 in
  let sent := value_line k args ++ LF :: value ++ CR :: LF :: rest in
  cached_reply (map_kcache (tc_run b (mk_skb n (hdr ++ sent)) m).2) k =
  Some (value_line k args ++ LF :: v1 ++ [LF]).
Proof.
  intros. unfold sent, value. rewrite <- (app_assoc v1). cbn [app].
  by apply cold_reply_cached.
Qed.

(** A reply with fewer than two newlines overwrites the slot's data but leaves its valid
    flag and hash: the slot keeps matching the hash of the key it held before. *)
Theorem incomplete_reply_corrupts_entry skb m h0 :
  let p := skb_payload skb in
  let h := update_hash_loop 0 FNV_OFFSET_BASIS_32 (drop 6 p) in
  let t := take_lines 2 (take 1303 p) in
  let i := cache_idx_of h in
  cache_wf (map_kcache m) -> (count_lf t < 2)%nat -> h <> h0 ->
  entry_matches (kcache_get (map_kcache m) i) h0 = true ->
  let e' := kcache_get (map_kcache (bmc_update_cache_main skb m).2) i in
  entry_matches e' h0 = true /\ take (Z.to_nat (len e')) (data e') = t.
Proof.
  intros p h t i Hwf Hcnt Hne Hm e'. unfold e'. rewrite update_cache_kcache by done. cbn zeta.
  fold p. fold h. fold i. set (e := kcache_get (map_kcache m) i) in *.
  destruct (entry_matches e h) eqn:He;
    [by destruct Hne; apply (entry_matches_unique e)|].
  cbn [andb]. rewrite kcache_get_insert. unfold stored_entry. fold p. fold t. cbn zeta.
  rewrite (proj2 (Nat.eqb_neq _ _)) by lia. split; [done|].
  cbn [len data]. by rewrite Nat2Z.id, take_app_length.
Qed.

(** When the entry of a predicted hit has lost its validity or its hash by the time the
    reply is written, nothing is written for the key, yet a hit is counted. *)
Lemma lost_prediction_counts_hit ctx m :
  let pc := map_parsing_context m in
  let key := keys_get (map_keys m) (current_key pc) in
  xdp_pkt ctx <> [] -> 0 <= current_key pc < 30 ->
  entry_matches (kcache_get (map_kcache m) (cache_idx_of (khash key))) (khash key) = false ->
  exists m', bmc_write_reply_main ctx m = write_reply_next ctx m' 0 /\
    hit_count (map_stats m') = u32 (hit_count (map_stats m) + 1) /\
    miss_count (map_stats m') = miss_count (map_stats m).
Proof.
  intros pc key Hne Hcur Hm. unfold bmc_write_reply_main.
  rewrite (proj2 (Nat.eqb_neq _ _)) by (destruct (xdp_pkt ctx); simpl; [done|lia]).
  rewrite lookup_zero. cbn [negb]. fold pc.
  rewrite (proj2 (map_lookup_spec _ _)) by (unfold BMC_MAX_KEY_IN_PACKET, BMC_MAX_KEY_IN_MULTIGET; lia).
  fold key. rewrite lookup_kcache, Hm. cbn [negb].
  eexists. split; [by destruct ctx|]. done.
Qed.

End Limits.
