(* ===== verification/BmcChecksum.v ===== *)
(** The IP header checksum that [bmc_write_reply_main] stores in a reply. *)
From S2P Require Import Prelude BmcCommon BmcKern.

Definition all_bytes (l : list Z) : Prop := Forall (fun b => 0 <= b < 256) l.

(** RFC 1071: a header is accepted when the one's complement sum of its 16-bit words is all
    ones, that is, when the plain sum is a multiple of 65535 (it is never zero here). *)
Definition ip_header_valid (ip : list Z) : Prop := sum_u16 ip mod 65535 = 0.

(** The header with the computed checksum in its place. *)
Definition with_checksum (ip : list Z) : list Z :=
  let c := compute_ip_checksum ip in write 10 [wrap 8 c; wrap 8 (c / 256)] ip.

(** The sum of the header's words with the checksum field zeroed. *)
Definition header_sum (ip : list Z) : Z := sum_u16 (write 10 [0; 0] ip).

Lemma sum_u16_app2 l1 l2 : Nat.Even (length l1) -> sum_u16 (l1 ++ l2) = sum_u16 l1 + sum_u16 l2.
Proof.
  intros [n Hn]. revert l1 Hn. induction n as [|n IH]; intros l1 Hn.
  - destruct l1; [done|simpl in Hn; lia].
  - destruct l1 as [|a [|b l1]]; simpl in Hn; try lia. cbn [app sum_u16].
    rewrite IH by lia. lia.
Qed.

Lemma sum_u16_bound l : all_bytes l -> 0 <= sum_u16 l <= 65535 * (Z.of_nat (length l) / 2).
Proof.
  remember (length l) as n eqn:Hn. revert l Hn.
  induction n as [n IH] using lt_wf_ind. intros l -> Hb.
  destruct l as [|a [|b l]]; cbn [sum_u16 length]; try (split; [done|apply Z.mul_nonneg_nonneg; [done|apply Z.div_pos; lia]]).
  inversion_clear Hb as [|? ? Ha Hb']. inversion_clear Hb' as [|? ? Hb Hl].
  specialize (IH (length l) ltac:(simpl; lia) l eq_refl Hl).
  replace (Z.of_nat (S (S (length l)))) with (Z.of_nat (length l) + 1 * 2) by lia.
  rewrite Z.div_add by lia. lia.
Qed.

(** Splitting a header around its checksum field. *)
Lemma sum_u16_write10 ip x y :
  length ip = 20%nat ->
  sum_u16 (write 10 [x; y] ip) = sum_u16 (take 10 ip) + (x + 256 * y) + sum_u16 (drop 12 ip).
Proof.
  intros Hl. unfold write. rewrite sum_u16_app2 by (exists 5%nat; rewrite length_take; lia).
  cbn [app sum_u16 length]. replace (10 + 2)%nat with 12%nat by done. lia.
Qed.

Lemma header_sum_range ip :
  length ip = 20%nat -> all_bytes ip -> 0 <= header_sum ip < 2 ^ 20.
Proof.
  intros Hl Hb. unfold header_sum.
  assert (all_bytes (write 10 [0; 0] ip)) as Hw.
  { unfold write. apply Forall_app_2; [by apply Forall_take|].
    apply Forall_app_2; [repeat constructor; lia|by apply Forall_drop]. }
  pose proof (sum_u16_bound _ Hw) as Hs. rewrite length_write in Hs by (simpl; lia).
  rewrite Hl in Hs. change (Z.of_nat 20 / 2) with 10 in Hs. lia.
Qed.

(** The complement of the once-folded sum, in closed form. *)
Lemma compute_ip_checksum_eq ip :
  length ip = 20%nat -> all_bytes ip ->
  let s := header_sum ip in
  compute_ip_checksum ip =
    if s mod 65536 + s / 65536 <? 65536 then 65535 - (s mod 65536 + s / 65536)
    else 131071 - (s mod 65536 + s / 65536).
Proof.
  intros Hl Hb s. pose proof (header_sum_range ip Hl Hb) as Hs. fold s in Hs.
  unfold compute_ip_checksum. fold (header_sum ip). fold s.
  rewrite (wrap_small 32) by lia.
  change 65535 with (Z.ones 16) at 1. rewrite Z.land_ones, Z.shiftr_div_pow2 by lia.
  change (2 ^ 16) with 65536.
  assert (0 <= s mod 65536 < 65536) by (apply Z.mod_pos_bound; lia).
  assert (0 <= s / 65536 < 16) by (split; [apply Z.div_pos; lia|apply Z.div_lt_upper_bound; lia]).
  set (x := s mod 65536 + s / 65536) in *.
  unfold Z.lnot, wrap. change (2 ^ 16) with 65536.
  destruct (Z.ltb_spec x 65536).
  - rewrite <- (Z_mod_plus_full _ 1), Z.mod_small by lia. lia.
  - rewrite <- (Z_mod_plus_full _ 2), Z.mod_small by lia. lia.
Qed.

Lemma bytes_of_u16 c : 0 <= c < 65536 -> wrap 8 c + 256 * wrap 8 (c / 256) = c.
Proof.
  intros Hc. unfold wrap. change (2 ^ 8) with 256.
  rewrite (Z.mod_small (c / 256)) by (split; [apply Z.div_pos; lia|apply Z.div_lt_upper_bound; lia]).
  pose proof (Z_div_mod_eq_full c 256). lia.
Qed.

(** C7: the checksum that goes into a reply is right exactly when folding the carries once is
    enough, that is, when low half plus high half of the sum stays below 65536. *)
Theorem ip_checksum_valid_iff ip :
  length ip = 20%nat -> all_bytes ip ->
  ip_header_valid (with_checksum ip) <->
  header_sum ip mod 65536 + header_sum ip / 65536 < 65536.
Proof.
  intros Hl Hb. unfold ip_header_valid, with_checksum. cbn zeta.
  pose proof (header_sum_range ip Hl Hb) as Hr.
  rewrite sum_u16_write10 by done.
  assert (header_sum ip = sum_u16 (take 10 ip) + sum_u16 (drop 12 ip)) as Hs
    by (unfold header_sum; rewrite sum_u16_write10 by done; lia).
  pose proof (compute_ip_checksum_eq ip Hl Hb) as Hc. cbn zeta in Hc.
  set (s := header_sum ip) in *. set (c := compute_ip_checksum ip) in *.
  pose proof (Z_div_mod_eq_full s 65536) as Hdm.
  assert (0 <= s mod 65536 < 65536) by (apply Z.mod_pos_bound; lia).
  assert (0 <= s / 65536 < 16) by (split; [apply Z.div_pos; lia|apply Z.div_lt_upper_bound; lia]).
  rewrite bytes_of_u16 by (rewrite Hc; case_if; lia).
  replace (sum_u16 (take 10 ip) + c + sum_u16 (drop 12 ip)) with (s + c) by lia.
  destruct (Z.ltb_spec (s mod 65536 + s / 65536) 65536).
  - split; [done|]. intros _. replace (s + c) with ((s / 65536 + 1) * 65535) by lia.
    apply Z_mod_mult.
  - split; [|lia]. intros Hm. exfalso.
    replace (s + c) with (1 + (s / 65536 + 2) * 65535) in Hm by lia.
    rewrite Z_mod_plus_full in Hm. done.
Qed.

(** A header for which one fold is not enough. *)
Definition double_carry_header : list Z :=
  [255; 255; 255; 255; 1; 0] ++ replicate 14 0.

Lemma ip_checksum_valid_iff_witness :
  (length double_carry_header = 20%nat /\ all_bytes double_carry_header) /\
  (ip_header_valid (with_checksum double_carry_header) <->
   header_sum double_carry_header mod 65536 + header_sum double_carry_header / 65536 < 65536).
Proof.
  split; [|apply ip_checksum_valid_iff]; repeat constructor; lia.
Defined.
