(* ===== verification/BmcSystem.v ===== *)
(** Several CPUs running the programs over one shared cache. The per-CPU maps are private, the
    cache is shared, and another CPU may run between a program and the one it tail-calls. *)
From S2P Require Import Prelude BmcCommon BmcKern BmcLoops BmcCache BmcPipeline.

(** What a CPU is in the middle of: a pending XDP or traffic-control tail call. *)
Inductive work :=
  | Idle
  | XdpTail (target : xdp_slot) (ctx : xdp_md) (budget : nat)
  | TcTail (target : tc_slot) (skb : sk_buff).

Record cpu := mk_cpu {
  cpu_keys : gmap Z memcached_key;
  cpu_pctx : parsing_context;
  cpu_stats : bmc_stats;
  cpu_work : work
}.

Record system := mk_system {
  sys_cache : gmap Z bmc_cache_entry;
  sys_cpu : nat -> cpu
}.

(** A frame comes in, a packet goes out, or a pending tail call is taken. *)
Inductive event :=
  | EvRx (ctx : xdp_md)
  | EvTx (skb : sk_buff)
  | EvTail.

(** The maps as CPU [i] sees them, and the system after CPU [i] has run on them. *)
Definition view (s : system) (i : nat) : kmaps :=
  let c := sys_cpu s i in mk_maps (sys_cache s) (cpu_keys c) (cpu_pctx c) (cpu_stats c).

Definition commit (s : system) (i : nat) (m : kmaps) (w : work) : system :=
  mk_system (map_kcache m)
    (fun j => if decide (j = i)
              then mk_cpu (map_keys m) (map_parsing_context m) (map_stats m) w
              else sys_cpu s j).

Definition xdp_work (budget : nat) (o : outcome xdp_slot) (ctx : xdp_md) : work :=
  match o, budget with
  | TailCall t _, S b => XdpTail t ctx b
  | _, _ => Idle
  end.

Definition tc_work (budget : nat) (o : outcome tc_slot) (skb : sk_buff) : work :=
  match o, budget with
  | TailCall t _, S _ => TcTail t skb
  | _, _ => Idle
  end.

Section System.

Context `{HL : BpfHelpersLaws}.
Variable MAX_TAIL_CALLS : nat.

(** One event on CPU [i]; [None] when the CPU cannot take it. *)
Definition exec (i : nat) (ev : event) (s : system) : option system :=
  match ev, cpu_work (sys_cpu s i) with
  | EvRx ctx, Idle =>
      let '(o, ctx', m) := bmc_rx_filter_main ctx (view s i) in
      Some (commit s i m (xdp_work MAX_TAIL_CALLS o ctx'))
  | EvTx skb, Idle =>
      let '(o, m) := bmc_tx_filter_main skb (view s i) in
      Some (commit s i m (tc_work MAX_TAIL_CALLS o skb))
  | EvTail, XdpTail t ctx b =>
      let '(o, ctx', m) := xdp_prog t ctx (view s i) in
      Some (commit s i m (xdp_work b o ctx'))
  | EvTail, TcTail t skb =>
      let '(o, m) := tc_prog t skb (view s i) in Some (commit s i m Idle)
  | _, _ => None
  end.

(** An interleaving: which CPU does what, in order. *)
Fixpoint run (tr : list (nat * event)) (s : system) : option system :=
  match tr with
  | [] => Some s
  | (i, ev) :: tr' => match exec i ev s with Some s' => run tr' s' | None => None end
  end.

(** ** Invariants *)

Definition pctx_wf (pc : parsing_context) : Prop :=
  0 <= key_count pc <= BMC_MAX_KEY_IN_PACKET /\ 0 <= current_key pc <= BMC_MAX_KEY_IN_PACKET /\
  0 <= read_pkt_offset pc < 65536 /\ 0 <= write_pkt_offset pc < 65536.

Definition maps_wf (m : kmaps) : Prop :=
  cache_wf (map_kcache m) /\ keys_wf (map_keys m) /\ pctx_wf (map_parsing_context m).

Definition sys_wf (s : system) : Prop := forall i, maps_wf (view s i).

Lemma length_copy_key_loop p : forall i n d, length (copy_key_loop i n p d) = length d.
Proof.
  induction p as [|c p IH]; intros i n d; simpl; [done|].
  destruct (_ <? _); [|done]. by rewrite IH, length_insert.
Qed.

Lemma rx_filter_wf ctx m : maps_wf m -> maps_wf (bmc_rx_filter_main ctx m).2.
Proof.
  intros Hm. pose proof Hm as (Hc & Hk & Hkc & Hcu & Hr & Hw).
  unfold bmc_rx_filter_main. rewrite lookup_zero. cbn [negb].
  destruct (_ <? _)%nat; [done|]. destruct (rx_transport _) as [[dport off]|]; [|done].
  destruct (_ && _); [|done]. destruct (_ && _); [|by destruct (_ =? _)].
  destruct (_ <? _)%nat.
  - destruct (bpf_xdp_adjust_head _ _) as [r c']. destruct (r =? 0);
      (split; [done|split; [done|]]; repeat split; cbn;
       unfold BMC_MAX_KEY_IN_PACKET, BMC_MAX_KEY_IN_MULTIGET; try lia; apply u16_range).
  - split; [done|split; [done|]]; repeat split; cbn;
      unfold BMC_MAX_KEY_IN_PACKET, BMC_MAX_KEY_IN_MULTIGET; lia.
Qed.

Lemma hash_keys_next_wf ctx m s : maps_wf m -> maps_wf (hash_keys_next ctx m s).2.
Proof.
  intros Hm. unfold hash_keys_next. destruct (scan_done s).
  - destruct (bpf_xdp_adjust_head _ _) as [r c']. by destruct (_ <? _).
  - destruct (bpf_xdp_adjust_head _ _) as [r c']. destruct Hm as (Hc & Hk & Hkc & Hcu & Hr & Hw).
    destruct (r =? 0); (split; [done|split; [done|]]; repeat split; cbn; try lia; apply u16_range).
Qed.

Lemma hash_keys_wf ctx m : maps_wf m -> maps_wf (bmc_hash_keys_main ctx m).2.
Proof.
  intros Hm. pose proof Hm as (Hc & Hk & Hkc & Hcu & Hr & Hw).
  unfold bmc_hash_keys_main. rewrite lookup_zero. cbn [negb].
  destruct (_ =? 0)%nat; [done|]. destruct (map_lookup_ok _ (key_count _)) eqn:Hl; [|done].
  apply map_lookup_spec in Hl. cbn [negb].
  set (s := hash_key_loop _ _ _ _). rewrite lookup_kcache. cbn [negb].
  set (pc := map_parsing_context m) in *. set (key := keys_get _ _).
  assert (forall h, keys_wf (<[key_count pc := mk_key h (kdata key) (klen key)]> (map_keys m)))
    as Hk1 by (intros; apply keys_wf_insert; [done|apply Hk]).
  assert (pctx_wf pc) as Hp by (by destruct Hm as (_ & _ & ?)).
  destruct (_ || _); [destruct (bpf_xdp_adjust_head _ _) as [r c']; split; [done|split; [apply Hk1|done]]|].
  destruct (entry_matches _ _); apply hash_keys_next_wf; (split; [done|]); cbn.
  - split.
    + apply keys_wf_insert; [apply Hk1|]. cbn. rewrite length_copy_key_loop. apply Hk.
    + unfold pctx_wf, BMC_MAX_KEY_IN_PACKET, BMC_MAX_KEY_IN_MULTIGET in *. cbn.
      rewrite wrap_small; lia.
  - split; [apply Hk1|done].
Qed.

Lemma prepare_packet_maps ctx m : (bmc_prepare_packet_main ctx m).2 = m.
Proof.
  unfold bmc_prepare_packet_main. destruct (bpf_xdp_adjust_head _ _) as [r c1].
  destruct (negb _); [done|]. destruct (_ || _); [done|].
  destruct (bpf_xdp_adjust_head _ _) as [r2 c3]. by destruct (negb _).
Qed.

Lemma send_reply_maps ctx m n : (send_reply ctx m n).2 = m.
Proof.
  unfold send_reply. destruct (_ <=? _)%nat; [|done].
  destruct (bpf_xdp_adjust_head _ _) as [r c]. destruct (negb _); [done|].
  destruct (_ <? _)%nat; [done|]. by destruct (bpf_xdp_adjust_tail _ _).
Qed.

Lemma write_reply_next_wf ctx m n : maps_wf m -> maps_wf (write_reply_next ctx m n).2.
Proof.
  intros Hm. unfold write_reply_next. destruct (_ && _); [by rewrite send_reply_maps|].
  destruct (_ =? _); [by destruct (bpf_xdp_adjust_head _ _)|].
  destruct (_ <? _); [|done]. destruct (bpf_xdp_adjust_head _ _) as [r c].
  destruct Hm as (Hc & Hk & Hkc & Hcu & Hr & Hw).
  destruct (negb _); (split; [done|split; [done|]]; repeat split; cbn; try lia; apply u16_range).
Qed.

Lemma write_reply_wf ctx m : maps_wf m -> maps_wf (bmc_write_reply_main ctx m).2.
Proof.
  intros Hm. pose proof Hm as (Hc & Hk & Hkc & Hcu & Hr & Hw).
  unfold bmc_write_reply_main. rewrite lookup_zero. cbn [negb].
  destruct (_ =? 0)%nat; [done|]. destruct (map_lookup_ok _ (current_key _)) eqn:Hl; [|done].
  apply map_lookup_spec in Hl. cbn [negb]. rewrite lookup_kcache. cbn [negb].
  set (body := if entry_matches _ _ then _ else _). destruct body as [[hit w] p'].
  apply write_reply_next_wf. split; [done|split; [done|]]. repeat split; cbn; try lia;
    unfold BMC_MAX_KEY_IN_PACKET, BMC_MAX_KEY_IN_MULTIGET in *; rewrite wrap_small; lia.
Qed.

Lemma invalidate_wf ctx m : maps_wf m -> maps_wf (bmc_invalidate_cache_main ctx m).2.
Proof.
  intros Hm. unfold bmc_invalidate_cache_main. rewrite lookup_zero.
  destruct (_ <=? _)%nat; [done|]. cbn [negb snd].
  apply (invalidate_loop_ind maps_wf) with (n := length (drop TCP_PAYLOAD_OFF (xdp_pkt ctx)));
    [by intros ? ? (? & ? & ?)| |done|done].
  intros m' h (Hc & Hk & Hp). split; [by apply invalidate_entry_wf|].
  unfold invalidate_entry. by destruct (negb _).
Qed.

Lemma xdp_prog_wf t ctx m : maps_wf m -> maps_wf (xdp_prog t ctx m).2.
Proof.
  intros Hm. destruct t; cbn [xdp_prog].
  - by apply hash_keys_wf.
  - by rewrite prepare_packet_maps.
  - by apply write_reply_wf.
  - by apply invalidate_wf.
Qed.

Lemma tx_filter_maps skb m :
  map_kcache (bmc_tx_filter_main skb m).2 = map_kcache m /\
  map_keys (bmc_tx_filter_main skb m).2 = map_keys m /\
  map_parsing_context (bmc_tx_filter_main skb m).2 = map_parsing_context m.
Proof. unfold bmc_tx_filter_main. by repeat case_if. Qed.

Lemma update_cache_pctx skb m :
  map_parsing_context (bmc_update_cache_main skb m).2 = map_parsing_context m.
Proof.
  unfold bmc_update_cache_main. cbn zeta. rewrite lookup_kcache, lookup_zero. cbn [negb].
  destruct (_ && _); [done|]. destruct (store_loop _ _ _ _ _) as [[? ?] ?].
  by destruct (_ =? _).
Qed.

Lemma tc_progs_wf skb m :
  maps_wf m -> maps_wf (bmc_tx_filter_main skb m).2 /\ maps_wf (bmc_update_cache_main skb m).2.
Proof.
  intros (Hc & Hk & Hp). split.
  - destruct (tx_filter_maps skb m) as (H1 & H2 & H3). unfold maps_wf. by rewrite H1, H2, H3.
  - unfold maps_wf. rewrite update_cache_keys, update_cache_pctx. auto using update_cache_wf.
Qed.

Lemma commit_wf s i m w : sys_wf s -> maps_wf m -> sys_wf (commit s i m w).
Proof.
  intros Hs (Hc & Hk & Hp) j. unfold view, commit. cbn.
  destruct (decide (j = i)); (split; [done|]); cbn; [done|]. apply (Hs j).
Qed.

Lemma exec_wf i ev s s' : exec i ev s = Some s' -> sys_wf s -> sys_wf s'.
Proof.
  intros He Hs. unfold exec in He.
  pose proof (Hs i) as Hi.
  destruct ev as [ctx|skb|], (cpu_work (sys_cpu s i)) as [|t ctx' b|t skb']; try done.
  - pose proof (rx_filter_wf ctx _ Hi) as Hm.
    destruct (bmc_rx_filter_main _ _) as [[o c'] m]. injection He as <-. by apply commit_wf.
  - pose proof (proj1 (tc_progs_wf skb _ Hi)) as Hm.
    destruct (bmc_tx_filter_main _ _) as [o m]. injection He as <-. by apply commit_wf.
  - pose proof (xdp_prog_wf t ctx' _ Hi) as Hm.
    destruct (xdp_prog _ _ _) as [[o c'] m]. injection He as <-. by apply commit_wf.
  - pose proof (proj2 (tc_progs_wf skb' _ Hi)) as Hm. destruct t. cbn [tc_prog] in He.
    destruct (bmc_update_cache_main _ _) as [o m]. injection He as <-. by apply commit_wf.
Qed.

(** C5: in every interleaving of the programs on any number of CPUs, cache entries stay within
    their array, key slots keep their size, and the parsing context stays within the packet
    limits; so every later program finds its indices in bounds. *)
Theorem run_preserves_wf tr s s' : run tr s = Some s' -> sys_wf s -> sys_wf s'.
Proof.
  revert s. induction tr as [|[i ev] tr IH]; intros s Hr Hs; cbn [run] in Hr; [by injection Hr as <-|].
  destruct (exec i ev s) as [s1|] eqn:He; [|done]. eauto using exec_wf.
Qed.

(** ** Invalidation under interleaving *)

(** A slot whose entry is not valid answers no key. *)
Definition slot_dead (c : gmap Z bmc_cache_entry) (i : Z) : Prop := valid (kcache_get c i) = 0.

(** The slot an egress packet would update. *)
Definition updated_slot (skb : sk_buff) : Z :=
  cache_idx_of (update_hash_loop 0 FNV_OFFSET_BASIS_32 (drop 6 (skb_payload skb))).

(** No reply for slot [i] is on its way into the cache. *)
Definition no_update_pending (s : system) (i : Z) : Prop :=
  forall j t skb, cpu_work (sys_cpu s j) = TcTail t skb -> updated_slot skb <> i.

Lemma only_clears_dead c c' i : only_clears c c' -> slot_dead c i -> slot_dead c' i.
Proof. intros Hc Hd. unfold slot_dead. by destruct (Hc i) as [-> | ->]. Qed.

Lemma xdp_prog_clears t ctx m : only_clears (map_kcache m) (map_kcache (xdp_prog t ctx m).2).
Proof.
  destruct t; cbn [xdp_prog].
  - replace (map_kcache (bmc_hash_keys_main ctx m).2) with (map_kcache m); [reflexivity|].
    unfold bmc_hash_keys_main, hash_keys_next. cbn zeta.
    repeat first [ done | case_if | destruct (bpf_xdp_adjust_head _ _) ].
  - by rewrite prepare_packet_maps.
  - replace (map_kcache (bmc_write_reply_main ctx m).2) with (map_kcache m); [reflexivity|].
    unfold bmc_write_reply_main. cbn zeta. rewrite lookup_zero. cbn [negb].
    destruct (_ =? 0)%nat; [done|]. destruct (negb _); [done|]. destruct (negb _); [done|].
    set (body := if entry_matches _ _ then _ else _). destruct body as [[hit w] p'].
    unfold write_reply_next.
    destruct (_ && _); [by rewrite send_reply_maps|].
    repeat first [ done | case_if | destruct (bpf_xdp_adjust_head _ _) ].
  - unfold bmc_invalidate_cache_main.
    repeat case_if; try reflexivity. apply invalidate_loop_clears.
Qed.

Lemma rx_filter_kcache ctx m : map_kcache (bmc_rx_filter_main ctx m).2 = map_kcache m.
Proof.
  unfold bmc_rx_filter_main. cbn zeta. destruct (_ <? _)%nat; [done|].
  destruct (rx_transport _) as [[dport off]|]; [|done].
  repeat first [ done | case_if | destruct (bpf_xdp_adjust_head _ _) ].
Qed.

Lemma update_cache_other skb m i :
  cache_wf (map_kcache m) -> updated_slot skb <> i ->
  slot_dead (map_kcache m) i -> slot_dead (map_kcache (bmc_update_cache_main skb m).2) i.
Proof.
  intros Hwf Hi Hd. unfold slot_dead. rewrite update_cache_kcache by done. cbn zeta.
  destruct (_ && _); [done|]. by rewrite kcache_get_insert_ne.
Qed.

Lemma exec_dead j ev s s' i :
  exec j ev s = Some s' -> sys_wf s -> no_update_pending s i ->
  (forall skb, ev = EvTx skb -> updated_slot skb <> i) ->
  slot_dead (sys_cache s) i -> slot_dead (sys_cache s') i /\ no_update_pending s' i.
Proof.
  intros He Hs Hn Hev Hd. unfold exec in He.
  assert (forall m w, slot_dead (map_kcache m) i ->
            (forall t skb, w = TcTail t skb -> updated_slot skb <> i) ->
            slot_dead (sys_cache (commit s j m w)) i /\ no_update_pending (commit s j m w) i)
    as Hcommit.
  { intros m w Hm Hw. split; [done|]. intros k t skb. cbn.
    destruct (decide (k = j)); [apply Hw|apply Hn]. }
  destruct ev as [ctx|skb|], (cpu_work (sys_cpu s j)) as [|t ctx' b|t skb'] eqn:Hw; try done.
  - pose proof (rx_filter_kcache ctx (view s j)) as Hk.
    destruct (bmc_rx_filter_main _ _) as [[o c'] m]. injection He as <-.
    apply Hcommit; [cbn in Hk; by rewrite Hk|]. by destruct o, MAX_TAIL_CALLS.
  - pose proof (proj1 (tx_filter_maps skb (view s j))) as Hk.
    destruct (bmc_tx_filter_main _ _) as [o m]. injection He as <-.
    apply Hcommit; [cbn in Hk; by rewrite Hk|].
    intros t skb'. destruct o, MAX_TAIL_CALLS; try done. intros Hx. injection Hx. intros; subst. by apply Hev.
  - pose proof (xdp_prog_clears t ctx' (view s j)) as Hk.
    destruct (xdp_prog _ _ _) as [[o c'] m]. injection He as <-.
    apply Hcommit; [by eapply only_clears_dead|]. by destruct o, b.
  - destruct t. cbn [tc_prog] in He.
    pose proof (update_cache_other skb' (view s j) i (proj1 (Hs j)) (Hn _ _ _ Hw) Hd) as Hk.
    destruct (bmc_update_cache_main _ _) as [o m]. injection He as <-. by apply Hcommit.
Qed.

(** C4: once the slot of [k] has been invalidated, no interleaving of the programs on any
    number of CPUs brings a reply for [k] back unless a reply for that slot leaves the host:
    until then the cache holds nothing for [k]. *)
Theorem no_reply_after_invalidation tr s s' k :
  let i := cache_idx_of (key_hash k) in
  run tr s = Some s' -> sys_wf s -> slot_dead (sys_cache s) i -> no_update_pending s i ->
  Forall (fun '(_, ev) => forall skb, ev = EvTx skb -> updated_slot skb <> i) tr ->
  cached_reply (sys_cache s') k = None.
Proof.
  intros i. revert s. induction tr as [|[j ev] tr IH]; intros s Hr Hs Hd Hn Htr; cbn [run] in Hr.
  - injection Hr as <-. unfold cached_reply, entry_matches. fold i. by rewrite Hd.
  - destruct (exec j ev s) as [s1|] eqn:He; [|done].
    inversion_clear Htr as [|? ? Hev Htr'].
    destruct (exec_dead j ev s s1 i He Hs Hn Hev Hd) as [Hd1 Hn1].
    eauto using exec_wf.
Qed.

End System.
