(* ===== verification/BmcExamples.v ===== *)
(** Concrete packets through the programs, under the concrete kernel [plain_helpers]: two
    executions that show a wrong outcome, and an instance of each general theorem about the
    kernel programs. *)
From S2P Require Import Prelude BmcCommon BmcKern BmcLoops BmcCache BmcPipeline BmcCoherence.
From S2P Require Import BmcLimits BmcSystem.

#[local] Existing Instance plain_helpers.
#[local] Existing Instance plain_helpers_laws.
#[local] Existing Instance plain_helpers_room.

(** ** Frames *)

(** Ethernet and IPv4 headers, 34 bytes. *)
Definition eth_ip (proto : Z) : list Z :=
  replicate 6 1 ++ replicate 6 2 ++ [8; 0] ++
  [69; 0; 0; 0; 0; 0; 0; 0; 64; proto; 0; 0] ++ [10; 0; 0; 1] ++ [10; 0; 0; 2].

Definition ports (sport dport : Z) : list Z :=
  [sport / 256; sport mod 256; dport / 256; dport mod 256].

(** Headers of a UDP datagram with its memcached frame header, and of a TCP segment. *)
Definition udp_hdr (sport dport : Z) : list Z :=
  eth_ip 17 ++ ports sport dport ++ [0; 0; 0; 0] ++ [0; 7; 0; 0; 0; 1; 0; 0].
Definition tcp_hdr : list Z := eth_ip 6 ++ ports 5000 11211 ++ replicate 16 0.

Definition headroom : list Z := replicate 256 0.
Definition empty_maps : kmaps := mk_maps ∅ ∅ (mk_pctx 0 0 0 0) zero_stats.

(** The reply the server sends for a key, as an egress packet. *)
Definition crlf : list Z := [CR; LF].
Definition server_reply (key value : string) : list Z :=
  value_line (bytes key) (bytes "0 5") ++ LF :: (bytes value ++ [CR]) ++ LF :: bytes "END" ++ crlf.
Definition reply_skb (key value : string) : sk_buff :=
  mk_skb 200 (udp_hdr 11211 5000 ++ server_reply key value).

Definition get_packet (key : string) : xdp_md :=
  get_frame headroom (udp_hdr 5000 11211) [bytes key] [LF] [].
Definition tcp_packet (payload : list Z) : xdp_md := mk_xdp headroom (tcp_hdr ++ payload) [].

(** Maps after the server has answered a GET of [key] with [value]. *)
Definition after_reply (key value : string) (m : kmaps) : kmaps := (tc_run 33 (reply_skb key value) m).2.

(** ** Executions with a wrong outcome *)

(** The reply writer compares only as many bytes as the requested key has. A GET of
    "session:000001" is answered with the cached reply of the longer key
    "session:000001lmqceie", which has the same 32-bit hash, although the cache holds no reply
    for the key that was asked for. *)
Theorem prefix_key_served :
  let m := after_reply "session:000001lmqceie" "alice" empty_maps in
  let '(code, ctx, _) := xdp_run 33 (get_packet "session:000001") m in
  code = XDP_TX /\
  drop 50 (xdp_pkt ctx) = server_reply "session:000001lmqceie" "alice".
Proof. vm_compute. split; reflexivity. Qed.

(** Two SET commands in one segment, the first storing the value "set". *)
Definition pipelined_sets : list Z :=
  bytes "set a 0 0 3" ++ crlf ++ bytes "set" ++ crlf ++
  bytes "set session:000002 0 0 5" ++ crlf ++ bytes "newer" ++ crlf.

(** The scan for SET commands is thrown off by a value that ends in "set": of two
    pipelined SET commands the second is not seen, and the stale reply for its key is served
    to the next GET. *)
Theorem pipelined_set_missed :
  let m := after_reply "session:000002" "older" empty_maps in
  let '(code1, _, m1) := xdp_run 33 (tcp_packet pipelined_sets) m in
  let '(code2, ctx, _) := xdp_run 33 (get_packet "session:000002") m1 in
  code1 = XDP_PASS /\ code2 = XDP_TX /\
  drop 50 (xdp_pkt ctx) = server_reply "session:000002" "older".
Proof. vm_compute. repeat split; reflexivity. Qed.

(** ** Instances of the general theorems *)

Ltac bytes_ok := repeat constructor; (discriminate || lia).

Lemma empty_wf : cache_wf (map_kcache empty_maps) /\ keys_wf (map_keys empty_maps).
Proof. split; [intros i e Hi; done|intros i; reflexivity]. Qed.

Lemma after_reply_wf key value :
  let m := after_reply key value empty_maps in
  cache_wf (map_kcache m) /\ keys_wf (map_keys m).
Proof. apply tc_run_wf; apply empty_wf. Qed.

Lemma udp_hdr_request : udp_request_header (udp_hdr 5000 11211).
Proof. repeat split; reflexivity. Qed.

Lemma udp_hdr_reply : udp_reply_header (udp_hdr 11211 5000).
Proof. repeat split; reflexivity. Qed.

Lemma tcp_hdr_request : tcp_request_header tcp_hdr.
Proof. repeat split; reflexivity. Qed.

Definition key1 : list Z := bytes "session:000002".
Definition key2 : list Z := bytes "session:000003".

Lemma key1_ok : key_ok key1.
Proof. split; [bytes_ok|]. vm_compute. lia. Qed.

Lemma key2_ok : key_ok key2.
Proof. split; [bytes_ok|]. vm_compute. lia. Qed.



(** Whether "set" occurs in a text. *)
Fixpoint occurs_set (p : list Z) : bool :=
  match p with
  | [] => false
  | c :: p' => bool_decide (take 3 p = bytes "set") || occurs_set p'
  end.

Lemma occurs_set_spec p : occurs_set p = false -> forall x y, p <> x ++ bytes "set" ++ y.
Proof.
  intros Hp x y ->. induction x as [|c x IH].
  - done.
  - cbn [app occurs_set] in Hp. apply orb_false_iff in Hp as [_ Hp]. auto.
Qed.

Lemma other_commands_keep_cache_witness :
  let ctx := mk_xdp headroom (tcp_hdr ++ bytes "delete session:000002" ++ crlf) [] in
  xdp_run 33 ctx (after_reply "session:000002" "older" empty_maps) =
  (XDP_PASS, ctx, after_reply "session:000002" "older" empty_maps).
Proof.
  apply other_commands_keep_cache.
  - apply tcp_hdr_request.
  - vm_compute; lia.
  - lia.
  - apply occurs_set_spec. vm_compute. reflexivity.
Defined.


(** A value of 400 bytes does not fit the reply to a short request. *)
Definition big_reply_skb : sk_buff :=
  mk_skb 600 (udp_hdr 11211 5000 ++ value_line key1 (bytes "0 400") ++
              LF :: replicate 400 97 ++ crlf ++ bytes "END" ++ crlf).

Lemma oversized_reply_drops_witness :
  exists ctx' m',
    xdp_run 33 (get_frame headroom (udp_hdr 5000 11211) [key1] [LF] [])
      (tc_run 33 big_reply_skb empty_maps).2 = (XDP_DROP, ctx', m').
Proof.
  apply oversized_reply_drops; try apply udp_hdr_request; try apply key1_ok;
    try (apply tc_run_wf; apply empty_wf); vm_compute; lia.
Defined.

(** Keys "session:000100" and so on: 17 of them need 35 tail calls. *)
Definition numbered_key (n : nat) : list Z :=
  bytes "session:0001" ++ [48 + Z.of_nat (n / 10); 48 + Z.of_nat (n mod 10)].

Definition cache_key (m : kmaps) (k : list Z) : kmaps :=
  (tc_run 33 (mk_skb 100 (udp_hdr 11211 5000 ++ value_line k (bytes "0 0") ++ LF :: CR :: LF :: [])) m).2.

Lemma cache_key_wf ks :
  let m := fold_left cache_key ks empty_maps in cache_wf (map_kcache m) /\ keys_wf (map_keys m).
Proof.
  cbn zeta. generalize empty_wf. generalize empty_maps.
  induction ks as [|k ks IH]; intros m Hm; [done|]. cbn. apply IH, tc_run_wf; apply Hm.
Qed.

(** Decision procedures for the side conditions on key lists. *)
Definition key_okb (k : list Z) : bool :=
  forallb (fun c => negb (c =? SPACE) && negb (c =? CR)) k &&
  (1 <=? length k)%nat && (length k <=? 250)%nat.

Lemma key_okb_spec k : key_okb k = true -> key_ok k.
Proof.
  unfold key_okb. intros Hb. zbool. split; [|lia].
  apply Forall_forall. intros c Hc. apply list_elem_of_In in Hc.
  rewrite forallb_forall in H. specialize (H c Hc). zbool. done.
Qed.

Lemma forallb_Forall {A} (f : A -> bool) (P : A -> Prop) l :
  (forall x, f x = true -> P x) -> forallb f l = true -> Forall P l.
Proof.
  intros Hf Hl. apply Forall_forall. intros x Hx%list_elem_of_In.
  rewrite forallb_forall in Hl. auto.
Qed.

Definition seventeen_keys : list (list Z) := numbered_key <$> seq 0 17.
Definition thirty_keys : list (list Z) := numbered_key <$> seq 0 30.

Lemma tail_call_budget_drops_witness :
  exists ctx' m',
    xdp_run 33 (get_frame headroom (udp_hdr 5000 11211) seventeen_keys (replicate 200 0) [])
      (fold_left cache_key seventeen_keys empty_maps) = (XDP_DROP, ctx', m').
Proof.
  apply tail_call_budget_drops.
  - apply udp_hdr_request.
  - vm_compute; lia.
  - discriminate.
  - vm_compute; lia.
  - apply (forallb_Forall key_okb); [exact key_okb_spec|vm_compute; reflexivity].
  - intros k Hk. vm_compute in Hk. injection Hk as <-. vm_compute. lia.
  - vm_compute; reflexivity.
  - apply cache_key_wf.
  - apply cache_key_wf.
  - vm_compute; lia.
  - apply (forallb_Forall (predicted (map_kcache (fold_left cache_key seventeen_keys empty_maps))));
      [done|vm_compute; reflexivity].
  - vm_compute; lia.
Defined.

Lemma thirty_first_key_loses_headers_witness :
  exists ctx' m',
    xdp_run 33 (get_frame headroom (udp_hdr 5000 11211) (thirty_keys ++ [key1]) [LF] [])
      (fold_left cache_key thirty_keys empty_maps) = (XDP_PASS, ctx', m') /\
    xdp_pkt ctx' = key1 ++ CR :: [LF].
Proof.
  apply thirty_first_key_loses_headers.
  - apply udp_hdr_request.
  - reflexivity.
  - apply (forallb_Forall key_okb); [exact key_okb_spec|vm_compute; reflexivity].
  - apply key1_ok.
  - vm_compute; lia.
  - vm_compute; reflexivity.
  - apply cache_key_wf.
  - apply (forallb_Forall (predicted (map_kcache (fold_left cache_key thirty_keys empty_maps))));
      [done|vm_compute; reflexivity].
  - lia.
Defined.

Lemma unterminated_get_loses_headers_witness :
  exists ctx' m',
    xdp_run 33 (mk_xdp headroom (udp_hdr 5000 11211 ++ bytes "get " ++ key1) []) empty_maps =
      (XDP_PASS, ctx', m') /\
    xdp_pkt ctx' = key1.
Proof.
  apply unterminated_get_loses_headers.
  - apply udp_hdr_request.
  - apply key1_ok.
  - vm_compute; lia.
  - apply empty_wf.
  - lia.
Defined.

(** An 802.1X start frame is 18 bytes long. *)
Lemma short_egress_frame_shot_witness :
  tc_run 33 (mk_skb 18 (replicate 12 1 ++ [136; 142; 1; 1; 0; 0])) empty_maps =
  (TC_ACT_SHOT, empty_maps).
Proof. apply short_egress_frame_shot; vm_compute; lia || discriminate. Defined.

Lemma newline_in_value_truncates_witness :
  cached_reply (map_kcache (tc_run 33 (mk_skb 200 (udp_hdr 11211 5000 ++
    value_line key1 (bytes "0 3") ++ LF :: (bytes "a" ++ LF :: bytes "b") ++ CR :: LF :: [])) empty_maps).2) key1 =
  Some (value_line key1 (bytes "0 3") ++ LF :: bytes "a" ++ [LF]).
Proof.
  apply newline_in_value_truncates; try apply empty_wf; try apply key1_ok;
    try apply udp_hdr_reply; try bytes_ok; vm_compute; lia || reflexivity.
Defined.

(** Two keys of one slot with different hashes; the second key's reply is cut short. *)
Definition cut_skb : sk_buff :=
  mk_skb 100 (udp_hdr 11211 5000 ++ bytes "VALUE session:006070 0 9" ++ crlf ++ bytes "abc").

Lemma incomplete_reply_corrupts_entry_witness :
  let m := after_reply "session:000348" "alice" empty_maps in
  let h0 := key_hash (bytes "session:000348") in
  let i := cache_idx_of (update_hash_loop 0 FNV_OFFSET_BASIS_32 (drop 6 (skb_payload cut_skb))) in
  let e' := kcache_get (map_kcache (bmc_update_cache_main cut_skb m).2) i in
  entry_matches e' h0 = true /\
  take (Z.to_nat (len e')) (data e') = take_lines 2 (take 1303 (skb_payload cut_skb)).
Proof.
  apply incomplete_reply_corrupts_entry; [apply after_reply_wf|..]; vm_compute;
    lia || reflexivity || discriminate.
Defined.

Lemma lost_prediction_counts_hit_witness :
  exists m', bmc_write_reply_main (get_packet "session:000002") empty_maps =
             write_reply_next (get_packet "session:000002") m' 0 /\
    hit_count (map_stats m') = u32 (hit_count (map_stats empty_maps) + 1) /\
    miss_count (map_stats m') = miss_count (map_stats empty_maps).
Proof. apply lost_prediction_counts_hit; vm_compute; (split; congruence) || reflexivity || discriminate. Defined.

(** Two CPUs, idle, over an empty cache. *)
Definition boot : system := mk_system ∅ (fun _ => mk_cpu ∅ (mk_pctx 0 0 0 0) zero_stats Idle).

Lemma boot_wf : sys_wf boot.
Proof.
  intros i. split; [apply empty_wf|]. split; [apply empty_wf|].
  unfold pctx_wf, BMC_MAX_KEY_IN_PACKET, BMC_MAX_KEY_IN_MULTIGET. cbn. lia.
Qed.

(** CPU 0 sends a reply while CPU 1 receives a GET for the same key. *)
Definition two_cpu_trace : list (nat * event) :=
  [ (0%nat, EvTx (reply_skb "session:000002" "alice"));
    (1%nat, EvRx (get_packet "session:000002"));
    (0%nat, EvTail); (1%nat, EvTail); (1%nat, EvTail); (1%nat, EvTail) ].

Lemma run_preserves_wf_witness : sys_wf (default boot (run 33 two_cpu_trace boot)).
Proof. apply (run_preserves_wf 33 two_cpu_trace boot); [vm_compute; reflexivity|apply boot_wf]. Defined.

(** Replies for other slots come and go; the invalidated key stays unanswered. *)
Definition other_slot_trace : list (nat * event) :=
  [ (0%nat, EvTx (reply_skb "session:000003" "alice")); (0%nat, EvTail);
    (1%nat, EvRx (get_packet "session:000002")); (1%nat, EvTail) ].

Lemma no_reply_after_invalidation_witness :
  cached_reply (sys_cache (default boot (run 33 other_slot_trace boot))) key1 = None.
Proof.
  apply (no_reply_after_invalidation 33 other_slot_trace boot).
  - vm_compute; reflexivity.
  - apply boot_wf.
  - reflexivity.
  - intros j t skb Hw. discriminate Hw.
  - repeat constructor; intros skb Hev; try discriminate Hev. injection Hev as <-.
    vm_compute. discriminate.
Defined.
