(* ===== verification/BmcUser.v ===== *)
(** The loader, bmc/bmc_user.c: statistics, option checks, program registration and the signal
    loop. System calls and libbpf are parameters; what the loader asks of them is recorded as
    a list of effects, in order. *)
From S2P Require Import Prelude BmcCommon.

(** ** Statistics *)

(** One CPU's counters added to the aggregate, each wrapping at 32 bits. *)
Definition add_stats (a s : bmc_stats) : bmc_stats :=
  mk_stats (u32 (get_recv_count a + get_recv_count s))
    (u32 (set_recv_count a + set_recv_count s))
    (u32 (get_resp_count a + get_resp_count s))
    (u32 (hit_misprediction a + hit_misprediction s))
    (u32 (hit_count a + hit_count s))
    (u32 (miss_count a + miss_count s))
    (u32 (update_count a + update_count s))
    (u32 (invalidation_count a + invalidation_count s)).

(** The loop over [stats[0 .. nr_cpus - 1]]. *)
Definition aggregate_stats (stats : list bmc_stats) : bmc_stats :=
  fold_left add_stats stats zero_stats.

(** The labelled lines of [write_stats_to_file]; [None] when the file cannot be opened. *)
Definition write_stats_to_file (fopen_ok : bool) (stats : list bmc_stats)
    : option (list (string * Z)) :=
  let a := aggregate_stats stats in
  if fopen_ok then
    Some [ ("get_recv_count"%string, get_recv_count a);
           ("set_recv_count"%string, set_recv_count a);
           ("get_resp_count"%string, get_resp_count a);
           ("get_key_count"%string, hit_misprediction a);
           ("hit_count"%string, hit_count a);
           ("miss_count"%string, miss_count a);
           ("update_count"%string, update_count a);
           ("invalidation_count"%string, invalidation_count a) ]
  else None.

(** The comma-separated numbers of [write_stat_line]; the clock is a parameter. *)
Definition write_stat_line (now : Z) (stats : list bmc_stats) : list Z :=
  let a := aggregate_stats stats in
  [ now; get_recv_count a; set_recv_count a; get_resp_count a; hit_misprediction a;
    hit_count a; miss_count a; update_count a; invalidation_count a ].

(** ** Options *)

Inductive opt_error :=
  | NegativeCount
  | NegativeInterval
  | CountWithoutInterval
  | IntervalWithoutCount
  | MissingInterface.

(** The checks after option parsing: count, interval and number of interfaces. *)
Definition check_options (stats_poll_count stats_poll_interval interface_count : Z)
    : option opt_error :=
  if stats_poll_count <? 0 then Some NegativeCount
  else if stats_poll_interval <? 0 then Some NegativeInterval
  else if (0 <? stats_poll_count) && (stats_poll_interval =? 0) then Some CountWithoutInterval
  else if (0 <? stats_poll_interval) && (stats_poll_count =? 0) then Some IntervalWithoutCount
  else if interface_count <=? 0 then Some MissingInterface
  else None.

(** ** Program registration *)

Inductive prog_type := BPF_PROG_TYPE_XDP | BPF_PROG_TYPE_SCHED_CLS.

Record bpf_progs_desc := mk_desc {
  desc_name : string;
  desc_type : prog_type;
  desc_pin : bool;
  map_prog_idx : Z
}.

Definition progs : list bpf_progs_desc :=
  [ mk_desc "bmc_rx_filter" BPF_PROG_TYPE_XDP false (-1);
    mk_desc "bmc_hash_keys" BPF_PROG_TYPE_XDP false 0;
    mk_desc "bmc_prepare_packet" BPF_PROG_TYPE_XDP false 1;
    mk_desc "bmc_write_reply" BPF_PROG_TYPE_XDP false 2;
    mk_desc "bmc_invalidate_cache" BPF_PROG_TYPE_XDP false 3;
    mk_desc "bmc_tx_filter" BPF_PROG_TYPE_SCHED_CLS true (-1);
    mk_desc "bmc_update_cache" BPF_PROG_TYPE_SCHED_CLS false 0 ].

(** Answer of one pinning attempt. *)
Inductive pin_answer := PinOk | PinExists | PinError.

(** What libbpf answers; file descriptors are negative on failure. *)
Record libbpf := {
  object_open : bool;
  find_program : string -> bool;
  object_load : bool;
  find_map_fd : string -> Z;
  program_fd : string -> Z;
  map_update : Z -> Z -> Z -> bool;
  pin_attempt : string -> nat -> pin_answer;
  unpin_ok : string -> bool;
  set_link : Z -> Z -> bool
}.

(** What the loader does to the kernel. *)
Inductive effect :=
  | MapUpdate (map_fd idx prog_fd : Z)
  | Pin (name : string)
  | Unpin (name : string)
  | Attach (interface prog_fd : Z).

Inductive setup_error :=
  | OpenFailed | FindProgramFailed | LoadFailed | FindMapFailed
  | ProgFdFailed | MapUpdateFailed | PinFailed | UnpinFailed | PinRetriesExhausted
  | AttachFailed.

Definition setup_result : Type := list effect * option setup_error.

Section Setup.

Variable L : libbpf.

(** [retry:]: pin, and on EEXIST unpin and pin again. The source loops as long as the answer is
    EEXIST; [fuel] bounds the attempts the model follows. *)
Fixpoint pin_program (fuel attempt : nat) (name : string) : setup_result :=
  match fuel with
  | O => ([], Some PinRetriesExhausted)
  | S fuel' =>
      match pin_attempt L name attempt with
      | PinOk => ([Pin name], None)
      | PinExists =>
          if unpin_ok L name then
            let '(es, r) := pin_program fuel' (S attempt) name in (Unpin name :: es, r)
          else ([], Some UnpinFailed)
      | PinError => ([], Some PinFailed)
      end
  end.

(** Sequencing: stop at the first error, keep the effects so far. *)
Definition seq_result (a : setup_result) (b : setup_result) : setup_result :=
  match a with
  | (es, None) => let '(es', r) := b in (es ++ es', r)
  | (es, Some e) => (es, Some e)
  end.

(** One iteration of the registration loop. *)
Definition register_prog (fuel : nat) (xdp_fd tc_fd : Z) (d : bpf_progs_desc) : setup_result :=
  let fd := program_fd L (desc_name d) in
  if fd <? 0 then ([], Some ProgFdFailed) else
  seq_result
    (if negb (map_prog_idx d =? -1) then
       let map_fd := match desc_type d with
                     | BPF_PROG_TYPE_XDP => xdp_fd
                     | BPF_PROG_TYPE_SCHED_CLS => tc_fd
                     end in
       if map_update L map_fd (map_prog_idx d) fd
       then ([MapUpdate map_fd (map_prog_idx d) fd], None) else ([], Some MapUpdateFailed)
     else ([], None))
    (if desc_pin d then pin_program fuel 0 (desc_name d) else ([], None)).

Fixpoint register_all (fuel : nat) (xdp_fd tc_fd : Z) (ds : list bpf_progs_desc) : setup_result :=
  match ds with
  | [] => ([], None)
  | d :: ds' => seq_result (register_prog fuel xdp_fd tc_fd d) (register_all fuel xdp_fd tc_fd ds')
  end.

Fixpoint attach_all (fd : Z) (interfaces : list Z) : setup_result :=
  match interfaces with
  | [] => ([], None)
  | i :: is' =>
      if set_link L i fd then seq_result ([Attach i fd], None) (attach_all fd is')
      else ([], Some AttachFailed)
  end.

(** [main] from opening the object to attaching the interfaces. *)
Definition setup (fuel : nat) (interfaces : list Z) : setup_result :=
  if negb (object_open L) then ([], Some OpenFailed) else
  if negb (forallb (fun d => find_program L (desc_name d)) progs) then ([], Some FindProgramFailed) else
  if negb (object_load L) then ([], Some LoadFailed) else
  let xdp_fd := find_map_fd L "map_progs_xdp" in
  if xdp_fd <? 0 then ([], Some FindMapFailed) else
  let tc_fd := find_map_fd L "map_progs_tc" in
  if tc_fd <? 0 then ([], Some FindMapFailed) else
  seq_result (register_all fuel xdp_fd tc_fd progs)
    (if find_map_fd L "map_stats" <? 0 then ([], Some FindMapFailed) else
     let main_fd := program_fd L "bmc_rx_filter" in
     if main_fd <? 0 then ([], Some ProgFdFailed) else attach_all main_fd interfaces).

Lemma seq_result_ok a b es :
  seq_result a b = (es, None) <-> exists e1 e2, a = (e1, None) /\ b = (e2, None) /\ es = e1 ++ e2.
Proof.
  destruct a as [e1 [?|]], b as [e2 [?|]]; simpl; split; intros Hx;
    repeat match goal with
    | Hy : exists _, _ |- _ => destruct Hy
    | Hy : _ /\ _ |- _ => destruct Hy
    end; simplify_eq; eauto 10.
Qed.

Lemma attach_all_ok fd ifs es :
  attach_all fd ifs = (es, None) -> es = (fun i => Attach i fd) <$> ifs.
Proof.
  revert es. induction ifs as [|i ifs IH]; intros es; cbn [attach_all]; [by intros [= <-]|].
  destruct (set_link L i fd); [|done].
  intros (e1 & e2 & [= <-] & H2 & ->)%seq_result_ok. by rewrite (IH e2).
Qed.

(** The pinning effects of a program that ends up pinned: unpin as often as needed, then pin. *)
Lemma pin_program_ok fuel : forall attempt name es,
  pin_program fuel attempt name = (es, None) ->
  exists n, es = replicate n (Unpin name) ++ [Pin name].
Proof.
  induction fuel as [|fuel IH]; intros attempt name es; cbn [pin_program]; [done|].
  destruct (pin_attempt L name attempt); [intros [= <-]; by exists O| |done].
  destruct (unpin_ok L name); [|done].
  destruct (pin_program fuel (S attempt) name) as [es' r] eqn:Hp. intros [= <- ->].
  destruct (IH _ _ _ Hp) as [n ->]. by exists (S n).
Qed.

(** The effects of one successful registration. *)
Definition prog_effects (xdp_fd tc_fd : Z) (n : nat) (d : bpf_progs_desc) : list effect :=
  (if map_prog_idx d =? -1 then []
   else [MapUpdate (match desc_type d with
                    | BPF_PROG_TYPE_XDP => xdp_fd
                    | BPF_PROG_TYPE_SCHED_CLS => tc_fd
                    end) (map_prog_idx d) (program_fd L (desc_name d))]) ++
  (if desc_pin d then replicate n (Unpin (desc_name d)) ++ [Pin (desc_name d)] else []).

Lemma register_prog_ok fuel x t d es :
  register_prog fuel x t d = (es, None) -> exists n, es = prog_effects x t n d.
Proof.
  unfold register_prog, prog_effects. case_if; [done|].
  intros (e1 & e2 & H1 & H2 & ->)%seq_result_ok.
  assert (exists n, e2 = if desc_pin d then replicate n (Unpin (desc_name d)) ++ [Pin (desc_name d)]
                         else []) as [n ->].
  { destruct (desc_pin d); [by eapply pin_program_ok|]. injection H2 as <-. by exists O. }
  exists n. f_equal. destruct (map_prog_idx d =? -1); cbn [negb] in H1; [by simplify_eq|].
  destruct (map_update L _ _ _); by simplify_eq.
Qed.

Lemma register_all_ok fuel x t ds : forall es,
  register_all fuel x t ds = (es, None) ->
  exists ns, length ns = length ds /\ es = concat (zip_with (prog_effects x t) ns ds).
Proof.
  induction ds as [|d ds IH]; intros es; cbn [register_all].
  - intros [= <-]. by exists [].
  - intros (e1 & e2 & H1 & H2 & ->)%seq_result_ok.
    apply register_prog_ok in H1 as [n ->]. destruct (IH _ H2) as (ns & Hl & ->).
    exists (n :: ns). simpl. by rewrite Hl.
Qed.

(** A successful start has put exactly the four XDP programs and the one traffic-control
    program into the slots the kernel side tail-calls, has pinned only the egress filter
    (after unpinning older pins), and has attached the receive filter to every interface. *)
Theorem setup_registers_programs fuel interfaces es :
  setup fuel interfaces = (es, None) ->
  let x := find_map_fd L "map_progs_xdp" in
  let t := find_map_fd L "map_progs_tc" in
  let fd := program_fd L in
  exists n, es =
    [ MapUpdate x 0 (fd "bmc_hash_keys"%string); MapUpdate x 1 (fd "bmc_prepare_packet"%string);
      MapUpdate x 2 (fd "bmc_write_reply"%string);
      MapUpdate x 3 (fd "bmc_invalidate_cache"%string) ] ++
    replicate n (Unpin "bmc_tx_filter") ++ [Pin "bmc_tx_filter"] ++
    [ MapUpdate t 0 (fd "bmc_update_cache"%string) ] ++
    ((fun i => Attach i (fd "bmc_rx_filter"%string)) <$> interfaces).
Proof.
  intros Hs x t fd. unfold setup in Hs.
  repeat match type of Hs with (if ?b then _ else _) = _ => destruct b; [done|] end.
  apply seq_result_ok in Hs as (e1 & e2 & Hreg & Hatt & ->).
  repeat match type of Hatt with (if ?b then _ else _) = _ => destruct b; [done|] end. apply attach_all_ok in Hatt as ->.
  apply register_all_ok in Hreg as (ns & Hlen & ->). fold x. fold t.
  destruct ns as [|? [|? [|? [|? [|? [|n [|? [|? ?]]]]]]]]; try discriminate Hlen.
  exists n. cbn -[replicate]. by rewrite <- !app_assoc.
Qed.

End Setup.

(** ** The signal loop *)

Inductive signal := SIGINT | SIGTERM | SIGALRM | SIGUSR1.

(** State of the loop: files written so far, armed alarms, and the two control variables. *)
Record poll := mk_poll {
  cur_poll_count : Z;
  quit : bool;
  ret : Z;
  stat_lines : nat;
  stat_files : nat;
  alarms : nat
}.

Section Signals.

Variable stats_poll_count : Z.

(** Whether the statistics file can be opened on each attempt. *)
Variable stats_file_ok : nat -> bool.

(** [write_stats_to_file]'s return value, and the file count after it. *)
Definition file_ret (p : poll) : Z := if stats_file_ok (stat_files p) then 0 else -1.

(** One iteration of [while (!quit)] on a signal; [write_stat_line] returns 0. *)
Definition on_signal (p : poll) (sig : signal) : poll :=
  match sig with
  | SIGINT | SIGTERM =>
      mk_poll (cur_poll_count p) true (file_ret p) (stat_lines p) (S (stat_files p)) (alarms p)
  | SIGALRM =>
      let c := cur_poll_count p + 1 in
      if c <? stats_poll_count
      then mk_poll c (quit p) (ret p) (S (stat_lines p)) (stat_files p) (S (alarms p))
      else mk_poll c true (Z.lor (ret p) (file_ret p)) (S (stat_lines p)) (S (stat_files p))
             (alarms p)
  | SIGUSR1 =>
      mk_poll (cur_poll_count p) (negb (file_ret p =? 0)) (file_ret p) (stat_lines p)
        (S (stat_files p)) (alarms p)
  end.

(** The loop over the signals delivered; it ends at [quit]. *)
Fixpoint signal_loop (p : poll) (sigs : list signal) : poll :=
  match sigs with
  | [] => p
  | sig :: sigs' => if quit p then p else signal_loop (on_signal p sig) sigs'
  end.

(** Before the loop: one alarm is armed when polling was asked for. *)
Definition poll_start (interval : Z) : poll :=
  mk_poll 0 false 0 0 0 (if (0 <? stats_poll_count) && (0 <? interval) then 1 else 0).

Lemma alarms_run n p :
  quit p = false -> cur_poll_count p + Z.of_nat n < stats_poll_count ->
  signal_loop p (replicate n SIGALRM) =
  mk_poll (cur_poll_count p + Z.of_nat n) false (ret p) (stat_lines p + n) (stat_files p)
    (alarms p + n).
Proof.
  revert p. induction n as [|n IH]; intros p Hq Hn.
  - cbn. rewrite !Nat.add_0_r, Z.add_0_r, <- Hq. by destruct p.
  - cbn [replicate signal_loop]. rewrite Hq. unfold on_signal.
    rewrite (proj2 (Z.ltb_lt _ _)) by lia. rewrite Hq, IH by (cbn; (done || lia)). cbn.
    f_equal; lia.
Qed.

(** Asked for [n] polls, the loader handles exactly [n] alarms: after fewer it is still
    running with that many lines written and the next alarm armed, and the [n]-th writes the
    last line and the statistics file and ends the loop. *)
Theorem polls_exactly_count n interval :
  0 < interval -> stats_poll_count = Z.of_nat (S n) ->
  (forall k, (k <= n)%nat ->
     signal_loop (poll_start interval) (replicate k SIGALRM) =
     mk_poll (Z.of_nat k) false 0 k 0 (S k)) /\
  signal_loop (poll_start interval) (replicate (S n) SIGALRM) =
  mk_poll (Z.of_nat (S n)) true (if stats_file_ok 0 then 0 else -1) (S n) 1 (S n).
Proof.
  intros Hi Hc. assert (poll_start interval = mk_poll 0 false 0 0 0 1) as Hs
    by (unfold poll_start; rewrite Hc, !(proj2 (Z.ltb_lt _ _)) by lia; done).
  rewrite Hs. split.
  - intros k Hk. rewrite alarms_run by (cbn; (done || lia)). cbn. done.
  - replace (replicate (S n) SIGALRM) with (replicate n SIGALRM ++ [SIGALRM])
      by (rewrite <- replicate_cons_app; done).
    assert (forall p a b, quit p = false -> quit (signal_loop p a) = false ->
              signal_loop p (a ++ b) = signal_loop (signal_loop p a) b) as Happ.
    { intros p a. revert p. induction a as [|x a IH]; intros p b Hq Hq2; [done|].
      cbn [app signal_loop] in *. rewrite Hq in *. apply IH; [|done].
      destruct (quit (on_signal p x)) eqn:He; [|done].
      destruct a; cbn [signal_loop] in Hq2; rewrite ?He in Hq2; congruence. }
    rewrite Happ; rewrite ?alarms_run by (cbn; (done || lia)); [|done|done].
    cbn [signal_loop on_signal quit cur_poll_count ret stat_files stat_lines alarms].
    rewrite (proj2 (Z.ltb_ge _ _)) by lia. unfold file_ret. cbn [stat_files].
    rewrite Z.lor_0_l. f_equal; lia.
Qed.

End Signals.

(** ** Instances *)

(** A libbpf that succeeds, with an older pin in the way. *)
Definition working_libbpf : libbpf := {|
  object_open := true;
  find_program _ := true;
  object_load := true;
  find_map_fd name := if bool_decide (name = "map_progs_xdp"%string) then 5 else 6;
  program_fd name := 10;
  map_update _ _ _ := true;
  pin_attempt _ n := match n with O => PinExists | S _ => PinOk end;
  unpin_ok _ := true;
  set_link _ _ := true
|}.

Lemma setup_registers_programs_witness :
  exists n, (setup working_libbpf 3 [2]).1 =
    [ MapUpdate 5 0 10; MapUpdate 5 1 10; MapUpdate 5 2 10; MapUpdate 5 3 10 ] ++
    replicate n (Unpin "bmc_tx_filter") ++ [Pin "bmc_tx_filter"] ++
    [ MapUpdate 6 0 10 ] ++ [Attach 2 10].
Proof. apply (setup_registers_programs working_libbpf 3 [2]). vm_compute. reflexivity. Defined.

Lemma polls_exactly_count_witness :
  (forall k, (k <= 2)%nat ->
     signal_loop 3 (fun _ => true) (poll_start 3 10) (replicate k SIGALRM) =
     mk_poll (Z.of_nat k) false 0 k 0 (S k)) /\
  signal_loop 3 (fun _ => true) (poll_start 3 10) (replicate 3 SIGALRM) = mk_poll 3 true 0 3 1 3.
Proof. apply (polls_exactly_count 3 (fun _ => true) 2 10); lia. Defined.
