(* ===== verification/McItoa.v ===== *)
(** The left-justified integer printers of memcached (src/memcached-sr/itoa_ljust.c).

    The buffer is the list of its bytes and [p] an offset into it, so that what
    is written before, at and after the digits can be stated.  The switch of
    [itoa] falls through from case to case; each case is a test on the entry
    label.  The multiplications [d * 100000000] are of type [int] in the source
    and wrap here as they do on the machines the code runs on. *)
From S2P Require Import Prelude.

(** ** The printers *)

Definition lut : list Z := bytes
  "00010203040506070809101112131415161718192021222324252627282930313233343536373839404142434445464748495051525354555657585960616263646566676869707172737475767778798081828384858687888990919293949596979899".

(** A buffer and a position in it. *)
Definition cursor := (list Z * nat)%type.

Definition out2 (d : Z) (c : cursor) : cursor :=
  let '(buf, p) := c in (write p (slice (2 * Z.to_nat d) 2 lut) buf, (p + 2)%nat).

Definition out1 (ch : Z) (c : cursor) : cursor :=
  let '(buf, p) := c in (write p [ch] buf, (p + 1)%nat).

(** [digits u k &d &p n]: the new [d], the cursor and the number of digits. *)
Definition digits (u k : Z) (d : Z) (c : cursor) (n : nat) : Z * cursor * nat :=
  if u <? u32 (k * 10) then
    let d := u / k in (d, out1 (s8 (48 + d)) c, (n - 1)%nat)
  else (d, c, n).

(** One even case of the switch: [d = u / k; p = out2(d, p)]. *)
Definition even_case (k : Z) (s : Z * Z * cursor) : Z * Z * cursor :=
  let '(u, _, c) := s in let d := u / k in (u, d, out2 d c).

(** One odd case: [u -= d * k]. *)
Definition odd_case (k : Z) (s : Z * Z * cursor) : Z * Z * cursor :=
  let '(u, d, c) := s in (u32 (u - s32 (d * k)), d, c).

Definition itoa (u : Z) (c : cursor) (d : Z) (n : nat) : cursor :=
  let from (k : nat) (f : Z * Z * cursor -> Z * Z * cursor) s :=
    if (k <=? n)%nat then f s else s in
  let s := (u, d, c) in
  let s := from 10%nat (even_case 100000000) s in
  let s := from 9%nat (odd_case 100000000) s in
  let s := from 8%nat (even_case 1000000) s in
  let s := from 7%nat (odd_case 1000000) s in
  let s := from 6%nat (even_case 10000) s in
  let s := from 5%nat (odd_case 10000) s in
  let s := from 4%nat (even_case 100) s in
  let s := from 3%nat (odd_case 100) s in
  let s := from 2%nat (even_case 1) s in
  let '(_, _, (buf, p)) := s in (write p [0] buf, p).

Definition itoa_u32 (u : Z) (c : cursor) : cursor :=
  let '(d, c, n) :=
    if 100000000 <=? u then digits u 100000000 0 c 10
    else if u <? 100 then digits u 1 0 c 2
    else if u <? 10000 then digits u 100 0 c 4
    else if u <? 1000000 then digits u 10000 0 c 6
    else digits u 1000000 0 c 8 in
  itoa u c d n.

Definition itoa_32 (i : Z) (c : cursor) : cursor :=
  let u := u32 i in
  if i <? 0 then itoa_u32 (u32 (- u)) (out1 45 c) else itoa_u32 u c.

(** The recursion divides by [10^9]: three calls are enough for 64 bits. *)
Fixpoint itoa_u64_rec (fuel : nat) (u : Z) (c : cursor) : cursor :=
  match fuel with
  | O => c
  | S fuel =>
      let lower := u32 u in
      if lower =? u then itoa_u32 lower c
      else
        let upper := u / 1000000000 in
        let c := itoa_u64_rec fuel upper c in
        let lower := u32 (u - u64 (upper * 1000000000)) in
        let d := lower / 100000000 in
        itoa lower (out1 (s8 (48 + d)) c) d 9
  end.
Definition itoa_u64 (u : Z) (c : cursor) : cursor := itoa_u64_rec 3 u c.

Definition itoa_64 (i : Z) (c : cursor) : cursor :=
  let u := u64 i in
  if i <? 0 then itoa_u64 (u64 (- u)) (out1 45 c) else itoa_u64 u c.

(** ** Decimal notation *)

(** [n] decimal digits of [u], most significant first. *)
Fixpoint dpad (n : nat) (u : Z) : list Z :=
  match n with O => [] | S n => dpad n (u / 10) ++ [48 + u mod 10] end.

(** The number of decimal digits of [u < 10 ^ fuel]. *)
Fixpoint ndigits (fuel : nat) (u : Z) : nat :=
  match fuel with
  | O => 1
  | S fuel => if u <? 10 then 1 else S (ndigits fuel (u / 10))
  end.

(** The canonical decimal notation of a number below [10^20], without leading zeros. *)
Definition decimal (u : Z) : list Z := dpad (ndigits 20 u) u.
Definition decimal_signed (i : Z) : list Z :=
  if i <? 0 then 45 :: decimal (- i) else decimal i.

(** ** Proofs *)

(** Writing a run of bytes at the cursor, and ending the text with a NUL. *)
Definition put (bs : list Z) (c : cursor) : cursor :=
  let '(buf, p) := c in (write p bs buf, (p + length bs)%nat).
Definition terminate (c : cursor) : cursor :=
  let '(buf, p) := c in (write p [0] buf, p).
Definition inside (c : cursor) : Prop := (snd c <= length (fst c))%nat.
Definition room (n : nat) (c : cursor) : Prop := (snd c + n <= length (fst c))%nat.

Lemma write_write_next p b1 b2 buf : (p <= length buf)%nat ->
  write (p + length b1) b2 (write p b1 buf) = write p (b1 ++ b2) buf.
Proof.
  intros Hp. unfold write at 1 2. rewrite (app_assoc (take p buf)).
  assert (length (take p buf ++ b1) = p + length b1)%nat as Hl
    by (rewrite length_app, length_take; lia).
  rewrite <- Hl, take_app_length. rewrite drop_app_ge by lia.
  unfold write. rewrite Hl, length_app, drop_drop, <- !app_assoc.
  repeat (apply (f_equal2 app); [done|]). apply (f_equal (fun n => drop n buf)). lia.
Qed.

Lemma write_write_same p b1 b2 buf : (p <= length buf)%nat -> (length b1 <= length b2)%nat ->
  write p b2 (write p b1 buf) = write p b2 buf.
Proof.
  intros Hp Hb. unfold write at 1 2.
  assert (length (take p buf) = p) as Hl by (rewrite length_take; lia).
  rewrite <- Hl at 1. rewrite take_app_length.
  rewrite drop_app_ge by lia. rewrite drop_app_ge by lia.
  unfold write. rewrite drop_drop.
  repeat (apply (f_equal2 app); [done|]). apply (f_equal (fun n => drop n buf)). lia.
Qed.

Lemma put_put b1 b2 c : inside c -> put b2 (put b1 c) = put (b1 ++ b2) c.
Proof.
  destruct c as [buf p]. unfold inside, put. cbn. intros Hp.
  rewrite write_write_next by done. rewrite length_app. f_equal. lia.
Qed.

Lemma put_nil c : put [] c = c.
Proof.
  destruct c as [buf p]. unfold put. by rewrite write_nil, Nat.add_0_r.
Qed.

Lemma put_terminate b c : inside c -> b <> [] -> put b (terminate c) = put b c.
Proof.
  destruct c as [buf p]. unfold inside, put, terminate. cbn. intros Hp Hb.
  rewrite write_write_same; [done|done|]. destruct b; cbn; [done|lia].
Qed.

Lemma room_put n b c : room (length b + n) c -> room n (put b c).
Proof.
  destruct c as [buf p]. unfold room, put. cbn. intros H.
  rewrite length_write by lia. lia.
Qed.

Lemma room_terminate n c : room (S n) c -> room (S n) (terminate c).
Proof. destruct c as [buf p]. unfold room, terminate. cbn. intros H. rewrite length_write; cbn; lia. Qed.

Lemma room_inside n c : room n c -> inside c.
Proof. unfold room, inside. lia. Qed.

Lemma room_weaken n m c : room n c -> (m <= n)%nat -> room m c.
Proof. unfold room. lia. Qed.

Lemma length_dpad n u : length (dpad n u) = n.
Proof. revert u. induction n as [|n IH]; intros u; cbn; [done|]. rewrite length_app, IH. cbn. lia. Qed.

(** The digits of a number split at any place. *)
Lemma dpad_split a b u : 0 <= u ->
  dpad (a + b) u = dpad a (u / 10 ^ Z.of_nat b) ++ dpad b (u mod 10 ^ Z.of_nat b).
Proof.
  revert u. induction b as [|b IH]; intros u Hu.
  - rewrite Nat.add_0_r, Z.div_1_r. cbn. by rewrite app_nil_r.
  - rewrite Nat.add_succ_r. cbn [dpad]. rewrite IH by (apply Z.div_pos; lia).
    rewrite Nat2Z.inj_succ, Z.pow_succ_r by lia.
    assert (0 < 10 ^ Z.of_nat b) by (apply Z.pow_pos_nonneg; lia).
    rewrite Z.div_div by lia.
    rewrite (Z.rem_mul_r u 10) by lia.
    rewrite <- app_assoc. f_equal. f_equal.
    + f_equal. rewrite (Z.mul_comm 10), Z.div_add by lia.
      rewrite (Z.div_small (u mod 10)); [done|]. apply Z.mod_pos_bound. lia.
    + do 2 f_equal. rewrite (Z.mul_comm 10), Z.mod_add by lia. by rewrite Z.mod_mod by lia.
Qed.

Lemma lut_slice d : 0 <= d < 100 -> slice (2 * Z.to_nat d) 2 lut = dpad 2 d.
Proof.
  intros Hd. assert (forallb (fun k => bool_decide
    (slice (2 * k) 2 lut = dpad 2 (Z.of_nat k))) (seq 0 100) = true) as H by (vm_compute; done).
  rewrite forallb_forall in H. specialize (H (Z.to_nat d)).
  rewrite bool_decide_eq_true in H. rewrite Z2Nat.id in H by lia. apply H.
  apply in_seq. lia.
Qed.

Lemma out2_put d c : 0 <= d < 100 -> out2 d c = put (dpad 2 d) c.
Proof. intros Hd. destruct c. unfold out2, put. rewrite lut_slice by done. by rewrite length_dpad. Qed.

Lemma out1_put d c : 0 <= d < 10 -> out1 (s8 (48 + d)) c = put (dpad 1 d) c.
Proof.
  intros Hd. destruct c. unfold out1, put. cbn [dpad app length].
  rewrite Z.mod_small by lia. unfold signed, wrap. cbn zeta.
  rewrite Z.mod_small by lia. change (2 ^ (8 - 1)) with 128.
  by rewrite (proj2 (Z.ltb_lt (48 + d) 128)) by lia.
Qed.

Lemma odd_case_mod k u c : 0 < k -> 0 <= u < 2 ^ 32 -> k < 2 ^ 32 ->
  odd_case k (u, u / k, c) = (u mod k, u / k, c).
Proof.
  intros Hk Hu Hk'. unfold odd_case. do 2 f_equal.
  rewrite <- (wrap_sub_r 32), wrap_signed, wrap_sub_r by lia.
  rewrite Z.mul_comm, <- Z.mod_eq by lia. apply wrap_small.
  pose proof (Z.mod_pos_bound u k Hk). lia.
Qed.

Lemma even_case_put k u d c : 0 < k -> 0 <= u < 100 * k ->
  even_case k (u, d, c) = (u, u / k, put (dpad 2 (u / k)) c).
Proof.
  intros Hk Hu. unfold even_case. rewrite out2_put; [done|].
  split; [apply Z.div_pos; lia|apply Z.div_lt_upper_bound; lia].
Qed.

(** An even case followed by the odd case below it prints two digits and keeps the rest. *)
Lemma two_digits k u d c : 0 < k < 2 ^ 32 -> 0 <= u < 100 * k -> u < 2 ^ 32 ->
  odd_case k (even_case k (u, d, c)) = (u mod k, u / k, put (dpad 2 (u / k)) c).
Proof. intros Hk Hu Hu'. rewrite even_case_put by lia. apply odd_case_mod; lia. Qed.

(** The tail of the switch from an even label prints that many digits. *)
Lemma itoa_even_2 u d c : 0 <= u < 100 -> itoa u c d 2 = terminate (put (dpad 2 u) c).
Proof.
  intros Hu. unfold itoa. cbn -[even_case odd_case dpad terminate put].
  rewrite even_case_put by lia. rewrite Z.div_1_r. done.
Qed.

Lemma itoa_even_step (j : nat) k u d c :
  (j = 1 \/ j = 2 \/ j = 3 \/ j = 4)%nat -> k = 10 ^ Z.of_nat (2 * j) ->
  0 <= u < 100 * k -> u < 2 ^ 32 ->
  itoa u c d (2 + 2 * j) = itoa (u mod k) (put (dpad 2 (u / k)) c) (u / k) (2 * j).
Proof.
  intros Hj -> Hu Hu'.
  destruct Hj as [-> | [-> | [-> | ->]]]; unfold itoa; cbn -[even_case odd_case dpad put];
    by rewrite two_digits by (try split; lia).
Qed.

Lemma itoa_even j u d c :
  (j < 5)%nat -> 0 <= u < 10 ^ Z.of_nat (2 + 2 * j) -> u < 2 ^ 32 -> inside c ->
  room (2 + 2 * j) c ->
  itoa u c d (2 + 2 * j) = terminate (put (dpad (2 + 2 * j) u) c).
Proof.
  revert u d c. induction j as [|j IH]; intros u d c Hj Hu Hu' Hc Hr.
  { apply itoa_even_2. exact Hu. }
  rewrite Nat2Z.inj_add, Z.pow_add_r in Hu by lia. change (10 ^ Z.of_nat 2) with 100 in Hu.
  rewrite (itoa_even_step (S j) _) by (done || lia).
  replace (2 * S j)%nat with (2 + 2 * j)%nat in * by lia.
  remember (10 ^ Z.of_nat (2 + 2 * j)) as k eqn:Hk.
  assert (0 < k) by (subst k; apply Z.pow_pos_nonneg; lia).
  pose proof (Z.mod_pos_bound u k). pose proof (Z.mod_le u k).
  assert (room (2 + 2 * j) (put (dpad 2 (u / k)) c)) as Hr'.
  { apply room_put. by rewrite length_dpad. }
  rewrite IH; [| lia | lia | lia | by eapply room_inside | done].
  rewrite put_put by done. f_equal. f_equal.
  rewrite (dpad_split 2 (2 + 2 * j)), <- Hk by lia. done.
Qed.

(** The tail of the switch from an odd label prints what is left below the leading digit. *)
Lemma itoa_odd j u c :
  (j < 4)%nat -> 0 <= u < 2 ^ 32 -> room (2 + 2 * j) c ->
  let k := 10 ^ Z.of_nat (2 + 2 * j) in
  itoa u c (u / k) (3 + 2 * j) = terminate (put (dpad (2 + 2 * j) (u mod k)) c).
Proof.
  intros Hj Hu Hr k.
  assert (0 < k) by (apply Z.pow_pos_nonneg; lia).
  pose proof (Z.mod_pos_bound u k ltac:(done)). pose proof (Z.mod_le u k ltac:(lia) ltac:(done)).
  rewrite <- (itoa_even j (u mod k) (u / k)); [|lia|fold k; lia|lia|by eapply room_inside|done].
  destruct j as [|[|[|[|j]]]]; [..|lia]; unfold itoa; subst k;
    cbn -[even_case odd_case Z.modulo Z.div];
    by rewrite odd_case_mod by lia.
Qed.

(** A number with [n] digits has [dpad n] as its decimal notation. *)
Lemma ndigits_eq fuel n u :
  (n <= fuel)%nat -> (n = 0%nat \/ 10 ^ Z.of_nat n <= u) -> 0 <= u < 10 ^ Z.of_nat (S n) ->
  ndigits fuel u = S n.
Proof.
  revert n u. induction fuel as [|fuel IH]; intros n u Hn Hl Hu.
  { replace n with 0%nat by lia. done. }
  cbn. destruct n as [|n].
  { by rewrite (proj2 (Z.ltb_lt _ _)) by (cbn in Hu; lia). }
  destruct Hl as [?|Hl]; [lia|].
  rewrite !Nat2Z.inj_succ, !Z.pow_succ_r in * by lia.
  assert (0 < 10 ^ Z.of_nat n) by (apply Z.pow_pos_nonneg; lia).
  rewrite (proj2 (Z.ltb_ge _ _)) by lia. f_equal. apply IH; [lia| |].
  - right. apply Z.div_le_lower_bound; lia.
  - rewrite Nat2Z.inj_succ, Z.pow_succ_r by lia.
    split; [apply Z.div_pos; lia|apply Z.div_lt_upper_bound; lia].
Qed.

Lemma decimal_eq n u :
  (n < 20)%nat -> (n = 0%nat \/ 10 ^ Z.of_nat n <= u) -> 0 <= u < 10 ^ Z.of_nat (S n) ->
  decimal u = dpad (S n) u.
Proof. intros Hn Hl Hu. unfold decimal. by rewrite (ndigits_eq 20 n) by (done || lia). Qed.

(** [digits] with the label [2 + 2j] followed by the switch prints the whole number,
    whether it has an odd or an even number of digits. *)
Lemma digits_itoa (j : nat) k u c :
  (j < 5)%nat -> k = 10 ^ Z.of_nat (2 * j) ->
  0 <= u < 100 * k -> (j = 0%nat \/ k <= u) -> u < 2 ^ 32 -> room (2 + 2 * j) c ->
  (let '(d, c, n) := digits u k 0 c (2 + 2 * j) in itoa u c d n)
  = terminate (put (decimal u) c).
Proof.
  intros Hj Hk Hu Hl Hu' Hr.
  assert (0 < k <= 10 ^ 8) as Hk8.
  { subst k. split; [apply Z.pow_pos_nonneg; lia|apply Z.pow_le_mono_r; lia]. }
  unfold digits. rewrite (wrap_small 32) by lia.
  assert (10 ^ Z.of_nat (S (2 * j)) = 10 * k) as Hk1
    by (subst k; rewrite Nat2Z.inj_succ, Z.pow_succ_r by lia; done).
  assert (10 ^ Z.of_nat (S (S (2 * j))) = 100 * k) as Hk2
    by (rewrite Nat2Z.inj_succ, Z.pow_succ_r, Hk1 by lia; lia).
  destruct (Z.ltb_spec u (k * 10)) as [Hs|Hs].
  - rewrite (decimal_eq (2 * j)) by (lia || (rewrite <- Hk; destruct Hl as [-> | ?]; [left|right]; lia)).
    rewrite out1_put by (split; [apply Z.div_pos; lia|apply Z.div_lt_upper_bound; lia]).
    replace (S (2 * j)) with (1 + 2 * j)%nat by lia. rewrite dpad_split, <- Hk by lia.
    rewrite <- put_put by (by eapply room_inside).
    destruct j as [|j]; [cbn [dpad]; by rewrite put_nil|].
    replace (2 * S j)%nat with (2 + 2 * j)%nat in * by lia.
    replace (2 + (2 + 2 * j) - 1)%nat with (3 + 2 * j)%nat by lia.
    rewrite Hk at 2. rewrite itoa_odd, <- Hk; [done|lia|lia|].
    apply room_put. rewrite length_dpad. eapply room_weaken; [done|lia].
  - rewrite (decimal_eq (S (2 * j))) by (lia || (right; lia)).
    replace (S (S (2 * j))) with (2 + 2 * j)%nat in * by lia.
    apply itoa_even; [lia|lia|lia|by eapply room_inside|done].
Qed.

Lemma itoa_u32_spec u c : 0 <= u < 2 ^ 32 -> room 10 c ->
  itoa_u32 u c = terminate (put (decimal u) c).
Proof.
  intros Hu Hr. unfold itoa_u32.
  assert (forall j, (j < 5)%nat -> room (2 + 2 * j) c) as Hr'
    by (intros; eapply room_weaken; [done|lia]).
  repeat case_if.
  - apply (digits_itoa 4); [lia|done|lia|lia|lia|apply Hr'; lia].
  - apply (digits_itoa 0); [lia|done|lia|lia|lia|apply Hr'; lia].
  - apply (digits_itoa 1); [lia|done|lia|lia|lia|apply Hr'; lia].
  - apply (digits_itoa 2); [lia|done|lia|lia|lia|apply Hr'; lia].
  - apply (digits_itoa 3); [lia|done|lia|lia|lia|apply Hr'; lia].
Qed.

Lemma dpad_cons n u : 0 <= u -> dpad (S n) u = dpad 1 (u / 10 ^ Z.of_nat n) ++ dpad n (u mod 10 ^ Z.of_nat n).
Proof. intros. by rewrite <- (dpad_split 1 n). Qed.

(** The nine digits below [10^9], as the recursion of [itoa_u64] prints them. *)
Lemma nine_digits lower c : 0 <= lower < 10 ^ 9 -> room 9 c ->
  itoa lower (out1 (s8 (48 + lower / 100000000)) c) (lower / 100000000) 9
  = terminate (put (dpad 9 lower) c).
Proof.
  intros Hl Hr.
  rewrite out1_put by (split; [apply Z.div_pos; lia|apply Z.div_lt_upper_bound; lia]).
  rewrite (itoa_odd 3) by (lia || (apply room_put; rewrite length_dpad; done)).
  rewrite put_put by (by eapply room_inside). by rewrite (dpad_cons 8) by lia.
Qed.

Lemma ndigits_range fuel u : 0 <= u < 10 ^ Z.of_nat fuel -> (0 < fuel)%nat ->
  exists n, ndigits fuel u = S n /\ (n < fuel)%nat /\
    (n = 0%nat \/ 10 ^ Z.of_nat n <= u) /\ u < 10 ^ Z.of_nat (S n).
Proof.
  revert u. induction fuel as [|fuel IH]; intros u Hu Hf; [lia|].
  cbn. case_if; [exists 0%nat; cbn; lia|].
  destruct fuel as [|fuel]; [cbn in *; lia|].
  rewrite Nat2Z.inj_succ, Z.pow_succ_r in Hu by lia.
  destruct (IH (u / 10)) as (n & Hn & Hlt & Hlo & Hhi);
    [split; [apply Z.div_pos; lia|apply Z.div_lt_upper_bound; lia]|lia|].
  exists (S n). rewrite Hn. split; [done|]. split; [lia|].
  assert (u = 10 * (u / 10) + u mod 10) as Hdm by (apply Z.div_mod; lia).
  pose proof (Z.mod_pos_bound u 10 ltac:(lia)).
  rewrite (Nat2Z.inj_succ (S n)), Z.pow_succ_r by lia.
  split; [|lia]. right. destruct Hlo as [-> |Hlo]; [cbn; lia|].
  rewrite Nat2Z.inj_succ, Z.pow_succ_r by lia. lia.
Qed.

(** The notation of a number of at least ten digits ends in its nine low digits. *)
Lemma decimal_low9 u : 10 ^ 9 <= u < 10 ^ 20 ->
  decimal u = decimal (u / 1000000000) ++ dpad 9 (u mod 1000000000).
Proof.
  intros Hu.
  assert (0 <= u / 1000000000 < 10 ^ 20) as Hq
    by (split; [apply Z.div_pos; lia|apply Z.div_lt_upper_bound; lia]).
  destruct (ndigits_range 20 (u / 1000000000)) as (n & Hn & Hlt & Hlo & Hhi); [lia|lia|].
  assert (1 <= u / 1000000000) by (apply Z.div_le_lower_bound; lia).
  assert (u = 1000000000 * (u / 1000000000) + u mod 1000000000) as Hdm by (apply Z.div_mod; lia).
  pose proof (Z.mod_pos_bound u 1000000000 ltac:(lia)).
  assert (10 ^ Z.of_nat (n + 9) = 10 ^ Z.of_nat n * 1000000000) as Hp
    by (rewrite Nat2Z.inj_add, Z.pow_add_r by lia; done).
  assert (10 ^ Z.of_nat (S (n + 9)) = 10 ^ Z.of_nat (S n) * 1000000000) as Hp'
    by (replace (S (n + 9)) with (S n + 9)%nat by lia; rewrite Nat2Z.inj_add, Z.pow_add_r by lia; done).
  assert (10 ^ Z.of_nat n <= u / 1000000000) as Hlo' by (destruct Hlo as [-> |?]; [cbn|]; lia).
  assert (n + 9 < 20)%nat.
  { apply (Nat2Z.inj_lt (n + 9) 20). apply (Z.pow_lt_mono_r_iff 10); [lia..|]. rewrite Hp. lia. }
  rewrite (decimal_eq (n + 9) u) by (lia || (right; lia)).
  unfold decimal. rewrite Hn. by rewrite <- (dpad_split (S n) 9) by lia.
Qed.

Lemma length_decimal u n : 0 <= u < 10 ^ Z.of_nat n -> (0 < n <= 20)%nat ->
  (0 < length (decimal u) <= n)%nat.
Proof.
  intros Hu Hn. unfold decimal. rewrite length_dpad.
  assert (10 ^ Z.of_nat n <= 10 ^ 20) by (apply (Z.pow_le_mono_r 10 (Z.of_nat n) 20); lia).
  destruct (ndigits_range 20 u) as (m & -> & Hm & Hlo & Hhi); [lia|lia|].
  destruct Hlo as [-> |Hlo]; [lia|]. split; [lia|].
  apply (Nat2Z.inj_lt m n). apply (Z.pow_lt_mono_r_iff 10); lia.
Qed.

Lemma itoa_u64_rec_spec fuel u c : (0 < fuel)%nat ->
  0 <= u < 2 ^ 32 * 1000000000 ^ Z.of_nat (fuel - 1) -> u < 2 ^ 64 -> room 20 c ->
  itoa_u64_rec fuel u c = terminate (put (decimal u) c).
Proof.
  revert u. induction fuel as [|fuel IH]; intros u Hf Hu Hu' Hr; [lia|].
  cbn [itoa_u64_rec]. destruct (Z.eqb_spec (u32 u) u) as [Hs|Hs].
  - rewrite Hs. apply itoa_u32_spec; [rewrite <- Hs; apply u32_range|eapply room_weaken; [done|lia]].
  - assert (2 ^ 32 <= u) as Hbig.
    { destruct (Z.le_gt_cases (2 ^ 32) u); [done|]. destruct Hs. apply wrap_small. lia. }
    destruct fuel as [|fuel]; [cbn in Hu; lia|].
    replace (S (S fuel) - 1)%nat with (S fuel) in Hu by lia.
    rewrite Nat2Z.inj_succ, Z.pow_succ_r in Hu by lia.
    assert (0 <= u / 1000000000 < 10 ^ 11) as Hq
      by (split; [apply Z.div_pos; lia|apply Z.div_lt_upper_bound; lia]).
    rewrite IH; [|lia| |lia|done].
    2:{ replace (S fuel - 1)%nat with fuel by lia. split; [lia|]. apply Z.div_lt_upper_bound; lia. }
    assert (u32 (u - u64 (u / 1000000000 * 1000000000)) = u mod 1000000000) as ->.
    { pose proof (Z.mod_pos_bound u 1000000000 ltac:(lia)).
      assert (u = 1000000000 * (u / 1000000000) + u mod 1000000000) as Hdm by (apply Z.div_mod; lia).
      rewrite (wrap_small 64) by lia. rewrite wrap_small by lia. lia. }
    pose proof (Z.mod_pos_bound u 1000000000 ltac:(lia)) as Hm.
    assert (length (decimal (u / 1000000000)) <= 11)%nat as Hlen
      by (apply (length_decimal _ 11); [cbn; lia|lia]).
    assert (room 9 (put (decimal (u / 1000000000)) c)) as Hr9
      by (apply room_put; eapply room_weaken; [done|lia]).
    rewrite nine_digits; [|done|by apply room_terminate].
    rewrite put_terminate; [|by eapply room_inside|by intros ?%(f_equal length)].
    rewrite put_put by (by eapply room_inside). by rewrite <- decimal_low9 by lia.
Qed.

Lemma itoa_u64_spec u c : 0 <= u < 2 ^ 64 -> room 20 c ->
  itoa_u64 u c = terminate (put (decimal u) c).
Proof. intros Hu Hr. apply itoa_u64_rec_spec; [lia|cbn; lia|lia|done]. Qed.

(** C31: the 64-bit printer writes the canonical decimal notation of its argument
    at the cursor, a minus sign first for a negative number, with a NUL after it,
    changes no byte before or after, and returns the position of the NUL; [INT64_MIN]
    included.  A buffer with 21 bytes from the cursor on is enough. *)
Theorem itoa_64_prints (i : Z) (buf : list Z) (p : nat) :
  - 2 ^ 63 <= i < 2 ^ 63 -> (p + 21 <= length buf)%nat ->
  itoa_64 i (buf, p)
  = (write p (decimal_signed i ++ [0]) buf, (p + length (decimal_signed i))%nat).
Proof.
  intros Hi Hp. unfold itoa_64, decimal_signed.
  assert (room 21 (buf, p)) as Hr by done.
  assert (inside (buf, p)) as Hin by (by eapply room_inside).
  assert (forall bs, terminate (put bs (buf, p))
    = (write p (bs ++ [0]) buf, (p + length bs)%nat)) as Hfin.
  { intros bs. unfold terminate, put. by rewrite write_write_next. }
  destruct (Z.ltb_spec i 0) as [Hneg|Hpos].
  - assert (u64 (- u64 i) = - i) as ->.
    { replace (- u64 i) with (0 - u64 i) by lia. rewrite wrap_sub_r. apply wrap_small. lia. }
    change (out1 45 (buf, p)) with (put [45] (buf, p)).
    rewrite itoa_u64_spec; [|lia|by apply room_put].
    by rewrite put_put, Hfin.
  - rewrite wrap_small by lia.
    rewrite itoa_u64_spec; [|lia|eapply (room_weaken 21); [done|lia]].
    by rewrite Hfin.
Qed.

(** The printed bytes and the NUL for [INT64_MIN] in a buffer of 22 bytes. *)
Lemma itoa_64_prints_witness :
  itoa_64 (-9223372036854775808) (replicate 22 7, 1%nat)
  = (7 :: bytes "-9223372036854775808" ++ [0], 21%nat).
Proof.
  rewrite (itoa_64_prints (-9223372036854775808) (replicate 22 7) 1); [reflexivity|lia|cbn; lia].
Defined.
