(* ===== verification/McUtil.v ===== *)
(** The string helpers of memcached (src/memcached-sr/util.c).

    A C string is the list of its bytes; reading at or beyond the end of the list
    gives the terminating NUL.  [strtoull], [strtoll] and [isspace] are modelled as
    the C standard defines them in the "C" locale, on an LP64 machine. *)
From S2P Require Import Prelude McItoa.

(** ** The C library functions used here *)

Definition isspace (c : Z) : bool := (c =? 32) || ((9 <=? c) && (c <=? 13)).
Definition isdigit (c : Z) : bool := (48 <=? c) && (c <=? 57).
Definition isupper (c : Z) : bool := (65 <=? c) && (c <=? 90).
Definition islower (c : Z) : bool := (97 <=? c) && (c <=? 122).
Definition isalnum (c : Z) : bool := isdigit c || isupper c || islower c.

(** The bytes of a string up to its NUL. *)
Fixpoint c_str (l : list Z) : list Z :=
  match l with
  | [] => []
  | c :: l => if c =? 0 then [] else c :: c_str l
  end.
Definition strchr (l : list Z) (c : Z) : bool := existsb (Z.eqb c) (c_str l).

Definition digit_val (c : Z) : Z :=
  if isdigit c then c - 48 else if isupper c then c - 55 else if islower c then c - 87 else 255.
Definition is_digit_in (base c : Z) : bool := digit_val c <? base.

Fixpoint span (f : Z -> bool) (l : list Z) : list Z * list Z :=
  match l with
  | [] => ([], [])
  | c :: l' => if f c then let '(a, b) := span f l' in (c :: a, b) else ([], l)
  end.

Definition value_of (base : Z) (ds : list Z) : Z :=
  fold_left (fun v c => v * base + digit_val c) ds 0.

(** In base 16 a prefix [0x] in front of a hexadecimal digit is skipped. *)
Definition skip_0x (base : Z) (s : list Z) : list Z :=
  match s with
  | c0 :: x :: d :: s' =>
      if (base =? 16) && (c0 =? 48) && ((x =? 120) || (x =? 88)) && is_digit_in 16 d
      then d :: s' else s
  | _ => s
  end.

(** What [strto*] reads: the sign, the digits and the text from [endptr] on; with no
    digits there is no number ([endptr = str]). *)
Definition scan_number (base : Z) (str : list Z) : option (bool * list Z * list Z) :=
  let '(_, s) := span isspace str in
  let '(neg, s) := match s with
                   | c :: s' => if c =? 45 then (true, s') else if c =? 43 then (false, s') else (false, s)
                   | [] => (false, s)
                   end in
  let '(ds, rest) := span (is_digit_in base) (skip_0x base s) in
  match ds with [] => None | _ => Some (neg, ds, rest) end.

(** The value, [errno == ERANGE], and [endptr] ([None] when it is [str]). *)
Definition strtoull (base : Z) (str : list Z) : Z * bool * option (list Z) :=
  match scan_number base str with
  | None => (0, false, None)
  | Some (neg, ds, rest) =>
      let v := value_of base ds in
      if 2 ^ 64 <=? v then (2 ^ 64 - 1, true, Some rest)
      else (if neg then u64 (- v) else v, false, Some rest)
  end.
Definition strtoll (base : Z) (str : list Z) : Z * bool * option (list Z) :=
  match scan_number base str with
  | None => (0, false, None)
  | Some (neg, ds, rest) =>
      let v := if neg : bool then - value_of base ds else value_of base ds in
      if v <? - 2 ^ 63 then (- 2 ^ 63, true, Some rest)
      else if 2 ^ 63 <=? v then (2 ^ 63 - 1, true, Some rest)
      else (v, false, Some rest)
  end.

(** ** URI encoding *)

(** [uriencode_map] holds pointers into [uriencode_str]. *)
Record uri_tables := { uriencode_map : list (option nat); uriencode_str : list Z }.

Definition uri_plain (x : Z) : bool :=
  isalnum x || (x =? 45) || (x =? 46) || (x =? 95) || (x =? 126).
Definition hex_digit (d : Z) : Z := if d <? 10 then 48 + d else 55 + d.
(** The text of [snprintf(str, 4, "%%%02hhX", x)], its NUL included. *)
Definition uri_text (x : Z) : list Z := [37; hex_digit (x / 16); hex_digit (x mod 16); 0].

Definition uriencode_init : uri_tables :=
  let '(m, buf, _) :=
    fold_left (fun '(m, buf, str) x =>
      if uri_plain x then (m ++ [None], buf, str)
      else (m ++ [Some str], write str (uri_text x) buf, (str + 3)%nat))
      (Z.of_nat <$> seq 0 256) ([], replicate 768 0, 0%nat) in
  {| uriencode_map := m; uriencode_str := buf |}.

Fixpoint uriencode_loop (t : uri_tables) (src dst : list Z) (d : nat) : bool * list Z :=
  match src with
  | [] => (true, write d [0] dst)
  | c :: src =>
      if (length dst <? d + 4)%nat then (false, dst)
      else match default None (uriencode_map t !! Z.to_nat (u8 c)) with
           | Some str => uriencode_loop t src (write d (slice str 3 (uriencode_str t)) dst) (d + 3)
           | None => uriencode_loop t src (write d [c] dst) (d + 1)
           end
  end.
(** [dst] is the buffer of [dstlen] bytes. *)
Definition uriencode (t : uri_tables) (src dst : list Z) : bool * list Z :=
  uriencode_loop t src dst 0.

(** ** Number parsing: the result and the value stored in [*out] *)

Definition ends_number (rest : list Z) : bool :=
  isspace (byte_at rest 0) || (byte_at rest 0 =? 0).

Definition safe_strtoull_base (base : Z) (str : list Z) : bool * Z :=
  match strtoull base str with
  | (_, true, _) | (_, _, None) => (false, 0)
  | (ull, false, Some endptr) =>
      if ends_number endptr then
        if (s64 ull <? 0) && strchr str 45 then (false, 0) else (true, ull)
      else (false, 0)
  end.
Definition safe_strtoull (str : list Z) : bool * Z := safe_strtoull_base 10 str.
Definition safe_strtoull_hex (str : list Z) : bool * Z := safe_strtoull_base 16 str.

Definition safe_strtoll (str : list Z) : bool * Z :=
  match strtoll 10 str with
  | (_, true, _) | (_, _, None) => (false, 0)
  | (ll, false, Some endptr) => if ends_number endptr then (true, ll) else (false, 0)
  end.

(** [unsigned long] is 64 bits wide, [*out] 32. *)
Definition safe_strtoul (str : list Z) : bool * Z :=
  match strtoull 10 str with
  | (_, true, _) | (_, _, None) => (false, 0)
  | (l, false, Some endptr) =>
      if ends_number endptr then
        if (s64 l <? 0) && strchr str 45 then (false, 0) else (true, u32 l)
      else (false, 0)
  end.

Definition safe_strtol (str : list Z) : bool * Z :=
  match strtoll 10 str with
  | (_, true, _) | (_, _, None) => (false, 0)
  | (l, false, Some endptr) => if ends_number endptr then (true, s32 l) else (false, 0)
  end.

(** ** Copying and byte order *)

(** The loop of [safe_strcpy]: at most [n] bytes, from position [x] on. *)
Fixpoint strcpy_loop (n : nat) (src dst : list Z) (x : nat) : list Z * nat :=
  match n with
  | O => (dst, x)
  | S n => if byte_at src x =? 0 then (dst, x)
           else strcpy_loop n src (write x [byte_at src x] dst) (S x)
  end.
(** [dstmax] is at least one; [dstmax - 1] wraps to the largest [size_t] for zero. *)
Definition safe_strcpy (dst src : list Z) (dstmax : nat) : bool * list Z :=
  let '(dst, x) := strcpy_loop (dstmax - 1) src dst 0 in
  (byte_at src x =? 0, write x [0] dst).

Fixpoint swap_loop (n : nat) (rv inp : Z) : Z :=
  match n with
  | O => rv
  | S n => swap_loop n (s64 (Z.lor (u64 (Z.shiftl rv 8)) (Z.land inp 255))) (Z.shiftr inp 8)
  end.
Definition mc_swap64 (inp : Z) : Z := u64 (swap_loop 8 0 inp).
Definition ntohll (val : Z) : Z := mc_swap64 val.
Definition htonll (val : Z) : Z := mc_swap64 val.

(** ** URI encoding: what it produces *)

Definition uri_enc_byte (x : Z) : list Z := if uri_plain x then [x] else take 3 (uri_text x).
Definition uri_enc (src : list Z) : list Z := concat (uri_enc_byte <$> src).

(** The decoding of RFC 3986, for the comparison. *)
Fixpoint uridecode (l : list Z) : list Z :=
  match l with
  | c :: ((a :: b :: l'') as l') =>
      if c =? 37 then (16 * digit_val a + digit_val b) :: uridecode l'' else c :: uridecode l'
  | c :: l' => c :: uridecode l'
  | [] => []
  end.

Lemma byte_case (f : Z -> bool) :
  forallb f (Z.of_nat <$> seq 0 256) = true -> forall c, is_byte c = true -> f c = true.
Proof.
  intros Hf c Hc. unfold is_byte in Hc. zbool. rewrite forallb_forall in Hf. apply Hf.
  apply list_elem_of_In, list_elem_of_fmap. exists (Z.to_nat c).
  split; [lia|]. apply list_elem_of_In, in_seq. lia.
Qed.

(** The tables send every byte to its encoding. *)
Definition uri_entry_ok (t : uri_tables) (c : Z) : bool :=
  match default None (uriencode_map t !! Z.to_nat (u8 c)) with
  | Some str => bool_decide (slice str 3 (uriencode_str t) = uri_enc_byte c) &&
                (length (uri_enc_byte c) =? 3)%nat
  | None => bool_decide (uri_enc_byte c = [c])
  end.

Lemma uri_tables_checked :
  (fun t => forallb (uri_entry_ok t) (Z.of_nat <$> seq 0 256)) uriencode_init = true.
Proof. vm_compute. done. Qed.

Lemma uri_tables_spec c : is_byte c = true ->
  match default None (uriencode_map uriencode_init !! Z.to_nat (u8 c)) with
  | Some str => slice str 3 (uriencode_str uriencode_init) = uri_enc_byte c
                /\ length (uri_enc_byte c) = 3%nat
  | None => uri_enc_byte c = [c]
  end.
Proof.
  intros Hc. pose proof (byte_case _ uri_tables_checked c Hc) as H. unfold uri_entry_ok in H.
  destruct (default None _); [|by apply bool_decide_eq_true in H].
  apply andb_true_iff in H as [H Hl]. apply bool_decide_eq_true in H. by zbool.
Qed.

Lemma length_uri_enc_byte c : (1 <= length (uri_enc_byte c) <= 3)%nat.
Proof. unfold uri_enc_byte. case_if; cbn; lia. Qed.

(** One round of the loop: the test for room, then the encoding of one byte. *)
Lemma uriencode_loop_cons c src dst d : is_byte c = true ->
  uriencode_loop uriencode_init (c :: src) dst d
  = if (length dst <? d + 4)%nat then (false, dst)
    else uriencode_loop uriencode_init src (write d (uri_enc_byte c) dst)
           (d + length (uri_enc_byte c)).
Proof.
  intros Hc. pose proof (uri_tables_spec c Hc) as Ht.
  cbn [uriencode_loop]. destruct (_ <? _)%nat; [done|].
  destruct (default None _) as [str|].
  - destruct Ht as [Ht Hl]. by rewrite Hl, Ht.
  - by rewrite Ht.
Qed.

(** The bytes the loop needs from its position on for a non-empty source. *)
Definition uri_need (src : list Z) : nat := (length (uri_enc (removelast src)) + 4)%nat.

Lemma uri_enc_cons c src : uri_enc (c :: src) = uri_enc_byte c ++ uri_enc src.
Proof. done. Qed.

Lemma uri_need_cons c c' src :
  uri_need (c :: c' :: src) = (length (uri_enc_byte c) + uri_need (c' :: src))%nat.
Proof.
  unfold uri_need. change (removelast (c :: c' :: src)) with (c :: removelast (c' :: src)).
  rewrite uri_enc_cons, length_app. lia.
Qed.

Lemma uriencode_loop_spec src dst d :
  Forall (fun c => is_byte c = true) src -> src <> [] ->
  let r := uriencode_loop uriencode_init src dst d in
  length (snd r) = length dst /\
  if (d + uri_need src <=? length dst)%nat
  then r = (true, write d (uri_enc src ++ [0]) dst) else fst r = false.
Proof.
  revert dst d. induction src as [|c src IH]; intros dst d Hb Hne; [done|].
  inversion_clear Hb as [|?? Hc Hs]. rewrite uriencode_loop_cons by done.
  pose proof (length_uri_enc_byte c) as Hl. cbn zeta.
  destruct src as [|c' src].
  - unfold uri_need. cbn [removelast uri_enc uriencode_loop fmap list_fmap concat length].
    destruct (Nat.ltb_spec (length dst) (d + 4)) as [Hd|Hd].
    + split; [done|]. rewrite (proj2 (Nat.leb_gt _ _)) by lia. done.
    + rewrite (proj2 (Nat.leb_le _ _)) by lia. unfold snd.
      rewrite write_write_next by lia. rewrite length_write by (rewrite length_app; cbn; lia).
      unfold uri_enc. cbn. by rewrite app_nil_r.
  - rewrite uri_need_cons, Nat.add_assoc.
    destruct (Nat.ltb_spec (length dst) (d + 4)) as [Hd|Hd].
    + split; [done|]. rewrite (proj2 (Nat.leb_gt _ _)) by (unfold uri_need; lia). done.
    + assert (length (write d (uri_enc_byte c) dst) = length dst) as Hw
        by (rewrite length_write; lia).
      destruct (IH (write d (uri_enc_byte c) dst) (d + length (uri_enc_byte c))%nat)
        as [Hlen Hr]; [done|done|].
      cbn zeta in Hlen, Hr. rewrite Hw in Hlen, Hr. split; [done|].
      destruct (_ <=? _)%nat; [|done]. rewrite Hr, write_write_next by lia.
      by rewrite (uri_enc_cons c), app_assoc.
Qed.

Definition uri_decodes (c : Z) : bool :=
  bool_decide (uridecode (uri_enc_byte c) = [c]) &&
  if uri_plain c then negb (c =? 37) else true.

Lemma uridecode_enc_byte c l : is_byte c = true ->
  uridecode (uri_enc_byte c ++ l) = c :: uridecode l.
Proof.
  intros Hc. pose proof (byte_case uri_decodes ltac:(vm_compute; done) c Hc) as H.
  unfold uri_decodes, uri_enc_byte in *. apply andb_true_iff in H as [H Hp].
  apply bool_decide_eq_true in H. destruct (uri_plain c) eqn:Hpl.
  - zbool. cbn [app]. destruct l as [|a [|b l]]; [done|done|]. cbn [uridecode].
    by rewrite (proj2 (Z.eqb_neq _ _)).
  - cbn in H |- *. by injection H as ->.
Qed.

Lemma uridecode_enc src : Forall (fun c => is_byte c = true) src -> uridecode (uri_enc src) = src.
Proof.
  induction 1 as [|c src Hc _ IH]; [done|]. by rewrite uri_enc_cons, uridecode_enc_byte, IH.
Qed.

(** With the tables of [uriencode_init], [uriencode] never writes outside its
    destination; it succeeds exactly when four bytes are left before the last byte of
    the source, and then the destination starts with a NUL-terminated text that
    decodes to the source. *)
Theorem uriencode_roundtrip (src dst : list Z) :
  Forall (fun c => is_byte c = true) src -> src <> [] ->
  let r := uriencode uriencode_init src dst in
  length (snd r) = length dst /\
  fst r = (uri_need src <=? length dst)%nat /\
  (fst r = true ->
   snd r = write 0 (uri_enc src ++ [0]) dst /\ uridecode (uri_enc src) = src).
Proof.
  intros Hb Hne. cbn zeta. unfold uriencode.
  destruct (uriencode_loop_spec src dst 0 Hb Hne) as [Hl Hr]. split; [done|].
  cbn [Nat.add] in Hr. destruct (_ <=? _)%nat; rewrite Hr; [|by split].
  split; [done|]. intros _. split; [done|]. by apply uridecode_enc.
Qed.

Lemma uriencode_roundtrip_witness :
  let r := uriencode uriencode_init (bytes "a b/~") (replicate 12 7) in
  fst r = true /\ snd r = bytes "a%20b%2F~" ++ [0; 7; 7].
Proof.
  destruct (uriencode_roundtrip (bytes "a b/~") (replicate 12 7)) as (_ & Hf & Hs);
    [repeat constructor|done|].
  split; [rewrite Hf; reflexivity|]. apply Hs. rewrite Hf. reflexivity.
Defined.

(** ** Number parsing *)

Lemma span_app_l f a b : Forall (fun c => f c = true) a ->
  (forall c l, b = c :: l -> f c = false) -> span f (a ++ b) = (a, b).
Proof.
  intros Ha Hb. induction Ha as [|c a Hc _ IH]; cbn.
  - destruct b as [|c l]; [done|]. cbn. by rewrite (Hb c l).
  - by rewrite Hc, IH.
Qed.

(** Decimal digits and the number they stand for. *)
Lemma dpad_digits n u : Forall (fun c => isdigit c = true) (dpad n u).
Proof.
  revert u. induction n as [|n IH]; intros u; cbn; [constructor|].
  apply Forall_app. split; [done|]. repeat constructor. unfold isdigit.
  pose proof (Z.mod_pos_bound u 10 ltac:(lia)).
  apply andb_true_iff. split; apply Z.leb_le; lia.
Qed.

Lemma value_of_app base a b :
  value_of base (a ++ b) = fold_left (fun v c => v * base + digit_val c) b (value_of base a).
Proof. apply fold_left_app. Qed.

Lemma value_dpad n u : 0 <= u < 10 ^ Z.of_nat n -> value_of 10 (dpad n u) = u.
Proof.
  revert u. induction n as [|n IH]; intros u Hu; [cbn in *; lia|].
  cbn [dpad]. rewrite value_of_app. cbn [fold_left].
  rewrite Nat2Z.inj_succ, Z.pow_succ_r in Hu by lia.
  rewrite IH by (split; [apply Z.div_pos; lia|apply Z.div_lt_upper_bound; lia]).
  pose proof (Z.mod_pos_bound u 10 ltac:(lia)).
  assert (digit_val (48 + u mod 10) = u mod 10) as ->.
  { unfold digit_val, isdigit. rewrite (proj2 (Z.leb_le _ _)), (proj2 (Z.leb_le _ _)) by lia. cbn. lia. }
  rewrite (Z.div_mod u 10) at 3 by lia. lia.
Qed.

Lemma isdigit_range c : isdigit c = true <-> 48 <= c <= 57.
Proof. unfold isdigit. rewrite andb_true_iff, !Z.leb_le. done. Qed.

Lemma isdigit_in_10 c : isdigit c = true -> is_digit_in 10 c = true.
Proof.
  intros H. unfold is_digit_in, digit_val. rewrite H. apply isdigit_range in H.
  apply Z.ltb_lt. lia.
Qed.

Lemma not_digit_in_10 c : is_digit_in 10 c = true -> isdigit c = true.
Proof.
  unfold is_digit_in, digit_val. destruct (isdigit c) eqn:Hd; [done|].
  unfold isupper, islower. repeat case_if; zbool; lia.
Qed.

Lemma ends_number_not_digit rest c l : ends_number rest = true -> rest = c :: l ->
  is_digit_in 10 c = false.
Proof.
  intros He ->. destruct (is_digit_in 10 c) eqn:Hd; [|done].
  apply not_digit_in_10, isdigit_range in Hd. unfold ends_number, byte_at, isspace in He. cbn in He.
  apply orb_true_iff in He as [He|He]; [apply orb_true_iff in He as [He|He]|]; zbool; lia.
Qed.

Lemma skip_0x_10 s : skip_0x 10 s = s.
Proof. by destruct s as [|? [|? [|? ?]]]. Qed.

(** Unsigned decimal digits that are ended by a space or the NUL are scanned whole. *)
Lemma scan_digits ds rest : ds <> [] -> Forall (fun c => isdigit c = true) ds ->
  ends_number rest = true -> scan_number 10 (ds ++ rest) = Some (false, ds, rest).
Proof.
  intros Hne Hd He. destruct ds as [|c ds]; [done|].
  assert (isdigit c = true) as Hc by (by inversion Hd). apply isdigit_range in Hc.
  unfold scan_number. cbn [app span].
  assert (isspace c = false) as ->.
  { unfold isspace. apply orb_false_iff. split; [apply Z.eqb_neq; lia|].
    apply andb_false_iff. right. apply Z.leb_gt. lia. }
  rewrite (proj2 (Z.eqb_neq c 45)), (proj2 (Z.eqb_neq c 43)) by lia.
  rewrite skip_0x_10. change (c :: ds ++ rest) with ((c :: ds) ++ rest).
  rewrite span_app_l; [done| |].
  - eapply Forall_impl; [done|]. intros ?. apply isdigit_in_10.
  - intros c' l' Hr. by eapply ends_number_not_digit.
Qed.

Lemma c_str_app l r : Forall (fun c => c <> 0) l -> c_str (l ++ 0 :: r) = l.
Proof.
  induction 1 as [|c l Hc _ IH]; [done|]. cbn. rewrite (proj2 (Z.eqb_neq _ _)) by done. by rewrite IH.
Qed.

Lemma value_decimal u : 0 <= u < 10 ^ 20 -> value_of 10 (decimal u) = u.
Proof.
  intros Hu. unfold decimal. destruct (ndigits_range 20 u) as (n & -> & _ & _ & Hhi); [lia..|].
  apply value_dpad. lia.
Qed.

(** A number printed in decimal and ended by a NUL reads back. *)
Lemma safe_strtoull_decimal u rest : 0 <= u < 2 ^ 64 ->
  safe_strtoull (decimal u ++ 0 :: rest) = (true, u).
Proof.
  intros Hu. assert (decimal u <> []) as Hne.
  { intros ?%(f_equal length). pose proof (length_decimal u 20). cbn in *. lia. }
  assert (Forall (fun c => isdigit c = true) (decimal u)) as Hd by apply dpad_digits.
  unfold safe_strtoull, safe_strtoull_base, strtoull. rewrite scan_digits by done.
  rewrite value_decimal by lia. rewrite (proj2 (Z.leb_gt _ _)) by lia.
  change (ends_number (0 :: rest)) with true.
  assert (strchr (decimal u ++ 0 :: rest) 45 = false) as ->; [|by rewrite andb_false_r].
  unfold strchr. rewrite c_str_app.
  - apply not_true_iff_false. rewrite existsb_exists. intros (c & Hc & Heq). zbool. subst c.
    rewrite Forall_forall in Hd. apply list_elem_of_In in Hc. specialize (Hd 45 Hc). done.
  - eapply Forall_impl; [done|]. cbn. intros c Hc%isdigit_range. lia.
Qed.

(** What [itoa_u64] writes into a buffer, [safe_strtoull] reads back from there:
    the decimal texts the server stores for counters and prints in its replies parse
    to the number they were printed from, for every unsigned 64-bit value. *)
Theorem itoa_strtoull_roundtrip (u : Z) (buf : list Z) (p : nat) :
  0 <= u < 2 ^ 64 -> (p + 21 <= length buf)%nat ->
  safe_strtoull (drop p (fst (itoa_u64 u (buf, p)))) = (true, u).
Proof.
  intros Hu Hp. rewrite itoa_u64_spec by (done || (unfold room; cbn; lia)).
  unfold terminate, put. cbn [fst]. rewrite write_write_next by lia. unfold write.
  rewrite drop_app_ge by (rewrite length_take; lia).
  rewrite length_take, Nat.min_l, Nat.sub_diag, drop_0, <- app_assoc by lia.
  by apply safe_strtoull_decimal.
Qed.

Lemma itoa_strtoull_roundtrip_witness :
  safe_strtoull (drop 3 (fst (itoa_u64 18446744073709551615 (replicate 24 45, 3%nat))))
  = (true, 18446744073709551615).
Proof. apply (itoa_strtoull_roundtrip 18446744073709551615 (replicate 24 45) 3); [lia|cbn; lia]. Defined.

(** The 32-bit parser accepts numbers that do not fit and keeps their low 32 bits, and
    a negative number is accepted when its wrapped value is small. *)
Lemma safe_strtoul_truncates :
  safe_strtoul (bytes "4294967299") = (true, 3) /\
  safe_strtoull (bytes "-18446744073709551615") = (true, 1).
Proof. by vm_compute. Qed.

(** ** Copying and byte order *)

Lemma strcpy_loop_spec n src dst x :
  Forall (fun c => c <> 0) src -> (x + n < length dst)%nat -> (x <= length src)%nat ->
  strcpy_loop n src dst x
  = (write x (slice x n src) dst, (x + length (slice x n src))%nat).
Proof.
  intros Hs. revert dst x. induction n as [|n IH]; intros dst x Hd Hx.
  { cbn [strcpy_loop]. unfold slice. rewrite take_0, write_nil. cbn. by rewrite Nat.add_0_r. }
  cbn [strcpy_loop]. unfold byte_at. destruct (src !! x) as [c|] eqn:Hc.
  - assert (slice x (S n) src = c :: slice (S x) n src) as Hsl.
    { unfold slice. by rewrite (drop_S src c x Hc). }
    rewrite (nth_lookup_Some _ _ _ _ Hc).
    assert (c <> 0) by (rewrite Forall_forall in Hs; apply Hs; by eapply list_elem_of_lookup_2).
    rewrite (proj2 (Z.eqb_neq _ _)) by done.
    rewrite IH; [| |by apply lookup_lt_Some in Hc].
    2:{ rewrite length_write; cbn; lia. }
    rewrite Hsl. replace (S x) with (x + length [c])%nat at 1 by (cbn; lia).
    rewrite write_write_next by lia. cbn. f_equal. lia.
  - apply lookup_ge_None in Hc. rewrite nth_overflow by done. rewrite Z.eqb_refl.
    unfold slice. rewrite drop_ge by done. rewrite take_nil, write_nil. cbn. by rewrite Nat.add_0_r.
Qed.

(** [safe_strcpy] copies what fits, always ends it with a NUL, and tells whether it was
    the whole string. *)
Lemma safe_strcpy_spec dst src dstmax :
  Forall (fun c => c <> 0) src -> (0 < dstmax <= length dst)%nat ->
  safe_strcpy dst src dstmax
  = ((length src <? dstmax)%nat, write 0 (take (dstmax - 1) src ++ [0]) dst).
Proof.
  intros Hs Hd. unfold safe_strcpy. rewrite strcpy_loop_spec by (done || lia).
  unfold slice. rewrite drop_0, write_write_next by lia. f_equal.
  rewrite Nat.add_0_l, length_take. unfold byte_at.
  destruct (Nat.ltb_spec (length src) dstmax) as [Hl|Hl].
  - rewrite nth_overflow by lia. done.
  - destruct (lookup_lt_is_Some_2 src (dstmax - 1)) as [c Hc]; [lia|].
    rewrite Nat.min_l by lia. rewrite (nth_lookup_Some _ _ _ _ Hc). apply Z.eqb_neq.
    rewrite Forall_forall in Hs. apply Hs. by eapply list_elem_of_lookup_2.
Qed.

(** One round of [mc_swap64]. *)
Lemma swap_loop_step n rv b inp : 0 <= rv < 2 ^ 56 -> 0 <= b < 256 -> 0 <= inp ->
  swap_loop (S n) rv (b + 256 * inp) = swap_loop n (s64 (b + 256 * rv)) inp.
Proof.
  intros Hr Hb Hi. cbn [swap_loop].
  assert (b + 256 * inp = b + inp * 2 ^ 8) as -> by lia. f_equal.
  - rewrite Z.shiftl_mul_pow2 by lia. rewrite (wrap_small 64) by lia.
    change 255 with (Z.ones 8). rewrite Z.land_ones, Z.mod_add, Z.mod_small by lia.
    assert (Z.land (rv * 2 ^ 8) b = 0) as H0.
    { apply Z.bits_inj'. intros k Hk. rewrite Z.land_spec, Z.bits_0, Z.mul_pow2_bits by lia.
      destruct (Z.ltb_spec k 8).
      - rewrite (Z.testbit_neg_r rv) by lia. done.
      - rewrite <- (Z.mod_small b (2 ^ 8)) by lia. rewrite Z.mod_pow2_bits_high by lia.
        apply andb_false_r. }
    f_equal. pose proof (Z.add_lor_land (rv * 2 ^ 8) b). lia.
  - rewrite Z.shiftr_div_pow2, Z.div_add, Z.div_small by lia. lia.
Qed.

Lemma s64_small x : 0 <= x < 2 ^ 63 -> s64 x = x.
Proof.
  intros Hx. unfold signed. cbn zeta. rewrite wrap_small by lia.
  by rewrite (proj2 (Z.ltb_lt _ _)) by lia.
Qed.

(** [mc_swap64] reverses the eight bytes of its argument. *)
Lemma mc_swap64_bytes b0 b1 b2 b3 b4 b5 b6 b7 :
  Forall (fun b => 0 <= b < 256) [b0; b1; b2; b3; b4; b5; b6; b7] ->
  let word a0 a1 a2 a3 a4 a5 a6 a7 :=
    a0 + 256 * (a1 + 256 * (a2 + 256 * (a3 + 256 * (a4 + 256 * (a5 + 256 * (a6 + 256 * a7)))))) in
  mc_swap64 (word b0 b1 b2 b3 b4 b5 b6 b7) = word b7 b6 b5 b4 b3 b2 b1 b0.
Proof.
  intros H. rewrite !Forall_cons in H. destruct H as (?&?&?&?&?&?&?&?&_). cbn zeta.
  unfold mc_swap64. rewrite <- (Z.add_0_r b7) at 1. replace 0 with (256 * 0) at 2 by lia.
  do 7 (rewrite swap_loop_step by lia; rewrite s64_small by lia).
  rewrite swap_loop_step by lia. cbn [swap_loop]. rewrite wrap_signed, wrap_small by lia. lia.
Qed.

Lemma word_of_bytes x : 0 <= x < 2 ^ 64 -> exists b0 b1 b2 b3 b4 b5 b6 b7,
  Forall (fun b => 0 <= b < 256) [b0; b1; b2; b3; b4; b5; b6; b7] /\
  x = b0 + 256 * (b1 + 256 * (b2 + 256 * (b3 + 256 * (b4 + 256 * (b5 + 256 * (b6 + 256 * b7)))))).
Proof.
  intros Hx. pose (q i := x / 256 ^ i).
  assert (forall i j, 0 <= i -> j = i + 1 -> q i = q i mod 256 + 256 * q j) as Hq.
  { intros i j Hi ->. unfold q. rewrite Z.pow_add_r, Z.pow_1_r, <- Z.div_div by lia.
    rewrite (Z.div_mod (x / 256 ^ i) 256) at 1 by lia. lia. }
  assert (forall i, 0 <= q i mod 256 < 256) as Hm by (intros; apply Z.mod_pos_bound; lia).
  assert (q 7 mod 256 = q 7) as H7.
  { apply Z.mod_small. unfold q. split; [apply Z.div_pos; lia|apply Z.div_lt_upper_bound; lia]. }
  exists (q 0 mod 256), (q 1 mod 256), (q 2 mod 256), (q 3 mod 256),
    (q 4 mod 256), (q 5 mod 256), (q 6 mod 256), (q 7 mod 256).
  split; [repeat constructor; apply Hm|]. rewrite H7.
  pose proof (Hq 0 1). pose proof (Hq 1 2). pose proof (Hq 2 3). pose proof (Hq 3 4).
  pose proof (Hq 4 5). pose proof (Hq 5 6). pose proof (Hq 6 7).
  assert (q 0 = x) by apply Z.div_1_r. clearbody q. lia.
Qed.

Lemma mc_swap64_involutive x : 0 <= x < 2 ^ 64 -> ntohll (htonll x) = x.
Proof.
  intros Hx. destruct (word_of_bytes x Hx) as (b0&b1&b2&b3&b4&b5&b6&b7&Hb&->).
  unfold ntohll, htonll. rewrite (mc_swap64_bytes b0 b1 b2 b3 b4 b5 b6 b7) by done.
  apply (mc_swap64_bytes b7 b6 b5 b4 b3 b2 b1 b0).
  rewrite !Forall_cons in *. tauto.
Qed.
