(* ===== verification/McBipbuffer.v ===== *)
(** The bip buffer (src/memcached-sr/bipbuffer.c), the byte queue behind the logger,
    the LRU bump buffers and the crawler's output.

    [data] is the flexible array of the structure.  The fields are machine integers:
    [size] is an [unsigned long], the region bounds are [unsigned int] and the
    functions that return free space return [int], so the differences wrap as in C. *)
From S2P Require Import Prelude McItoa.

(** ** The structure and its operations *)

Record bipbuf_t := {
  size : Z;
  a_start : Z; a_end : Z;
  b_end : Z;
  b_inuse : Z;
  data : list Z
}.

Definition bipbuf_unused (me : bipbuf_t) : Z :=
  if 1 =? b_inuse me then s32 (u32 (a_start me - b_end me))
  else s32 (u64 (size me - a_end me)).

Definition bipbuf_size (me : bipbuf_t) : Z := s32 (size me).

Definition bipbuf_used (me : bipbuf_t) : Z :=
  s32 (u32 (u32 (a_end me - a_start me) + b_end me)).

Definition bipbuf_init (me : bipbuf_t) (sz : Z) : bipbuf_t :=
  {| size := sz; a_start := 0; a_end := 0; b_end := 0; b_inuse := 0; data := data me |}.

(** [malloc] gives memory with arbitrary contents, or nothing. *)
Definition bipbuf_new (malloc : Z -> option bipbuf_t) (sz : Z) : option bipbuf_t :=
  match malloc sz with
  | None => None
  | Some me => Some (bipbuf_init me sz)
  end.

Definition bipbuf_is_empty (me : bipbuf_t) : bool := a_start me =? a_end me.

Definition check_for_switch_to_b (me : bipbuf_t) : bipbuf_t :=
  if u64 (size me - a_end me) <? u32 (a_start me - b_end me) then
    {| size := size me; a_start := a_start me; a_end := a_end me; b_end := b_end me;
       b_inuse := 1; data := data me |}
  else me.

(** A pointer into [data] is its offset. *)
Definition bipbuf_request (me : bipbuf_t) (sz : Z) : option Z :=
  if bipbuf_unused me <? sz then None
  else if 1 =? b_inuse me then Some (b_end me) else Some (a_end me).

(** Moving the end of the region in use, as [bipbuf_push] and [bipbuf_offer] do. *)
Definition advance (me : bipbuf_t) (sz : Z) : bipbuf_t :=
  if 1 =? b_inuse me then
    {| size := size me; a_start := a_start me; a_end := a_end me;
       b_end := u32 (b_end me + sz); b_inuse := b_inuse me; data := data me |}
  else
    {| size := size me; a_start := a_start me; a_end := u32 (a_end me + sz);
       b_end := b_end me; b_inuse := b_inuse me; data := data me |}.

Definition bipbuf_push (me : bipbuf_t) (sz : Z) : Z * bipbuf_t :=
  if bipbuf_unused me <? sz then (0, me)
  else (sz, check_for_switch_to_b (advance me sz)).

Definition set_data (me : bipbuf_t) (d : list Z) : bipbuf_t :=
  {| size := size me; a_start := a_start me; a_end := a_end me; b_end := b_end me;
     b_inuse := b_inuse me; data := d |}.

(** [memcpy(me->data + off, d, size)]. *)
Definition poke (me : bipbuf_t) (off : Z) (d : list Z) : bipbuf_t :=
  set_data me (write (Z.to_nat off) d (data me)).

Definition bipbuf_offer (me : bipbuf_t) (d : list Z) : Z * bipbuf_t :=
  let sz := Z.of_nat (length d) in
  if bipbuf_unused me <? sz then (0, me)
  else
    let me := poke me (if 1 =? b_inuse me then b_end me else a_end me) d in
    (sz, check_for_switch_to_b (advance me sz)).

Definition bipbuf_peek (me : bipbuf_t) (sz : Z) : option Z :=
  if size me <? u32 (a_start me + sz) then None
  else if bipbuf_is_empty me then None
  else Some (a_start me).

(** The pointer and the size stored through the second argument. *)
Definition bipbuf_peek_all (me : bipbuf_t) : option (Z * Z) :=
  if bipbuf_is_empty me then None
  else Some (a_start me, u32 (a_end me - a_start me)).

Definition bipbuf_poll (me : bipbuf_t) (sz : Z) : option Z * bipbuf_t :=
  if bipbuf_is_empty me then (None, me)
  else if size me <? u32 (a_start me + sz) then (None, me)
  else
    let ptr := a_start me in
    let start := u32 (a_start me + sz) in
    let me :=
      if start =? a_end me then
        if 1 =? b_inuse me then
          {| size := size me; a_start := 0; a_end := b_end me; b_end := 0;
             b_inuse := 0; data := data me |}
        else
          {| size := size me; a_start := 0; a_end := 0; b_end := b_end me;
             b_inuse := b_inuse me; data := data me |}
      else
        {| size := size me; a_start := start; a_end := a_end me; b_end := b_end me;
           b_inuse := b_inuse me; data := data me |} in
    (Some ptr, check_for_switch_to_b me).

(** ** Invariant and contents *)

Record bip_wf (me : bipbuf_t) : Prop := {
  wf_size : 0 <= size me < 2 ^ 31;
  wf_data : Z.of_nat (length (data me)) = size me;
  wf_a : 0 <= a_start me <= a_end me;
  wf_a_end : a_end me <= size me;
  wf_b : b_inuse me = 0 /\ b_end me = 0 \/ b_inuse me = 1 /\ 0 <= b_end me <= a_start me;
  (** Region A is empty only in an empty buffer. *)
  wf_empty : a_start me = a_end me -> a_start me = 0 /\ b_inuse me = 0
}.

Definition region (l : list Z) (lo hi : Z) : list Z :=
  slice (Z.to_nat lo) (Z.to_nat (hi - lo)) l.

(** The queue: region A, then region B. *)
Definition contents (me : bipbuf_t) : list Z :=
  region (data me) (a_start me) (a_end me) ++ region (data me) 0 (b_end me).

(** ** What the clients do *)

(** [Offer d] copies [d] in; [Reserve n d] asks for [n] bytes, stores [d] at the pointer
    and pushes its length, as the logger and the bump buffers do; [Poll n] reads at most
    [n] of the bytes that [bipbuf_peek_all] shows and consumes them. *)
Inductive bip_op := Offer (d : list Z) | Reserve (n : Z) (d : list Z) | Poll (n : Z).

(** The new buffer, the bytes it took in and the bytes it gave out. *)
Definition bip_step (me : bipbuf_t) (o : bip_op) : bipbuf_t * list Z * list Z :=
  match o with
  | Offer d =>
      let '(r, me') := bipbuf_offer me d in (me', if r =? 0 then [] else d, [])
  | Reserve n d =>
      match bipbuf_request me n with
      | None => (me, [], [])
      | Some off =>
          let '(r, me') := bipbuf_push (poke me off d) (Z.of_nat (length d)) in
          (me', if r =? 0 then [] else d, [])
      end
  | Poll n =>
      match bipbuf_peek_all me with
      | None => (me, [], [])
      | Some (off, sz) =>
          let n := Z.min n sz in
          let out := region (data me) off (off + n) in
          (snd (bipbuf_poll me n), [], out)
      end
  end.

Definition op_ok (o : bip_op) : Prop :=
  match o with
  | Offer d => Z.of_nat (length d) < 2 ^ 31
  | Reserve n d => 0 <= Z.of_nat (length d) <= n /\ n < 2 ^ 31
  | Poll n => 0 <= n
  end.

Definition bip_run (ops : list bip_op) (me : bipbuf_t) : bipbuf_t * list Z * list Z :=
  fold_left (fun '(me, tin, tout) o =>
    let '(me', i, out) := bip_step me o in (me', tin ++ i, tout ++ out)) ops (me, [], []).

(** ** Proofs *)

Lemma s32_small x : - 2 ^ 31 <= x < 2 ^ 31 -> s32 x = x.
Proof.
  intros Hx. unfold signed. cbn zeta. destruct (Z.ltb_spec x 0).
  - assert (wrap 32 x = x + 2 ^ 32) as ->.
    { unfold wrap. symmetry. apply Z.mod_unique with (-1); lia. }
    rewrite (proj2 (Z.ltb_ge _ _)); lia.
  - rewrite wrap_small by lia. rewrite (proj2 (Z.ltb_lt _ _)); lia.
Qed.

Lemma unused_spec me : bip_wf me ->
  bipbuf_unused me = if 1 =? b_inuse me then a_start me - b_end me else size me - a_end me.
Proof.
  intros [? ? ? ? Hb ?]. unfold bipbuf_unused.
  destruct Hb as [[-> ->]|[-> ?]]; cbn [Z.eqb Pos.eqb];
    rewrite wrap_small by lia; rewrite s32_small by lia; done.
Qed.

(** Turning on region B keeps the invariant and the queue. *)
Lemma switch_wf me : bip_wf me ->
  bip_wf (check_for_switch_to_b me) /\ contents (check_for_switch_to_b me) = contents me.
Proof.
  intros Hwf. unfold check_for_switch_to_b. case_if; [|done].
  destruct Hwf as [? ? ? ? Hb He]. rewrite (wrap_small 32), wrap_small in * by lia.
  split; [|done]. split; cbn in *; try done; try lia.
Qed.

Lemma region_write_other l off d lo hi :
  0 <= lo <= hi -> 0 <= off ->
  hi <= off \/ off + Z.of_nat (length d) <= lo ->
  off + Z.of_nat (length d) <= Z.of_nat (length l) ->
  region (write (Z.to_nat off) d l) lo hi = region l lo hi.
Proof.
  intros Hl Ho Hd Hm. unfold region.
  destruct Hd; [rewrite slice_write_before|rewrite slice_write_after]; lia || done.
Qed.

(** Region bytes split at any point inside. *)
Lemma region_split l lo mid hi :
  0 <= lo <= mid -> mid <= hi -> region l lo hi = region l lo mid ++ region l mid hi.
Proof.
  intros Hl Hm. unfold region, slice.
  replace (Z.to_nat mid) with (Z.to_nat lo + Z.to_nat (mid - lo))%nat by lia.
  rewrite <- drop_drop.
  replace (Z.to_nat (hi - lo)) with (Z.to_nat (mid - lo) + Z.to_nat (hi - mid))%nat by lia.
  by rewrite take_take_drop.
Qed.

Lemma region_write_same l off d : 0 <= off ->
  off + Z.of_nat (length d) <= Z.of_nat (length l) ->
  region (write (Z.to_nat off) d l) off (off + Z.of_nat (length d)) = d.
Proof.
  intros Ho Hm. unfold region.
  replace (Z.to_nat (off + Z.of_nat (length d) - off)) with (length d) by lia.
  apply slice_write_same. lia.
Qed.

Lemma region_empty l lo : region l lo lo = [].
Proof. unfold region, slice. by rewrite Z.sub_diag. Qed.

(** Storing [d] behind a region appends [d] to it. *)
Lemma region_write_append l lo hi d : 0 <= lo <= hi ->
  hi + Z.of_nat (length d) <= Z.of_nat (length l) ->
  region (write (Z.to_nat hi) d l) lo (hi + Z.of_nat (length d)) = region l lo hi ++ d.
Proof.
  intros Hl Hd. rewrite (region_split _ lo hi) by lia.
  by rewrite region_write_same, region_write_other by lia.
Qed.

(** Storing [d] at the end of the region in use and moving that end appends [d]. *)
Lemma store_advance me d : bip_wf me -> Z.of_nat (length d) <= bipbuf_unused me ->
  let me1 := poke me (if 1 =? b_inuse me then b_end me else a_end me) d in
  let me' := advance me1 (Z.of_nat (length d)) in
  bip_wf me' /\ contents me' = contents me ++ d.
Proof.
  intros Hwf Hd. rewrite (unused_spec me Hwf) in Hd.
  destruct me as [sz as_ ae be inuse dat].
  pose proof Hwf as [? Hdat ? ? Hb He]. cbn -[write contents Z.pow] in *.
  unfold contents, poke, set_data, advance. cbn -[write Z.pow].
  destruct Hb as [[-> ->]|[-> Hbe]]; cbn -[write Z.pow] in *; rewrite wrap_small by lia.
  - split; [split; cbn -[write Z.pow]; try rewrite length_write; lia|].
    rewrite region_write_append, !region_empty, !app_nil_r by lia. done.
  - split; [split; cbn -[write Z.pow]; try rewrite length_write; lia|].
    rewrite region_write_append, region_write_other by lia. by rewrite app_assoc.
Qed.

(** Consuming bytes of region A removes them from the front of the queue. *)
Lemma poll_spec me n : bip_wf me -> bipbuf_is_empty me = false ->
  0 <= n <= a_end me - a_start me ->
  let '(ptr, me') := bipbuf_poll me n in
  ptr = Some (a_start me) /\ bip_wf me' /\
  contents me = region (data me) (a_start me) (a_start me + n) ++ contents me'.
Proof.
  intros Hwf Hne Hn. unfold bipbuf_poll. rewrite Hne.
  pose proof Hwf as [? Hdat ? ? Hb He]. unfold bipbuf_is_empty in Hne. zbool.
  rewrite wrap_small by lia. rewrite (proj2 (Z.ltb_ge _ _)) by lia.
  match goal with |- context [check_for_switch_to_b ?m] => set (me' := m) end.
  assert (bip_wf me' /\ contents me
    = region (data me) (a_start me) (a_start me + n) ++ contents me') as [Hwf' Hc].
  { destruct me as [sz as_ ae be inuse dat]. unfold contents. cbn -[Z.pow] in *. subst me'.
    destruct Hb as [[-> ->]|[-> Hbe]]; cbn -[Z.pow]; case_if; cbn -[Z.pow];
      (split; [split; cbn -[Z.pow]; lia|]).
    - subst ae. rewrite !region_empty, !app_nil_r. done.
    - rewrite (region_split dat as_ (as_ + n) ae) by lia. by rewrite app_assoc.
    - subst ae. by rewrite !region_empty, !app_nil_r.
    - rewrite (region_split dat as_ (as_ + n) ae) by lia. by rewrite app_assoc. }
  destruct (switch_wf me' Hwf') as [? Hs]. split; [done|]. split; [done|]. by rewrite Hs.
Qed.

Lemma taken_in (d : list Z) : (if Z.of_nat (length d) =? 0 then [] else d) = d.
Proof. by destruct d. Qed.

(** One client operation keeps the invariant and moves bytes through the queue in order. *)
Lemma bip_step_spec me o : bip_wf me -> op_ok o ->
  let '(me', i, out) := bip_step me o in
  bip_wf me' /\ size me' = size me /\ contents me ++ i = out ++ contents me'.
Proof.
  intros Hwf Ho.
  assert (forall d, Z.of_nat (length d) <= bipbuf_unused me ->
    let me1 := poke me (if 1 =? b_inuse me then b_end me else a_end me) d in
    let me' := check_for_switch_to_b (advance me1 (Z.of_nat (length d))) in
    bip_wf me' /\ size me' = size me /\ contents me ++ d = contents me') as Hst.
  { intros d Hd. destruct (store_advance me d Hwf Hd) as [Hwf' Hc]. cbn zeta.
    destruct (switch_wf _ Hwf') as [? ->]. split_and!; [done| |by rewrite Hc].
    unfold check_for_switch_to_b, advance. repeat case_if; done. }
  destruct o as [d|n d|n]; cbn [bip_step op_ok] in *.
  - unfold bipbuf_offer. cbn zeta. case_if; cbn [app].
    + rewrite Z.eqb_refl, app_nil_r. done.
    + rewrite taken_in. by apply Hst.
  - unfold bipbuf_request. case_if; [by rewrite app_nil_r|].
    assert ((if 1 =? b_inuse me then Some (b_end me) else Some (a_end me))
      = Some (if 1 =? b_inuse me then b_end me else a_end me)) as -> by (by case_if).
    unfold bipbuf_push. change (bipbuf_unused (poke me _ d)) with (bipbuf_unused me).
    rewrite (proj2 (Z.ltb_ge _ _)) by lia. rewrite taken_in. apply Hst. lia.
  - unfold bipbuf_peek_all. destruct (bipbuf_is_empty me) eqn:He; [by rewrite app_nil_r|].
    assert (u32 (a_end me - a_start me) = a_end me - a_start me) as ->
      by (destruct Hwf; apply wrap_small; lia).
    pose proof (poll_spec me (Z.min n (a_end me - a_start me)) Hwf He) as Hp.
    destruct (bipbuf_poll _ _) as [ptr me'] eqn:Hpoll. cbn [snd].
    destruct Hp as (_ & Hwf' & Hc); [destruct Hwf; lia|].
    split_and!; [done| |by rewrite app_nil_r].
    unfold bipbuf_poll, check_for_switch_to_b in Hpoll.
    rewrite He in Hpoll. revert Hpoll. repeat case_if; intros [= _ <-]; done.
Qed.

Lemma bip_init_wf me sz : 0 <= sz < 2 ^ 31 -> Z.of_nat (length (data me)) = sz ->
  bip_wf (bipbuf_init me sz).
Proof. intros. split; cbn -[Z.pow]; lia. Qed.

(** C27: the bip buffer is a queue of bytes.  Whatever sequence of offers, reserved
    writes and reads its clients perform on a fresh buffer, the bytes read out so far,
    followed by the bytes still in its two regions, are exactly the bytes accepted, in
    order; the regions stay inside the array and never overlap; and an empty buffer
    always has its whole size free again. *)
Theorem bipbuf_refines_queue (me : bipbuf_t) (sz : Z) (ops : list bip_op) :
  0 <= sz < 2 ^ 31 -> Z.of_nat (length (data me)) = sz -> Forall op_ok ops ->
  let '(me', tin, tout) := bip_run ops (bipbuf_init me sz) in
  bip_wf me' /\ tin = tout ++ contents me' /\
  (contents me' = [] -> bipbuf_unused me' = sz).
Proof.
  intros Hsz Hd Hops.
  assert (forall me0 tin0 tout0, bip_wf me0 -> size me0 = sz -> tin0 = tout0 ++ contents me0 ->
    let '(me', tin, tout) := fold_left (fun '(me, tin, tout) o =>
      let '(me', i, out) := bip_step me o in (me', tin ++ i, tout ++ out)) ops (me0, tin0, tout0) in
    bip_wf me' /\ size me' = sz /\ tin = tout ++ contents me') as Hgen.
  { induction Hops as [|o ops Ho _ IH]; intros me0 tin0 tout0 Hwf Hs Hq; cbn [fold_left]; [done|].
    pose proof (bip_step_spec me0 o Hwf Ho) as Hstep.
    destruct (bip_step me0 o) as [[me1 i] out]. destruct Hstep as (Hwf1 & Hs1 & Hc1).
    apply IH; [done|by rewrite Hs1|]. rewrite Hq, <- !app_assoc. by rewrite Hc1. }
  unfold bip_run.
  specialize (Hgen (bipbuf_init me sz) [] [] (bip_init_wf me sz Hsz Hd) eq_refl eq_refl).
  destruct (fold_left _ _ _) as [[me' tin] tout]. destruct Hgen as (Hwf & Hs & Hq).
  split; [done|]. split; [done|]. intros He.
  rewrite unused_spec by done. destruct Hwf as [? Hdat ? ? Hb Hemp].
  apply (f_equal length) in He. unfold contents in He. rewrite length_app in He. cbn in He.
  unfold region in He. rewrite length_slice in He by lia.
  destruct Hemp as [H0 Hb0]; [lia|]. rewrite Hb0. cbn [Z.eqb]. lia.
Qed.

(** Offers that wrap round: the second write goes to region B behind a partial read. *)
Lemma bipbuf_refines_queue_witness :
  let ops := [Offer (bytes "abcdef"); Poll 4; Reserve 3 (bytes "gh"); Reserve 3 (bytes "ij"); Poll 9; Poll 9] in
  let me := {| size := 0; a_start := 5; a_end := 6; b_end := 7; b_inuse := 8; data := replicate 8 0 |} in
  let '(me', tin, tout) := bip_run ops (bipbuf_init me 8) in
  bip_wf me' /\ tin = bytes "abcdefgh" /\ tout = bytes "abcdefgh".
Proof.
  intros ops me.
  assert (Forall op_ok ops) as Ho by (repeat constructor; cbn; lia).
  pose proof (bipbuf_refines_queue me 8 ops ltac:(lia) eq_refl Ho) as H.
  revert H. vm_compute (bip_run ops (bipbuf_init me 8)). lazy beta iota zeta.
  intros (Hwf & _). split; [exact Hwf|]. split; reflexivity.
Defined.

(** [bipbuf_poll] checks the requested size against the buffer, not against region A: a
    read of more bytes than are queued succeeds and leaves the region bounds crossed,
    where the interface promises a null pointer. *)
Lemma poll_overruns_region :
  let me := snd (bipbuf_offer (bipbuf_init
    {| size := 0; a_start := 0; a_end := 0; b_end := 0; b_inuse := 0; data := replicate 8 0 |} 8)
    (bytes "ab")) in
  bipbuf_used me = 2 /\ bipbuf_peek me 5 = Some 0 /\
  fst (bipbuf_poll me 5) = Some 0 /\ bipbuf_used (snd (bipbuf_poll me 5)) = -3.
Proof. by vm_compute. Qed.
