(* ===== verification/McCache.v ===== *)
(** The object cache (src/memcached-sr/cache.c): a stack of free buffers in front of
    [malloc], used for the suffix and I/O objects of each worker thread.

    Memory is a map from block addresses to block contents.  The results of the C
    allocator are arguments of the operations: [do_cache_alloc] takes what [malloc]
    would return, [do_cache_free] whether [realloc] succeeds.  [debug] selects the
    build: without [NDEBUG] every buffer is put between two redzones. *)
From S2P Require Import Prelude.

Abbreviation mem := (gmap Z (list Z)).

(** [redzone_pattern], 0xdeadbeefcafebabe in memory order. *)
Definition redzone_pattern : list Z := [190; 186; 254; 202; 239; 190; 173; 222].
Definition initial_pool_size : Z := 64.

(** An object is a block and an offset into it. *)
Definition obj := (Z * nat)%type.

Record cache_t := {
  ptr : list Z;
  bufsize : nat;
  freetotal : Z;
  freecurr : Z
}.

(** The outcome of a free: done, or the signal and the value of [cache_error]. *)
Inductive free_result := Freed | Sigabrt (cache_error : Z).

Section cache.
Context (debug : bool).
(** The callbacks given to [cache_create]; both are null in the server. *)
Context (constructor : option (mem -> obj -> mem * Z)) (destructor : option (mem -> obj -> mem)).

(** The three allocations of [cache_create] and the mutex, as one outcome. *)
Definition cache_create (alloc_ok : bool) (size : nat) : option cache_t :=
  if alloc_ok then
    Some {| ptr := replicate (Z.to_nat initial_pool_size) 0;
            bufsize := if debug then (size + 2 * length redzone_pattern)%nat else size;
            freetotal := initial_pool_size; freecurr := 0 |}
  else None.

Definition get_object (p : Z) : obj := (p, if debug then 8%nat else 0%nat).

(** The two stores of the pattern around an object. *)
Definition set_redzones (c : cache_t) (blk : list Z) : list Z :=
  write (bufsize c - 8) redzone_pattern (write 0 redzone_pattern blk).

Definition mark (c : cache_t) (h : mem) (p : Z) : mem :=
  if debug then alter (set_redzones c) p h else h.

Definition do_cache_alloc (h : mem) (c : cache_t) (malloc : option (Z * list Z))
  : option obj * mem * cache_t :=
  if 0 <? freecurr c then
    let curr := freecurr c - 1 in
    let p := nth (Z.to_nat curr) (ptr c) 0 in
    (Some (get_object p), mark c h p,
     {| ptr := ptr c; bufsize := bufsize c; freetotal := freetotal c; freecurr := curr |})
  else
    match malloc with
    | None => (None, h, c)
    | Some (p, blk) =>
        let h := <[p := blk]> h in
        match constructor with
        | None => (Some (get_object p), mark c h p, c)
        | Some f =>
            let '(h, rc) := f h (get_object p) in
            if rc =? 0 then (Some (get_object p), mark c h p, c)
            else (None, delete p h, c)
        end
    end.

Definition pop_destroy (h : mem) (p : Z) : mem :=
  delete p (match destructor with Some f => f h (get_object p) | None => h end).

(** [cache_destroy]: the buffers of the pool, last one first; the structure itself is gone. *)
Fixpoint destroy_loop (n : nat) (h : mem) (c : cache_t) : mem :=
  match n with
  | O => h
  | S n => destroy_loop n (pop_destroy h (nth n (ptr c) 0)) c
  end.
Definition cache_destroy (h : mem) (c : cache_t) : mem :=
  destroy_loop (Z.to_nat (freecurr c)) h c.

Definition push_free (c : cache_t) (p : Z) : cache_t :=
  {| ptr := <[Z.to_nat (freecurr c) := p]> (ptr c); bufsize := bufsize c;
     freetotal := freetotal c; freecurr := freecurr c + 1 |}.

(** The part of [do_cache_free] behind the redzone checks, on the block itself. *)
Definition release (h : mem) (c : cache_t) (p : Z) (off : nat) (realloc : bool) : mem * cache_t :=
  if freecurr c <? freetotal c then (h, push_free c p)
  else
    let newtotal := s32 (freetotal c * 2) in
    if realloc then
      let grown := ptr c ++ replicate (Z.to_nat (newtotal - freetotal c)) 0 in
      (h, push_free {| ptr := grown; bufsize := bufsize c; freetotal := newtotal;
                       freecurr := freecurr c |} p)
    else
      let h := match destructor with Some f => f h (p, off) | None => h end in
      (delete p h, c).

Definition do_cache_free (h : mem) (c : cache_t) (o : obj) (realloc : bool)
  : free_result * mem * cache_t :=
  let '(p, off) := o in
  let blk := default [] (h !! p) in
  if debug then
    if negb (bool_decide (slice (off + bufsize c - 16) 8 blk = redzone_pattern)) then
      (Sigabrt 1, h, c)
    else if negb (bool_decide (slice (off - 8) 8 blk = redzone_pattern)) then
      (Sigabrt (-1), h, c)
    else let '(h, c) := release h c p (off - 8) realloc in (Freed, h, c)
  else let '(h, c) := release h c p off realloc in (Freed, h, c).

(** ** The protocol of its users *)

(** The blocks in the pool. *)
Definition pool (c : cache_t) : list Z := take (Z.to_nat (freecurr c)) (ptr c).

(** A user may write into its object but not outside it. *)
Definition zones_ok (c : cache_t) (blk : list Z) : Prop :=
  debug = true -> slice 0 8 blk = redzone_pattern /\
    slice (bufsize c - 8) 8 blk = redzone_pattern.

(** What the C allocator and the constructor promise. *)
Definition malloc_ok (h : mem) (c : cache_t) (m : option (Z * list Z)) : Prop :=
  forall p blk, m = Some (p, blk) -> h !! p = None /\ length blk = bufsize c.
Definition constructor_ok : Prop :=
  forall f h p, constructor = Some f -> is_Some (h !! p) ->
  exists blk, fst (f h (get_object p)) = <[p := blk]> h /\
    (length <$> h !! p) = Some (length blk).

Definition destructor_ok : Prop :=
  forall f h o, destructor = Some f -> exists blk, f h o = <[fst o := blk]> h.

(** The memory, the cache and the blocks its users hold. *)
Definition cstate := (mem * cache_t * gset Z)%type.

Inductive cstep : cstate -> cstate -> Prop :=
| cstep_alloc h c used m p off h' c' :
    malloc_ok h c m -> do_cache_alloc h c m = (Some (p, off), h', c') ->
    cstep (h, c, used) (h', c', {[p]} ∪ used)
| cstep_alloc_null h c used m h' c' :
    malloc_ok h c m -> do_cache_alloc h c m = (None, h', c') ->
    cstep (h, c, used) (h', c', used)
| cstep_write h c used p blk blk' :
    p ∈ used -> h !! p = Some blk -> length blk' = length blk -> zones_ok c blk' ->
    cstep (h, c, used) (<[p := blk']> h, c, used)
| cstep_free h c used p r res h' c' :
    p ∈ used -> freetotal c < 2 ^ 30 ->
    do_cache_free h c (get_object p) r = (res, h', c') ->
    cstep (h, c, used) (h', c', used ∖ {[p]}).

(** The pool holds distinct blocks that no user holds; the blocks of the pool and of
    the users are all the blocks, each of the buffer size. *)
Record cache_inv (s : cstate) : Prop := {
  ci_curr : 0 <= freecurr (snd (fst s)) <= freetotal (snd (fst s));
  ci_total : 0 < freetotal (snd (fst s)) < 2 ^ 31;
  ci_ptr : Z.of_nat (length (ptr (snd (fst s)))) = freetotal (snd (fst s));
  ci_size : debug = true -> (16 <= bufsize (snd (fst s)))%nat;
  ci_nodup : NoDup (pool (snd (fst s)));
  ci_disj : forall p, p ∈ pool (snd (fst s)) -> p ∉ snd s;
  ci_blocks : forall p, is_Some (fst (fst s) !! p) <-> p ∈ pool (snd (fst s)) \/ p ∈ snd s;
  ci_len : forall p blk, fst (fst s) !! p = Some blk -> length blk = bufsize (snd (fst s));
  ci_zones : forall p blk, p ∈ snd s -> fst (fst s) !! p = Some blk -> zones_ok (snd (fst s)) blk
}.

(** ** Proofs *)

Lemma pool_pop c : 0 < freecurr c -> freecurr c <= Z.of_nat (length (ptr c)) ->
  pool c = take (Z.to_nat (freecurr c - 1)) (ptr c) ++ [nth (Z.to_nat (freecurr c - 1)) (ptr c) 0].
Proof.
  intros H0 Hl. unfold pool.
  replace (Z.to_nat (freecurr c)) with (S (Z.to_nat (freecurr c - 1))) by lia.
  apply take_S_r.
  destruct (nth_lookup_or_length (ptr c) (Z.to_nat (freecurr c - 1)) 0) as [H|H]; [done|lia].
Qed.

Lemma pool_push c p : 0 <= freecurr c -> freecurr c < Z.of_nat (length (ptr c)) ->
  pool (push_free c p) = pool c ++ [p].
Proof.
  intros H0 Hl. unfold pool, push_free. cbn.
  replace (Z.to_nat (freecurr c + 1)) with (S (Z.to_nat (freecurr c))) by lia.
  rewrite (take_S_r _ _ p) by (apply list_lookup_insert_eq; lia).
  by rewrite take_insert_ge by lia.
Qed.

(** The redzones of a block that was just marked are intact. *)
Lemma set_redzones_ok c blk : length blk = bufsize c -> (16 <= bufsize c)%nat ->
  length (set_redzones c blk) = bufsize c /\ zones_ok c (set_redzones c blk).
Proof.
  intros Hl H16. unfold set_redzones, zones_ok.
  assert (length (write 0 redzone_pattern blk) = bufsize c) as Hw by (rewrite length_write; cbn; lia).
  split; [rewrite length_write; cbn; lia|]. intros _. split.
  - rewrite slice_write_before by (cbn; lia). apply (slice_write_same 0 redzone_pattern). cbn. lia.
  - apply (slice_write_same _ redzone_pattern). cbn. lia.
Qed.

Lemma mark_lookup c h p q : mark c h p !! q = if decide (p = q) then (if debug then set_redzones c else id) <$> h !! q else h !! q.
Proof.
  unfold mark. destruct debug; case_decide; subst.
  - apply lookup_alter_eq.
  - by apply lookup_alter_ne.
  - by rewrite option_fmap_id.
  - done.
Qed.

(** Everything of the invariant that concerns the cache alone. *)
Definition shape (c : cache_t) : Prop :=
  0 <= freecurr c <= freetotal c /\ 0 < freetotal c < 2 ^ 31 /\
  Z.of_nat (length (ptr c)) = freetotal c /\ (debug = true -> (16 <= bufsize c)%nat).

Lemma inv_shape s : cache_inv s -> shape (snd (fst s)).
Proof. intros []. repeat split; try done; lia. Qed.

(** Handing a block of the right size to a user. *)
Lemma give_inv h c used p blk :
  shape c -> NoDup (pool c) -> h !! p = Some blk ->
  p ∉ pool c -> (forall q, q ∈ pool c -> q ∉ used) ->
  (forall q, is_Some (h !! q) <-> q ∈ pool c \/ q ∈ {[p]} ∪ used) ->
  (forall q b, h !! q = Some b -> length b = bufsize c) ->
  (forall q b, q ∈ used -> h !! q = Some b -> zones_ok c b) ->
  cache_inv (mark c h p, c, {[p]} ∪ used).
Proof.
  intros (? & ? & ? & H16) Hnd Hp Hnp Hdisj Hblk Hlen Hz.
  split; cbn [fst snd]; try done.
  - intros q Hq. rewrite elem_of_union, elem_of_singleton.
    intros [-> |Hu]; [done|]. by apply (Hdisj q).
  - intros q. rewrite <- Hblk, mark_lookup. case_decide; [|done]. by rewrite fmap_is_Some.
  - intros q b. rewrite mark_lookup. case_decide as Hq; [subst q|by apply Hlen].
    rewrite Hp. cbn. intros [= <-]. destruct debug eqn:Hd; [|by apply (Hlen p)].
    apply set_redzones_ok; [by apply (Hlen p)|by apply H16].
  - intros q b Hu. rewrite mark_lookup. case_decide as Hq; [subst q|].
    + rewrite Hp. cbn. intros [= <-]. destruct debug eqn:Hd; [|by intros ?; congruence].
      rewrite <- Hd in *. apply set_redzones_ok; [by apply (Hlen p)|by apply H16].
    + apply elem_of_union in Hu as [Hu%elem_of_singleton|Hu]; [done|]. by apply Hz.
Qed.

Lemma alloc_inv h c used m p off h' c' :
  constructor_ok -> cache_inv (h, c, used) -> malloc_ok h c m ->
  do_cache_alloc h c m = (Some (p, off), h', c') ->
  p ∉ used /\ (p, off) = get_object p /\ cache_inv (h', c', {[p]} ∪ used).
Proof.
  intros Hctor Hinv Hm Ha. pose proof (inv_shape _ Hinv) as Hsh.
  destruct Hinv as [? ? ? H16 Hnd Hdisj Hblk Hlen Hz]. cbn [fst snd] in *.
  unfold do_cache_alloc in Ha. destruct (Z.ltb_spec 0 (freecurr c)).
  - injection Ha as <- <- <- <-. set (c' := {| ptr := _ |}).
    pose proof (pool_pop c ltac:(lia) ltac:(lia)) as Hpop.
    set (p := nth _ _ _) in *. change (take _ _) with (pool c') in Hpop.
    rewrite Hpop in Hnd. apply NoDup_app in Hnd as (Hnd' & Hni & _).
    assert (p ∈ pool c) as Hpc by (rewrite Hpop; set_solver).
    split; [by apply Hdisj|]. split; [done|].
    assert (is_Some (h !! p)) as [blk Hp] by (apply Hblk; by left).
    change (mark c h p) with (mark c' h p).
    apply (give_inv _ _ _ _ blk); try done.
    + unfold shape, c'. cbn. repeat split; try done; lia.
    + intros Hin. apply (Hni p Hin). set_solver.
    + intros q Hq. apply Hdisj. rewrite Hpop. set_solver.
    + intros q. rewrite Hblk, Hpop. set_solver.
  - destruct m as [[q blk]|]; [|done]. destruct (Hm q blk eq_refl) as [Hq Hl].
    assert (freecurr c = 0) as H0 by lia.
    assert (pool c = []) as Hpool by (unfold pool; by rewrite H0).
    assert (q ∉ used) as Hqu.
    { intros Hu. assert (is_Some (h !! q)) as [? ?] by (apply Hblk; by right). congruence. }
    assert (forall b, length b = bufsize c -> cache_inv (mark c (<[q := b]> h) q, c, {[q]} ∪ used)) as Hgive.
    { intros b Hb. apply (give_inv _ _ _ _ b); try done.
      - by apply lookup_insert_eq.
      - rewrite Hpool. set_solver.
      - intros x. destruct (decide (x = q)) as [-> |Hx].
        + rewrite lookup_insert_eq. split; [set_solver|done].
        + rewrite lookup_insert_ne by done. rewrite Hblk. set_solver.
      - intros x b' Hx. apply lookup_insert_Some in Hx as [[<- <-]|[? ?]]; [done|by apply (Hlen x)].
      - intros x b' Hu Hx. apply lookup_insert_Some in Hx as [[<- <-]|[? ?]]; [done|by apply (Hz x)]. }
    destruct constructor as [f|] eqn:Hf.
    + destruct (Hctor f (<[q := blk]> h) q Hf) as (b & Hfst & Hbl);
        [rewrite lookup_insert_eq; by eexists|].
      destruct (f _ _) as [h1 rc]. cbn in Hfst. subst h1.
      destruct (rc =? 0); [|done].
      injection Ha as <- <- <- <-. rewrite lookup_insert_eq in Hbl. injection Hbl as Hbl.
      rewrite insert_insert_eq. split; [done|]. split; [done|]. apply Hgive. lia.
    + injection Ha as <- <- <- <-. split; [done|]. split; [done|]. by apply Hgive.
Qed.

Lemma alloc_null_inv h c used m h' c' :
  constructor_ok -> cache_inv (h, c, used) -> malloc_ok h c m ->
  do_cache_alloc h c m = (None, h', c') -> h' = h /\ c' = c.
Proof.
  intros Hctor Hinv Hm Ha. unfold do_cache_alloc in Ha. destruct (Z.ltb_spec 0 (freecurr c)); [done|].
  destruct m as [[q blk]|]; [|by injection Ha]. destruct (Hm q blk eq_refl) as [Hq Hl].
  destruct constructor as [f|] eqn:Hf; [|done].
  destruct (Hctor f (<[q := blk]> h) q Hf) as (b & Hfst & Hbl);
    [rewrite lookup_insert_eq; by eexists|].
  destruct (f _ _) as [h1 rc]. cbn in Hfst. subst h1. destruct (rc =? 0); [done|].
  injection Ha as <- <-. split; [|done]. by rewrite insert_insert_eq, delete_insert_id.
Qed.

(** A user that kept inside its object gets through the redzone checks. *)
Lemma free_reaches_release h c used p r :
  cache_inv (h, c, used) -> p ∈ used ->
  do_cache_free h c (get_object p) r = (Freed, fst (release h c p 0 r), snd (release h c p 0 r)).
Proof.
  intros [? ? ? H16 Hnd Hdisj Hblk Hlen Hz] Hu. cbn [fst snd] in *.
  assert (is_Some (h !! p)) as [blk Hp] by (apply Hblk; by right).
  unfold do_cache_free, get_object. rewrite Hp. cbn [default].
  specialize (Hz p blk Hu Hp). unfold zones_ok in Hz. destruct debug.
  - destruct (Hz eq_refl) as [Hz1 Hz2]. specialize (H16 eq_refl).
    replace (8 + bufsize c - 16)%nat with (bufsize c - 8)%nat by lia.
    rewrite (bool_decide_eq_true_2 _ Hz1), (bool_decide_eq_true_2 _ Hz2). cbn.
    by destruct (release h c p 0 r).
  - by destruct (release h c p 0 r).
Qed.

Lemma push_inv h c used p :
  shape c -> freecurr c < freetotal c -> p ∉ pool c -> p ∈ used -> cache_inv (h, c, used) ->
  cache_inv (h, push_free c p, used ∖ {[p]}).
Proof.
  intros (? & ? & ? & ?) Hlt Hp Hu [? ? ? H16 Hnd Hdisj Hblk Hlen Hz]. cbn [fst snd] in *.
  pose proof (pool_push c p ltac:(lia) ltac:(lia)) as Hpush.
  split; cbn [fst snd]; try done.
  - cbn. lia.
  - cbn. by rewrite length_insert.
  - rewrite Hpush. apply NoDup_app. split; [done|]. split; [set_solver|apply NoDup_singleton].
  - intros q. rewrite Hpush, elem_of_app, list_elem_of_singleton. set_solver.
  - intros q. rewrite Hpush, elem_of_app, list_elem_of_singleton, Hblk.
    destruct (decide (q = p)) as [-> |]; set_solver.
  - intros q b Hq. apply (Hz q b). set_solver.
Qed.

Lemma release_inv h c used p r :
  destructor_ok -> freetotal c < 2 ^ 30 -> cache_inv (h, c, used) -> p ∈ used ->
  cache_inv (fst (release h c p 0 r), snd (release h c p 0 r), used ∖ {[p]}).
Proof.
  intros Hdtor H30 Hinv Hu. pose proof (inv_shape _ Hinv) as Hsh.
  assert (p ∉ pool c) as Hp by (intros Hin; by apply (ci_disj _ Hinv p Hin)).
  cbn [fst snd] in *. unfold release. case_if; [by apply push_inv|].
  assert (freecurr c = freetotal c) as Hfull by (destruct Hsh; lia).
  destruct r.
  - assert (s32 (freetotal c * 2) = freetotal c * 2) as ->.
    { destruct Hsh as (? & ? & ? & ?). unfold signed. cbn zeta. rewrite wrap_small by lia.
      by rewrite (proj2 (Z.ltb_lt _ _)) by lia. }
    cbn [fst snd]. destruct Hsh as (? & ? & ? & ?).
    set (c1 := {| ptr := _ |}).
    assert (pool c1 = pool c) as Hpool by (unfold pool, c1; cbn; rewrite take_app_le; [done|lia]).
    assert (shape c1) as Hsh1.
    { unfold shape, c1. cbn. rewrite length_app, length_replicate. repeat split; try done; lia. }
    apply push_inv; [done|unfold c1; cbn; lia|by rewrite Hpool|done|].
    destruct Hinv as [? ? ? H16 Hnd Hdisj Hblk Hlen Hz]. cbn [fst snd] in *.
    destruct Hsh1 as (? & ? & ? & ?). split; cbn [fst snd]; rewrite ?Hpool; try done.
  - destruct Hinv as [? ? ? H16 Hnd Hdisj Hblk Hlen Hz]. cbn [fst snd] in *.
    set (h1 := match destructor with Some f => _ | None => h end).
    assert (forall q, q <> p -> h1 !! q = h !! q) as Hh1.
    { intros q Hq. subst h1. destruct destructor as [f|] eqn:Hf; [|done].
      destruct (Hdtor f h (p, 0%nat) Hf) as [b ->]. by rewrite lookup_insert_ne. }
    split; cbn [fst snd]; try done.
    + set_solver.
    + intros q. destruct (decide (q = p)) as [-> |Hq].
      * rewrite lookup_delete_eq. split; [by intros [? ?]|]. set_solver.
      * rewrite lookup_delete_ne, Hh1, Hblk by done. set_solver.
    + intros q b. destruct (decide (q = p)) as [-> |Hq]; [by rewrite lookup_delete_eq|].
      rewrite lookup_delete_ne, Hh1 by done. apply Hlen.
    + intros q b Hq. rewrite lookup_delete_ne, Hh1 by set_solver. apply Hz. set_solver.
Qed.

Lemma cstep_inv s s' : constructor_ok -> destructor_ok -> cstep s s' -> cache_inv s -> cache_inv s'.
Proof.
  intros Hc Hd Hs Hi. destruct Hs as [h c used m p off h' c' Hm Ha|h c used m h' c' Hm Ha
    |h c used p blk blk' Hu Hp Hl Hz|h c used p r res h' c' Hu H30 Hf].
  - by eapply alloc_inv.
  - by destruct (alloc_null_inv _ _ _ _ _ _ Hc Hi Hm Ha) as [-> ->].
  - destruct Hi as [? ? ? H16 Hnd Hdisj Hblk Hlen Hzs]. split; cbn [fst snd] in *; try done.
    + intros q. rewrite <- Hblk. destruct (decide (q = p)) as [-> |].
      * rewrite lookup_insert_eq, Hp. split; by eexists.
      * by rewrite lookup_insert_ne.
    + intros q b Hq. apply lookup_insert_Some in Hq as [[<- <-]|[? ?]]; [|by apply (Hlen q)].
      rewrite Hl. by apply (Hlen p).
    + intros q b Hq Hb. apply lookup_insert_Some in Hb as [[<- <-]|[? ?]]; [done|by apply (Hzs q)].
  - rewrite (free_reaches_release _ _ used) in Hf by done. injection Hf as <- <- <-.
    by apply release_inv.
Qed.

Lemma create_inv size c : cache_create true size = Some c -> cache_inv (∅, c, ∅).
Proof.
  intros [= <-]. split; cbn; try done; try lia.
  - destruct debug; [lia|done].
  - unfold pool. cbn. by constructor.
  - intros p. unfold pool. cbn. rewrite lookup_empty.
    split; [by intros [? ?]|]. intros [H|H]; set_solver.
Qed.

(** C30: in any history of allocations, frees and in-bounds writes on a fresh cache, no
    buffer is ever in the hands of two users, or in the pool and with a user; every
    block is either pooled or held (none is lost), an allocation gives a buffer nobody
    holds, and freeing a held buffer never trips over the redzones, whether buffers
    come from the pool or from [malloc], and whether growing the pool succeeds or not. *)
Theorem cache_never_shares (size : nat) (c0 : cache_t) (h : mem) (c : cache_t) (used : gset Z) :
  constructor_ok -> destructor_ok -> cache_create true size = Some c0 ->
  rtc cstep (∅, c0, ∅) (h, c, used) ->
  cache_inv (h, c, used) /\
  (forall m p off h' c', malloc_ok h c m -> do_cache_alloc h c m = (Some (p, off), h', c') ->
    p ∉ used /\ (p, off) = get_object p) /\
  (forall p r, p ∈ used -> fst (fst (do_cache_free h c (get_object p) r)) = Freed).
Proof.
  intros Hc Hd Hcr Hr.
  assert (forall s s', rtc cstep s s' -> cache_inv s -> cache_inv s') as Hrtc.
  { induction 1 as [|s1 s2 s3 Hs _ IH]; [done|]. intros Hi. apply IH. by eapply cstep_inv. }
  pose proof (Hrtc _ _ Hr (create_inv size c0 Hcr)) as Hinv. split; [done|]. split.
  - intros m p off h' c' Hm Ha.
    destruct (alloc_inv h c used m p off h' c' Hc Hinv Hm Ha) as (? & ? & _). done.
  - intros p r Hu. by rewrite (free_reaches_release _ _ used).
Qed.

(** A write behind the object is found when the object is freed, and the buffer is kept
    out of the pool. *)
Lemma overrun_detected h c p blk r : debug = true -> h !! p = Some blk ->
  (16 <= bufsize c)%nat -> slice (bufsize c - 8) 8 blk <> redzone_pattern ->
  do_cache_free h c (get_object p) r = (Sigabrt 1, h, c).
Proof.
  intros Hd Hp H16 Hz. unfold do_cache_free, get_object. rewrite Hd, Hp. cbn [default].
  replace (8 + bufsize c - 16)%nat with (bufsize c - 8)%nat by lia.
  by rewrite (bool_decide_eq_false_2 _ Hz).
Qed.
End cache.

(** Two allocations, a free and an allocation in the debug build: the freed buffer comes
    back from the pool and is not the one still held. *)
Lemma cache_never_shares_witness :
  let c0 := {| ptr := replicate 64 0; bufsize := 40; freetotal := 64; freecurr := 0 |} in
  exists h c, rtc (cstep true None None) (∅, c0, ∅) (h, c, {[ 200 ]}) /\
    pool c = [100] /\ cache_inv true (h, c, {[ 200 ]}).
Proof.
  intros c0.
  pose (r1 := do_cache_alloc true None ∅ c0 (Some (100, replicate 40 7))).
  pose (r2 := do_cache_alloc true None (snd (fst r1)) (snd r1) (Some (200, replicate 40 9))).
  pose (r3 := do_cache_free true None (snd (fst r2)) (snd r2) (get_object true 100) false).
  assert (rtc (cstep true None None) (∅, c0, ∅) (snd (fst r3), snd r3, {[ 200 ]})) as Hr.
  { eapply rtc_l; [apply (cstep_alloc true None None _ _ _ (Some (100, replicate 40 7)) 100 8
      (snd (fst r1)) (snd r1)); [intros ? ? [= <- <-]; split; [reflexivity|reflexivity]|reflexivity]|].
    eapply rtc_l; [apply (cstep_alloc true None None _ _ _ (Some (200, replicate 40 9)) 200 8
      (snd (fst r2)) (snd r2)); [intros ? ? [= <- <-]; split; [reflexivity|reflexivity]|reflexivity]|].
    replace ({[200]} : gset Z) with (({[200]} ∪ ({[100]} ∪ ∅)) ∖ {[100]} : gset Z) by set_solver.
    eapply rtc_l; [|apply rtc_refl].
    apply (cstep_free true None None _ _ _ 100 false (fst (fst r3)) (snd (fst r3)) (snd r3));
      [set_solver|cbn; lia|reflexivity]. }
  exists (snd (fst r3)), (snd r3). split; [exact Hr|]. split; [reflexivity|].
  refine (proj1 (cache_never_shares true None None 24 c0 _ _ _ _ _ eq_refl Hr)).
  - intros ? ? ? [=].
  - intros ? ? ? [=].
Defined.
