(* ===== verification/McAuthfile.v ===== *)
(** The password file of ASCII authentication (src/memcached-sr/authfile.c).

    The file is a list of bytes, and its contents are those [stat] measured.  [auth_data] is a
    buffer of that size; entries keep positions in it.  [None] is behaviour outside the
    model: an access outside the buffer, or a length that was never set. *)
From S2P Require Import Prelude.

Definition MAX_ENTRY_LEN : nat := 256.
Definition MAX_ENTRIES : nat := 8.

Record auth_t := { user : nat; ulen : nat; pass : nat; plen : nat }.
(** [main_auth_entries] up to [entry_cnt], and [main_auth_data]. *)
Record auth_db := { main_auth_entries : list auth_t; main_auth_data : list Z }.
Inductive authfile_ret := AUTHFILE_OK | AUTHFILE_MISSING | AUTHFILE_OOM | AUTHFILE_OPENFAIL | AUTHFILE_MALFORMED.

(** ** The C library *)

(** At most [n] bytes, to the end of the line. *)
Fixpoint fgets_line (n : nat) (file : list Z) : list Z * list Z :=
  match n, file with
  | S n, c :: file => if c =? 10 then ([c], file) else let '(l, r) := fgets_line n file in (c :: l, r)
  | _, _ => ([], file)
  end.
Definition fgets (size : nat) (file : list Z) : option (list Z * list Z) :=
  match file with [] => None | _ => Some (fgets_line (size - 1) file) end.
Definition put (off : nat) (bs buf : list Z) : option (list Z) :=
  if (off + length bs <=? length buf)%nat then Some (write off bs buf) else None.

(** ** Loading *)

(** The loop over the characters of a line at [cur]: the entry, if there is a colon, and the
    value of [x] behind the loop. *)
Fixpoint scan_entry (fuel x : nat) (buf : list Z) (cur : nat) (found : option auth_t) : option (option auth_t * nat) :=
  match fuel, found with
  | O, None => Some (None, x)
  | O, Some _ => None
  | S fuel, None =>
      c ← buf !! (cur + x)%nat;
      if c =? 58 then scan_entry fuel (S x) buf cur (Some {| user := cur; ulen := x; pass := cur + x + 1; plen := 0 |})
      else scan_entry fuel (S x) buf cur None
  | S fuel, Some e =>
      c ← buf !! (cur + x)%nat;
      if (c =? 10) || (c =? 13) || (c =? 0) then Some (Some {| user := user e; ulen := ulen e; pass := pass e; plen := x - (ulen e + 1) |}, x)
      else scan_entry fuel (S x) buf cur found
  end.

(** The loop over the lines; the flag tells whether all lines were well formed. *)
Fixpoint load_lines (fuel cur : nat) (used : list auth_t) (buf file : list Z) : option (bool * list auth_t * list Z) :=
  match fuel with
  | O => Some (true, used, buf)
  | S fuel =>
      match fgets MAX_ENTRY_LEN file with
      | None => Some (true, used, buf)
      | Some (line, file) =>
          buf ← put cur (line ++ [0]) buf;
          '(e, x) ← scan_entry MAX_ENTRY_LEN 0 buf cur None;
          match e with
          | None => Some (false, used, buf)
          | Some e =>
              let used := used ++ [e] in
              if (length used =? MAX_ENTRIES)%nat then Some (true, used, buf)
              else
                c ← buf !! (cur + x)%nat;
                if c =? 0 then Some (true, used, buf) else load_lines fuel (cur + x) used buf file
          end
      end
  end.

(** [exists_], [memory] and [readable] are the outcomes of stat, calloc and fopen. *)
Definition authfile_load (exists_ memory readable : bool) (file : list Z) (db : auth_db) : option (authfile_ret * auth_db) :=
  if negb exists_ then Some (AUTHFILE_MISSING, db)
  else if negb memory then Some (AUTHFILE_OOM, db)
  else if negb readable then Some (AUTHFILE_OPENFAIL, db)
  else
    '(ok, used, buf) ← load_lines MAX_ENTRIES 0 [] (replicate (length file) 0) file;
    if ok : bool then Some (AUTHFILE_OK, {| main_auth_entries := used; main_auth_data := buf |}) else Some (AUTHFILE_MALFORMED, db).

(** ** Checking *)

Definition entry_matches_login (data u p : list Z) (e : auth_t) : bool :=
  (length u =? ulen e)%nat && (length p =? plen e)%nat &&
  bool_decide (u = slice (user e) (ulen e) data) && bool_decide (p = slice (pass e) (plen e) data).
(** [u] and [p] are the strings up to their terminating bytes. *)
Definition authfile_check (u p : list Z) (db : auth_db) : bool := existsb (entry_matches_login (main_auth_data db) u p) (main_auth_entries db).

(** ** Lines *)

Definition login_line (l : list Z * list Z) : list Z := l.1 ++ 58 :: l.2 ++ [10].
Record line_ok (l : list Z * list Z) : Prop := {
  lo_user : Forall (fun c => c <> 58 /\ c <> 10) l.1;
  lo_pass : Forall (fun c => c <> 10 /\ c <> 13 /\ c <> 0) l.2;
  lo_len : (length (login_line l) < MAX_ENTRY_LEN)%nat
}.
Lemma length_line l : length (login_line l) = (length l.1 + length l.2 + 2)%nat.
Proof. unfold login_line. rewrite length_app. cbn [length]. rewrite length_app. cbn. lia. Qed.

Lemma fgets_lines n l rest : Forall (fun c => c <> 10) l -> (length l < n)%nat -> fgets_line n (l ++ 10 :: rest) = (l ++ [10], rest).
Proof.
  revert n. induction l as [|c l IH]; intros n Hl Hn; cbn [app length] in *; (destruct n as [|n]; [lia|]); [done|]. cbn [fgets_line].
  apply Forall_cons in Hl as [Hc Hl]. rewrite (proj2 (Z.eqb_neq _ _)) by done. by rewrite IH by (done || lia).
Qed.
Lemma fgets_entry l rest : line_ok l -> fgets MAX_ENTRY_LEN (login_line l ++ rest) = Some (login_line l, rest).
Proof.
  intros [H1 H2 H3]. rewrite length_line in H3. unfold fgets, login_line. replace ((l.1 ++ 58 :: l.2 ++ [10]) ++ rest) with ((l.1 ++ 58 :: l.2) ++ 10 :: rest) by (by rewrite <- !app_assoc; cbn; rewrite <- app_assoc).
  destruct ((l.1 ++ 58 :: l.2) ++ 10 :: rest) eqn:E; [by destruct l.1|]. rewrite <- E. rewrite fgets_lines.
  - by rewrite <- app_assoc.
  - apply Forall_app. split; [eapply Forall_impl; [exact H1|by intros ? []]|]. constructor; [done|]. eapply Forall_impl; [exact H2|by intros ? []].
  - rewrite length_app. cbn [length]. unfold MAX_ENTRY_LEN in *. lia.
Qed.

(** The scan of a part without the characters it looks for. *)
Lemma scan_user u : forall fuel x buf cur, (forall i c, u !! i = Some c -> buf !! (cur + (x + i))%nat = Some c /\ c <> 58) ->
  scan_entry (length u + fuel) x buf cur None = scan_entry fuel (x + length u) buf cur None.
Proof.
  induction u as [|c u IH]; intros fuel x buf cur H; cbn [length Nat.add]; [by rewrite Nat.add_0_r|]. cbn [scan_entry].
  destruct (H 0%nat c eq_refl) as [E Hc]. rewrite Nat.add_0_r in E. rewrite E. cbn [mbind option_bind]. rewrite (proj2 (Z.eqb_neq _ _)) by done.
  rewrite IH; [f_equal; lia|]. intros i d Hd. replace (S x + i)%nat with (x + S i)%nat by lia. by apply H.
Qed.
Lemma scan_pass p : forall fuel x buf cur e, (forall i c, p !! i = Some c -> buf !! (cur + (x + i))%nat = Some c /\ c <> 10 /\ c <> 13 /\ c <> 0) ->
  scan_entry (length p + fuel) x buf cur (Some e) = scan_entry fuel (x + length p) buf cur (Some e).
Proof.
  induction p as [|c p IH]; intros fuel x buf cur e H; cbn [length Nat.add]; [by rewrite Nat.add_0_r|]. cbn [scan_entry].
  destruct (H 0%nat c eq_refl) as (E & H1 & H2 & H3). rewrite Nat.add_0_r in E. rewrite E. cbn [mbind option_bind].
  rewrite !(proj2 (Z.eqb_neq _ _)) by done. cbn [orb]. rewrite IH; [f_equal; lia|]. intros i d Hd. replace (S x + i)%nat with (x + S i)%nat by lia. by apply H.
Qed.
Definition entry_at (cur : nat) (l : list Z * list Z) : auth_t := {| user := cur; ulen := length l.1; pass := cur + length l.1 + 1; plen := length l.2 |}.
Lemma slice_lookup off n (buf q : list Z) i c : slice off n buf = q -> q !! i = Some c -> buf !! (off + i)%nat = Some c.
Proof.
  intros <- H. unfold slice in H. rewrite lookup_take_Some, lookup_drop in H. apply H.
Qed.
Lemma scan_line l buf cur : line_ok l -> slice cur (length (login_line l)) buf = login_line l ->
  scan_entry MAX_ENTRY_LEN 0 buf cur None = Some (Some (entry_at cur l), length l.1 + 1 + length l.2)%nat /\
  buf !! (cur + (length l.1 + 1 + length l.2))%nat = Some 10.
Proof.
  intros [H1 H2 H3] Hs. pose proof (fun i c => slice_lookup _ _ _ _ i c Hs) as Hb. destruct l as [u p]. cbn [fst snd] in *. rewrite length_line in H3. cbn [fst snd] in H3.
  assert (forall i c, (58 :: p ++ [10]) !! i = Some c -> buf !! (cur + (length u + i))%nat = Some c) as Hr.
  { intros i c Hc. apply Hb. change (login_line (u, p)) with (u ++ 58 :: p ++ [10]). rewrite lookup_app_r by (clear; lia). by replace (length u + i - length u)%nat with i by (clear; lia). }
  assert (buf !! (cur + (length u + 1 + length p))%nat = Some 10) as Hnl.
  { replace (length u + 1 + length p)%nat with (length u + S (length p))%nat by lia. apply Hr. cbn [lookup list_lookup]. change ((p ++ [10]) !! length p = Some 10). by apply list_lookup_middle. }
  split; [|exact Hnl]. replace MAX_ENTRY_LEN with (length u + S (length p + S (MAX_ENTRY_LEN - length u - length p - 2)))%nat by (unfold MAX_ENTRY_LEN in *; lia).
  rewrite scan_user.
  2:{ intros i c Hc. split; [|by apply (Forall_lookup_1 _ _ _ _ H1 Hc)]. apply Hb. unfold login_line. cbn [fst snd Nat.add]. by apply lookup_app_l_Some. }
  cbn [Nat.add scan_entry]. pose proof (Hr 0%nat 58 eq_refl) as E0. rewrite Nat.add_0_r in E0. rewrite E0.
  cbn [mbind option_bind Z.eqb Pos.eqb]. rewrite scan_pass.
  2:{ intros i c Hc. split; [|by apply (Forall_lookup_1 _ _ _ _ H2 Hc)]. replace (S (length u) + i)%nat with (length u + S i)%nat by lia. apply Hr. cbn. by apply lookup_app_l_Some. }
  cbn [scan_entry]. replace (S (length u) + length p)%nat with (length u + 1 + length p)%nat by lia. rewrite Hnl. cbn [mbind option_bind Z.eqb Pos.eqb orb user ulen pass].
  unfold entry_at. cbn [fst snd]. by replace (length u + 1 + length p - (length u + 1))%nat with (length p) by lia.
Qed.

(** What an entry says. *)
Definition says (buf : list Z) (e : auth_t) (l : list Z * list Z) : Prop :=
  ulen e = length l.1 /\ plen e = length l.2 /\ slice (user e) (ulen e) buf = l.1 /\ slice (pass e) (plen e) buf = l.2.
Definition before (cur : nat) (e : auth_t) : Prop := (user e + ulen e <= cur)%nat /\ (pass e + plen e <= cur)%nat.
Lemma says_put buf off bs e l : says buf e l -> before off e -> (off + length bs <= length buf)%nat -> says (write off bs buf) e l.
Proof.
  intros (H1 & H2 & H3 & H4) [B1 B2] Hl. split_and!; try done; [rewrite <- H3|rewrite <- H4]; apply slice_write_before; lia.
Qed.
Lemma slice_in cur m off n (buf q : list Z) : slice cur m buf = q -> (off + n <= m)%nat -> slice (cur + off) n buf = slice off n q.
Proof. intros <- H. unfold slice. rewrite skipn_firstn_comm, drop_drop, take_take. f_equal. lia. Qed.
Lemma entry_says buf cur l : slice cur (length (login_line l)) buf = login_line l -> says buf (entry_at cur l) l.
Proof.
  intros Hs. unfold says, entry_at. cbn [user ulen pass plen]. split_and!; try done.
  - replace cur with (cur + 0)%nat by lia. rewrite (slice_in _ _ 0 _ _ _ Hs) by (rewrite length_line; lia). unfold slice, login_line. by rewrite drop_0, take_app_length.
  - rewrite <- Nat.add_assoc, (slice_in _ _ _ _ _ _ Hs) by (rewrite length_line; lia). unfold slice, login_line.
    rewrite drop_app_add. change (drop 1 (58 :: l.2 ++ [10])) with (l.2 ++ [10]). by rewrite take_app_length.
Qed.

(** ** The loop over the lines *)

Definition lines_size (ls : list (list Z * list Z)) : nat := length (concat (map login_line ls)).
Lemma put_fits off bs buf : (off + length bs <= length buf)%nat -> put off bs buf = Some (write off bs buf).
Proof. intros H. unfold put. by rewrite (proj2 (Nat.leb_le _ _) H). Qed.

(** Behind [k] lines the buffer has room for the rest and [k] bytes more. *)
Lemma load_lines_ok ls : forall fuel cur used done_ buf, Forall line_ok ls -> Forall2 (says buf) used done_ -> Forall (before cur) used ->
  (cur + lines_size ls + length used <= length buf)%nat -> (1 <= length used \/ 2 <= length ls)%nat -> (length used + fuel = MAX_ENTRIES)%nat ->
  exists used' buf', load_lines fuel cur used buf (concat (map login_line ls)) = Some (true, used', buf') /\ Forall2 (says buf') used' (done_ ++ take fuel ls).
Proof.
  induction ls as [|l ls IH]; intros fuel cur used done_ buf Hok Hs Hb Hfit Hone Hfuel.
  { exists used, buf. destruct fuel; cbn; by rewrite app_nil_r. }
  destruct fuel as [|fuel]; [exists used, buf; cbn; by rewrite app_nil_r|]. apply Forall_cons in Hok as [Hl Hok]. cbn [map concat load_lines].
  rewrite fgets_entry by done. unfold lines_size in *. cbn [map concat] in Hfit. rewrite length_app in Hfit.
  assert (cur + length (login_line l ++ [0%Z]) <= length buf)%nat as Hput.
  { rewrite length_app. cbn [length]. destruct Hone as [Hone|Hone]; [lia|]. destruct ls as [|l2 ls]; [cbn in Hone; lia|]. cbn [map concat] in Hfit. rewrite length_app in Hfit. pose proof (length_line l2). lia. }
  rewrite put_fits by done. cbn [mbind option_bind]. set (buf1 := write cur (login_line l ++ [0]) buf).
  assert (length buf1 = length buf) as Hlen by (by apply length_write).
  assert (slice cur (length (login_line l)) buf1 = login_line l) as Hslice.
  { replace cur with (cur + 0)%nat by lia. rewrite (slice_in cur _ 0 _ buf1 _ (slice_write_same _ _ _ Hput)) by (rewrite length_app; lia).
    unfold slice. by rewrite drop_0, take_app_length. }
  destruct (scan_line l buf1 cur Hl Hslice) as [-> Hnl]. cbn [mbind option_bind].
  assert (Forall2 (says buf1) (used ++ [entry_at cur l]) (done_ ++ [l])) as Hs1.
  { apply Forall2_app; [|by repeat constructor; apply entry_says]. clear - Hs Hb Hput. revert Hb. induction Hs as [|e d es ds He Hs IH]; intros Hb; [constructor|].
    apply Forall_cons in Hb as [Hb1 Hb2]. constructor; [by apply says_put|by apply IH]. }
  destruct (length (used ++ [entry_at cur l]) =? MAX_ENTRIES)%nat eqn:Emax.
  { zbool. rewrite length_app in Emax. cbn [length] in Emax. assert (fuel = 0)%nat as -> by lia. exists (used ++ [entry_at cur l]), buf1. by split. }
  rewrite Hnl. cbn [mbind option_bind Z.eqb]. rewrite length_line in *.
  destruct (IH fuel (cur + (length l.1 + 1 + length l.2))%nat (used ++ [entry_at cur l]) (done_ ++ [l]) buf1) as (used' & buf' & E & Hs'); try done.
  - apply Forall_app. split; [|constructor; [unfold before, entry_at; cbn; lia|constructor]]. eapply Forall_impl; [exact Hb|]. intros e [B1 B2]. unfold before. lia.
  - rewrite length_app, Hlen. cbn [length]. lia.
  - left. rewrite length_app. cbn. lia.
  - rewrite length_app. cbn [length]. lia.
  - exists used', buf'. split; [exact E|]. cbn [take]. by rewrite <- app_assoc in Hs'.
Qed.

Lemma check_says buf used ls u p : Forall2 (says buf) used ls -> existsb (entry_matches_login buf u p) used = true <-> (u, p) ∈ ls.
Proof.
  induction 1 as [|e [u0 p0] used ls (H1 & H2 & H3 & H4) _ IH]; cbn [existsb]; [by rewrite elem_of_nil|]. rewrite orb_true_iff, elem_of_cons, IH.
  cbn [fst snd] in *. unfold entry_matches_login. rewrite H3, H4, H1, H2, !andb_true_iff, !Nat.eqb_eq, !bool_decide_eq_true. naive_solver.
Qed.

(** C39: the password file.  A file of two or more lines of the form "user:password", each below the
    limit of 255 characters, is loaded, and then exactly the pairs of its first eight lines
    pass the check.  Whatever a load returns other than success, the accounts that were
    loaded before stay in force. *)
Theorem authfile_accepts_exactly ls db : Forall line_ok ls -> (2 <= length ls)%nat ->
  (exists db', authfile_load true true true (concat (map login_line ls)) db = Some (AUTHFILE_OK, db') /\
     forall u p, authfile_check u p db' = true <-> (u, p) ∈ take MAX_ENTRIES ls) /\
  forall ex mem rd file r db2, authfile_load ex mem rd file db = Some (r, db2) -> r <> AUTHFILE_OK -> db2 = db.
Proof.
  intros Hok Hlen. split.
  - destruct (load_lines_ok ls MAX_ENTRIES 0 [] [] (replicate (length (concat (map login_line ls))) 0)) as (used & buf & E & Hs); try done.
    + rewrite length_replicate. unfold lines_size. cbn. lia.
    + by right.
    + unfold authfile_load. cbn [negb]. rewrite E. cbn [mbind option_bind]. eexists. split; [done|]. intros u p. unfold authfile_check. cbn [main_auth_entries main_auth_data].
      by apply check_says.
  - intros ex mem rd file r db2 H Hr. unfold authfile_load in H. destruct ex, mem, rd; cbn [negb] in H; try (by injection H as <- <-).
    destruct (load_lines _ _ _ _ _) as [[[[] used] buf]|]; cbn [mbind option_bind] in H; try done; by injection H as <- <-.
Qed.
(** A file with one line makes [fgets] write its terminating byte behind the buffer, which has
    the size of the file. *)
Lemma single_line_overflows l db : line_ok l -> authfile_load true true true (login_line l) db = None.
Proof.
  intros Hl. unfold authfile_load. cbn [negb]. pose proof (fgets_entry l [] Hl) as E. rewrite app_nil_r in E. unfold MAX_ENTRIES. cbn [load_lines]. rewrite E.
  unfold put. rewrite length_app, length_replicate. cbn [length]. by rewrite (proj2 (Nat.leb_gt _ _)) by lia.
Qed.
(** A line without a colon is searched beyond its end, and beyond the buffer. *)
Lemma missing_colon_reads_past : authfile_load true true true (bytes "user" ++ [10] ++ bytes "a:b" ++ [10]) {| main_auth_entries := []; main_auth_data := [] |} = None.
Proof. vm_compute. reflexivity. Qed.

(** Two accounts; the third pair mixes them. *)
Lemma authfile_accepts_exactly_witness : exists db,
  authfile_load true true true (bytes "ann:x1" ++ [10] ++ bytes "bob:y" ++ [10]) {| main_auth_entries := []; main_auth_data := [] |} = Some (AUTHFILE_OK, db) /\
  authfile_check (bytes "bob") (bytes "y") db = true /\ ~ authfile_check (bytes "bob") (bytes "x1") db = true.
Proof.
  destruct (authfile_accepts_exactly [(bytes "ann", bytes "x1"); (bytes "bob", bytes "y")] {| main_auth_entries := []; main_auth_data := [] |}) as [(db & E & H) _].
  - repeat constructor; try discriminate; apply Nat.ltb_lt; vm_compute; reflexivity.
  - cbn. lia.
  - exists db. split; [exact E|]. split; [apply H; vm_compute; apply list_elem_of_further, list_elem_of_here|]. rewrite H. vm_compute. intros F.
    repeat (apply elem_of_cons in F as [F|F]; [discriminate F|]). by apply elem_of_nil in F.
Defined.
