(* ===== verification/McThread.v ===== *)
(** The hand-over of connections to the worker threads (src/memcached-sr/thread.c): the queue of a
    thread, the pool of queue items, dispatch_conn_new, redispatch_conn and
    thread_libevent_process.

    Memory is a map from addresses to queue items.  The lists are used by several threads
    under their locks; every section under a lock is one step, and the steps of the
    threads are interleaved in any order.  A thread is what this code keeps of it: the ends of
    its queue, the bytes in its pipe, and where it is in thread_libevent_process.  What
    is sent to a thread and what it has taken up are recorded.  Allocations and pipes are taken
    to succeed; of the commands a worker reads from its pipe, only the one of this hand-over
    ('c') is here. *)
From S2P Require Import Prelude.

Definition ITEMS_PER_ALLOC : nat := 64.
Definition sizeof_CQ_ITEM : Z := 48.

Inductive conn_queue_item_modes := queue_new_conn | queue_redispatch.
(** What [conn_new] is called with, or the connection that goes back to its thread. *)
Inductive work := New (sfd init_state event_flags read_buffer_size transport ssl : Z) | Readd (c : Z).
Record CQ_ITEM := {
  sfd : Z; init_state : Z; event_flags : Z; read_buffer_size : Z; transport : Z; mode : conn_queue_item_modes; cq_conn : Z; cq_ssl : Z; cq_next : Z
}.
Definition with_next (v : Z) (i : CQ_ITEM) : CQ_ITEM :=
  {| sfd := sfd i; init_state := init_state i; event_flags := event_flags i; read_buffer_size := read_buffer_size i; transport := transport i;
     mode := mode i; cq_conn := cq_conn i; cq_ssl := cq_ssl i; cq_next := v |}.
Abbreviation cmem := (gmap Z CQ_ITEM).
Definition next_of (m : cmem) (x : Z) : Z := from_option cq_next 0 (m !! x).
(** Memory from malloc; its contents are not used before they are set. *)
Definition raw_item : CQ_ITEM :=
  {| sfd := 0; init_state := 0; event_flags := 0; read_buffer_size := 0; transport := 0; mode := queue_new_conn; cq_conn := 0; cq_ssl := 0; cq_next := 0 |}.

Record CQ := { cq_head : Z; cq_tail : Z }.
Definition cq_init : CQ := {| cq_head := 0; cq_tail := 0 |}.
Definition cq_pop (q : CQ) (m : cmem) : Z * CQ :=
  let item := cq_head q in
  if negb (item =? 0) then
    let h := next_of m item in
    (item, {| cq_head := h; cq_tail := if h =? 0 then 0 else cq_tail q |})
  else (item, q).
Definition cq_push (q : CQ) (item : Z) (m : cmem) : CQ * cmem :=
  let m := alter (with_next 0) item m in
  if cq_tail q =? 0 then ({| cq_head := item; cq_tail := item |}, m)
  else ({| cq_head := cq_head q; cq_tail := item |}, alter (with_next item) (cq_tail q) m).

(** The pool: its two sections under the lock, and the return of an item. *)
Definition cqi_take (freelist : Z) (m : cmem) : Z * Z := if negb (freelist =? 0) then (freelist, next_of m freelist) else (0, freelist).
Definition nth_item (a : Z) (i : nat) : Z := a + sizeof_CQ_ITEM * Z.of_nat i.
(** The items of a block from the [i]-th on, each linked to the next, the last to [freelist]. *)
Fixpoint link_block (a : Z) (i n : nat) (freelist : Z) (m : cmem) : cmem :=
  match n with
  | O => m
  | S O => <[nth_item a i := with_next freelist raw_item]> m
  | S n => <[nth_item a i := with_next (nth_item a (S i)) raw_item]> (link_block a (S i) n freelist m)
  end.
(** [a] is what malloc returned, not null: the first item goes to the caller. *)
Definition cqi_refill (a freelist : Z) (m : cmem) : Z * Z * cmem :=
  (a, nth_item a 1, <[a := raw_item]> (link_block a 1 (ITEMS_PER_ALLOC - 1) freelist m)).
Definition cqi_free (item freelist : Z) (m : cmem) : Z * cmem := (item, alter (with_next freelist) item m).

(** ** Handing over *)

Definition fill_new (fd st fl rs tr sl : Z) (i : CQ_ITEM) : CQ_ITEM :=
  {| sfd := fd; init_state := st; event_flags := fl; read_buffer_size := rs; transport := tr; mode := queue_new_conn; cq_conn := cq_conn i; cq_ssl := sl; cq_next := cq_next i |}.
(** [st] is conn_new_cmd. *)
Definition fill_redispatch (fd st c : Z) (i : CQ_ITEM) : CQ_ITEM :=
  {| sfd := fd; init_state := st; event_flags := event_flags i; read_buffer_size := read_buffer_size i; transport := transport i; mode := queue_redispatch;
     cq_conn := c; cq_ssl := cq_ssl i; cq_next := cq_next i |}.
Definition work_of (i : CQ_ITEM) : work :=
  match mode i with
  | queue_new_conn => New (sfd i) (init_state i) (event_flags i) (read_buffer_size i) (transport i) (cq_ssl i)
  | queue_redispatch => Readd (cq_conn i)
  end.

(** In [thread_libevent_process]: waiting, behind the read of a byte, with an item. *)
Inductive worker := Waiting | Woken | Has (item : Z).
(** [owed] counts the dispatchers that have pushed an item and not yet written to the pipe. *)
Record thread := { new_conn_queue : CQ; owed : nat; notify : nat; wk : worker; sent : list work; taken : list work }.
Definition thread0 : thread := {| new_conn_queue := cq_init; owed := 0; notify := 0; wk := Waiting; sent := []; taken := [] |}.
Definition with_queue (q : CQ) (t : thread) : thread := {| new_conn_queue := q; owed := owed t; notify := notify t; wk := wk t; sent := sent t; taken := taken t |}.
Definition with_notify (n : nat) (w : worker) (t : thread) : thread := {| new_conn_queue := new_conn_queue t; owed := owed t; notify := n; wk := w; sent := sent t; taken := taken t |}.
Definition note_sent (w : work) (t : thread) : thread := {| new_conn_queue := new_conn_queue t; owed := S (owed t); notify := notify t; wk := wk t; sent := sent t ++ [w]; taken := taken t |}.
Definition note_taken (w : work) (t : thread) : thread := {| new_conn_queue := new_conn_queue t; owed := owed t; notify := notify t; wk := wk t; sent := sent t; taken := taken t ++ [w] |}.

(** [hands] are the items dispatchers have fetched from the pool, [targets] the threads new
    connections went to. *)
Record cq_pool := {
  pmem : cmem; cqi_freelist : Z; ths : nat -> thread; hands : list Z; last_thread : Z; targets : list Z
}.
Definition upd_thread (t : nat) (f : thread -> thread) (ths : nat -> thread) : nat -> thread := fun u => if decide (u = t) then f (ths u) else ths u.
Definition pool0 : cq_pool := {| pmem := ∅; cqi_freelist := 0; ths := fun _ => thread0; hands := []; last_thread := -1; targets := [] |}.

Definition fetch (s : cq_pool) : Z * cq_pool :=
  let '(x, fl) := cqi_take (cqi_freelist s) (pmem s) in
  (x, {| pmem := pmem s; cqi_freelist := fl; ths := ths s; hands := if x =? 0 then hands s else x :: hands s; last_thread := last_thread s; targets := targets s |}).
Definition refill (a : Z) (s : cq_pool) : cq_pool :=
  let '(x, fl, m) := cqi_refill a (cqi_freelist s) (pmem s) in
  {| pmem := m; cqi_freelist := fl; ths := ths s; hands := x :: hands s; last_thread := last_thread s; targets := targets s |}.
(** An item that is filled is put into the queue of thread [t]. *)
Definition push_to (t : nat) (x : Z) (f : CQ_ITEM -> CQ_ITEM) (w : work) (s : cq_pool) : cq_pool :=
  let '(q, m) := cq_push (new_conn_queue (ths s t)) x (alter f x (pmem s)) in
  {| pmem := m; cqi_freelist := cqi_freelist s; ths := upd_thread t (fun th => note_sent w (with_queue q th)) (ths s);
     hands := filter (fun y => y <> x) (hands s); last_thread := last_thread s; targets := targets s |}.
(** The rest of [dispatch_conn_new] with [num_threads] threads, but for the write to the pipe. *)
Definition dispatch_conn_new (num_threads : Z) (x fd st fl rs tr sl : Z) (s : cq_pool) : cq_pool :=
  let tid := (last_thread s + 1) mod num_threads in
  let s := push_to (Z.to_nat tid) x (fill_new fd st fl rs tr sl) (New fd st fl rs tr sl) s in
  {| pmem := pmem s; cqi_freelist := cqi_freelist s; ths := ths s; hands := hands s; last_thread := tid; targets := targets s ++ [tid] |}.
(** [t] is the thread of the connection. *)
Definition redispatch_conn (t : nat) (x fd st c : Z) (s : cq_pool) : cq_pool := push_to t x (fill_redispatch fd st c) (Readd c) s.
Definition on_thread (t : nat) (f : thread -> thread) (s : cq_pool) : cq_pool :=
  {| pmem := pmem s; cqi_freelist := cqi_freelist s; ths := upd_thread t f (ths s); hands := hands s; last_thread := last_thread s; targets := targets s |}.
(** The write of one byte to the pipe of a thread. *)
Definition notify_thread (t : nat) (s : cq_pool) : cq_pool :=
  on_thread t (fun th => {| new_conn_queue := new_conn_queue th; owed := owed th - 1; notify := S (notify th); wk := wk th; sent := sent th; taken := taken th |}) s.
(** [thread_libevent_process]: the read, the fetch from the queue, the work and the return of the item. *)
Definition process_read (t : nat) (s : cq_pool) : cq_pool := on_thread t (fun th => with_notify (notify th - 1) Woken th) s.
Definition process_pop (t : nat) (s : cq_pool) : cq_pool :=
  on_thread t (fun th => let '(x, q) := cq_pop (new_conn_queue th) (pmem s) in with_notify (notify th) (if x =? 0 then Waiting else Has x) (with_queue q th)) s.
Definition process_work (t : nat) (x : Z) (s : cq_pool) : cq_pool :=
  let '(fl, m) := cqi_free x (cqi_freelist s) (pmem s) in
  {| pmem := m; cqi_freelist := fl;
     ths := upd_thread t (fun th => note_taken (work_of (default raw_item (pmem s !! x))) (with_notify (notify th) Waiting th)) (ths s);
     hands := hands s; last_thread := last_thread s; targets := targets s |}.

Inductive step (n : Z) (s : cq_pool) : cq_pool -> Prop :=
| step_fetch : step n s (fetch s).2
| step_refill a : a <> 0 -> (forall i, (i < ITEMS_PER_ALLOC)%nat -> nth_item a i <> 0 /\ pmem s !! nth_item a i = None) -> step n s (refill a s)
| step_dispatch x fd st fl rs tr sl : x ∈ hands s -> step n s (dispatch_conn_new n x fd st fl rs tr sl s)
| step_redispatch t x fd st c : x ∈ hands s -> (Z.of_nat t < n) -> step n s (redispatch_conn t x fd st c s)
| step_notify t : (0 < owed (ths s t))%nat -> step n s (notify_thread t s)
| step_read t : wk (ths s t) = Waiting -> (0 < notify (ths s t))%nat -> step n s (process_read t s)
| step_pop t : wk (ths s t) = Woken -> step n s (process_pop t s)
| step_work t x : wk (ths s t) = Has x -> step n s (process_work t x s).
Inductive reaches (n : Z) : cq_pool -> Prop :=
| reaches_start : reaches n pool0
| reaches_step s s' : reaches n s -> step n s s' -> reaches n s'.

(** ** Lists in memory *)

Fixpoint chained (m : cmem) (a : Z) (l : list Z) : Prop :=
  match l with
  | [] => a = 0
  | x :: l => a = x /\ x <> 0 /\ chained m (next_of m x) l
  end.
Lemma chained_frame m m' l : forall a, (forall x, x ∈ l -> next_of m' x = next_of m x) -> chained m a l -> chained m' a l.
Proof.
  induction l as [|x l IH]; intros a Hn; cbn [chained]; [done|]. intros (-> & H0 & H). split_and!; try done.
  rewrite Hn by set_solver. apply IH; [|done]. intros y Hy. apply Hn. set_solver.
Qed.
Lemma chained_nonzero m l : forall a, chained m a l -> (a =? 0) = bool_decide (l = []).
Proof. destruct l as [|x l]; intros a; cbn [chained]; [by intros ->|]. intros (-> & H0 & _). by rewrite (proj2 (Z.eqb_neq _ _)). Qed.
Lemma next_alter f x m y : next_of (alter f x m) y = if decide (x = y) then from_option (fun i => cq_next (f i)) 0 (m !! y) else next_of m y.
Proof.
  unfold next_of. destruct (decide (x = y)) as [-> |Hne]; [rewrite lookup_alter_eq; by destruct (m !! y)|by rewrite lookup_alter_ne].
Qed.
Lemma next_alter_ne f x m y : x <> y -> next_of (alter f x m) y = next_of m y.
Proof. intros H. rewrite next_alter. by rewrite decide_False. Qed.
Lemma chained_alter f x m a l : x ∉ l -> chained m a l -> chained (alter f x m) a l.
Proof. intros Hx. apply chained_frame. intros y Hy. apply next_alter_ne. by intros ->. Qed.

(** A queue with its two ends. *)
Definition queued (m : cmem) (q : CQ) (l : list Z) : Prop := chained m (cq_head q) l /\ cq_tail q = default 0 (last l).
Lemma last_elem (l : list Z) x : last l = Some x -> x ∈ l.
Proof. intros H. apply last_Some in H as [l' ->]. set_solver. Qed.
Lemma chained_push m y l : forall a, chained m a l -> NoDup l -> y ∉ l -> y <> 0 -> next_of m y = 0 -> (forall x, x ∈ l -> is_Some (m !! x)) -> l <> [] ->
  chained (alter (with_next y) (default 0 (last l)) m) a (l ++ [y]).
Proof.
  induction l as [|x l IH]; intros a H Hnd Hy H0 Hny Hm Hne; [done|]. cbn [chained] in H. destruct H as (-> & Hx & H). apply NoDup_cons in Hnd as [Hxl Hnd].
  destruct l as [|z l].
  - cbn [app last default chained]. split_and!; try done; rewrite next_alter.
    + rewrite decide_True by done. destruct (Hm x ltac:(set_solver)) as [i ->]. done.
    + rewrite decide_False by set_solver. done.
  - change (last (x :: z :: l)) with (last (z :: l)). refine (conj eq_refl (conj Hx _)). rewrite next_alter_ne.
    + apply (IH (next_of m x)); try done; [set_solver|]. intros w Hw. apply Hm. set_solver.
    + destruct (last (z :: l)) as [w|] eqn:El; [|by destruct l]. cbn. intros ->. apply last_elem in El. done.
Qed.
Lemma push_queued q x l m : queued m q l -> NoDup l -> x ∉ l -> x <> 0 -> (forall y, y ∈ l -> is_Some (m !! y)) -> is_Some (m !! x) ->
  let '(q', m') := cq_push q x m in queued m' q' (l ++ [x]) /\ (forall y, y ∉ x :: l -> m' !! y = m !! y) /\
  (forall y, (work_of <$> m' !! y) = (work_of <$> m !! y)).
Proof.
  intros [Hc Ht] Hnd Hx H0 Hm [i Hi]. unfold cq_push. rewrite Ht. set (m1 := alter (with_next 0) x m).
  assert (forall f y, (forall j, work_of (f j) = work_of j) -> forall z (m0 : cmem), (work_of <$> alter f y m0 !! z) = (work_of <$> m0 !! z)) as Hwk.
  { intros f y Hf z m0. destruct (decide (y = z)) as [-> |Hne]; [rewrite lookup_alter_eq; destruct (m0 !! z); [cbn; by rewrite Hf|done]|by rewrite lookup_alter_ne]. }
  assert (next_of m1 x = 0) as Hn1 by (unfold m1; rewrite next_alter, decide_True, Hi; done).
  destruct l as [|z l].
  - cbn [last default Z.eqb]. split_and!; [|intros y Hy; unfold m1; apply lookup_alter_ne; set_solver|intros y; by apply Hwk].
    split; [|done]. cbn [app chained cq_head]. by split_and!.
  - destruct (last (z :: l)) as [e|] eqn:El; [|by apply last_None in El]. pose proof (last_elem _ _ El) as He.
    assert (e <> 0) as He0. { clear - Hc He. revert Hc. generalize (cq_head q). induction (z :: l) as [|w k IH]; intros a Hc; [by apply not_elem_of_nil in He|].
      cbn [chained] in Hc. destruct Hc as (_ & Hw & Hc). apply elem_of_cons in He as [-> |He]; [done|by eapply IH]. }
    change (default 0 (Some e)) with e. rewrite (proj2 (Z.eqb_neq _ _) He0). split_and!.
    + split; [|cbn [cq_tail]; by rewrite last_snoc]. cbn [cq_head].
      pose proof (chained_push m1 x (z :: l) (cq_head q)) as Hp. rewrite El in Hp. cbn [default] in Hp. apply Hp; try done; [by apply chained_alter|].
      intros y Hy. unfold m1. rewrite lookup_alter_ne by (intros ->; done). by apply Hm.
    + intros y Hy. rewrite lookup_alter_ne by set_solver. unfold m1. apply lookup_alter_ne. set_solver.
    + intros y. unfold m1. by rewrite !Hwk.
Qed.
Lemma nth_item_inj a i j : nth_item a i = nth_item a j -> i = j.
Proof. unfold nth_item, sizeof_CQ_ITEM. lia. Qed.
Lemma block_lookup a fl m n : forall i y, (forall j, (i <= j < i + n)%nat -> y <> nth_item a j) -> link_block a i n fl m !! y = m !! y.
Proof.
  induction n as [|[|n] IH]; intros i y Hy; [done| |].
  - cbn [link_block]. apply lookup_insert_ne. symmetry. apply Hy. lia.
  - change (link_block a i (S (S n)) fl m) with (<[nth_item a i := with_next (nth_item a (S i)) raw_item]> (link_block a (S i) (S n) fl m)).
    rewrite lookup_insert_ne by (symmetry; apply Hy; lia). apply IH. intros j Hj. apply Hy. lia.
Qed.
Lemma chained_cons m x l : x <> 0 -> chained m (next_of m x) l -> chained m x (x :: l).
Proof. done. Qed.
Lemma chained_insert x v m a l : x ∉ l -> chained m a l -> chained (<[x := v]> m) a l.
Proof. intros Hx. apply chained_frame. intros y Hy. unfold next_of. rewrite lookup_insert_ne by (intros ->; done). done. Qed.
Lemma block_chained a fl m F n : forall i, (forall j, (i <= j < i + S n)%nat -> nth_item a j <> 0 /\ nth_item a j ∉ F) -> chained m fl F ->
  chained (link_block a i (S n) fl m) (nth_item a i) (map (nth_item a) (seq i (S n)) ++ F).
Proof.
  induction n as [|n IH]; intros i Hj Hc.
  - cbn [link_block seq map app chained]. destruct (Hj i ltac:(lia)) as [H0 HF]. split_and!; try done. unfold next_of. rewrite lookup_insert_eq. cbn [from_option with_next cq_next].
    by apply chained_insert.
  - change (link_block a i (S (S n)) fl m) with (<[nth_item a i := with_next (nth_item a (S i)) raw_item]> (link_block a (S i) (S n) fl m)).
    set (tl := map (nth_item a) (seq (S i) (S n)) ++ F). change (map (nth_item a) (seq i (S (S n))) ++ F) with (nth_item a i :: tl). destruct (Hj i ltac:(lia)) as [H0 HF].
    apply chained_cons; [done|]. unfold next_of at 1. rewrite lookup_insert_eq. change (from_option cq_next 0 _) with (nth_item a (S i)). apply chained_insert; unfold tl.
    + rewrite elem_of_app. intros [Hin|Hin]; [|done]. apply list_elem_of_fmap in Hin as (j & Ej%nth_item_inj & Hin). apply elem_of_seq in Hin. lia.
    + apply IH; [|done]. intros j Hj'. apply Hj. lia.
Qed.
Lemma block_mem a fl m n : forall i j, (i <= j < i + n)%nat -> is_Some (link_block a i n fl m !! nth_item a j).
Proof.
  induction n as [|[|n] IH]; intros i j Hj; [lia| |].
  - cbn [link_block]. replace j with i by lia. rewrite lookup_insert_eq. by eexists.
  - change (link_block a i (S (S n)) fl m) with (<[nth_item a i := with_next (nth_item a (S i)) raw_item]> (link_block a (S i) (S n) fl m)).
    destruct (decide (i = j)) as [-> |Hne]; [rewrite lookup_insert_eq; by eexists|]. rewrite lookup_insert_ne by (intros E%nth_item_inj; done). apply IH. lia.
Qed.

(** ** Every item has one owner *)

Inductive place := Free | Queue (t : nat) | Hand | Work (t : nat).
#[global] Instance place_eq : EqDecision place.
Proof. solve_decision. Qed.
Definition work_at (m : cmem) (x : Z) : work := work_of (default raw_item (m !! x)).
Definition in_work (m : cmem) (w : worker) : list work := match w with Has x => [work_at m x] | _ => [] end.
Definition woken (w : worker) : nat := match w with Woken => 1 | _ => 0 end.

Record owned (n : Z) (s : cq_pool) (own : Z -> option place) (F : list Z) (Q : nat -> list Z) : Prop := {
  ow_free : chained (pmem s) (cqi_freelist s) F;
  ow_queue : forall t, queued (pmem s) (new_conn_queue (ths s t)) (Q t);
  ow_nodup : NoDup F /\ forall t, NoDup (Q t);
  ow_inF : forall x, x ∈ F <-> own x = Some Free;
  ow_inQ : forall t x, x ∈ Q t <-> own x = Some (Queue t);
  ow_inH : forall x, x ∈ hands s <-> own x = Some Hand;
  ow_inW : forall t x, wk (ths s t) = Has x <-> own x = Some (Work t);
  ow_mem : forall x, own x <> None -> x <> 0 /\ is_Some (pmem s !! x);
  ow_count : forall t, (owed (ths s t) + notify (ths s t) + woken (wk (ths s t)) = length (Q t))%nat;
  ow_work : forall t, sent (ths s t) = taken (ths s t) ++ in_work (pmem s) (wk (ths s t)) ++ map (work_at (pmem s)) (Q t);
  ow_targets : targets s = map (fun i => Z.of_nat i mod n) (seq 0 (length (targets s)));
  ow_last : last_thread s = if (length (targets s) =? 0)%nat then -1 else Z.of_nat (length (targets s) - 1) mod n
}.
Definition give (x : Z) (p : place) (own : Z -> option place) : Z -> option place := fun y => if decide (y = x) then Some p else own y.

Lemma owned_start n : owned n pool0 (fun _ => None) [] (fun _ => []).
Proof. split; try done; intros; split_and!; try done; try (by constructor); intros; set_solver. Qed.

(** What a change of owner does to the lists. *)
Lemma give_other (P : Z -> Prop) x p p' own : own x <> Some p' -> p <> p' -> (forall y, P y <-> own y = Some p') -> forall y, P y <-> give x p own y = Some p'.
Proof. intros H1 H2 HP y. unfold give. rewrite HP. destruct (decide (y = x)) as [-> |]; [|done]. split; [done|]. intros [= ->]. done. Qed.
Lemma give_add (P : Z -> Prop) x p own : (forall y, P y <-> own y = Some p) -> forall y, y = x \/ P y <-> give x p own y = Some p.
Proof. intros HP y. unfold give. destruct (decide (y = x)); naive_solver. Qed.
Lemma give_remove (P : Z -> Prop) x p p' own : p <> p' -> (forall y, P y <-> own y = Some p') -> forall y, P y /\ y <> x <-> give x p own y = Some p'.
Proof. intros Hp HP y. unfold give. destruct (decide (y = x)); naive_solver. Qed.

Section steps.
Context (n : Z).

Lemma owned_fetch s own F Q : owned n s own F Q -> exists own' F', owned n (fetch s).2 own' F' Q.
Proof.
  intros O. pose proof O as [O1 O2 [O3 O4] O5 O6 O7 O8 O9 O10 O11 O12 O13]. unfold fetch, cqi_take. rewrite (chained_nonzero _ _ _ O1). destruct F as [|x F].
  - cbn [bool_decide]. rewrite bool_decide_eq_true_2 by done. cbn [negb Z.eqb snd]. exists own, []. by destruct s.
  - rewrite bool_decide_eq_false_2 by done. cbn [negb]. cbn [chained] in O1. destruct O1 as (E & H0 & O1). rewrite E, (proj2 (Z.eqb_neq _ _) H0). cbn [snd].
    assert (own x = Some Free) as Hx by (apply O5; set_solver). apply NoDup_cons in O3 as [Hn O3].
    exists (give x Hand own), F. split; cbn [pmem cqi_freelist ths hands last_thread targets]; try done.
    + intros y. rewrite <- (give_remove (fun y => y ∈ x :: F) x Hand Free own) by done. set_solver.
    + intros t. apply give_other; [by rewrite Hx|done|apply O6].
    + intros y. rewrite <- (give_add (fun y => y ∈ hands s) x Hand own) by done. set_solver.
    + intros t. apply give_other; [by rewrite Hx|done|apply O8].
    + intros y Hy. unfold give in Hy. destruct (decide (y = x)) as [-> |]; apply O9; [by rewrite Hx|done].
Qed.

(** Memory changes that leave the lists alone. *)
Lemma queued_frame m m' q l : (forall x, x ∈ l -> next_of m' x = next_of m x) -> queued m q l -> queued m' q l.
Proof. intros H [H1 H2]. split; [|done]. by apply (chained_frame m). Qed.
Lemma works_same m m' l : (forall x, x ∈ l -> work_at m' x = work_at m x) -> map (work_at m') l = map (work_at m) l.
Proof. intros H. induction l as [|x l IH]; [done|]. cbn [map]. rewrite H, IH by set_solver. done. Qed.

Lemma owned_refill s own F Q a : owned n s own F Q -> (forall i, (i < ITEMS_PER_ALLOC)%nat -> nth_item a i <> 0 /\ pmem s !! nth_item a i = None) ->
  exists own' F', owned n (refill a s) own' F' Q.
Proof.
  intros O Hfresh. pose proof O as [O1 O2 [O3 O4] O5 O6 O7 O8 O9 O10 O11 O12 O13]. unfold refill, cqi_refill.
  set (m := <[a := raw_item]> _). set (B := map (nth_item a) (seq 1 63)).
  assert (forall y, own y <> None -> (forall i, (i < ITEMS_PER_ALLOC)%nat -> y <> nth_item a i)) as Hold.
  { intros y Hy i Hi ->. destruct (Hfresh i Hi) as [_ E]. destruct (O9 _ Hy) as [_ [? E2]]. congruence. }
  assert (nth_item a 0 = a) as Ea by (unfold nth_item; lia).
  assert (forall y, own y <> None -> m !! y = pmem s !! y) as Hm.
  { intros y Hy. unfold m. rewrite lookup_insert_ne by (rewrite <- Ea; symmetry; apply (Hold y Hy); unfold ITEMS_PER_ALLOC; lia).
    apply block_lookup. intros j Hj. apply (Hold y Hy). unfold ITEMS_PER_ALLOC in *. lia. }
  assert (forall y, y ∈ B <-> exists i, (1 <= i < ITEMS_PER_ALLOC)%nat /\ y = nth_item a i) as HB.
  { intros y. unfold B. rewrite list_elem_of_fmap. split; intros (i & H1 & H2); exists i.
    - apply elem_of_seq in H2. split; [unfold ITEMS_PER_ALLOC; lia|done].
    - split; [done|]. apply elem_of_seq. unfold ITEMS_PER_ALLOC in *. lia. }
  exists (fun y => if decide (y = a) then Some Hand else if decide (y ∈ B) then Some Free else own y), (B ++ F).
  assert (own a = None) as Hoa by (destruct (own a) eqn:E; [|done]; exfalso; apply (Hold a ltac:(by rewrite E) 0%nat); [unfold ITEMS_PER_ALLOC; lia|done]).
  assert (forall y, y ∈ B -> own y = None) as HoB.
  { intros y (i & Hi & ->)%HB. destruct (own (nth_item a i)) eqn:E; [|done]. exfalso. by apply (Hold (nth_item a i) ltac:(by rewrite E) i); [lia|]. }
  assert (a ∉ B) as HaB by (intros (i & Hi & E)%HB; rewrite <- Ea in E at 1; apply nth_item_inj in E; lia).
  assert (forall (P : Z -> Prop) p, p <> Hand -> p <> Free -> (forall y, P y <-> own y = Some p) ->
    forall y, P y <-> (if decide (y = a) then Some Hand else if decide (y ∈ B) then Some Free else own y) = Some p) as Hother.
  { intros P p H1 H2 HP y. rewrite HP. destruct (decide (y = a)) as [-> |]; [rewrite Hoa; naive_solver|]. destruct (decide (y ∈ B)) as [Hy|]; [rewrite (HoB y Hy); naive_solver|done]. }
  split; cbn [pmem cqi_freelist ths hands last_thread targets]; try done.
  - unfold m. apply chained_insert.
    + rewrite elem_of_app. intros [?|HF]; [done|]. apply O5 in HF. congruence.
    + apply (block_chained a (cqi_freelist s) (pmem s) F 62 1); [|done]. intros j Hj. destruct (Hfresh j) as [Hj0 _]; [unfold ITEMS_PER_ALLOC; lia|]. split; [done|].
      intros HF%O5. apply (Hold (nth_item a j) ltac:(by rewrite HF) j); [unfold ITEMS_PER_ALLOC; lia|done].
  - intros t. apply (queued_frame (pmem s)); [|apply O2]. intros x Hx%O6. unfold next_of. by rewrite Hm by (by rewrite Hx).
  - split; [|done]. apply NoDup_app. split_and!; [|intros y Hy HF%O5; rewrite (HoB y Hy) in HF; done|done].
    apply NoDup_fmap_2_strong; [intros i j _ _; apply nth_item_inj|apply NoDup_seq].
  - intros y. rewrite elem_of_app, O5. destruct (decide (y = a)) as [-> |]; [rewrite Hoa; naive_solver|]. destruct (decide (y ∈ B)); naive_solver.
  - intros t. apply Hother; [done|done|apply O6].
  - intros y. rewrite elem_of_cons, O7. destruct (decide (y = a)) as [-> |]; [naive_solver|]. destruct (decide (y ∈ B)) as [Hy|]; [rewrite (HoB y Hy); naive_solver|naive_solver].
  - intros t. apply Hother; [done|done|apply O8].
  - intros y Hy. destruct (decide (y = a)) as [-> |]; [|destruct (decide (y ∈ B)) as [HyB|]].
    + split; [rewrite <- Ea; apply Hfresh; unfold ITEMS_PER_ALLOC; lia|]. unfold m. rewrite lookup_insert_eq. by eexists.
    + apply HB in HyB as (i & Hi & ->). split; [apply Hfresh; lia|]. unfold m. rewrite lookup_insert_ne by (rewrite <- Ea at 1; intros E%nth_item_inj; lia).
      apply block_mem. unfold ITEMS_PER_ALLOC in *. lia.
    + rewrite (Hm y Hy). by apply O9.
  - intros t. rewrite O11. f_equal. f_equal.
    + destruct (wk (ths s t)) eqn:E; try done. apply O8 in E. cbn [in_work]. unfold work_at. by rewrite Hm by (by rewrite E).
    + symmetry. apply works_same. intros x Hx%O6. unfold work_at. by rewrite Hm by (by rewrite Hx).
Qed.

Lemma upd_same t f ts : upd_thread t f ts t = f (ts t).
Proof. unfold upd_thread. by rewrite decide_True. Qed.
Lemma upd_other t f ts u : u <> t -> upd_thread t f ts u = ts u.
Proof. intros H. unfold upd_thread. by rewrite decide_False. Qed.

(** An item goes into a queue. *)
Lemma owned_push s own F Q t x f w : owned n s own F Q -> x ∈ hands s -> (forall i, work_of (f i) = w) -> (forall i, cq_next (f i) = cq_next i) ->
  exists own' Q', owned n (push_to t x f w s) own' F Q'.
Proof.
  intros O Hx Hw Hf. pose proof O as [O1 O2 [O3 O4] O5 O6 O7 O8 O9 O10 O11 O12 O13]. apply O7 in Hx as Hown. destruct (O9 x ltac:(by rewrite Hown)) as [Hx0 [i Hi]].
  unfold push_to. set (m0 := alter f x (pmem s)).
  assert (forall y, next_of m0 y = next_of (pmem s) y) as Hn0.
  { intros y. unfold m0. rewrite next_alter. destruct (decide (x = y)) as [<- |]; [|done]. unfold next_of. rewrite Hi. cbn. apply Hf. }
  assert (forall y, y <> x -> m0 !! y = pmem s !! y) as Hm0 by (intros y Hy; unfold m0; by apply lookup_alter_ne).
  assert (x ∉ Q t) as HxQ by (intros H%O6; congruence).
  pose proof (push_queued (new_conn_queue (ths s t)) x (Q t) m0) as Hp. destruct (cq_push _ _ _) as [q m].
  destruct Hp as (Hq & Hm & Hwk); try done.
  { apply (queued_frame (pmem s)); [intros y _; apply Hn0|apply O2]. }
  { intros y Hy. rewrite Hm0 by (intros ->; done). apply O6 in Hy. apply O9. by rewrite Hy. }
  { unfold m0. rewrite lookup_alter_eq, Hi. by eexists. }
  assert (forall y, y <> x -> work_at m y = work_at (pmem s) y) as Hwy.
  { intros y Hy. unfold work_at. specialize (Hwk y). rewrite (Hm0 y Hy) in Hwk. destruct (m !! y), (pmem s !! y); cbn in Hwk; by simplify_eq. }
  assert (work_at m x = w) as Hwx.
  { unfold work_at. specialize (Hwk x). unfold m0 in Hwk. rewrite lookup_alter_eq, Hi in Hwk. destruct (m !! x); cbn in Hwk; simplify_eq. cbn. pose proof (Hw i). congruence. }
  assert (forall y, y ∉ x :: Q t -> m !! y = pmem s !! y) as Hmy by (intros y Hy; rewrite Hm by done; apply Hm0; set_solver).
  exists (give x (Queue t) own), (fun u => if decide (u = t) then Q u ++ [x] else Q u).
  split; cbn [pmem cqi_freelist ths hands last_thread targets].
  - apply (chained_frame (pmem s)); [|done]. intros y Hy%O5. unfold next_of. rewrite Hmy; [done|]. intros [-> |Hq'%O6]%elem_of_cons; congruence.
  - intros u. destruct (decide (u = t)) as [-> |Hu]; [rewrite upd_same; done|]. rewrite upd_other by done. apply (queued_frame (pmem s)); [|apply O2].
    intros y Hy%O6. unfold next_of. rewrite Hmy; [done|]. intros [-> |Hq'%O6]%elem_of_cons; congruence.
  - split; [done|]. intros u. destruct (decide (u = t)) as [-> |]; [|done]. apply NoDup_app. split_and!; [done|set_solver|apply NoDup_singleton].
  - apply give_other; [by rewrite Hown|done|done].
  - intros u y. destruct (decide (u = t)) as [-> |Hu]; [rewrite elem_of_app, list_elem_of_singleton, <- (give_add (fun y => y ∈ Q t) x (Queue t) own (O6 t)); tauto|].
    apply (give_other (fun y => y ∈ Q u)); [by rewrite Hown|congruence|apply O6].
  - intros y. rewrite list_elem_of_filter, <- (give_remove (fun y => y ∈ hands s) x (Queue t) Hand own) by done. tauto.
  - intros u y. rewrite <- (give_other (fun y => wk (ths s u) = Has y) x (Queue t) (Work u) own) by (by rewrite ?Hown).
    destruct (decide (u = t)) as [-> |Hu]; [by rewrite upd_same|by rewrite upd_other].
  - intros y Hy. unfold give in Hy. destruct (decide (y = x)) as [-> |Hyx].
    + split; [done|]. specialize (Hwk x). unfold m0 in Hwk. rewrite lookup_alter_eq, Hi in Hwk. destruct (m !! x); [by eexists|done].
    + destruct (O9 y Hy) as [H1 [j Hj]]. split; [done|]. specialize (Hwk y). rewrite (Hm0 y Hyx), Hj in Hwk. destruct (m !! y); [by eexists|done].
  - intros u. destruct (decide (u = t)) as [-> |Hu]; [rewrite upd_same; cbn [owed notify wk note_sent with_queue]; rewrite length_app; cbn [length]; specialize (O10 t); lia|].
    by rewrite upd_other.
  - assert (forall u, in_work m (wk (ths s u)) = in_work (pmem s) (wk (ths s u))) as Hiw.
    { intros u. destruct (wk (ths s u)) as [| |z] eqn:E; try done. cbn [in_work]. rewrite Hwy; [done|]. intros ->. apply O8 in E. congruence. }
    assert (forall u, map (work_at m) (Q u) = map (work_at (pmem s)) (Q u)) as Hmw.
    { intros u. apply works_same. intros z Hz%O6. apply Hwy. intros ->. congruence. }
    intros u. destruct (decide (u = t)) as [-> |Hu].
    + rewrite upd_same. cbn [sent taken wk note_sent with_queue]. rewrite map_app, Hiw, Hmw, O11, <- !app_assoc. cbn [map]. by rewrite Hwx.
    + rewrite upd_other by done. by rewrite Hiw, Hmw.
  - done.
  - done.
Qed.

(** Steps that only move a byte. *)
Lemma owned_byte s own F Q t f : owned n s own F Q -> new_conn_queue (f (ths s t)) = new_conn_queue (ths s t) -> sent (f (ths s t)) = sent (ths s t) ->
  taken (f (ths s t)) = taken (ths s t) -> (forall x, wk (f (ths s t)) = Has x <-> wk (ths s t) = Has x) -> in_work (pmem s) (wk (f (ths s t))) = in_work (pmem s) (wk (ths s t)) ->
  (owed (f (ths s t)) + notify (f (ths s t)) + woken (wk (f (ths s t))) = owed (ths s t) + notify (ths s t) + woken (wk (ths s t)))%nat ->
  owned n (on_thread t f s) own F Q.
Proof.
  intros [O1 O2 O34 O5 O6 O7 O8 O9 O10 O11 O12 O13] E1 E2 E3 E4 E5 E6.
  split; cbn [pmem cqi_freelist ths hands last_thread targets on_thread]; try done; intros u; (destruct (decide (u = t)) as [-> |Hu]; [rewrite upd_same|by rewrite upd_other]).
  - rewrite E1. apply O2.
  - intros x. rewrite E4. apply O8.
  - rewrite E6. apply O10.
  - rewrite E2, E3, E5. apply O11.
Qed.
(** A worker that was woken finds an item. *)
Lemma owned_pop s own F Q t : owned n s own F Q -> wk (ths s t) = Woken ->
  cq_head (new_conn_queue (ths s t)) <> 0 /\ exists own' Q', owned n (process_pop t s) own' F Q'.
Proof.
  intros O Hwk. pose proof O as [O1 O2 [O3 O4] O5 O6 O7 O8 O9 O10 O11 O12 O13]. destruct (O2 t) as [Hc Ht]. specialize (O10 t) as Hlen. rewrite Hwk in Hlen. cbn [woken] in Hlen.
  destruct (Q t) as [|x l] eqn:EQ; [cbn in Hlen; lia|]. cbn [chained] in Hc. destruct Hc as (Eh & Hx0 & Hc). split; [by rewrite Eh|].
  assert (own x = Some (Queue t)) as Hown by (apply O6; rewrite EQ; set_solver). specialize (O4 t) as Hnd. rewrite EQ in Hnd. apply NoDup_cons in Hnd as [Hxl Hnd].
  exists (give x (Work t) own), (fun u => if decide (u = t) then l else Q u). unfold process_pop, cq_pop. rewrite <- EQ in *.
  split; cbn [pmem cqi_freelist ths hands last_thread targets on_thread]; try done.
  - intros u. destruct (decide (u = t)) as [-> |Hu]; [|rewrite upd_other by done; apply O2]. rewrite upd_same, Eh, (proj2 (Z.eqb_neq _ _) Hx0). cbn [negb].
    rewrite (proj2 (Z.eqb_neq _ _) Hx0). cbn [with_notify new_conn_queue with_queue]. split; [exact Hc|]. cbn [cq_tail]. rewrite (chained_nonzero _ _ _ Hc), Ht, EQ.
    destruct l as [|z l]; [done|]. rewrite bool_decide_eq_false_2 by done. done.
  - split; [done|]. intros u. destruct (decide (u = t)) as [-> |]; [done|apply O4].
  - apply give_other; [by rewrite Hown|done|done].
  - intros u y. destruct (decide (u = t)) as [-> |Hu].
    + rewrite <- (give_remove (fun y => y ∈ Q t) x (Work t) (Queue t) own) by (done || apply O6). rewrite EQ. set_solver.
    + apply (give_other (fun y => y ∈ Q u)); [rewrite Hown; congruence|done|apply O6].
  - apply give_other; [by rewrite Hown|done|done].
  - intros u y. destruct (decide (u = t)) as [-> |Hu].
    + rewrite upd_same, Eh, (proj2 (Z.eqb_neq _ _) Hx0). cbn [negb]. rewrite (proj2 (Z.eqb_neq _ _) Hx0). cbn [with_notify wk]. unfold give. destruct (decide (y = x)) as [-> |Hne]; [done|].
      rewrite <- O8, Hwk. naive_solver.
    + rewrite upd_other by done. apply (give_other (fun y => wk (ths s u) = Has y)); [by rewrite Hown|congruence|apply O8].
  - intros y Hy. unfold give in Hy. destruct (decide (y = x)) as [-> |]; apply O9; [by rewrite Hown|done].
  - intros u. destruct (decide (u = t)) as [-> |Hu]; [|rewrite upd_other by done; apply O10]. rewrite upd_same, Eh, (proj2 (Z.eqb_neq _ _) Hx0). cbn [negb].
    rewrite (proj2 (Z.eqb_neq _ _) Hx0). cbn [with_notify wk owed notify woken with_queue]. rewrite EQ in Hlen. cbn [length] in Hlen. lia.
  - intros u. destruct (decide (u = t)) as [-> |Hu]; [|rewrite upd_other by done; apply O11]. rewrite upd_same, Eh, (proj2 (Z.eqb_neq _ _) Hx0). cbn [negb].
    rewrite (proj2 (Z.eqb_neq _ _) Hx0). cbn [with_notify wk sent taken in_work with_queue]. rewrite O11, Hwk, EQ. done.
Qed.
(** The item goes back to the pool. *)
Lemma owned_work s own F Q t x : owned n s own F Q -> wk (ths s t) = Has x -> exists own' F', owned n (process_work t x s) own' F' Q.
Proof.
  intros O Hwk. pose proof O as [O1 O2 [O3 O4] O5 O6 O7 O8 O9 O10 O11 O12 O13]. apply O8 in Hwk as Hown. destruct (O9 x ltac:(by rewrite Hown)) as [Hx0 [i Hi]].
  unfold process_work, cqi_free. set (m := alter (with_next (cqi_freelist s)) x (pmem s)).
  assert (forall y, y <> x -> m !! y = pmem s !! y) as Hm by (intros y Hy; unfold m; by apply lookup_alter_ne).
  assert (forall y, y <> x -> next_of m y = next_of (pmem s) y) as Hn by (intros y Hy; unfold next_of; by rewrite Hm).
  exists (give x Free own), (x :: F). split; cbn [pmem cqi_freelist ths hands last_thread targets]; try done.
  - assert (next_of m x = cqi_freelist s) as Hnx by (unfold m; rewrite next_alter, decide_True, Hi; done). cbn [chained]. split_and!; [done|done|]. rewrite Hnx.
    apply (chained_frame (pmem s)); [|done]. intros y Hy%O5. apply Hn. intros ->. congruence.
  - intros u. assert (new_conn_queue (upd_thread t (fun th => note_taken (work_of (default raw_item (pmem s !! x))) (with_notify (notify th) Waiting th)) (ths s) u) = new_conn_queue (ths s u)) as ->.
    { destruct (decide (u = t)) as [-> |Hu]; [by rewrite upd_same|by rewrite upd_other]. }
    apply (queued_frame (pmem s)); [|apply O2]. intros y Hy%O6. apply Hn. intros ->. congruence.
  - split; [|done]. apply NoDup_cons. split; [|done]. intros H%O5. congruence.
  - intros y. rewrite elem_of_cons. by apply (give_add (fun y => y ∈ F)).
  - intros u. apply give_other; [by rewrite Hown|done|apply O6].
  - apply give_other; [by rewrite Hown|done|done].
  - intros u y. destruct (decide (u = t)) as [-> |Hu].
    + rewrite upd_same. cbn [note_taken with_notify wk]. rewrite <- (give_remove (fun y => wk (ths s t) = Has y) x Free (Work t) own) by (done || apply O8). rewrite Hwk. naive_solver.
    + rewrite upd_other by done. apply (give_other (fun y => wk (ths s u) = Has y)); [rewrite Hown; congruence|done|apply O8].
  - intros y Hy. unfold give in Hy. destruct (decide (y = x)) as [-> |Hne]; [split; [done|]; unfold m; rewrite lookup_alter_eq, Hi; by eexists|]. rewrite Hm by done. by apply O9.
  - intros u. destruct (decide (u = t)) as [-> |Hu]; [|rewrite upd_other by done; apply O10]. rewrite upd_same. specialize (O10 t). rewrite Hwk in O10. exact O10.
  - intros u. assert (map (work_at m) (Q u) = map (work_at (pmem s)) (Q u)) as ->.
    { apply works_same. intros z Hz%O6. unfold work_at. rewrite Hm; [done|]. intros ->. congruence. }
    destruct (decide (u = t)) as [-> |Hu].
    + rewrite upd_same. cbn [note_taken with_notify wk sent taken in_work]. rewrite O11, Hwk. cbn [in_work]. by rewrite <- app_assoc.
    + rewrite upd_other, O11 by done. f_equal. f_equal. destruct (wk (ths s u)) as [| |z] eqn:E; try done. cbn [in_work]. unfold work_at. rewrite Hm; [done|]. intros ->.
      apply O8 in E. rewrite Hown in E. congruence.
Qed.

(** The thread of a new connection is the next one in turn. *)
Lemma owned_target s own F Q tid : 0 < n -> owned n s own F Q -> tid = (last_thread s + 1) mod n ->
  owned n {| pmem := pmem s; cqi_freelist := cqi_freelist s; ths := ths s; hands := hands s; last_thread := tid; targets := targets s ++ [tid] |} own F Q.
Proof.
  intros Hn [O1 O2 O34 O5 O6 O7 O8 O9 O10 O11 O12 O13] Et. assert (tid = Z.of_nat (length (targets s)) mod n) as Etid.
  { rewrite Et, O13. destruct (length (targets s)) as [|k]; [done|]. cbn [Nat.eqb]. rewrite Z.add_mod_idemp_l by lia. f_equal. lia. }
  split; cbn [pmem cqi_freelist ths hands last_thread targets]; try done; rewrite length_app; cbn [length]; rewrite Nat.add_1_r.
  - rewrite seq_S, map_app, <- O12. cbn [map Nat.add]. by rewrite Etid.
  - cbn [Nat.eqb]. by rewrite Etid, Nat.sub_succ, Nat.sub_0_r.
Qed.
Lemma owned_step s s' own F Q : 0 < n -> owned n s own F Q -> step n s s' -> exists own' F' Q', owned n s' own' F' Q'.
Proof.
  intros Hn O Hs. destruct Hs as [|a Ha Hf|x fd st fl rs tr sl Hx|t x fd st c Hx Ht|t Ht|t Hw Ht|t Hw|t x Hw].
  - destruct (owned_fetch s own F Q O) as (? & ? & ?). by eexists _, _, _.
  - destruct (owned_refill s own F Q a O Hf) as (? & ? & ?). by eexists _, _, _.
  - destruct (owned_push s own F Q (Z.to_nat ((last_thread s + 1) mod n)) x (fill_new fd st fl rs tr sl) (New fd st fl rs tr sl) O Hx) as (? & ? & ?); [done|done|].
    eexists _, _, _. apply owned_target; [done|done|]. unfold push_to. by destruct (cq_push _ _ _).
  - destruct (owned_push s own F Q t x (fill_redispatch fd st c) (Readd c) O Hx) as (? & ? & ?); [done|done|]. by eexists _, _, _.
  - exists own, F, Q. apply owned_byte; cbn; try done. lia.
  - exists own, F, Q. apply owned_byte; cbn; try rewrite Hw; try done; cbn; lia.
  - destruct (owned_pop s own F Q t O Hw) as (_ & ? & ? & ?). by eexists _, _, _.
  - destruct (owned_work s own F Q t x O Hw) as (? & ? & ?). by eexists _, _, _.
Qed.
Lemma owned_reaches s : 0 < n -> reaches n s -> exists own F Q, owned n s own F Q.
Proof. intros Hn. induction 1 as [|s s' Hr (own & F & Q & O) Hs]; [eexists _, _, _; apply owned_start|by eapply owned_step]. Qed.
End steps.

(** ** A worker gets through its queue *)

(** What is left to do for thread [t] before all that was sent to it is taken up. *)
Definition left (t : nat) (s : cq_pool) : nat :=
  4 * owed (ths s t) + 3 * notify (ths s t) + match wk (ths s t) with Waiting => 0 | Woken => 2 | Has _ => 1 end.
Lemma caught_up n s own F Q t : owned n s own F Q -> left t s = 0%nat -> taken (ths s t) = sent (ths s t).
Proof.
  intros O Hl. unfold left in Hl. pose proof (ow_count _ _ _ _ _ O t) as Hc. rewrite (ow_work _ _ _ _ _ O t).
  destruct (wk (ths s t)); try lia. cbn [woken] in Hc. destruct (Q t); [|cbn in Hc; lia]. by rewrite app_nil_r.
Qed.
Lemma sent_upd t f ts u : (forall th, sent (f th) = sent th) -> sent (upd_thread t f ts u) = sent (ts u).
Proof. intros Hf. unfold upd_thread. destruct (decide (u = t)); [apply Hf|done]. Qed.
(** One more step of the hand-over to [t], which sends nothing. *)
Lemma moves_on n s own F Q t : owned n s own F Q -> left t s <> 0%nat -> exists s', step n s s' /\ (left t s' < left t s)%nat /\ forall u, sent (ths s' u) = sent (ths s u).
Proof.
  intros O Hl. destruct (wk (ths s t)) as [| |x] eqn:Hw.
  - destruct (notify (ths s t)) as [|k] eqn:Hk.
    + unfold left in Hl |- *. rewrite Hw, Hk in Hl |- *. exists (notify_thread t s). split; [apply step_notify; lia|]. cbn [notify_thread on_thread ths].
      rewrite upd_same. cbn [owed notify wk]. rewrite Hw, Hk. split; [lia|]. intros u. apply sent_upd. intros th. by repeat case_match.
    + exists (process_read t s). split; [apply step_read; [done|lia]|]. unfold left. cbn [process_read on_thread ths]. rewrite upd_same, Hw. cbn [owed notify wk with_notify]. rewrite Hk.
      split; [lia|]. intros u. apply sent_upd. intros th. by repeat case_match.
  - exists (process_pop t s). split; [by apply step_pop|]. unfold left. cbn [process_pop on_thread ths]. rewrite upd_same, Hw. unfold cq_pop.
    destruct (owned_pop n s own F Q t O Hw) as [Hh _]. apply Z.eqb_neq in Hh. rewrite Hh. cbn [negb]. rewrite Hh. cbn [owed notify wk with_notify with_queue].
    split; [lia|]. intros u. apply sent_upd. intros th. by repeat case_match.
  - exists (process_work t x s). split; [by apply step_work|]. unfold left. cbn [process_work cqi_free ths]. rewrite upd_same, Hw. cbn [owed notify wk with_notify note_taken].
    split; [lia|]. intros u. apply sent_upd. intros th. by repeat case_match.
Qed.
Lemma catches_up n t k : 0 < n -> forall s, reaches n s -> (left t s <= k)%nat ->
  exists s', rtc (step n) s s' /\ (forall u, sent (ths s' u) = sent (ths s u)) /\ taken (ths s' t) = sent (ths s t).
Proof.
  intros Hn. induction k as [|k IH]; intros s Hr Hk; destruct (owned_reaches n s Hn Hr) as (own & F & Q & O).
  - exists s. split_and!; [constructor|done|]. apply (caught_up n s own F Q t O). lia.
  - destruct (decide (left t s = 0%nat)) as [E|E]; [exists s; split_and!; [constructor|done|by apply (caught_up n s own F Q t O)]|].
    destruct (moves_on n s own F Q t O E) as (s1 & Hs & Hlt & Es). destruct (IH s1 (reaches_step n s s1 Hr Hs) ltac:(lia)) as (s2 & Hs2 & Es2 & Et).
    exists s2. split_and!; [by eapply rtc_l|intros u; by rewrite Es2|by rewrite Et].
Qed.

(** C40: with any interleaving of the dispatchers and the workers, a thread takes up exactly the
    connections that were sent to it, in their order: what it has taken, what it holds and
    what the items of its queue say make up what was sent.  A worker that was woken by a byte finds an item;
    a waiting one with an empty pipe, to which no byte is owed, has taken up everything; from every state
    the steps of the hand-over to a thread lead to that.  New connections go to the threads
    in turn. *)
Theorem handover_exact n s : 0 < n -> reaches n s ->
  (forall t, exists items, queued (pmem s) (new_conn_queue (ths s t)) items /\
    sent (ths s t) = taken (ths s t) ++ in_work (pmem s) (wk (ths s t)) ++ map (work_at (pmem s)) items) /\
  (forall t, wk (ths s t) = Woken -> (cq_pop (new_conn_queue (ths s t)) (pmem s)).1 <> 0) /\
  (forall t, wk (ths s t) = Waiting -> notify (ths s t) = 0%nat -> owed (ths s t) = 0%nat -> taken (ths s t) = sent (ths s t)) /\
  (forall t, exists s', rtc (step n) s s' /\ (forall u, sent (ths s' u) = sent (ths s u)) /\ taken (ths s' t) = sent (ths s t)) /\
  targets s = map (fun i => Z.of_nat i mod n) (seq 0 (length (targets s))).
Proof.
  intros Hn Hr. destruct (owned_reaches n s Hn Hr) as (own & F & Q & O). split_and!.
  - intros t. exists (Q t). split; [apply (ow_queue _ _ _ _ _ O)|apply (ow_work _ _ _ _ _ O)].
  - intros t Hw. destruct (owned_pop n s own F Q t O Hw) as [Hh _]. unfold cq_pop. by destruct (cq_head _ =? 0) eqn:E; [apply Z.eqb_eq in E|].
  - intros t Hw Hk Ho. apply (caught_up n s own F Q t O). unfold left. by rewrite Hw, Hk, Ho.
  - intros t. by apply (catches_up n t (left t s)).
  - apply (ow_targets _ _ _ _ _ O).
Qed.

(** Three connections for two threads; the first thread is through with its first. *)
Definition run : cq_pool :=
  let s := notify_thread 0 (dispatch_conn_new 2 1000 7 3 18 2048 0 0 (refill 1000 pool0)) in
  let s := dispatch_conn_new 2 1048 8 3 18 2048 0 0 (fetch s).2 in
  let s := process_pop 0 (process_read 0 s) in
  let s := notify_thread 0 (dispatch_conn_new 2 1096 9 3 18 2048 0 0 (fetch s).2) in
  process_work 0 1000 s.
Lemma run_reached : reaches 2 run.
Proof.
  unfold run. cbv zeta.
  eapply reaches_step; [|apply step_work; vm_compute; reflexivity].
  eapply reaches_step; [|apply step_notify; vm_compute; lia].
  eapply reaches_step; [|apply step_dispatch; apply (bool_decide_unpack _); vm_compute; exact I]. eapply reaches_step; [|apply step_fetch].
  eapply reaches_step; [|apply step_pop; vm_compute; reflexivity].
  eapply reaches_step; [|apply step_read; vm_compute; [reflexivity|lia]].
  eapply reaches_step; [|apply step_dispatch; apply (bool_decide_unpack _); vm_compute; exact I]. eapply reaches_step; [|apply step_fetch].
  eapply reaches_step; [|apply step_notify; vm_compute; lia].
  eapply reaches_step; [|apply step_dispatch; apply (bool_decide_unpack _); vm_compute; exact I].
  eapply reaches_step; [apply reaches_start|apply step_refill; [done|]].
  intros i Hi. split; [unfold nth_item, sizeof_CQ_ITEM; lia|apply lookup_empty].
Qed.
(** The third connection waits for the first thread, the second for its byte. *)
Lemma handover_exact_witness :
  taken (ths run 0) = [New 7 3 18 2048 0 0] /\ sent (ths run 0) = [New 7 3 18 2048 0 0; New 9 3 18 2048 0 0] /\ cqi_freelist run = 1000 /\
  cq_head (new_conn_queue (ths run 0)) = 1096 /\ owed (ths run 1) = 1%nat /\ targets run = [0; 1; 0] /\
  exists s', rtc (step 2) run s' /\ taken (ths s' 0) = [New 7 3 18 2048 0 0; New 9 3 18 2048 0 0].
Proof.
  split_and!; [vm_compute; reflexivity..|].
  destruct (handover_exact 2 run ltac:(lia) run_reached) as (_ & _ & _ & Hl & _). destruct (Hl 0%nat) as (s' & Hs & _ & Ht). exists s'. split; [exact Hs|].
  rewrite Ht. vm_compute. reflexivity.
Defined.
