(* ===== verification/McItem.v ===== *)
(** Items (src/memcached-sr/memcached.h, items.h): the structure every component of the
    server links, its flags and layout macros, and the two kinds of lists items are
    threaded on.

    An item is a record of the fields of [struct _stritem]; the bytes that follow the
    header (CAS id, key, client flags, value) are fields of their own.  Memory is a map
    from addresses to items, and 0 is the null pointer.  The hash chains use [h_next];
    the LRU queues and the slab free lists use [next] and [prev]. *)
From S2P Require Import Prelude.

Record item := mk_item {
  next : Z; prev : Z;
  h_next : Z;
  time : Z;
  exptime : Z;
  nbytes : Z;
  refcount : Z;
  it_flags : Z;
  slabs_clsid : Z;
  ikey : list Z;
  icas : Z;
  iflags : Z;
  idata : list Z
}.

Definition nkey (it : item) : Z := Z.of_nat (length (ikey it)).

Abbreviation heap := (gmap Z item).

Definition ITEM_LINKED : Z := 1.
Definition ITEM_CAS : Z := 2.
Definition ITEM_SLABBED : Z := 4.
Definition ITEM_FETCHED : Z := 8.
Definition ITEM_ACTIVE : Z := 16.
Definition ITEM_CHUNKED : Z := 32.
Definition ITEM_CHUNK : Z := 64.
Definition ITEM_HDR : Z := 128.
Definition ITEM_CFLAGS : Z := 256.

Definition HOT_LRU : Z := 0.
Definition WARM_LRU : Z := 64.
Definition COLD_LRU : Z := 128.
Definition TEMP_LRU : Z := 192.

(** [flags & f], [flags |= f] and [flags &= ~f] on the 16-bit flag word. *)
Definition has_flag (f : Z) (it : item) : bool := negb (Z.land (it_flags it) f =? 0).

Definition ITEM_get_cas (it : item) : Z := if has_flag ITEM_CAS it then icas it else 0.
Definition ITEM_clsid (it : item) : Z := Z.ldiff (slabs_clsid it) 192.
Definition ITEM_lruid (it : item) : Z := Z.land (slabs_clsid it) 192.

(** [sizeof(struct _stritem)] on a 64-bit machine. *)
Definition sizeof_item : Z := 48.
Definition ITEM_ntotal (it : item) : Z :=
  sizeof_item + nkey it + 1 + nbytes it
  + (if has_flag ITEM_CFLAGS it then 4 else 0) + (if has_flag ITEM_CAS it then 8 else 0).

(** ** Stores to one field *)

Definition set_next (v : Z) (i : item) : item :=
  mk_item v (prev i) (h_next i) (time i) (exptime i) (nbytes i) (refcount i) (it_flags i)
    (slabs_clsid i) (ikey i) (icas i) (iflags i) (idata i).
Definition set_prev (v : Z) (i : item) : item :=
  mk_item (next i) v (h_next i) (time i) (exptime i) (nbytes i) (refcount i) (it_flags i)
    (slabs_clsid i) (ikey i) (icas i) (iflags i) (idata i).
Definition set_h_next (v : Z) (i : item) : item :=
  mk_item (next i) (prev i) v (time i) (exptime i) (nbytes i) (refcount i) (it_flags i)
    (slabs_clsid i) (ikey i) (icas i) (iflags i) (idata i).
Definition set_time (v : Z) (i : item) : item :=
  mk_item (next i) (prev i) (h_next i) v (exptime i) (nbytes i) (refcount i) (it_flags i)
    (slabs_clsid i) (ikey i) (icas i) (iflags i) (idata i).
Definition set_exptime (v : Z) (i : item) : item :=
  mk_item (next i) (prev i) (h_next i) (time i) v (nbytes i) (refcount i) (it_flags i)
    (slabs_clsid i) (ikey i) (icas i) (iflags i) (idata i).
Definition set_refcount (v : Z) (i : item) : item :=
  mk_item (next i) (prev i) (h_next i) (time i) (exptime i) (nbytes i) v (it_flags i)
    (slabs_clsid i) (ikey i) (icas i) (iflags i) (idata i).
Definition set_flags (v : Z) (i : item) : item :=
  mk_item (next i) (prev i) (h_next i) (time i) (exptime i) (nbytes i) (refcount i) v
    (slabs_clsid i) (ikey i) (icas i) (iflags i) (idata i).
Definition set_clsid (v : Z) (i : item) : item :=
  mk_item (next i) (prev i) (h_next i) (time i) (exptime i) (nbytes i) (refcount i) (it_flags i)
    v (ikey i) (icas i) (iflags i) (idata i).
Definition set_cas (v : Z) (i : item) : item :=
  mk_item (next i) (prev i) (h_next i) (time i) (exptime i) (nbytes i) (refcount i) (it_flags i)
    (slabs_clsid i) (ikey i) v (iflags i) (idata i).
Definition set_data (v : list Z) (i : item) : item :=
  mk_item (next i) (prev i) (h_next i) (time i) (exptime i) (nbytes i) (refcount i) (it_flags i)
    (slabs_clsid i) (ikey i) (icas i) (iflags i) v.

Definition or_flag (f : Z) (i : item) : item := set_flags (Z.lor (it_flags i) f) i.
Definition clear_flag (f : Z) (i : item) : item := set_flags (Z.ldiff (it_flags i) f) i.

(** The contents of memory nobody has written: a page fresh from the allocator is cleared. *)
Definition blank_item : item := mk_item 0 0 0 0 0 0 0 0 0 [] 0 0 [].

(** The item at an address that the code knows to be valid. *)
Definition get (h : heap) (p : Z) : item := default blank_item (h !! p).

(** What the hash table needs of the hash function: a 32-bit value. *)
Class KeyHash (hash : list Z -> Z) : Prop := hash_range : forall k, 0 <= hash k < 2 ^ 32.

(** ** Hash chains *)

(** [chain h p l]: following [h_next] from [p] visits the items [l] and ends in null. *)
Fixpoint chain (h : heap) (p : Z) (l : list Z) : Prop :=
  match l with
  | [] => p = 0
  | x :: l => p = x /\ x <> 0 /\ exists it, h !! x = Some it /\ chain h (h_next it) l
  end.

Lemma chain_ext h h' p l : (forall x, x ∈ l -> (h_next <$> h' !! x) = (h_next <$> h !! x)) ->
  chain h p l -> chain h' p l.
Proof.
  revert p. induction l as [|x l IH]; intros p Hx; [done|]. cbn.
  intros (-> & Hx0 & it & Hit & Hc). split; [done|]. split; [done|].
  assert (exists it', h' !! x = Some it' /\ h_next it' = h_next it) as (it' & Hit' & Hn).
  { specialize (Hx x ltac:(set_solver)). rewrite Hit in Hx. cbn in Hx.
    apply fmap_Some in Hx as (it' & ? & ?). eauto. }
  exists it'. split; [done|]. rewrite Hn. apply IH; [set_solver|done].
Qed.

Lemma chain_dom h p l x : chain h p l -> x ∈ l -> x <> 0 /\ is_Some (h !! x).
Proof.
  revert p. induction l as [|y l IH]; intros p Hc Hx; [set_solver|].
  destruct Hc as (-> & Hy0 & it & Hit & Hc). apply elem_of_cons in Hx as [-> |Hx]; [|by eapply IH].
  split; [done|]. by eexists.
Qed.

Lemma chain_fun h p l l' : chain h p l -> chain h p l' -> l = l'.
Proof.
  revert p l'. induction l as [|x l IH]; intros p l' Hc Hc'.
  - cbn in Hc. subst p. destruct l' as [|y l']; [done|]. by destruct Hc' as (<- & ? & _).
  - destruct Hc as (-> & Hx0 & it & Hit & Hc). destruct l' as [|y l']; [by cbn in Hc'; subst|].
    destruct Hc' as (-> & _ & it' & Hit' & Hc'). rewrite Hit in Hit'. injection Hit' as <-.
    f_equal. by eapply IH.
Qed.

(** A store outside the chain, or to another field, keeps the chain. *)
Lemma chain_alter_other h f p q l : q ∉ l -> chain h p l -> chain (alter f q h) p l.
Proof.
  intros Hq. apply chain_ext. intros x Hx. rewrite lookup_alter_ne; [done|]. set_solver.
Qed.

Lemma chain_alter_field h f p q l : (forall it, h_next (f it) = h_next it) ->
  chain h p l -> chain (alter f q h) p l.
Proof.
  intros Hf. apply chain_ext. intros x Hx. destruct (decide (q = x)) as [-> |Hne].
  - rewrite lookup_alter_eq. destruct (h !! x) as [it|]; cbn; [|done]. by rewrite Hf.
  - by rewrite lookup_alter_ne.
Qed.
