(* ===== verification/McAssoc.v ===== *)
(** The hash table (src/memcached-sr/assoc.c).

    The two bucket arrays hold pointers to items; the chains run through [h_next] in
    the shared memory.  The hash function is the function pointer [hash] of hash.c; it is a parameter here, with the class [KeyHash] as its contract; callers pass the hash value of the key along with the key.
    Loops over a chain take the number of items in memory as fuel, which the theorems
    show to be enough: a chain never visits an item twice. *)
From S2P Require Import Prelude McItem.

Record assoc := {
  hashpower : Z;
  primary_hashtable : list Z;
  old_hashtable : list Z;
  expanding : bool;
  started_expanding : bool;
  expand_bucket : Z
}.

Definition HASHPOWER_DEFAULT : Z := 16.
Definition HASHPOWER_MAX : Z := 32.
Definition hashsize (n : Z) : Z := u32 (Z.shiftl 1 n).
Definition hashmask (n : Z) : Z := u32 (hashsize n - 1).

(** An array of pointers; both arrays are only indexed below their length. *)
Definition bucket (t : list Z) (i : Z) : Z := nth (Z.to_nat i) t 0.
Definition set_bucket (t : list Z) (i p : Z) : list Z := <[Z.to_nat i := p]> t.

(** [calloc] of the primary table; [None] is the exit of the process. *)
Definition assoc_init (hashtable_init : Z) (calloc : bool) : option assoc :=
  let power := if hashtable_init =? 0 then HASHPOWER_DEFAULT else hashtable_init in
  if calloc then
    Some {| hashpower := power; primary_hashtable := replicate (Z.to_nat (hashsize power)) 0;
            old_hashtable := []; expanding := false; started_expanding := false;
            expand_bucket := 0 |}
  else None.

(** The location of a pointer: an element of one of the tables or an [h_next] field. *)
Inductive loc := Old (i : Z) | Primary (i : Z) | Next (p : Z).

Definition load (h : heap) (t : assoc) (l : loc) : Z :=
  match l with
  | Old i => bucket (old_hashtable t) i
  | Primary i => bucket (primary_hashtable t) i
  | Next p => h_next (get h p)
  end.

Definition set_old (t : assoc) (l : list Z) : assoc :=
  {| hashpower := hashpower t; primary_hashtable := primary_hashtable t; old_hashtable := l;
     expanding := expanding t; started_expanding := started_expanding t;
     expand_bucket := expand_bucket t |}.
Definition set_primary (t : assoc) (l : list Z) : assoc :=
  {| hashpower := hashpower t; primary_hashtable := l; old_hashtable := old_hashtable t;
     expanding := expanding t; started_expanding := started_expanding t;
     expand_bucket := expand_bucket t |}.

Definition store (h : heap) (t : assoc) (l : loc) (v : Z) : heap * assoc :=
  match l with
  | Old i => (h, set_old t (set_bucket (old_hashtable t) i v))
  | Primary i => (h, set_primary t (set_bucket (primary_hashtable t) i v))
  | Next p => (alter (set_h_next v) p h, t)
  end.

(** The head of the chain a hash value belongs to: during an expansion the old table
    holds the buckets that have not been moved yet. *)
Definition head_of (t : assoc) (hv : Z) : loc :=
  let oldbucket := Z.land hv (hashmask (hashpower t - 1)) in
  if expanding t && (expand_bucket t <=? oldbucket) then Old oldbucket
  else Primary (Z.land hv (hashmask (hashpower t))).

(** [nkey == it->nkey && memcmp(key, ITEM_key(it), nkey) == 0] *)
Definition same_key (key : list Z) (it : item) : bool :=
  (Z.of_nat (length key) =? nkey it) && bool_decide (key = ikey it).

Fixpoint find_loop (fuel : nat) (h : heap) (key : list Z) (it : Z) : Z :=
  match fuel with
  | O => 0
  | S fuel =>
      if it =? 0 then 0
      else if same_key key (get h it) then it
      else find_loop fuel h key (h_next (get h it))
  end.

Definition assoc_find (h : heap) (t : assoc) (key : list Z) (hv : Z) : Z :=
  find_loop (S (size h)) h key (load h t (head_of t hv)).

Fixpoint before_loop (fuel : nat) (h : heap) (t : assoc) (key : list Z) (pos : loc) : loc :=
  match fuel with
  | O => pos
  | S fuel =>
      let it := load h t pos in
      if (it =? 0) || same_key key (get h it) then pos
      else before_loop fuel h t key (Next it)
  end.

Definition hashitem_before (h : heap) (t : assoc) (key : list Z) (hv : Z) : loc :=
  before_loop (S (size h)) h t key (head_of t hv).

(** [None] stands for [calloc] running out of memory: the table is left as it was. *)
Definition assoc_expand (t : assoc) (calloc : bool) : assoc :=
  if calloc then
    {| hashpower := hashpower t + 1;
       primary_hashtable := replicate (Z.to_nat (hashsize (hashpower t + 1))) 0;
       old_hashtable := primary_hashtable t;
       expanding := true; started_expanding := started_expanding t; expand_bucket := 0 |}
  else set_old t (primary_hashtable t).

Definition set_started (t : assoc) (b : bool) : assoc :=
  {| hashpower := hashpower t; primary_hashtable := primary_hashtable t;
     old_hashtable := old_hashtable t; expanding := expanding t;
     started_expanding := b; expand_bucket := expand_bucket t |}.

(** The flag that wakes the maintenance thread. *)
Definition assoc_start_expand (t : assoc) (curr_items : Z) : assoc :=
  if started_expanding t then t
  else if (u32 (hashsize (hashpower t) * 3) / 2 <? curr_items) && (hashpower t <? HASHPOWER_MAX) then
    set_started t true
  else t.

Definition assoc_insert (h : heap) (t : assoc) (it hv : Z) : heap * assoc :=
  let head := head_of t hv in
  let h := alter (set_h_next (load h t head)) it h in
  store h t head it.

(** The [assert] of the last line stops the program; [None]. *)
Definition assoc_delete (h : heap) (t : assoc) (key : list Z) (hv : Z) : option (heap * assoc) :=
  let before := hashitem_before h t key hv in
  let it := load h t before in
  if it =? 0 then None
  else
    let nxt := h_next (get h it) in
    let h := alter (set_h_next 0) it h in
    Some (store h t before nxt).

Section hashing.
(** The function pointer [hash]. *)
Context (hash : list Z -> Z).

(** The inner loop of the maintenance thread over one old bucket. *)
Fixpoint move_loop (fuel : nat) (h : heap) (t : assoc) (it : Z) : heap * assoc :=
  match fuel with
  | O => (h, t)
  | S fuel =>
      if it =? 0 then (h, t)
      else
        let nxt := h_next (get h it) in
        let b := Z.land (hash (ikey (get h it))) (hashmask (hashpower t)) in
        let h := alter (set_h_next (bucket (primary_hashtable t) b)) it h in
        move_loop fuel h (set_primary t (set_bucket (primary_hashtable t) b it)) nxt
  end.

(** One bucket of an expansion, with the item lock of the bucket held. *)
Definition move_bucket (h : heap) (t : assoc) : heap * assoc :=
  let '(h, t) := move_loop (S (size h)) h t (bucket (old_hashtable t) (expand_bucket t)) in
  let t := set_old t (set_bucket (old_hashtable t) (expand_bucket t) 0) in
  let eb := u32 (expand_bucket t + 1) in
  (h, {| hashpower := hashpower t; primary_hashtable := primary_hashtable t;
         old_hashtable := if eb =? hashsize (hashpower t - 1) then [] else old_hashtable t;
         expanding := negb (eb =? hashsize (hashpower t - 1));
         started_expanding := started_expanding t; expand_bucket := eb |}).

(** The bulk move: for each round, whether the lock of the bucket was free. *)
Fixpoint bulk_move (locks : list bool) (h : heap) (t : assoc) : heap * assoc :=
  match locks with
  | [] => (h, t)
  | lock :: locks =>
      if expanding t then
        let '(h, t) := if lock : bool then move_bucket h t else (h, t) in
        bulk_move locks h t
      else (h, t)
  end.

(** One round of the maintenance thread: [hash_bulk_move] tries, then, when nothing is
    left to move, the wait for the next expansion.  [wake] is what happens there: the
    thread is stopped ([None]), or woken and [calloc] answers. *)
Definition maintenance_round (locks : list bool) (wake : option bool) (h : heap) (t : assoc)
  : heap * assoc :=
  let '(h, t) := bulk_move locks h t in
  if expanding t then (h, t)
  else
    let t := set_started t false in
    match wake with
    | None => (h, t)
    | Some calloc => (h, assoc_expand t calloc)
    end.
End hashing.

#[export] Instance loc_eq_dec : EqDecision loc.
Proof. solve_decision. Defined.

(** ** Representation of a map from keys to items *)

Section proofs.
Context (hash : list Z -> Z) {Hhash : KeyHash hash}.

Definition buckets (n : Z) : Z := 2 ^ n.

(** The bucket heads in use. *)
Definition in_range (t : assoc) (l : loc) : Prop :=
  match l with
  | Old i => expanding t = true /\ 0 <= i < buckets (hashpower t - 1)
  | Primary i => 0 <= i < buckets (hashpower t)
  | Next _ => False
  end.

(** [C] gives the items on the chain of every bucket head. *)
Record inv (h : heap) (t : assoc) (C : loc -> list Z) : Prop := {
  inv_power : 1 <= hashpower t <= 31;
  inv_primary : Z.of_nat (length (primary_hashtable t)) = buckets (hashpower t);
  inv_old : expanding t = true ->
    Z.of_nat (length (old_hashtable t)) = buckets (hashpower t - 1) /\
    0 <= expand_bucket t < buckets (hashpower t - 1);
  inv_chain : forall l, in_range t l -> chain h (load h t l) (C l);
  inv_none : forall l, ~ in_range t l -> C l = [];
  inv_place : forall l x, x ∈ C l -> exists it, h !! x = Some it /\ head_of t (hash (ikey it)) = l;
  inv_nodup : forall l, NoDup (C l);
  inv_keys : forall l x y itx ity, x ∈ C l -> y ∈ C l ->
    h !! x = Some itx -> h !! y = Some ity -> ikey itx = ikey ity -> x = y
}.

(** The table holds exactly the items of [M], each under its key. *)
Definition rep (h : heap) (t : assoc) (C : loc -> list Z) (M : gmap (list Z) Z) : Prop :=
  inv h t C /\
  forall k x, M !! k = Some x <->
    x ∈ C (head_of t (hash k)) /\ exists it, h !! x = Some it /\ ikey it = k.

Lemma hashmask_land n hv : 0 <= n < 32 -> Z.land hv (hashmask n) = hv mod buckets n.
Proof.
  intros Hn. unfold hashmask, hashsize, buckets. rewrite Z.shiftl_1_l.
  assert (0 < 2 ^ n) by (apply Z.pow_pos_nonneg; lia).
  assert (2 ^ n < 2 ^ 32) by (apply Z.pow_lt_mono_r; lia).
  rewrite (wrap_small 32 (2 ^ n)), wrap_small by lia.
  replace (2 ^ n - 1) with (Z.ones n) by (rewrite Z.ones_equiv; lia).
  apply Z.land_ones. lia.
Qed.

Lemma hashsize_eq n : 0 <= n < 32 -> hashsize n = buckets n.
Proof.
  intros Hn. unfold hashsize, buckets. rewrite Z.shiftl_1_l. apply wrap_small.
  split; [apply Z.pow_nonneg; lia|apply Z.pow_lt_mono_r; lia].
Qed.

Lemma buckets_pos n : 0 <= n -> 0 < buckets n.
Proof. intros. apply Z.pow_pos_nonneg; lia. Qed.

Lemma head_of_eq t hv : 1 <= hashpower t <= 31 ->
  head_of t hv = if expanding t && (expand_bucket t <=? hv mod buckets (hashpower t - 1))
                 then Old (hv mod buckets (hashpower t - 1))
                 else Primary (hv mod buckets (hashpower t)).
Proof. intros Hp. unfold head_of. by rewrite !hashmask_land by lia. Qed.

Lemma head_in_range t hv : 1 <= hashpower t <= 31 -> in_range t (head_of t hv).
Proof.
  intros Hp. rewrite head_of_eq by done.
  destruct (expanding t) eqn:He; cbn; [case_if; cbn|]; try split; try done;
    apply Z.mod_pos_bound, buckets_pos; lia.
Qed.

(** A chain is no longer than the memory is large. *)
Lemma chain_length h p l : NoDup l -> chain h p l -> (length l <= size h)%nat.
Proof.
  intros Hnd Hc. rewrite <- size_dom, <- (size_list_to_set (C := gset Z) l Hnd).
  apply subseteq_size. intros x Hx. apply elem_of_list_to_set in Hx.
  apply elem_of_dom. by eapply chain_dom.
Qed.

Lemma same_key_spec key it : same_key key it = true <-> ikey it = key.
Proof.
  unfold same_key, nkey. rewrite andb_true_iff, bool_decide_eq_true, Z.eqb_eq.
  split; [intros []; congruence|intros ->; done].
Qed.

Lemma find_loop_spec fuel h key p l :
  chain h p l -> (length l < fuel)%nat ->
  (exists l1 l2 it, l = l1 ++ find_loop fuel h key p :: l2 /\
     h !! find_loop fuel h key p = Some it /\ ikey it = key) \/
  (find_loop fuel h key p = 0 /\
   forall x it, x ∈ l -> h !! x = Some it -> ikey it <> key).
Proof.
  revert p l. induction fuel as [|fuel IH]; intros p l Hc Hl; [lia|].
  cbn [find_loop]. destruct l as [|x l].
  { cbn in Hc. subst p. right. split; [done|]. set_solver. }
  destruct Hc as (-> & Hx0 & it & Hit & Hc). rewrite (proj2 (Z.eqb_neq _ _)) by done.
  assert (get h x = it) as -> by (unfold get; by rewrite Hit).
  destruct (same_key key it) eqn:Hk.
  - left. apply same_key_spec in Hk. by exists [], l, it.
  - assert (ikey it <> key) as Hne by (intros Hk'%same_key_spec; congruence).
    destruct (IH (h_next it) l Hc ltac:(cbn in Hl; lia)) as [(l1 & l2 & it' & -> & ? & ?)|[-> Hno]].
    + left. by exists (x :: l1), l2, it'.
    + right. split; [done|]. intros y ity Hy Hity.
      apply elem_of_cons in Hy as [-> |Hy]; [congruence|by eapply Hno].
Qed.

Lemma rep_find h t C M key : rep h t C M ->
  assoc_find h t key (hash key) = default 0 (M !! key).
Proof.
  intros [Hinv HM]. unfold assoc_find.
  pose proof (head_in_range t (hash key) (inv_power _ _ _ Hinv)) as Hr.
  pose proof (inv_chain _ _ _ Hinv _ Hr) as Hc.
  pose proof (chain_length _ _ _ (inv_nodup _ _ _ Hinv _) Hc) as Hlen.
  destruct (find_loop_spec (S (size h)) h key _ _ Hc ltac:(lia)) as [(l1 & l2 & it & Hl & Hit & Hk)|[-> Hno]].
  - set (x := find_loop _ _ _ _) in *. assert (M !! key = Some x) as ->; [|done].
    apply HM. split; [rewrite Hl; set_solver|by exists it].
  - destruct (M !! key) as [x|] eqn:Hx; [|done]. apply HM in Hx as (Hin & it & Hit & Hk).
    by destruct (Hno x it Hin Hit).
Qed.

(** Tables that differ only in the pointers they hold. *)
Definition same_shape (t t' : assoc) : Prop :=
  hashpower t' = hashpower t /\ expanding t' = expanding t /\
  expand_bucket t' = expand_bucket t /\
  length (primary_hashtable t') = length (primary_hashtable t) /\
  length (old_hashtable t') = length (old_hashtable t).

Lemma same_shape_head t t' hv : same_shape t t' -> head_of t' hv = head_of t hv.
Proof. intros (H1 & H2 & H3 & _). unfold head_of. by rewrite H1, H2, H3. Qed.

Lemma same_shape_range t t' l : same_shape t t' -> in_range t' l <-> in_range t l.
Proof. intros (H1 & H2 & _). destruct l; cbn; by rewrite ?H1, ?H2. Qed.

Lemma bucket_set_bucket t i j v : 0 <= i < Z.of_nat (length t) -> 0 <= j ->
  bucket (set_bucket t i v) j = if decide (j = i) then v else bucket t j.
Proof.
  intros Hi Hj. unfold bucket, set_bucket. rewrite !nth_lookup. case_decide as Hd.
  - subst j. by rewrite list_lookup_insert_eq by lia.
  - by rewrite list_lookup_insert_ne by lia.
Qed.

(** Storing into a bucket head in use. *)
Lemma store_head h t C hd v : inv h t C -> in_range t hd ->
  exists t', store h t hd v = (h, t') /\ same_shape t t' /\
    forall h' l, in_range t l -> load h' t' l = if decide (l = hd) then v else load h' t l.
Proof.
  intros Hinv Hr. pose proof (inv_primary _ _ _ Hinv) as Hp. pose proof (inv_old _ _ _ Hinv) as Ho.
  destruct hd as [i|i|q]; cbn in Hr; [| |done].
  - destruct Hr as [He Hi]. destruct (Ho He) as [Hl _].
    eexists; split; [done|]. split; [by repeat split; cbn; unfold set_bucket; rewrite ?length_insert|].
    intros h' [j|j|q] Hj; cbn [in_range] in Hj; [|by case_decide|done].
    cbn [load set_old old_hashtable].
    rewrite bucket_set_bucket by lia. do 2 case_decide; congruence.
  - eexists; split; [done|]. split; [by repeat split; cbn; unfold set_bucket; rewrite ?length_insert|].
    intros h' [j|j|q] Hj; cbn [in_range] in Hj; [by case_decide| |done].
    cbn [load set_primary primary_hashtable].
    rewrite bucket_set_bucket by lia. do 2 case_decide; congruence.
Qed.

Lemma load_heap h h' t l : in_range t l -> load h t l = load h' t l.
Proof. by destruct l. Qed.

(** Only [h_next] and the keys of the linked items matter. *)
Lemma rep_ext h h' t C M :
  (forall l x it, x ∈ C l -> h !! x = Some it ->
     exists it', h' !! x = Some it' /\ h_next it' = h_next it /\ ikey it' = ikey it) ->
  rep h t C M -> rep h' t C M.
Proof.
  intros Hext [Hinv HM].
  assert (Hkey : forall l x it', x ∈ C l -> h' !! x = Some it' ->
    exists it, h !! x = Some it /\ ikey it' = ikey it).
  { intros l x it' Hx Hit'. destruct (inv_place _ _ _ Hinv l x Hx) as (it & Hit & _).
    destruct (Hext l x it Hx Hit) as (it'' & Hit'' & _ & Hk). exists it. split; [done|]. congruence. }
  split.
  - destruct Hinv as [? ? ? Hch ? Hpl ? Hks]. split; try done.
    + intros l Hl. rewrite (load_heap h' h) by done.
      eapply chain_ext; [|by apply Hch]. intros x Hx. destruct (Hpl l x Hx) as (it & Hit & _).
      destruct (Hext l x it Hx Hit) as (it' & -> & Hn & _). rewrite Hit. cbn. by rewrite Hn.
    + intros l x Hx. destruct (Hpl l x Hx) as (it & Hit & Hh).
      destruct (Hext l x it Hx Hit) as (it' & Hit' & _ & Hk). exists it'. by rewrite Hk.
    + intros l x y itx ity Hx Hy Hitx Hity Hk.
      destruct (Hkey l x itx Hx Hitx) as (itx0 & ? & Hkx). destruct (Hkey l y ity Hy Hity) as (ity0 & ? & Hky).
      apply (Hks l x y itx0 ity0); try done. congruence.
  - intros k x. rewrite HM. split; intros (Hx & it & Hit & Hk); (split; [done|]).
    + destruct (Hext _ x it Hx Hit) as (it' & ? & _ & ?). exists it'. split; congruence.
    + destruct (Hkey _ x it Hx Hit) as (it0 & ? & ?). exists it0. split; congruence.
Qed.

Lemma rep_member h t C M l x : rep h t C M -> x ∈ C l ->
  exists it, h !! x = Some it /\ M !! ikey it = Some x.
Proof.
  intros [Hinv HM] Hx. destruct (inv_place _ _ _ Hinv l x Hx) as (it & Hit & Hh).
  exists it. split; [done|]. apply HM. rewrite Hh. split; [done|]. by exists it.
Qed.

(** Linking an item under a key the table does not hold. *)
Lemma rep_insert h t C M p it :
  rep h t C M -> p <> 0 -> h !! p = Some it -> M !! ikey it = None ->
  let '(h', t') := assoc_insert h t p (hash (ikey it)) in
  rep h' t' (fun l => if decide (l = head_of t (hash (ikey it))) then p :: C l else C l)
    (<[ikey it := p]> M) /\ h' = alter (set_h_next (load h t (head_of t (hash (ikey it))))) p h.
Proof.
  intros Hrep Hp0 Hp HMk. pose proof Hrep as [Hinv HM].
  assert (forall l, p ∉ C l) as Hfresh.
  { intros l Hin. destruct (rep_member _ _ _ _ _ _ Hrep Hin) as (it' & Hit' & Hm). congruence. }
  unfold assoc_insert. set (hd := head_of t (hash (ikey it))).
  assert (in_range t hd) as Hr by (apply head_in_range, Hinv).
  set (h1 := alter (set_h_next (load h t hd)) p h).
  assert (h1 !! p = Some (set_h_next (load h t hd) it)) as Hp1
    by (unfold h1; rewrite lookup_alter_eq, Hp; done).
  assert (forall x, x <> p -> h1 !! x = h !! x) as Hne
    by (intros x Hx; unfold h1; by rewrite lookup_alter_ne).
  assert (rep h1 t C M) as Hrep1.
  { apply (rep_ext h); [|done]. intros l x itx Hx Hitx. exists itx.
    rewrite Hne; [done|]. intros ->. by apply (Hfresh l). }
  pose proof Hrep1 as [Hinv1 HM1].
  destruct (store_head h1 t C hd p Hinv1 Hr) as (t' & -> & Hsh & Hld). split; [|done].
  assert (forall x l, x ∈ (if decide (l = hd) then p :: C l else C l) <-> (l = hd /\ x = p) \/ x ∈ C l) as Hin.
  { intros x l. case_decide; [rewrite elem_of_cons|]; naive_solver. }
  pose proof Hsh as (Hs1 & Hs2 & Hs3 & Hs4 & Hs5).
  split; [split|].
  - rewrite Hs1. apply Hinv1.
  - rewrite Hs1, Hs4. apply Hinv1.
  - rewrite Hs1, Hs2, Hs3, Hs5. apply Hinv1.
  - intros l Hl%(same_shape_range _ _ _ Hsh). rewrite Hld by done.
    case_decide; [subst l|by apply Hinv1]. cbn. split; [done|]. split; [done|].
    eexists; split; [exact Hp1|]. cbn [set_h_next h_next]. rewrite (load_heap h h1) by done.
    by apply (inv_chain _ _ _ Hinv1 hd).
  - intros l Hl. rewrite (same_shape_range _ _ _ Hsh) in Hl.
    case_decide; [congruence|by apply Hinv1].
  - intros l x. rewrite Hin. intros [[-> ->]|Hx].
    + eexists; split; [exact Hp1|]. by rewrite (same_shape_head _ _ _ Hsh).
    + destruct (inv_place _ _ _ Hinv1 l x Hx) as (itx & ? & ?). exists itx.
      by rewrite (same_shape_head _ _ _ Hsh).
  - intros l. case_decide; [|apply Hinv1]. apply NoDup_cons. split; [done|apply Hinv1].
  - intros l x y itx ity. rewrite !Hin. intros Hx Hy Hitx Hity Hk.
    assert (forall z itz, z ∈ C l -> h1 !! z = Some itz -> ikey itz <> ikey it) as Hno.
    { intros z itz Hz Hitz Hkz. destruct (rep_member _ _ _ _ _ _ Hrep1 Hz) as (itz' & Hz1 & Hz2). congruence. }
    destruct Hx as [[-> ->]|Hx], Hy as [[_ ->]|Hy]; [done| | |by eapply (inv_keys _ _ _ Hinv1 l)].
    + rewrite Hp1 in Hitx. injection Hitx as <-. by destruct (Hno y ity Hy Hity).
    + rewrite Hp1 in Hity. injection Hity as <-. by destruct (Hno x itx Hx Hitx).
  - intros k x. rewrite (same_shape_head _ _ _ Hsh), Hin.
    destruct (decide (k = ikey it)) as [-> |Hk].
    + rewrite lookup_insert_eq. split.
      * intros [= <-]. split; [by left|]. eexists; split; [exact Hp1|done].
      * intros [[[_ ->]|Hx] (itx & Hitx & Hkx)]; [done|].
        destruct (rep_member _ _ _ _ _ _ Hrep1 Hx) as (itx' & ? & ?). congruence.
    + rewrite lookup_insert_ne, HM1 by done. split; [naive_solver|].
      intros [[[Hl ->]|Hx] (itx & Hitx & Hkx)]; [|naive_solver].
      rewrite Hp1 in Hitx. injection Hitx as <-. by destruct Hk.
Qed.

(** Memories that differ only in the [h_next] fields. *)
Definition h_next_only (h h' : heap) : Prop :=
  forall q, (set_h_next 0 <$> h' !! q) = (set_h_next 0 <$> h !! q).

Lemma h_next_only_refl h : h_next_only h h.
Proof. by intros q. Qed.

Lemma h_next_only_trans h1 h2 h3 : h_next_only h1 h2 -> h_next_only h2 h3 -> h_next_only h1 h3.
Proof. intros H1 H2 q. by rewrite H2. Qed.

Lemma h_next_only_alter h p v : h_next_only h (alter (set_h_next v) p h).
Proof.
  intros q. destruct (decide (p = q)) as [-> |Hne].
  - rewrite lookup_alter_eq. by destruct (h !! q).
  - by rewrite lookup_alter_ne.
Qed.

Lemma h_next_only_key h h' q it : h_next_only h h' -> h !! q = Some it ->
  exists it', h' !! q = Some it' /\ ikey it' = ikey it.
Proof.
  intros Ho Hq. specialize (Ho q). rewrite Hq in Ho. cbn in Ho.
  apply fmap_Some in Ho as (it' & Hq' & Heq). exists it'. split; [done|].
  change (ikey (set_h_next 0 it') = ikey (set_h_next 0 it)). by rewrite Heq.
Qed.

Lemma before_loop_spec fuel h t key pos l x0 it0 :
  chain h (load h t pos) l -> (length l < fuel)%nat ->
  x0 ∈ l -> h !! x0 = Some it0 -> ikey it0 = key ->
  exists l1 x l2 it, l = l1 ++ x :: l2 /\ h !! x = Some it /\ ikey it = key /\
    load h t (before_loop fuel h t key pos) = x /\
    before_loop fuel h t key pos = match last l1 with None => pos | Some y => Next y end.
Proof.
  revert pos l. induction fuel as [|fuel IH]; intros pos l Hc Hl Hx0 Hit0 Hk0; [lia|].
  cbn [before_loop]. destruct l as [|x l]; [set_solver|].
  destruct Hc as (Hp & Hxn & it & Hit & Hc). rewrite Hp, (proj2 (Z.eqb_neq _ _)) by done.
  assert (get h x = it) as Hg by (unfold get; by rewrite Hit). rewrite Hg. cbn [orb].
  destruct (same_key key it) eqn:Hk.
  - apply same_key_spec in Hk. by exists [], x, l, it.
  - assert (ikey it <> key) as Hne by (intros Hk'%same_key_spec; congruence).
    assert (chain h (load h t (Next x)) l) as Hc' by (cbn; by rewrite Hg).
    apply elem_of_cons in Hx0 as [-> |Hx0]; [congruence|].
    destruct (IH (Next x) l Hc' ltac:(cbn in Hl; lia) Hx0 Hit0 Hk0)
      as (l1 & y & l2 & ity & -> & Hity & Hky & Hld & Hb).
    exists (x :: l1), y, l2, ity. split_and!; try done. rewrite Hb, last_cons. by destruct (last l1).
Qed.

Lemma chain_unlink h p l1 y x l2 itx :
  NoDup (l1 ++ y :: x :: l2) -> chain h p (l1 ++ y :: x :: l2) -> h !! x = Some itx ->
  chain (alter (set_h_next (h_next itx)) y h) p (l1 ++ y :: l2).
Proof.
  intros Hnd Hc Hx. revert p Hnd Hc. induction l1 as [|z l1 IH]; intros p Hnd Hc.
  - cbn in Hnd. apply NoDup_cons in Hnd as [Hy Hnd].
    destruct Hc as (-> & Hy0 & ity & Hity & _ & _ & itx' & Hx' & Hc).
    rewrite Hx in Hx'. injection Hx' as <-. split; [done|]. split; [done|].
    eexists. rewrite lookup_alter_eq, Hity. split; [done|]. cbn.
    apply chain_alter_other; [set_solver|done].
  - cbn in Hnd. apply NoDup_cons in Hnd as [Hz Hnd].
    destruct Hc as (-> & Hz0 & itz & Hitz & Hc). split; [done|]. split; [done|].
    exists itz. rewrite lookup_alter_ne by set_solver. split; [done|]. by apply IH.
Qed.

(** A state whose chains lost exactly one item. *)
Lemma rep_remove h h' t t' C C' M x it :
  rep h t C M -> h !! x = Some it -> M !! ikey it = Some x ->
  h_next_only h h' -> same_shape t t' ->
  (forall l, in_range t l -> chain h' (load h' t' l) (C' l)) ->
  (forall l y, y ∈ C' l <-> y ∈ C l /\ y <> x) -> (forall l, NoDup (C' l)) ->
  rep h' t' C' (delete (ikey it) M).
Proof.
  intros Hrep Hx HMx Ho Hsh Hch Hin Hnd. pose proof Hrep as [Hinv HM].
  pose proof Hsh as (Hs1 & Hs2 & Hs3 & Hs4 & Hs5).
  assert (Hkey : forall l y ity, y ∈ C l -> h' !! y = Some ity ->
    exists ity0, h !! y = Some ity0 /\ ikey ity = ikey ity0).
  { intros l y ity Hy Hity. destruct (inv_place _ _ _ Hinv l y Hy) as (ity0 & Hity0 & _).
    destruct (h_next_only_key _ _ _ _ Ho Hity0) as (ity' & ? & ?). exists ity0. split; [done|]. congruence. }
  split; [split|].
  - rewrite Hs1. apply Hinv.
  - rewrite Hs1, Hs4. apply Hinv.
  - rewrite Hs1, Hs2, Hs3, Hs5. apply Hinv.
  - intros l Hl%(same_shape_range _ _ _ Hsh). by apply Hch.
  - intros l Hl. rewrite (same_shape_range _ _ _ Hsh) in Hl.
    destruct (C' l) as [|y k] eqn:Hc; [done|]. exfalso.
    assert (y ∈ C l) as Hy by (apply (Hin l y); rewrite Hc; set_solver).
    rewrite (inv_none _ _ _ Hinv l Hl) in Hy. set_solver.
  - intros l y [Hy _]%Hin. destruct (inv_place _ _ _ Hinv l y Hy) as (ity & Hity & Hh).
    destruct (h_next_only_key _ _ _ _ Ho Hity) as (ity' & Hity' & Hk). exists ity'.
    by rewrite Hk, (same_shape_head _ _ _ Hsh).
  - done.
  - intros l y z ity itz [Hy _]%Hin [Hz _]%Hin Hity Hitz Hk.
    destruct (Hkey _ _ _ Hy Hity) as (? & ? & ?). destruct (Hkey _ _ _ Hz Hitz) as (? & ? & ?).
    eapply (inv_keys _ _ _ Hinv l); try done. congruence.
  - intros k y. rewrite (same_shape_head _ _ _ Hsh), Hin, lookup_delete_Some, HM. split.
    + intros (Hk & Hy & ity & Hity & Hkk). split; [split; [done|]|].
      * intros ->. congruence.
      * destruct (h_next_only_key _ _ _ _ Ho Hity) as (ity' & ? & ?). exists ity'. split; congruence.
    + intros ([Hy Hyx] & ity & Hity & Hkk). destruct (Hkey _ _ _ Hy Hity) as (ity0 & Hity0 & Hk0).
      split; [|split; [done|]; exists ity0; split; congruence].
      intros Hk. apply Hyx. destruct (rep_member _ _ _ _ _ _ Hrep Hy) as (ity1 & Hi1 & Hm1).
      rewrite Hity0 in Hi1. injection Hi1 as <-. congruence.
Qed.

Lemma rep_delete h t C M key x :
  rep h t C M -> M !! key = Some x ->
  exists h' t' C', assoc_delete h t key (hash key) = Some (h', t') /\
    rep h' t' C' (delete key M) /\ h_next_only h h' /\
    (forall q, (forall l, q ∉ C l) -> h' !! q = h !! q).
Proof.
  intros Hrep HMx. pose proof Hrep as [Hinv HM].
  destruct (proj1 (HM key x) HMx) as (Hx & it0 & Hit0 & Hk0).
  set (hd := head_of t (hash key)) in *.
  assert (in_range t hd) as Hr by (apply head_in_range, Hinv).
  pose proof (inv_chain _ _ _ Hinv hd Hr) as Hc. pose proof (inv_nodup _ _ _ Hinv hd) as Hnd.
  pose proof (chain_length _ _ _ Hnd Hc) as Hlen.
  destruct (before_loop_spec (S (size h)) h t key hd _ x it0 Hc ltac:(lia) Hx Hit0 Hk0)
    as (l1 & x' & l2 & it & Hl & Hit & Hk & Hld & Hb).
  assert (x' = x) as ->.
  { apply (inv_keys _ _ _ Hinv hd x' x it it0); try done; [rewrite Hl; set_solver|congruence]. }
  rewrite Hit in Hit0. injection Hit0 as <-. clear Hk0.
  assert (x <> 0) as Hx0 by (eapply chain_dom; [exact Hc|done]).
  unfold assoc_delete, hashitem_before. fold hd. rewrite Hld, (proj2 (Z.eqb_neq _ _)) by done.
  assert (get h x = it) as -> by (unfold get; by rewrite Hit). rewrite Hb.
  set (h1 := alter (set_h_next 0) x h). rewrite Hl in Hnd, Hc.
  assert (NoDup (l1 ++ l2)) as Hnd'.
  { apply NoDup_app in Hnd as (? & Hd & [? ?]%NoDup_cons). apply NoDup_app. split_and!; [done| |done].
    intros y Hy. specialize (Hd y Hy). set_solver. }
  pose (C' l := if decide (l = hd) then l1 ++ l2 else C l).
  assert (forall l y, y ∈ C' l <-> y ∈ C l /\ y <> x) as Hin.
  { intros l y. unfold C'. case_decide as Hd; [subst l; rewrite Hl|].
    - apply NoDup_app in Hnd as (? & Hd & [? ?]%NoDup_cons). rewrite !elem_of_app, elem_of_cons.
      split; [|naive_solver]. intros Hy. split; [naive_solver|]. intros ->.
      destruct Hy as [Hy|Hy]; [|done]. apply (Hd x Hy). set_solver.
    - split; [|naive_solver]. intros Hy. split; [done|]. intros ->.
      destruct (inv_place _ _ _ Hinv l x Hy) as (itx & ? & ?). apply Hd. unfold hd. congruence. }
  assert (forall l, NoDup (C' l)) as HndC.
  { intros l. unfold C'. case_decide; [done|]. apply Hinv. }
  assert (forall l, l <> hd -> in_range t l -> chain h1 (load h1 t l) (C l)) as Hother.
  { intros l Hne Hrl. rewrite (load_heap h1 h) by done. apply chain_alter_other; [|by apply Hinv].
    intros Hy. destruct (proj1 (Hin l x)) as [_ ?]; [|done]. unfold C'. by rewrite decide_False. }
  destruct (last l1) as [y|] eqn:Hlast.
  - apply last_Some in Hlast as [l1' ->].
    assert (y <> x) as Hyx.
    { intros ->. apply (proj2 (proj1 (Hin hd x) ltac:(unfold C'; rewrite decide_True by done; set_solver))). done. }
    cbn [store]. eexists _, _, C'. split; [done|].
    assert (h_next_only h (alter (set_h_next (h_next it)) y h1)) as Ho.
    { eapply h_next_only_trans; apply h_next_only_alter. }
    split; [|split; [done|]].
    2: { intros q Hq. unfold h1. rewrite !lookup_alter_ne; [done| |]; intros ->; apply (Hq hd); rewrite Hl; set_solver. }
    rewrite <- Hk. eapply (rep_remove h _ t t C C' M x it); try done; [congruence|].
    intros l Hrl. rewrite (load_heap _ h) by done. unfold C'. case_decide as Hd; [subst l|].
    + unfold h1. rewrite alter_alter_ne by done. rewrite <- app_assoc. cbn [app].
      apply chain_alter_other.
      { intros Hy. apply (proj2 (proj1 (Hin hd x) ltac:(unfold C'; rewrite decide_True by done; set_solver))). done. }
      rewrite <- app_assoc in Hc, Hnd. cbn [app] in Hc, Hnd. by eapply chain_unlink.
    + apply chain_alter_other; [|rewrite (load_heap h h1) by done; by apply Hother].
      intros Hy. destruct (inv_place _ _ _ Hinv l y Hy) as (ity & Hity & Hh).
      destruct (inv_place _ _ _ Hinv hd y) as (ity' & Hity' & Hh'); [rewrite Hl; set_solver|]. congruence.
  - apply last_None in Hlast as ->. cbn [app] in *.
    destruct (store_head h t C hd (h_next it) Hinv Hr) as (t' & Hst & Hsh & Hld').
    assert (store h1 t hd (h_next it) = (h1, t')) as ->.
    { destruct hd; cbn in *; [injection Hst as <-; done|injection Hst as <-; done|done]. }
    eexists h1, t', C'. split; [done|].
    assert (h_next_only h h1) as Ho by apply h_next_only_alter.
    split; [|split; [done|]].
    2: { intros q Hq. unfold h1. rewrite lookup_alter_ne; [done|]. intros ->. apply (Hq hd). rewrite Hl. set_solver. }
    rewrite <- Hk. eapply (rep_remove h h1 t t' C C' M x it); try done; [congruence|].
    intros l Hrl. rewrite Hld' by done. unfold C'. case_decide; [|by apply Hother].
    destruct Hc as (_ & _ & it' & Hit' & Hc). rewrite Hit in Hit'. injection Hit' as <-.
    apply chain_alter_other; [|done]. apply NoDup_cons in Hnd as [? _]. done.
Qed.

(** *** Expansion *)

Lemma rep_set_started h t C M b : rep h t C M -> rep h (set_started t b) C M.
Proof. intros [[] HM]. split; [split|]; done. Qed.

Lemma rep_start_expand h t C M n : rep h t C M -> rep h (assoc_start_expand t n) C M.
Proof.
  intros Hrep. unfold assoc_start_expand. case_if; [done|]. case_if; [|done].
  by apply rep_set_started.
Qed.

Lemma rep_expand h t C M calloc :
  rep h t C M -> expanding t = false -> (calloc = true -> hashpower t < 31) ->
  exists C', rep h (assoc_expand t calloc) C' M.
Proof.
  intros [Hinv HM] He Hp. unfold assoc_expand. destruct calloc; cycle 1.
  { exists C. destruct Hinv as [H1 H2 H3 H4 H5 H6 H7 H8]. split; [split|]; try done.
    - cbn. rewrite He. done.
    - intros [j|j|q] Hj; cbn in Hj; [destruct Hj; congruence| |done]. by apply (H4 (Primary j)). }
  specialize (Hp eq_refl). set (t' := {| hashpower := _ |}).
  destruct Hinv as [H1 H2 H3 H4 H5 H6 H7 H8].
  exists (fun l => match l with Old i => C (Primary i) | _ => [] end).
  assert (forall hv, 0 <= hv -> head_of t' hv = Old (hv mod buckets (hashpower t))) as Hhd.
  { intros hv Hhv. rewrite head_of_eq by (cbn; lia). cbn.
    replace (hashpower t + 1 - 1) with (hashpower t) by lia.
    rewrite (proj2 (Z.leb_le _ _)); [done|]. apply Z.mod_pos_bound, buckets_pos. lia. }
  assert (forall hv, head_of t hv = Primary (hv mod buckets (hashpower t))) as Hhd0.
  { intros hv. rewrite head_of_eq by done. by rewrite He. }
  split; [split|].
  - cbn. lia.
  - cbn [t' primary_hashtable hashpower]. rewrite length_replicate, hashsize_eq by lia.
    pose proof (buckets_pos (hashpower t + 1)). lia.
  - intros _. cbn. replace (hashpower t + 1 - 1) with (hashpower t) by lia.
    pose proof (buckets_pos (hashpower t)). lia.
  - intros [j|j|q] Hj; [| |done]; cbn [load t' old_hashtable primary_hashtable].
    + destruct Hj as [_ Hj]. cbn [hashpower t'] in Hj.
      replace (hashpower t + 1 - 1) with (hashpower t) in Hj by lia. by apply (H4 (Primary j)).
    + cbn. unfold bucket. rewrite nth_lookup. destruct (_ !! _) as [z|] eqn:Hz; [|done].
      by apply lookup_replicate in Hz as [-> _].
  - intros [j|j|q] Hj; [|done|done]. apply H5. intros Hj'. apply Hj. split; [done|].
    cbn [hashpower t']. by replace (hashpower t + 1 - 1) with (hashpower t) by lia.
  - intros [j|j|q] x Hx; [|set_solver|set_solver]. destruct (H6 _ _ Hx) as (it & Hit & Hh).
    exists it. split; [done|]. rewrite Hhd by apply Hhash. rewrite Hhd0 in Hh. by injection Hh as ->.
  - intros [j|j|q]; [apply H7|constructor|constructor].
  - intros [j|j|q] x y itx ity Hx; [by apply (H8 (Primary j))|set_solver|set_solver].
  - intros k x. rewrite Hhd by apply Hhash. rewrite HM, Hhd0. done.
Qed.

(** The primary chains while one old bucket is emptied: [l] is what is left of it. *)
Definition moved (bk : Z -> Z) (l : list Z) (D : Z -> list Z) : Z -> list Z :=
  fold_left (fun D x b => if decide (b = bk x) then x :: D b else D b) l D.

Lemma elem_of_moved bk l D b x : x ∈ moved bk l D b <-> (x ∈ l /\ bk x = b) \/ x ∈ D b.
Proof.
  unfold moved. revert D. induction l as [|y l IH]; intros D; cbn; [set_solver|].
  rewrite IH. case_decide; rewrite ?elem_of_cons; naive_solver.
Qed.

Lemma moved_nodup bk l D b : NoDup l -> (forall x b, x ∈ l -> x ∉ D b) -> NoDup (D b) ->
  NoDup (moved bk l D b).
Proof.
  unfold moved. intros Hnd. revert D. induction Hnd as [|y l Hy _ IH]; intros D Hd Hb; cbn; [done|].
  apply IH.
  - intros x b' Hx. case_decide; rewrite ?elem_of_cons; set_solver.
  - case_decide; [|done]. apply NoDup_cons. split; [|done]. apply Hd. set_solver.
Qed.

Lemma move_loop_spec l fuel h t p D bk :
  chain h p l -> NoDup l -> (length l < fuel)%nat -> 0 <= hashpower t < 32 ->
  Z.of_nat (length (primary_hashtable t)) = buckets (hashpower t) ->
  (forall b, 0 <= b < buckets (hashpower t) -> chain h (bucket (primary_hashtable t) b) (D b)) ->
  (forall x b, x ∈ l -> x ∉ D b) ->
  (forall x it, x ∈ l -> h !! x = Some it -> bk x = hash (ikey it) mod buckets (hashpower t)) ->
  let '(h', t') := move_loop hash fuel h t p in
  h_next_only h h' /\ (forall q, q ∉ l -> h' !! q = h !! q) /\
  (exists pt, t' = set_primary t pt /\ length pt = length (primary_hashtable t)) /\
  (forall b, 0 <= b < buckets (hashpower t) ->
     chain h' (bucket (primary_hashtable t') b) (moved bk l D b)).
Proof.
  revert fuel h t p D. induction l as [|x l IH]; intros fuel h t p D Hc Hnd Hf Hp Hlen HD Hdis Hbk.
  { cbn in Hc. subst p. destruct fuel; [cbn in Hf; lia|]. cbn [move_loop Z.eqb].
    split; [apply h_next_only_refl|]. split; [done|]. split; [|done].
    exists (primary_hashtable t). by destruct t. }
  destruct Hc as (-> & Hx0 & it & Hit & Hc). destruct fuel as [|fuel]; [lia|].
  cbn [move_loop]. rewrite (proj2 (Z.eqb_neq _ _)) by done.
  assert (get h x = it) as -> by (unfold get; by rewrite Hit).
  rewrite hashmask_land by lia. rewrite <- (Hbk x it) by (done || set_solver).
  apply NoDup_cons in Hnd as [Hxl Hnd].
  set (h1 := alter (set_h_next (bucket (primary_hashtable t) (bk x))) x h).
  set (t1 := set_primary t _).
  assert (0 <= bk x < buckets (hashpower t)) as Hb.
  { rewrite (Hbk x it) by (done || set_solver). apply Z.mod_pos_bound, buckets_pos. lia. }
  specialize (IH fuel h1 t1 (h_next it)
    (fun b => if decide (b = bk x) then x :: D b else D b)).
  destruct (move_loop hash fuel h1 t1 (h_next it)) as [h' t'].
  destruct IH as (Ho & Hq & (pt & -> & Hpt) & Hch).
  - by apply chain_alter_other.
  - done.
  - cbn in Hf. lia.
  - done.
  - cbn. unfold set_bucket. by rewrite length_insert.
  - intros b Hbr. cbn [t1 set_primary primary_hashtable]. rewrite bucket_set_bucket by lia.
    case_decide as Hd.
    + subst b. split; [done|]. split; [done|]. eexists. unfold h1 at 1. rewrite lookup_alter_eq, Hit.
      split; [done|]. cbn [set_h_next h_next]. apply chain_alter_other; [apply Hdis; set_solver|by apply HD].
    + apply chain_alter_other; [apply Hdis; set_solver|by apply HD].
  - intros y b Hy. case_decide; rewrite ?elem_of_cons; set_solver.
  - intros y ity Hy Hity. apply Hbk; [set_solver|].
    unfold h1 in Hity. rewrite lookup_alter_ne in Hity; [done|]. set_solver.
  - split; [eapply h_next_only_trans; [apply h_next_only_alter|exact Ho]|].
    split. { intros q Hql. rewrite Hq by set_solver. apply lookup_alter_ne. set_solver. }
    split. { exists pt. split; [done|]. rewrite Hpt. cbn. unfold set_bucket. by rewrite length_insert. }
    exact Hch.
Qed.

(** Chains rearranged, with the same items on them, represent the same map. *)
Lemma rep_rearrange h h' t t' C C' M :
  rep h t C M -> h_next_only h h' ->
  (forall x, (exists l, x ∈ C' l) <-> (exists l, x ∈ C l)) ->
  1 <= hashpower t' <= 31 ->
  Z.of_nat (length (primary_hashtable t')) = buckets (hashpower t') ->
  (expanding t' = true ->
    Z.of_nat (length (old_hashtable t')) = buckets (hashpower t' - 1) /\
    0 <= expand_bucket t' < buckets (hashpower t' - 1)) ->
  (forall l, in_range t' l -> chain h' (load h' t' l) (C' l)) ->
  (forall l, ~ in_range t' l -> C' l = []) ->
  (forall l x it, x ∈ C' l -> h !! x = Some it -> head_of t' (hash (ikey it)) = l) ->
  (forall l, NoDup (C' l)) ->
  rep h' t' C' M.
Proof.
  intros Hrep Ho Hsame H1 H2 H3 H4 H5 H6 H7. pose proof Hrep as [Hinv HM].
  assert (Hold : forall l x, x ∈ C' l -> exists it, h !! x = Some it /\ x ∈ C (head_of t (hash (ikey it)))).
  { intros l x Hx. destruct (proj1 (Hsame x)) as [l0 Hx0]; [by exists l|].
    destruct (inv_place _ _ _ Hinv l0 x Hx0) as (it & Hit & Hh). exists it. by rewrite Hh. }
  assert (Hkey : forall x it it', h !! x = Some it -> h' !! x = Some it' -> ikey it' = ikey it).
  { intros x it it' Hx Hx'. destruct (h_next_only_key _ _ _ _ Ho Hx) as (? & ? & ?). congruence. }
  split; [split; try done|].
  - intros l x Hx. destruct (Hold l x Hx) as (it & Hit & _).
    destruct (h_next_only_key _ _ _ _ Ho Hit) as (it' & Hit' & Hk). exists it'. split; [done|].
    rewrite Hk. by apply (H6 l x).
  - intros l x y itx ity Hx Hy Hitx Hity Hk.
    destruct (Hold l x Hx) as (itx0 & Hx0 & Hxc). destruct (Hold l y Hy) as (ity0 & Hy0 & Hyc).
    pose proof (Hkey _ _ _ Hx0 Hitx). pose proof (Hkey _ _ _ Hy0 Hity).
    assert (ikey itx0 = ikey ity0) as Heq by congruence. rewrite <- Heq in Hyc.
    by apply (inv_keys _ _ _ Hinv _ x y itx0 ity0 Hxc Hyc).
  - intros k x. rewrite HM. split; intros (Hx & it & Hit & Hk).
    + destruct (proj2 (Hsame x)) as [l Hxl]; [by eexists|].
      rewrite <- Hk, (H6 l x it Hxl Hit). split; [done|].
      destruct (h_next_only_key _ _ _ _ Ho Hit) as (it' & ? & ?). exists it'. split; congruence.
    + destruct (Hold _ x Hx) as (it0 & Hit0 & Hxc). pose proof (Hkey _ _ _ Hit0 Hit) as Hk0.
      rewrite <- Hk, Hk0. split; [done|]. exists it0. split; congruence.
Qed.

Lemma rep_move_bucket h t C M : rep h t C M -> expanding t = true ->
  let '(h', t') := move_bucket hash h t in
  (exists C', rep h' t' C' M) /\ h_next_only h h' /\ (forall q, (forall l, q ∉ C l) -> h' !! q = h !! q) /\
  hashpower t' = hashpower t /\ expand_bucket t' = expand_bucket t + 1 /\
  expanding t' = negb (expand_bucket t + 1 =? buckets (hashpower t - 1)).
Proof.
  intros Hrep He. pose proof Hrep as [Hinv HM].
  destruct Hinv as [Hp Hlp Hlo Hch Hnone Hpl Hnd Hks]. pose proof (Hlo He) as [Hl1 Heb].
  set (eb := expand_bucket t) in *. set (hp := hashpower t) in *.
  assert (buckets (hp - 1) <= 2 ^ 30) as H30 by (apply Z.pow_le_mono_r; lia).
  set (bk x := hash (ikey (get h x)) mod buckets hp).
  assert (in_range t (Old eb)) as Hr by done.
  assert (Hdis : forall x b, x ∈ C (Old eb) -> x ∉ C (Primary b)).
  { intros x b Hx Hx'. destruct (Hpl _ _ Hx) as (? & ? & ?). destruct (Hpl _ _ Hx') as (? & ? & ?). congruence. }
  unfold move_bucket.
  pose proof (move_loop_spec (C (Old eb)) (S (size h)) h t (bucket (old_hashtable t) eb)
    (fun b => C (Primary b)) bk (Hch _ Hr) (Hnd _)) as Hml.
  destruct (move_loop hash _ _ _ _) as [h1 t1].
  destruct Hml as (Ho & Hq & (pt & -> & Hpt) & Hmv).
  { pose proof (chain_length _ _ _ (Hnd _) (Hch _ Hr)). lia. }
  { fold hp. lia. }
  { done. }
  { intros b Hb. by apply (Hch (Primary b)). }
  { done. }
  { intros x it Hx Hit. unfold bk, get. by rewrite Hit. }
  cbn [set_primary set_old expand_bucket hashpower primary_hashtable old_hashtable expanding started_expanding] in *.
  fold eb hp in Hmv |- *. rewrite (wrap_small 32 (eb + 1)) by lia. rewrite hashsize_eq by lia.
  set (t' := {| hashpower := hp |}).
  assert (Hhd : forall x l it, x ∈ C l -> h !! x = Some it ->
    head_of t' (hash (ikey it)) = if decide (l = Old eb) then Primary (bk x) else l).
  { intros x l it Hx Hit. destruct (Hpl l x Hx) as (it0 & Hit0 & Hh). rewrite Hit in Hit0. injection Hit0 as <-.
    rewrite head_of_eq in Hh |- * by (cbn; lia). cbn [hashpower expanding expand_bucket t'] in *.
    rewrite He in Hh. cbn [andb] in Hh. fold hp eb in Hh.
    pose proof (Z.mod_pos_bound (hash (ikey it)) (buckets (hp - 1)) ltac:(apply buckets_pos; lia)) as Hob.
    assert (bk x = hash (ikey it) mod buckets hp) as Hbk by (unfold bk, get; by rewrite Hit).
    set (ob := hash (ikey it) mod buckets (hp - 1)) in *.
    destruct (Z.leb_spec eb ob) as [Hle|Hlt]; subst l.
    - case_decide as Hd; [injection Hd as Hd|].
      + rewrite (proj2 (Z.leb_gt (eb + 1) ob)) by lia. rewrite andb_false_r. by rewrite Hbk.
      + assert (ob <> eb) by congruence.
        rewrite (proj2 (Z.leb_le (eb + 1) ob)) by lia. rewrite (proj2 (Z.eqb_neq _ _)) by lia. done.
    - rewrite decide_False by done. rewrite (proj2 (Z.leb_gt (eb + 1) ob)) by lia. by rewrite andb_false_r. }
  pose (C' l := match l with
                | Old i => if decide (i = eb) then [] else C (Old i)
                | Primary b => moved bk (C (Old eb)) (fun b => C (Primary b)) b
                | Next _ => [] end).
  assert (HC' : forall l x, x ∈ C' l -> (exists b, l = Primary b /\ x ∈ C (Old eb) /\ bk x = b) \/ (l <> Old eb /\ x ∈ C l)).
  { intros [i|b|q] x Hx; cbn in Hx; [case_decide; [set_solver|]; right; split; [congruence|done]| |set_solver].
    apply elem_of_moved in Hx as [[? ?]|?]; [left; by exists b|right; split; [done|done]]. }
  split; [|split_and!; [done|intros q Hnq; apply Hq, Hnq|done|done|done]].
  exists C'. apply (rep_rearrange h h1 t t' C C' M Hrep Ho).
  - intros x. split.
    + intros [l [(b & -> & Hx & _)|[_ Hx]]%HC']; by eexists.
    + intros [l Hx]. destruct (decide (l = Old eb)) as [-> |Hl].
      * exists (Primary (bk x)). cbn. apply elem_of_moved. by left.
      * exists l. destruct l as [i|b|q]; cbn.
        -- rewrite decide_False by congruence. done.
        -- apply elem_of_moved. by right.
        -- rewrite Hnone in Hx by (by intros []). set_solver.
  - done.
  - cbn. rewrite Hpt. done.
  - cbn. intros Hne. zbool. rewrite (proj2 (Z.eqb_neq _ _)) by done. unfold set_bucket.
    rewrite length_insert. lia.
  - intros [i|b|q] Hi; [| |done]; cbn [load t' old_hashtable primary_hashtable C' in_range hashpower expanding] in *.
    + destruct Hi as [Hne Hi]. zbool. rewrite (proj2 (Z.eqb_neq _ _)) by done.
      rewrite bucket_set_bucket by lia. case_decide; [done|].
      eapply chain_ext; [|by apply (Hch (Old i))]. intros x Hx. rewrite Hq; [done|].
      intros Hx'. destruct (Hpl _ _ Hx) as (? & ? & ?). destruct (Hpl _ _ Hx') as (? & ? & ?). congruence.
    + by apply Hmv.
  - intros l Hl. destruct (C' l) as [|x k] eqn:Hcl; [done|]. exfalso. apply Hl.
    assert (x ∈ C' l) as Hx by (rewrite Hcl; set_solver).
    assert (exists it l0, h !! x = Some it /\ x ∈ C l0) as (it & l0 & Hit & Hx0).
    { apply HC' in Hx as [(b & -> & Hx & _)|[_ Hx]]; destruct (Hpl _ _ Hx) as (it & ? & _); eauto. }
    replace l with (head_of t' (hash (ikey it))); [apply head_in_range; done|].
    rewrite (Hhd x l0 it Hx0 Hit).
    apply HC' in Hx as [(b & -> & Hx & <-)|[Hne Hx]]; destruct (Hpl _ _ Hx) as (it1 & Hi1 & Hh1);
      destruct (Hpl _ _ Hx0) as (it2 & Hi2 & Hh2); assert (l0 = head_of t (hash (ikey it1))) as -> by congruence;
      case_decide; congruence.
  - intros l x it [(b & -> & Hx & <-)|[Hne Hx]]%HC' Hit; rewrite (Hhd x _ it Hx Hit); by case_decide.
  - intros [i|b|q]; cbn; [case_decide; [constructor|apply Hnd]| |constructor].
    apply moved_nodup; [apply Hnd|done|apply Hnd].
Qed.

Lemma rep_bulk_move locks h t C M : rep h t C M ->
  let '(h', t') := bulk_move hash locks h t in
  (exists C', rep h' t' C' M) /\ h_next_only h h' /\ hashpower t' = hashpower t /\
  (forall q, (forall k, M !! k <> Some q) -> h' !! q = h !! q).
Proof.
  revert h t C. induction locks as [|lock locks IH]; intros h t C Hrep; cbn [bulk_move].
  { split; [by exists C|]. split; [apply h_next_only_refl|done]. }
  destruct (expanding t) eqn:He; [|split; [by exists C|split; [apply h_next_only_refl|done]]].
  destruct lock; [|by eapply IH].
  pose proof (rep_move_bucket h t C M Hrep He) as Hm. destruct (move_bucket hash h t) as [h1 t1].
  destruct Hm as ([C1 Hrep1] & Ho1 & Hk1 & Hp1 & _).
  specialize (IH h1 t1 C1 Hrep1). destruct (bulk_move hash locks h1 t1) as [h2 t2].
  destruct IH as (? & ? & ? & Hk2). split_and!; [done|by eapply h_next_only_trans|congruence|].
  intros q Hq. rewrite Hk2 by done. apply Hk1. intros l Hin. destruct (rep_member _ _ _ _ _ _ Hrep Hin) as (? & _ & ?).
  by eapply Hq.
Qed.

(** When the locks of the remaining buckets are free the expansion ends. *)
Lemma bulk_move_ends n h t C M : rep h t C M -> expanding t = true ->
  Z.of_nat n = buckets (hashpower t - 1) - expand_bucket t ->
  expanding (snd (bulk_move hash (replicate n true) h t)) = false.
Proof.
  revert h t C. induction n as [|n IH]; intros h t C Hrep He Hn.
  { destruct Hrep as [Hinv _]. pose proof (inv_old _ _ _ Hinv He). lia. }
  cbn [replicate bulk_move]. rewrite He.
  pose proof (rep_move_bucket h t C M Hrep He) as Hm. destruct (move_bucket hash h t) as [h1 t1].
  destruct Hm as ([C1 Hrep1] & _ & _ & Hp1 & He1 & Hx1).
  destruct (Z.eqb_spec (expand_bucket t + 1) (buckets (hashpower t - 1))) as [Hd|Hd].
  - destruct n; [done|]. cbn [replicate bulk_move]. by rewrite Hx1.
  - apply (IH h1 t1 C1 Hrep1); [done|]. rewrite Hp1, He1. lia.
Qed.

Lemma rep_maintenance locks wake h t C M : rep h t C M ->
  (wake = Some true -> hashpower t < 31) ->
  let '(h', t') := maintenance_round hash locks wake h t in
  (exists C', rep h' t' C' M) /\ h_next_only h h' /\ (forall q, (forall k, M !! k <> Some q) -> h' !! q = h !! q).
Proof.
  intros Hrep Hw. unfold maintenance_round.
  pose proof (rep_bulk_move locks h t C M Hrep) as Hb.
  destruct (bulk_move hash locks h t) as [h1 t1]. destruct Hb as ([C1 Hrep1] & Ho & Hp & Hk).
  destruct (expanding t1) eqn:He; [split; [by exists C1|done]|].
  pose proof (rep_set_started h1 t1 C1 M false Hrep1) as Hrep2.
  destruct wake as [calloc|]; [|split; [by exists C1|done]].
  split; [|done]. apply (rep_expand h1 _ C1 M calloc Hrep2); [done|].
  intros ->. cbn. rewrite Hp. by apply Hw.
Qed.

Lemma rep_init n t h : assoc_init n true = Some t -> 0 <= n <= 31 ->
  rep h t (fun _ => []) ∅.
Proof.
  intros [= <-] Hn. set (p := if n =? 0 then HASHPOWER_DEFAULT else n).
  assert (1 <= p <= 31) as Hp by (unfold p, HASHPOWER_DEFAULT; case_if; lia).
  split; [split|]; cbn [hashpower primary_hashtable expanding]; try done.
  - rewrite length_replicate, hashsize_eq by lia. pose proof (buckets_pos p). lia.
  - intros [j|j|q] Hj; [by destruct Hj| |done]. cbn. unfold bucket. rewrite nth_lookup.
    destruct (_ !! _) as [z|] eqn:Hz; [|done]. by apply lookup_replicate in Hz as [-> _].
  - set_solver.
  - constructor.
  - set_solver.
  - intros k x. rewrite lookup_empty. split; [done|]. set_solver.
Qed.

(** ** The life of the table *)

(** [reachable h t M]: after some sequence of operations the memory is [h], the table is
    [t], and [M] is the map those operations stand for.  Insertion needs a key that is
    not in the table and deletion one that is, as the callers ensure; the maintenance
    thread may run at any point between them, with any locks taken; and the other
    components may change every field but [h_next] and the key of the linked items. *)
Inductive reachable : heap -> assoc -> gmap (list Z) Z -> Prop :=
| reach_init n h t :
    assoc_init n true = Some t -> 0 <= n <= 31 -> reachable h t ∅
| reach_insert h t M p it h' t' :
    reachable h t M -> p <> 0 -> h !! p = Some it -> M !! ikey it = None ->
    assoc_insert h t p (hash (ikey it)) = (h', t') -> reachable h' t' (<[ikey it := p]> M)
| reach_delete h t M key x h' t' :
    reachable h t M -> M !! key = Some x ->
    assoc_delete h t key (hash key) = Some (h', t') -> reachable h' t' (delete key M)
| reach_start h t M n :
    reachable h t M -> reachable h (assoc_start_expand t n) M
| reach_maintenance h t M locks wake h' t' :
    reachable h t M -> (wake = Some true -> hashpower t < 31) ->
    maintenance_round hash locks wake h t = (h', t') -> reachable h' t' M
| reach_memory h t M h' :
    reachable h t M ->
    (forall k x it, M !! k = Some x -> h !! x = Some it ->
       exists it', h' !! x = Some it' /\ h_next it' = h_next it /\ ikey it' = ikey it) ->
    reachable h' t M.

Lemma reachable_rep h t M : reachable h t M -> exists C, rep h t C M.
Proof.
  induction 1 as [n h t Hi Hn|h t M p it h' t' _ [C Hrep] Hp Hit HM Hins|h t M key x h' t' _ [C Hrep] Hx Hdel
    |h t M n _ [C Hrep]|h t M locks wake h' t' _ [C Hrep] Hw Hm|h t M h' _ [C Hrep] Hmem].
  - eexists. by eapply rep_init.
  - pose proof (rep_insert h t C M p it Hrep Hp Hit HM) as Hi. rewrite Hins in Hi.
    destruct Hi as [Hi _]. eauto.
  - destruct (rep_delete h t C M key x Hrep Hx) as (h1 & t1 & C1 & Hd & Hr & _).
    rewrite Hd in Hdel. injection Hdel as -> ->. eauto.
  - exists C. by apply rep_start_expand.
  - pose proof (rep_maintenance locks wake h t C M Hrep Hw) as Hmm. rewrite Hm in Hmm. apply Hmm.
  - exists C. apply (rep_ext h); [|done]. intros l x it Hx Hit.
    destruct (rep_member _ _ _ _ _ _ Hrep Hx) as (it' & Hit' & HMx). eapply Hmem; [exact HMx|congruence].
Qed.

(** C25: the hash table is a map from keys to items.  After any sequence of insertions,
    deletions and rounds of the maintenance thread, in the middle of an expansion or
    not, [assoc_find] returns the item stored under the key and the null pointer when
    there is none, and deleting a present key never runs into the assertion. *)
Theorem assoc_refines_map h t M :
  reachable h t M ->
  (forall key, assoc_find h t key (hash key) = default 0 (M !! key)) /\
  (forall key x, M !! key = Some x -> is_Some (assoc_delete h t key (hash key))).
Proof.
  intros [C Hrep]%reachable_rep. split; [intros key; by eapply rep_find|].
  intros key x Hx. destruct (rep_delete h t C M key x Hrep Hx) as (? & ? & ? & -> & _). by eexists.
Qed.

(** An expansion ends.  While a table is being expanded, the maintenance thread needs
    exactly one successful lock per bucket that is left; then the table is whole again,
    twice as large as before the expansion began, and holds the same items. *)
Theorem expansion_completes h t M :
  reachable h t M -> expanding t = true ->
  let left := buckets (hashpower t - 1) - expand_bucket t in
  let '(h', t') := bulk_move hash (replicate (Z.to_nat left) true) h t in
  0 < left /\ expanding t' = false /\
  Z.of_nat (length (primary_hashtable t')) = 2 * buckets (hashpower t - 1) /\
  forall key, assoc_find h' t' key (hash key) = default 0 (M !! key).
Proof.
  intros [C Hrep]%reachable_rep He left. pose proof Hrep as [Hinv _].
  destruct (inv_old _ _ _ Hinv He) as [_ Heb]. pose proof (inv_power _ _ _ Hinv).
  pose proof (rep_bulk_move (replicate (Z.to_nat left) true) h t C M Hrep) as Hb.
  pose proof (bulk_move_ends (Z.to_nat left) h t C M Hrep He ltac:(lia)) as Hend.
  destruct (bulk_move _ _ _ _) as [h' t']. destruct Hb as ([C' Hrep'] & _ & Hp & _).
  split; [lia|]. split; [done|]. split; [|intros key; by eapply rep_find].
  destruct Hrep' as [Hinv' _]. rewrite (inv_primary _ _ _ Hinv'), Hp. unfold buckets.
  rewrite <- Z.pow_succ_r by lia. f_equal. lia.
Qed.
End proofs.

(** The load test of [assoc_start_expand] multiplies in 32 bits: at the largest table
    size that can still grow the threshold wraps to a third of what it should be. *)
Lemma start_expand_threshold_wraps :
  u32 (hashsize 31 * 3) / 2 = 2 ^ 30 /\ 2 ^ 31 * 3 / 2 = 3 * 2 ^ 30.
Proof. done. Qed.

(** ** An expansion in progress *)

Module Witness.
(** A hash function for the example: the sum of the bytes. *)
Definition sum_hash (k : list Z) : Z := u32 (fold_left Z.add k 0).

Definition named (k : list Z) : item := mk_item 0 0 0 0 0 0 0 0 0 k 0 0 [].
Definition mem0 : heap := <[100 := named [1]]> (<[200 := named [2]]> (<[300 := named [3]]> ∅)).

(** Three items in a table of two buckets, then the first bucket of an expansion to four. *)
Definition s0 := (mem0, {| hashpower := 1; primary_hashtable := [0; 0]; old_hashtable := [];
  expanding := false; started_expanding := false; expand_bucket := 0 |}).
Definition s1 := assoc_insert (fst s0) (snd s0) 100 (sum_hash [1]).
Definition s2 := assoc_insert (fst s1) (snd s1) 200 (sum_hash [2]).
Definition s3 := assoc_insert (fst s2) (snd s2) 300 (sum_hash [3]).
Definition s4 := maintenance_round sum_hash [] (Some true) (fst s3) (snd s3).
Definition s5 := maintenance_round sum_hash [true] None (fst s4) (snd s4).
Definition M5 : gmap (list Z) Z := <[[3] := 300]> (<[[2] := 200]> (<[[1] := 100]> ∅)).

#[global] Instance sum_hash_range : KeyHash sum_hash.
Proof. intros k. apply u32_range. Qed.

Lemma s5_reachable : reachable sum_hash (fst s5) (snd s5) M5.
Proof.
  apply (reach_maintenance sum_hash (fst s4) (snd s4) M5 [true] None); [|done|reflexivity].
  apply (reach_maintenance sum_hash (fst s3) (snd s3) M5 [] (Some true)); [|cbn; lia|reflexivity].
  apply (reach_insert sum_hash (fst s2) (snd s2) _ 300 (named [3])); try done.
  apply (reach_insert sum_hash (fst s1) (snd s1) _ 200 (named [2])); try done.
  apply (reach_insert sum_hash (fst s0) (snd s0) _ 100 (named [1])); try done.
  apply (reach_init sum_hash 1); [reflexivity|lia].
Qed.
End Witness.

(** In the middle of the expansion: keys in a moved and in an unmoved bucket, and a miss. *)
Lemma assoc_refines_map_witness :
  expanding (snd Witness.s5) = true /\
  assoc_find (fst Witness.s5) (snd Witness.s5) [2] (Witness.sum_hash [2]) = 200 /\
  assoc_find (fst Witness.s5) (snd Witness.s5) [3] (Witness.sum_hash [3]) = 300 /\
  assoc_find (fst Witness.s5) (snd Witness.s5) [5] (Witness.sum_hash [5]) = 0.
Proof.
  destruct (assoc_refines_map Witness.sum_hash _ _ _ Witness.s5_reachable) as [H _].
  rewrite !H. split; [reflexivity|]. split; [reflexivity|]. split; reflexivity.
Defined.

Lemma expansion_completes_witness :
  let '(h', t') := bulk_move Witness.sum_hash [true] (fst Witness.s5) (snd Witness.s5) in
  expanding t' = false /\ length (primary_hashtable t') = 4%nat /\
  assoc_find h' t' [3] (Witness.sum_hash [3]) = 300.
Proof.
  pose proof (expansion_completes Witness.sum_hash _ _ _
    Witness.s5_reachable eq_refl) as H. cbn zeta in H.
  change (replicate _ true) with [true] in H. destruct (bulk_move _ _ _ _) as [h' t'].
  destruct H as (_ & He & Hl & Hf). split; [exact He|]. split.
  - change (2 * _) with 4 in Hl. lia.
  - rewrite Hf. reflexivity.
Defined.
