(* ===== verification/McHash.v ===== *)
(** The two hash functions of the server: MurmurHash3
    (src/memcached-sr/murmur3_hash.c) and Bob Jenkins' hash
    (src/memcached-sr/jenkins_hash.c).

    A key is read from memory: [m] is the memory from the first byte of the key on, and
    reaches beyond the key, because the aligned path of [jenkins_hash] reads whole
    words and masks the excess off.  [jenkins_hash] has three paths on little-endian
    and two on big-endian machines, chosen by the address of the key. *)
From S2P Require Import Prelude McItem.

(** ** Reading the key *)

Definition k8 (m : list Z) (i : nat) : Z := byte_at m i.
(** Aligned 16- and 32-bit loads on a little-endian and on a big-endian machine. *)
Definition k16 (m : list Z) (i : nat) : Z := byte_at m (2 * i) + 2 ^ 8 * byte_at m (2 * i + 1).
Definition k32 (m : list Z) (i : nat) : Z :=
  byte_at m (4 * i) + 2 ^ 8 * byte_at m (4 * i + 1)
  + 2 ^ 16 * byte_at m (4 * i + 2) + 2 ^ 24 * byte_at m (4 * i + 3).
Definition k32b (m : list Z) (i : nat) : Z :=
  2 ^ 24 * byte_at m (4 * i) + 2 ^ 16 * byte_at m (4 * i + 1)
  + 2 ^ 8 * byte_at m (4 * i + 2) + byte_at m (4 * i + 3).

Definition shl (x n : Z) : Z := u32 (Z.shiftl x n).

(** ** MurmurHash3 *)

Definition rotl32 (x r : Z) : Z := Z.lor (shl x r) (Z.shiftr x (32 - r)).

Definition fmix32 (h : Z) : Z :=
  let h := Z.lxor h (Z.shiftr h 16) in
  let h := u32 (h * 0x85ebca6b) in
  let h := Z.lxor h (Z.shiftr h 13) in
  let h := u32 (h * 0xc2b2ae35) in
  Z.lxor h (Z.shiftr h 16).

Definition murmur_c1 : Z := 0xcc9e2d51.
Definition murmur_c2 : Z := 0x1b873593.

Definition murmur_k1 (k1 : Z) : Z :=
  let k1 := u32 (k1 * murmur_c1) in
  let k1 := rotl32 k1 15 in
  u32 (k1 * murmur_c2).

(** The body: the blocks from the first to the last. *)
Fixpoint murmur_body (n : nat) (m : list Z) (h1 : Z) : Z :=
  match n with
  | O => h1
  | S n =>
      let h1 := Z.lxor h1 (murmur_k1 (k32 m 0)) in
      let h1 := rotl32 h1 13 in
      murmur_body n (drop 4 m) (u32 (h1 * 5 + 0xe6546b64))
  end.

Definition murmur_tail (rem : nat) (tail : list Z) (h1 : Z) : Z :=
  let k1 := 0 in
  let k1 := if (3 <=? rem)%nat then Z.lxor k1 (Z.shiftl (k8 tail 2) 16) else k1 in
  let k1 := if (2 <=? rem)%nat then Z.lxor k1 (Z.shiftl (k8 tail 1) 8) else k1 in
  if (1 <=? rem)%nat then Z.lxor h1 (murmur_k1 (Z.lxor k1 (k8 tail 0))) else h1.

Definition MurmurHash3_x86_32 (key : list Z) (length : nat) : Z :=
  let nblocks := (length / 4)%nat in
  let h1 := murmur_body nblocks key 0 in
  let h1 := murmur_tail (length mod 4) (drop (4 * nblocks) key) h1 in
  fmix32 (u32 (Z.lxor h1 (Z.of_nat length))).

(** ** Jenkins' hash *)

Definition rot (x k : Z) : Z := Z.lxor (shl x k) (Z.shiftr x (32 - k)).

Definition abc := (Z * Z * Z)%type.

(** One line of the macro: [x -= z; x ^= rot(z, k); z += y]. *)
Definition mix_line (k x y z : Z) : Z * Z :=
  let x := u32 (x - z) in
  let x := Z.lxor x (rot z k) in
  (x, u32 (z + y)).

Definition mix (s : abc) : abc :=
  let '(a, b, c) := s in
  let '(a, c) := mix_line 4 a b c in
  let '(b, a) := mix_line 6 b c a in
  let '(c, b) := mix_line 8 c a b in
  let '(a, c) := mix_line 16 a b c in
  let '(b, a) := mix_line 19 b c a in
  let '(c, b) := mix_line 4 c a b in
  (a, b, c).

Definition final (s : abc) : abc :=
  let '(a, b, c) := s in
  let c := Z.lxor c b in let c := u32 (c - rot b 14) in
  let a := Z.lxor a c in let a := u32 (a - rot c 11) in
  let b := Z.lxor b a in let b := u32 (b - rot a 25) in
  let c := Z.lxor c b in let c := u32 (c - rot b 16) in
  let a := Z.lxor a c in let a := u32 (a - rot c 4) in
  let b := Z.lxor b a in let b := u32 (b - rot a 14) in
  let c := Z.lxor c b in let c := u32 (c - rot b 24) in
  (a, b, c).

(** [while (length > 12)] with the additions [add] of one path; each round takes twelve
    bytes, so the length is enough fuel. *)
Fixpoint jenkins_loop (fuel : nat) (add : list Z -> abc -> abc) (m : list Z) (length : nat) (s : abc)
  : list Z * nat * abc :=
  match fuel with
  | O => (m, length, s)
  | S fuel =>
      if (12 <? length)%nat then jenkins_loop fuel add (drop 12 m) (length - 12) (mix (add m s))
      else (m, length, s)
  end.

(** [x += y] on 32 bits. *)
Definition add_a (y : Z) (s : abc) : abc := let '(a, b, c) := s in (u32 (a + y), b, c).
Definition add_b (y : Z) (s : abc) : abc := let '(a, b, c) := s in (a, u32 (b + y), c).
Definition add_c (y : Z) (s : abc) : abc := let '(a, b, c) := s in (a, b, u32 (c + y)).

(** The three additions of a block, for each way of reading it. *)
Definition block32 (m : list Z) (s : abc) : abc :=
  add_c (k32 m 2) (add_b (k32 m 1) (add_a (k32 m 0) s)).
Definition block16 (m : list Z) (s : abc) : abc :=
  add_c (u32 (k16 m 4 + shl (k16 m 5) 16))
    (add_b (u32 (k16 m 2 + shl (k16 m 3) 16)) (add_a (u32 (k16 m 0 + shl (k16 m 1) 16)) s)).
Definition block8 (m : list Z) (s : abc) : abc :=
  let s := add_a (k8 m 0) s in let s := add_a (shl (k8 m 1) 8) s in
  let s := add_a (shl (k8 m 2) 16) s in let s := add_a (shl (k8 m 3) 24) s in
  let s := add_b (k8 m 4) s in let s := add_b (shl (k8 m 5) 8) s in
  let s := add_b (shl (k8 m 6) 16) s in let s := add_b (shl (k8 m 7) 24) s in
  let s := add_c (k8 m 8) s in let s := add_c (shl (k8 m 9) 8) s in
  let s := add_c (shl (k8 m 10) 16) s in add_c (shl (k8 m 11) 24) s.
Definition block32b (m : list Z) (s : abc) : abc :=
  add_c (k32b m 2) (add_b (k32b m 1) (add_a (k32b m 0) s)).
Definition block8b (m : list Z) (s : abc) : abc :=
  let s := add_a (shl (k8 m 0) 24) s in let s := add_a (shl (k8 m 1) 16) s in
  let s := add_a (shl (k8 m 2) 8) s in let s := add_a (k8 m 3) s in
  let s := add_b (shl (k8 m 4) 24) s in let s := add_b (shl (k8 m 5) 16) s in
  let s := add_b (shl (k8 m 6) 8) s in let s := add_b (k8 m 7) s in
  let s := add_c (shl (k8 m 8) 24) s in let s := add_c (shl (k8 m 9) 16) s in
  let s := add_c (shl (k8 m 10) 8) s in add_c (k8 m 11) s.

(** A case label of a switch that falls through: done when the length reaches it. *)
Definition from (length n : nat) (f : abc -> abc) (s : abc) : abc :=
  if (n <=? length)%nat then f s else s.

(** The last block.  Without [VALGRIND] the aligned path masks whole words. *)
Definition tail32 (length : nat) (k : list Z) (s : abc) : abc :=
  let c m := add_c (Z.land (k32 k 2) m) in
  let b m := add_b (Z.land (k32 k 1) m) in
  let a m := add_a (Z.land (k32 k 0) m) in
  match length with
  | 12%nat => add_a (k32 k 0) (add_b (k32 k 1) (add_c (k32 k 2) s))
  | 11%nat => add_a (k32 k 0) (add_b (k32 k 1) (c 0xffffff s))
  | 10%nat => add_a (k32 k 0) (add_b (k32 k 1) (c 0xffff s))
  | 9%nat => add_a (k32 k 0) (add_b (k32 k 1) (c 0xff s))
  | 8%nat => add_a (k32 k 0) (add_b (k32 k 1) s)
  | 7%nat => add_a (k32 k 0) (b 0xffffff s)
  | 6%nat => add_a (k32 k 0) (b 0xffff s)
  | 5%nat => add_a (k32 k 0) (b 0xff s)
  | 4%nat => add_a (k32 k 0) s
  | 3%nat => a 0xffffff s
  | 2%nat => a 0xffff s
  | 1%nat => a 0xff s
  | _ => s
  end.

(** With [VALGRIND] only the bytes of the key are read. *)
Definition tail32_valgrind (length : nat) (k : list Z) (s : abc) : abc :=
  if (length =? 12)%nat then add_a (k32 k 0) (add_b (k32 k 1) (add_c (k32 k 2) s))
  else if (8 <=? length)%nat then
    let s := from length 11 (add_c (shl (k8 k 10) 16)) s in
    let s := from length 10 (add_c (shl (k8 k 9) 8)) s in
    let s := from length 9 (add_c (k8 k 8)) s in
    add_a (k32 k 0) (add_b (k32 k 1) s)
  else if (4 <=? length)%nat then
    let s := from length 7 (add_b (shl (k8 k 6) 16)) s in
    let s := from length 6 (add_b (shl (k8 k 5) 8)) s in
    let s := from length 5 (add_b (k8 k 4)) s in
    add_a (k32 k 0) s
  else
    let s := from length 3 (add_a (shl (k8 k 2) 16)) s in
    let s := from length 2 (add_a (shl (k8 k 1) 8)) s in
    from length 1 (add_a (k8 k 0)) s.

Definition tail16 (length : nat) (k : list Z) (s : abc) : abc :=
  let a := add_a (u32 (k16 k 0 + shl (k16 k 1) 16)) in
  let b := add_b (u32 (k16 k 2 + shl (k16 k 3) 16)) in
  match length with
  | 12%nat => a (b (add_c (u32 (k16 k 4 + shl (k16 k 5) 16)) s))
  | 11%nat => a (b (add_c (k16 k 4) (add_c (shl (k8 k 10) 16) s)))
  | 10%nat => a (b (add_c (k16 k 4) s))
  | 9%nat => a (b (add_c (k8 k 8) s))
  | 8%nat => a (b s)
  | 7%nat => a (add_b (k16 k 2) (add_b (shl (k8 k 6) 16) s))
  | 6%nat => a (add_b (k16 k 2) s)
  | 5%nat => a (add_b (k8 k 4) s)
  | 4%nat => a s
  | 3%nat => add_a (k16 k 0) (add_a (shl (k8 k 2) 16) s)
  | 2%nat => add_a (k16 k 0) s
  | 1%nat => add_a (k8 k 0) s
  | _ => s
  end.

(** All cases fall through, from the label of the length down. *)
Definition tail8 (length : nat) (k : list Z) (s : abc) : abc :=
  let s := from length 12 (add_c (shl (k8 k 11) 24)) s in
  let s := from length 11 (add_c (shl (k8 k 10) 16)) s in
  let s := from length 10 (add_c (shl (k8 k 9) 8)) s in
  let s := from length 9 (add_c (k8 k 8)) s in
  let s := from length 8 (add_b (shl (k8 k 7) 24)) s in
  let s := from length 7 (add_b (shl (k8 k 6) 16)) s in
  let s := from length 6 (add_b (shl (k8 k 5) 8)) s in
  let s := from length 5 (add_b (k8 k 4)) s in
  let s := from length 4 (add_a (shl (k8 k 3) 24)) s in
  let s := from length 3 (add_a (shl (k8 k 2) 16)) s in
  let s := from length 2 (add_a (shl (k8 k 1) 8)) s in
  from length 1 (add_a (k8 k 0)) s.

(** The big-endian tails. *)
Definition tail32b (length : nat) (k : list Z) (s : abc) : abc :=
  let c m := add_c (Z.land (k32b k 2) m) in
  let b m := add_b (Z.land (k32b k 1) m) in
  let a m := add_a (Z.land (k32b k 0) m) in
  match length with
  | 12%nat => add_a (k32b k 0) (add_b (k32b k 1) (add_c (k32b k 2) s))
  | 11%nat => add_a (k32b k 0) (add_b (k32b k 1) (c 0xffffff00 s))
  | 10%nat => add_a (k32b k 0) (add_b (k32b k 1) (c 0xffff0000 s))
  | 9%nat => add_a (k32b k 0) (add_b (k32b k 1) (c 0xff000000 s))
  | 8%nat => add_a (k32b k 0) (add_b (k32b k 1) s)
  | 7%nat => add_a (k32b k 0) (b 0xffffff00 s)
  | 6%nat => add_a (k32b k 0) (b 0xffff0000 s)
  | 5%nat => add_a (k32b k 0) (b 0xff000000 s)
  | 4%nat => add_a (k32b k 0) s
  | 3%nat => a 0xffffff00 s
  | 2%nat => a 0xffff0000 s
  | 1%nat => a 0xff000000 s
  | _ => s
  end.

Definition tail32b_valgrind (length : nat) (k : list Z) (s : abc) : abc :=
  if (length =? 12)%nat then add_a (k32b k 0) (add_b (k32b k 1) (add_c (k32b k 2) s))
  else if (8 <=? length)%nat then
    let s := from length 11 (add_c (shl (k8 k 10) 8)) s in
    let s := from length 10 (add_c (shl (k8 k 9) 16)) s in
    let s := from length 9 (add_c (shl (k8 k 8) 24)) s in
    add_a (k32b k 0) (add_b (k32b k 1) s)
  else if (4 <=? length)%nat then
    let s := from length 7 (add_b (shl (k8 k 6) 8)) s in
    let s := from length 6 (add_b (shl (k8 k 5) 16)) s in
    let s := from length 5 (add_b (shl (k8 k 4) 24)) s in
    add_a (k32b k 0) s
  else
    let s := from length 3 (add_a (shl (k8 k 2) 8)) s in
    let s := from length 2 (add_a (shl (k8 k 1) 16)) s in
    from length 1 (add_a (shl (k8 k 0) 24)) s.

Definition tail8b (length : nat) (k : list Z) (s : abc) : abc :=
  let s := from length 12 (add_c (k8 k 11)) s in
  let s := from length 11 (add_c (shl (k8 k 10) 8)) s in
  let s := from length 10 (add_c (shl (k8 k 9) 16)) s in
  let s := from length 9 (add_c (shl (k8 k 8) 24)) s in
  let s := from length 8 (add_b (k8 k 7)) s in
  let s := from length 7 (add_b (shl (k8 k 6) 8)) s in
  let s := from length 6 (add_b (shl (k8 k 5) 16)) s in
  let s := from length 5 (add_b (shl (k8 k 4) 24)) s in
  let s := from length 4 (add_a (k8 k 3)) s in
  let s := from length 3 (add_a (shl (k8 k 2) 8)) s in
  let s := from length 2 (add_a (shl (k8 k 1) 16)) s in
  from length 1 (add_a (shl (k8 k 0) 24)) s.

(** One path: the loop, the tail, and the final mixing unless nothing is left. *)
Definition jenkins_path (add : list Z -> abc -> abc) (tail : nat -> list Z -> abc -> abc)
  (m : list Z) (length : nat) : Z :=
  let init := u32 (0xdeadbeef + u32 (Z.of_nat length)) in
  let '(k, rest, s) := jenkins_loop length add m length (init, init, init) in
  if (rest =? 0)%nat then snd s else snd (final (tail rest k s)).

(** The build options and the address of the key choose the path. *)
Record jenkins_build := { little_endian : bool; valgrind : bool }.

Definition jenkins_hash (B : jenkins_build) (addr : Z) (m : list Z) (length : nat) : Z :=
  if little_endian B then
    if Z.land addr 3 =? 0 then
      jenkins_path block32 (if valgrind B then tail32_valgrind else tail32) m length
    else if Z.land addr 1 =? 0 then jenkins_path block16 tail16 m length
    else jenkins_path block8 tail8 m length
  else
    if Z.land addr 3 =? 0 then
      jenkins_path block32b (if valgrind B then tail32b_valgrind else tail32b) m length
    else jenkins_path block8b tail8b m length.

(** ** All paths agree *)

Definition byte_mem (m : list Z) : Prop := forall i, 0 <= byte_at m i < 256.

Lemma byte_mem_drop n m : byte_mem m -> byte_mem (drop n m).
Proof.
  intros Hm i. unfold byte_at. rewrite nth_lookup, lookup_drop, <- nth_lookup. apply Hm.
Qed.

Lemma Forall_byte_mem m : Forall (fun c => is_byte c = true) m -> byte_mem m.
Proof.
  intros H i. unfold byte_at. rewrite nth_lookup. destruct (m !! i) as [c|] eqn:Hc; cbn; [|lia].
  eapply Forall_lookup_1 in H; [|done]. unfold is_byte in H. cbn in H. zbool. lia.
Qed.

Lemma shl_mul x n : 0 <= n -> shl x n = u32 (x * 2 ^ n).
Proof. intros. unfold shl. by rewrite Z.shiftl_mul_pow2. Qed.

(** Masking the low bytes of a little-endian word, and the high ones of a big-endian word. *)
Lemma mask_low n w lo hi : 0 <= n -> 0 <= lo < 2 ^ n -> w = lo + 2 ^ n * hi ->
  Z.land w (Z.ones n) = lo.
Proof.
  intros Hn Hlo ->. rewrite Z.land_ones by done. rewrite Z.mul_comm, Z.mod_add by lia.
  by apply Z.mod_small.
Qed.

Lemma mask_high n w lo hi : 0 <= n <= 32 -> 0 <= lo < 2 ^ n -> 0 <= hi < 2 ^ (32 - n) ->
  w = lo + 2 ^ n * hi -> Z.land w (2 ^ n * Z.ones (32 - n)) = 2 ^ n * hi.
Proof.
  intros Hn Hlo Hhi ->. apply Z.bits_inj'. intros k Hk.
  rewrite Z.land_spec, !(Z.mul_comm (2 ^ n)), !Z.mul_pow2_bits by lia.
  destruct (Z.lt_ge_cases k n) as [Hlt|Hge].
  - rewrite !(Z.testbit_neg_r _ (k - n)) by lia. apply andb_false_r.
  - replace (Z.testbit (lo + hi * 2 ^ n) k) with (Z.testbit hi (k - n)).
    + destruct (Z.lt_ge_cases (k - n) (32 - n)).
      * rewrite Z.ones_spec_low by lia. apply andb_true_r.
      * rewrite <- (Z.mod_small hi (2 ^ (32 - n))) by lia.
        rewrite Z.mod_pow2_bits_high by lia. done.
    + replace (Z.testbit (lo + hi * 2 ^ n) k) with (Z.testbit (lo + hi * 2 ^ n) (k - n + n)) by (f_equal; lia).
      rewrite <- Z.shiftr_spec, Z.shiftr_div_pow2, Z.div_add, Z.div_small by lia. done.
Qed.

(** Sums on 32 bits: only the total matters. *)
Lemma add_a_merge x y s : add_a y (add_a x s) = add_a (x + y) s.
Proof. destruct s as [[a b] c]. cbn. rewrite wrap_add_l. by rewrite Z.add_assoc. Qed.
Lemma add_b_merge x y s : add_b y (add_b x s) = add_b (x + y) s.
Proof. destruct s as [[a b] c]. cbn. rewrite wrap_add_l. by rewrite Z.add_assoc. Qed.
Lemma add_c_merge x y s : add_c y (add_c x s) = add_c (x + y) s.
Proof. destruct s as [[a b] c]. cbn. rewrite wrap_add_l. by rewrite Z.add_assoc. Qed.
Lemma add_a_wrap y s : add_a (u32 y) s = add_a y s.
Proof. destruct s as [[a b] c]. cbn. by rewrite wrap_add_r. Qed.
Lemma add_b_wrap y s : add_b (u32 y) s = add_b y s.
Proof. destruct s as [[a b] c]. cbn. by rewrite wrap_add_r. Qed.
Lemma add_c_wrap y s : add_c (u32 y) s = add_c y s.
Proof. destruct s as [[a b] c]. cbn. by rewrite wrap_add_r. Qed.
Lemma add_b_a x y s : add_b y (add_a x s) = add_a x (add_b y s).
Proof. by destruct s as [[a b] c]. Qed.
Lemma add_c_a x y s : add_c y (add_a x s) = add_a x (add_c y s).
Proof. by destruct s as [[a b] c]. Qed.
Lemma add_c_b x y s : add_c y (add_b x s) = add_b x (add_c y s).
Proof. by destruct s as [[a b] c]. Qed.

Create Rewrite HintDb abc.
#[export] Hint Rewrite add_a_merge add_b_merge add_c_merge add_b_a add_c_a add_c_b : abc.

(** Bring both sides into the form [add_a _ (add_b _ (add_c _ s))] and compare the sums. *)
Ltac abc_eq :=
  unfold shl; rewrite ?Z.shiftl_mul_pow2 by lia;
  rewrite ?wrap_add_r, ?add_a_wrap, ?add_b_wrap, ?add_c_wrap;
  autorewrite with abc;
  repeat first [ apply (f_equal2 add_a); [try lia|]
               | apply (f_equal2 add_b); [try lia|]
               | apply (f_equal2 add_c); [try lia|] ]; try reflexivity.

Lemma block16_block8 m s : block16 m s = block8 m s.
Proof. unfold block16, block8, k16, k8. cbn [Nat.mul Nat.add]. abc_eq. Qed.

Lemma block32_block8 m s : block32 m s = block8 m s.
Proof. unfold block32, block8, k32, k8. cbn [Nat.mul Nat.add]. abc_eq. Qed.

Lemma block32b_block8b m s : block32b m s = block8b m s.
Proof. unfold block32b, block8b, k32b, k8. cbn [Nat.mul Nat.add]. abc_eq. Qed.

(** The last block: a length and the case it selects. *)
Ltac tail_cases len :=
  destruct len as [|[|[|[|[|[|[|[|[|[|[|[|[|len]]]]]]]]]]]]]; [..|lia].

Lemma tail16_tail8 len m s : (len <= 12)%nat -> tail16 len m s = tail8 len m s.
Proof.
  intros Hl. unfold tail16, tail8, k16, k8. cbn [Nat.mul Nat.add].
  tail_cases len; cbn [from Nat.leb]; abc_eq.
Qed.

Lemma tail32_valgrind_tail8 len m s : (len <= 12)%nat -> tail32_valgrind len m s = tail8 len m s.
Proof.
  intros Hl. unfold tail32_valgrind, tail8, k32, k8. cbn [Nat.mul Nat.add].
  tail_cases len; cbn [from Nat.leb Nat.eqb]; abc_eq.
Qed.

Lemma tail32b_valgrind_tail8b len m s : (len <= 12)%nat -> tail32b_valgrind len m s = tail8b len m s.
Proof.
  intros Hl. unfold tail32b_valgrind, tail8b, k32b, k8. cbn [Nat.mul Nat.add].
  tail_cases len; cbn [from Nat.leb Nat.eqb]; abc_eq.
Qed.

(** The masks of the aligned paths. *)
Lemma k32_masks m i : byte_mem m ->
  let b j := byte_at m (4 * i + j) in
  Z.land (k32 m i) 0xffffff = b 0%nat + 2 ^ 8 * b 1%nat + 2 ^ 16 * b 2%nat /\
  Z.land (k32 m i) 0xffff = b 0%nat + 2 ^ 8 * b 1%nat /\
  Z.land (k32 m i) 0xff = b 0%nat.
Proof.
  intros Hm b. unfold k32. replace (4 * i)%nat with (4 * i + 0)%nat at 1 5 9 by lia.
  fold (b 0%nat) (b 1%nat) (b 2%nat) (b 3%nat).
  pose proof (Hm (4 * i + 0)%nat : 0 <= b 0%nat < 256). pose proof (Hm (4 * i + 1)%nat : 0 <= b 1%nat < 256).
  pose proof (Hm (4 * i + 2)%nat : 0 <= b 2%nat < 256). pose proof (Hm (4 * i + 3)%nat : 0 <= b 3%nat < 256).
  split_and!.
  - apply (mask_low 24 _ _ (b 3%nat)); lia.
  - apply (mask_low 16 _ _ (b 2%nat + 2 ^ 8 * b 3%nat)); lia.
  - apply (mask_low 8 _ _ (b 1%nat + 2 ^ 8 * b 2%nat + 2 ^ 16 * b 3%nat)); lia.
Qed.

Lemma k32b_masks m i : byte_mem m ->
  let b j := byte_at m (4 * i + j) in
  Z.land (k32b m i) 0xffffff00 = 2 ^ 24 * b 0%nat + 2 ^ 16 * b 1%nat + 2 ^ 8 * b 2%nat /\
  Z.land (k32b m i) 0xffff0000 = 2 ^ 24 * b 0%nat + 2 ^ 16 * b 1%nat /\
  Z.land (k32b m i) 0xff000000 = 2 ^ 24 * b 0%nat.
Proof.
  intros Hm b. unfold k32b. replace (4 * i)%nat with (4 * i + 0)%nat at 1 5 9 by lia.
  fold (b 0%nat) (b 1%nat) (b 2%nat) (b 3%nat).
  pose proof (Hm (4 * i + 0)%nat : 0 <= b 0%nat < 256). pose proof (Hm (4 * i + 1)%nat : 0 <= b 1%nat < 256).
  pose proof (Hm (4 * i + 2)%nat : 0 <= b 2%nat < 256). pose proof (Hm (4 * i + 3)%nat : 0 <= b 3%nat < 256).
  split_and!.
  - rewrite (mask_high 8 _ (b 3%nat) (b 2%nat + 2 ^ 8 * b 1%nat + 2 ^ 16 * b 0%nat)); lia.
  - rewrite (mask_high 16 _ (b 3%nat + 2 ^ 8 * b 2%nat) (b 1%nat + 2 ^ 8 * b 0%nat)); lia.
  - rewrite (mask_high 24 _ (b 3%nat + 2 ^ 8 * b 2%nat + 2 ^ 16 * b 1%nat) (b 0%nat)); lia.
Qed.

Lemma tail32_tail8 len m s : byte_mem m -> (len <= 12)%nat -> tail32 len m s = tail8 len m s.
Proof.
  intros Hm Hl.
  destruct (k32_masks m 0 Hm) as (Ha3 & Ha2 & Ha1). destruct (k32_masks m 1 Hm) as (Hb3 & Hb2 & Hb1).
  destruct (k32_masks m 2 Hm) as (Hc3 & Hc2 & Hc1).
  unfold tail32, tail8. cbn zeta. tail_cases len; cbn [from Nat.leb];
    rewrite ?Ha3, ?Ha2, ?Ha1, ?Hb3, ?Hb2, ?Hb1, ?Hc3, ?Hc2, ?Hc1;
    unfold k32, k8; cbn [Nat.mul Nat.add]; abc_eq.
Qed.

Lemma tail32b_tail8b len m s : byte_mem m -> (len <= 12)%nat -> tail32b len m s = tail8b len m s.
Proof.
  intros Hm Hl.
  destruct (k32b_masks m 0 Hm) as (Ha3 & Ha2 & Ha1). destruct (k32b_masks m 1 Hm) as (Hb3 & Hb2 & Hb1).
  destruct (k32b_masks m 2 Hm) as (Hc3 & Hc2 & Hc1).
  unfold tail32b, tail8b. cbn zeta. tail_cases len; cbn [from Nat.leb];
    rewrite ?Ha3, ?Ha2, ?Ha1, ?Hb3, ?Hb2, ?Hb1, ?Hc3, ?Hc2, ?Hc1;
    unfold k32b, k8; cbn [Nat.mul Nat.add]; abc_eq.
Qed.

(** The loop and the tail see only the memory they read. *)
Definition agree (n : nat) (m m' : list Z) : Prop :=
  forall i, (i < n)%nat -> byte_at m i = byte_at m' i.

Lemma agree_drop n k m m' : agree n m m' -> agree (n - k) (drop k m) (drop k m').
Proof.
  intros H i Hi. unfold byte_at. rewrite !nth_lookup, !lookup_drop, <- !nth_lookup. apply H. lia.
Qed.

Lemma jenkins_loop_agree fuel add add' m m' len s :
  (forall m m' s, agree 12 m m' -> byte_mem m -> byte_mem m' -> add m s = add' m' s) ->
  agree len m m' -> byte_mem m -> byte_mem m' -> (len <= fuel)%nat ->
  let '(k, rest, r) := jenkins_loop fuel add m len s in
  let '(k', rest', r') := jenkins_loop fuel add' m' len s in
  rest' = rest /\ r' = r /\ (rest <= 12)%nat /\ agree rest k k' /\ byte_mem k /\ byte_mem k'.
Proof.
  intros Hadd. revert m m' len s. induction fuel as [|fuel IH]; intros m m' len s Ha Hm Hm' Hl.
  { cbn. split_and!; try done; lia. }
  cbn [jenkins_loop]. destruct (Nat.ltb_spec 12 len) as [H12|H12]; [|by split_and!; try done; lia].
  rewrite (Hadd m m' s); [|intros i Hi; apply Ha; lia|done|done].
  apply IH; [by apply agree_drop|by apply byte_mem_drop|by apply byte_mem_drop|lia].
Qed.

Lemma jenkins_path_agree add add' tail tail' m m' len :
  (forall m m' s, agree 12 m m' -> byte_mem m -> byte_mem m' -> add m s = add' m' s) ->
  (forall n m m' s, (n <= 12)%nat -> agree n m m' -> byte_mem m -> byte_mem m' ->
     tail n m s = tail' n m' s) ->
  agree len m m' -> byte_mem m -> byte_mem m' ->
  jenkins_path add tail m len = jenkins_path add' tail' m' len.
Proof.
  intros Hadd Htail Ha Hm Hm'. unfold jenkins_path.
  pose proof (fun s => jenkins_loop_agree len add add' m m' len s Hadd Ha Hm Hm' ltac:(lia)) as Hl.
  specialize (Hl (u32 (0xdeadbeef + u32 (Z.of_nat len)), u32 (0xdeadbeef + u32 (Z.of_nat len)),
    u32 (0xdeadbeef + u32 (Z.of_nat len)))).
  destruct (jenkins_loop len add _ _ _) as [[k rest] r].
  destruct (jenkins_loop len add' _ _ _) as [[k' rest'] r'].
  destruct Hl as (-> & -> & H12 & Hk & Hbk & Hbk'). by rewrite (Htail rest k k').
Qed.

Lemma block8_agree m m' s : agree 12 m m' -> block8 m s = block8 m' s.
Proof. intros H. unfold block8, k8. by rewrite !H by lia. Qed.
Lemma block8b_agree m m' s : agree 12 m m' -> block8b m s = block8b m' s.
Proof. intros H. unfold block8b, k8. by rewrite !H by lia. Qed.

(** One case label: the byte it adds is read only when the length reaches it. *)
Ltac from_agree H :=
  repeat lazymatch goal with
  | |- from ?n ?i _ ?s = from ?n ?i _ ?s' =>
      let E := fresh "E" in
      assert (s = s') as E;
      [|try rewrite E; clear E; generalize s'; intros ?; unfold from, k8;
        destruct (Nat.leb_spec i n); [rewrite H by lia; reflexivity|reflexivity]]
  end.

Lemma tail8_agree n m m' s : agree n m m' -> tail8 n m s = tail8 n m' s.
Proof. intros H. unfold tail8. cbn zeta. from_agree H. done. Qed.
Lemma tail8b_agree n m m' s : agree n m m' -> tail8b n m s = tail8b n m' s.
Proof. intros H. unfold tail8b. cbn zeta. from_agree H. done. Qed.

(** Every path computes what the byte-by-byte path of its byte order computes. *)
Lemma jenkins_hash_bytewise B addr m len : byte_mem m ->
  jenkins_hash B addr m len
  = if little_endian B then jenkins_path block8 tail8 m len else jenkins_path block8b tail8b m len.
Proof.
  intros Hm. unfold jenkins_hash.
  destruct (little_endian B);
    [destruct (Z.land addr 3 =? 0); [|destruct (Z.land addr 1 =? 0); [|done]]
    |destruct (Z.land addr 3 =? 0); [|done]]; apply jenkins_path_agree; try done.
  - intros ? ? ? Ha _ _. rewrite block32_block8. by apply block8_agree.
  - intros n k k' s Hn Ha Hk Hk'. destruct (valgrind B).
    + rewrite tail32_valgrind_tail8 by done. by apply tail8_agree.
    + rewrite tail32_tail8 by done. by apply tail8_agree.
  - intros ? ? ? Ha _ _. rewrite block16_block8. by apply block8_agree.
  - intros n k k' s Hn Ha Hk Hk'. rewrite tail16_tail8 by done. by apply tail8_agree.
  - intros ? ? ? Ha _ _. rewrite block32b_block8b. by apply block8b_agree.
  - intros n k k' s Hn Ha Hk Hk'. destruct (valgrind B).
    + rewrite tail32b_valgrind_tail8b by done. by apply tail8b_agree.
    + rewrite tail32b_tail8b by done. by apply tail8b_agree.
Qed.

(** C29: the hash of a key does not depend on where the key is stored, nor on the bytes
    that follow it in memory, nor on whether the build reads masked words or bytes: on
    machines of one byte order, two copies of a key at any two addresses with anything
    behind them have the same hash, on all three read paths. *)
Theorem jenkins_hash_placement (B B' : jenkins_build) (addr addr' : Z) (key junk junk' : list Z) :
  little_endian B = little_endian B' ->
  Forall (fun c => is_byte c = true) (key ++ junk) ->
  Forall (fun c => is_byte c = true) (key ++ junk') ->
  jenkins_hash B addr (key ++ junk) (length key)
  = jenkins_hash B' addr' (key ++ junk') (length key).
Proof.
  intros HB Hm Hm'. apply Forall_byte_mem in Hm, Hm'.
  rewrite !jenkins_hash_bytewise by done. rewrite HB.
  assert (agree (length key) (key ++ junk) (key ++ junk')) as Ha.
  { intros i Hi. unfold byte_at. by rewrite !app_nth1 by lia. }
  destruct (little_endian B'); apply jenkins_path_agree; try done.
  - intros ? ? ? ? _ _. by apply block8_agree.
  - intros ? ? ? ? ? ? _ _. by apply tail8_agree.
  - intros ? ? ? ? _ _. by apply block8b_agree.
  - intros ? ? ? ? ? ? _ _. by apply tail8b_agree.
Qed.

Lemma jenkins_hash_placement_witness :
  jenkins_hash {| little_endian := true; valgrind := false |} 4096
    (bytes "The quick brown fox" ++ [255; 255; 255]) 19
  = jenkins_hash {| little_endian := true; valgrind := true |} 4098
    (bytes "The quick brown fox" ++ bytes " jumps") 19.
Proof.
  apply (jenkins_hash_placement _ _ 4096 4098 (bytes "The quick brown fox"));
    [reflexivity|repeat constructor|repeat constructor].
Defined.

(** ** The contract with the hash table *)

Lemma lxor_range x y : 0 <= x < 2 ^ 32 -> 0 <= y < 2 ^ 32 -> 0 <= Z.lxor x y < 2 ^ 32.
Proof.
  intros Hx Hy. split; [apply Z.lxor_nonneg; lia|].
  destruct (Z.eq_dec (Z.lxor x y) 0) as [-> |Hne]; [lia|].
  apply Z.log2_lt_pow2; [pose proof (proj2 (Z.lxor_nonneg x y)); lia|].
  assert (forall z, 0 <= z < 2 ^ 32 -> Z.log2 z < 32) as Hlog.
  { intros z Hz. destruct (Z.eq_dec z 0) as [-> |]; [done|]. apply Z.log2_lt_pow2; lia. }
  pose proof (Z.log2_lxor x y). pose proof (Hlog x Hx). pose proof (Hlog y Hy). lia.
Qed.

Lemma shiftr_range x n : 0 <= n -> 0 <= x < 2 ^ 32 -> 0 <= Z.shiftr x n < 2 ^ 32.
Proof.
  intros Hn Hx. rewrite Z.shiftr_div_pow2 by done.
  assert (0 < 2 ^ n) by (apply Z.pow_pos_nonneg; lia).
  split; [apply Z.div_pos; lia|]. apply Z.div_lt_upper_bound; nia.
Qed.

Lemma fmix32_range h : 0 <= fmix32 h < 2 ^ 32.
Proof.
  unfold fmix32. cbn zeta. pose proof (u32_range (Z.lxor (u32 (Z.lxor h (Z.shiftr h 16) * 2246822507))
    (Z.shiftr (u32 (Z.lxor h (Z.shiftr h 16) * 2246822507)) 13) * 3266489909)).
  apply lxor_range; [done|]. by apply shiftr_range.
Qed.

#[export] Instance murmur_key_hash : KeyHash (fun k => MurmurHash3_x86_32 k (length k)).
Proof. intros k. apply fmix32_range. Qed.

Definition in32 (s : abc) : Prop :=
  let '(a, b, c) := s in 0 <= a < 2 ^ 32 /\ 0 <= b < 2 ^ 32 /\ 0 <= c < 2 ^ 32.

Lemma rot_range x k : 0 <= k <= 32 -> 0 <= x < 2 ^ 32 -> 0 <= rot x k < 2 ^ 32.
Proof.
  intros Hk Hx. apply lxor_range; [apply u32_range|]. apply shiftr_range; [lia|done].
Qed.

Lemma mix_line_range k x y z : 0 <= k <= 32 -> 0 <= z < 2 ^ 32 ->
  0 <= fst (mix_line k x y z) < 2 ^ 32 /\ 0 <= snd (mix_line k x y z) < 2 ^ 32.
Proof.
  intros Hk Hz. cbn. split; [|apply u32_range].
  apply lxor_range; [apply u32_range|by apply rot_range].
Qed.

Lemma mix_range s : in32 s -> in32 (mix s).
Proof.
  destruct s as [[a b] c]. intros (Ha & Hb & Hc). unfold mix.
  repeat match goal with
  | H : 0 <= ?z < 2 ^ 32 |- context [mix_line ?k ?x ?y ?z] =>
      destruct (mix_line_range k x y z ltac:(lia) H);
      destruct (mix_line k x y z); cbn [fst snd] in *
  end. done.
Qed.

Lemma block32_range m s : in32 (block32 m s).
Proof. destruct s as [[a b] c]. cbn. split_and!; apply u32_range. Qed.

Lemma jenkins_path_range add tail m len : (forall m s, in32 (add m s)) ->
  0 <= jenkins_path add tail m len < 2 ^ 32.
Proof.
  intros Hadd. unfold jenkins_path. cbn zeta. set (i0 := u32 _).
  assert (0 <= i0 < 2 ^ 32) as Hi by apply u32_range.
  assert (forall fuel m l s, in32 s -> in32 (snd (jenkins_loop fuel add m l s))) as Hl.
  { induction fuel as [|fuel IH]; intros m' l s Hs; cbn [jenkins_loop]; [done|].
    case_if; [|done]. apply IH, mix_range, Hadd. }
  specialize (Hl len m len (i0, i0, i0) (conj Hi (conj Hi Hi))).
  destruct (jenkins_loop _ _ _ _ _) as [[k rest] [[a b] c]]. cbn [snd] in Hl. case_if; [apply Hl|].
  unfold final. destruct (tail rest k _) as [[a' b'] c']. apply u32_range.
Qed.

(** [hash_init]: the function behind the pointer [hash]. *)
Inductive hashfunc_type := JENKINS_HASH | MURMUR3_HASH.
Definition hash_init (type : hashfunc_type) : list Z -> Z :=
  match type with
  | JENKINS_HASH => fun k => jenkins_hash {| little_endian := true; valgrind := false |} 0 k (length k)
  | MURMUR3_HASH => fun k => MurmurHash3_x86_32 k (length k)
  end.

#[export] Instance hash_init_key_hash type : KeyHash (hash_init type).
Proof.
  destruct type; [|apply murmur_key_hash]. intros k. apply jenkins_path_range, block32_range.
Qed.
