(* ===== verification/McCrc.v ===== *)
(** CRC-32C (src/memcached-sr/crc32c.c): the table-driven software routine, the routine
    on the x86 crc32 instructions with its three interleaved streams, and the aarch64
    routine.

    A buffer is the list of its bytes; [addr] is its address, of which only the
    alignment matters.  The crc instructions are modelled by the polynomial division
    they perform (Intel SDM, "CRC32"; Arm ARM, "CRC32CX"): the operand is added to the
    state and one division step is done per bit. *)
From S2P Require Import Prelude.

Definition POLY : Z := 0x82f63b78.

(** [crc = crc & 1 ? (crc >> 1) ^ POLY : crc >> 1] *)
Definition bit_step (crc : Z) : Z :=
  if Z.land crc 1 =? 0 then Z.shiftr crc 1 else Z.lxor (Z.shiftr crc 1) POLY.

(** [n] steps. *)
Fixpoint bits (n : nat) (crc : Z) : Z :=
  match n with O => crc | S n => bit_step (bits n crc) end.

(** ** The software routine *)

Definition tab (t : list (list Z)) (k n : Z) : Z := nth (Z.to_nat n) (nth (Z.to_nat k) t []) 0.

(** The rows 1 to 7 continue row 0. *)
Fixpoint table_column (k : nat) (t0 : list Z) (crc : Z) : list Z :=
  match k with
  | O => []
  | S k =>
      let crc := Z.lxor (nth (Z.to_nat (Z.land crc 255)) t0 0) (Z.shiftr crc 8) in
      crc :: table_column k t0 crc
  end.

Definition crc32c_init_sw : list (list Z) :=
  let t0 := (fun n => bits 8 (Z.of_nat n)) <$> seq 0 256 in
  let columns := (fun n => nth n t0 0 :: table_column 7 t0 (nth n t0 0)) <$> seq 0 256 in
  (fun k => (fun col => nth k col 0) <$> columns) <$> seq 0 8.

Definition sw_byte (t : list (list Z)) (crc b : Z) : Z :=
  Z.lxor (tab t 0 (Z.land (Z.lxor crc b) 255)) (Z.shiftr crc 8).

(** A 64-bit little-endian load, and shorter ones. *)
Fixpoint le (n : nat) (m : list Z) : Z :=
  match n with
  | O => 0
  | S n => byte_at m 0 + 256 * le n (drop 1 m)
  end.

Definition sw_quad (t : list (list Z)) (crc : Z) (m : list Z) : Z :=
  let crc := Z.lxor crc (le 8 m) in
  let byte i := Z.land (Z.shiftr crc (8 * i)) 255 in
  Z.lxor (Z.lxor (Z.lxor (Z.lxor (Z.lxor (Z.lxor (Z.lxor
    (tab t 7 (Z.land crc 255)) (tab t 6 (byte 1))) (tab t 5 (byte 2))) (tab t 4 (byte 3)))
    (tab t 3 (byte 4))) (tab t 2 (byte 5))) (tab t 1 (byte 6))) (tab t 0 (Z.shiftr crc 56)).

(** [while (len && (next & 7) != 0)]: one byte per round, to an eight-byte boundary. *)
Fixpoint align_loop (step : Z -> Z -> Z) (crc addr : Z) (buf : list Z) : Z * list Z :=
  match buf with
  | [] => (crc, [])
  | b :: rest =>
      if Z.land addr 7 =? 0 then (crc, buf) else align_loop step (step crc b) (addr + 1) rest
  end.

(** [while (len >= 8)]; the length is enough fuel. *)
Fixpoint quad_loop (fuel : nat) (step : Z -> list Z -> Z) (crc : Z) (buf : list Z) : Z * list Z :=
  match fuel with
  | O => (crc, buf)
  | S fuel =>
      if (8 <=? length buf)%nat then quad_loop fuel step (step crc buf) (drop 8 buf) else (crc, buf)
  end.

Definition crc32c_sw (crci addr : Z) (buf : list Z) : Z :=
  let t := crc32c_init_sw in
  let crc := Z.lxor crci 0xffffffff in
  let '(crc, buf) := align_loop (sw_byte t) crc addr buf in
  let '(crc, buf) := quad_loop (length buf) (sw_quad t) crc buf in
  let crc := fold_left (sw_byte t) buf crc in
  Z.lxor (u32 crc) 0xffffffff.

(** ** The instructions *)

Definition crc32b (crc b : Z) : Z := bits 8 (Z.lxor (u32 crc) b).
Definition crc32q (crc : Z) (m : list Z) : Z := bits 64 (Z.lxor (u32 crc) (le 8 m)).

(** aarch64: [p_buf] is what is left of the buffer. *)
Definition CRC32CB (crc : Z) (m : list Z) : Z := bits 8 (Z.lxor (u32 crc) (le 1 m)).
Definition CRC32CH (crc : Z) (m : list Z) : Z := bits 16 (Z.lxor (u32 crc) (le 2 m)).
Definition CRC32CW (crc : Z) (m : list Z) : Z := bits 32 (Z.lxor (u32 crc) (le 4 m)).
Definition CRC32CX (crc : Z) (m : list Z) : Z := bits 64 (Z.lxor (u32 crc) (le 8 m)).

Fixpoint x_loop (n : nat) (crc : Z) (m : list Z) : Z * list Z :=
  match n with O => (crc, m) | S n => x_loop n (CRC32CX crc m) (drop 8 m) end.

Definition crc32c_hw_aarch64 (crc : Z) (buf : list Z) : Z :=
  let '(crc, m) := x_loop (length buf / 8) crc buf in
  match (length buf mod 8)%nat with
  | 7%nat => let crc := CRC32CB crc m in let m := drop 1 m in
             let crc := CRC32CH crc m in let m := drop 2 m in CRC32CW crc m
  | 6%nat => let crc := CRC32CH crc m in let m := drop 2 m in CRC32CW crc m
  | 4%nat => CRC32CW crc m
  | 3%nat => let crc := CRC32CB crc m in let m := drop 1 m in CRC32CH crc m
  | 2%nat => CRC32CH crc m
  | 5%nat => let crc := CRC32CW crc m in let m := drop 4 m in CRC32CB crc m
  | 1%nat => CRC32CB crc m
  | _ => u32 crc
  end.

(** ** The operator for zeros *)

(** [while (vec)]: 32 rounds are enough for a 32-bit vector. *)
Fixpoint gf2_matrix_times_loop (fuel : nat) (mat : list Z) (vec sum : Z) : Z :=
  match fuel with
  | O => sum
  | S fuel =>
      if vec =? 0 then sum
      else
        let sum := if Z.land vec 1 =? 0 then sum else Z.lxor sum (nth 0 mat 0) in
        gf2_matrix_times_loop fuel (drop 1 mat) (Z.shiftr vec 1) sum
  end.
Definition gf2_matrix_times (mat : list Z) (vec : Z) : Z := gf2_matrix_times_loop 32 mat vec 0.

Definition gf2_matrix_square (mat : list Z) : list Z := gf2_matrix_times mat <$> mat.

(** The [do ... while (len)] loop; [len] is halved twice a round, so that the bits of a
    [size_t] are enough fuel. *)
Fixpoint zeros_loop (fuel : nat) (odd : list Z) (len : Z) : list Z :=
  match fuel with
  | O => odd
  | S fuel =>
      let even := gf2_matrix_square odd in
      let len := Z.shiftr len 1 in
      if len =? 0 then even
      else
        let odd := gf2_matrix_square even in
        let len := Z.shiftr len 1 in
        if len =? 0 then odd else zeros_loop fuel odd len
  end.

Definition one_bit_op : list Z := POLY :: ((fun n => Z.shiftl 1 (Z.of_nat n)) <$> seq 0 31).

Definition crc32c_zeros_op (len : Z) : list Z :=
  let odd := one_bit_op in
  let even := gf2_matrix_square odd in
  let odd := gf2_matrix_square even in
  zeros_loop 64 odd len.

Definition crc32c_zeros (len : Z) : list (list Z) :=
  let op := crc32c_zeros_op len in
  let row k := (fun n => gf2_matrix_times op (u32 (Z.shiftl (Z.of_nat n) (8 * k)))) <$> seq 0 256 in
  [row 0; row 1; row 2; row 3].

Definition crc32c_shift (zeros : list (list Z)) (crc : Z) : Z :=
  Z.lxor (Z.lxor (Z.lxor (tab zeros 0 (Z.land crc 255)) (tab zeros 1 (Z.land (Z.shiftr crc 8) 255)))
    (tab zeros 2 (Z.land (Z.shiftr crc 16) 255))) (tab zeros 3 (Z.shiftr crc 24)).

(** ** The x86 routine *)

Definition LONG : Z := 8192.
Definition SHORT : Z := 256.
Definition crc32c_long : list (list Z) := crc32c_zeros LONG.
Definition crc32c_short : list (list Z) := crc32c_zeros SHORT.

(** The inner loop: [n] rounds of three instructions [q], crc32q, on streams [blk] bytes apart. *)
Fixpoint three_streams (q : Z -> list Z -> Z) (n blk : nat) (m : list Z) (crc0 crc1 crc2 : Z) : Z * Z * Z :=
  match n with
  | O => (crc0, crc1, crc2)
  | S n =>
      three_streams q n blk (drop 8 m) (q crc0 m) (q crc1 (drop blk m)) (q crc2 (drop (2 * blk) m))
  end.

(** [while (len >= BLOCK*3)] *)
Fixpoint block_loop (fuel : nat) (blk : nat) (shift : Z -> Z) (crc0 : Z) (buf : list Z) : Z * list Z :=
  match fuel with
  | O => (crc0, buf)
  | S fuel =>
      if (3 * blk <=? length buf)%nat then
        let '(crc0, crc1, crc2) := three_streams crc32q (blk / 8) blk buf crc0 0 0 in
        let crc0 := Z.lxor (shift crc0) crc1 in
        let crc0 := Z.lxor (shift crc0) crc2 in
        block_loop fuel blk shift crc0 (drop (3 * blk) buf)
      else (crc0, buf)
  end.

Definition crc32c_hw (crc addr : Z) (buf : list Z) : Z :=
  let crc0 := Z.lxor crc 0xffffffff in
  let '(crc0, buf) := align_loop crc32b crc0 addr buf in
  let '(crc0, buf) := block_loop (length buf) (Z.to_nat LONG) (crc32c_shift crc32c_long) crc0 buf in
  let '(crc0, buf) := block_loop (length buf) (Z.to_nat SHORT) (crc32c_shift crc32c_short) crc0 buf in
  let '(crc0, buf) := quad_loop (length buf) crc32q crc0 buf in
  let crc0 := fold_left crc32b buf crc0 in
  Z.lxor (u32 crc0) 0xffffffff.

(** ** Reference: one division step per bit *)

Definition crc_byte (crc b : Z) : Z := bits 8 (Z.lxor crc b).
Definition crc_bytes (crc : Z) (buf : list Z) : Z := fold_left crc_byte buf crc.
Definition crc32c_reference (crc : Z) (buf : list Z) : Z :=
  Z.lxor (crc_bytes (Z.lxor crc 0xffffffff) buf) 0xffffffff.

(** ** The division is linear *)

Lemma bit_step_eq x : bit_step x = Z.lxor (Z.shiftr x 1) (if Z.odd x then POLY else 0).
Proof.
  unfold bit_step. change 1 with (Z.ones 1) at 1. rewrite Z.land_ones by lia.
  rewrite Z.pow_1_r, Zmod_odd. destruct (Z.odd x); cbn [Z.eqb]; [done|]. by rewrite Z.lxor_0_r.
Qed.

Lemma bit_step_lxor x y : bit_step (Z.lxor x y) = Z.lxor (bit_step x) (bit_step y).
Proof.
  rewrite !bit_step_eq, Z.shiftr_lxor, <- !Z.bit0_odd, Z.lxor_spec.
  set (a := Z.shiftr x 1). set (b := Z.shiftr y 1).
  destruct (Z.testbit x 0), (Z.testbit y 0); cbn [xorb]; rewrite ?Z.lxor_0_r; try done.
  - rewrite (Z.lxor_comm b POLY), Z.lxor_assoc, <- (Z.lxor_assoc POLY POLY b).
    by rewrite Z.lxor_nilpotent, Z.lxor_0_l.
  - rewrite !Z.lxor_assoc. f_equal. apply Z.lxor_comm.
  - by rewrite Z.lxor_assoc.
Qed.

Lemma bits_lxor n x y : bits n (Z.lxor x y) = Z.lxor (bits n x) (bits n y).
Proof. induction n as [|n IH]; cbn [bits]; [done|]. by rewrite IH, bit_step_lxor. Qed.

Lemma bits_add n m x : bits (n + m) x = bits n (bits m x).
Proof. induction n as [|n IH]; cbn [bits Nat.add]; [done|]. by rewrite IH. Qed.

Lemma bits_0 n : bits n 0 = 0.
Proof. induction n as [|n IH]; cbn [bits]; [done|]. by rewrite IH. Qed.

(** Trailing zeros are shifted out. *)
Lemma bits_shiftl n x : bits n (Z.shiftl x (Z.of_nat n)) = x.
Proof.
  induction n as [|n IH]; [apply Z.shiftl_0_r|].
  replace (S n) with (n + 1)%nat by lia. rewrite bits_add.
  assert (bits 1 (Z.shiftl x (Z.of_nat (n + 1))) = Z.shiftl x (Z.of_nat n)) as ->; [|done].
  cbn [bits]. rewrite bit_step_eq, Z.shiftr_shiftl_l by lia.
  rewrite <- Z.bit0_odd, Z.shiftl_spec_low by lia. rewrite Z.lxor_0_r. f_equal. lia.
Qed.

(** The low byte and the rest. *)
Lemma split8 x : x = Z.lxor (Z.land x 255) (Z.shiftl (Z.shiftr x 8) 8).
Proof.
  apply Z.bits_inj'. intros k Hk. rewrite Z.lxor_spec, Z.land_spec, Z.shiftl_spec by lia.
  change 255 with (Z.ones 8). destruct (Z.lt_ge_cases k 8).
  - rewrite Z.ones_spec_low, (Z.testbit_neg_r _ (k - 8)) by lia. by rewrite andb_true_r, xorb_false_r.
  - rewrite Z.ones_spec_high, Z.shiftr_spec by lia. rewrite andb_false_r, xorb_false_l. f_equal. lia.
Qed.

Lemma bits_split8 n x : bits (n + 8) x = Z.lxor (bits (n + 8) (Z.land x 255)) (bits n (Z.shiftr x 8)).
Proof.
  rewrite (split8 x) at 1. rewrite bits_lxor. f_equal. by rewrite bits_add, (bits_shiftl 8).
Qed.

Lemma bits_8 x : bits 8 x = Z.lxor (bits 8 (Z.land x 255)) (Z.shiftr x 8).
Proof. apply (bits_split8 0). Qed.

(** *** Ranges *)

Lemma lxor_pow2 n x y : 0 <= n -> 0 <= x < 2 ^ n -> 0 <= y < 2 ^ n -> 0 <= Z.lxor x y < 2 ^ n.
Proof.
  intros Hn Hx Hy. split; [apply Z.lxor_nonneg; lia|].
  destruct (Z.eq_dec (Z.lxor x y) 0) as [-> |Hne]; [apply Z.pow_pos_nonneg; lia|].
  assert (0 <= Z.lxor x y) by (apply Z.lxor_nonneg; lia).
  assert (0 < n) as Hn0.
  { destruct (Z.eq_dec n 0) as [-> |]; [|lia]. rewrite Z.pow_0_r in *.
    replace x with 0 in * by lia. replace y with 0 in * by lia. done. }
  apply Z.log2_lt_pow2; [lia|].
  assert (forall z, 0 <= z < 2 ^ n -> Z.log2 z < n) as Hlog.
  { intros z Hz. destruct (Z.eq_dec z 0) as [-> |]; [done|]. apply Z.log2_lt_pow2; lia. }
  pose proof (Z.log2_lxor x y). pose proof (Hlog x Hx). pose proof (Hlog y Hy). lia.
Qed.

Definition word (x : Z) : Prop := 0 <= x < 2 ^ 32.

Lemma bits_range n x : word x -> word (bits n x).
Proof.
  intros Hx. induction n as [|n IH]; [done|]. cbn [bits]. rewrite bit_step_eq.
  unfold word in *. apply lxor_pow2; [lia| |case_if; unfold POLY; lia].
  rewrite Z.shiftr_div_pow2 by lia. split; [apply Z.div_pos; lia|]. apply Z.div_lt_upper_bound; lia.
Qed.

Lemma lxor_byte_range c b : word c -> 0 <= b < 256 -> word (Z.lxor c b).
Proof. intros Hc Hb. apply lxor_pow2; [lia|done|lia]. Qed.

Lemma crc_bytes_range c l : word c -> Forall (fun b => is_byte b = true) l -> word (crc_bytes c l).
Proof.
  intros Hc Hl. revert c Hc. induction Hl as [|b l Hb _ IH]; intros c Hc; [done|].
  cbn [crc_bytes fold_left]. apply IH. apply bits_range, lxor_byte_range; [done|].
  unfold is_byte in Hb. zbool. lia.
Qed.

Lemma u32_word x : word x -> u32 x = x.
Proof. apply wrap_small. Qed.

(** *** Several bytes at once *)

Lemma le_cons n b l : is_byte b = true -> le (S n) (b :: l) = Z.lxor b (Z.shiftl (le n l) 8).
Proof.
  intros Hb. unfold is_byte in Hb. zbool. cbn [le byte_at nth drop].
  assert (Z.land b (Z.shiftl (le n l) 8) = 0) as Hdisj.
  { apply Z.bits_inj'. intros k Hk. rewrite Z.land_spec, Z.shiftl_spec, Z.bits_0 by lia.
    destruct (Z.lt_ge_cases k 8); [rewrite (Z.testbit_neg_r _ (k - 8)) by lia; apply andb_false_r|].
    rewrite <- (Z.mod_small b (2 ^ 8)), Z.mod_pow2_bits_high by lia. done. }
  rewrite drop_0. rewrite <- Z.add_nocarry_lxor by done. rewrite Z.shiftl_mul_pow2 by lia. lia.
Qed.

Lemma crc_bytes_le c l : Forall (fun b => is_byte b = true) l ->
  crc_bytes c l = bits (8 * length l) (Z.lxor c (le (length l) l)).
Proof.
  intros Hl. revert c. induction Hl as [|b l Hb _ IH]; intros c; [cbn; by rewrite Z.lxor_0_r|].
  cbn [length]. rewrite le_cons by done.
  replace (8 * S (length l))%nat with (8 * length l + 8)%nat by lia.
  rewrite bits_add, <- Z.lxor_assoc, (bits_lxor 8 (Z.lxor c b)), (bits_shiftl 8).
  apply IH.
Qed.

Lemma le_take n m : (n <= length m)%nat -> le n m = le n (take n m).
Proof.
  revert m. induction n as [|n IH]; intros m Hm; [done|]. destruct m as [|b m]; [cbn in Hm; lia|].
  cbn [le take byte_at nth drop]. rewrite !drop_0. f_equal. f_equal. apply IH. cbn in Hm. lia.
Qed.

(** A load of [n] bytes, added and divided bit by bit, is [n] byte steps. *)
Lemma bits_le c n m : Forall (fun b => is_byte b = true) m -> (n <= length m)%nat ->
  bits (8 * n) (Z.lxor c (le n m)) = crc_bytes c (take n m).
Proof.
  intros Hm Hn. rewrite crc_bytes_le by (by apply Forall_take).
  rewrite length_take, Nat.min_l, <- le_take by lia. done.
Qed.

Lemma crc_bytes_app c l1 l2 : crc_bytes c (l1 ++ l2) = crc_bytes (crc_bytes c l1) l2.
Proof. apply fold_left_app. Qed.

(** The state contributes its own division: what makes the streams independent. *)
Lemma crc_bytes_state c l : crc_bytes c l = Z.lxor (bits (8 * length l) c) (crc_bytes 0 l).
Proof.
  revert c. induction l as [|b l IH] using rev_ind; intros c; [cbn; by rewrite Z.lxor_0_r|].
  rewrite !crc_bytes_app, IH, length_app. cbn [crc_bytes fold_left length].
  unfold crc_byte. rewrite !bits_lxor. rewrite <- bits_add.
  replace (8 + 8 * length l)%nat with (8 * (length l + 1))%nat by lia. by rewrite Z.lxor_assoc.
Qed.

(** ** The software routine computes the reference *)

Lemma nth_fmap_seq {A} (f : nat -> A) n i d : (i < n)%nat -> nth i (f <$> seq 0 n) d = f i.
Proof. intros Hi. rewrite nth_lookup, list_lookup_fmap, lookup_seq_lt by done. done. Qed.

Definition table0 : list Z := (fun n => bits 8 (Z.of_nat n)) <$> seq 0 256.

Lemma table0_spec n : 0 <= n < 256 -> nth (Z.to_nat n) table0 0 = bits 8 n.
Proof. intros Hn. unfold table0. rewrite nth_fmap_seq by lia. f_equal. lia. Qed.

Lemma land_255_range x : 0 <= Z.land x 255 < 256.
Proof. change 255 with (Z.ones 8). rewrite Z.land_ones by lia. apply Z.mod_pos_bound. lia. Qed.

(** One table step is eight division steps. *)
Lemma table0_step x : Z.lxor (nth (Z.to_nat (Z.land x 255)) table0 0) (Z.shiftr x 8) = bits 8 x.
Proof. rewrite table0_spec by apply land_255_range. by rewrite <- bits_8. Qed.

Lemma table_column_spec k j crc : (j < k)%nat ->
  nth j (table_column k table0 crc) 0 = bits (8 * S j) crc.
Proof.
  revert j crc. induction k as [|k IH]; intros j crc Hj; [lia|].
  cbn [table_column]. rewrite table0_step. destruct j as [|j]; [done|]. cbn [nth].
  rewrite IH by lia. rewrite <- bits_add. f_equal. lia.
Qed.

Lemma tab_init_sw k n : 0 <= k < 8 -> 0 <= n < 256 ->
  tab crc32c_init_sw k n = bits (8 * S (Z.to_nat k)) n.
Proof.
  intros Hk Hn. unfold tab, crc32c_init_sw. fold table0.
  rewrite nth_fmap_seq by lia. rewrite <- list_fmap_compose. unfold compose.
  rewrite nth_fmap_seq by lia.
  assert (nth (Z.to_nat n) table0 0 = bits 8 n) as Ht by (by apply table0_spec).
  destruct (Z.to_nat k) as [|j] eqn:Hkj; [cbn [nth]; by rewrite Ht|].
  cbn [nth]. rewrite table_column_spec by lia. rewrite Ht, <- bits_add. f_equal. lia.
Qed.

Lemma sw_byte_spec c b : word c -> is_byte b = true -> sw_byte crc32c_init_sw c b = crc_byte c b.
Proof.
  intros Hc Hb. unfold sw_byte, crc_byte. rewrite tab_init_sw by (lia || apply land_255_range).
  change (8 * S (Z.to_nat 0))%nat with 8%nat. rewrite (bits_8 (Z.lxor c b)), Z.shiftr_lxor.
  f_equal. unfold is_byte in Hb. zbool. rewrite (Z.shiftr_div_pow2 b) by lia.
  rewrite (Z.div_small b) by lia. by rewrite Z.lxor_0_r.
Qed.

(** Eight table lookups are sixty-four division steps. *)
Lemma bits_64_bytes x : 0 <= x < 2 ^ 64 ->
  let byte i := Z.land (Z.shiftr x (8 * i)) 255 in
  bits 64 x =
  Z.lxor (Z.lxor (Z.lxor (Z.lxor (Z.lxor (Z.lxor (Z.lxor
    (bits 64 (Z.land x 255)) (bits 56 (byte 1))) (bits 48 (byte 2))) (bits 40 (byte 3)))
    (bits 32 (byte 4))) (bits 24 (byte 5))) (bits 16 (byte 6))) (bits 8 (Z.shiftr x 56)).
Proof.
  intros Hx byte. unfold byte.
  change (8 * 1) with 8. change (8 * 2) with 16. change (8 * 3) with 24.
  change (8 * 4) with 32. change (8 * 5) with 40. change (8 * 6) with 48.
  assert (forall n s s', 0 <= s -> s' = s + 8 -> bits (n + 8) (Z.shiftr x s)
    = Z.lxor (bits (n + 8) (Z.land (Z.shiftr x s) 255)) (bits n (Z.shiftr x s'))) as Hs.
  { intros n s s' Hi ->. by rewrite bits_split8, Z.shiftr_shiftr by lia. }
  rewrite (bits_split8 56 x : bits 64 x = _).
  rewrite (Hs 48%nat 8 16 ltac:(lia) eq_refl : bits 56 (Z.shiftr x 8) = _).
  rewrite (Hs 40%nat 16 24 ltac:(lia) eq_refl : bits 48 (Z.shiftr x 16) = _).
  rewrite (Hs 32%nat 24 32 ltac:(lia) eq_refl : bits 40 (Z.shiftr x 24) = _).
  rewrite (Hs 24%nat 32 40 ltac:(lia) eq_refl : bits 32 (Z.shiftr x 32) = _).
  rewrite (Hs 16%nat 40 48 ltac:(lia) eq_refl : bits 24 (Z.shiftr x 40) = _).
  rewrite (Hs 8%nat 48 56 ltac:(lia) eq_refl : bits 16 (Z.shiftr x 48) = _).
  rewrite !Z.lxor_assoc. reflexivity.
Qed.

Lemma le_range n m : Forall (fun b => is_byte b = true) m -> 0 <= le n m < 256 ^ Z.of_nat n.
Proof.
  revert m. induction n as [|n IH]; intros m Hm; [done|].
  cbn [le]. rewrite Nat2Z.inj_succ, Z.pow_succ_r by lia.
  assert (0 <= byte_at m 0 < 256).
  { destruct m as [|b m]; cbn; [lia|]. inversion_clear Hm. unfold is_byte in *. zbool. lia. }
  pose proof (IH (drop 1 m) ltac:(by apply Forall_drop)). lia.
Qed.

Lemma sw_quad_spec c m : word c -> Forall (fun b => is_byte b = true) m -> (8 <= length m)%nat ->
  sw_quad crc32c_init_sw c m = crc_bytes c (take 8 m).
Proof.
  intros Hc Hm Hl. rewrite <- (bits_le c 8 m Hm Hl). unfold sw_quad. cbn zeta.
  assert (0 <= Z.lxor c (le 8 m) < 2 ^ 64) as Hx.
  { apply lxor_pow2; [lia|unfold word in Hc; lia|]. apply (le_range 8 m Hm). }
  assert (0 <= Z.shiftr (Z.lxor c (le 8 m)) 56 < 256).
  { rewrite Z.shiftr_div_pow2 by lia. split; [apply Z.div_pos; lia|apply Z.div_lt_upper_bound; lia]. }
  rewrite (bits_64_bytes _ Hx : bits (8 * 8) _ = _).
  rewrite !tab_init_sw by (lia || apply land_255_range). reflexivity.
Qed.

(** The three loops, for any byte and eight-byte steps that compute the reference. *)
Section loops.
Context (step : Z -> Z -> Z) (quad : Z -> list Z -> Z).
Context (Hstep : forall c b, word c -> is_byte b = true -> step c b = crc_byte c b).
Context (Hquad : forall c m, word c -> Forall (fun b => is_byte b = true) m ->
  (8 <= length m)%nat -> quad c m = crc_bytes c (take 8 m)).

Lemma fold_step_spec c l : word c -> Forall (fun b => is_byte b = true) l ->
  fold_left step l c = crc_bytes c l.
Proof.
  intros Hc Hl. revert c Hc. induction Hl as [|b l Hb Hl IH]; intros c Hc; [done|].
  cbn [fold_left crc_bytes]. rewrite Hstep by done. apply IH.
  apply (crc_bytes_range c [b]); [done|]. by repeat constructor.
Qed.

Lemma align_loop_spec c addr l : word c -> Forall (fun b => is_byte b = true) l ->
  exists l1 l2, l = l1 ++ l2 /\ align_loop step c addr l = (crc_bytes c l1, l2).
Proof.
  intros Hc Hl. revert c addr Hc. induction Hl as [|b l Hb Hl IH]; intros c addr Hc.
  { by exists [], []. }
  cbn [align_loop]. case_if; [by exists [], (b :: l)|]. rewrite Hstep by done.
  destruct (IH (crc_byte c b) (addr + 1)) as (l1 & l2 & -> & ->).
  - apply (crc_bytes_range c [b]); [done|]. by repeat constructor.
  - by exists (b :: l1), l2.
Qed.

Lemma quad_loop_spec fuel c l : word c -> Forall (fun b => is_byte b = true) l ->
  exists l1 l2, l = l1 ++ l2 /\ quad_loop fuel quad c l = (crc_bytes c l1, l2).
Proof.
  revert c l. induction fuel as [|fuel IH]; intros c l Hc Hl; [by exists [], l|].
  cbn [quad_loop]. case_if; [|by exists [], l]. rewrite Hquad by done.
  destruct (IH (crc_bytes c (take 8 l)) (drop 8 l)) as (l1 & l2 & Heq & ->).
  - apply crc_bytes_range; [done|by apply Forall_take].
  - by apply Forall_drop.
  - exists (take 8 l ++ l1), l2. rewrite <- app_assoc, <- Heq, take_drop, crc_bytes_app. done.
Qed.
End loops.

Lemma Forall_app_bytes l1 l2 : Forall (fun b => is_byte b = true) (l1 ++ l2) ->
  Forall (fun b => is_byte b = true) l1 /\ Forall (fun b => is_byte b = true) l2.
Proof. apply Forall_app. Qed.

Lemma crc32c_sw_spec crci addr buf : word crci -> Forall (fun b => is_byte b = true) buf ->
  crc32c_sw crci addr buf = crc32c_reference crci buf.
Proof.
  intros Hc Hb. unfold crc32c_sw, crc32c_reference.
  assert (word (Z.lxor crci 4294967295)) as Hw by (apply lxor_pow2; unfold word in Hc; lia).
  set (c0 := Z.lxor crci 4294967295) in *.
  destruct (align_loop_spec _ sw_byte_spec c0 addr buf Hw Hb) as (l1 & l2 & -> & ->).
  apply Forall_app_bytes in Hb as [Hb1 Hb2].
  pose proof (crc_bytes_range c0 l1 Hw Hb1) as Hw1.
  destruct (quad_loop_spec _ sw_quad_spec (length l2) _ l2 Hw1 Hb2) as (l3 & l4 & -> & ->).
  apply Forall_app_bytes in Hb2 as [Hb3 Hb4].
  pose proof (crc_bytes_range _ l3 Hw1 Hb3) as Hw3.
  rewrite (fold_step_spec _ sw_byte_spec) by done.
  rewrite u32_word by (by apply crc_bytes_range). by rewrite !crc_bytes_app.
Qed.

(** ** The operator for zeros *)

(** [mat] is the matrix of [n] division steps. *)
Definition represents (mat : list Z) (n : nat) : Prop :=
  length mat = 32%nat /\ forall i, (i < 32)%nat -> nth i mat 0 = bits n (2 ^ Z.of_nat i).

Lemma shiftl_split v j : 0 <= v -> 0 <= j ->
  Z.shiftl v j = Z.lxor (if Z.land v 1 =? 0 then 0 else 2 ^ j) (Z.shiftl (Z.shiftr v 1) (j + 1)).
Proof.
  intros Hv Hj. apply Z.bits_inj'. intros k Hk.
  rewrite Z.lxor_spec, !Z.shiftl_spec by lia.
  assert (Z.testbit (if Z.land v 1 =? 0 then 0 else 2 ^ j) k
    = Z.testbit v 0 && (k =? j)) as ->.
  { change 1 with (Z.ones 1). rewrite Z.land_ones, Z.pow_1_r, Zmod_odd, Z.bit0_odd by lia.
    destruct (Z.odd v); cbn [Z.eqb andb]; [|apply Z.bits_0].
    rewrite Z.pow2_bits_eqb by lia. apply Z.eqb_sym. }
  destruct (Z.lt_trichotomy k j) as [Hlt|[-> |Hgt]].
  - rewrite (Z.testbit_neg_r v (k - j)), (Z.testbit_neg_r _ (k - (j + 1))) by lia.
    rewrite (proj2 (Z.eqb_neq k j)) by lia. by rewrite andb_false_r.
  - rewrite Z.sub_diag, Z.eqb_refl, andb_true_r, (Z.testbit_neg_r _ (j - (j + 1))) by lia.
    by rewrite xorb_false_r.
  - rewrite (proj2 (Z.eqb_neq _ _)), andb_false_r, xorb_false_l, Z.shiftr_spec by lia. f_equal. lia.
Qed.

Lemma times_loop_spec fuel n mat vec sum j :
  0 <= vec < 2 ^ Z.of_nat fuel ->
  (forall i, (i < fuel)%nat -> nth i mat 0 = bits n (2 ^ Z.of_nat (i + j))) ->
  gf2_matrix_times_loop fuel mat vec sum = Z.lxor sum (bits n (Z.shiftl vec (Z.of_nat j))).
Proof.
  revert mat vec sum j. induction fuel as [|fuel IH]; intros mat vec sum j Hv Hm.
  { cbn in Hv. replace vec with 0 by lia. cbn. by rewrite Z.shiftl_0_l, bits_0, Z.lxor_0_r. }
  cbn [gf2_matrix_times_loop]. destruct (Z.eqb_spec vec 0) as [-> |Hne].
  { by rewrite Z.shiftl_0_l, bits_0, Z.lxor_0_r. }
  rewrite Nat2Z.inj_succ, Z.pow_succ_r in Hv by lia.
  rewrite (IH _ _ _ (S j)).
  - rewrite (shiftl_split vec (Z.of_nat j)), bits_lxor, <- Z.lxor_assoc by lia.
    rewrite Nat2Z.inj_succ. f_equal. rewrite (Hm 0%nat) by lia. cbn [Nat.add].
    destruct (Z.land vec 1 =? 0); [by rewrite bits_0, Z.lxor_0_r|done].
  - rewrite Z.shiftr_div_pow2 by lia.
    split; [apply Z.div_pos; lia|apply Z.div_lt_upper_bound; lia].
  - intros i Hi. rewrite nth_lookup, lookup_drop, <- nth_lookup. rewrite Hm by lia.
    do 2 f_equal. lia.
Qed.

Lemma times_spec mat n v : represents mat n -> word v -> gf2_matrix_times mat v = bits n v.
Proof.
  intros [_ Hm] Hv. unfold gf2_matrix_times. rewrite (times_loop_spec 32 n mat v 0 0).
  - rewrite Z.shiftl_0_r. apply Z.lxor_0_l.
  - exact Hv.
  - intros i Hi. rewrite Hm by done. do 2 f_equal. lia.
Qed.

Lemma pow2_word i : (i < 32)%nat -> word (2 ^ Z.of_nat i).
Proof. intros Hi. split; [apply Z.pow_nonneg; lia|apply Z.pow_lt_mono_r; lia]. Qed.

Lemma square_spec mat n : represents mat n -> represents (gf2_matrix_square mat) (2 * n).
Proof.
  intros Hm. pose proof Hm as [Hl Hi]. split; [unfold gf2_matrix_square; by rewrite length_fmap|].
  intros i Hlt. unfold gf2_matrix_square. rewrite nth_lookup, list_lookup_fmap.
  destruct (mat !! i) as [x|] eqn:Hx; [|apply lookup_ge_None in Hx; lia].
  change (gf2_matrix_times mat x = bits (2 * n) (2 ^ Z.of_nat i)).
  pose proof (Hi i Hlt) as Hn. rewrite nth_lookup, Hx in Hn. change (x = bits n (2 ^ Z.of_nat i)) in Hn. subst x.
  rewrite (times_spec mat n) by (done || apply bits_range, pow2_word; done).
  rewrite <- bits_add. f_equal. lia.
Qed.

Lemma one_bit_spec : represents one_bit_op 1.
Proof.
  split; [done|]. intros i Hi. destruct i as [|i]; [done|].
  unfold one_bit_op. cbn [nth bits]. rewrite nth_fmap_seq by lia.
  rewrite bit_step_eq, Z.shiftl_1_l, Z.shiftr_div_pow2, Nat2Z.inj_succ, Z.pow_succ_r by lia.
  rewrite Z.pow_1_r, Z.mul_comm, Z.div_mul, Z.odd_mul by lia. cbn. by rewrite andb_false_r, Z.lxor_0_r.
Qed.

Lemma shiftr_pow2 k : Z.shiftr (2 ^ Z.of_nat (S k)) 1 = 2 ^ Z.of_nat k.
Proof.
  rewrite Z.shiftr_div_pow2, Nat2Z.inj_succ, Z.pow_succ_r by lia.
  by rewrite Z.pow_1_r, Z.mul_comm, Z.div_mul by lia.
Qed.

Lemma pow2_neq_0 k : (2 ^ Z.of_nat k =? 0) = false.
Proof. apply Z.eqb_neq. pose proof (Z.pow_pos_nonneg 2 (Z.of_nat k)). lia. Qed.

(** For a length of [2 ^ k] the loop squares [k + 1] times. *)
Lemma zeros_loop_spec fuel k odd n : (k < 2 * fuel)%nat -> represents odd n ->
  represents (zeros_loop fuel odd (2 ^ Z.of_nat k)) (n * 2 ^ S k).
Proof.
  revert k odd n. induction fuel as [|fuel IH]; intros k odd n Hk Ho; [lia|].
  cbn [zeros_loop]. pose proof (square_spec odd n Ho) as He. destruct k as [|k].
  { change (Z.shiftr (2 ^ Z.of_nat 0) 1 =? 0) with true. replace (n * 2 ^ 1)%nat with (2 * n)%nat; [done|].
    cbn. lia. }
  rewrite shiftr_pow2, pow2_neq_0. pose proof (square_spec _ _ He) as He2. destruct k as [|k].
  { change (Z.shiftr (2 ^ Z.of_nat 0) 1 =? 0) with true.
    replace (n * 2 ^ 2)%nat with (2 * (2 * n))%nat; [done|]. cbn. lia. }
  rewrite shiftr_pow2, pow2_neq_0.
  replace (n * 2 ^ S (S (S k)))%nat with ((2 * (2 * n)) * 2 ^ S k)%nat; [apply IH; [lia|done]|].
  rewrite !Nat.pow_succ_r'. lia.
Qed.

Lemma zeros_op_spec k : (k < 128)%nat ->
  represents (crc32c_zeros_op (2 ^ Z.of_nat k)) (8 * 2 ^ k).
Proof.
  intros Hk. unfold crc32c_zeros_op. cbn zeta.
  replace (8 * 2 ^ k)%nat with (2 * (2 * 1) * 2 ^ S k)%nat by (rewrite Nat.pow_succ_r'; lia).
  apply zeros_loop_spec; [lia|]. apply square_spec, square_spec, one_bit_spec.
Qed.

(** Four lookups apply the operator to a crc. *)
Lemma shift_spec k crc : (k < 128)%nat -> word crc ->
  crc32c_shift (crc32c_zeros (2 ^ Z.of_nat k)) crc = bits (8 * 2 ^ k) crc.
Proof.
  intros Hk Hc. pose proof (zeros_op_spec k Hk) as Hop.
  assert (forall j n, 0 <= j < 4 -> 0 <= n < 256 ->
    tab (crc32c_zeros (2 ^ Z.of_nat k)) j n = bits (8 * 2 ^ k) (Z.shiftl n (8 * j))) as Ht.
  { intros j n Hj Hn. unfold tab, crc32c_zeros. cbn zeta.
    assert (word (Z.shiftl n (8 * j))) as Hw.
    { rewrite Z.shiftl_mul_pow2 by lia. assert (2 ^ (8 * j) <= 2 ^ 24) by (apply Z.pow_le_mono_r; lia).
      assert (0 < 2 ^ (8 * j)) by (apply Z.pow_pos_nonneg; lia). unfold word. nia. }
    assert (j = 0 \/ j = 1 \/ j = 2 \/ j = 3) as [-> |[-> |[-> | ->]]] by lia;
      [change (Z.to_nat 0) with 0%nat|change (Z.to_nat 1) with 1%nat
      |change (Z.to_nat 2) with 2%nat|change (Z.to_nat 3) with 3%nat]; cbn [nth];
      rewrite nth_fmap_seq, Z2Nat.id, u32_word by (lia || done); by apply times_spec. }
  assert (0 <= Z.shiftr crc 24 < 256).
  { unfold word in Hc. rewrite Z.shiftr_div_pow2 by lia.
    split; [apply Z.div_pos; lia|apply Z.div_lt_upper_bound; lia]. }
  unfold crc32c_shift. rewrite !Ht by (lia || apply land_255_range). rewrite <- !bits_lxor. f_equal.
  rewrite Z.shiftl_0_r. change (8 * 1) with 8. change (8 * 2) with 16. change (8 * 3) with 24.
  rewrite (split8 crc) at 5. rewrite (split8 (Z.shiftr crc 8)) at 2.
  rewrite Z.shiftr_shiftr by lia. change (8 + 8) with 16.
  rewrite (split8 (Z.shiftr crc 16)) at 2. rewrite Z.shiftr_shiftr by lia. change (16 + 8) with 24.
  rewrite !Z.shiftl_lxor, !Z.shiftl_shiftl by lia. change (8 + 8) with 16. change (8 + 8 + 8) with 24.
  rewrite !Z.lxor_assoc. done.
Qed.

(** ** The x86 routine computes the reference *)

(** The division is not unfolded any more. *)
#[local] Opaque bits.

Lemma crc32b_spec c b : word c -> is_byte b = true -> crc32b c b = crc_byte c b.
Proof. intros Hc _. unfold crc32b. by rewrite u32_word. Qed.

Lemma crc32q_spec c m : word c -> Forall (fun b => is_byte b = true) m -> (8 <= length m)%nat ->
  crc32q c m = crc_bytes c (take 8 m).
Proof. intros Hc Hm Hl. unfold crc32q. rewrite u32_word by done. by apply (bits_le c 8). Qed.

Lemma crc32q_at c k m : word c -> Forall (fun b => is_byte b = true) m -> (k + 8 <= length m)%nat ->
  crc32q c (drop k m) = crc_bytes c (take 8 (drop k m)) /\ word (crc_bytes c (take 8 (drop k m))).
Proof.
  intros Hc Hm Hk. split; [apply crc32q_spec|apply crc_bytes_range]; try done.
  - by apply Forall_drop.
  - rewrite length_drop. lia.
  - by apply Forall_take, Forall_drop.
Qed.

Lemma crc_bytes_take8 c k n m :
  crc_bytes c (take (8 * S n) (drop k m))
  = crc_bytes (crc_bytes c (take 8 (drop k m))) (take (8 * n) (drop k (drop 8 m))).
Proof.
  rewrite <- crc_bytes_app. apply f_equal. replace (8 * S n)%nat with (8 + 8 * n)%nat by lia.
  rewrite <- (take_take_drop (drop k m)), !drop_drop, (Nat.add_comm 8 k). done.
Qed.

Lemma three_streams_spec q n blk m c0 c1 c2 :
  (forall c k m, word c -> Forall (fun b => is_byte b = true) m -> (k + 8 <= length m)%nat ->
     q c (drop k m) = crc_bytes c (take 8 (drop k m)) /\ word (crc_bytes c (take 8 (drop k m)))) ->
  word c0 -> word c1 -> word c2 -> Forall (fun b => is_byte b = true) m ->
  (2 * blk + 8 * n <= length m)%nat ->
  three_streams q n blk m c0 c1 c2
  = (crc_bytes c0 (take (8 * n) (drop 0 m)), crc_bytes c1 (take (8 * n) (drop blk m)),
     crc_bytes c2 (take (8 * n) (drop (2 * blk) m))).
Proof.
  intros Hq. revert m c0 c1 c2. induction n as [|n IH]; intros m c0 c1 c2 H0 H1 H2 Hm Hl; [done|].
  destruct (Hq c0 0%nat m H0 Hm ltac:(lia)) as [Hq0 Hw0].
  destruct (Hq c1 blk m H1 Hm ltac:(lia)) as [Hq1 Hw1].
  destruct (Hq c2 (2 * blk)%nat m H2 Hm ltac:(lia)) as [Hq2 Hw2].
  rewrite !crc_bytes_take8. cbn [three_streams]. rewrite drop_0 in Hq0 at 1. rewrite Hq0, Hq1, Hq2.
  apply IH; [exact Hw0|exact Hw1|exact Hw2|by apply Forall_drop|rewrite length_drop; lia].
Qed.

(** One block: three independent streams joined by the operator for zeros. *)
Lemma joined_streams k c m : (3 <= k < 128)%nat -> let blk := (2 ^ k)%nat in
  word c -> Forall (fun b => is_byte b = true) m -> (3 * blk <= length m)%nat ->
  let '(c0, c1, c2) := three_streams crc32q (blk / 8) blk m c 0 0 in
  let shift := crc32c_shift (crc32c_zeros (2 ^ Z.of_nat k)) in
  Z.lxor (shift (Z.lxor (shift c0) c1)) c2 = crc_bytes c (take (3 * blk) m).
Proof.
  intros Hk blk Hc Hm Hl.
  assert (8 * (blk / 8) = blk)%nat as H8.
  { unfold blk. replace k with ((k - 3) + 3)%nat by lia. rewrite Nat.pow_add_r.
    change (2 ^ 3)%nat with 8%nat. rewrite Nat.div_mul by lia. lia. }
  rewrite (three_streams_spec crc32q) by (done || lia || apply crc32q_at). rewrite H8, drop_0. cbn zeta.
  set (a := take blk m). set (b := take blk (drop blk m)). set (d := take blk (drop (2 * blk) m)).
  assert (length b = blk) as Hlb by (unfold b; rewrite length_take, length_drop; lia).
  assert (length d = blk) as Hld by (unfold d; rewrite length_take, length_drop; lia).
  assert (take (3 * blk) m = (a ++ b) ++ d) as ->.
  { unfold a, b, d. rewrite take_take_drop. replace (2 * blk)%nat with (blk + blk)%nat by lia.
    rewrite take_take_drop. f_equal. lia. }
  assert (Forall (fun b => is_byte b = true) a) as Ha by (by apply Forall_take).
  assert (Forall (fun b => is_byte b = true) b) as Hb by (by apply Forall_take, Forall_drop).
  rewrite !crc_bytes_app, (crc_bytes_state (crc_bytes (crc_bytes c a) b) d), Hld.
  rewrite (shift_spec k (crc_bytes c a)) by (lia || by apply crc_bytes_range).
  rewrite (crc_bytes_state (crc_bytes c a) b), Hlb. fold blk.
  rewrite (shift_spec k).
  - done.
  - lia.
  - apply lxor_pow2; [lia|by apply bits_range, crc_bytes_range|by apply crc_bytes_range].
Qed.

Lemma block_loop_spec fuel k blk shift c l : (3 <= k < 128)%nat -> blk = (2 ^ k)%nat ->
  shift = crc32c_shift (crc32c_zeros (2 ^ Z.of_nat k)) ->
  word c -> Forall (fun b => is_byte b = true) l ->
  exists l1 l2, l = l1 ++ l2 /\ block_loop fuel blk shift c l = (crc_bytes c l1, l2).
Proof.
  intros Hk -> ->. revert c l. induction fuel as [|fuel IH]; intros c l Hc Hl; [by exists [], l|].
  cbn [block_loop]. destruct (Nat.leb_spec (3 * 2 ^ k) (length l)) as [Hlen|Hlen]; [|by exists [], l].
  pose proof (joined_streams k c l Hk Hc Hl Hlen) as Hj. cbn zeta in Hj.
  destruct (three_streams _ _ _ _ _ _) as [[c0 c1] c2]. rewrite Hj.
  destruct (IH (crc_bytes c (take (3 * 2 ^ k) l)) (drop (3 * 2 ^ k) l)) as (l1 & l2 & Heq & ->).
  - apply crc_bytes_range; [done|by apply Forall_take].
  - by apply Forall_drop.
  - exists (take (3 * 2 ^ k) l ++ l1), l2. rewrite <- app_assoc, <- Heq, take_drop, crc_bytes_app. done.
Qed.

Lemma crc32c_hw_spec crc addr buf : word crc -> Forall (fun b => is_byte b = true) buf ->
  crc32c_hw crc addr buf = crc32c_reference crc buf.
Proof.
  intros Hc Hb. unfold crc32c_hw, crc32c_reference.
  assert (word (Z.lxor crc 4294967295)) as Hw by (apply lxor_pow2; unfold word in Hc; lia).
  set (c0 := Z.lxor crc 4294967295) in *.
  destruct (align_loop_spec _ crc32b_spec c0 addr buf Hw Hb) as (l1 & l2 & -> & ->).
  apply Forall_app_bytes in Hb as [Hb1 Hb2]. pose proof (crc_bytes_range c0 l1 Hw Hb1) as Hw1.
  destruct (block_loop_spec (length l2) 13 (Z.to_nat LONG) (crc32c_shift crc32c_long) (crc_bytes c0 l1) l2)
    as (l3 & l4 & -> & ->); [lia|by vm_compute|done|done|done|].
  apply Forall_app_bytes in Hb2 as [Hb3 Hb4]. pose proof (crc_bytes_range _ l3 Hw1 Hb3) as Hw3.
  destruct (block_loop_spec (length l4) 8 (Z.to_nat SHORT) (crc32c_shift crc32c_short)
    (crc_bytes (crc_bytes c0 l1) l3) l4) as (l5 & l6 & -> & ->); [lia|by vm_compute|done|done|done|].
  apply Forall_app_bytes in Hb4 as [Hb5 Hb6]. pose proof (crc_bytes_range _ l5 Hw3 Hb5) as Hw5.
  destruct (quad_loop_spec _ crc32q_spec (length l6) _ l6 Hw5 Hb6) as (l7 & l8 & -> & ->).
  apply Forall_app_bytes in Hb6 as [Hb7 Hb8]. pose proof (crc_bytes_range _ l7 Hw5 Hb7) as Hw7.
  rewrite (fold_step_spec _ crc32b_spec) by done.
  rewrite u32_word by (by apply crc_bytes_range). by rewrite !crc_bytes_app.
Qed.

(** C28: the software routine and the x86 routine compute the same CRC-32C, the one
    defined by dividing bit by bit, for every buffer, alignment and initial value: the
    eight lookup tables, the three interleaved streams and the operators that shift a
    crc over 8192 and 256 zero bytes are all exact. *)
Theorem crc32c_routines_agree (crc addr addr' : Z) (buf : list Z) :
  0 <= crc < 2 ^ 32 -> Forall (fun b => is_byte b = true) buf ->
  crc32c_sw crc addr buf = crc32c_reference crc buf /\
  crc32c_hw crc addr' buf = crc32c_reference crc buf.
Proof. intros Hc Hb. split; [by apply crc32c_sw_spec|by apply crc32c_hw_spec]. Qed.

(** The check value of CRC-32C, the crc of the digits 1 to 9, at an odd address. *)
Lemma crc32c_routines_agree_witness :
  crc32c_sw 0 3 (bytes "123456789") = 0xe3069283 /\ crc32c_hw 0 5 (bytes "123456789") = 0xe3069283.
Proof.
  destruct (crc32c_routines_agree 0 3 5 (bytes "123456789")) as [H1 H2]; [lia|repeat constructor|].
  rewrite H1, H2. split; vm_compute; reflexivity.
Defined.

(** ** aarch64 *)

(** The aarch64 routine divides the same bytes but neither complements the crc it is
    given nor the one it returns, so that its values differ from those of the others. *)
Lemma x_loop_spec n c m : word c -> Forall (fun b => is_byte b = true) m -> (8 * n <= length m)%nat ->
  x_loop n c m = (crc_bytes c (take (8 * n) m), drop (8 * n) m).
Proof.
  revert c m. induction n as [|n IH]; intros c m Hc Hm Hl; [done|].
  cbn [x_loop]. unfold CRC32CX. rewrite u32_word by done.
  rewrite (bits_le c 8 m Hm ltac:(lia) : bits 64 _ = _).
  rewrite IH; [| |by apply Forall_drop|rewrite length_drop; lia].
  - rewrite <- crc_bytes_app, take_take_drop, drop_drop.
    replace (8 + 8 * n)%nat with (8 * S n)%nat by lia. done.
  - apply crc_bytes_range; [done|by apply Forall_take].
Qed.

Lemma crc_chunk c n m : word c -> Forall (fun b => is_byte b = true) m -> (n <= length m)%nat ->
  bits (8 * n) (Z.lxor (u32 c) (le n m)) = crc_bytes c (take n m) /\ word (crc_bytes c (take n m)).
Proof.
  intros Hc Hm Hn. rewrite u32_word by done. split; [by apply bits_le|].
  apply crc_bytes_range; [done|by apply Forall_take].
Qed.

(** The chunks of the tail, in the order the routine takes them. *)
Fixpoint chunks (ns : list nat) (c : Z) (m : list Z) : Z :=
  match ns with
  | [] => c
  | n :: ns => chunks ns (bits (8 * n) (Z.lxor (u32 c) (le n m))) (drop n m)
  end.

Lemma chunks_spec ns c m : word c -> Forall (fun b => is_byte b = true) m ->
  length m = foldr Nat.add 0%nat ns -> chunks ns c m = crc_bytes c m.
Proof.
  revert c m. induction ns as [|n ns IH]; intros c m Hc Hm Hl.
  { by destruct m. }
  cbn [chunks foldr] in *. destruct (crc_chunk c n m Hc Hm ltac:(lia)) as [-> Hw].
  rewrite IH; [|done|by apply Forall_drop|rewrite length_drop; lia].
  by rewrite <- crc_bytes_app, take_drop.
Qed.

Lemma crc32c_hw_aarch64_spec c buf : word c -> Forall (fun b => is_byte b = true) buf ->
  crc32c_hw_aarch64 c buf = crc_bytes c buf.
Proof.
  intros Hc Hb. unfold crc32c_hw_aarch64.
  pose proof (Nat.div_mod (length buf) 8 ltac:(lia)) as Hdm.
  pose proof (Nat.mod_upper_bound (length buf) 8 ltac:(lia)) as Hlt.
  rewrite x_loop_spec by (done || lia). set (q := (8 * (length buf / 8))%nat) in *.
  assert (length (drop q buf) = length buf mod 8)%nat as Hl by (rewrite length_drop; lia).
  transitivity (crc_bytes (crc_bytes c (take q buf)) (drop q buf));
    [|by rewrite <- crc_bytes_app, take_drop].
  assert (word (crc_bytes c (take q buf))) as Hw by (apply crc_bytes_range; [done|by apply Forall_take]).
  assert (Forall (fun b => is_byte b = true) (drop q buf)) as Hm by (by apply Forall_drop).
  set (c1 := crc_bytes c (take q buf)) in *. set (m := drop q buf) in *. clearbody c1 m.
  destruct (length buf mod 8)%nat as [|[|[|[|[|[|[|[|r]]]]]]]]; [..|lia].
  - rewrite (u32_word _ Hw). by destruct m.
  - by apply (chunks_spec [1]%nat).
  - by apply (chunks_spec [2]%nat).
  - by apply (chunks_spec [1; 2]%nat).
  - by apply (chunks_spec [4]%nat).
  - by apply (chunks_spec [4; 1]%nat).
  - by apply (chunks_spec [2; 4]%nat).
  - by apply (chunks_spec [1; 2; 4]%nat).
Qed.

#[local] Transparent bits.

Lemma aarch64_not_complemented :
  crc32c_hw_aarch64 0 (bytes "123456789") = crc_bytes 0 (bytes "123456789") /\
  crc32c_hw_aarch64 0 (bytes "123456789") <> crc32c_sw 0 0 (bytes "123456789").
Proof. split; [reflexivity|by vm_compute]. Qed.
