(* ===== verification/McLru.v ===== *)
(** The LRU queues (src/memcached-sr/items.c: do_item_link_q, do_item_unlink_q and the
    tail linkers of the crawler).

    A queue is a doubly linked list through [next] and [prev]; [heads] and [tails] have
    one entry for every value of [slabs_clsid], which holds the slab class and, in its
    two high bits, the LRU of the class.  The build without external storage is
    modelled, and the assertions, which the release build leaves out, are not. *)
From S2P Require Import Prelude McItem.

Record lru := {
  heads : list Z;
  tails : list Z;
  sizes : list Z;
  sizes_bytes : list Z
}.

Definition LARGEST_ID : nat := 256.
Definition lru_init : lru :=
  {| heads := replicate LARGEST_ID 0; tails := replicate LARGEST_ID 0;
     sizes := replicate LARGEST_ID 0; sizes_bytes := replicate LARGEST_ID 0 |}.

(** Arrays indexed by [slabs_clsid], a byte. *)
Definition at_id (t : list Z) (id : Z) : Z := nth (Z.to_nat id) t 0.
Definition put_id (t : list Z) (id v : Z) : list Z := <[Z.to_nat id := v]> t.

Definition set_heads (L : lru) (id v : Z) : lru :=
  {| heads := put_id (heads L) id v; tails := tails L; sizes := sizes L; sizes_bytes := sizes_bytes L |}.
Definition set_tails (L : lru) (id v : Z) : lru :=
  {| heads := heads L; tails := put_id (tails L) id v; sizes := sizes L; sizes_bytes := sizes_bytes L |}.
(** [sizes[id] += n; sizes_bytes[id] += b], with their widths. *)
Definition add_sizes (L : lru) (id n b : Z) : lru :=
  {| heads := heads L; tails := tails L;
     sizes := put_id (sizes L) id (u32 (at_id (sizes L) id + n));
     sizes_bytes := put_id (sizes_bytes L) id (u64 (at_id (sizes_bytes L) id + b)) |}.

Definition do_get_lru_size (L : lru) (id : Z) : Z := at_id (sizes L) id.

(** [if (p) p->f = v] *)
Definition store_if (f : Z -> item -> item) (p v : Z) (h : heap) : heap :=
  if p =? 0 then h else alter (f v) p h.

Definition do_item_link_q (h : heap) (L : lru) (it : Z) : heap * lru :=
  let id := slabs_clsid (get h it) in
  let head := at_id (heads L) id in
  let h := alter (set_prev 0) it h in
  let h := alter (set_next head) it h in
  let h := store_if set_prev head it h in
  let L := set_heads L id it in
  let L := if at_id (tails L) id =? 0 then set_tails L id it else L in
  (h, add_sizes L id 1 (ITEM_ntotal (get h it))).

(** Both unlinking functions: the pointers of the neighbours and of the queue. *)
Definition unlink_pointers (h : heap) (L : lru) (it : Z) : heap * lru :=
  let i := get h it in
  let id := slabs_clsid i in
  let L := if at_id (heads L) id =? it then set_heads L id (next i) else L in
  let L := if at_id (tails L) id =? it then set_tails L id (prev i) else L in
  let h := store_if set_prev (next i) (prev i) h in
  let h := store_if set_next (prev i) (next i) h in
  (h, L).

Definition do_item_unlink_q (h : heap) (L : lru) (it : Z) : heap * lru :=
  let id := slabs_clsid (get h it) in
  let '(h, L) := unlink_pointers h L it in
  (h, add_sizes L id (-1) (- ITEM_ntotal (get h it))).

Definition do_item_unlinktail_q (h : heap) (L : lru) (it : Z) : heap * lru :=
  unlink_pointers h L it.

Definition do_item_linktail_q (h : heap) (L : lru) (it : Z) : heap * lru :=
  let id := slabs_clsid (get h it) in
  let tail := at_id (tails L) id in
  let h := alter (set_prev tail) it h in
  let h := alter (set_next 0) it h in
  let h := store_if set_next tail it h in
  let L := set_tails L id it in
  let L := if at_id (heads L) id =? 0 then set_heads L id it else L in
  (h, L).

(** The crawler moves one place towards the head; the item it passed, or null at the head. *)
Definition do_item_crawl_q (h : heap) (L : lru) (it : Z) : Z * heap * lru :=
  let i := get h it in
  let id := slabs_clsid i in
  if prev i =? 0 then
    if next i =? 0 then (0, h, L)
    else (0, alter (set_prev 0) (next i) h, set_heads L id (next i))
  else
    let L := if at_id (heads L) id =? prev i then set_heads L id it else L in
    let L := if at_id (tails L) id =? it then set_tails L id (prev i) else L in
    let h := if next i =? 0 then alter (set_next 0) (prev i) h
             else alter (set_prev (prev i)) (next i) (alter (set_next (next i)) (prev i) h) in
    let h := alter (set_next (prev i)) it h in
    let h := alter (set_prev (prev (get h (prev i)))) it h in
    let h := alter (set_prev it) (prev i) h in
    let h := store_if set_next (prev (get h it)) it h in
    (next (get h it), h, L).

(** ** Doubly linked segments *)

(** [dseg h prv p l last nxt]: from [p], following [next], lie the items [l]; the item
    before them is [prv] and the one behind them [nxt]; [last] is the last of them, or
    [prv] when there is none. *)
Fixpoint dseg (h : heap) (prv p : Z) (l : list Z) (last nxt : Z) : Prop :=
  match l with
  | [] => p = nxt /\ last = prv
  | x :: l => p = x /\ x <> 0 /\
      exists it, h !! x = Some it /\ prev it = prv /\ dseg h x (next it) l last nxt
  end.

Lemma dseg_app h prv p l1 l2 last nxt :
  dseg h prv p (l1 ++ l2) last nxt <->
  exists q m, dseg h prv p l1 q m /\ dseg h q m l2 last nxt.
Proof.
  revert prv p. induction l1 as [|x l1 IH]; intros prv p; cbn [app dseg].
  - split; [intros H; by exists prv, p|]. by intros (q & m & [-> ->] & H).
  - split.
    + intros (-> & Hx & it & Hit & Hp & (q & m & H1 & H2)%IH). exists q, m. split; [|done].
      split; [done|]. split; [done|]. by exists it.
    + intros (q & m & (-> & Hx & it & Hit & Hp & H1) & H2). split; [done|]. split; [done|].
      exists it. split; [done|]. split; [done|]. apply IH. by exists q, m.
Qed.

Lemma dseg_ext h h' prv p l last nxt :
  (forall x, x ∈ l -> (next <$> h' !! x) = (next <$> h !! x) /\ (prev <$> h' !! x) = (prev <$> h !! x)) ->
  dseg h prv p l last nxt -> dseg h' prv p l last nxt.
Proof.
  revert prv p. induction l as [|x l IH]; intros prv p Hx; [done|]. cbn [dseg].
  intros (-> & Hx0 & it & Hit & Hp & Hc). split; [done|]. split; [done|].
  destruct (Hx x ltac:(set_solver)) as [Hn Hpv]. rewrite Hit in Hn, Hpv. cbn in Hn, Hpv.
  apply fmap_Some in Hn as (it' & Hit' & Hn). rewrite Hit' in Hpv. cbn in Hpv. injection Hpv as Hpv.
  exists it'. split; [done|]. split; [congruence|]. rewrite <- Hn. apply IH; [set_solver|done].
Qed.

Lemma dseg_dom h prv p l last nxt x : dseg h prv p l last nxt -> x ∈ l -> x <> 0 /\ is_Some (h !! x).
Proof.
  revert prv p. induction l as [|y l IH]; intros prv p Hc Hx; [set_solver|].
  destruct Hc as (-> & Hy0 & it & Hit & _ & Hc). apply elem_of_cons in Hx as [-> |Hx]; [|by eapply IH].
  split; [done|]. by eexists.
Qed.

Lemma dseg_alter h f prv p l last nxt q : q ∉ l ->
  dseg h prv p l last nxt -> dseg (alter f q h) prv p l last nxt.
Proof.
  intros Hq. apply dseg_ext. intros x Hx. rewrite lookup_alter_ne; [done|]. set_solver.
Qed.

Lemma dseg_alter_field h f prv p l last nxt q :
  (forall it, next (f it) = next it) -> (forall it, prev (f it) = prev it) ->
  dseg h prv p l last nxt -> dseg (alter f q h) prv p l last nxt.
Proof.
  intros Hn Hp. apply dseg_ext. intros x Hx. destruct (decide (q = x)) as [-> |Hne].
  - rewrite lookup_alter_eq. destruct (h !! x) as [it|]; cbn; [|done]. by rewrite Hn, Hp.
  - by rewrite lookup_alter_ne.
Qed.

Lemma dseg_store_if h f prv p l last nxt q v : q ∉ l ->
  dseg h prv p l last nxt -> dseg (store_if f q v h) prv p l last nxt.
Proof. intros Hq Hs. unfold store_if. case_if; [done|]. by apply dseg_alter. Qed.

(** Storing a new predecessor into the first item of a list that ends the queue. *)
Lemma dseg_set_first h prv p l last v : NoDup l ->
  dseg h prv p l last 0 ->
  dseg (store_if set_prev p v h) v p l (if decide (l = []) then v else last) 0.
Proof.
  destruct l as [|x l]; intros Hnd Hs.
  { destruct Hs as [-> ->]. by cbn. }
  destruct Hs as (-> & Hx0 & it & Hit & Hp & Hs). unfold store_if.
  rewrite (proj2 (Z.eqb_neq _ _)) by done. apply NoDup_cons in Hnd as [Hx Hnd].
  split; [done|]. split; [done|]. exists (set_prev v it).
  rewrite lookup_alter_eq, Hit. split; [done|]. split; [done|]. by apply dseg_alter.
Qed.

(** Storing a new successor into the last item of a list that starts the queue. *)
Lemma dseg_set_last h p l last nxt v : NoDup l ->
  dseg h 0 p l last nxt ->
  dseg (store_if set_next last v h) 0 (if decide (l = []) then v else p) l last v.
Proof.
  destruct (decide (l = [])) as [-> |Hne]; intros Hnd Hs.
  { destruct Hs as [-> ->]. by cbn. }
  destruct (exists_last Hne) as (l' & x & ->).
  apply dseg_app in Hs as (q & m & H1 & (-> & Hx0 & it & Hit & Hp & [_ ->])).
  apply NoDup_app in Hnd as (Hnd1 & Hd & _). unfold store_if.
  rewrite (proj2 (Z.eqb_neq _ _)) by done. apply dseg_app. exists q, x. split.
  - apply dseg_alter; [|done]. intros Hx. apply (Hd x Hx). set_solver.
  - split; [done|]. split; [done|]. exists (set_next v it). rewrite lookup_alter_eq, Hit. done.
Qed.

(** ** The queues as lists *)

Section queues.
(** The addresses of the crawlers, which are linked into the queues without being counted. *)
Context (crawlers : gset Z).

Definition ids (id : Z) : Prop := 0 <= id < 256.

Definition counted (l : list Z) : list Z := filter (fun x => x ∉ crawlers) l.
Definition total_bytes (h : heap) (l : list Z) : Z :=
  foldr (fun x s => ITEM_ntotal (get h x) + s) 0 l.

(** The family of queues with one of them replaced. *)
Definition upd (Q : Z -> list Z) (c : Z) (l : list Z) : Z -> list Z :=
  fun id => if decide (id = c) then l else Q id.

Record lru_rep (h : heap) (L : lru) (Q : Z -> list Z) : Prop := {
  lr_len : length (heads L) = 256%nat /\ length (tails L) = 256%nat /\
           length (sizes L) = 256%nat /\ length (sizes_bytes L) = 256%nat;
  lr_queue : forall id, ids id -> dseg h 0 (at_id (heads L) id) (Q id) (at_id (tails L) id) 0;
  lr_none : forall id, ~ ids id -> Q id = [];
  lr_class : forall id x, x ∈ Q id -> exists it, h !! x = Some it /\ slabs_clsid it = id;
  lr_nodup : forall id, NoDup (Q id);
  lr_sizes : forall id, ids id -> at_id (sizes L) id = u32 (Z.of_nat (length (counted (Q id))));
  lr_bytes : forall id, ids id ->
    at_id (sizes_bytes L) id = u64 (total_bytes h (counted (Q id)))
}.

(** Memories that differ only in [next] and [prev], and only inside a set of items. *)
Definition links_only (h h' : heap) : Prop :=
  forall q, (set_next 0 ∘ set_prev 0 <$> h' !! q) = (set_next 0 ∘ set_prev 0 <$> h !! q).

Lemma links_only_refl h : links_only h h.
Proof. by intros q. Qed.
Lemma links_only_trans h1 h2 h3 : links_only h1 h2 -> links_only h2 h3 -> links_only h1 h3.
Proof. intros H1 H2 q. by rewrite H2. Qed.
Lemma links_only_alter h f p : (forall it, set_next 0 (set_prev 0 (f it)) = set_next 0 (set_prev 0 it)) ->
  links_only h (alter f p h).
Proof.
  intros Hf q. destruct (decide (p = q)) as [-> |Hne].
  - rewrite lookup_alter_eq. destruct (h !! q); cbn; [|done]. by rewrite Hf.
  - by rewrite lookup_alter_ne.
Qed.
Lemma links_only_store_if h f p v :
  (forall it, set_next 0 (set_prev 0 (f v it)) = set_next 0 (set_prev 0 it)) ->
  links_only h (store_if f p v h).
Proof.
  intros Hf. unfold store_if. case_if; [apply links_only_refl|]. by apply links_only_alter.
Qed.

Lemma links_only_Some h h' q it : links_only h h' -> h !! q = Some it ->
  exists it', h' !! q = Some it' /\ set_next 0 (set_prev 0 it') = set_next 0 (set_prev 0 it).
Proof.
  intros Ho Hq. specialize (Ho q). rewrite Hq in Ho. cbn in Ho.
  apply fmap_Some in Ho as (it' & Hq' & Heq). exists it'. split; [done|]. exact (eq_sym Heq).
Qed.

(** What the links do not affect. *)
Lemma links_only_field {A} (f : item -> A) h h' q :
  (forall it, f (set_next 0 (set_prev 0 it)) = f it) -> links_only h h' -> f (get h' q) = f (get h q).
Proof.
  intros Hf Ho. specialize (Ho q). unfold get.
  destruct (h !! q) as [it|], (h' !! q) as [it'|]; try done.
  apply Some_inj in Ho. change (f it' = f it). rewrite <- (Hf it'), <- (Hf it). exact (f_equal f Ho).
Qed.

Lemma links_only_ntotal h h' q : links_only h h' -> ITEM_ntotal (get h' q) = ITEM_ntotal (get h q).
Proof. by apply links_only_field. Qed.

Lemma links_only_total h h' l : links_only h h' -> total_bytes h' l = total_bytes h l.
Proof.
  intros Ho. induction l as [|x l IH]; [done|].
  change (ITEM_ntotal (get h' x) + total_bytes h' l = ITEM_ntotal (get h x) + total_bytes h l).
  by rewrite IH, (links_only_ntotal h h').
Qed.

Lemma get_Some h p it : h !! p = Some it -> get h p = it.
Proof. intros Hp. unfold get. by rewrite Hp. Qed.

Lemma at_put_id t id id' v : length t = 256%nat -> ids id -> ids id' ->
  at_id (put_id t id v) id' = if decide (id' = id) then v else at_id t id'.
Proof.
  intros Hl Hi Hi'. unfold ids in *. unfold at_id, put_id. rewrite !nth_lookup. case_decide as Hd.
  - subst id'. by rewrite list_lookup_insert_eq by lia.
  - by rewrite list_lookup_insert_ne by lia.
Qed.

Lemma length_put_id t id v : length (put_id t id v) = length t.
Proof. apply length_insert. Qed.

(** Queue tables that differ at one identifier only. *)
Definition same_but (c : Z) (L L' : lru) : Prop :=
  (length (heads L') = 256%nat /\ length (tails L') = 256%nat /\
   length (sizes L') = 256%nat /\ length (sizes_bytes L') = 256%nat) /\
  forall id, ids id -> id <> c ->
    at_id (heads L') id = at_id (heads L) id /\ at_id (tails L') id = at_id (tails L) id /\
    at_id (sizes L') id = at_id (sizes L) id /\ at_id (sizes_bytes L') id = at_id (sizes_bytes L) id.

(** Changing one queue: what has to be shown for that queue, and nothing for the others. *)
Lemma lru_rep_update h h' L L' Q c l' (touched : list Z) :
  lru_rep h L Q -> ids c -> links_only h h' -> same_but c L L' ->
  (forall q, q ∉ touched -> h' !! q = h !! q) ->
  (forall id x, id <> c -> x ∈ Q id -> x ∉ touched) ->
  (forall x, x ∈ l' -> exists it, h !! x = Some it /\ slabs_clsid it = c) -> NoDup l' ->
  dseg h' 0 (at_id (heads L') c) l' (at_id (tails L') c) 0 ->
  at_id (sizes L') c = u32 (Z.of_nat (length (counted l'))) ->
  at_id (sizes_bytes L') c = u64 (total_bytes h (counted l')) ->
  lru_rep h' L' (upd Q c l').
Proof.
  intros [Hlen Hq Hno Hcl Hnd Hsz Hby] Hc Ho [Hlen' Hsame] Htouch Hdis Hcls Hndl Hseg Hs Hb.
  unfold upd. split.
  - done.
  - intros id Hid. case_decide as Hd; [by subst id|].
    destruct (Hsame id Hid Hd) as (-> & -> & _). eapply dseg_ext; [|by apply Hq].
    intros x Hx. by rewrite Htouch by (by eapply Hdis).
  - intros id Hid. case_decide; [by subst id|by apply Hno].
  - intros id x Hx. assert (exists it, h !! x = Some it /\ slabs_clsid it = id) as (it & Hit & <-).
    { case_decide as Hd; [subst id; by apply Hcls|by apply Hcl]. }
    destruct (links_only_Some _ _ _ _ Ho Hit) as (it' & Hit' & Heq). exists it'. split; [done|].
    change (slabs_clsid (set_next 0 (set_prev 0 it')) = slabs_clsid (set_next 0 (set_prev 0 it))).
    by rewrite Heq.
  - intros id. by case_decide.
  - intros id Hid. case_decide as Hd; [by subst id|].
    destruct (Hsame id Hid Hd) as (_ & _ & -> & _). by apply Hsz.
  - intros id Hid. rewrite (links_only_total h h') by done. case_decide as Hd; [by subst id|].
    destruct (Hsame id Hid Hd) as (_ & _ & _ & ->). by apply Hby.
Qed.

(** An item of one queue is in no other. *)
Lemma lr_disjoint h L Q id id' x : lru_rep h L Q -> x ∈ Q id -> x ∈ Q id' -> id = id'.
Proof.
  intros Hr H1 H2. destruct (lr_class _ _ _ Hr id x H1) as (it & Hit & <-).
  destruct (lr_class _ _ _ Hr id' x H2) as (it' & Hit' & <-). congruence.
Qed.

Lemma store_if_other f p v h q : (p <> 0 -> q <> p) -> store_if f p v h !! q = h !! q.
Proof.
  intros Hq. unfold store_if. case_if; [done|]. rewrite lookup_alter_ne; [done|].
  intros ->. by apply Hq.
Qed.

Ltac lru_simpl := cbn [heads tails sizes sizes_bytes add_sizes set_tails set_heads].

(** The head and the tail of a queue are null or in it. *)
Lemma dseg_ends h p l last : dseg h 0 p l last 0 ->
  (l = [] -> p = 0 /\ last = 0) /\ (l <> [] -> p ∈ l /\ last ∈ l /\ p <> 0 /\ last <> 0).
Proof.
  intros Hs. split.
  - intros ->. by destruct Hs as [-> ->].
  - intros Hne. destruct (exists_last Hne) as (l' & y & ->).
    apply dseg_app in Hs as (q & m & H1 & (-> & Hy & it & _ & _ & [_ ->])).
    destruct l' as [|x l']; [destruct H1 as [-> _]; set_solver|].
    destruct H1 as (-> & Hx & _). set_solver.
Qed.

(** A new item at the head of its queue. *)
Lemma link_q_spec h L Q x it : lru_rep h L Q -> x <> 0 -> h !! x = Some it ->
  ids (slabs_clsid it) -> (forall id, x ∉ Q id) -> x ∉ crawlers ->
  let '(h', L') := do_item_link_q h L x in
  lru_rep h' L' (upd Q (slabs_clsid it) (x :: Q (slabs_clsid it))) /\ links_only h h' /\
  (forall q, q <> x -> q ∉ Q (slabs_clsid it) -> h' !! q = h !! q).
Proof.
  intros Hr Hx0 Hx Hc Hfresh Hcr. pose proof (lr_queue _ _ _ Hr _ Hc) as Hq.
  pose proof (lr_nodup _ _ _ Hr (slabs_clsid it)) as Hnd.
  destruct (lr_len _ _ _ Hr) as (Hl1 & Hl2 & Hl3 & Hl4).
  unfold do_item_link_q. rewrite (get_Some h x it Hx). set (c := slabs_clsid it) in *.
  set (head := at_id (heads L) c) in *.
  set (h1 := alter (set_next head) x (alter (set_prev 0) x h)).
  set (h2 := store_if set_prev head x h1).
  assert (links_only h h2) as Ho.
  { eapply links_only_trans; [|by apply links_only_store_if].
    eapply links_only_trans; by apply links_only_alter. }
  destruct (dseg_ends _ _ _ _ Hq) as [Hend1 Hend2].
  assert (forall q, q <> x -> q ∉ Q c -> h2 !! q = h !! q) as Hkeep.
  { intros q Hqx Hqc. unfold h2, h1. rewrite store_if_other; [by rewrite !lookup_alter_ne|]. intros Hh ->.
    destruct (decide (Q c = [])) as [Hz|Hz]; [by destruct (Hend1 Hz)|by destruct (Hend2 Hz)]. }
  split; [|done].
  assert (dseg h2 0 x (x :: Q c) (if decide (Q c = []) then x else at_id (tails L) c) 0) as Hseg.
  { assert (dseg h1 0 head (Q c) (at_id (tails L) c) 0) as Hq1
      by (by apply dseg_alter; [|apply dseg_alter]).
    pose proof (dseg_set_first h1 0 head (Q c) _ x Hnd Hq1) as Hf. fold h2 in Hf.
    split; [done|]. split; [done|]. exists (set_next head (set_prev 0 it)). split; [|by split].
    unfold h2. rewrite store_if_other; [unfold h1; by rewrite !lookup_alter_eq, Hx|].
    intros Hh <-. destruct (decide (Q c = [])) as [Hz|Hz].
    - by destruct (Hend1 Hz).
    - destruct (Hend2 Hz) as [Hin _]. by apply (Hfresh c). }
  set (L1 := if _ =? 0 then _ else _).
  assert (at_id (heads L1) c = x /\ at_id (tails L1) c = if decide (Q c = []) then x else at_id (tails L) c)
    as [Hh1 Ht1].
  { unfold L1. lru_simpl. destruct (decide (Q c = [])) as [Hz|Hz].
    - destruct (Hend1 Hz) as [_ ->]. rewrite Z.eqb_refl. lru_simpl.
      rewrite !at_put_id by done. by rewrite !decide_True.
    - rewrite (proj2 (Z.eqb_neq _ _)) by (by destruct (Hend2 Hz) as (_ & _ & _ & ?)).
      lru_simpl. rewrite at_put_id by done. by rewrite decide_True. }
  assert (length (heads L1) = 256%nat /\ length (tails L1) = 256%nat /\ sizes L1 = sizes L /\
    sizes_bytes L1 = sizes_bytes L) as (Hn1 & Hn2 & Hs1 & Hs2)
    by (unfold L1; case_if; lru_simpl; rewrite !length_put_id; done).
  assert (same_but c L (add_sizes L1 c 1 (ITEM_ntotal (get h2 x)))) as Hsb.
  { split; [lru_simpl; rewrite !length_put_id, Hs1, Hs2; done|].
    intros id Hid Hne. lru_simpl. rewrite Hs1, Hs2, !at_put_id, !decide_False by done.
    unfold L1. case_if; lru_simpl; rewrite !at_put_id by done; by rewrite !decide_False. }
  assert (counted (x :: Q c) = x :: counted (Q c)) as Hcnt.
  { unfold counted. by rewrite filter_cons, decide_True. }
  eapply (lru_rep_update h h2 L _ Q c (x :: Q c) (x :: Q c) Hr Hc Ho Hsb).
  - intros q [Hqx Hqc]%not_elem_of_cons. by apply Hkeep.
  - intros id y Hne Hy [-> |Hy']%elem_of_cons; [by apply (Hfresh id)|].
    apply Hne. by eapply lr_disjoint.
  - intros y [-> |Hy]%elem_of_cons; [by exists it|]. by apply (lr_class _ _ _ Hr).
  - apply NoDup_cons. split; [apply Hfresh|done].
  - lru_simpl. by rewrite Hh1, Ht1.
  - lru_simpl. rewrite Hs1, at_put_id, decide_True by done.
    rewrite (lr_sizes _ _ _ Hr c Hc), Hcnt. cbn [length]. rewrite wrap_add_l. f_equal. lia.
  - lru_simpl. rewrite Hs2, at_put_id, decide_True by done.
    rewrite (lr_bytes _ _ _ Hr c Hc), Hcnt, wrap_add_l.
    change (total_bytes h (x :: counted (Q c))) with (ITEM_ntotal (get h x) + total_bytes h (counted (Q c))).
    rewrite (links_only_ntotal h h2) by done. f_equal. lia.
Qed.

(** Ends of a segment inside a queue. *)
Lemma dseg_first h prv p l last nxt : dseg h prv p l last nxt -> l = [] /\ p = nxt \/ p ∈ l.
Proof. destruct l as [|x l]; [intros [-> _]; by left|]. intros (-> & _). right. set_solver. Qed.

Lemma dseg_last h prv p l last nxt : dseg h prv p l last nxt -> l = [] /\ last = prv \/ last ∈ l.
Proof.
  intros Hs. destruct (decide (l = [])) as [-> |Hne]; [destruct Hs; by left|].
  destruct (exists_last Hne) as (l' & y & ->).
  apply dseg_app in Hs as (q & m & _ & (-> & _ & it & _ & _ & [_ ->])). right. set_solver.
Qed.

(** Taking [x] out of the middle of a list. *)
Lemma dseg_unlink h head l1 x l2 tail it : NoDup (l1 ++ x :: l2) ->
  dseg h 0 head (l1 ++ x :: l2) tail 0 -> h !! x = Some it ->
  let h' := store_if set_next (prev it) (next it) (store_if set_prev (next it) (prev it) h) in
  dseg h' 0 (if head =? x then next it else head) (l1 ++ l2) (if tail =? x then prev it else tail) 0 /\
  (forall q, q ∉ l1 ++ l2 -> h' !! q = h !! q).
Proof.
  intros Hnd (q & m & H1 & (-> & Hx0 & it' & Hit' & Hp & H2))%dseg_app Hit h'.
  rewrite Hit in Hit'. injection Hit' as <-. subst h'. set (n := next it) in *. rewrite Hp in *.
  apply NoDup_app in Hnd as (Hnd1 & Hd & [Hx2 Hnd2]%NoDup_cons).
  assert (x ∉ l1) as Hx1 by (intros Hx; apply (Hd x Hx); set_solver).
  assert (forall y, y ∈ l1 -> y <> 0) as Hn1 by (intros y Hy; eapply (dseg_dom h _ _ l1); done).
  assert (forall y, y ∈ l2 -> y <> 0) as Hn2 by (intros y Hy; eapply (dseg_dom h _ _ l2); done).
  pose proof (dseg_last _ _ _ _ _ _ H1) as Hq. pose proof (dseg_first _ _ _ _ _ _ H2) as Hn.
  assert (n ∉ l1) as Hn'. { destruct Hn as [[_ ->]|Hn]; [intros ?; by apply (Hn1 0)|]. intros ?. apply (Hd n); set_solver. }
  assert (q ∉ l2) as Hq'. { destruct Hq as [[_ ->]|Hq]; [intros ?; by apply (Hn2 0)|]. intros ?. apply (Hd q); set_solver. }
  assert ((head =? x) = bool_decide (l1 = [])) as ->.
  { destruct (dseg_first _ _ _ _ _ _ H1) as [[-> ->]|Hh]; [by rewrite Z.eqb_refl|].
    rewrite bool_decide_eq_false_2 by set_solver. apply Z.eqb_neq. set_solver. }
  assert ((tail =? x) = bool_decide (l2 = [])) as ->.
  { destruct (dseg_last _ _ _ _ _ _ H2) as [[-> ->]|Hh]; [by rewrite Z.eqb_refl|].
    rewrite bool_decide_eq_false_2 by set_solver. apply Z.eqb_neq. set_solver. }
  split.
  - apply dseg_app. exists q, n. split.
    + pose proof (dseg_set_last (store_if set_prev n q h) head l1 q x n Hnd1) as Hs.
      destruct (decide (l1 = [])) as [Hz|Hz]; [rewrite bool_decide_eq_true_2 by done|rewrite bool_decide_eq_false_2 by done];
        apply Hs; by apply dseg_store_if.
    + pose proof (dseg_set_first h x n l2 tail q Hnd2 H2) as Hs.
      destruct (decide (l2 = [])) as [Hz|Hz]; [rewrite bool_decide_eq_true_2 by done|rewrite bool_decide_eq_false_2 by done];
        by apply dseg_store_if.
  - intros y Hy. apply not_elem_of_app in Hy as [Hy1 Hy2].
    rewrite !store_if_other; [done| |].
    + intros Hnz ->. destruct Hn as [[-> _]|Hn]; [|done]. by destruct H2.
    + intros Hqz ->. destruct Hq as [[-> ->]|Hq]; done.
Qed.

Lemma unlink_pointers_spec h L Q x it l1 l2 : lru_rep h L Q -> h !! x = Some it ->
  ids (slabs_clsid it) -> Q (slabs_clsid it) = l1 ++ x :: l2 ->
  let c := slabs_clsid it in
  let '(h', L') := unlink_pointers h L x in
  dseg h' 0 (at_id (heads L') c) (l1 ++ l2) (at_id (tails L') c) 0 /\
  (forall q, q ∉ l1 ++ l2 -> h' !! q = h !! q) /\ links_only h h' /\
  sizes L' = sizes L /\ sizes_bytes L' = sizes_bytes L /\ same_but c L L'.
Proof.
  intros Hr Hx Hc HQ c. pose proof (lr_queue _ _ _ Hr _ Hc) as Hq.
  pose proof (lr_nodup _ _ _ Hr c) as Hnd. fold c in Hq, HQ, Hc. rewrite HQ in Hq, Hnd.
  destruct (lr_len _ _ _ Hr) as (Hl1 & Hl2 & Hl3 & Hl4).
  destruct (dseg_unlink h _ l1 x l2 _ it Hnd Hq Hx) as [Hseg Htouch].
  unfold unlink_pointers. rewrite (get_Some h x it Hx). fold c.
  set (L1 := if at_id (heads L) c =? x then set_heads L c (next it) else L).
  assert (at_id (tails L1) c = at_id (tails L) c) as -> by (unfold L1; by case_if).
  set (L2 := if _ =? x then set_tails L1 c (prev it) else L1).
  assert (length (heads L1) = 256%nat /\ length (tails L1) = 256%nat) as [Hn1 Hn2]
    by (unfold L1; case_if; lru_simpl; rewrite ?length_put_id; done).
  split_and!.
  - assert (at_id (heads L2) c = if at_id (heads L) c =? x then next it else at_id (heads L) c) as ->.
    { transitivity (at_id (heads L1) c); [unfold L2; by case_if|].
      unfold L1. case_if; [|done]. lru_simpl. rewrite at_put_id by done. by rewrite decide_True. }
    assert (at_id (tails L2) c = if at_id (tails L) c =? x then prev it else at_id (tails L) c) as ->; [|done].
    unfold L2. case_if; [lru_simpl; rewrite at_put_id by done; by rewrite decide_True|].
    unfold L1; by case_if.
  - done.
  - eapply links_only_trans; by apply links_only_store_if.
  - unfold L2, L1. by repeat case_if.
  - unfold L2, L1. by repeat case_if.
  - split; [unfold L2, L1; repeat case_if; lru_simpl; rewrite ?length_put_id; done|].
    intros id Hid Hne. unfold L2, L1. repeat case_if; lru_simpl; rewrite ?at_put_id by done;
      by rewrite ?decide_False.
Qed.

Lemma total_app h l1 l2 : total_bytes h (l1 ++ l2) = total_bytes h l1 + total_bytes h l2.
Proof.
  induction l1 as [|x l1 IH]; [done|]. cbn [app].
  change (ITEM_ntotal (get h x) + total_bytes h (l1 ++ l2) = ITEM_ntotal (get h x) + total_bytes h l1 + total_bytes h l2).
  lia.
Qed.

Lemma counted_mid l1 x l2 : counted (l1 ++ x :: l2)
  = counted l1 ++ (if decide (x ∉ crawlers) then [x] else []) ++ counted l2.
Proof. unfold counted. rewrite filter_app, filter_cons. by case_decide. Qed.

Lemma removed_members h L Q c l1 x l2 : lru_rep h L Q -> Q c = l1 ++ x :: l2 ->
  NoDup (l1 ++ l2) /\
  (forall id y, id <> c -> y ∈ Q id -> y ∉ l1 ++ l2) /\
  (forall y, y ∈ l1 ++ l2 -> exists it, h !! y = Some it /\ slabs_clsid it = c).
Proof.
  intros Hr HQ. pose proof (lr_nodup _ _ _ Hr c) as Hnd. rewrite HQ in Hnd.
  assert (forall y, y ∈ l1 ++ l2 -> y ∈ Q c) as Hin by (intros y; rewrite HQ; set_solver).
  split_and!.
  - apply NoDup_app in Hnd as (? & Hd & [? ?]%NoDup_cons). apply NoDup_app. split_and!; [done| |done].
    intros y Hy. specialize (Hd y Hy). set_solver.
  - intros id y Hne Hy Hy'. apply Hne. by eapply lr_disjoint, Hin.
  - intros y Hy. by apply (lr_class _ _ _ Hr), Hin.
Qed.

(** An item leaves its queue, wherever it stands. *)
Lemma unlink_q_spec h L Q x it l1 l2 : lru_rep h L Q -> h !! x = Some it ->
  ids (slabs_clsid it) -> Q (slabs_clsid it) = l1 ++ x :: l2 -> x ∉ crawlers ->
  let '(h', L') := do_item_unlink_q h L x in
  lru_rep h' L' (upd Q (slabs_clsid it) (l1 ++ l2)) /\ links_only h h' /\
  (forall q, q ∉ l1 ++ l2 -> h' !! q = h !! q).
Proof.
  intros Hr Hx Hc HQ Hcr. pose proof (unlink_pointers_spec h L Q x it l1 l2 Hr Hx Hc HQ) as Hu.
  unfold do_item_unlink_q. rewrite (get_Some h x it Hx). set (c := slabs_clsid it) in *. cbn zeta in Hu.
  destruct (unlink_pointers h L x) as [h' L']. destruct Hu as (Hseg & Htouch & Ho & Hs1 & Hs2 & Hsb).
  split; [|done]. destruct (removed_members h L Q c l1 x l2 Hr HQ) as (Hnd & Hdis & Hcls).
  destruct (lr_len _ _ _ Hr) as (Hl1 & Hl2 & Hl3 & Hl4).
  assert (counted (Q c) = counted l1 ++ x :: counted l2) as Hcnt by (rewrite HQ, counted_mid, decide_True; done).
  assert (counted (l1 ++ l2) = counted l1 ++ counted l2) as Hcnt' by (unfold counted; by rewrite filter_app).
  apply (lru_rep_update h h' L _ Q c (l1 ++ l2) (l1 ++ l2) Hr Hc Ho); try done.
  - destruct Hsb as [(? & ? & ? & ?) Hsame]. split; [lru_simpl; by rewrite !length_put_id|].
    intros id Hid Hne. destruct (Hsame id Hid Hne) as (? & ? & ? & ?). lru_simpl.
    rewrite Hs1, Hs2, !at_put_id, !decide_False by done. done.
  - lru_simpl. rewrite Hs1, at_put_id, decide_True by done.
    rewrite (lr_sizes _ _ _ Hr c Hc), Hcnt, Hcnt', !length_app. cbn [length]. rewrite wrap_add_l. f_equal. lia.
  - lru_simpl. rewrite Hs2, at_put_id, decide_True by done.
    rewrite (lr_bytes _ _ _ Hr c Hc), Hcnt, Hcnt', !total_app, wrap_add_l, (links_only_ntotal h h') by done.
    change (total_bytes h (x :: counted l2)) with (ITEM_ntotal (get h x) + total_bytes h (counted l2)).
    f_equal. lia.
Qed.

(** A crawler leaves a queue; the counters do not change. *)
Lemma unlinktail_q_spec h L Q x it l1 l2 : lru_rep h L Q -> h !! x = Some it ->
  ids (slabs_clsid it) -> Q (slabs_clsid it) = l1 ++ x :: l2 -> x ∈ crawlers ->
  let '(h', L') := do_item_unlinktail_q h L x in
  lru_rep h' L' (upd Q (slabs_clsid it) (l1 ++ l2)) /\ links_only h h'.
Proof.
  intros Hr Hx Hc HQ Hcr. pose proof (unlink_pointers_spec h L Q x it l1 l2 Hr Hx Hc HQ) as Hu.
  unfold do_item_unlinktail_q. set (c := slabs_clsid it) in *. cbn zeta in Hu.
  destruct (unlink_pointers h L x) as [h' L']. destruct Hu as (Hseg & Htouch & Ho & Hs1 & Hs2 & Hsb).
  split; [|done]. destruct (removed_members h L Q c l1 x l2 Hr HQ) as (Hnd & Hdis & Hcls).
  assert (counted (Q c) = counted (l1 ++ l2)) as Hcnt.
  { rewrite HQ, counted_mid, decide_False by (by intros ?). unfold counted. by rewrite filter_app. }
  apply (lru_rep_update h h' L _ Q c (l1 ++ l2) (l1 ++ l2) Hr Hc Ho); try done.
  - rewrite Hs1, (lr_sizes _ _ _ Hr c Hc). by rewrite Hcnt.
  - rewrite Hs2, (lr_bytes _ _ _ Hr c Hc). by rewrite Hcnt.
Qed.

(** A crawler enters a queue at its tail. *)
Lemma linktail_q_spec h L Q x it : lru_rep h L Q -> x <> 0 -> h !! x = Some it ->
  ids (slabs_clsid it) -> (forall id, x ∉ Q id) -> x ∈ crawlers ->
  let '(h', L') := do_item_linktail_q h L x in
  lru_rep h' L' (upd Q (slabs_clsid it) (Q (slabs_clsid it) ++ [x])) /\ links_only h h'.
Proof.
  intros Hr Hx0 Hx Hc Hfresh Hcr. pose proof (lr_queue _ _ _ Hr _ Hc) as Hq.
  pose proof (lr_nodup _ _ _ Hr (slabs_clsid it)) as Hnd.
  destruct (lr_len _ _ _ Hr) as (Hl1 & Hl2 & Hl3 & Hl4).
  unfold do_item_linktail_q. rewrite (get_Some h x it Hx). set (c := slabs_clsid it) in *.
  set (tail := at_id (tails L) c) in *.
  set (h1 := alter (set_next 0) x (alter (set_prev tail) x h)).
  set (h2 := store_if set_next tail x h1).
  assert (links_only h h2) as Ho.
  { eapply links_only_trans; [|by apply links_only_store_if].
    eapply links_only_trans; by apply links_only_alter. }
  split; [|done]. destruct (dseg_ends _ _ _ _ Hq) as [Hend1 Hend2].
  assert (tail <> 0 -> x <> tail) as Htx.
  { intros Ht ->. destruct (decide (Q c = [])) as [Hz|Hz]; [by destruct (Hend1 Hz)|].
    apply (Hfresh c). by destruct (Hend2 Hz) as (_ & ? & _). }
  assert (dseg h2 0 (if decide (Q c = []) then x else at_id (heads L) c) (Q c ++ [x]) x 0) as Hseg.
  { apply dseg_app. exists tail, x. split.
    - apply (dseg_set_last h1 _ (Q c) tail 0 x Hnd). by apply dseg_alter; [|apply dseg_alter].
    - split; [done|]. split; [done|]. exists (set_next 0 (set_prev tail it)). split; [|done].
      unfold h2. rewrite store_if_other by done. unfold h1. by rewrite !lookup_alter_eq, Hx. }
  set (L1 := if _ =? 0 then _ else _).
  assert (at_id (tails L1) c = x /\ at_id (heads L1) c = if decide (Q c = []) then x else at_id (heads L) c)
    as [Ht1 Hh1].
  { unfold L1. lru_simpl. destruct (decide (Q c = [])) as [Hz|Hz].
    - destruct (Hend1 Hz) as [-> _]. rewrite Z.eqb_refl. lru_simpl.
      rewrite !at_put_id by done. by rewrite !decide_True.
    - rewrite (proj2 (Z.eqb_neq _ _)) by (by destruct (Hend2 Hz) as (_ & _ & ? & _)).
      lru_simpl. rewrite at_put_id by done. by rewrite decide_True. }
  assert (sizes L1 = sizes L /\ sizes_bytes L1 = sizes_bytes L) as [Hs1 Hs2]
    by (unfold L1; by case_if).
  assert (same_but c L L1) as Hsb.
  { split; [unfold L1; case_if; lru_simpl; rewrite !length_put_id; done|].
    intros id Hid Hne. unfold L1. case_if; lru_simpl; rewrite !at_put_id by done; by rewrite !decide_False. }
  assert (counted (Q c ++ [x]) = counted (Q c)) as Hcnt.
  { rewrite counted_mid, decide_False by (by intros ?). unfold counted. cbn. by rewrite app_nil_r. }
  apply (lru_rep_update h h2 L _ Q c (Q c ++ [x]) (x :: Q c) Hr Hc Ho Hsb).
  - intros q Hq'. apply not_elem_of_cons in Hq' as [Hqx Hqc]. unfold h2, h1.
    rewrite store_if_other; [by rewrite !lookup_alter_ne|]. intros Hh ->.
    destruct (decide (Q c = [])) as [Hz|Hz]; [by destruct (Hend1 Hz)|by destruct (Hend2 Hz) as (_ & ? & _)].
  - intros id y Hne Hy [-> |Hy']%elem_of_cons; [by apply (Hfresh id)|].
    apply Hne. by eapply lr_disjoint.
  - intros y [Hy| ->%list_elem_of_singleton]%elem_of_app; [by apply (lr_class _ _ _ Hr)|by exists it].
  - apply NoDup_app. split_and!; [done|set_solver|apply NoDup_singleton].
  - by rewrite Hh1, Ht1.
  - rewrite Hs1, (lr_sizes _ _ _ Hr c Hc). by rewrite Hcnt.
  - rewrite Hs2, (lr_bytes _ _ _ Hr c Hc). by rewrite Hcnt.
Qed.

(** Exchanging two neighbours of a list. *)
Lemma dseg_swap h head l1 y x l2 tail iy ix : NoDup (l1 ++ y :: x :: l2) ->
  dseg h 0 head (l1 ++ y :: x :: l2) tail 0 -> h !! y = Some iy -> h !! x = Some ix ->
  let hA := store_if set_prev (next ix) y (alter (set_next (next ix)) y h) in
  let hB := alter (set_prev (prev iy)) x (alter (set_next y) x hA) in
  let h' := store_if set_next (prev iy) x (alter (set_prev x) y hB) in
  prev ix = y /\
  dseg h' 0 (if head =? y then x else head) (l1 ++ x :: y :: l2) (if tail =? x then y else tail) 0 /\
  (forall q, q ∉ l1 ++ y :: x :: l2 -> h' !! q = h !! q).
Proof.
  intros Hnd (q & m & H1 & (-> & Hy0 & iy' & Hiy' & Hpy & (Hnx & Hx0 & ix' & Hix' & Hpx & H2)))%dseg_app Hiy Hix.
  rewrite Hiy in Hiy'. injection Hiy' as <-. rewrite Hix in Hix'. injection Hix' as <-.
  rewrite Hpy. set (n := next ix) in *. intros hA hB h'. split; [done|].
  apply NoDup_app in Hnd as (Hnd1 & Hd & [Hyx [Hx2 Hnd2]%NoDup_cons]%NoDup_cons).
  assert (x ∉ l1 /\ y ∉ l1) as [Hx1 Hy1] by (split; intros Hx; apply (Hd _ Hx); set_solver).
  assert (forall z, z ∈ l1 -> z <> 0) as Hn1 by (intros z Hz; eapply (dseg_dom h _ _ l1); done).
  assert (forall z, z ∈ l2 -> z <> 0) as Hn2 by (intros z Hz; eapply (dseg_dom h _ _ l2); done).
  apply not_elem_of_cons in Hyx as [Hyx Hy2].
  pose proof (dseg_last _ _ _ _ _ _ H1) as Hq. pose proof (dseg_first _ _ _ _ _ _ H2) as Hn.
  assert (n ∉ l1) as Hn'. { destruct Hn as [[_ ->]|Hn]; [intros ?; by apply (Hn1 0)|]. intros E. apply (Hd n E). by do 2 right. }
  assert (q ∉ l2) as Hq'. { destruct Hq as [[_ ->]|Hq]; [intros ?; by apply (Hn2 0)|]. intros E. apply (Hd q Hq). by do 2 right. }
  assert (n <> x /\ n <> y) as [Hnx' Hny]. { destruct Hn as [[_ ->]|Hn]; [done|]. by split; intros E; rewrite E in Hn. }
  assert (q <> x /\ q <> y) as [Hqx Hqy]. { destruct Hq as [[_ ->]|Hq]; [done|]. by split; intros E; rewrite E in Hq. }
  assert ((head =? y) = bool_decide (l1 = [])) as ->.
  { destruct (dseg_first _ _ _ _ _ _ H1) as [[-> ->]|Hh]; [by rewrite Z.eqb_refl|].
    rewrite bool_decide_eq_false_2 by (intros E; rewrite E in Hh; by apply not_elem_of_nil in Hh).
    apply Z.eqb_neq. by intros E; rewrite E in Hh. }
  assert ((tail =? x) = bool_decide (l2 = [])) as ->.
  { destruct (dseg_last _ _ _ _ _ _ H2) as [[-> ->]|Hh]; [by rewrite Z.eqb_refl|].
    rewrite bool_decide_eq_false_2 by (intros E; rewrite E in Hh; by apply not_elem_of_nil in Hh).
    apply Z.eqb_neq. by intros E; rewrite E in Hh. }
  split.
  - apply dseg_app. exists q, x. split.
    + pose proof (dseg_set_last (alter (set_prev x) y hB) head l1 q y x Hnd1) as Hs.
      rewrite decide_bool_decide in Hs. apply Hs. unfold hB, hA.
      do 3 (apply dseg_alter; [done|]). apply dseg_store_if; [done|]. by apply dseg_alter.
    + split; [done|]. split; [done|]. exists (set_prev q (set_next y ix)). split.
      { unfold h', hB, hA. rewrite store_if_other by congruence.
        rewrite lookup_alter_ne, !lookup_alter_eq, store_if_other, lookup_alter_ne by congruence. by rewrite Hix. }
      split; [done|]. split; [done|]. split; [done|]. exists (set_prev x (set_next n iy)). split.
      { unfold h', hB, hA. rewrite store_if_other by congruence.
        rewrite lookup_alter_eq, !lookup_alter_ne, store_if_other, lookup_alter_eq by congruence. by rewrite Hiy. }
      split; [done|]. pose proof (dseg_set_first (alter (set_next n) y h) x n l2 tail y Hnd2) as Hs.
      rewrite decide_bool_decide in Hs. unfold h', hB, hA. apply dseg_store_if; [done|].
      do 3 (apply dseg_alter; [done|]). apply Hs. by apply dseg_alter.
  - intros z [Hz1 [Hzy [Hzx Hz2]%not_elem_of_cons]%not_elem_of_cons]%not_elem_of_app.
    unfold h', hB, hA. rewrite store_if_other.
    + assert (n <> 0 -> z <> n). { intros Hnz ->. destruct Hn as [[_ ?]|Hn]; done. }
      rewrite !lookup_alter_ne, store_if_other, lookup_alter_ne by (congruence || done). done.
    + intros Hqz ->. destruct Hq as [[-> ->]|Hq]; done.
Qed.

(** The updates of [do_item_crawl_q] between two neighbours, one store after the other. *)
Lemma crawl_stores h L x y ix iy : h !! x = Some ix -> h !! y = Some iy -> prev ix = y ->
  y <> 0 -> x <> y -> next ix <> x -> next ix <> y -> prev iy <> x ->
  let hA := store_if set_prev (next ix) y (alter (set_next (next ix)) y h) in
  let hB := alter (set_prev (prev iy)) x (alter (set_next y) x hA) in
  let c := slabs_clsid ix in
  let L1 := if at_id (heads L) c =? y then set_heads L c x else L in
  do_item_crawl_q h L x =
    (y, store_if set_next (prev iy) x (alter (set_prev x) y hB),
     if at_id (tails L1) c =? x then set_tails L1 c y else L1).
Proof.
  intros Hx Hy Hp Hy0 Hxy Hnx Hny Hpx hA hB c L1. unfold do_item_crawl_q. cbv zeta.
  rewrite (get_Some h x ix Hx), Hp, (proj2 (Z.eqb_neq y 0)) by done. fold c L1.
  set (n := next ix) in *.
  assert ((if n =? 0 then alter (set_next 0) y h else alter (set_prev y) n (alter (set_next n) y h)) = hA) as ->.
  { unfold hA, store_if. destruct (Z.eqb_spec n 0) as [E|E]; [by rewrite E|done]. }
  set (h2 := alter (set_next y) x hA).
  assert (prev (get h2 y) = prev iy) as ->.
  { unfold h2, hA, get. rewrite lookup_alter_ne, store_if_other, lookup_alter_eq, Hy by congruence. done. }
  change (alter (set_prev (prev iy)) x h2) with hB. set (h3 := alter (set_prev x) y hB).
  assert (h3 !! x = Some (set_prev (prev iy) (set_next y ix))) as Hx3.
  { unfold h3, hB, hA. rewrite lookup_alter_ne, !lookup_alter_eq, store_if_other, lookup_alter_ne by congruence.
    by rewrite Hx. }
  rewrite (get_Some h3 x _ Hx3). change (prev (set_prev (prev iy) (set_next y ix))) with (prev iy).
  assert (store_if set_next (prev iy) x h3 !! x = Some (set_prev (prev iy) (set_next y ix))) as Hx4
    by (by rewrite store_if_other).
  by rewrite (get_Some _ x _ Hx4).
Qed.

Lemma counted_swap l1 y x l2 : x ∈ crawlers ->
  counted (l1 ++ y :: x :: l2) = counted (l1 ++ x :: y :: l2).
Proof.
  intros Hx. unfold counted. rewrite !filter_app, !filter_cons. repeat case_decide; try done; by destruct_and?.
Qed.

(** The crawler passes one item on its way to the head. *)
Lemma crawl_q_spec h L Q x ix l1 y l2 : lru_rep h L Q -> h !! x = Some ix ->
  ids (slabs_clsid ix) -> Q (slabs_clsid ix) = l1 ++ y :: x :: l2 -> x ∈ crawlers ->
  let '(r, h', L') := do_item_crawl_q h L x in
  r = y /\ lru_rep h' L' (upd Q (slabs_clsid ix) (l1 ++ x :: y :: l2)) /\ links_only h h'.
Proof.
  intros Hr Hx Hc HQ Hcr. pose proof (lr_queue _ _ _ Hr _ Hc) as Hq.
  pose proof (lr_nodup _ _ _ Hr (slabs_clsid ix)) as Hnd. rewrite HQ in Hq, Hnd.
  destruct (lr_len _ _ _ Hr) as (Hl1 & Hl2 & Hl3 & Hl4).
  destruct (lr_class _ _ _ Hr (slabs_clsid ix) y) as (iy & Hy & Hyc); [rewrite HQ; set_solver|].
  destruct (dseg_swap h _ l1 y x l2 _ iy ix Hnd Hq Hy Hx) as (Hp & Hseg & Htouch).
  pose proof Hq as (q & m & H1 & (-> & Hy0 & iy' & Hiy' & Hpy & (Hnx & Hx0 & ix' & Hix' & Hpx & H2)))%dseg_app.
  rewrite Hy in Hiy'. injection Hiy' as <-. rewrite Hx in Hix'. injection Hix' as <-.
  apply NoDup_app in Hnd as (_ & Hd & [[Hyx Hy2]%not_elem_of_cons [Hx2 _]%NoDup_cons]%NoDup_cons).
  rewrite (crawl_stores h L x y ix iy Hx Hy Hp Hy0); [|congruence|..].
  2,3: destruct (dseg_first _ _ _ _ _ _ H2) as [[_ ->]|Hn]; [done|]; by intros E; rewrite E in Hn.
  2: { destruct (dseg_last _ _ _ _ _ _ H1) as [[_ E]|Hn]; [congruence|]. rewrite Hpy.
       intros ->. apply (Hd _ Hn). set_solver. }
  set (hA := store_if set_prev (next ix) y _) in *. set (c := slabs_clsid ix) in *.
  set (L1 := if at_id (heads L) c =? y then _ else L). set (h' := store_if _ (prev iy) x _) in *.
  set (L2 := if at_id (tails L1) c =? x then _ else L1).
  assert (links_only h h') as Ho.
  { unfold h', hA. repeat (eapply links_only_trans; [|by first [apply links_only_store_if|apply links_only_alter]]).
    apply links_only_refl. }
  split; [done|]. split; [|done].
  assert (tails L1 = tails L) as HtL by (unfold L1; by case_if).
  assert (at_id (heads L2) c = if at_id (heads L) c =? y then x else at_id (heads L) c) as Hh2.
  { transitivity (at_id (heads L1) c); [unfold L2; by case_if|]. unfold L1. case_if; [|done].
    lru_simpl. rewrite at_put_id by done. by rewrite decide_True. }
  assert (at_id (tails L2) c = if at_id (tails L) c =? x then y else at_id (tails L) c) as Ht2.
  { unfold L2. rewrite HtL. case_if; [|by rewrite HtL]. lru_simpl.
    rewrite at_put_id by (done || by rewrite HtL). by rewrite decide_True. }
  apply (lru_rep_update h h' L L2 Q c _ (l1 ++ y :: x :: l2) Hr Hc Ho); try done.
  - split; [unfold L2, L1; repeat case_if; lru_simpl; rewrite ?length_put_id; done|].
    intros id Hid Hne. unfold L2, L1. repeat case_if; lru_simpl; rewrite ?at_put_id by done;
      by rewrite ?decide_False.
  - intros id z Hne Hz Hz'. apply Hne. rewrite <- HQ in Hz'. by eapply lr_disjoint.
  - intros z Hz. apply (lr_class _ _ _ Hr). rewrite HQ. set_solver.
  - pose proof (lr_nodup _ _ _ Hr c) as Hnd'. rewrite HQ in Hnd'. revert Hnd'.
    apply NoDup_Permutation_proper, Permutation_app_head, perm_swap.
  - by rewrite Hh2, Ht2.
  - transitivity (at_id (sizes L) c); [unfold L2, L1; by repeat case_if|].
    rewrite (lr_sizes _ _ _ Hr c Hc). by rewrite HQ, counted_swap.
  - transitivity (at_id (sizes_bytes L) c); [unfold L2, L1; by repeat case_if|].
    rewrite (lr_bytes _ _ _ Hr c Hc). by rewrite HQ, counted_swap.
Qed.

(** At the head the crawler leaves the queue, unless it is alone in it. *)
Lemma crawl_q_head h L Q x ix l2 : lru_rep h L Q -> h !! x = Some ix ->
  ids (slabs_clsid ix) -> Q (slabs_clsid ix) = x :: l2 -> x ∈ crawlers ->
  let '(r, h', L') := do_item_crawl_q h L x in
  r = 0 /\ lru_rep h' L' (upd Q (slabs_clsid ix) (if decide (l2 = []) then [x] else l2)) /\ links_only h h'.
Proof.
  intros Hr Hx Hc HQ Hcr. pose proof (lr_queue _ _ _ Hr _ Hc) as Hq.
  destruct (lr_len _ _ _ Hr) as (Hl1 & Hl2 & Hl3 & Hl4).
  pose proof (unlinktail_q_spec h L Q x ix [] l2 Hr Hx Hc HQ Hcr) as Hu.
  unfold do_item_unlinktail_q, unlink_pointers in Hu. unfold do_item_crawl_q.
  rewrite (get_Some h x ix Hx) in *. rewrite HQ in Hq.
  destruct Hq as (Hhead & Hx0 & ix' & Hx' & Hp & H2). rewrite Hx in Hx'. injection Hx' as <-.
  rewrite Hp in *. rewrite Hhead, !Z.eqb_refl in Hu. rewrite Z.eqb_refl.
  destruct (decide (l2 = [])) as [-> |Hne].
  - destruct H2 as [-> _]. rewrite Z.eqb_refl. split; [done|]. split; [|apply links_only_refl].
    eapply (lru_rep_update h h L L Q _ _ [x]); try done.
    + intros id z Hid Hz Hz'. apply Hid. rewrite <- HQ in Hz'. by eapply lr_disjoint.
    + intros z Hz. apply (lr_class _ _ _ Hr). by rewrite HQ.
    + apply NoDup_singleton.
    + rewrite <- HQ. by apply (lr_queue _ _ _ Hr).
    + rewrite <- HQ. by apply (lr_sizes _ _ _ Hr).
    + rewrite <- HQ. by apply (lr_bytes _ _ _ Hr).
  - assert (next ix <> 0) as Hn0. { destruct l2; [done|]. by destruct H2 as (-> & ? & _). }
    rewrite (proj2 (Z.eqb_neq (next ix) 0)) by done. split; [done|].
    assert (at_id (tails L) (slabs_clsid ix) =? x = false) as Ht.
    { apply Z.eqb_neq. pose proof (lr_nodup _ _ _ Hr (slabs_clsid ix)) as Hnd. rewrite HQ in Hnd.
      apply NoDup_cons in Hnd as [Hnd _]. destruct (dseg_last _ _ _ _ _ _ H2) as [[? _]|Hl]; [done|].
      by intros E; rewrite E in Hl. }
    cbn [tails set_heads] in Hu. rewrite Ht in Hu. unfold store_if in Hu.
    by rewrite Z.eqb_refl, (proj2 (Z.eqb_neq (next ix) 0)) in Hu by done.
Qed.

(** Only the links, the class and the size of the items of a queue matter. *)
Lemma lru_rep_frame h h' L Q : lru_rep h L Q ->
  (forall id x it, x ∈ Q id -> h !! x = Some it -> exists it', h' !! x = Some it' /\ next it' = next it /\
     prev it' = prev it /\ slabs_clsid it' = slabs_clsid it /\ ITEM_ntotal it' = ITEM_ntotal it) ->
  lru_rep h' L Q.
Proof.
  intros [Hlen Hq Hno Hcl Hnd Hsz Hby] Hf. split; try done.
  - intros id Hid. eapply dseg_ext; [|by apply Hq]. intros x Hx. destruct (Hcl id x Hx) as (it & Hit & _).
    destruct (Hf id x it Hx Hit) as (it' & -> & Hn & Hp & _). rewrite Hit. cbn. by rewrite Hn, Hp.
  - intros id x Hx. destruct (Hcl id x Hx) as (it & Hit & <-). destruct (Hf _ x it Hx Hit) as (it' & ? & _ & _ & ? & _).
    by exists it'.
  - intros id Hid. rewrite (Hby id Hid). f_equal.
    assert (forall x, x ∈ counted (Q id) -> x ∈ Q id) as Hsub by (intros x; unfold counted; by intros [_ ?]%list_elem_of_filter).
    revert Hsub. generalize (counted (Q id)) as l. unfold total_bytes. induction l as [|x l IH]; intros Hsub; [done|].
    cbn [foldr]. f_equal; [|apply IH; intros y Hy; apply Hsub; by right].
    specialize (Hsub x ltac:(left)). destruct (Hcl id x Hsub) as (it & Hit & _).
    destruct (Hf id x it Hsub Hit) as (it' & Hit' & _ & _ & _ & Hnt). by rewrite (get_Some _ _ _ Hit), (get_Some _ _ _ Hit').
Qed.
End queues.

(** ** The queues of a run *)

(** What the callers do to the queues: link an item and take it out, change its class or
    its LRU while it is in no queue, and start, advance and stop a crawler. *)
Inductive lru_op :=
| Link (x : Z)
| Unlink (x : Z)
| SetClass (x id : Z)
| CrawlerIn (x : Z)
| CrawlerOut (x : Z)
| Crawl (x : Z).

Definition lru_exec (op : lru_op) (h : heap) (L : lru) : Z * heap * lru :=
  match op with
  | Link x => (0, (do_item_link_q h L x).1, (do_item_link_q h L x).2)
  | Unlink x => (0, (do_item_unlink_q h L x).1, (do_item_unlink_q h L x).2)
  | SetClass x id => (0, alter (set_clsid id) x h, L)
  | CrawlerIn x => (0, (do_item_linktail_q h L x).1, (do_item_linktail_q h L x).2)
  | CrawlerOut x => (0, (do_item_unlinktail_q h L x).1, (do_item_unlinktail_q h L x).2)
  | Crawl x => do_item_crawl_q h L x
  end.

(** The specification: the class of every item and one list per queue. *)
Record queues := { q_class : gmap Z Z; q_lists : Z -> list Z }.

Definition remove (x : Z) (l : list Z) : list Z := filter (fun y => y <> x) l.

(** [x] trades places with the item before it, which is returned. *)
Fixpoint crawl_step (x : Z) (l : list Z) : option (Z * list Z) :=
  match l with
  | a :: ((b :: l') as t) =>
      if b =? x then Some (a, b :: a :: l')
      else match crawl_step x t with Some (r, t') => Some (r, a :: t') | None => None end
  | _ => None
  end.

Definition crawl_list (x : Z) (l : list Z) : option (Z * list Z) :=
  match l with
  | y :: l' => if y =? x then Some (0, if bool_decide (l' = []) then l else l') else crawl_step x l
  | [] => None
  end.

(** A step of the specification; [None] where the caller breaks the protocol. *)
Definition lru_spec (crawlers : gset Z) (op : lru_op) (A : queues) : option (Z * queues) :=
  let on x (k : Z -> list Z -> option (Z * list Z)) :=
    match q_class A !! x with
    | Some c =>
        if (0 <=? c) && (c <? 256) then
          match k c (q_lists A c) with
          | Some (r, l) => Some (r, {| q_class := q_class A; q_lists := upd (q_lists A) c l |})
          | None => None
          end
        else None
    | None => None
    end in
  match op with
  | Link x => on x (fun c l =>
      if bool_decide (x <> 0 /\ x ∉ l /\ x ∉ crawlers) then Some (0, x :: l) else None)
  | CrawlerIn x => on x (fun c l =>
      if bool_decide (x <> 0 /\ x ∉ l /\ x ∈ crawlers) then Some (0, l ++ [x]) else None)
  | Unlink x => on x (fun c l =>
      if bool_decide (x ∈ l /\ x ∉ crawlers) then Some (0, remove x l) else None)
  | CrawlerOut x => on x (fun c l =>
      if bool_decide (x ∈ l /\ x ∈ crawlers) then Some (0, remove x l) else None)
  | Crawl x => on x (fun c l => if bool_decide (x ∈ crawlers) then crawl_list x l else None)
  | SetClass x id =>
      match q_class A !! x with
      | Some c => if bool_decide (x ∉ q_lists A c) then
                    Some (0, {| q_class := <[x := id]> (q_class A); q_lists := q_lists A |})
                  else None
      | None => None
      end
  end.

Fixpoint lru_runs (ops : list lru_op) (h : heap) (L : lru) : list Z * heap * lru :=
  match ops with
  | [] => ([], h, L)
  | op :: ops =>
      let '(r, h, L) := lru_exec op h L in
      let '(rs, h, L) := lru_runs ops h L in (r :: rs, h, L)
  end.

Fixpoint lru_spec_runs (crawlers : gset Z) (ops : list lru_op) (A : queues) : option (list Z * queues) :=
  match ops with
  | [] => Some ([], A)
  | op :: ops =>
      match lru_spec crawlers op A with
      | Some (r, A) =>
          match lru_spec_runs crawlers ops A with
          | Some (rs, A) => Some (r :: rs, A)
          | None => None
          end
      | None => None
      end
  end.

(** The items met from an address on, along one of the two links. *)
Fixpoint walk (link : item -> Z) (h : heap) (p : Z) (fuel : nat) : list Z :=
  match fuel with
  | O => []
  | S fuel => if p =? 0 then [] else p :: walk link h (link (get h p)) fuel
  end.

Lemma walk_next_dseg h prv p l last fuel : dseg h prv p l last 0 -> (length l < fuel)%nat ->
  walk next h p fuel = l.
Proof.
  revert prv p fuel. induction l as [|x l IH]; intros prv p fuel Hs Hf; destruct fuel as [|fuel]; try (cbn [length] in Hf; lia).
  - by destruct Hs as [-> _].
  - destruct Hs as (-> & Hx0 & it & Hit & _ & Hs). cbn [walk]. rewrite (proj2 (Z.eqb_neq x 0)) by done.
    f_equal. rewrite (get_Some h x it Hit). eapply IH; [done|]. cbn [length] in Hf. lia.
Qed.

Lemma walk_prev_dseg h p l last nxt fuel : dseg h 0 p l last nxt -> (length l < fuel)%nat ->
  walk prev h last fuel = reverse l.
Proof.
  revert last nxt fuel. induction l as [|x l IH] using rev_ind; intros last nxt fuel Hs Hf;
    destruct fuel as [|fuel]; try (rewrite ?length_app in Hf; cbn [length] in Hf; lia).
  - by destruct Hs as [_ ->].
  - apply dseg_app in Hs as (q & m & H1 & (-> & Hx0 & it & Hit & Hp & [_ ->])). cbn [walk].
    rewrite (proj2 (Z.eqb_neq x 0)) by done. rewrite reverse_snoc. f_equal.
    rewrite (get_Some h x it Hit), Hp. eapply IH; [done|]. rewrite length_app in Hf. cbn [length] in Hf. lia.
Qed.

Lemma remove_split x l1 l2 : NoDup (l1 ++ x :: l2) -> remove x (l1 ++ x :: l2) = l1 ++ l2.
Proof.
  intros (Hn1 & Hd & [Hx _]%NoDup_cons)%NoDup_app. unfold remove.
  rewrite filter_app, filter_cons_False by (intros Hx'; by apply Hx').
  assert (forall l : list Z, x ∉ l -> filter (fun y : Z => y <> x) l = l) as Hf.
  { induction l as [|y l IH]; intros Hl; [done|]. apply not_elem_of_cons in Hl as [Hy Hl].
    rewrite filter_cons_True by congruence. by rewrite IH. }
  rewrite !Hf; [done|done|]. intros Hin. apply (Hd x Hin). set_solver.
Qed.

Lemma crawl_step_Some x l r l' : crawl_step x l = Some (r, l') ->
  exists l1 l2, l = l1 ++ r :: x :: l2 /\ l' = l1 ++ x :: r :: l2.
Proof.
  revert r l'. induction l as [|a l IH]; intros r l'; [done|]. destruct l as [|b t]; [done|].
  change (crawl_step x (a :: b :: t)) with (if b =? x then Some (a, b :: a :: t)
    else match crawl_step x (b :: t) with Some (r, t') => Some (r, a :: t') | None => None end).
  destruct (Z.eqb_spec b x) as [-> |Hne].
  - intros [= <- <-]. by exists [], t.
  - destruct (crawl_step x (b :: t)) as [[r' t']|] eqn:E; [|done]. intros [= <- <-].
    destruct (IH r' t' eq_refl) as (l1 & l2 & -> & ->). by exists (a :: l1), l2.
Qed.

Lemma total_bytes_alter f x h l : (forall it, ITEM_ntotal (f it) = ITEM_ntotal it) ->
  total_bytes (alter f x h) l = total_bytes h l.
Proof.
  intros Hf. unfold total_bytes. induction l as [|y l IH]; [done|]. cbn [foldr]. rewrite IH. f_equal.
  unfold get. destruct (decide (x = y)) as [-> |Hne]; [|by rewrite lookup_alter_ne].
  rewrite lookup_alter_eq. destruct (h !! y); [|done]. apply Hf.
Qed.

Section refinement.
Context (crawlers : gset Z).

Definition sim (h : heap) (L : lru) (A : queues) : Prop :=
  lru_rep crawlers h L (q_lists A) /\ slabs_clsid <$> h = q_class A.

Lemma links_only_class h h' : links_only h h' -> slabs_clsid <$> h' = slabs_clsid <$> h.
Proof.
  intros Ho. apply map_eq. intros q. rewrite !lookup_fmap. specialize (Ho q).
  destruct (h !! q) as [it|], (h' !! q) as [it'|]; try done. cbn in *.
  apply (inj Some) in Ho. f_equal.
  change (slabs_clsid (set_next 0 (set_prev 0 it')) = slabs_clsid (set_next 0 (set_prev 0 it))). by f_equal.
Qed.

Lemma sim_class h L A x c : sim h L A -> q_class A !! x = Some c ->
  exists it, h !! x = Some it /\ slabs_clsid it = c.
Proof.
  intros [_ Hc] Hx. rewrite <- Hc, lookup_fmap in Hx. apply fmap_Some in Hx as (it & Hit & ->). by exists it.
Qed.

(** An item can only be in the queue of its class. *)
Lemma sim_fresh h L A x c : sim h L A -> q_class A !! x = Some c -> x ∉ q_lists A c ->
  forall id, x ∉ q_lists A id.
Proof.
  intros Hs Hc Hx id Hid. destruct (sim_class _ _ _ _ _ Hs Hc) as (it & Hit & <-).
  destruct Hs as [Hr _]. destruct (lr_class _ _ _ _ Hr id x Hid) as (it' & Hit' & <-). congruence.
Qed.

Lemma sim_set_class h L A x c id : sim h L A -> q_class A !! x = Some c -> x ∉ q_lists A c ->
  sim (alter (set_clsid id) x h) L {| q_class := <[x := id]> (q_class A); q_lists := q_lists A |}.
Proof.
  intros Hs Hc Hx. pose proof (sim_fresh _ _ _ _ _ Hs Hc Hx) as Hfresh.
  destruct (sim_class _ _ _ _ _ Hs Hc) as (it & Hit & _). destruct Hs as [[Hlen Hq Hno Hcl Hnd Hsz Hby] Hcls].
  split.
  - split; try done.
    + intros i Hi. by apply dseg_alter_field, Hq.
    + intros i y Hy. destruct (Hcl i y Hy) as (it' & Hit' & <-). exists it'.
      rewrite lookup_alter_ne; [done|]. intros ->. by apply (Hfresh _ Hy).
    + intros i Hi. rewrite (Hby i Hi). cbn [q_lists]. by rewrite total_bytes_alter.
  - apply map_eq. intros y. cbn [q_class]. rewrite lookup_fmap.
    destruct (decide (x = y)) as [-> |Hne].
    + by rewrite lookup_alter_eq, lookup_insert_eq, Hit.
    + rewrite lookup_alter_ne, lookup_insert_ne by done. by rewrite <- Hcls, lookup_fmap.
Qed.

(** Only links have changed: the classes are what they were. *)
Lemma sim_links h h' L' A c l : slabs_clsid <$> h = q_class A -> links_only h h' ->
  lru_rep crawlers h' L' (upd (q_lists A) c l) ->
  sim h' L' {| q_class := q_class A; q_lists := upd (q_lists A) c l |}.
Proof. intros Hcls Ho Hr. split; [done|]. cbn [q_class]. rewrite <- Hcls. by apply links_only_class. Qed.

(** One step of the code takes the lists where the specification takes them. *)
Lemma lru_exec_sim op h L A r A' : sim h L A -> lru_spec crawlers op A = Some (r, A') ->
  let '(r', h', L') := lru_exec op h L in r' = r /\ sim h' L' A'.
Proof.
  intros Hs Hop.
  assert (forall x k, match op with SetClass _ _ => False | Link y | Unlink y | CrawlerIn y | CrawlerOut y | Crawl y => y = x end ->
    lru_spec crawlers op A =
    match q_class A !! x with
    | Some c => if (0 <=? c) && (c <? 256) then
          match k c (q_lists A c) with
          | Some (r, l) => Some (r, {| q_class := q_class A; q_lists := upd (q_lists A) c l |})
          | None => None
          end else None
    | None => None
    end ->
    exists it l, h !! x = Some it /\ ids (slabs_clsid it) /\ q_class A !! x = Some (slabs_clsid it) /\
      k (slabs_clsid it) (q_lists A (slabs_clsid it)) = Some (r, l) /\
      A' = {| q_class := q_class A; q_lists := upd (q_lists A) (slabs_clsid it) l |}) as Hon.
  { intros x k _ Heq. rewrite Heq in Hop. destruct (q_class A !! x) as [c|] eqn:Hc; [|done].
    destruct (sim_class _ _ _ _ _ Hs Hc) as (it & Hit & <-).
    destruct (_ && _) eqn:Hid; [|done]. destruct (k _ _) as [[r' l]|] eqn:Hk; [|done].
    injection Hop as <- <-. exists it, l. unfold ids. split_and!; try done; lia. }
  destruct op as [x|x|x id|x|x|x]; cbn [lru_exec].
  3: { cbn [lru_spec] in Hop. destruct (q_class A !! x) as [c|] eqn:Hc; [|done].
       case_bool_decide as Hx; [|done]. injection Hop as <- <-.
       split; [done|]. by apply (sim_set_class h L A x c id). }
  all: edestruct (Hon x) as (it & l & Hit & Hid & Hc & Hk & ->); [done|reflexivity|]; clear Hon.
  1-4: revert Hk; cbv beta; case_bool_decide as Hx; [|done]; intros [= <- <-].
  all: pose proof Hs as [Hr Hcls]; pose proof (lr_nodup _ _ _ _ Hr (slabs_clsid it)) as Hnd.
  - destruct Hx as (Hx0 & Hx & Hxc). pose proof (sim_fresh _ _ _ _ _ Hs Hc Hx) as Hf.
    pose proof (link_q_spec crawlers h L (q_lists A) x it Hr Hx0 Hit Hid Hf Hxc) as H.
    destruct (do_item_link_q h L x) as [h' L']. destruct H as (H & Ho & _). split; [done|]. by apply (sim_links h).
  - destruct Hx as [(l1 & l2 & HQ)%list_elem_of_split Hxc].
    pose proof (unlink_q_spec crawlers h L (q_lists A) x it l1 l2 Hr Hit Hid HQ Hxc) as H.
    destruct (do_item_unlink_q h L x) as [h' L']. destruct H as [H [Ho _]]. split; [done|].
    rewrite HQ in *. rewrite remove_split by done. by apply (sim_links h).
  - destruct Hx as (Hx0 & Hx & Hxc). pose proof (sim_fresh _ _ _ _ _ Hs Hc Hx) as Hf.
    pose proof (linktail_q_spec crawlers h L (q_lists A) x it Hr Hx0 Hit Hid Hf Hxc) as H.
    destruct (do_item_linktail_q h L x) as [h' L']. destruct H as [H Ho]. split; [done|]. by apply (sim_links h).
  - destruct Hx as [(l1 & l2 & HQ)%list_elem_of_split Hxc].
    pose proof (unlinktail_q_spec crawlers h L (q_lists A) x it l1 l2 Hr Hit Hid HQ Hxc) as H.
    destruct (do_item_unlinktail_q h L x) as [h' L']. destruct H as [H Ho]. split; [done|].
    rewrite HQ in *. rewrite remove_split by done. by apply (sim_links h).
  - revert Hk. cbv beta. case_bool_decide as Hx; [|done]. intros Hk. unfold crawl_list in Hk. destruct (q_lists A (slabs_clsid it)) as [|y l'] eqn:HQ; [done|].
    destruct (Z.eqb_spec y x) as [-> |Hne].
    + injection Hk as <- <-.
      pose proof (crawl_q_head crawlers h L (q_lists A) x it l' Hr Hit Hid HQ Hx) as H.
      destruct (do_item_crawl_q h L x) as [[r' h'] L']. destruct H as (-> & H & Ho). split; [done|].
      apply (sim_links h); try done. destruct (decide (l' = [])) as [-> |Hn]; [done|]. by rewrite bool_decide_eq_false_2.
    + apply crawl_step_Some in Hk as (l1 & l2 & HQ' & ->). rewrite HQ' in HQ.
      pose proof (crawl_q_spec crawlers h L (q_lists A) x it l1 r l2 Hr Hit Hid HQ Hx) as H.
      destruct (do_item_crawl_q h L x) as [[r' h'] L']. destruct H as (-> & H & Ho). split; [done|].
      by apply (sim_links h).
Qed.

Lemma lru_runs_sim ops h L A rs A' : sim h L A -> lru_spec_runs crawlers ops A = Some (rs, A') ->
  let '(rs', h', L') := lru_runs ops h L in rs' = rs /\ sim h' L' A'.
Proof.
  revert h L A rs. induction ops as [|op ops IH]; intros h L A rs Hs Hop; cbn [lru_runs lru_spec_runs] in *.
  { by injection Hop as <- <-. }
  destruct (lru_spec crawlers op A) as [[r A1]|] eqn:Hop1; [|done].
  destruct (lru_spec_runs crawlers ops A1) as [[rs1 A2]|] eqn:Hops; [|done]. injection Hop as <- <-.
  pose proof (lru_exec_sim op h L A r A1 Hs Hop1) as H1. destruct (lru_exec op h L) as [[r' h'] L'].
  destruct H1 as [-> Hs1]. specialize (IH h' L' A1 rs1 Hs1 Hops).
  destruct (lru_runs ops h' L') as [[rs' h''] L'']. by destruct IH as [-> ?].
Qed.

Lemma lru_init_rep h : lru_rep crawlers h lru_init (fun _ => []).
Proof.
  assert (forall id, at_id (replicate LARGEST_ID 0) id = 0) as Hz.
  { intros id. unfold at_id. induction LARGEST_ID as [|n IH] in id |- *; [by destruct (Z.to_nat id)|].
    cbn. destruct (Z.to_nat id) as [|k] eqn:E; [done|]. rewrite <- (Nat2Z.id k). apply IH. }
  split; try done; try (intros; cbn [heads tails sizes sizes_bytes lru_init]; rewrite ?Hz; done).
  - intros ? ? []%not_elem_of_nil.
  - intros id. apply NoDup_nil_2.
Qed.
End refinement.

(** C26: the LRU queues are lists.  Take any memory of items and any sequence of link,
    unlink, class-change and crawler operations on empty queues in which every item
    linked is in no queue, every item unlinked is in its queue, and only crawlers crawl.
    Then every operation returns what the list specification returns (a crawler step:
    the item the crawler passed, or null at the head), and in the end, for every class,
    following [next] from the head meets the items of the list in order, following
    [prev] from the tail meets them in reverse, and the counters hold the number of items
    and of their bytes, crawlers not counted. *)
Theorem lru_refines_lists (crawlers : gset Z) ops h rs A :
  lru_spec_runs crawlers ops {| q_class := slabs_clsid <$> h; q_lists := fun _ => [] |} = Some (rs, A) ->
  let '(rs', h', L) := lru_runs ops h lru_init in
  rs' = rs /\
  forall id, 0 <= id < 256 ->
    let l := q_lists A id in
    walk next h' (at_id (heads L) id) (S (length l)) = l /\
    walk prev h' (at_id (tails L) id) (S (length l)) = reverse l /\
    do_get_lru_size L id = u32 (Z.of_nat (length (counted crawlers l))) /\
    at_id (sizes_bytes L) id = u64 (total_bytes h' (counted crawlers l)).
Proof.
  intros Hops. epose proof (lru_runs_sim crawlers ops h lru_init _ rs A _ Hops) as H.
  destruct (lru_runs ops h lru_init) as [[rs' h'] L]. destruct H as [-> [Hr _]]. split; [done|].
  intros id Hid l. pose proof (lr_queue _ _ _ _ Hr id Hid) as Hq. split_and!.
  - eapply walk_next_dseg; [done|]. subst l. lia.
  - eapply walk_prev_dseg; [done|]. subst l. lia.
  - by apply (lr_sizes _ _ _ _ Hr).
  - by apply (lr_bytes _ _ _ _ Hr).
  Unshelve. split; [apply lru_init_rep|done].
Qed.

(** Two items in the HOT queue of class 1 and a crawler that walks over both; the second
    item moves to COLD. *)
Module LruExample.
Definition it1 : item := mk_item 0 0 0 0 0 10 1 0 1 [65] 0 0 [].
Definition it2 : item := mk_item 0 0 0 0 0 20 1 0 1 [66; 66] 0 0 [].
Definition cr : item := mk_item 0 0 0 0 0 0 0 1 1 [] 0 0 [].
Definition mem : heap := <[100 := it1]> (<[200 := it2]> (<[900 := cr]> ∅)).
Definition ops := [Link 100; Link 200; CrawlerIn 900; Crawl 900; Unlink 200; SetClass 200 129; Link 200; Crawl 900].
End LruExample.

Lemma lru_refines_lists_witness :
  let '(rs, h, L) := lru_runs LruExample.ops LruExample.mem lru_init in
  rs = [0; 0; 0; 100; 0; 0; 0; 0] /\
  walk next h (at_id (heads L) 1) 2 = [100] /\
  walk prev h (at_id (tails L) 129) 2 = [200] /\ do_get_lru_size L 1 = 1.
Proof.
  pose proof (lru_refines_lists {[900]} LruExample.ops LruExample.mem [0; 0; 0; 100; 0; 0; 0; 0] _ eq_refl) as H.
  destruct (lru_runs LruExample.ops LruExample.mem lru_init) as [[rs h] L].
  destruct H as [-> H]. split; [reflexivity|].
  pose proof (H 1 ltac:(lia)) as (H1 & _ & H2 & _). pose proof (H 129 ltac:(lia)) as (_ & H3 & _).
  split; [exact H1|]. split; [exact H3|]. rewrite H2. reflexivity.
Defined.
