(* ===== verification/McSlabs.v ===== *)
(** The slab allocator (src/memcached-sr/slabs.c): size classes, pages, free lists, the
    global page pool and the memory limit.

    A chunk is an address of the item memory of McItem; memory nobody has written reads
    as zero, and [memset] forgets what a page held.  The answers of [malloc] and [realloc]
    are arguments ([env]).  The growth factor is an IEEE double, computed with the
    Standard Library's SpecFloat.  The build without external storage is modelled; the
    assertions, the tracing probes and the locking wrappers are not, and neither is the
    page mover. *)
From Stdlib Require Import SpecFloat.
From S2P Require Import Prelude McItem McLru.

Record slabclass_t := {
  sc_size : Z;
  perslab : Z;
  slots : Z;
  sl_curr : Z;
  sc_slabs : Z;
  slab_list : list Z;
  list_size : Z
}.

Record slab_settings := {
  slab_reassign : bool;
  slab_chunk_size_max : Z;
  slab_page_size : Z;
  item_size_max : Z;
  chunk_size : Z
}.

Record slabs_t := {
  slabclass : list slabclass_t;
  mem_limit : Z;
  mem_malloced : Z;
  mem_limit_reached : bool;
  power_largest : Z;
  mem_base : Z;
  mem_current : Z;
  mem_avail : Z
}.

(** What the C library answers: whether [realloc] succeeds, and the result of [malloc]. *)
Record env := { e_realloc : bool; e_malloc : Z }.

Definition POWER_SMALLEST : Z := 1.
Definition MAX_NUMBER_OF_SLAB_CLASSES : Z := 64.
Definition SLAB_GLOBAL_PAGE_POOL : Z := 0.
Definition CHUNK_ALIGN_BYTES : Z := 8.
Definition SLABS_ALLOC_NO_NEWPAGE : Z := 1.

Definition zero_class : slabclass_t :=
  {| sc_size := 0; perslab := 0; slots := 0; sl_curr := 0; sc_slabs := 0; slab_list := []; list_size := 0 |}.

Definition cls (s : slabs_t) (id : Z) : slabclass_t := nth (Z.to_nat id) (slabclass s) zero_class.
Definition put_cls (s : slabs_t) (id : Z) (p : slabclass_t) : slabs_t :=
  {| slabclass := <[Z.to_nat id := p]> (slabclass s); mem_limit := mem_limit s; mem_malloced := mem_malloced s;
     mem_limit_reached := mem_limit_reached s; power_largest := power_largest s;
     mem_base := mem_base s; mem_current := mem_current s; mem_avail := mem_avail s |}.

(** [p->slots = v; p->sl_curr = n] *)
Definition set_slots (v n : Z) (p : slabclass_t) : slabclass_t :=
  {| sc_size := sc_size p; perslab := perslab p; slots := v; sl_curr := n;
     sc_slabs := sc_slabs p; slab_list := slab_list p; list_size := list_size p |}.
Definition set_list (l : list Z) (n sz : Z) (p : slabclass_t) : slabclass_t :=
  {| sc_size := sc_size p; perslab := perslab p; slots := slots p; sl_curr := sl_curr p;
     sc_slabs := n; slab_list := l; list_size := sz |}.
Definition set_sizes (sz per : Z) (p : slabclass_t) : slabclass_t :=
  {| sc_size := sz; perslab := per; slots := slots p; sl_curr := sl_curr p;
     sc_slabs := sc_slabs p; slab_list := slab_list p; list_size := list_size p |}.
(** The global variables of the memory accounting. *)
Definition set_mem (limit malloced : Z) (reached : bool) (current avail : Z) (s : slabs_t) : slabs_t :=
  {| slabclass := slabclass s; mem_limit := limit; mem_malloced := malloced;
     mem_limit_reached := reached; power_largest := power_largest s;
     mem_base := mem_base s; mem_current := current; mem_avail := avail |}.
Definition set_reached (b : bool) (s : slabs_t) : slabs_t :=
  set_mem (mem_limit s) (mem_malloced s) b (mem_current s) (mem_avail s) s.

(** A store to a field of the structure at [p]. *)
Definition store (f : item -> item) (p : Z) (h : heap) : heap := <[p := f (get h p)]> h.
Definition store_nz (f : item -> item) (p : Z) (h : heap) : heap := if p =? 0 then h else store f p h.

(** [memset(ptr, 0, len)] *)
Definition memset0 (ptr len : Z) (h : heap) : heap :=
  filter (fun kv => ~ (ptr <= kv.1 < ptr + len)) h.

(** ** Size classes *)

Section classes.
Context (set : slab_settings).

(** The [while] loop of [slabs_clsid], from class [res] on. *)
Fixpoint clsid_loop (s : slabs_t) (size : Z) (res : Z) (fuel : nat) : Z :=
  match fuel with
  | O => res
  | S fuel =>
      if sc_size (cls s res) <? size then
        if res =? power_largest s then power_largest s else clsid_loop s size (res + 1) fuel
      else res
  end.

Definition slabs_clsid_of (s : slabs_t) (size : Z) : Z :=
  if (size =? 0) || (u64 (item_size_max set) <? size) then 0
  else clsid_loop s size POWER_SMALLEST (Z.to_nat (power_largest s)).

Definition slabs_size (s : slabs_t) (clsid : Z) : Z := sc_size (cls s clsid).

(** Doubles: conversion from an integer, and truncation to an unsigned integer. *)
Definition double (z : Z) : spec_float := binary_normalize 53 1024 z 0 false.
Definition trunc_u32 (x : spec_float) : Z :=
  match x with
  | S754_finite s m e => u32 ((if s then -1 else 1) * Z.shiftl (Z.pos m) e)
  | _ => 0
  end.

(** Round up to a multiple of [CHUNK_ALIGN_BYTES]. *)
Definition align (size : Z) : Z :=
  if size mod CHUNK_ALIGN_BYTES =? 0 then size
  else u32 (size + (CHUNK_ALIGN_BYTES - size mod CHUNK_ALIGN_BYTES)).

(** The loop of [slabs_init]: the class table and the index it stops at. *)
Fixpoint init_loop (factor : spec_float) (slab_sizes : option (list Z)) (i size : Z) (s : slabs_t)
    (fuel : nat) : slabs_t * Z :=
  match fuel with
  | O => (s, i)
  | S fuel =>
      if i <? MAX_NUMBER_OF_SLAB_CLASSES - 1 then
        let stop :=
          match slab_sizes with
          | Some l => nth (Z.to_nat (i - 1)) l 0 =? 0
          | None => negb (SFltb (double size) (SFdiv 53 1024 (double (slab_chunk_size_max set)) factor))
          end in
        if stop then (s, i)
        else
          let size := match slab_sizes with Some l => nth (Z.to_nat (i - 1)) l 0 | None => size end in
          let size := align size in
          let s := put_cls s i (set_sizes size (slab_page_size set / size) (cls s i)) in
          let size := match slab_sizes with
                      | None => trunc_u32 (SFmul 53 1024 (double size) factor)
                      | Some _ => size
                      end in
          init_loop factor slab_sizes (i + 1) size s fuel
      else (s, i)
  end.

(** The class table, [power_largest] included. *)
Definition init_classes (factor : spec_float) (slab_sizes : option (list Z)) (s : slabs_t) : slabs_t :=
  let '(s, i) := init_loop factor slab_sizes POWER_SMALLEST (u32 (sizeof_item + chunk_size set)) s 64 in
  let s := put_cls s i (set_sizes (slab_chunk_size_max set) (slab_page_size set / slab_chunk_size_max set) (cls s i)) in
  {| slabclass := slabclass s; mem_limit := mem_limit s; mem_malloced := mem_malloced s;
     mem_limit_reached := mem_limit_reached s; power_largest := i;
     mem_base := mem_base s; mem_current := mem_current s; mem_avail := mem_avail s |}.

(** ** Pages and chunks *)

Definition grow_slab_list (e : env) (s : slabs_t) (id : Z) : bool * slabs_t :=
  let p := cls s id in
  if sc_slabs p =? list_size p then
    let new_size := if list_size p =? 0 then 16 else u32 (list_size p * 2) in
    if e_realloc e then
      (true, put_cls s id (set_list (resize (Z.to_nat new_size) 0 (slab_list p)) (sc_slabs p) new_size p))
    else (false, s)
  else (true, s).

(** [p->slab_list[p->slabs++] = ptr] *)
Definition push_page (s : slabs_t) (id ptr : Z) : slabs_t :=
  let p := cls s id in
  put_cls s id (set_list (<[Z.to_nat (sc_slabs p) := ptr]> (slab_list p)) (u32 (sc_slabs p + 1)) (list_size p) p).

(** The two stores that put a chunk in front of a free list, and the counter. *)
Definition push_slot (h : heap) (s : slabs_t) (id it : Z) : heap * slabs_t :=
  let p := cls s id in
  let h := store (set_prev 0) it h in
  let h := store (set_next (slots p)) it h in
  let h := store_nz (set_prev it) (slots p) h in
  (h, put_cls s id (set_slots it (u32 (sl_curr p + 1)) p)).

(** The chunks of a large item: [chunk] is the next one; [schunk] gives, for the header,
    the address of its first further chunk and the class of the header. *)
Fixpoint free_chunks (h : heap) (s : slabs_t) (chunk : Z) (fuel : nat) : heap * slabs_t :=
  match fuel with
  | O => (h, s)
  | S fuel =>
      if chunk =? 0 then (h, s)
      else
        let h := store (set_flags ITEM_SLABBED) chunk h in
        let next_chunk := next (get h chunk) in
        let '(h, s) := push_slot h s (slabs_clsid (get h chunk)) chunk in
        free_chunks h s next_chunk fuel
  end.

Definition do_slabs_free_chunked (schunk : Z -> Z * Z) (fuel : nat) (h : heap) (s : slabs_t) (it : Z) : heap * slabs_t :=
  let '(chunk, orig_clsid) := schunk it in
  let h := store (set_flags ITEM_SLABBED) it h in
  let h := store (set_prev 0) it h in
  let h := store_nz (set_prev 0) chunk h in
  let '(h, s) := push_slot h s orig_clsid it in
  free_chunks h s chunk fuel.

Section memory.
(** The chunk structure inside large items, and a bound on their number of chunks. *)
Context (schunk : Z -> Z * Z) (nchunks : nat).

Definition do_slabs_free (h : heap) (s : slabs_t) (ptr id : Z) : heap * slabs_t :=
  if (id <? POWER_SMALLEST) || (power_largest s <? id) then (h, s)
  else if has_flag ITEM_CHUNKED (get h ptr) then do_slabs_free_chunked schunk nchunks h s ptr
  else
    let h := store (set_flags ITEM_SLABBED) ptr h in
    let h := store (set_clsid (u8 id)) ptr h in
    push_slot h s id ptr.

Fixpoint split_loop (h : heap) (s : slabs_t) (ptr id : Z) (n : nat) : heap * slabs_t :=
  match n with
  | O => (h, s)
  | S n =>
      let '(h, s) := do_slabs_free h s ptr id in
      split_loop h s (ptr + sc_size (cls s id)) id n
  end.
Definition split_slab_page_into_freelist (h : heap) (s : slabs_t) (ptr id : Z) : heap * slabs_t :=
  split_loop h s ptr id (Z.to_nat (perslab (cls s id))).

(** The last page of the pool, or null. *)
Definition get_page_from_global_pool (s : slabs_t) : Z * slabs_t :=
  let p := cls s SLAB_GLOBAL_PAGE_POOL in
  if sc_slabs p <? 1 then (0, s)
  else (nth (Z.to_nat (sc_slabs p - 1)) (slab_list p) 0,
        put_cls s SLAB_GLOBAL_PAGE_POOL (set_list (slab_list p) (sc_slabs p - 1) (list_size p) p)).

(** The allocation is counted even when [malloc] fails. *)
Definition memory_allocate (e : env) (s : slabs_t) (size : Z) : Z * slabs_t :=
  if mem_base s =? 0 then
    (e_malloc e, set_mem (mem_limit s) (u64 (mem_malloced s + size)) (mem_limit_reached s) (mem_current s) (mem_avail s) s)
  else if mem_avail s <? size then (0, s)
  else
    let size := if size mod CHUNK_ALIGN_BYTES =? 0 then size
                else size + (CHUNK_ALIGN_BYTES - size mod CHUNK_ALIGN_BYTES) in
    (mem_current s,
     set_mem (mem_limit s) (u64 (mem_malloced s + size)) (mem_limit_reached s) (mem_current s + size)
       (if size <? mem_avail s then mem_avail s - size else 0) s).

Definition newslab_len (s : slabs_t) (id : Z) : Z :=
  if slab_reassign set || negb (slab_chunk_size_max set =? slab_page_size set)
  then slab_page_size set
  else u32 (sc_size (cls s id) * perslab (cls s id)).

Definition do_slabs_newslab (e : env) (h : heap) (s : slabs_t) (id : Z) : bool * heap * slabs_t :=
  let len := newslab_len s id in
  if negb (mem_limit s =? 0) && (mem_limit s <? u64 (mem_malloced s + len)) && (0 <? sc_slabs (cls s id))
     && (sc_slabs (cls s SLAB_GLOBAL_PAGE_POOL) =? 0)
  then (false, h, set_reached true s)
  else
    let '(grown, s) := grow_slab_list e s id in
    if grown then
      let '(ptr, s) := get_page_from_global_pool s in
      let '(ptr, s) := if ptr =? 0 then memory_allocate e s len else (ptr, s) in
      if ptr =? 0 then (false, h, s)
      else
        let h := memset0 ptr len h in
        let '(h, s) := split_slab_page_into_freelist h s ptr id in
        (true, h, push_page s id ptr)
    else (false, h, s).

Definition do_slabs_alloc (e : env) (h : heap) (s : slabs_t) (id flags : Z) : Z * heap * slabs_t :=
  if (id <? POWER_SMALLEST) || (power_largest s <? id) then (0, h, s)
  else
    let '(h, s) := if (sl_curr (cls s id) =? 0) && negb (flags =? SLABS_ALLOC_NO_NEWPAGE)
                   then let '(_, h, s) := do_slabs_newslab e h s id in (h, s) else (h, s) in
    let p := cls s id in
    if sl_curr p =? 0 then (0, h, s)
    else
      let it := slots p in
      let nxt := next (get h it) in
      let h := store_nz (set_prev 0) nxt h in
      let h := store (clear_flag ITEM_SLABBED) it h in
      let h := store (set_refcount 1) it h in
      (it, h, put_cls s id (set_slots nxt (u32 (sl_curr p - 1)) p)).

(** ** Start-up and limits *)

(** One page for each of the first [maxslabs] classes; [None]: the program exits. *)
Fixpoint slabs_preallocate (es : list env) (h : heap) (s : slabs_t) (maxslabs i prealloc : Z)
    (fuel : nat) : option (heap * slabs_t) :=
  match fuel with
  | O => Some (h, s)
  | S fuel =>
      if maxslabs <? prealloc + 1 then Some (h, s)
      else
        let '(ok, h, s) := do_slabs_newslab (default {| e_realloc := false; e_malloc := 0 |} (head es)) h s i in
        if ok then slabs_preallocate (tail es) h s maxslabs (i + 1) (prealloc + 1) fuel else None
  end.

(** [slabs_init]: [big] is what the large allocation of a preallocating start returned,
    [ext] the external memory, [t_initial] the fake allocation of the test suite. *)
Definition slabs_init (es : list env) (h : heap) (limit : Z) (factor : spec_float) (prealloc : bool)
    (slab_sizes : option (list Z)) (ext : Z) (reuse_mem : bool) (big : Z) (t_initial : Z) : option (heap * slabs_t) :=
  let '(base, current, avail, do_slab_prealloc) :=
    if prealloc && (ext =? 0) then
      if big =? 0 then (0, 0, 0, false) else (big, big, limit, true)
    else if prealloc then
      if reuse_mem then (ext, ext + limit, 0, true) else (ext, ext, limit, true)
    else (0, 0, 0, false) in
  let s := {| slabclass := replicate 64 zero_class; mem_limit := limit; mem_malloced := t_initial;
              mem_limit_reached := false; power_largest := 0;
              mem_base := base; mem_current := current; mem_avail := avail |} in
  let s := init_classes factor slab_sizes s in
  if do_slab_prealloc && negb reuse_mem then slabs_preallocate es h s (power_largest s) POWER_SMALLEST 0 63
  else Some (h, s).

(** Pages for the pool until the limit or until no memory is left; [es n] holds the
    answers of the C library in round [n].  A round adds a page to [mem_malloced]. *)
Definition prefill_page (e : env) (s : slabs_t) : Z * slabs_t :=
  let '(ptr, s) := memory_allocate e s (slab_page_size set) in
  if ptr =? 0 then (0, s) else (ptr, push_page (snd (grow_slab_list e s 0)) 0 ptr).
Fixpoint prefill_loop (es : nat -> env) (n : nat) (s : slabs_t) (fuel : nat) : slabs_t :=
  match fuel with
  | O => s
  | S fuel =>
      if mem_malloced s <? mem_limit s then
        let '(ptr, s) := prefill_page (es n) s in
        if ptr =? 0 then s else prefill_loop es (S n) s fuel
      else s
  end.
Definition slabs_prefill_global (es : nat -> env) (s : slabs_t) : slabs_t :=
  set_reached true (prefill_loop es 0 s (S (Z.to_nat (mem_limit s / slab_page_size set)))).

(** Re-reading a chunk of memory that survived a restart; -1 stands for a page of the pool. *)
Definition slabs_fixup (e : env) (h : heap) (s : slabs_t) (chunk border : Z) : Z * heap * slabs_t :=
  let id := ITEM_clsid (get h chunk) in
  if id =? 0 then (u32 (-1), h, push_page (snd (grow_slab_list e s 0)) 0 chunk)
  else
    let s := if border =? 0 then push_page (snd (grow_slab_list e s id)) id chunk else s in
    let '(h, s) := if it_flags (get h chunk) =? ITEM_SLABBED then push_slot h s id chunk else (h, s) in
    (sc_size (cls s id), h, s).

Fixpoint release_loop (s : slabs_t) (fuel : nat) : slabs_t :=
  match fuel with
  | O => s
  | S fuel =>
      if mem_limit s <? mem_malloced s then
        let '(p, s) := get_page_from_global_pool s in
        if p =? 0 then s
        else release_loop (set_mem (mem_limit s) (u64 (mem_malloced s - slab_page_size set)) (mem_limit_reached s)
                             (mem_current s) (mem_avail s) s) fuel
      else s
  end.
(** Every round takes a page off the pool. *)
Definition memory_release (s : slabs_t) : slabs_t :=
  if negb (mem_base s =? 0) then s
  else if negb (slab_reassign set) then s
  else release_loop s (S (Z.to_nat (sc_slabs (cls s SLAB_GLOBAL_PAGE_POOL)))).

Definition do_slabs_adjust_mem_limit (s : slabs_t) (new_mem_limit : Z) : bool * slabs_t :=
  if negb (mem_base s =? 0) then (false, s)
  else (true, memory_release (set_mem new_mem_limit (mem_malloced s) false (mem_current s) (mem_avail s) s)).

(** Free chunks, whether the limit is reached, chunks per page. *)
Definition slabs_available_chunks (s : slabs_t) (id : Z) : Z * bool * Z :=
  (sl_curr (cls s id), mem_limit s <=? mem_malloced s, perslab (cls s id)).

Definition global_page_pool_size (s : slabs_t) : Z * bool :=
  (sc_slabs (cls s SLAB_GLOBAL_PAGE_POOL), mem_limit s <=? mem_malloced s).

(** Chunks per page, free chunks, pages and chunk size of every class. *)
Definition fill_slab_stats_automove (s : slabs_t) : list (Z * Z * Z * Z) :=
  map (fun n => let p := cls s n in (perslab p, sl_curr p, sc_slabs p, sc_size p))
    (seqZ 0 MAX_NUMBER_OF_SLAB_CLASSES).
End memory.
End classes.

(** The table of a default start: classes 1 to 39, from 96 bytes to half a page. *)
Definition default_settings : slab_settings :=
  {| slab_reassign := true; slab_chunk_size_max := 524288; slab_page_size := 1048576;
     item_size_max := 1048576; chunk_size := 48 |}.
Definition factor_1_25 : spec_float := SFdiv 53 1024 (double 5) (double 4).
Definition default_slabs : slabs_t :=
  default (init_classes default_settings factor_1_25 None
    {| slabclass := []; mem_limit := 0; mem_malloced := 0; mem_limit_reached := false; power_largest := 0;
       mem_base := 0; mem_current := 0; mem_avail := 0 |})
   (snd <$> slabs_init default_settings (fun _ => (0, 0)) 0 [] ∅ 67108864 factor_1_25 false None 0 false 0 0).

(** ** Free lists *)

(** A chunk on the free list of class [c] carries its mark. *)
Definition free_chunk (c : Z) (it : item) : Prop := it_flags it = ITEM_SLABBED /\ slabs_clsid it = c.

Definition freelist (h : heap) (c p : Z) (l : list Z) : Prop :=
  (exists last, dseg h 0 p l last 0) /\ forall x, x ∈ l -> free_chunk c (get h x).

Lemma freelist_ext h h' c p l : (forall x, x ∈ l -> h' !! x = h !! x) -> freelist h c p l -> freelist h' c p l.
Proof.
  intros Hx [[last Hs] Hm]. split.
  - exists last. eapply dseg_ext; [|done]. intros x Hin. by rewrite Hx.
  - intros x Hin. unfold get. rewrite Hx by done. by apply Hm.
Qed.

Lemma freelist_head h c p l : freelist h c p l -> l = [] /\ p = 0 \/ p <> 0 /\ exists l', l = p :: l'.
Proof.
  intros [[last Hs] _]. destruct l as [|x l]; [left; by destruct Hs|].
  destruct Hs as (-> & Hx & _). right. split; [done|]. by exists l.
Qed.

Lemma get_store f p h : get (store f p h) p = f (get h p).
Proof. unfold store, get at 1. by rewrite lookup_insert_eq. Qed.
Lemma store_other f p q h : q <> p -> store f p h !! q = h !! q.
Proof. intros Hne. unfold store. by rewrite lookup_insert_ne. Qed.
Lemma store_nz_other f p q h : q <> p -> store_nz f p h !! q = h !! q.
Proof. intros Hne. unfold store_nz. case_if; [done|]. by apply store_other. Qed.
Lemma get_lookup h h' q : h' !! q = h !! q -> get h' q = get h q.
Proof. intros Hq. unfold get. by rewrite Hq. Qed.

(** Storing a predecessor into the first chunk of a free list. *)
Lemma dseg_store_first h prv p l last v : NoDup l -> dseg h prv p l last 0 ->
  exists last', dseg (store_nz (set_prev v) p h) v p l last' 0.
Proof.
  destruct l as [|x l]; intros Hnd Hs.
  { destruct Hs as [-> ->]. by exists v. }
  destruct Hs as (-> & Hx0 & it & Hit & Hp & Hs). apply NoDup_cons in Hnd as [Hx Hnd].
  exists last. unfold store_nz. rewrite (proj2 (Z.eqb_neq x 0)) by done. split; [done|]. split; [done|].
  exists (set_prev v it). unfold store. rewrite lookup_insert_eq, (get_Some h x it Hit). split; [done|].
  split; [done|]. eapply dseg_ext; [|done]. intros y Hy. rewrite lookup_insert_ne; [done|]. by intros ->.
Qed.

(** A chunk goes in front of a free list: only it and the former first chunk are written. *)
Lemma push_slot_spec h s id it l : freelist h id (slots (cls s id)) l -> NoDup l -> it <> 0 -> it ∉ l ->
  free_chunk id (get h it) ->
  let '(h', s') := push_slot h s id it in
  freelist h' id it (it :: l) /\ s' = put_cls s id (set_slots it (u32 (sl_curr (cls s id) + 1)) (cls s id)) /\
  (forall q, q <> it -> q ∉ l -> h' !! q = h !! q).
Proof.
  intros Hfl Hnd Hit Hin Hmark. pose proof Hfl as [[last Hs] Hm]. unfold push_slot. set (p := slots (cls s id)) in *.
  set (h1 := store (set_next p) it (store (set_prev 0) it h)).
  assert (forall q, q <> it -> h1 !! q = h !! q) as H1.
  { intros q Hq. unfold h1. by rewrite !store_other. }
  assert (get h1 it = set_next p (set_prev 0 (get h it))) as Hg1 by (unfold h1; by rewrite !get_store).
  assert (dseg h1 0 p l last 0) as Hs1.
  { eapply dseg_ext; [|done]. intros y Hy. rewrite H1; [done|]. by intros ->. }
  assert (l = [] /\ p = 0 \/ p <> 0 /\ p ∈ l) as Hp.
  { destruct (freelist_head h id p l Hfl) as [?|[? [l' ->]]]; [by left|right; set_solver]. }
  assert (p <> it) as Hpi by (destruct Hp as [[_ ->]|[_ Hp]]; [done|by intros ->]).
  destruct (dseg_store_first h1 0 p l last it Hnd Hs1) as [last' Hs2].
  assert (forall q, q <> it -> q ∉ l -> store_nz (set_prev it) p h1 !! q = h !! q) as Hk.
  { intros q Hq Hql. rewrite <- (H1 q Hq). unfold store_nz. destruct (Z.eqb_spec p 0); [done|].
    apply store_other. intros ->. by destruct Hp as [[_ ?]|[_ ?]]. }
  split_and!; [split|done|done].
  - exists last'. split; [done|]. split; [done|]. exists (set_next p (set_prev 0 (get h it))).
    rewrite store_nz_other by done. unfold h1, store at 1. rewrite lookup_insert_eq, get_store. done.
  - intros x [-> |Hx]%elem_of_cons.
    + rewrite (get_lookup h1) by (by apply store_nz_other). by rewrite Hg1.
    + assert (x <> it) as Hxi by (by intros ->). specialize (Hm x Hx).
      rewrite <- (get_lookup h h1 x (H1 x Hxi)) in Hm. unfold store_nz. case_if; [done|].
      destruct (decide (x = p)) as [-> |]; [by rewrite get_store|]. by rewrite (get_lookup h1) by (by apply store_other).
Qed.

(** ** The class table *)

Definition class_ids (id : Z) : Prop := 0 <= id < 64.

Lemma cls_put s id id' p : length (slabclass s) = 64%nat -> class_ids id -> class_ids id' ->
  cls (put_cls s id p) id' = if decide (id' = id) then p else cls s id'.
Proof.
  intros Hl Hid Hid'. unfold class_ids in *. unfold cls, put_cls. cbn [slabclass]. rewrite !nth_lookup.
  destruct (decide (id' = id)) as [-> |Hne].
  - rewrite list_lookup_insert_eq; [done|]. lia.
  - rewrite list_lookup_insert_ne; [done|]. lia.
Qed.

Lemma length_put_cls s id p : length (slabclass (put_cls s id p)) = length (slabclass s).
Proof. unfold put_cls. cbn [slabclass]. apply length_insert. Qed.

Lemma put_put_cls s id p q : put_cls (put_cls s id p) id q = put_cls s id q.
Proof. unfold put_cls. cbn. by rewrite list_insert_insert_eq. Qed.

Lemma put_cls_id s id : length (slabclass s) = 64%nat -> class_ids id -> put_cls s id (cls s id) = s.
Proof.
  intros Hl Hid. unfold class_ids in *. unfold put_cls, cls. destruct s as [sc ? ? ? ? ? ? ?]. cbn in *.
  rewrite list_insert_id; [done|]. rewrite nth_lookup.
  destruct (lookup_lt_is_Some_2 sc (Z.to_nat id)) as [p Hp]; [lia|]. by rewrite Hp.
Qed.

(** ** Splitting a page *)

(** The addresses of the [n] chunks of size [sz] from [ptr] on. *)
Fixpoint page_chunks (ptr sz : Z) (n : nat) : list Z :=
  match n with O => [] | S n => ptr :: page_chunks (ptr + sz) sz n end.

Lemma elem_of_page_chunks x ptr sz n :
  x ∈ page_chunks ptr sz n <-> exists k, 0 <= k < Z.of_nat n /\ x = ptr + k * sz.
Proof.
  revert ptr. induction n as [|n IH]; intros ptr; cbn [page_chunks].
  - split; [intros []%not_elem_of_nil|intros (k & ? & _); lia].
  - rewrite elem_of_cons, IH. split.
    + intros [-> |(k & Hk & ->)]; [exists 0|exists (k + 1)]; split; lia.
    + intros (k & Hk & ->). destruct (decide (k = 0)) as [-> |Hne]; [left; lia|].
      right. exists (k - 1). split; lia.
Qed.

Lemma NoDup_page_chunks ptr sz n : 0 < sz -> NoDup (page_chunks ptr sz n).
Proof.
  intros Hsz. revert ptr. induction n as [|n IH]; intros ptr; cbn [page_chunks]; [apply NoDup_nil_2|].
  apply NoDup_cons_2; [|apply IH]. rewrite elem_of_page_chunks. intros (k & Hk & E). nia.
Qed.

Lemma length_page_chunks ptr sz n : length (page_chunks ptr sz n) = n.
Proof. revert ptr. induction n as [|n IH]; intros ptr; cbn [page_chunks length]; [done|]. by rewrite IH. Qed.

Section allocator.
Context (set : slab_settings) (schunk : Z -> Z * Z) (nchunks : nat).
(** The page size is a positive C integer. *)
Context (Hpage : 0 < slab_page_size set < 2 ^ 31).

Abbreviation do_free := (do_slabs_free schunk nchunks).
Abbreviation split := (split_loop schunk nchunks).

(** Freeing a chunk that is not a large item. *)
Lemma do_slabs_free_spec h s ptr id l :
  POWER_SMALLEST <= id <= power_largest s -> power_largest s < 64 -> freelist h id (slots (cls s id)) l -> NoDup l ->
  ptr <> 0 -> ptr ∉ l -> has_flag ITEM_CHUNKED (get h ptr) = false ->
  let '(h', s') := do_free h s ptr id in
  freelist h' id ptr (ptr :: l) /\ s' = put_cls s id (set_slots ptr (u32 (sl_curr (cls s id) + 1)) (cls s id)) /\
  (forall q, q <> ptr -> q ∉ l -> h' !! q = h !! q).
Proof.
  intros Hid H64 Hf Hnd Hp Hpl Hfl. unfold do_slabs_free.
  rewrite (proj2 (Z.ltb_ge _ _)), (proj2 (Z.ltb_ge _ _)), Hfl by lia. cbn [orb].
  set (h1 := store (set_clsid (u8 id)) ptr _).
  assert (forall q, q <> ptr -> h1 !! q = h !! q) as H1 by (intros q Hq; unfold h1; by rewrite !store_other).
  pose proof (push_slot_spec h1 s id ptr l) as Hpush.
  destruct (push_slot h1 s id ptr) as [h' s']. destruct Hpush as (Hf' & -> & Ho); try done.
  { eapply freelist_ext; [|done]. intros x Hx. apply H1. by intros ->. }
  { unfold h1. rewrite !get_store. split; [done|]. cbn [slabs_clsid set_clsid]. apply wrap_small.
    unfold POWER_SMALLEST in Hid. lia. }
  split_and!; [done|done|]. intros q Hq Hq'. rewrite Ho by done. by apply H1.
Qed.

Lemma split_loop_spec h s ptr id n l :
  length (slabclass s) = 64%nat -> POWER_SMALLEST <= id <= power_largest s -> power_largest s < 64 ->
  0 < sc_size (cls s id) -> 0 < ptr -> freelist h id (slots (cls s id)) l -> NoDup l ->
  sl_curr (cls s id) = u32 (Z.of_nat (length l)) ->
  (forall x, x ∈ page_chunks ptr (sc_size (cls s id)) n -> x ∉ l /\ has_flag ITEM_CHUNKED (get h x) = false) ->
  let '(h', s') := split h s ptr id n in
  exists v, s' = put_cls s id (set_slots v (u32 (Z.of_nat (length l + n))) (cls s id)) /\
    freelist h' id v (reverse (page_chunks ptr (sc_size (cls s id)) n) ++ l) /\
    (forall q, q ∉ page_chunks ptr (sc_size (cls s id)) n -> q ∉ l -> h' !! q = h !! q).
Proof.
  intros Hlen Hid Hpl Hsz. assert (class_ids id) as Hci by (unfold class_ids, POWER_SMALLEST in *; lia).
  revert h s ptr l Hlen Hid Hpl Hsz. induction n as [|n IH]; intros h s ptr l Hlen Hid Hpl Hsz Hp Hf Hnd Hcur Hx.
  - cbn [split_loop page_chunks]. exists (slots (cls s id)). rewrite Nat.add_0_r, <- Hcur. split_and!; try done.
    transitivity (put_cls s id (cls s id)); [by rewrite put_cls_id|]. f_equal. by destruct (cls s id).
  - cbn [split_loop page_chunks] in *. set (sz := sc_size (cls s id)) in *.
    destruct (Hx ptr ltac:(left)) as [Hpin Hpf].
    pose proof (do_slabs_free_spec h s ptr id l Hid Hpl Hf Hnd ltac:(lia) Hpin Hpf) as Hfree.
    destruct (do_free h s ptr id) as [h1 s1]. destruct Hfree as (Hf1 & Hs1 & Ho).
    assert (cls s1 id = set_slots ptr (u32 (sl_curr (cls s id) + 1)) (cls s id)) as Hc1.
    { subst s1. rewrite cls_put by done. by rewrite decide_True. }
    assert (sc_size (cls s1 id) = sz) as Hsz1 by (by rewrite Hc1).
    specialize (IH h1 s1 (ptr + sz) (ptr :: l)). rewrite Hsz1 in *.
    pose proof (NoDup_page_chunks ptr sz (S n) Hsz) as Hndc. cbn [page_chunks] in Hndc.
    apply NoDup_cons in Hndc as [Hpc Hndc].
    assert (forall q, q ∉ l -> q <> ptr -> get h1 q = get h q) as Hg by (intros q Hq1 Hq2; by apply get_lookup, Ho).
    destruct (split h1 s1 (ptr + sz) id n) as [h' s']. destruct IH as (v & Hs' & Hf' & Ho1).
    + subst s1. by rewrite length_put_cls.
    + by subst s1.
    + by subst s1.
    + done.
    + lia.
    + by rewrite Hc1.
    + by apply NoDup_cons_2.
    + rewrite Hc1. cbn [sl_curr set_slots length]. rewrite Hcur, wrap_add_l. f_equal. lia.
    + intros x Hxn. destruct (Hx x ltac:(by right)) as [Hxl Hxf].
      assert (x <> ptr) by (by intros ->). split; [set_solver|]. by rewrite Hg.
    + exists v. split_and!.
      * rewrite Hs', Hc1. subst s1. rewrite put_put_cls. f_equal. cbn [length].
        unfold set_slots. cbn. do 3 f_equal. lia.
      * by rewrite reverse_cons, <- app_assoc.
      * intros q [Hq1 Hq2]%not_elem_of_cons Hq3. rewrite Ho1, Ho; [done|done|done|done|].
        by apply not_elem_of_cons.
Qed.

(** ** Pages *)

Definition pages (s : slabs_t) (id : Z) : list Z := take (Z.to_nat (sc_slabs (cls s id))) (slab_list (cls s id)).
Definition class_chunks (s : slabs_t) (id : Z) : list Z :=
  concat (map (fun p => page_chunks p (sc_size (cls s id)) (Z.to_nat (perslab (cls s id)))) (pages s id)).

(** The bytes of a page: a start and a length. *)
Definition page_len (s : slabs_t) (id : Z) : Z :=
  if id =? SLAB_GLOBAL_PAGE_POOL then slab_page_size set else newslab_len set s id.
Definition class_regions (s : slabs_t) (id : Z) : list (Z * Z) := map (fun p => (p, page_len s id)) (pages s id).
Definition regions (s : slabs_t) : list (Z * Z) := concat (map (class_regions s) (seqZ 0 64)).

Definition disj (a b : Z * Z) : Prop := a.1 + a.2 <= b.1 \/ b.1 + b.2 <= a.1.
Fixpoint pairwise (l : list (Z * Z)) : Prop :=
  match l with [] => True | a :: l => (forall b, b ∈ l -> disj a b) /\ pairwise l end.

Lemma disj_sym a b : disj a b -> disj b a.
Proof. unfold disj. tauto. Qed.

#[local] Instance pairwise_perm : Proper ((≡ₚ) ==> iff) pairwise.
Proof.
  assert (forall l l', l ≡ₚ l' -> pairwise l -> pairwise l') as H.
  { intros l l' Hp. induction Hp as [|a l l' Hp IH|a b l|l1 l2 l3 _ IH1 _ IH2]; cbn [pairwise]; [done| | |tauto].
    - intros [Ha Hl]. split; [|by apply IH]. intros b Hb. apply Ha. by rewrite Hp.
    - intros (Hb & Ha & Hl). split_and!; [|intros c Hc; apply Hb; by right|done].
      intros c [-> |Hc]%elem_of_cons; [apply disj_sym, Hb; by left|by apply Ha]. }
  intros l l' Hp. split; apply H; [done|by symmetry].
Qed.

(** The regions of one class and of all the others. *)
Lemma regions_split s id : class_ids id ->
  regions s ≡ₚ class_regions s id ++ concat (map (class_regions s) (remove id (seqZ 0 64))).
Proof.
  intros Hid. unfold regions.
  assert (id ∈ seqZ 0 64) as (l1 & l2 & E)%list_elem_of_split by (apply elem_of_seqZ; unfold class_ids in Hid; lia).
  pose proof (NoDup_seqZ 0 64) as Hnd. rewrite E in *. rewrite remove_split by done.
  rewrite !map_app, !concat_app. cbn [map concat]. rewrite app_assoc, (Permutation_app_comm (concat _) (class_regions s id)).
  by rewrite app_assoc.
Qed.

Lemma elem_of_regions s r : r ∈ regions s <-> exists id p, class_ids id /\ p ∈ pages s id /\ r = (p, page_len s id).
Proof.
  unfold regions, class_regions. rewrite list_elem_of_In, in_concat. split.
  - intros (l & (id & <- & Hid)%in_map_iff & (p & <- & Hp)%in_map_iff). exists id, p.
    rewrite list_elem_of_In. split_and!; try done. apply list_elem_of_In, elem_of_seqZ in Hid. unfold class_ids. lia.
  - intros (id & p & Hid & Hp & ->). exists (map (fun p => (p, page_len s id)) (pages s id)). split.
    + apply in_map_iff. exists id. split; [done|]. apply list_elem_of_In, elem_of_seqZ. unfold class_ids in Hid. lia.
    + apply in_map_iff. exists p. split; [done|]. by apply list_elem_of_In.
Qed.

Lemma elem_of_class_chunks s id x : x ∈ class_chunks s id <->
  exists p k, p ∈ pages s id /\ 0 <= k < Z.of_nat (Z.to_nat (perslab (cls s id))) /\ x = p + k * sc_size (cls s id).
Proof.
  unfold class_chunks. rewrite list_elem_of_In, in_concat. split.
  - intros (l & (p & <- & Hp)%in_map_iff & Hx). apply list_elem_of_In, elem_of_page_chunks in Hx as (k & Hk & ->).
    exists p, k. by rewrite list_elem_of_In.
  - intros (p & k & Hp & Hk & ->). eexists. split; [apply in_map_iff; exists p; split; [done|by apply list_elem_of_In]|].
    apply list_elem_of_In, elem_of_page_chunks. by exists k.
Qed.

(** ** The invariant *)

(** [F] are the free chunks of the classes, [U] those in use; [loose] are pages that
    belong to no class at the moment. *)
Record sinv (loose : list (Z * Z)) (h : heap) (s : slabs_t) (F U : Z -> list Z) : Prop := {
  si_len : length (slabclass s) = 64%nat;
  si_largest : POWER_SMALLEST <= power_largest s < 64;
  si_class : forall id, POWER_SMALLEST <= id <= power_largest s ->
    0 < sc_size (cls s id) /\ 0 < perslab (cls s id) /\ sc_size (cls s id) * perslab (cls s id) <= slab_page_size set;
  si_list : forall id, class_ids id -> 0 <= sc_slabs (cls s id) <= list_size (cls s id) /\
    list_size (cls s id) < 2 ^ 32 /\ Z.of_nat (length (slab_list (cls s id))) = list_size (cls s id);
  si_free : forall id, POWER_SMALLEST <= id <= power_largest s ->
    freelist h id (slots (cls s id)) (F id) /\ sl_curr (cls s id) = u32 (Z.of_nat (length (F id)));
  si_chunks : forall id, POWER_SMALLEST <= id <= power_largest s -> F id ++ U id ≡ₚ class_chunks s id;
  si_others : forall id, ~ POWER_SMALLEST <= id <= power_largest s -> U id = [] /\ F id = [];
  si_pos : forall r, r ∈ loose ++ regions s -> 0 < r.1;
  si_disj : pairwise (loose ++ regions s);
  si_base : mem_base s <> 0 -> 0 < mem_current s /\ forall r, r ∈ loose ++ regions s -> r.1 + r.2 <= mem_current s
}.

Lemma page_len_bounds loose h s F U id : sinv loose h s F U -> POWER_SMALLEST <= id <= power_largest s ->
  sc_size (cls s id) * perslab (cls s id) <= page_len s id <= slab_page_size set.
Proof.
  intros Hi Hid. destruct (si_class _ _ _ _ _ Hi id Hid) as (Hsz & Hper & Hle).
  unfold page_len, POWER_SMALLEST, SLAB_GLOBAL_PAGE_POOL in *. rewrite (proj2 (Z.eqb_neq id 0)) by lia.
  unfold newslab_len. destruct (_ || _); [lia|]. rewrite wrap_small; [lia|]. nia.
Qed.

Definition same_size (p p' : slabclass_t) : Prop := sc_size p' = sc_size p /\ perslab p' = perslab p.
Definition page_list (p : slabclass_t) : list Z := take (Z.to_nat (sc_slabs p)) (slab_list p).
Definition chunk_list (p : slabclass_t) : list Z :=
  concat (map (fun q => page_chunks q (sc_size p) (Z.to_nat (perslab p))) (page_list p)).

Lemma page_len_put s id id' p' : length (slabclass s) = 64%nat -> class_ids id -> class_ids id' ->
  same_size (cls s id) p' -> page_len (put_cls s id p') id' = page_len s id'.
Proof.
  intros Hl Hid Hid' [Hs Hp]. unfold page_len, newslab_len. rewrite cls_put by done.
  destruct (decide (id' = id)) as [-> |]; [|done]. by rewrite Hs, Hp.
Qed.

(** A page behind the others in the page list. *)
Lemma take_push ptr p : 0 <= sc_slabs p < list_size p -> list_size p < 2 ^ 32 ->
  Z.of_nat (length (slab_list p)) = list_size p ->
  take (Z.to_nat (u32 (sc_slabs p + 1))) (<[Z.to_nat (sc_slabs p) := ptr]> (slab_list p))
  = take (Z.to_nat (sc_slabs p)) (slab_list p) ++ [ptr].
Proof.
  intros H1 H2 H3. rewrite wrap_small by lia.
  replace (Z.to_nat (sc_slabs p + 1)) with (S (Z.to_nat (sc_slabs p))) by lia.
  rewrite (take_S_r _ _ ptr) by (apply list_lookup_insert_eq; lia). f_equal. apply take_insert_ge. lia.
Qed.

(** The regions after one class has changed. *)
Lemma regions_put s id p' : length (slabclass s) = 64%nat -> class_ids id -> same_size (cls s id) p' ->
  regions (put_cls s id p') ≡ₚ
    map (fun p => (p, page_len s id)) (page_list p') ++ concat (map (class_regions s) (remove id (seqZ 0 64))).
Proof.
  intros Hl Hid Hsame. rewrite (regions_split _ id Hid). apply Permutation_app.
  - unfold class_regions, pages. rewrite page_len_put, cls_put by done. by rewrite decide_True.
  - apply reflexive_eq. f_equal. apply map_ext_in. intros i Hi%list_elem_of_In. unfold remove in Hi.
    apply list_elem_of_filter in Hi as [Hne Hi%elem_of_seqZ]. assert (class_ids i) by (unfold class_ids; lia).
    unfold class_regions, pages. rewrite page_len_put, cls_put by done. by rewrite decide_False.
Qed.

(** Changing one class: what has to be shown for it, and nothing for the others. *)
Lemma sinv_update loose loose' h h' s F U id p' F' U' :
  sinv loose h s F U -> class_ids id -> same_size (cls s id) p' ->
  0 <= sc_slabs p' <= list_size p' /\ list_size p' < 2 ^ 32 /\ Z.of_nat (length (slab_list p')) = list_size p' ->
  loose' ++ map (fun p => (p, page_len s id)) (page_list p') ≡ₚ loose ++ class_regions s id ->
  (POWER_SMALLEST <= id <= power_largest s ->
    freelist h' id (slots p') F' /\ sl_curr p' = u32 (Z.of_nat (length F')) /\ F' ++ U' ≡ₚ chunk_list p') ->
  (~ POWER_SMALLEST <= id <= power_largest s -> U' = [] /\ F' = []) ->
  (forall id' x, id' <> id -> x ∈ F id' -> h' !! x = h !! x) ->
  sinv loose' h' (put_cls s id p') (upd F id F') (upd U id U').
Proof.
  intros Hi Hid Hsame Hlist Hreg Hcl Hno Hother. pose proof (si_len _ _ _ _ _ Hi) as Hl.
  assert (loose' ++ regions (put_cls s id p') ≡ₚ loose ++ regions s) as Hregs.
  { rewrite (regions_put s id p'), (regions_split s id) by done. by rewrite !app_assoc, Hreg. }
  destruct Hi as [_ Hpl Hc Hls Hf Hch Ho Hpos Hd Hb]. unfold upd.
  assert (forall i, POWER_SMALLEST <= i <= power_largest s -> class_ids i) as Hids
    by (intros i Hi; unfold class_ids, POWER_SMALLEST in *; lia).
  split; change (power_largest (put_cls s id p')) with (power_largest s); try done.
  - by rewrite length_put_cls.
  - intros i Hi. specialize (Hids i Hi). rewrite cls_put by done. case_decide; [subst i|by apply Hc].
    destruct Hsame as [-> ->]. by apply Hc.
  - intros i Hi. rewrite cls_put by done. case_decide; [done|by apply Hls].
  - intros i Hi. specialize (Hids i Hi). rewrite cls_put by done. case_decide as Hd'; [subst i; by destruct (Hcl Hi) as (? & ? & _)|].
    destruct (Hf i Hi) as [Hfi Hsi]. split; [|done]. eapply freelist_ext; [|done]. intros x Hx. by apply (Hother i).
  - intros i Hi. specialize (Hids i Hi). case_decide as Hd'.
    + subst i. destruct (Hcl Hi) as (_ & _ & ->). unfold class_chunks, chunk_list, pages, page_list.
      rewrite cls_put by done. by rewrite decide_True.
    + rewrite (Hch i Hi). unfold class_chunks, pages. rewrite cls_put by done. by rewrite decide_False.
  - intros i Hi. case_decide; [subst i; by apply Hno|by apply Ho].
  - intros r. rewrite Hregs. apply Hpos.
  - by rewrite Hregs.
  - intros Hm. destruct (Hb Hm) as [Hm1 Hm2]. split; [done|]. intros r. rewrite Hregs. apply Hm2.
Qed.

(** The accounting variables do not matter, [mem_current] apart. *)
Lemma sinv_mem loose h s F U s' : sinv loose h s F U ->
  slabclass s' = slabclass s -> power_largest s' = power_largest s -> mem_base s' = mem_base s ->
  (mem_base s <> 0 -> mem_current s <= mem_current s') -> sinv loose h s' F U.
Proof.
  intros Hi Hc Hp Hb Hcur. assert (forall id, cls s' id = cls s id) as Hcls by (intros id; unfold cls; by rewrite Hc).
  assert (forall id, page_len s' id = page_len s id) as Hpl
    by (intros id; unfold page_len, newslab_len; by rewrite Hcls).
  assert (regions s' = regions s) as Hr.
  { unfold regions. f_equal. apply map_ext. intros id. unfold class_regions, pages. by rewrite Hcls, Hpl. }
  destruct Hi as [Hl Hpl' Hcc Hls Hf Hch Ho Hpos Hd Hbb]. split; rewrite ?Hc, ?Hp, ?Hb, ?Hr; try done.
  - intros id. rewrite Hcls. apply Hcc.
  - intros id. rewrite Hcls. apply Hls.
  - intros id. rewrite Hcls. apply Hf.
  - intros id Hid. rewrite (Hch id Hid). unfold class_chunks, pages. by rewrite Hcls.
  - intros Hm. destruct (Hbb Hm) as [H1 H2]. specialize (Hcur Hm). split; [lia|]. intros r Hrr.
    specialize (H2 r Hrr). lia.
Qed.

(** A page that is in hand becomes smaller. *)
Lemma sinv_shrink h s F U p n n' : sinv [(p, n)] h s F U -> n' <= n -> sinv [(p, n')] h s F U.
Proof.
  intros [Hl Hpl Hcc Hls Hf Hch Ho Hpos Hd Hbb] Hn. split; try done.
  - intros r [-> |Hr]%elem_of_cons; [by apply (Hpos (p, n)); left|apply Hpos; by right].
  - destruct Hd as [Hd1 Hd2]. split; [|done]. intros b Hb. destruct (Hd1 b Hb) as [H|H]; [left|right]; cbn in *; lia.
  - intros Hm. destruct (Hbb Hm) as [H1 H2]. split; [done|]. intros r [-> |Hr]%elem_of_cons; [|apply H2; by right].
    specialize (H2 (p, n) ltac:(left)). cbn in *. lia.
Qed.

Lemma sinv_feq loose h s F U F' U' : (forall id, F' id = F id) -> (forall id, U' id = U id) ->
  sinv loose h s F U -> sinv loose h s F' U'.
Proof.
  intros HF HU [Hl Hpl Hcc Hls Hf Hch Ho Hpos Hd Hbb].
  split; try done; intros id; rewrite ?HF, ?HU; [apply Hf|apply Hch|apply Ho].
Qed.

Lemma upd_id (F : Z -> list Z) id i : F i = upd F id (F id) i.
Proof. unfold upd. case_decide; by subst. Qed.

(** Where the chunks of a class lie. *)
Lemma chunk_in_page loose h s F U id x : sinv loose h s F U -> POWER_SMALLEST <= id <= power_largest s ->
  x ∈ F id ++ U id -> exists p, p ∈ pages s id /\ p <= x /\ x + sc_size (cls s id) <= p + page_len s id /\
    (p, page_len s id) ∈ regions s.
Proof.
  intros Hi Hid Hx. rewrite (si_chunks _ _ _ _ _ Hi id Hid) in Hx.
  apply elem_of_class_chunks in Hx as (p & k & Hp & Hk & ->). exists p.
  pose proof (page_len_bounds _ _ _ _ _ id Hi Hid). destruct (si_class _ _ _ _ _ Hi id Hid) as (Hs & Hper & _).
  split_and!; [done|nia|nia|]. apply elem_of_regions. exists id, p. split_and!; try done.
  pose proof (si_largest _ _ _ _ _ Hi). unfold class_ids, POWER_SMALLEST in *. lia.
Qed.

Lemma chunk_class h s loose F U id x : sinv loose h s F U -> x ∈ F id ++ U id -> POWER_SMALLEST <= id <= power_largest s.
Proof.
  intros Hi Hx. destruct (decide (POWER_SMALLEST <= id <= power_largest s)) as [|Hn]; [done|].
  destruct (si_others _ _ _ _ _ Hi id Hn) as [E1 E2]. rewrite E1, E2 in Hx. by apply not_elem_of_nil in Hx.
Qed.

(** No chunk lies in a page that is in hand. *)
Lemma chunk_outside_loose h s F U p n id x : sinv [(p, n)] h s F U -> x ∈ F id ++ U id -> ~ p <= x < p + n.
Proof.
  intros Hi Hx. pose proof (chunk_class _ _ _ _ _ _ _ Hi Hx) as Hid.
  destruct (chunk_in_page _ _ _ _ _ _ _ Hi Hid Hx) as (q & _ & H1 & H2 & Hr).
  destruct (si_class _ _ _ _ _ Hi id Hid) as (Hs & _).
  destruct (si_disj _ _ _ _ _ Hi) as [Hd _]. specialize (Hd _ Hr). unfold disj in Hd. cbn in Hd. lia.
Qed.

Lemma grow_slab_list_spec e loose h s F U id : sinv loose h s F U -> class_ids id ->
  (e_realloc e = true -> sc_slabs (cls s id) < 2 ^ 30) ->
  let '(b, s') := grow_slab_list e s id in
  sinv loose h s' F U /\ (b = true -> sc_slabs (cls s' id) < list_size (cls s' id)) /\
  newslab_len set s' id = newslab_len set s id /\ power_largest s' = power_largest s /\ mem_base s' = mem_base s /\
  sc_slabs (cls s' id) = sc_slabs (cls s id) /\ regions s' ≡ₚ regions s.
Proof.
  intros Hi Hid Hb. unfold grow_slab_list. pose proof (si_list _ _ _ _ _ Hi id Hid) as (Hs & Hl32 & Hl).
  pose proof (si_len _ _ _ _ _ Hi) as Hlen.
  destruct (Z.eqb_spec (sc_slabs (cls s id)) (list_size (cls s id))) as [E|E]; [|split_and!; try done; lia].
  destruct (e_realloc e); [specialize (Hb eq_refl)|split_and!; done].
  set (n := if list_size (cls s id) =? 0 then 16 else u32 (list_size (cls s id) * 2)).
  assert (list_size (cls s id) < n < 2 ^ 32) as Hn.
  { unfold n. destruct (Z.eqb_spec (list_size (cls s id)) 0) as [->|]; [lia|]. rewrite wrap_small; lia. }
  set (p' := set_list _ _ _ _).
  assert (page_list p' = pages s id) as Hpl.
  { unfold page_list, pages, p'. cbn [sc_slabs slab_list set_list].
    rewrite resize_spec, (take_ge (slab_list (cls s id)) (Z.to_nat n)) by lia. by rewrite take_app_le by lia. }
  assert (same_size (cls s id) p') as Hsame by done.
  assert (cls (put_cls s id p') id = p') as Hc by (rewrite cls_put by done; by rewrite decide_True).
  split_and!; try done.
  - eapply sinv_feq; [apply (upd_id F id)|apply (upd_id U id)|].
    apply (sinv_update loose loose h h s F U id p' (F id) (U id) Hi Hid Hsame); try done.
    + unfold p'. cbn [sc_slabs list_size slab_list set_list]. rewrite length_resize. lia.
    + by rewrite Hpl.
    + intros Hr. destruct (si_free _ _ _ _ _ Hi id Hr). split_and!; try done.
      rewrite (si_chunks _ _ _ _ _ Hi id Hr). unfold class_chunks, chunk_list. by rewrite Hpl.
    + apply (si_others _ _ _ _ _ Hi).
  - intros _. rewrite Hc. unfold p'. cbn [sc_slabs list_size set_list]. lia.
  - unfold newslab_len. by rewrite Hc.
  - by rewrite Hc.
  - rewrite (regions_put s id p'), (regions_split s id), Hpl by done. done.
Qed.

Lemma pool_spec h s F U : sinv [] h s F U ->
  let '(p, s') := get_page_from_global_pool s in
  (p = 0 /\ s' = s) \/
  (0 < p /\ sinv [(p, slab_page_size set)] h s' F U /\ power_largest s' = power_largest s /\
   (forall id, POWER_SMALLEST <= id < 64 -> cls s' id = cls s id)).
Proof.
  intros Hi. unfold get_page_from_global_pool, SLAB_GLOBAL_PAGE_POOL.
  assert (class_ids 0) as H0 by (unfold class_ids; lia). pose proof (si_list _ _ _ _ _ Hi 0 H0) as (Hs & Hl32 & Hl).
  pose proof (si_len _ _ _ _ _ Hi) as Hlen. destruct (Z.ltb_spec (sc_slabs (cls s 0)) 1) as [|Hge]; [by left|].
  right. set (n := Z.to_nat (sc_slabs (cls s 0) - 1)).
  assert (pages s 0 = take n (slab_list (cls s 0)) ++ [nth n (slab_list (cls s 0)) 0]) as Hp.
  { unfold pages. replace (Z.to_nat (sc_slabs (cls s 0))) with (S n) by lia.
    rewrite nth_lookup. destruct (lookup_lt_is_Some_2 (slab_list (cls s 0)) n) as [q Hq]; [lia|].
    rewrite Hq. by apply take_S_r. }
  set (p := nth n _ 0) in *. set (p' := set_list _ _ _ _).
  assert (same_size (cls s 0) p') as Hsame by done.
  assert (page_list p' = take n (slab_list (cls s 0))) as Hpl by done.
  assert (0 < p) as Hpos.
  { apply (si_pos _ _ _ _ _ Hi (p, page_len s 0)). apply elem_of_regions. exists 0, p. rewrite Hp. set_solver. }
  split_and!; [done| |done|].
  - eapply sinv_feq; [apply (upd_id F 0)|apply (upd_id U 0)|].
    apply (sinv_update [] _ h h s F U 0 p' (F 0) (U 0) Hi H0 Hsame); try done.
    + unfold p'. cbn [sc_slabs list_size slab_list set_list]. lia.
    + unfold class_regions. rewrite Hpl, Hp, map_app. apply Permutation_cons_append.
    + unfold POWER_SMALLEST. lia.
    + apply (si_others _ _ _ _ _ Hi).
  - intros id Hid. unfold POWER_SMALLEST in Hid. rewrite cls_put; [|done|done|unfold class_ids; lia].
    rewrite decide_False by lia. done.
Qed.

(** What [malloc] promises: null, or memory that belongs to nobody. *)
Definition malloc_fresh (e : env) (s : slabs_t) (len : Z) : Prop :=
  e_malloc e = 0 \/ 0 < e_malloc e /\ forall r, r ∈ regions s -> disj (e_malloc e, len) r.

Lemma memory_allocate_spec e h s F U size : sinv [] h s F U -> 0 < size -> malloc_fresh e s size ->
  let '(p, s') := memory_allocate e s size in
  power_largest s' = power_largest s /\ slabclass s' = slabclass s /\
  (p = 0 /\ sinv [] h s' F U \/ 0 < p /\ sinv [(p, size)] h s' F U).
Proof.
  intros Hi Hsz Hm. unfold memory_allocate. destruct (Z.eqb_spec (mem_base s) 0) as [Hb|Hb].
  - set (s' := set_mem _ _ _ _ _ s). split; [done|]. split; [done|].
    assert (sinv [] h s' F U) as Hi' by (by apply (sinv_mem _ _ s)).
    destruct Hm as [-> |[Hp Hd]]; [by left|]. right. split; [done|].
    destruct Hi' as [Hl Hpl Hcc Hls Hf Hch Ho Hpos Hdj Hbb]. split; try done.
    + intros r [-> |Hr]%elem_of_cons; [done|by apply Hpos].
  - destruct (Z.ltb_spec (mem_avail s) size) as [|Hav]; [split_and!; by try left|].
    set (size' := if size mod CHUNK_ALIGN_BYTES =? 0 then size else _).
    assert (size <= size') as Hs'.
    { unfold size', CHUNK_ALIGN_BYTES. case_if; [lia|]. pose proof (Z.mod_pos_bound size 8). lia. }
    set (s' := set_mem _ _ _ _ _ s). split; [done|]. split; [done|]. right.
    destruct (si_base _ _ _ _ _ Hi Hb) as [Hcur Hend]. split; [done|].
    assert (sinv [] h s' F U) as Hi'. { apply (sinv_mem _ _ s); try done. cbn. lia. }
    assert (regions s' = regions s) as Hreg by done.
    destruct Hi' as [Hl Hpl Hcc Hls Hf Hch Ho Hpos Hdj Hbb]. split; try done.
    + intros r [-> |Hr]%elem_of_cons; [done|by apply Hpos].
    + split; [|done]. intros r Hr. right. cbn. rewrite Hreg in Hr. by apply Hend.
    + intros _. split; [cbn; lia|]. intros r [-> |Hr]%elem_of_cons; [cbn; lia|].
      rewrite Hreg in Hr. specialize (Hend r Hr). cbn. lia.
Qed.

Lemma memset0_inside ptr len h q : ptr <= q < ptr + len -> get (memset0 ptr len h) q = blank_item.
Proof.
  intros Hq. unfold get, memset0. rewrite map_lookup_filter_None_2; [done|]. right. intros it _ Hn. by apply Hn.
Qed.
Lemma memset0_outside ptr len h q : ~ ptr <= q < ptr + len -> memset0 ptr len h !! q = h !! q.
Proof.
  intros Hq. unfold memset0. destruct (h !! q) as [it|] eqn:E.
  - apply map_lookup_filter_Some. done.
  - apply map_lookup_filter_None. by left.
Qed.

Lemma pairwise_app l1 l2 : pairwise (l1 ++ l2) <->
  pairwise l1 /\ pairwise l2 /\ forall a b, a ∈ l1 -> b ∈ l2 -> disj a b.
Proof.
  induction l1 as [|a l1 IH]; cbn [app pairwise].
  - split; [intros H; split_and!; try done; by intros a b []%not_elem_of_nil|tauto].
  - rewrite IH. split.
    + intros (Ha & H1 & H2 & H3). split_and!; try done; [intros b Hb; apply Ha; set_solver|].
      intros c b [-> |Hc]%elem_of_cons Hb; [apply Ha; set_solver|by apply H3].
    + intros ((Ha & H1) & H2 & H3). split_and!; try done.
      * intros b [Hb|Hb]%elem_of_app; [by apply Ha|apply H3; [left|done]].
      * intros c b Hc Hb. apply H3; [by right|done].
Qed.

Lemma NoDup_chunks sz per n l : 0 < sz -> sz * Z.of_nat per <= n -> pairwise (map (fun p => (p, n)) l) ->
  NoDup (concat (map (fun p => page_chunks p sz per) l)).
Proof.
  intros Hsz Hn. induction l as [|p l IH]; cbn [map concat pairwise]; [intros _; apply NoDup_nil_2|].
  intros [Hd Hl]. apply NoDup_app. split_and!; [by apply NoDup_page_chunks| |by apply IH].
  intros x (k & Hk & Hx)%elem_of_page_chunks Hin. apply list_elem_of_In, in_concat in Hin as (c & (q & <- & Hq)%in_map_iff & Hc).
  apply list_elem_of_In, elem_of_page_chunks in Hc as (k' & Hk' & Hx').
  assert (disj (p, n) (q, n)) as [H|H]; [|cbn in H; nia|cbn in H; nia].
  apply Hd. apply list_elem_of_In, in_map_iff. by exists q.
Qed.

Lemma NoDup_class loose h s F U id : sinv loose h s F U -> POWER_SMALLEST <= id <= power_largest s ->
  NoDup (F id ++ U id).
Proof.
  intros Hi Hid. rewrite (si_chunks _ _ _ _ _ Hi id Hid). pose proof (page_len_bounds _ _ _ _ _ id Hi Hid).
  destruct (si_class _ _ _ _ _ Hi id Hid) as (Hsz & Hper & _). pose proof (si_largest _ _ _ _ _ Hi).
  apply (NoDup_chunks _ _ (page_len s id)); [done|lia|].
  pose proof (si_disj _ _ _ _ _ Hi) as (_ & Hd & _)%pairwise_app.
  rewrite (regions_split s id) in Hd by (unfold class_ids, POWER_SMALLEST in *; lia). by apply pairwise_app in Hd as [? _].
Qed.

(** Two chunks have no byte in common, whatever their classes. *)
Lemma chunks_disjoint loose h s F U i j x y : sinv loose h s F U -> x ∈ F i ++ U i -> y ∈ F j ++ U j ->
  (i, x) <> (j, y) -> disj (x, sc_size (cls s i)) (y, sc_size (cls s j)).
Proof.
  intros Hi Hx Hy Hne. pose proof (chunk_class _ _ _ _ _ _ _ Hi Hx) as Hci.
  pose proof (chunk_class _ _ _ _ _ _ _ Hi Hy) as Hcj. pose proof (si_largest _ _ _ _ _ Hi).
  assert (class_ids i) as Hidi by (unfold class_ids, POWER_SMALLEST in *; lia).
  destruct (si_class _ _ _ _ _ Hi i Hci) as (Hs & _).
  pose proof (si_disj _ _ _ _ _ Hi) as (_ & Hd & _)%pairwise_app.
  rewrite (regions_split s i) in Hd by done. apply pairwise_app in Hd as (Hdi & _ & Hd).
  destruct (decide (i = j)) as [<- |Hij].
  - assert (x <> y) as Hxy by congruence. pose proof (page_len_bounds _ _ _ _ _ i Hi Hci).
    rewrite (si_chunks _ _ _ _ _ Hi i Hci) in Hx, Hy.
    apply elem_of_class_chunks in Hx as (p & k & Hp & Hk & ->). apply elem_of_class_chunks in Hy as (q & k' & Hq & Hk' & ->).
    destruct (decide (p = q)) as [<- |Hpq].
    { unfold disj. cbn. destruct (Z.lt_total k k') as [|[-> |]]; [left; nia|done|right; nia]. }
    assert (disj (p, page_len s i) (q, page_len s i)) as Hdj; [|destruct Hdj as [Hdj|Hdj]; cbn in Hdj; [left|right]; cbn; nia].
    apply list_elem_of_lookup in Hp as [a Ha]. apply list_elem_of_lookup in Hq as [b Hb]. unfold class_regions in Hdi.
    revert Hdi Ha Hb. generalize (pages s i) as l. intros l. revert a b.
    induction l as [|c l IH]; intros a b Hpw Ha Hb; [by rewrite lookup_nil in Ha|]. destruct Hpw as [Hh Ht].
    destruct a as [|a], b as [|b]; cbn in Ha, Hb.
    + congruence.
    + injection Ha as ->. apply Hh, list_elem_of_In, in_map_iff. exists q. split; [done|]. by eapply list_elem_of_In, list_elem_of_lookup_2.
    + injection Hb as ->. apply disj_sym, Hh, list_elem_of_In, in_map_iff. exists p. split; [done|]. by eapply list_elem_of_In, list_elem_of_lookup_2.
    + by apply (IH a b).
  - destruct (chunk_in_page _ _ _ _ _ i x Hi Hci Hx) as (p1 & Hp1 & ? & ? & Hr1).
    destruct (chunk_in_page _ _ _ _ _ j y Hi Hcj Hy) as (p2 & Hp2 & ? & ? & Hr2).
    assert (disj (p1, page_len s i) (p2, page_len s j)) as Hdj; [|unfold disj in *; cbn in *; lia].
    apply Hd.
    + apply list_elem_of_In, in_map_iff. exists p1. split; [done|]. by apply list_elem_of_In.
    + apply list_elem_of_In, in_concat. exists (class_regions s j). split.
      * apply in_map_iff. exists j. split; [done|]. apply list_elem_of_In. unfold remove.
        apply list_elem_of_filter. split; [done|]. apply elem_of_seqZ. unfold POWER_SMALLEST in *. lia.
      * apply in_map_iff. exists p2. split; [done|]. by apply list_elem_of_In.
Qed.

Lemma chunk_one_class loose h s F U i j x : sinv loose h s F U -> x ∈ F i ++ U i -> x ∈ F j ++ U j -> i = j.
Proof.
  intros Hi Hx Hy. destruct (decide (i = j)) as [|Hne]; [done|].
  pose proof (chunks_disjoint _ _ _ _ _ i j x x Hi Hx Hy ltac:(congruence)) as Hd.
  destruct (si_class _ _ _ _ _ Hi i (chunk_class _ _ _ _ _ _ _ Hi Hx)) as (? & _).
  destruct (si_class _ _ _ _ _ Hi j (chunk_class _ _ _ _ _ _ _ Hi Hy)) as (? & _).
  unfold disj in Hd. cbn in Hd. lia.
Qed.

(** A page in hand becomes chunks of a class: their free list grows by all of them, and
    no chunk in use is written. *)
Lemma page_into_class h s F U id ptr : sinv [(ptr, newslab_len set s id)] h s F U ->
  POWER_SMALLEST <= id <= power_largest s -> sc_slabs (cls s id) < list_size (cls s id) ->
  let '(h', s') := split_slab_page_into_freelist schunk nchunks (memset0 ptr (newslab_len set s id) h) s ptr id in
  exists F', sinv [] h' (push_page s' id ptr) (upd F id F') U /\ Z.of_nat (length F') = Z.of_nat (length (F id)) + perslab (cls s id) /\
  power_largest s' = power_largest s /\
  forall id' q, q ∈ U id' -> h' !! q = h !! q.
Proof.
  intros Hi Hid Hroom. pose proof (si_largest _ _ _ _ _ Hi) as Hpl. pose proof (si_len _ _ _ _ _ Hi) as Hlen.
  destruct (si_class _ _ _ _ _ Hi id Hid) as (Hsz & Hper & _).
  assert (class_ids id) as Hci by (unfold class_ids, POWER_SMALLEST in *; lia).
  assert (page_len s id = newslab_len set s id) as Hple.
  { unfold page_len, SLAB_GLOBAL_PAGE_POOL, POWER_SMALLEST in *. by rewrite (proj2 (Z.eqb_neq id 0)) by lia. }
  pose proof (page_len_bounds _ _ _ _ _ id Hi Hid) as Hlb. rewrite Hple in Hlb.
  set (len := newslab_len set s id) in *. set (h1 := memset0 ptr len h).
  assert (0 < ptr) as Hptr by (apply (si_pos _ _ _ _ _ Hi (ptr, len)); left).
  destruct (si_free _ _ _ _ _ Hi id Hid) as [Hfl Hcur].
  assert (forall i q, q ∈ F i ++ U i -> ~ ptr <= q < ptr + len) as Hout
    by (intros i q Hq; by eapply chunk_outside_loose).
  assert (NoDup (F id)) as Hnd by (pose proof (NoDup_class _ _ _ _ _ id Hi Hid) as Hn; by apply NoDup_app in Hn as [? _]).
  set (n := Z.to_nat (perslab (cls s id))). set (sz := sc_size (cls s id)) in *.
  assert (forall x, x ∈ page_chunks ptr sz n -> ptr <= x < ptr + len) as Hin.
  { intros x (k & Hk & ->)%elem_of_page_chunks. nia. }
  pose proof (split_loop_spec h1 s ptr id n (F id) Hlen Hid ltac:(lia) Hsz Hptr) as Hsplit.
  unfold split_slab_page_into_freelist. fold n. destruct (split h1 s ptr id n) as [h' s'].
  destruct Hsplit as (v & -> & Hf' & Ho); try done.
  { eapply freelist_ext; [|done]. intros x Hx. apply memset0_outside. apply (Hout id). set_solver. }
  { intros x Hx%Hin. split; [intros Hx'; apply (Hout id x); [set_solver|done]|]. unfold h1. by rewrite memset0_inside. }
  assert (forall i q, q ∈ F i ++ U i -> i <> id \/ q ∈ U i -> h' !! q = h !! q) as Hkeep.
  { intros i q Hq Hiq. pose proof (Hout i q Hq). rewrite Ho; [by apply memset0_outside| |].
    - by intros ?%Hin.
    - intros HqF. destruct (decide (i = id)) as [-> |Hne].
      + destruct Hiq as [|HqU]; [done|]. pose proof (NoDup_class _ _ _ _ _ id Hi Hid) as (_ & Hd & _)%NoDup_app.
        by apply (Hd q).
      + apply Hne. apply (chunk_one_class _ _ _ _ _ i id q Hi Hq). set_solver. }
  set (F' := reverse (page_chunks ptr sz n) ++ F id) in *. exists F'. split_and!; [| |done|].
  - unfold push_page. rewrite cls_put, decide_True by done. rewrite put_put_cls.
    pose proof (si_list _ _ _ _ _ Hi id Hci) as (Hs & Hl32 & Hl).
    set (p' := set_list _ _ _ _).
    assert (page_list p' = pages s id ++ [ptr]) as Hpp.
    { apply (take_push _ (cls s id)); lia. }
    eapply (sinv_feq _ _ _ _ (upd U id (U id))); [done|apply (upd_id U id)|].
    apply (sinv_update [(ptr, len)] [] h h' s F U id p' F' (U id) Hi Hci); try done.
    + unfold p'. cbn [sc_slabs slab_list list_size set_list set_slots]. rewrite length_insert, wrap_small; lia.
    + rewrite Hpp, map_app, Hple. unfold class_regions. rewrite Hple. symmetry. apply Permutation_cons_append.
    + intros _. split_and!; [done| |].
      * unfold p', F'. cbn [sl_curr set_list set_slots]. rewrite length_app, length_reverse, length_page_chunks. f_equal. lia.
      * unfold chunk_list. rewrite Hpp, map_app, concat_app. cbn [map concat]. rewrite app_nil_r.
        change (sc_size p') with sz. change (Z.to_nat (perslab p')) with n.
        unfold F'. rewrite reverse_Permutation, <- app_assoc, (si_chunks _ _ _ _ _ Hi id Hid).
        apply Permutation_app_comm.
    + intros i x Hne Hx. apply (Hkeep i); [set_solver|by left].
  - unfold F'. rewrite length_app, length_reverse, length_page_chunks. lia.
  - intros i q Hq. apply (Hkeep i); [set_solver|by right].
Qed.

(** ** The operations keep the invariant *)

Lemma newslab_len_pos loose h s F U id : sinv loose h s F U -> POWER_SMALLEST <= id <= power_largest s ->
  0 < newslab_len set s id.
Proof.
  intros Hi Hid. destruct (si_class _ _ _ _ _ Hi id Hid) as (? & ? & _).
  pose proof (page_len_bounds _ _ _ _ _ id Hi Hid) as Hpb. unfold page_len, SLAB_GLOBAL_PAGE_POOL, POWER_SMALLEST in *.
  rewrite (proj2 (Z.eqb_neq id 0)) in Hpb by lia. nia.
Qed.

Lemma do_slabs_newslab_spec e h s F U id : sinv [] h s F U -> POWER_SMALLEST <= id <= power_largest s ->
  (e_realloc e = true -> sc_slabs (cls s id) < 2 ^ 30) -> malloc_fresh e s (newslab_len set s id) ->
  let '(ok, h', s') := do_slabs_newslab set schunk nchunks e h s id in
  exists F', sinv [] h' s' F' U /\ power_largest s' = power_largest s /\
    (forall id' q, q ∈ U id' -> h' !! q = h !! q) /\
    (ok = true -> Z.of_nat (length (F' id)) = Z.of_nat (length (F id)) + perslab (cls s id)).
Proof.
  intros Hi Hid Hb Hm. pose proof (newslab_len_pos _ _ _ _ _ id Hi Hid) as Hlen0. unfold do_slabs_newslab. pose proof (si_largest _ _ _ _ _ Hi) as Hpl.
  assert (class_ids id) as Hci by (unfold class_ids, POWER_SMALLEST in *; lia).
  destruct (_ && _ && _ && _). { exists F. split_and!; try done. by apply (sinv_mem _ _ s). }
  pose proof (grow_slab_list_spec e [] h s F U id Hi Hci Hb) as Hg.
  assert (perslab (cls (grow_slab_list e s id).2 id) = perslab (cls s id)) as Hper.
  { unfold grow_slab_list. case_if; [|done]. destruct (e_realloc e); [|done]. cbn [snd].
    rewrite cls_put by (done || apply (si_len _ _ _ _ _ Hi)). by rewrite decide_True. }
  destruct (grow_slab_list e s id) as [grown s1]. cbn [snd] in Hper.
  destruct Hg as (Hi1 & Hroom & Hnl & Hpl1 & Hmb & Hsl & Hreg). destruct grown; [|by exists F].
  specialize (Hroom eq_refl). rewrite <- Hnl in Hm, Hlen0 |- *.
  assert (malloc_fresh e s1 (newslab_len set s1 id)) as Hm1.
  { destruct Hm as [|[? Hd]]; [by left|]. right. split; [done|]. intros r. rewrite Hreg. apply Hd. }
  pose proof (pool_spec h s1 F U Hi1) as Hp. destruct (get_page_from_global_pool s1) as [p s2].
  (* the page in hand, from the pool or from memory, or none *)
  assert (exists q s3, (if p =? 0 then memory_allocate e s2 (newslab_len set s1 id) else (p, s2)) = (q, s3) /\
    power_largest s3 = power_largest s /\ cls s3 id = cls s1 id /\
    (q = 0 /\ sinv [] h s3 F U \/ 0 < q /\ sinv [(q, newslab_len set s1 id)] h s3 F U)) as (q & s3 & -> & Hpl3 & Hc3 & Hq).
  { destruct Hp as [[-> ->]|(Hp0 & Hi2 & Hpl2 & Hc2)].
    - rewrite Z.eqb_refl. pose proof (memory_allocate_spec e h s1 F U _ Hi1 Hlen0 Hm1) as Ha.
      destruct (memory_allocate e s1 _) as [q s3]. destruct Ha as (? & Hsc & ?). exists q, s3.
      split_and!; try done; [congruence|]. unfold cls. by rewrite Hsc.
    - rewrite (proj2 (Z.eqb_neq p 0)) by lia. exists p, s2. split_and!; try done; [congruence| |].
      + apply Hc2. unfold POWER_SMALLEST in *. lia.
      + right. split; [done|]. eapply sinv_shrink; [done|].
        pose proof (page_len_bounds _ _ _ _ _ id Hi1 ltac:(lia)) as Hpb.
        unfold page_len, SLAB_GLOBAL_PAGE_POOL, POWER_SMALLEST in *. rewrite (proj2 (Z.eqb_neq id 0)) in Hpb by lia. lia. }
  destruct Hq as [[-> Hi3]|[Hq Hi3]].
  - rewrite Z.eqb_refl. exists F. split_and!; try done.
  - rewrite (proj2 (Z.eqb_neq q 0)) by lia.
    assert (newslab_len set s3 id = newslab_len set s1 id) as Hnl3 by (unfold newslab_len; by rewrite Hc3).
    rewrite <- Hnl3 in Hi3 |- *.
    pose proof (page_into_class h s3 F U id q Hi3 ltac:(lia) ltac:(by rewrite Hc3)) as Hpg.
    destruct (split_slab_page_into_freelist _ _ _ s3 q id) as [h' s']. destruct Hpg as (F' & Hi' & HF' & Hpl' & Hk).
    exists (upd F id F'). split_and!; [done|cbn; congruence|done|].
    intros _. unfold upd. rewrite decide_True by done. rewrite HF', Hc3. by rewrite Hper.
Qed.

(** The first free chunk of a class goes to the caller. *)
Lemma pop_slot_spec h s F U id x l : sinv [] h s F U -> POWER_SMALLEST <= id <= power_largest s -> F id = x :: l ->
  let nxt := next (get h x) in
  let h' := store (set_refcount 1) x (store (clear_flag ITEM_SLABBED) x (store_nz (set_prev 0) nxt h)) in
  let p := cls s id in
  slots p = x /\ 0 < x /\ (forall i, x ∉ U i) /\ it_flags (get h' x) = 0 /\ slabs_clsid (get h' x) = id /\
  sinv [] h' (put_cls s id (set_slots nxt (u32 (sl_curr p - 1)) p)) (upd F id l) (upd U id (x :: U id)) /\
  (forall i q, q ∈ U i -> h' !! q = h !! q).
Proof.
  intros Hi Hid HF nxt h' p. destruct (si_free _ _ _ _ _ Hi id Hid) as [[[last Hs] Hmark] Hcur]. fold p in Hs, Hcur.
  pose proof (NoDup_class _ _ _ _ _ id Hi Hid) as Hnd. rewrite HF in Hs, Hcur, Hnd, Hmark.
  apply NoDup_app in Hnd as (Hnd & Hdu & _). apply NoDup_cons in Hnd as [Hxl Hnd].
  destruct Hs as (Hsl & Hx0 & it & Hit & Hp & Hs).
  assert (nxt = next it) as Hnx by (unfold nxt; by rewrite (get_Some h x it Hit)). rewrite <- Hnx in Hs.
  assert (x ∈ F id ++ U id) as Hxin by (rewrite HF; set_solver).
  assert (x <> nxt) as Hxn by (destruct (dseg_first _ _ _ _ _ _ Hs) as [[_ ?]|?]; congruence).
  assert (forall q, q ∉ x :: l -> h' !! q = h !! q) as Hkeep.
  { intros q [Hqx Hql]%not_elem_of_cons. unfold h'. rewrite !store_other by done. unfold store_nz.
    destruct (Z.eqb_spec nxt 0) as [|Hnz]; [done|]. rewrite store_other; [done|]. intros ->.
    destruct (dseg_first _ _ _ _ _ _ Hs) as [[_ ?]|?]; done. }
  assert (forall i q, q ∈ F i ++ U i -> i <> id \/ q ∈ U i -> h' !! q = h !! q) as Hkeep2.
  { intros i q Hq Hor. apply Hkeep. rewrite <- HF. intros HqF. assert (i = id) as ->.
    { apply (chunk_one_class _ _ _ _ _ i id q Hi Hq). set_solver. }
    destruct Hor as [|HqU]; [done|]. rewrite HF in HqF. by apply (Hdu q). }
  assert (class_ids id) as Hci by (pose proof (si_largest _ _ _ _ _ Hi); unfold class_ids, POWER_SMALLEST in *; lia).
  split_and!.
  - done.
  - destruct (chunk_in_page _ _ _ _ _ id x Hi Hid Hxin) as (q & _ & Hq & _ & Hr).
    pose proof (si_pos _ _ _ _ _ Hi _ Hr) as Hpos. cbn in Hpos. lia.
  - intros i Hxi. assert (i = id) as -> by (apply (chunk_one_class _ _ _ _ _ i id x Hi); [set_solver|done]).
    apply (Hdu x); [by left|done].
  - unfold h'. rewrite !get_store. cbn [it_flags set_refcount clear_flag set_flags].
    rewrite (get_lookup h) by (apply store_nz_other; congruence). by destruct (Hmark x ltac:(left)) as [-> _].
  - unfold h'. rewrite !get_store. cbn [slabs_clsid set_refcount clear_flag set_flags].
    rewrite (get_lookup h) by (apply store_nz_other; congruence). by destruct (Hmark x ltac:(left)) as [_ ?].
  - apply (sinv_update [] [] h h' s F U id _ l (x :: U id) Hi Hci); try done.
    + apply (si_list _ _ _ _ _ Hi id Hci).
    + intros _. split_and!.
      * cbn [slots set_slots]. destruct (dseg_store_first h x nxt l last 0 Hnd Hs) as [last' Hs'].
        assert (forall y, y ∈ l -> h' !! y = store_nz (set_prev 0) nxt h !! y) as Hy.
        { intros y Hy. unfold h'. by rewrite !store_other by (by intros ->). }
        split; [exists last'; eapply dseg_ext; [|done]; intros y Hyl; by rewrite Hy|].
        intros y Hyl. rewrite (get_lookup _ _ _ (Hy y Hyl)). specialize (Hmark y ltac:(by right)).
        unfold store_nz. case_if; [done|]. destruct (decide (y = nxt)) as [-> |]; [by rewrite get_store|].
        by rewrite (get_lookup h) by (by apply store_other).
      * cbn [sl_curr set_slots]. rewrite Hcur, wrap_sub_l. f_equal. cbn [length]. lia.
      * rewrite <- Permutation_middle, app_comm_cons, <- HF. apply (si_chunks _ _ _ _ _ Hi id Hid).
    + intros i y Hne Hy. apply (Hkeep2 i); [set_solver|by left].
  - intros i q Hq. apply (Hkeep2 i); [set_solver|by right].
Qed.

(** What an allocation needs of the C library: [malloc] returns memory nobody has, and
    [realloc] gives up before a class has a list of 2^30 pages. *)
Definition alloc_ok (e : env) (s : slabs_t) (id : Z) : Prop :=
  (e_realloc e = true -> sc_slabs (cls s id) < 2 ^ 30) /\ malloc_fresh e s (newslab_len set s id).

Lemma do_slabs_alloc_spec e h s F U id flags : sinv [] h s F U -> alloc_ok e s id ->
  let '(it, h', s') := do_slabs_alloc set schunk nchunks e h s id flags in
  exists F' : Z -> list Z,
    (it = 0 /\ sinv [] h' s' F' U \/
     0 < it /\ (forall i, it ∉ U i) /\ sinv [] h' s' F' (upd U id (it :: U id)) /\
     refcount (get h' it) = 1 /\ it_flags (get h' it) = 0 /\ slabs_clsid (get h' it) = id /\ is_Some (h' !! it)) /\
    (forall i q, q ∈ U i -> h' !! q = h !! q).
Proof.
  intros Hi [Hb Hm]. unfold do_slabs_alloc.
  destruct ((id <? POWER_SMALLEST) || (power_largest s <? id)) eqn:Hr. { exists F. split; [by left|done]. }
  assert (POWER_SMALLEST <= id <= power_largest s) as Hid by (apply orb_false_iff in Hr; lia).
  assert (exists h1 s1 F1, (if (sl_curr (cls s id) =? 0) && negb (flags =? SLABS_ALLOC_NO_NEWPAGE)
      then let '(_, h, s) := do_slabs_newslab set schunk nchunks e h s id in (h, s) else (h, s)) = (h1, s1) /\
    sinv [] h1 s1 F1 U /\ power_largest s1 = power_largest s /\ forall i q, q ∈ U i -> h1 !! q = h !! q)
    as (h1 & s1 & F1 & -> & Hi1 & Hpl & Hk).
  { destruct (_ && _); [|by exists h, s, F]. pose proof (do_slabs_newslab_spec e h s F U id Hi Hid Hb Hm) as Hn.
    destruct (do_slabs_newslab set schunk nchunks e h s id) as [[ok h1] s1]. destruct Hn as (F1 & ? & ? & ? & _).
    by exists h1, s1, F1. }
  destruct (Z.eqb_spec (sl_curr (cls s1 id)) 0) as [|Hnz]. { exists F1. split; [by left|done]. }
  rewrite <- Hpl in Hid. destruct (si_free _ _ _ _ _ Hi1 id Hid) as [_ Hcur].
  destruct (F1 id) as [|x l] eqn:HF; [done|].
  destruct (pop_slot_spec h1 s1 F1 U id x l Hi1 Hid HF) as (-> & Hx & Hfresh & Hfl0 & Hcl0 & Hi' & Hk').
  exists (upd F1 id l). split; [right|].
  - split_and!; try done; [by rewrite get_store|]. unfold store at 1. by rewrite lookup_insert_eq.
  - intros i q Hq. rewrite (Hk' i q Hq). by apply (Hk i).
Qed.

(** A chunk in use comes back. *)
Lemma do_slabs_free_keeps h s F U id x : sinv [] h s F U -> x ∈ U id -> has_flag ITEM_CHUNKED (get h x) = false ->
  let '(h', s') := do_free h s x id in
  sinv [] h' s' (upd F id (x :: F id)) (upd U id (remove x (U id))) /\
  (forall i q, q <> x -> q ∈ U i -> h' !! q = h !! q).
Proof.
  intros Hi Hx Hfl. assert (x ∈ F id ++ U id) as Hxin by set_solver.
  pose proof (chunk_class _ _ _ _ _ _ _ Hi Hxin) as Hid. destruct (si_free _ _ _ _ _ Hi id Hid) as [Hf Hcur].
  pose proof (NoDup_class _ _ _ _ _ id Hi Hid) as Hnd. pose proof Hnd as (Hnd1 & Hd & Hnd2)%NoDup_app.
  destruct (chunk_in_page _ _ _ _ _ id x Hi Hid Hxin) as (q & _ & Hq & _ & Hr).
  pose proof (si_pos _ _ _ _ _ Hi _ Hr) as Hpos. cbn in Hpos.
  assert (class_ids id) as Hci by (pose proof (si_largest _ _ _ _ _ Hi); unfold class_ids, POWER_SMALLEST in *; lia).
  pose proof (do_slabs_free_spec h s x id (F id) Hid ltac:(pose proof (si_largest _ _ _ _ _ Hi); lia) Hf Hnd1 ltac:(lia) ltac:(intros Hxf; by apply (Hd x)) Hfl) as Hfree.
  destruct (do_free h s x id) as [h' s']. destruct Hfree as (Hf' & -> & Hk).
  assert (forall i y, y ∈ F i ++ U i -> y <> x -> i <> id \/ y ∈ U i -> h' !! y = h !! y) as Hkeep.
  { intros i y Hy Hyx Hor. apply Hk; [done|]. intros HyF. assert (i = id) as ->.
    { apply (chunk_one_class _ _ _ _ _ i id y Hi Hy). set_solver. }
    destruct Hor as [|HyU]; [done|]. by apply (Hd y). }
  split; [|intros i y Hyx Hy; apply (Hkeep i); [set_solver|done|by right]].
  apply (sinv_update [] [] h h' s F U id _ (x :: F id) (remove x (U id)) Hi Hci); try done.
  - apply (si_list _ _ _ _ _ Hi id Hci).
  - intros _. split_and!; [done| |].
    + cbn [sl_curr set_slots length]. rewrite Hcur, wrap_add_l. f_equal. lia.
    + transitivity (F id ++ U id); [|apply (si_chunks _ _ _ _ _ Hi id Hid)].
      apply list_elem_of_split in Hx as (l1 & l2 & E). rewrite E in *. rewrite remove_split by done. solve_Permutation.
  - intros i y Hne Hy. apply (Hkeep i); [set_solver| |by left]. intros ->. apply Hne.
    apply (chunk_one_class _ _ _ _ _ i id x Hi); [set_solver|done].
Qed.

(** Who holds a chunk may write it. *)
Lemma sinv_write h s F U id x it : sinv [] h s F U -> x ∈ U id -> sinv [] (<[x := it]> h) s F U.
Proof.
  intros Hi Hx. destruct Hi as [Hl Hpl Hcc Hls Hf Hch Ho Hpos Hd Hbb] eqn:E. split; try done.
  intros i Hi'. destruct (Hf i Hi') as [Hfl Hcur]. split; [|done]. eapply freelist_ext; [|done].
  intros y Hy. rewrite lookup_insert_ne; [done|]. intros <-.
  assert (i = id) as -> by (apply (chunk_one_class _ _ _ _ _ i id x Hi); set_solver).
  pose proof (NoDup_class _ _ _ _ _ id Hi Hi') as (_ & Hdd & _)%NoDup_app. by apply (Hdd x).
Qed.

(** The last page of the pool leaves the process. *)
Lemma sinv_drop_page h s F U p n : sinv [(p, n)] h s F U -> sinv [] h s F U.
Proof.
  intros [Hl Hpl Hcc Hls Hf Hch Ho Hpos Hd Hbb]. split; try done.
  - intros r Hr. apply Hpos. by right.
  - by destruct Hd.
  - intros Hm. destruct (Hbb Hm) as [? H]. split; [done|]. intros r Hr. apply H. by right.
Qed.

Lemma release_loop_keeps fuel h s F U : mem_base s = 0 -> sinv [] h s F U -> sinv [] h (release_loop set s fuel) F U.
Proof.
  revert s. induction fuel as [|fuel IH]; intros s Hb Hi; cbn [release_loop]; [done|]. case_if; [|done].
  pose proof (pool_spec h s F U Hi) as Hp.
  assert (mem_base (get_page_from_global_pool s).2 = mem_base s) as Hb'
    by (unfold get_page_from_global_pool; by case_if).
  destruct (get_page_from_global_pool s) as [p s']. cbn [snd] in Hb'. destruct Hp as [[-> ->]|(Hp0 & Hi' & _)]; [done|].
  rewrite (proj2 (Z.eqb_neq p 0)) by lia. apply IH; [cbn; congruence|]. apply (sinv_mem _ _ s'); try done. by eapply sinv_drop_page.
Qed.

Lemma adjust_keeps h s F U n : sinv [] h s F U -> sinv [] h (do_slabs_adjust_mem_limit set s n).2 F U.
Proof.
  intros Hi. unfold do_slabs_adjust_mem_limit. destruct (Z.eqb_spec (mem_base s) 0) as [Hb|]; cbn [negb snd]; [|done].
  unfold memory_release. case_if; [by apply (sinv_mem _ _ s)|]. case_if; [by apply (sinv_mem _ _ s)|].
  apply release_loop_keeps; [done|]. by apply (sinv_mem _ _ s).
Qed.

(** A new page enters the pool. *)
Lemma prefill_page_keeps e h s F U : sinv [] h s F U -> e_realloc e = true -> sc_slabs (cls s 0) < 2 ^ 30 ->
  malloc_fresh e s (slab_page_size set) -> sinv [] h (prefill_page set e s).2 F U.
Proof.
  intros Hi He Hb Hm. unfold prefill_page. assert (class_ids 0) as H0 by (unfold class_ids; lia).
  pose proof (memory_allocate_spec e h s F U (slab_page_size set) Hi ltac:(lia) Hm) as Ha.
  destruct (memory_allocate e s (slab_page_size set)) as [p s1]. destruct Ha as (_ & Hsc & [[-> Hi1]|[Hp Hi1]]); [done|].
  rewrite (proj2 (Z.eqb_neq p 0)) by lia. cbn [snd].
  assert (cls s1 0 = cls s 0) as Hc by (unfold cls; by rewrite Hsc).
  pose proof (grow_slab_list_spec e _ h s1 F U 0 Hi1 H0 ltac:(intros _; by rewrite Hc)) as Hg.
  assert ((grow_slab_list e s1 0).1 = true) as Hgt by (unfold grow_slab_list; rewrite He; by case_if).
  destruct (grow_slab_list e s1 0) as [b s2]. cbn [fst snd] in *. subst b.
  destruct Hg as (Hi2 & Hroom & _ & _ & _ & Hsl & _). specialize (Hroom eq_refl).
  pose proof (si_list _ _ _ _ _ Hi2 0 H0) as (Hs & Hl32 & Hl).
  unfold push_page. set (p' := set_list _ _ _ _).
  assert (page_list p' = pages s2 0 ++ [p]) as Hpp.
  { apply (take_push _ (cls s2 0)); lia. }
  eapply sinv_feq; [apply (upd_id F 0)|apply (upd_id U 0)|].
  apply (sinv_update [(p, slab_page_size set)] [] h h s2 F U 0 p' (F 0) (U 0) Hi2 H0); try done.
  - unfold p'. cbn [sc_slabs slab_list list_size set_list]. rewrite length_insert, wrap_small; lia.
  - rewrite Hpp, map_app. unfold class_regions. symmetry. apply Permutation_cons_append.
  - unfold POWER_SMALLEST. lia.
  - apply (si_others _ _ _ _ _ Hi2).
Qed.

(** ** Histories *)

(** A class table without pages, as [slabs_init] leaves it when it does not preallocate. *)
Definition fresh_table (s : slabs_t) : bool :=
  (length (slabclass s) =? 64)%nat && (POWER_SMALLEST <=? power_largest s) && (power_largest s <? 64)
  && forallb (fun id => let p := cls s id in
       (slots p =? 0) && (sl_curr p =? 0) && (sc_slabs p =? 0) && (list_size p =? 0) && (length (slab_list p) =? 0)%nat)
     (seqZ 0 64)
  && forallb (fun id => let p := cls s id in
       (0 <? sc_size p) && (0 <? perslab p) && (sc_size p * perslab p <=? slab_page_size set))
     (seqZ 1 (power_largest s))
  && ((mem_base s =? 0) || (0 <? mem_current s)).

(** The memory, the allocator and the chunks in use after any sequence of allocations,
    frees, writes by the owners of chunks, new pages, pages for the pool and changes of
    the memory limit. *)
Inductive reach : heap -> slabs_t -> (Z -> list Z) -> Prop :=
| r_init h s : fresh_table s = true -> reach h s (fun _ => [])
| r_alloc h s U e id flags it h' s' : reach h s U -> alloc_ok e s id ->
    do_slabs_alloc set schunk nchunks e h s id flags = (it, h', s') ->
    reach h' s' (if it =? 0 then U else upd U id (it :: U id))
| r_free h s U id x h' s' : reach h s U -> x ∈ U id -> has_flag ITEM_CHUNKED (get h x) = false ->
    do_free h s x id = (h', s') -> reach h' s' (upd U id (remove x (U id)))
| r_write h s U id x it : reach h s U -> x ∈ U id -> reach (<[x := it]> h) s U
| r_newslab h s U e id ok h' s' : reach h s U -> POWER_SMALLEST <= id <= power_largest s -> alloc_ok e s id ->
    do_slabs_newslab set schunk nchunks e h s id = (ok, h', s') -> reach h' s' U
| r_prefill h s U e : reach h s U -> e_realloc e = true -> sc_slabs (cls s 0) < 2 ^ 30 ->
    malloc_fresh e s (slab_page_size set) -> reach h (prefill_page set e s).2 U
| r_limit h s U n : reach h s U -> reach h (do_slabs_adjust_mem_limit set s n).2 U.

Lemma fresh_sinv h s : fresh_table s = true -> sinv [] h s (fun _ => []) (fun _ => []).
Proof.
  unfold fresh_table. rewrite !andb_true_iff, !forallb_forall. intros (((((Hl & H1) & H2) & He) & Hs) & Hb).
  assert (forall id, class_ids id -> slots (cls s id) = 0 /\ sl_curr (cls s id) = 0 /\ sc_slabs (cls s id) = 0 /\
    list_size (cls s id) = 0 /\ length (slab_list (cls s id)) = 0%nat) as Hz.
  { intros id Hid. specialize (He id). rewrite <- list_elem_of_In, elem_of_seqZ in He. unfold class_ids in Hid.
    specialize (He ltac:(lia)). cbv zeta in He. rewrite !andb_true_iff, Nat.eqb_eq in He. lia. }
  assert (forall id, class_ids id -> pages s id = []) as Hp.
  { intros id Hid. unfold pages. destruct (Hz id Hid) as (_ & _ & -> & _). done. }
  assert (forall r, r ∉ regions s) as Hr.
  { intros r (id & p & Hid & Hpp & _)%elem_of_regions. rewrite (Hp id Hid) in Hpp. by apply not_elem_of_nil in Hpp. }
  assert (regions s = []) as Hr0 by (destruct (regions s) as [|a l]; [done|]; destruct (Hr a); by left).
  assert (forall i, POWER_SMALLEST <= i <= power_largest s -> class_ids i) as Hids
    by (intros i Hi; unfold class_ids, POWER_SMALLEST in *; lia).
  split; rewrite ?Hr0; cbn [app].
  - by apply Nat.eqb_eq.
  - lia.
  - intros id Hid. specialize (Hs id). rewrite <- list_elem_of_In, elem_of_seqZ in Hs. unfold POWER_SMALLEST in Hid.
    specialize (Hs ltac:(lia)). cbv zeta in Hs. lia.
  - intros id Hid. destruct (Hz id Hid) as (_ & _ & -> & -> & ->). lia.
  - intros id Hid. destruct (Hz id (Hids id Hid)) as (-> & -> & _). split; [split; [by exists 0|intros x []%not_elem_of_nil]|done].
  - intros id Hid. unfold class_chunks. by rewrite (Hp id (Hids id Hid)).
  - done.
  - intros r []%not_elem_of_nil.
  - done.
  - intros Hm. split; [lia|]. intros r []%not_elem_of_nil.
Qed.

Lemma reach_sinv h s U : reach h s U -> exists F, sinv [] h s F U.
Proof.
  induction 1 as [h s Hf|h s U e id flags it h' s' _ [F Hi] Hok E|h s U id x h' s' _ [F Hi] Hx Hfl E
    |h s U id x it _ [F Hi] Hx|h s U e id ok h' s' _ [F Hi] Hid [Hb Hm] E|h s U e _ [F Hi] He Hb Hm|h s U n _ [F Hi]].
  - eexists. by apply fresh_sinv.
  - pose proof (do_slabs_alloc_spec e h s F U id flags Hi Hok) as Ha. rewrite E in Ha.
    destruct Ha as (F' & [[-> Hi']|(Hit & _ & Hi' & _)] & _); exists F'; [done|].
    by rewrite (proj2 (Z.eqb_neq it 0)) by lia.
  - pose proof (do_slabs_free_keeps h s F U id x Hi Hx Hfl) as Hf. rewrite E in Hf. destruct Hf as [? _]. by eexists.
  - exists F. by eapply sinv_write.
  - pose proof (do_slabs_newslab_spec e h s F U id Hi Hid Hb Hm) as Hn. rewrite E in Hn.
    destruct Hn as (F' & ? & _). by exists F'.
  - exists F. by apply prefill_page_keeps.
  - exists F. by apply adjust_keeps.
Qed.

Lemma length_class_chunks loose h s F U id : sinv loose h s F U -> POWER_SMALLEST <= id <= power_largest s ->
  Z.of_nat (length (F id)) + Z.of_nat (length (U id)) = sc_slabs (cls s id) * perslab (cls s id).
Proof.
  intros Hi Hid. destruct (si_class _ _ _ _ _ Hi id Hid) as (_ & Hper & _). pose proof (si_largest _ _ _ _ _ Hi).
  assert (class_ids id) as Hci by (unfold class_ids, POWER_SMALLEST in *; lia).
  pose proof (si_list _ _ _ _ _ Hi id Hci) as (Hs & Hl32 & Hl).
  pose proof (Permutation_length (si_chunks _ _ _ _ _ Hi id Hid)) as Hlen. rewrite length_app in Hlen.
  assert (length (pages s id) = Z.to_nat (sc_slabs (cls s id))) as Hp by (unfold pages; rewrite length_take; lia).
  assert (forall l, length (concat (map (fun p => page_chunks p (sc_size (cls s id)) (Z.to_nat (perslab (cls s id)))) l))
    = (length l * Z.to_nat (perslab (cls s id)))%nat) as Hc.
  { induction l as [|q l IH]; [done|]. cbn [map concat length]. rewrite length_app, length_page_chunks, IH. lia. }
  unfold class_chunks in Hlen. rewrite Hc, Hp in Hlen. nia.
Qed.

(** The test that refuses a new page. *)
Definition at_limit (s : slabs_t) (id : Z) : bool :=
  negb (mem_limit s =? 0) && (mem_limit s <? u64 (mem_malloced s + newslab_len set s id)) && (0 <? sc_slabs (cls s id))
  && (sc_slabs (cls s SLAB_GLOBAL_PAGE_POOL) =? 0).

Lemma newslab_succeeds e h s F U id : sinv [] h s F U -> POWER_SMALLEST <= id <= power_largest s -> mem_base s = 0 ->
  e_realloc e = true -> 0 < e_malloc e -> sc_slabs (cls s id) < 2 ^ 30 ->
  (do_slabs_newslab set schunk nchunks e h s id).1.1 = negb (at_limit s id).
Proof.
  intros Hi Hid Hb He Hm Hpg. unfold do_slabs_newslab. fold (at_limit s id). destruct (at_limit s id); [done|].
  assert (class_ids id) as Hci by (pose proof (si_largest _ _ _ _ _ Hi); unfold class_ids, POWER_SMALLEST in *; lia).
  pose proof (grow_slab_list_spec e [] h s F U id Hi Hci (fun _ => Hpg)) as Hg.
  assert ((grow_slab_list e s id).1 = true) as Hgt by (unfold grow_slab_list; rewrite He; by case_if).
  destruct (grow_slab_list e s id) as [b s1]. cbn [fst] in Hgt. subst b. destruct Hg as (Hi1 & _ & _ & _ & Hb1 & _).
  pose proof (pool_spec h s1 F U Hi1) as Hp. destruct (get_page_from_global_pool s1) as [p s2].
  destruct Hp as [[-> ->]|(Hp & _)].
  - rewrite Z.eqb_refl. unfold memory_allocate. rewrite Hb1, Hb, Z.eqb_refl. rewrite (proj2 (Z.eqb_neq (e_malloc e) 0)) by lia.
    by destruct (split_slab_page_into_freelist _ _ _ _ _ _).
  - rewrite (proj2 (Z.eqb_neq p 0)) by lia. rewrite (proj2 (Z.eqb_neq p 0)) by lia.
    by destruct (split_slab_page_into_freelist _ _ _ _ _ _).
Qed.

Lemma alloc_null_iff e h s F U id flags : sinv [] h s F U -> POWER_SMALLEST <= id <= power_largest s -> mem_base s = 0 ->
  e_realloc e = true -> 0 < e_malloc e -> alloc_ok e s id -> flags <> SLABS_ALLOC_NO_NEWPAGE ->
  (do_slabs_alloc set schunk nchunks e h s id flags).1.1 = 0 <-> sl_curr (cls s id) = 0 /\ at_limit s id = true.
Proof.
  intros Hi Hid Hb He Hm [Hpg Hfr] Hfl. unfold do_slabs_alloc.
  assert ((id <? POWER_SMALLEST) || (power_largest s <? id) = false) as -> by (apply orb_false_iff; lia).
  rewrite (proj2 (Z.eqb_neq flags _)) by done. cbn [negb]. rewrite andb_true_r.
  assert (forall h1 s1 F1, sinv [] h1 s1 F1 U -> power_largest s1 = power_largest s -> sl_curr (cls s1 id) <> 0 -> slots (cls s1 id) <> 0) as Hslot.
  { intros h1 s1 F1 Hi1 Hpl Hne. destruct (si_free _ _ _ _ _ Hi1 id ltac:(lia)) as [Hf Hcur].
    destruct (freelist_head _ _ _ _ Hf) as [[E _]|[? _]]; [|done]. by rewrite E in Hcur. }
  destruct (Z.eqb_spec (sl_curr (cls s id)) 0) as [Hz|Hz].
  2: { rewrite (proj2 (Z.eqb_neq _ 0)) by done. cbn [fst]. split; [|tauto]. intros E. by destruct (Hslot h s F Hi eq_refl Hz). }
  pose proof (newslab_succeeds e h s F U id Hi Hid Hb He Hm (Hpg He)) as Hok.
  pose proof (do_slabs_newslab_spec e h s F U id Hi Hid Hpg Hfr) as Hn.
  assert (at_limit s id = true -> cls (do_slabs_newslab set schunk nchunks e h s id).2 id = cls s id) as Hlim.
  { intros Hl. unfold do_slabs_newslab. fold (at_limit s id). by rewrite Hl. }
  destruct (do_slabs_newslab set schunk nchunks e h s id) as [[ok h1] s1]. cbn [fst snd] in Hok, Hlim.
  destruct Hn as (F1 & Hi1 & Hpl & _ & Hlen). destruct (at_limit s id).
  - rewrite (Hlim eq_refl), Hz, Z.eqb_refl. tauto.
  - specialize (Hlen Hok). destruct (si_class _ _ _ _ _ Hi id Hid) as (? & ? & ?).
    destruct (si_free _ _ _ _ _ Hi1 id ltac:(lia)) as [_ Hcur]. destruct (si_free _ _ _ _ _ Hi id Hid) as [_ Hcur0].
    assert (sl_curr (cls s1 id) <> 0) as Hnz.
    { rewrite Hcur, Hlen, <- wrap_add_l, <- Hcur0, Hz. cbn [Z.add]. rewrite wrap_small; [lia|]. nia. }
    rewrite (proj2 (Z.eqb_neq _ 0)) by done. cbn [fst]. split; [|by intros [_ ?]]. intros E.
    by destruct (Hslot h1 s1 F1 Hi1 Hpl Hnz).
Qed.
End allocator.


(** C24: an allocation fails only at the memory limit.  In every history, when [malloc] and
    [realloc] succeed, [do_slabs_alloc] for an existing class returns null exactly when
    its free list is empty, a further page would exceed the limit, the class already has
    a page and the page pool is empty; in every other case it returns a chunk. *)
Theorem slabs_alloc_fails_at_limit set schunk nchunks (Hpage : 0 < slab_page_size set < 2 ^ 31) h s U e id flags :
  reach set schunk nchunks h s U -> POWER_SMALLEST <= id <= power_largest s -> mem_base s = 0 ->
  e_realloc e = true -> 0 < e_malloc e -> alloc_ok set e s id -> flags <> SLABS_ALLOC_NO_NEWPAGE ->
  (do_slabs_alloc set schunk nchunks e h s id flags).1.1 = 0 <->
  sl_curr (cls s id) = 0 /\ mem_limit s <> 0 /\
  mem_limit s < u64 (mem_malloced s + newslab_len set s id) /\ 0 < sc_slabs (cls s id) /\
  sc_slabs (cls s SLAB_GLOBAL_PAGE_POOL) = 0.
Proof.
  intros [F Hi]%reach_sinv Hid Hb He Hm Hok Hfl; [|done].
  rewrite (alloc_null_iff set schunk nchunks Hpage e h s F U id flags Hi Hid Hb He Hm Hok Hfl).
  unfold at_limit. rewrite !andb_true_iff, negb_true_iff. lia.
Qed.

Lemma clsid_loop_spec s size res fuel : 1 <= res <= power_largest s -> power_largest s - res < Z.of_nat fuel ->
  let id := clsid_loop s size res fuel in
  res <= id <= power_largest s /\ (forall j, res <= j < id -> sc_size (cls s j) < size) /\
  (size <= sc_size (cls s id) \/ id = power_largest s /\ sc_size (cls s id) < size).
Proof.
  revert res. induction fuel as [|fuel IH]; intros res Hr Hf; [lia|]. cbn [clsid_loop].
  destruct (Z.ltb_spec (sc_size (cls s res)) size) as [Hlt|Hge]; [|cbn zeta; split_and!; [lia|lia|intros; lia|by left]].
  destruct (Z.eqb_spec res (power_largest s)) as [<- |Hne]; [cbn zeta; split_and!; [lia|lia|intros; lia|by right]|].
  destruct (IH (res + 1)) as (H1 & H2 & H3); [lia|lia|]. cbn zeta. split_and!; [lia|lia| |done].
  intros j Hj. destruct (decide (j = res)) as [-> |]; [done|]. apply H2. lia.
Qed.

(** The size class of an object.  A size of 0 or above [item_size_max], and no other,
    gets class 0, the error.  Every other size gets the first class whose chunks are
    large enough, and the last class exactly when no class is: such an item is built from
    several chunks. *)
Theorem slabs_clsid_first_fit set s size : 1 <= power_largest s ->
  let id := slabs_clsid_of set s size in
  (id = 0 <-> size = 0 \/ u64 (item_size_max set) < size) /\
  (id <> 0 -> POWER_SMALLEST <= id <= power_largest s /\
     (forall j, POWER_SMALLEST <= j < id -> slabs_size s j < size) /\
     (size <= slabs_size s id \/
      id = power_largest s /\ forall j, POWER_SMALLEST <= j <= power_largest s -> slabs_size s j < size)).
Proof.
  intros Hpl id. subst id. unfold slabs_clsid_of.
  destruct ((size =? 0) || (u64 (item_size_max set) <? size)) eqn:E.
  { apply orb_true_iff in E. split; [split; [intros _; lia|done]|done]. }
  apply orb_false_iff in E.
  destruct (clsid_loop_spec s size POWER_SMALLEST (Z.to_nat (power_largest s))) as (H1 & H2 & H3);
    [unfold POWER_SMALLEST; lia|unfold POWER_SMALLEST; lia|].
  set (id := clsid_loop _ _ _ _) in *. unfold POWER_SMALLEST in *. split; [lia|]. intros _. split_and!; [lia|lia|done|].
  destruct H3 as [H3|[-> H3]]; [by left|]. right. split; [done|]. intros j Hj.
  destruct (decide (j = power_largest s)) as [-> |]; [done|]. apply H2. lia.
Qed.

(** With the default table: 100 bytes go to the 120-byte class, a value too large for
    every chunk to the last class, and nothing beyond a megabyte is accepted. *)
Lemma slabs_clsid_first_fit_witness :
  slabs_clsid_of default_settings default_slabs 100 = 2 /\ slabs_size default_slabs 1 < 100 <= slabs_size default_slabs 2 /\
  slabs_clsid_of default_settings default_slabs 600000 = 39 /\ slabs_clsid_of default_settings default_slabs 1048577 = 0.
Proof.
  assert (1 <= power_largest default_slabs) as Hpl by (vm_compute; discriminate).
  pose proof (slabs_clsid_first_fit default_settings default_slabs 100 Hpl) as [_ H].
  assert (slabs_clsid_of default_settings default_slabs 100 = 2) as E by (vm_compute; reflexivity).
  rewrite E in H. destruct (H ltac:(discriminate)) as (_ & H1 & H2). split; [exact E|]. split.
  - split; [apply H1; unfold POWER_SMALLEST; lia|]. destruct H2 as [H2|[H2 _]]; [exact H2|].
    vm_compute in H2. discriminate H2.
  - split; [vm_compute; reflexivity|].
    apply (proj2 (proj1 (slabs_clsid_first_fit default_settings default_slabs 1048577 Hpl))). right. vm_compute. reflexivity.
Defined.

(** A small allocator with a limit of one page of 4096 bytes: class 1 has 8 chunks of 512
    bytes in a page, class 2 one chunk of 4096 bytes. *)
Module SlabExample.
Definition set : slab_settings :=
  {| slab_reassign := true; slab_chunk_size_max := 4096; slab_page_size := 4096; item_size_max := 4096; chunk_size := 48 |}.
Definition schunk (_ : Z) : Z * Z := (0, 0).
Definition s0 : slabs_t :=
  default default_slabs (snd <$> slabs_init set schunk 0 [] ∅ 4096 factor_1_25 false (Some [512; 0]) 0 false 0 0).
Definition page (a : Z) : env := {| e_realloc := true; e_malloc := a |}.
Definition a1 := do_slabs_alloc set schunk 0 (page 8192) ∅ s0 2 0.
Definition a2 := do_slabs_alloc set schunk 0 (page 16384) a1.1.2 a1.2 1 0.
Definition used : Z -> list Z := upd (upd (fun _ => []) 2 [8192]) 1 [19968].

Lemma fresh : fresh_table set s0 = true.
Proof. vm_compute. reflexivity. Qed.
Lemma page_ok : 0 < slab_page_size set < 2 ^ 31.
Proof. cbn. lia. Qed.

Lemma reached1 : reach set schunk 0 a1.1.2 a1.2 (upd (fun _ => []) 2 [8192]).
Proof.
  refine (r_alloc set schunk 0 ∅ s0 (fun _ => []) (page 8192) 2 0 8192 _ _ (r_init set schunk 0 ∅ s0 fresh) _ _).
  - split; [intros _; vm_compute; reflexivity|]. right. split; [vm_compute; reflexivity|].
    assert (regions set s0 = []) as -> by (vm_compute; reflexivity). intros r []%not_elem_of_nil.
  - vm_compute. reflexivity.
Qed.

Lemma fresh2 : alloc_ok set (page 16384) a1.2 1.
Proof.
  split; [intros _; vm_compute; reflexivity|]. right. split; [vm_compute; reflexivity|].
  assert (regions set a1.2 = [(8192, 4096)]) as -> by (vm_compute; reflexivity).
  intros r ->%list_elem_of_singleton. right. vm_compute. discriminate.
Qed.

Lemma reached2 : reach set schunk 0 a2.1.2 a2.2 used.
Proof.
  refine (r_alloc set schunk 0 a1.1.2 a1.2 _ (page 16384) 1 0 19968 _ _ reached1 fresh2 _). vm_compute. reflexivity.
Qed.

Lemma fresh3 : alloc_ok set (page 32768) a2.2 2.
Proof.
  split; [intros _; vm_compute; reflexivity|]. right. split; [vm_compute; reflexivity|].
  assert (regions set a2.2 = [(16384, 4096); (8192, 4096)]) as -> by (vm_compute; reflexivity).
  intros r [-> | ->%list_elem_of_singleton]%elem_of_cons; right; vm_compute; discriminate.
Qed.
End SlabExample.


(** The class with the full page gets no second one. *)
Lemma slabs_alloc_fails_at_limit_witness :
  (do_slabs_alloc SlabExample.set SlabExample.schunk 0 (SlabExample.page 32768) SlabExample.a2.1.2 SlabExample.a2.2 2 0).1.1 = 0.
Proof.
  apply (slabs_alloc_fails_at_limit SlabExample.set SlabExample.schunk 0 SlabExample.page_ok _ _ _ (SlabExample.page 32768) 2 0
    SlabExample.reached2).
  - vm_compute. split; discriminate.
  - vm_compute. reflexivity.
  - reflexivity.
  - vm_compute. reflexivity.
  - exact SlabExample.fresh3.
  - discriminate.
  - split_and!; vm_compute; (reflexivity || discriminate).
Defined.
