(* ===== verification/McItems.v ===== *)
(** The item store (src/memcached-sr/items.c): allocation, linking, reference counts,
    lazy expiry, eviction and the movements between the LRU queues.

    [server] gathers the state items.c shares with the hash table, the queues and the
    slab allocator.  [None] as the result of an operation stands for the failure of the
    assertion in [assoc_delete], the only assertion that is kept in the release build's
    behaviour; what the operations ask of locks, of the C library and of the bump buffer
    are arguments.  Not modelled: external storage, logging, the text of the statistics
    commands, and the chunks of large items beyond their header. *)
From Stdlib Require Import SpecFloat.
From S2P Require Import Prelude McItem McAssoc McLru McSlabs.

(** ** State *)

(** The counters of [itemstats_t], kept for every class and LRU. *)
Inductive stat :=
| evicted | evicted_nonzero | reclaimed | outofmemory | tailrepairs | expired_unfetched | evicted_unfetched
| evicted_active | crawler_reclaimed | crawler_items_checked | lrutail_reflocked | moves_to_cold | moves_to_warm
| moves_within_lru | direct_reclaims | hits_to_hot | hits_to_warm | hits_to_cold | hits_to_temp | mem_requested
| evicted_time.
#[global] Instance stat_eq_dec : EqDecision stat.
Proof. solve_decision. Defined.

Record item_settings := {
  slab_set : slab_settings;
  use_cas : bool;
  lru_segmented : bool;
  temp_lru : bool;
  temporary_ttl : Z;
  oldest_live : Z;
  oldest_cas : Z;
  tail_repair_time : Z;
  evict_to_free : bool;
  slab_automove : Z;
  hot_lru_pct : Z;
  warm_lru_pct : Z;
  hot_max_factor : spec_float;
  warm_max_factor : spec_float
}.

(** The request the evicting thread leaves for the page mover. *)
Record rebal := { s_clsid : Z; d_clsid : Z; signal : Z; pick_cur : Z }.

Record server := {
  mem : heap;
  table : assoc;
  lrus : lru;
  slab : slabs_t;
  schunks : gmap Z (Z * Z);
  cas_id : Z;
  curr_items : Z;
  curr_bytes : Z;
  total_items : Z;
  istats : Z -> stat -> Z;
  sizes_hist : option (list Z);
  sizes_cas_min : Z;
  bumps : list (list (Z * Z));
  dropped : Z;
  rebalance : rebal;
  current_time : Z
}.

Definition with_mem (h : heap) (s : server) : server :=
  {| mem := h; table := table s; lrus := lrus s; slab := slab s; schunks := schunks s; cas_id := cas_id s;
     curr_items := curr_items s; curr_bytes := curr_bytes s; total_items := total_items s; istats := istats s;
     sizes_hist := sizes_hist s; sizes_cas_min := sizes_cas_min s; bumps := bumps s; dropped := dropped s;
     rebalance := rebalance s; current_time := current_time s |}.
Definition with_table (h : heap) (t : assoc) (s : server) : server :=
  {| mem := h; table := t; lrus := lrus s; slab := slab s; schunks := schunks s; cas_id := cas_id s;
     curr_items := curr_items s; curr_bytes := curr_bytes s; total_items := total_items s; istats := istats s;
     sizes_hist := sizes_hist s; sizes_cas_min := sizes_cas_min s; bumps := bumps s; dropped := dropped s;
     rebalance := rebalance s; current_time := current_time s |}.
Definition with_lru (h : heap) (L : lru) (s : server) : server :=
  {| mem := h; table := table s; lrus := L; slab := slab s; schunks := schunks s; cas_id := cas_id s;
     curr_items := curr_items s; curr_bytes := curr_bytes s; total_items := total_items s; istats := istats s;
     sizes_hist := sizes_hist s; sizes_cas_min := sizes_cas_min s; bumps := bumps s; dropped := dropped s;
     rebalance := rebalance s; current_time := current_time s |}.
Definition with_slab (h : heap) (sl : slabs_t) (s : server) : server :=
  {| mem := h; table := table s; lrus := lrus s; slab := sl; schunks := schunks s; cas_id := cas_id s;
     curr_items := curr_items s; curr_bytes := curr_bytes s; total_items := total_items s; istats := istats s;
     sizes_hist := sizes_hist s; sizes_cas_min := sizes_cas_min s; bumps := bumps s; dropped := dropped s;
     rebalance := rebalance s; current_time := current_time s |}.
Definition with_cas (c : Z) (s : server) : server :=
  {| mem := mem s; table := table s; lrus := lrus s; slab := slab s; schunks := schunks s; cas_id := c;
     curr_items := curr_items s; curr_bytes := curr_bytes s; total_items := total_items s; istats := istats s;
     sizes_hist := sizes_hist s; sizes_cas_min := sizes_cas_min s; bumps := bumps s; dropped := dropped s;
     rebalance := rebalance s; current_time := current_time s |}.
(** [curr_bytes += b; curr_items += n; total_items += t] *)
Definition count_items (b n t : Z) (s : server) : server :=
  {| mem := mem s; table := table s; lrus := lrus s; slab := slab s; schunks := schunks s; cas_id := cas_id s;
     curr_items := u64 (curr_items s + n); curr_bytes := u64 (curr_bytes s + b); total_items := u64 (total_items s + t);
     istats := istats s; sizes_hist := sizes_hist s; sizes_cas_min := sizes_cas_min s; bumps := bumps s;
     dropped := dropped s; rebalance := rebalance s; current_time := current_time s |}.
Definition with_istats (f : Z -> stat -> Z) (s : server) : server :=
  {| mem := mem s; table := table s; lrus := lrus s; slab := slab s; schunks := schunks s; cas_id := cas_id s;
     curr_items := curr_items s; curr_bytes := curr_bytes s; total_items := total_items s; istats := f;
     sizes_hist := sizes_hist s; sizes_cas_min := sizes_cas_min s; bumps := bumps s; dropped := dropped s;
     rebalance := rebalance s; current_time := current_time s |}.
Definition with_hist (hist : option (list Z)) (min : Z) (s : server) : server :=
  {| mem := mem s; table := table s; lrus := lrus s; slab := slab s; schunks := schunks s; cas_id := cas_id s;
     curr_items := curr_items s; curr_bytes := curr_bytes s; total_items := total_items s; istats := istats s;
     sizes_hist := hist; sizes_cas_min := min; bumps := bumps s; dropped := dropped s;
     rebalance := rebalance s; current_time := current_time s |}.
Definition with_bumps (b : list (list (Z * Z))) (d : Z) (s : server) : server :=
  {| mem := mem s; table := table s; lrus := lrus s; slab := slab s; schunks := schunks s; cas_id := cas_id s;
     curr_items := curr_items s; curr_bytes := curr_bytes s; total_items := total_items s; istats := istats s;
     sizes_hist := sizes_hist s; sizes_cas_min := sizes_cas_min s; bumps := b; dropped := d;
     rebalance := rebalance s; current_time := current_time s |}.
Definition with_rebal (r : rebal) (s : server) : server :=
  {| mem := mem s; table := table s; lrus := lrus s; slab := slab s; schunks := schunks s; cas_id := cas_id s;
     curr_items := curr_items s; curr_bytes := curr_bytes s; total_items := total_items s; istats := istats s;
     sizes_hist := sizes_hist s; sizes_cas_min := sizes_cas_min s; bumps := bumps s; dropped := dropped s;
     rebalance := r; current_time := current_time s |}.
Definition with_schunk (p : Z) (v : Z * Z) (s : server) : server :=
  {| mem := mem s; table := table s; lrus := lrus s; slab := slab s; schunks := <[p := v]> (schunks s); cas_id := cas_id s;
     curr_items := curr_items s; curr_bytes := curr_bytes s; total_items := total_items s; istats := istats s;
     sizes_hist := sizes_hist s; sizes_cas_min := sizes_cas_min s; bumps := bumps s; dropped := dropped s;
     rebalance := rebalance s; current_time := current_time s |}.

(** A store to a field of an item. *)
Definition upd_item (f : item -> item) (p : Z) (s : server) : server := with_mem (alter f p (mem s)) s.
Definition item_at (s : server) (p : Z) : item := get (mem s) p.

(** [itemstats[id].st += n], and the assignment of [evicted_time]. *)
Definition stat_set (id : Z) (st : stat) (v : Z) (s : server) : server :=
  with_istats (fun i t => if decide (i = id /\ t = st) then v else istats s i t) s.
Definition stat_add (id : Z) (st : stat) (n : Z) (s : server) : server := stat_set id st (u64 (istats s id st + n)) s.

Section items.
Context (set : item_settings).
(** The hash function, and a bound on the chunks of a large item. *)
Context (hash : list Z -> Z) (nchunks : nat).

Definition item_stats_reset (s : server) : server := with_istats (fun _ _ => 0) s.
Definition do_item_stats_add_crawl (i reclaims unfetched checked : Z) (s : server) : server :=
  stat_add i crawler_items_checked checked (stat_add i expired_unfetched unfetched (stat_add i crawler_reclaimed reclaims s)).

Definition get_cas_id (s : server) : Z * server := let next_id := u64 (cas_id s + 1) in (next_id, with_cas next_id s).
Definition set_cas_id (new_cas : Z) (s : server) : server := with_cas new_cas s.

Definition item_is_flushed (s : server) (it : item) : bool :=
  let cas := ITEM_get_cas it in
  if (oldest_live set =? 0) || (current_time s <? oldest_live set) then false
  else (time it <=? oldest_live set)
       || (negb (oldest_cas set =? 0) && negb (cas =? 0) && (cas <? oldest_cas set)).

(** The number of suffix bytes and the total size; the key length is an 8-bit argument. *)
Definition item_make_header (nk flags nbytes : Z) : Z * Z :=
  let nsuffix := if flags =? 0 then 0 else 4 in
  (nsuffix, u64 (sizeof_item + u8 nk + nsuffix + nbytes)).

(** [ITEM_set_cas] *)
Definition ITEM_set_cas (v : Z) (it : item) : item := if has_flag ITEM_CAS it then set_cas v it else it.

(** [FLAGS_CONV]: the client flags of an item. *)
Definition FLAGS_CONV (it : item) : Z := if has_flag ITEM_CFLAGS it then iflags it else 0.

(** ** Size histogram *)

Definition item_stats_sizes_status (s : server) : bool := bool_decide (is_Some (sizes_hist s)).
Definition sizes_buckets : Z := item_size_max (slab_set set) / 32 + 1.
(** [calloc] tells whether the histogram could be allocated. *)
Definition item_stats_sizes_init (calloc : bool) (s : server) : server :=
  if item_stats_sizes_status s then s
  else
    let hist := if calloc then Some (replicate (Z.to_nat sizes_buckets) 0) else None in
    let '(min, s) := if use_cas set then get_cas_id s else (0, s) in
    with_hist hist min s.
Definition item_stats_sizes_disable (s : server) : server := with_hist None (sizes_cas_min s) s.
Definition sizes_change (d : Z) (p : Z) (s : server) : server :=
  match sizes_hist s with
  | None => s
  | Some hist =>
      if ITEM_get_cas (item_at s p) <? sizes_cas_min s then s
      else
        let ntotal := ITEM_ntotal (item_at s p) in
        let bucket := if ntotal mod 32 =? 0 then ntotal / 32 else ntotal / 32 + 1 in
        if bucket <? sizes_buckets
        then with_hist (Some (<[Z.to_nat bucket := u32 (nth (Z.to_nat bucket) hist 0 + d)]> hist)) (sizes_cas_min s) s
        else s
  end.
Definition item_stats_sizes_add (p : Z) (s : server) : server := sizes_change 1 p s.
Definition item_stats_sizes_remove (p : Z) (s : server) : server := sizes_change (-1) p s.

(** ** Linking and reference counts *)

Definition refcount_incr (p : Z) (s : server) : server :=
  upd_item (fun it => set_refcount (u16 (refcount it + 1)) it) p s.
Definition refcount_decr (p : Z) (s : server) : server :=
  upd_item (fun it => set_refcount (u16 (refcount it - 1)) it) p s.

Definition schunk_of (s : server) (p : Z) : Z * Z := default (0, 0) (schunks s !! p).

Definition item_free (p : Z) (s : server) : server :=
  let '(h, sl) := do_slabs_free (schunk_of s) nchunks (mem s) (slab s) p (ITEM_clsid (item_at s p)) in
  with_slab h sl s.

Definition do_item_remove (p : Z) (s : server) : server :=
  let s := refcount_decr p s in
  if refcount (item_at s p) =? 0 then item_free p s else s.

Definition item_link_q (p : Z) (s : server) : server :=
  let '(h, L) := do_item_link_q (mem s) (lrus s) p in with_lru h L s.
Definition item_link_q_warm (p : Z) (s : server) : server :=
  let s := item_link_q p s in stat_add (slabs_clsid (item_at s p)) moves_to_warm 1 s.
Definition item_unlink_q (p : Z) (s : server) : server :=
  let '(h, L) := do_item_unlink_q (mem s) (lrus s) p in with_lru h L s.

(** A CAS id is only drawn for an item that has room for it. *)
Definition do_item_link (p hv : Z) (s : server) : server :=
  let s := upd_item (or_flag ITEM_LINKED) p s in
  let s := upd_item (set_time (current_time s)) p s in
  let s := count_items (ITEM_ntotal (item_at s p)) 1 1 s in
  let '(cas, s) := if has_flag ITEM_CAS (item_at s p) && use_cas set then get_cas_id s else (0, s) in
  let s := upd_item (ITEM_set_cas cas) p s in
  let '(h, t) := assoc_insert (mem s) (table s) p hv in
  let s := with_table h t s in
  let s := item_link_q p s in
  let s := refcount_incr p s in
  item_stats_sizes_add p s.

(** Both versions of the source: they differ in the lock they take. *)
Definition do_item_unlink (p hv : Z) (s : server) : option server :=
  if has_flag ITEM_LINKED (item_at s p) then
    let s := upd_item (clear_flag ITEM_LINKED) p s in
    let s := count_items (- ITEM_ntotal (item_at s p)) (-1) 0 s in
    let s := item_stats_sizes_remove p s in
    match assoc_delete (mem s) (table s) (ikey (item_at s p)) hv with
    | Some (h, t) =>
        let s := with_table h t s in
        let s := item_unlink_q p s in
        Some (do_item_remove p s)
    | None => None
    end
  else Some s.
Definition do_item_unlink_nolock (p hv : Z) (s : server) : option server := do_item_unlink p hv s.

Definition ITEM_UPDATE_INTERVAL : Z := 60.

(** Give an item that is in no queue another LRU of its class. *)
Definition move_lru (lru_id : Z) (p : Z) (s : server) : server :=
  let s := upd_item (fun it => set_clsid (ITEM_clsid it) it) p s in
  upd_item (fun it => set_clsid (Z.lor (slabs_clsid it) lru_id) it) p s.

Definition do_item_update (p : Z) (s : server) : server :=
  let it := item_at s p in
  if lru_segmented set then
    if has_flag ITEM_LINKED it then
      if (ITEM_lruid it =? COLD_LRU) && has_flag ITEM_ACTIVE it then
        let s := upd_item (set_time (current_time s)) p s in
        let s := item_unlink_q p s in
        let s := move_lru WARM_LRU p s in
        let s := upd_item (clear_flag ITEM_ACTIVE) p s in
        item_link_q_warm p s
      else upd_item (set_time (current_time s)) p s
    else s
  else if time it <? u32 (current_time s - ITEM_UPDATE_INTERVAL) then
    if has_flag ITEM_LINKED it then
      let s := upd_item (set_time (current_time s)) p s in
      let s := item_unlink_q p s in
      item_link_q p s
    else s
  else s.

Definition do_item_replace (it new_it hv : Z) (s : server) : option server :=
  match do_item_unlink it hv s with
  | Some s => Some (do_item_link new_it hv s)
  | None => None
  end.

(** ** Fetching *)

(** The bump buffers, one for each worker thread, hold the queued entries; [room] is the
    buffer of the calling thread if it takes the entry, and [None] if it is full: then the
    reference is given back. *)
Definition lru_bump_async (room : option nat) (p hv : Z) (s : server) : bool * server :=
  let s := refcount_incr p s in
  match room with
  | Some b => (true, with_bumps (alter (fun q => q ++ [(p, hv)]) b (bumps s)) (dropped s) s)
  | None => (false, refcount_decr p (with_bumps (bumps s) (u64 (dropped s + 1)) s))
  end.

Definition do_item_bump (room : option nat) (p hv : Z) (s : server) : server :=
  let it := item_at s p in
  if lru_segmented set then
    if has_flag ITEM_ACTIVE it then s
    else if has_flag ITEM_FETCHED it then
      let s := upd_item (or_flag ITEM_ACTIVE) p s in
      if negb (ITEM_lruid it =? COLD_LRU) then upd_item (set_time (current_time s)) p s
      else
        let '(ok, s) := lru_bump_async room p hv s in
        if ok then s else upd_item (clear_flag ITEM_ACTIVE) p s
    else upd_item (or_flag ITEM_FETCHED) p s
  else do_item_update p (upd_item (or_flag ITEM_FETCHED) p s).

Definition expired (s : server) (it : item) : bool := negb (exptime it =? 0) && (exptime it <=? current_time s).

Definition do_item_get (room : option nat) (key : list Z) (hv : Z) (do_update : bool) (s : server) : option (Z * server) :=
  let it := assoc_find (mem s) (table s) key hv in
  if it =? 0 then Some (0, s)
  else
    let s := refcount_incr it s in
    if item_is_flushed s (item_at s it) || expired s (item_at s it) then
      match do_item_unlink it hv s with
      | Some s => Some (0, do_item_remove it s)
      | None => None
      end
    else if do_update then Some (it, do_item_bump room it hv s)
    else Some (it, s).

Definition do_item_touch (room : option nat) (key : list Z) (exptime hv : Z) (s : server) : option (Z * server) :=
  match do_item_get room key hv true s with
  | Some (it, s) => if it =? 0 then Some (0, s) else Some (it, upd_item (set_exptime exptime) it s)
  | None => None
  end.

(** ** The page mover's mailbox (slabs.c) *)

Definition put_rebal (src dst sig cur : Z) (s : server) : server :=
  with_rebal {| s_clsid := src; d_clsid := dst; signal := sig; pick_cur := cur |} s.

Fixpoint pick_any_loop (tries : nat) (dst : Z) (s : server) : Z * server :=
  match tries with
  | O => (-1, s)
  | S tries =>
      let r := rebalance s in
      let cur := pick_cur r + 1 in
      let cur := if power_largest (slab s) <? cur then POWER_SMALLEST else cur in
      let s := put_rebal (s_clsid r) (d_clsid r) (signal r) cur s in
      if cur =? dst then pick_any_loop tries dst s
      else if 1 <? sc_slabs (cls (slab s) cur) then (cur, s)
      else pick_any_loop tries dst s
  end.
Definition slabs_reassign_pick_any (dst : Z) (s : server) : Z * server :=
  pick_any_loop (Z.to_nat (power_largest (slab s) - POWER_SMALLEST + 1)) dst s.

Inductive reassign_result := REASSIGN_OK | REASSIGN_RUNNING | REASSIGN_BADCLASS | REASSIGN_NOSPARE | REASSIGN_SRC_DST_SAME.

Definition do_slabs_reassign (src dst : Z) (s : server) : reassign_result * server :=
  if negb (signal (rebalance s) =? 0) then (REASSIGN_RUNNING, s)
  else if src =? dst then (REASSIGN_SRC_DST_SAME, s)
  else
    let '(src, s) := if src =? -1 then slabs_reassign_pick_any dst s else (src, s) in
    let largest := power_largest (slab s) in
    if (src <? SLAB_GLOBAL_PAGE_POOL) || (largest <? src) || (dst <? SLAB_GLOBAL_PAGE_POOL) || (largest <? dst)
    then (REASSIGN_BADCLASS, s)
    else if sc_slabs (cls (slab s) src) <? 2 then (REASSIGN_NOSPARE, s)
    else (REASSIGN_OK, put_rebal src dst 1 (pick_cur (rebalance s)) s).

(** [locked]: the mover holds its lock. *)
Definition slabs_reassign (locked : bool) (src dst : Z) (s : server) : reassign_result * server :=
  if locked then (REASSIGN_RUNNING, s) else do_slabs_reassign src dst s.

(** ** Eviction *)

Definition LRU_PULL_EVICT : Z := 1.
Definition LRU_PULL_CRAWL_BLOCKS : Z := 2.
Definition LRU_PULL_RETURN_ITEM : Z := 4.

(** [search->nbytes == 0 && search->nkey == 0 && search->it_flags == 1] *)
Definition is_crawler (it : item) : bool := (nbytes it =? 0) && (nkey it =? 0) && (it_flags it =? 1).

(** What a round of the loop does next: the item the loop stopped with (0 for none),
    whether it moves to another LRU, the number removed, and the returned item. *)
Record pulled := { p_it : Z; p_move : Z; p_removed : Z; p_ret : Z }.

(** The [switch] over the queue that is pulled, on an item that is neither expired nor
    flushed; [limit] and [max_age] are those of the call. *)
Definition pull_live (locked : bool) (orig_id cur_lru id total_bytes flags max_age hv p removed : Z) (s : server)
    : option (pulled * server) :=
  let it := item_at s p in
  if (cur_lru =? HOT_LRU) || (cur_lru =? WARM_LRU) then
    let hot := u64 (total_bytes * hot_lru_pct set) / 100 in
    let warm := u64 (total_bytes * warm_lru_pct set) / 100 in
    let limit := if (cur_lru =? HOT_LRU) && negb (hot =? 0) then hot else warm in
    if has_flag ITEM_ACTIVE it then
      let s := upd_item (clear_flag ITEM_ACTIVE) p s in
      if cur_lru =? WARM_LRU then
        let s := stat_add id moves_within_lru 1 s in
        let s := item_link_q p (item_unlink_q p s) in
        Some ({| p_it := 0; p_move := 0; p_removed := removed + 1; p_ret := 0 |}, do_item_remove p s)
      else
        let s := stat_add id moves_to_warm 1 s in
        Some ({| p_it := p; p_move := WARM_LRU; p_removed := removed + 1; p_ret := 0 |}, item_unlink_q p s)
    else if (limit <? at_id (sizes_bytes (lrus s)) id) || (max_age <? u32 (current_time s - time it)) then
      let s := stat_add id moves_to_cold 1 s in
      Some ({| p_it := p; p_move := COLD_LRU; p_removed := removed + 1; p_ret := 0 |}, item_unlink_q p s)
    else Some ({| p_it := p; p_move := 0; p_removed := removed; p_ret := 0 |}, s)
  else if cur_lru =? COLD_LRU then
    if negb (Z.land flags LRU_PULL_EVICT =? 0) then
      if evict_to_free set then
        let s := stat_add id evicted 1 s in
        let s := stat_set id evicted_time (u32 (current_time s - time it)) s in
        let s := if exptime it =? 0 then s else stat_add id evicted_nonzero 1 s in
        let s := if has_flag ITEM_FETCHED it then s else stat_add id evicted_unfetched 1 s in
        let s := if has_flag ITEM_ACTIVE it then stat_add id evicted_active 1 s else s in
        match do_item_unlink_nolock p hv s with
        | Some s =>
            let s := if slab_automove set =? 2 then snd (slabs_reassign locked (-1) orig_id s) else s in
            Some ({| p_it := p; p_move := 0; p_removed := removed + 1; p_ret := 0 |}, s)
        | None => None
        end
      else Some ({| p_it := p; p_move := 0; p_removed := removed; p_ret := 0 |}, s)
    else if negb (Z.land flags LRU_PULL_RETURN_ITEM =? 0) then
      Some ({| p_it := p; p_move := 0; p_removed := removed; p_ret := p |}, s)
    else if has_flag ITEM_ACTIVE it && lru_segmented set then
      let s := stat_add id moves_to_warm 1 s in
      let s := upd_item (clear_flag ITEM_ACTIVE) p s in
      Some ({| p_it := p; p_move := WARM_LRU; p_removed := removed + 1; p_ret := 0 |}, item_unlink_q p s)
    else Some ({| p_it := p; p_move := 0; p_removed := removed; p_ret := 0 |}, s)
  else (* TEMP_LRU *)
    Some ({| p_it := p; p_move := 0; p_removed := removed; p_ret := 0 |}, s).

(** One item at the tail: its lock, the reference count, repair, expiry.  A null [p_it]
    lets the loop go on. *)
Definition pull_one (trylock : Z -> bool) (locked : bool) (orig_id cur_lru id total_bytes flags max_age p removed : Z)
    (s : server) : option (pulled * server) :=
  let again removed := {| p_it := 0; p_move := 0; p_removed := removed; p_ret := 0 |} in
  let hv := hash (ikey (item_at s p)) in
  if negb (trylock hv) then Some (again removed, s)
  else
    let s := refcount_incr p s in
    let busy := negb (refcount (item_at s p) =? 2) in
    let s := if busy then stat_add id lrutail_reflocked 1 s else s in
    if busy && negb (tail_repair_time set =? 0)
       && (u32 (time (item_at s p) + tail_repair_time set) <? current_time s) then
      let s := stat_add id tailrepairs 1 s in
      let s := upd_item (set_refcount 1) p s in
      match do_item_unlink_nolock p hv s with
      | Some s => Some (again removed, s)
      | None => None
      end
    else if (negb (exptime (item_at s p) =? 0) && (exptime (item_at s p) <? current_time s))
            || item_is_flushed s (item_at s p) then
      let s := stat_add id reclaimed 1 s in
      let s := if has_flag ITEM_FETCHED (item_at s p) then s else stat_add id expired_unfetched 1 s in
      match do_item_unlink_nolock p hv s with
      | Some s => Some (again (removed + 1), do_item_remove p s)
      | None => None
      end
    else pull_live locked orig_id cur_lru id total_bytes flags max_age hv p removed s.

(** The loop: up to [tries] items from the tail on; crawlers do not count.  A caller with
    5 tries meets at most 5 items and every crawler once. *)
Fixpoint pull_loop (trylock : Z -> bool) (locked : bool) (orig_id cur_lru id total_bytes flags max_age : Z)
    (fuel : nat) (tries : Z) (search removed : Z) (s : server) : option (bool * pulled * server) :=
  match fuel with
  | O => Some (false, {| p_it := 0; p_move := 0; p_removed := removed; p_ret := 0 |}, s)
  | S fuel =>
      if (tries <=? 0) || (search =? 0) then
        Some (false, {| p_it := 0; p_move := 0; p_removed := removed; p_ret := 0 |}, s)
      else
        let next_it := prev (item_at s search) in
        if is_crawler (item_at s search) then
          if negb (Z.land flags LRU_PULL_CRAWL_BLOCKS =? 0) then
            Some (true, {| p_it := 0; p_move := 0; p_removed := 0; p_ret := 0 |}, s)
          else pull_loop trylock locked orig_id cur_lru id total_bytes flags max_age fuel tries next_it removed s
        else
          match pull_one trylock locked orig_id cur_lru id total_bytes flags max_age search removed s with
          | Some (r, s) =>
              if p_it r =? 0 then
                pull_loop trylock locked orig_id cur_lru id total_bytes flags max_age fuel (tries - 1) next_it (p_removed r) s
              else Some (false, r, s)
          | None => None
          end
  end.

(** The number of items removed, the returned item, and the store. *)
Definition lru_pull_tail (trylock : Z -> bool) (locked : bool) (orig_id cur_lru total_bytes flags max_age : Z) (s : server)
    : option (Z * Z * server) :=
  if orig_id =? 0 then Some (0, 0, s)
  else
    let id := Z.lor orig_id cur_lru in
    match pull_loop trylock locked orig_id cur_lru id total_bytes flags max_age (6 + size (mem s)) 5
            (at_id (tails (lrus s)) id) 0 s with
    | Some (stop, r, s) =>
        if stop || (p_it r =? 0) then Some (p_removed r, 0, s)
        else
          let s := if p_move r =? 0 then s else item_link_q (p_it r) (move_lru (p_move r) (p_it r) s) in
          let s := if Z.land flags LRU_PULL_RETURN_ITEM =? 0 then do_item_remove (p_it r) s else s in
          Some (p_removed r, p_ret r, s)
    | None => None
    end.

(** ** Allocation *)

(** [slabs_alloc] *)
Definition alloc_chunk (e : env) (id flags : Z) (s : server) : Z * server :=
  let '(it, h, sl) := do_slabs_alloc (slab_set set) (schunk_of s) nchunks e (mem s) (slab s) id flags in
  (it, with_slab h sl s).

(** The loop of [do_item_alloc_pull] from round [i] on, with the number of rounds it
    took; [es i] gives the answers of the C library in round [i], which may depend on what is
    allocated. *)
Fixpoint alloc_loop (es : nat -> slabs_t -> env) (trylock : Z -> bool) (locked : bool) (id : Z) (n i : nat) (s : server)
    : option (Z * nat * server) :=
  match n with
  | O => Some (0, i, s)
  | S n =>
      let pull cur flags s := match lru_pull_tail trylock locked id cur 0 flags 0 s with
                              | Some (r, _, s) => Some (r, s) | None => None end in
      match (if lru_segmented set then Some (0, s) else pull COLD_LRU 0 s) with
      | None => None
      | Some (_, s) =>
          let '(it, s) := alloc_chunk (es i (slab s)) id 0 s in
          if it =? 0 then
            match pull COLD_LRU LRU_PULL_EVICT s with
            | None => None
            | Some (r, s) =>
                if r <=? 0 then
                  if lru_segmented set then
                    match pull HOT_LRU 0 s with
                    | None => None
                    | Some (_, s) => alloc_loop es trylock locked id n (S i) s
                    end
                  else Some (0, i, s)
                else alloc_loop es trylock locked id n (S i) s
            end
          else Some (it, i, s)
      end
  end.

Definition do_item_alloc_pull (es : nat -> slabs_t -> env) (trylock : Z -> bool) (locked : bool) (id : Z) (s : server)
    : option (Z * server) :=
  match alloc_loop es trylock locked id 10 0 s with
  | Some (it, i, s) =>
      Some (it, if (i =? 0)%nat then s else stat_add id direct_reclaims (Z.of_nat i) s)
  | None => None
  end.

(** [sizeof(item_chunk)] *)
Definition sizeof_item_chunk : Z := 48.

(** The new item: key, client flags and sizes; the value is written by the caller. *)
Definition init_item (id : Z) (key : list Z) (flags nsuffix exptime nbytes : Z) (it : item) : item :=
  mk_item 0 0 0 (time it) exptime nbytes (refcount it)
    (Z.lor (Z.lor (it_flags it) (if use_cas set then ITEM_CAS else 0)) (if nsuffix =? 0 then 0 else ITEM_CFLAGS))
    (u8 id) key (icas it) (if nsuffix =? 0 then iflags it else flags) (idata it).

Definition do_item_alloc (es : nat -> slabs_t -> env) (trylock : Z -> bool) (locked : bool) (key : list Z) (flags exptime nbytes : Z)
    (s : server) : option (Z * server) :=
  let nk := Z.of_nat (length key) in
  if nbytes <? 2 then Some (0, s)
  else
    let '(nsuffix, ntotal) := item_make_header (nk + 1) flags nbytes in
    let ntotal := if use_cas set then u64 (ntotal + 8) else ntotal in
    let id := slabs_clsid_of (slab_set set) (slab s) ntotal in
    if id =? 0 then Some (0, s)
    else
      let large := slab_chunk_size_max (slab_set set) <? ntotal in
      let htotal := nk + 1 + nsuffix + sizeof_item + sizeof_item_chunk + (if use_cas set then 8 else 0) in
      let hdr_id := if large then slabs_clsid_of (slab_set set) (slab s) htotal else 0 in
      match do_item_alloc_pull es trylock locked (if large then hdr_id else id) s with
      | None => None
      | Some (it, s) =>
          if it =? 0 then Some (0, stat_add id outofmemory 1 s)
          else
            let s := if large then upd_item (or_flag ITEM_CHUNKED) it s else s in
            let id := if temp_lru set && (u32 (exptime - current_time s) <=? temporary_ttl set) then Z.lor id TEMP_LRU
                      else if lru_segmented set then Z.lor id HOT_LRU
                      else Z.lor id COLD_LRU in
            let s := upd_item (init_item id key flags nsuffix exptime nbytes) it s in
            Some (it, if large then with_schunk it (0, hdr_id) s else s)
      end.

Definition item_size_ok (nk flags nbytes : Z) (s : server) : bool :=
  if nbytes <? 2 then false
  else
    let '(_, ntotal) := item_make_header (nk + 1) flags nbytes in
    let ntotal := if use_cas set then u64 (ntotal + 8) else ntotal in
    negb (slabs_clsid_of (slab_set set) (slab s) ntotal =? 0).

(** Re-linking an item whose queue pointers survived a restart. *)
Definition do_item_link_fixup (p : Z) (s : server) : server :=
  let ntotal := ITEM_ntotal (item_at s p) in
  let '(h, t) := assoc_insert (mem s) (table s) p (hash (ikey (item_at s p))) in
  let s := with_table h t s in
  let id := slabs_clsid (item_at s p) in
  let L := lrus s in
  let L := if (prev (item_at s p) =? 0) && (at_id (heads L) id =? 0) then set_heads L id p else L in
  let L := if (next (item_at s p) =? 0) && (at_id (tails L) id =? 0) then set_tails L id p else L in
  let s := with_lru (mem s) (add_sizes L id 1 ntotal) s in
  item_stats_sizes_add p (count_items ntotal 1 1 s).

(** ** The maintenance thread's passes *)

(** One entry, the first [n] entries of buffer [b], and the pass over all buffers: [ns] are
    the numbers of entries [bipbuf_peek_all] shows, which may be fewer than are queued. *)
Definition bump_one (e : Z * Z) (s : server) : server := do_item_remove (fst e) (do_item_update (fst e) s).
Definition bump_buffer (b n : nat) (s : server) : server :=
  let s := fold_left (fun s e => bump_one e s) (take n (nth b (bumps s) [])) s in
  with_bumps (alter (drop n) b (bumps s)) (dropped s) s.
Definition lru_maintainer_bumps (ns : list nat) (s : server) : bool * server :=
  (existsb (fun n => negb (n =? 0)%nat) ns, fold_left (fun s bn => bump_buffer bn.1 bn.2 s) (imap pair ns) s).

Definition fill_item_stats_automove (s : server) : list (Z * Z * Z) :=
  map (fun n => (istats s (Z.lor n HOT_LRU) outofmemory, istats s (Z.lor n COLD_LRU) evicted,
                 let tail := at_id (tails (lrus s)) (Z.lor n COLD_LRU) in
                 if tail =? 0 then 0 else u32 (current_time s - time (item_at s tail))))
    (seqZ 0 MAX_NUMBER_OF_SLAB_CLASSES).

Section juggle.
Context (trylock : Z -> bool) (locked : bool) (clsid : Z).
Definition pull (cur total flags age : Z) (s : server) : option (Z * server) :=
  match lru_pull_tail trylock locked clsid cur total flags age s with
  | Some (r, _, s) => Some (r, s)
  | None => None
  end.

Fixpoint temp_loop (n : nat) (moves : Z) (s : server) : option (Z * server) :=
  match n with
  | O => Some (moves, s)
  | S n => match pull TEMP_LRU 0 0 0 s with
           | Some (r, s) => if r <=? 0 then Some (moves, s) else temp_loop n (moves + 1) s
           | None => None
           end
  end.

Fixpoint juggle_loop (total hot_age warm_age : Z) (n : nat) (moves : Z) (s : server) : option (Z * server) :=
  match n with
  | O => Some (moves, s)
  | S n =>
      match pull HOT_LRU total LRU_PULL_CRAWL_BLOCKS hot_age s with
      | None => None
      | Some (r, s) =>
          match (if r =? 0 then pull WARM_LRU total LRU_PULL_CRAWL_BLOCKS warm_age s else Some (r, s)) with
          | None => None
          | Some (r, s) =>
              let more := if r =? 0 then 0 else 1 in
              match (if lru_segmented set then pull COLD_LRU total LRU_PULL_CRAWL_BLOCKS 0 s else Some (0, s)) with
              | None => None
              | Some (r, s) =>
                  if more + r =? 0 then Some (moves, s)
                  else juggle_loop total hot_age warm_age n (moves + 1) s
              end
          end
      end
  end.

Definition lru_maintainer_juggle (s : server) : option (Z * server) :=
  match (if temp_lru set then temp_loop 500 0 s else Some (0, s)) with
  | None => None
  | Some (moves, s) =>
      let tail := at_id (tails (lrus s)) (Z.lor clsid COLD_LRU) in
      let bytes lru_id := at_id (sizes_bytes (lrus s)) (Z.lor clsid lru_id) in
      let cold_age := if lru_segmented set && negb (tail =? 0) then u32 (current_time s - time (item_at s tail)) else 0 in
      let total := if lru_segmented set then u64 (bytes COLD_LRU + bytes HOT_LRU + bytes WARM_LRU) else 0 in
      let hot_age := if lru_segmented set then trunc_u32 (SFmul 53 1024 (double cold_age) (hot_max_factor set)) else 0 in
      let warm_age := if lru_segmented set then trunc_u32 (SFmul 53 1024 (double cold_age) (warm_max_factor set)) else 0 in
      juggle_loop total hot_age warm_age 500 moves s
  end.
End juggle.
End items.
