(* ===== verification/McItemStore.v ===== *)
(** The item store is consistent: the hash table, the LRU queues, the slab allocator and
    the reference counts of items.c agree with each other in every history.

    The specification keeps a map from keys to items, the list of items of every queue,
    the chunks in use and, for every item, the number of references its users hold.  An
    item is in the table exactly when it is in a queue and carries the LINKED flag; its
    reference count is the number of its users, plus one for the link; a chunk is in use
    exactly as long as that count is positive. *)
From S2P Require Import Prelude McItem McAssoc McLru McSlabs McItems.

(** ** Flags *)

Lemma has_flag_or f g it : Z.land g f = 0 -> has_flag f (or_flag g it) = has_flag f it.
Proof.
  intros Hfg. unfold has_flag, or_flag. cbn [it_flags set_flags]. by rewrite Z.land_lor_distr_l, Hfg, Z.lor_0_r.
Qed.
Lemma has_flag_or_same f it : f <> 0 -> has_flag f (or_flag f it) = true.
Proof.
  intros Hf. unfold has_flag, or_flag. cbn [it_flags set_flags].
  assert (Z.land (Z.lor (it_flags it) f) f = f) as ->; [|apply negb_true_iff; by apply Z.eqb_neq].
  apply Z.bits_inj'. intros n Hn. rewrite Z.land_spec, Z.lor_spec. by destruct (Z.testbit (it_flags it) n), (Z.testbit f n).
Qed.
Lemma has_flag_clear f g it : Z.land g f = 0 -> has_flag f (clear_flag g it) = has_flag f it.
Proof.
  intros Hfg. unfold has_flag, clear_flag. cbn [it_flags set_flags]. f_equal. f_equal.
  apply Z.bits_inj'. intros n Hn. rewrite !Z.land_spec, Z.ldiff_spec.
  pose proof (f_equal (fun z => Z.testbit z n) Hfg) as Hb. cbv beta in Hb. rewrite Z.land_spec, Z.bits_0 in Hb.
  destruct (Z.testbit (it_flags it) n), (Z.testbit g n), (Z.testbit f n); done.
Qed.
Lemma has_flag_clear_same f it : has_flag f (clear_flag f it) = false.
Proof. unfold has_flag, clear_flag. cbn [it_flags set_flags]. by rewrite Z.land_ldiff. Qed.

(** ** The invariant *)

(** The fields the data structures are built from. *)
Definition links (it : item) : Z * Z * Z * list Z * Z * Z :=
  (next it, prev it, h_next it, ikey it, slabs_clsid it, ITEM_ntotal it).

Definition linked (M : gmap (list Z) Z) (x : Z) : Prop := exists k, M !! k = Some x.

(** A chunk in use, of class [c]: its header, and the meaning of its reference count. *)
Definition used_ok (h : heap) (M : gmap (list Z) Z) (R : Z -> Z) (c x : Z) : Prop :=
  exists it, h !! x = Some it /\ ITEM_clsid it = c /\ 0 <= slabs_clsid it < 256 /\
    has_flag ITEM_CHUNKED it = false /\ has_flag ITEM_SLABBED it = false /\
    0 <= R x /\ refcount it < 2 ^ 16 /\
    (linked M x /\ has_flag ITEM_LINKED it = true /\ refcount it = R x + 1 \/
     ~ linked M x /\ has_flag ITEM_LINKED it = false /\ refcount it = R x /\ 0 < R x).

Section store.
Context (set : item_settings) (hash : list Z -> Z) {Hhash : KeyHash hash} (nchunks : nat).
Context (Hpage : 0 < slab_page_size (slab_set set) < 2 ^ 31).

Record wf (s : server) (M : gmap (list Z) Z) (Q F U : Z -> list Z) (R : Z -> Z) : Prop := {
  w_table : exists C, rep hash (mem s) (table s) C M;
  w_lru : lru_rep ∅ (mem s) (lrus s) Q;
  w_slab : sinv (slab_set set) [] (mem s) (slab s) F U;
  w_queues : forall x, linked M x <-> exists id, x ∈ Q id;
  w_used : forall c x, x ∈ U c -> used_ok (mem s) M R c x;
  w_linked : forall x, linked M x -> exists c, x ∈ U c;
  w_refs : forall x, R x <> 0 -> exists c, x ∈ U c;
  w_count : curr_items s = u64 (Z.of_nat (size M))
}.

(** The other parts of the state do not matter. *)
Lemma wf_ext s s' M Q F U R : mem s' = mem s -> table s' = table s -> lrus s' = lrus s -> slab s' = slab s ->
  curr_items s' = curr_items s -> wf s M Q F U R -> wf s' M Q F U R.
Proof. intros E1 E2 E3 E4 E5 [? ? ? ? ? ? ? ?]. split; by rewrite ?E1, ?E2, ?E3, ?E4, ?E5. Qed.

Lemma wf_R s M Q F U R R' : (forall x, R' x = R x) -> wf s M Q F U R -> wf s M Q F U R'.
Proof.
  intros HR [? ? ? ? Hu ? Hr ?]. split; try done.
  - intros c x Hx. destruct (Hu c x Hx) as (it & H). exists it. by rewrite HR.
  - intros x. rewrite HR. apply Hr.
Qed.

Lemma w_key s M Q F U R k x : wf s M Q F U R -> M !! k = Some x -> exists it, mem s !! x = Some it /\ ikey it = k.
Proof. intros [[C [_ HM]] _ _ _ _ _ _ _] Hk. by destruct (proj1 (HM k x) Hk) as [_ ?]. Qed.

Lemma w_key_unique s M Q F U R k k' x : wf s M Q F U R -> M !! k = Some x -> M !! k' = Some x -> k = k'.
Proof.
  intros Hw Hk Hk'. destruct (w_key _ _ _ _ _ _ _ _ Hw Hk) as (it & Hit & <-).
  destruct (w_key _ _ _ _ _ _ _ _ Hw Hk') as (it' & Hit' & <-). congruence.
Qed.

Lemma used_free_disjoint s M Q F U R c x i : wf s M Q F U R -> x ∈ U c -> x ∉ F i.
Proof.
  intros Hw Hx Hf. pose proof (w_slab _ _ _ _ _ _ Hw) as Hi.
  assert (i = c) as -> by (apply (chunk_one_class (slab_set set) Hpage [] _ _ F U i c x Hi); set_solver).
  pose proof (chunk_class _ _ _ _ _ _ _ _ Hi (ltac:(set_solver) : x ∈ F c ++ U c)) as Hc.
  pose proof (NoDup_class _ Hpage _ _ _ _ _ c Hi Hc) as (_ & Hd & _)%NoDup_app. by apply (Hd x).
Qed.

Lemma used_one_class s M Q F U R c c' x : wf s M Q F U R -> x ∈ U c -> x ∈ U c' -> c = c'.
Proof.
  intros Hw Hx Hx'. apply (chunk_one_class (slab_set set) Hpage [] _ _ F U c c' x (w_slab _ _ _ _ _ _ Hw)); set_solver.
Qed.

Lemma used_nonzero s M Q F U R c x : wf s M Q F U R -> x ∈ U c -> x <> 0.
Proof.
  intros Hw Hx. pose proof (w_slab _ _ _ _ _ _ Hw) as Hi. assert (x ∈ F c ++ U c) as Hin by set_solver.
  destruct (chunk_in_page _ Hpage _ _ _ _ _ c x Hi (chunk_class _ _ _ _ _ _ _ _ Hi Hin) Hin) as (p & _ & ? & _ & Hr).
  pose proof (si_pos _ _ _ _ _ _ Hi _ Hr). cbn in *. lia.
Qed.

(** Stores that keep the links of the chunks in use, and do not touch free chunks. *)
Definition frame (U F : Z -> list Z) (h h' : heap) : Prop :=
  (forall c x it, x ∈ U c -> h !! x = Some it -> exists it', h' !! x = Some it' /\ links it' = links it) /\
  (forall c x, x ∈ F c -> h' !! x = h !! x).

Lemma sinv_heap sl h h' F U : sinv (slab_set set) [] h sl F U -> (forall c x, x ∈ F c -> h' !! x = h !! x) ->
  sinv (slab_set set) [] h' sl F U.
Proof.
  intros [Hl Hpl Hcc Hls Hf Hch Ho Hpos Hd Hbb] Hk. split; try done.
  intros id Hid. destruct (Hf id Hid) as [Hfl Hcur]. split; [|done]. eapply freelist_ext; [|done]. intros x Hx. by apply (Hk id).
Qed.

Lemma wf_frame s h' M Q F U R R' : wf s M Q F U R -> frame U F (mem s) h' ->
  (forall c x, x ∈ U c -> used_ok h' M R' c x) -> (forall x, R' x <> 0 -> exists c, x ∈ U c) ->
  wf (with_mem h' s) M Q F U R'.
Proof.
  intros Hw [Hu Hf] Hok HR. pose proof Hw as [[C Ht] Hl Hs Hq _ Hlk _ Hc].
  split; try done.
  - exists C. apply (rep_ext hash (mem s)); [|done]. intros l x it Hx Hit.
    destruct (rep_member hash _ _ _ _ _ _ Ht Hx) as (it2 & Hit2 & HM). destruct (Hlk x ltac:(by eexists)) as [c Hxc].
    destruct (Hu c x it Hxc Hit) as (it' & Hit' & Hlinks). exists it'. injection Hlinks as ? ? ? ? ? ?. done.
  - apply (lru_rep_frame ∅ (mem s)); [done|]. intros id x it Hx Hit.
    destruct (Hlk x) as [c Hxc]; [apply Hq; by exists id|].
    destruct (Hu c x it Hxc Hit) as (it' & Hit' & Hlinks). exists it'. injection Hlinks as ? ? ? ? ? ?. done.
  - by apply (sinv_heap _ (mem s)).
Qed.

(** A store to one item in use. *)
Lemma frame_alter s M Q F U R c x f : wf s M Q F U R -> x ∈ U c -> (forall it, links (f it) = links it) ->
  frame U F (mem s) (alter f x (mem s)).
Proof.
  intros Hw Hx Hf. split.
  - intros i y it Hy Hit. destruct (decide (x = y)) as [-> |Hne].
    + exists (f it). rewrite lookup_alter_eq, Hit. done.
    + exists it. by rewrite lookup_alter_ne.
  - intros i y Hy. apply lookup_alter_ne. intros ->. by eapply used_free_disjoint.
Qed.

(** What the meaning of a chunk in use depends on. *)
Definition meta (it : item) : Z * Z * Z := (slabs_clsid it, it_flags it, refcount it).

Lemma used_ok_meta h h' M M' R R' c x : meta <$> h' !! x = meta <$> h !! x -> R' x = R x -> (linked M' x <-> linked M x) ->
  used_ok h M R c x -> used_ok h' M' R' c x.
Proof.
  intros Hh HR HM (it & Hit & H). rewrite Hit in Hh. cbn in Hh. apply fmap_Some in Hh as (it' & Hit' & Hm).
  injection Hm as Hc Hfl Hrc. exists it'. rewrite HR, HM. unfold ITEM_clsid, has_flag in *. rewrite <- Hc, <- Hfl, <- Hrc. done.
Qed.
Lemma used_ok_other h h' M M' R R' c x : h' !! x = h !! x -> R' x = R x -> (linked M' x <-> linked M x) ->
  used_ok h M R c x -> used_ok h' M' R' c x.
Proof. intros Hh. apply used_ok_meta. by rewrite Hh. Qed.

Lemma links_only_meta h h' q : links_only h h' -> meta <$> h' !! q = meta <$> h !! q.
Proof.
  intros Ho. specialize (Ho q). destruct (h !! q) as [it|], (h' !! q) as [it'|]; try done. cbn in *.
  apply (inj Some) in Ho. f_equal. change (meta (set_next 0 (set_prev 0 it')) = meta (set_next 0 (set_prev 0 it))). by f_equal.
Qed.
Lemma h_next_only_meta h h' q : h_next_only h h' -> meta <$> h' !! q = meta <$> h !! q.
Proof.
  intros Ho. specialize (Ho q). destruct (h !! q) as [it|], (h' !! q) as [it'|]; try done. cbn in *.
  apply (inj Some) in Ho. f_equal. change (meta (set_h_next 0 it') = meta (set_h_next 0 it)). by f_equal.
Qed.

(** One item changes its place in the data structures: what is left to show. *)
Lemma wf_relink s s' M M' Q Q' F U R R' c x : wf s M Q F U R -> x ∈ U c ->
  (exists C, rep hash (mem s') (table s') C M') -> lru_rep ∅ (mem s') (lrus s') Q' -> slab s' = slab s ->
  (forall y, y <> x -> meta <$> mem s' !! y = meta <$> mem s !! y) ->
  (forall i y, y ∈ F i -> mem s' !! y = mem s !! y) ->
  (forall y, y <> x -> linked M' y <-> linked M y) -> (forall y, linked M' y <-> exists id, y ∈ Q' id) ->
  (forall y, y <> x -> R' y = R y) -> used_ok (mem s') M' R' c x ->
  curr_items s' = u64 (Z.of_nat (size M')) -> wf s' M' Q' F U R'.
Proof.
  intros Hw Hx Ht Hl Es Hm HF HM HQ HR Hu Hc. split; try done.
  - rewrite Es. apply (sinv_heap _ (mem s)); [apply (w_slab _ _ _ _ _ _ Hw)|done].
  - intros i y Hy. destruct (decide (y = x)) as [-> |Hne].
    + assert (i = c) as -> by (by eapply used_one_class). done.
    + apply (used_ok_meta (mem s) _ M _ R); [by apply Hm|by apply HR|by apply HM|by apply (w_used _ _ _ _ _ _ Hw)].
  - intros y Hy. destruct (decide (y = x)) as [-> |Hne]; [by exists c|]. apply (w_linked _ _ _ _ _ _ Hw), HM; done.
  - intros y Hy. destruct (decide (y = x)) as [-> |Hne]; [by exists c|]. rewrite HR in Hy by done. by apply (w_refs _ _ _ _ _ _ Hw).
Qed.

(** No item of a queue is free. *)
Lemma queue_not_free s M Q F U R id i y : wf s M Q F U R -> y ∈ F i -> y ∉ Q id.
Proof.
  intros Hw Hy HQ. destruct (w_linked _ _ _ _ _ _ Hw y) as [c Hc]; [apply (w_queues _ _ _ _ _ _ Hw); by exists id|].
  by eapply used_free_disjoint.
Qed.

(** ** Stores to one item *)

(** Stores that keep the links, the reference count and the flags of the invariant. *)
Definition keeps (f : item -> item) : Prop := forall it,
  links (f it) = links it /\ refcount (f it) = refcount it /\ has_flag ITEM_LINKED (f it) = has_flag ITEM_LINKED it /\
  has_flag ITEM_CHUNKED (f it) = has_flag ITEM_CHUNKED it /\ has_flag ITEM_SLABBED (f it) = has_flag ITEM_SLABBED it.

Lemma keeps_time v : keeps (set_time v).
Proof. by intros it. Qed.
Lemma keeps_exptime v : keeps (set_exptime v).
Proof. by intros it. Qed.
Lemma keeps_set_cas v : keeps (ITEM_set_cas v).
Proof. intros it. unfold ITEM_set_cas. by case_if. Qed.

Lemma links_or g it : Z.land g ITEM_CAS = 0 -> Z.land g ITEM_CFLAGS = 0 -> links (or_flag g it) = links it.
Proof.
  intros H1 H2. unfold links, ITEM_ntotal. rewrite !has_flag_or by done. done.
Qed.
Lemma links_clear g it : Z.land g ITEM_CAS = 0 -> Z.land g ITEM_CFLAGS = 0 -> links (clear_flag g it) = links it.
Proof.
  intros H1 H2. unfold links, ITEM_ntotal. rewrite !has_flag_clear by done. done.
Qed.
Lemma keeps_or g : Z.land g (ITEM_LINKED + ITEM_CAS + ITEM_SLABBED + ITEM_CHUNKED + ITEM_CFLAGS) = 0 -> keeps (or_flag g).
Proof.
  intros Hg it. assert (forall f, Z.land (ITEM_LINKED + ITEM_CAS + ITEM_SLABBED + ITEM_CHUNKED + ITEM_CFLAGS) f = f -> Z.land g f = 0) as Hf.
  { intros f <-. by rewrite Z.land_assoc, Hg, Z.land_0_l. }
  rewrite links_or by (by apply Hf). rewrite !has_flag_or by (by apply Hf). done.
Qed.
Lemma keeps_clear g : Z.land g (ITEM_LINKED + ITEM_CAS + ITEM_SLABBED + ITEM_CHUNKED + ITEM_CFLAGS) = 0 -> keeps (clear_flag g).
Proof.
  intros Hg it. assert (forall f, Z.land (ITEM_LINKED + ITEM_CAS + ITEM_SLABBED + ITEM_CHUNKED + ITEM_CFLAGS) f = f -> Z.land g f = 0) as Hf.
  { intros f <-. by rewrite Z.land_assoc, Hg, Z.land_0_l. }
  rewrite links_clear by (by apply Hf). rewrite !has_flag_clear by (by apply Hf). done.
Qed.

Lemma wf_upd s M Q F U R c x f : wf s M Q F U R -> x ∈ U c -> keeps f -> wf (upd_item f x s) M Q F U R.
Proof.
  intros Hw Hx Hf. apply (wf_frame s _ M Q F U R R Hw).
  - eapply frame_alter; [done|done|]. intros it. apply Hf.
  - intros i y Hy. destruct (w_used _ _ _ _ _ _ Hw i y Hy) as (it & Hit & Hc & Hcl & Hch & Hsl & HR & Hb & Hl).
    destruct (decide (x = y)) as [-> |Hne].
    + exists (f it). rewrite lookup_alter_eq, Hit. destruct (Hf it) as (Hlk & Hrc & -> & -> & ->).
      injection Hlk as _ _ _ _ Hclsid _. unfold ITEM_clsid in *. rewrite Hclsid, Hrc. done.
    + exists it. by rewrite lookup_alter_ne.
  - apply (w_refs _ _ _ _ _ _ Hw).
Qed.

(** The number of references to one item. *)
Definition set_ref (R : Z -> Z) (x v : Z) : Z -> Z := fun y => if decide (y = x) then v else R y.
Lemma set_ref_same R x v : set_ref R x v x = v.
Proof. unfold set_ref. by rewrite decide_True. Qed.
Lemma set_ref_other R x v y : y <> x -> set_ref R x v y = R y.
Proof. intros Hne. unfold set_ref. by rewrite decide_False. Qed.

Lemma wf_refcount s M Q F U R c x n d : wf s M Q F U R -> x ∈ U c ->
  (forall it, mem s !! x = Some it -> n = u16 (refcount it + d) /\ 0 <= refcount it + d < 2 ^ 16) ->
  0 <= R x + d -> (0 < R x + d \/ linked M x) ->
  wf (upd_item (set_refcount n) x s) M Q F U (set_ref R x (R x + d)).
Proof.
  intros Hw Hx Hn HR0 Hpos. apply (wf_frame s _ M Q F U R); [done| | |].
  - by eapply frame_alter.
  - intros i y Hy. destruct (decide (x = y)) as [-> |Hne].
    + destruct (w_used _ _ _ _ _ _ Hw i y Hy) as (it & Hit & Hc & Hcl & Hch & Hsl & HR & Hb & Hl).
      destruct (Hn it Hit) as [-> Hr]. exists (set_refcount (u16 (refcount it + d)) it). rewrite lookup_alter_eq, Hit, set_ref_same.
      rewrite wrap_small by done. split_and!; try done; try (cbn [refcount slabs_clsid set_refcount]; lia).
      destruct Hl as [(? & ? & Hrc)|(? & ? & Hrc & ?)]; [left|right]; split_and!; try done; cbn [refcount set_refcount]; try lia.
      by destruct Hpos.
    + eapply (used_ok_other (mem s) _ M M R); [by rewrite lookup_alter_ne|by rewrite set_ref_other| |by apply Hw]. done.
  - intros y. destruct (decide (y = x)) as [-> |Hne]; [intros _; by exists c|]. rewrite set_ref_other by done. apply Hw.
Qed.

Lemma wf_refcount_incr s M Q F U R c x : wf s M Q F U R -> x ∈ U c -> R x + 2 < 2 ^ 16 ->
  wf (refcount_incr x s) M Q F U (set_ref R x (R x + 1)).
Proof.
  intros Hw Hx Hb. destruct (w_used _ _ _ _ _ _ Hw c x Hx) as (it & Hit & _ & _ & _ & _ & HR & _ & Hl).
  pose proof (wf_refcount s M Q F U R c x (u16 (refcount it + 1)) 1 Hw Hx) as Hwr.
  eapply (wf_ext (upd_item (set_refcount (u16 (refcount it + 1))) x s)); try done.
  - unfold refcount_incr, upd_item. cbn [mem with_mem]. apply map_eq. intros y.
    destruct (decide (x = y)) as [-> |]; [by rewrite !lookup_alter_eq, Hit|by rewrite !lookup_alter_ne].
  - apply Hwr; [|lia|left; lia]. intros it' Hit'. rewrite Hit in Hit'. injection Hit' as <-. split; [done|].
    destruct Hl as [(_ & _ & ->)|(_ & _ & -> & _)]; lia.
Qed.

(** Everything but one chunk, which is in no data structure, is as before. *)
Lemma wf_release s s' M Q F U R F' U' c x : wf s M Q F U R -> x ∈ U c -> ~ linked M x ->
  table s' = table s -> lrus s' = lrus s -> curr_items s' = curr_items s ->
  sinv (slab_set set) [] (mem s') (slab s') F' U' ->
  (forall i y, y ∈ U' i -> y ∈ U i /\ y <> x) -> (forall i y, y ∈ U i -> y <> x -> y ∈ U' i) ->
  (forall i y, y ∈ U i -> y <> x -> mem s' !! y = mem s !! y) ->
  wf s' M Q F' U' (set_ref R x 0).
Proof.
  intros Hw Hx Hnl Et El Ec Hs HU1 HU2 Hk. pose proof Hw as [[C Ht] Hl _ Hq Hu Hlk HR Hc].
  assert (forall y, linked M y -> y <> x) as Hne by (intros y Hy ->; done).
  assert (forall y, linked M y -> mem s' !! y = mem s !! y) as Hkl.
  { intros y Hy. destruct (Hlk y Hy) as [i Hi]. by apply (Hk i), Hne. }
  split; rewrite ?Et, ?El, ?Ec; try done.
  - exists C. apply (rep_ext hash (mem s)); [|done]. intros l y it Hy Hit.
    destruct (rep_member hash _ _ _ _ _ _ Ht Hy) as (it2 & Hit2 & HM). exists it. rewrite Hkl by (by eexists). done.
  - apply (lru_rep_frame ∅ (mem s)); [done|]. intros id y it Hy Hit. exists it. rewrite Hkl; [done|]. apply Hq. by exists id.
  - intros i y Hy. destruct (HU1 i y Hy) as [Hy' Hyx].
    apply (used_ok_other (mem s) _ M M R); [by apply (Hk i)|by apply set_ref_other|done|by apply Hu].
  - intros y Hy. destruct (Hlk y Hy) as [i Hi]. exists i. by apply HU2, Hne.
  - intros y Hy. destruct (decide (y = x)) as [-> |Hyx]; [by rewrite set_ref_same in Hy|]. rewrite set_ref_other in Hy by done.
    destruct (HR y Hy) as [i Hi]. exists i. by apply HU2.
Qed.

(** Dropping a reference: the last one frees the chunk of an item that is not linked. *)
Lemma wf_remove s M Q F U R c x : wf s M Q F U R -> x ∈ U c -> 0 < R x ->
  exists F' U', wf (do_item_remove nchunks x s) M Q F' U' (set_ref R x (R x - 1)) /\
    (forall i y, y ∈ U' i -> y ∈ U i) /\ (forall i y, y ∈ U i -> y <> x \/ linked M y \/ 1 < R y -> y ∈ U' i) /\
    (~ linked M x -> R x = 1 -> forall i, x ∉ U' i) /\
    (forall i y, y ∈ U i -> y <> x -> mem (do_item_remove nchunks x s) !! y = mem s !! y).
Proof.
  intros Hw Hx HRx. destruct (w_used _ _ _ _ _ _ Hw c x Hx) as (it & Hit & Hc & Hcl & Hch & Hsl & HR & Hb & Hl).
  set (n := u16 (refcount it - 1)).
  assert (refcount_decr x s = upd_item (set_refcount n) x s) as Hd.
  { unfold refcount_decr, upd_item. f_equal. apply map_eq. intros y.
    destruct (decide (x = y)) as [<- |]; [by rewrite !lookup_alter_eq, Hit|by rewrite !lookup_alter_ne]. }
  unfold do_item_remove. rewrite Hd. set (s1 := upd_item (set_refcount n) x s).
  assert (item_at s1 x = set_refcount n it) as Hx1.
  { unfold item_at, s1, upd_item, get. cbn [mem with_mem]. by rewrite lookup_alter_eq, Hit. }
  assert (n = refcount it - 1) as Hn by (unfold n; apply wrap_small; destruct Hl as [(_ & _ & E)|(_ & _ & E & _)]; lia).
  rewrite Hx1. cbn [refcount set_refcount].
  assert (forall y, y <> x -> mem s1 !! y = mem s !! y) as Hm1.
  { intros y Hy. unfold s1, upd_item. cbn [mem with_mem]. by rewrite lookup_alter_ne. }
  destruct (Z.eqb_spec n 0) as [Hz|Hz].
  - assert (~ linked M x /\ R x = 1) as [Hnl HR1].
    { destruct Hl as [(_ & _ & Hr)|(? & _ & Hr & _)]; [lia|]. split; [done|lia]. }
    unfold item_free. rewrite Hx1. change (ITEM_clsid (set_refcount n it)) with (ITEM_clsid it). rewrite Hc.
    assert (sinv (slab_set set) [] (mem s1) (slab s) F U) as Hs1.
    { apply (sinv_heap _ (mem s)); [apply (w_slab _ _ _ _ _ _ Hw)|]. intros i y Hy. apply Hm1. intros ->.
      by eapply used_free_disjoint. }
    pose proof (do_slabs_free_keeps (slab_set set) (schunk_of s1) nchunks Hpage (mem s1) (slab s) F U c x Hs1 Hx) as Hf.
    change (slab s1) with (slab s).
    destruct (do_slabs_free (schunk_of s1) nchunks (mem s1) (slab s) x c) as [h' sl'].
    destruct Hf as [Hs' Hk']. { unfold item_at in Hx1. by rewrite Hx1. }
    assert (forall i y, y ∈ upd U c (remove x (U c)) i <-> y ∈ U i /\ y <> x) as HU.
    { intros i y. unfold upd. case_decide as Hi; [subst i|].
      - unfold remove. rewrite list_elem_of_filter. tauto.
      - split; [|tauto]. intros Hy. split; [done|]. intros ->. apply Hi. by eapply used_one_class. }
    exists (upd F c (x :: F c)), (upd U c (remove x (U c))). rewrite HR1. change (1 - 1) with 0.
    assert (forall i y, y ∈ U i -> y <> x -> h' !! y = mem s !! y) as Hkk.
    { intros i y Hy Hyx. rewrite (Hk' i y Hyx Hy). by apply Hm1. }
    split_and!.
    + eapply (wf_release s (with_slab h' sl' s1) M Q F U R _ _ c x Hw Hx Hnl); try done.
      * intros i y. by rewrite HU.
      * intros i y Hy Hyx. by apply HU.
    + intros i y. rewrite HU. tauto.
    + intros i y Hy Hor. apply HU. split; [done|]. intros ->. destruct Hor as [|[|]]; [done|done|lia].
    + intros _ _ i. rewrite HU. tauto.
    + done.
  - exists F, U. split_and!; try done.
    + replace (R x - 1) with (R x + -1) by lia. eapply wf_refcount; [done|done| |lia|].
      * intros it' Hit'. rewrite Hit in Hit'. injection Hit' as <-. split; [done|]. lia.
      * destruct Hl as [(? & _)|(_ & _ & ? & _)]; [by right|left; lia].
    + intros Hnl HR1. destruct Hl as [(? & _)|(_ & _ & Hr & _)]; [done|lia].
    + intros i y _ Hyx. by apply Hm1.
Qed.

(** ** Linking *)

(** The table does not see stores to other fields. *)
Lemma rep_links h h' t C M : links_only h h' -> rep hash h t C M -> rep hash h' t C M.
Proof.
  intros Ho. apply rep_ext. intros l x it Hx Hit. destruct (links_only_Some _ _ _ _ Ho Hit) as (it' & Hit' & Heq).
  exists it'. split; [done|]. change (h_next it') with (h_next (set_next 0 (set_prev 0 it'))).
  change (ikey it') with (ikey (set_next 0 (set_prev 0 it'))). by rewrite Heq.
Qed.
Lemma rep_alter h t C M x f : (forall it, h_next (f it) = h_next it /\ ikey (f it) = ikey it) ->
  rep hash h t C M -> rep hash (alter f x h) t C M.
Proof.
  intros Hf. apply rep_ext. intros l y it Hy Hit. destruct (decide (x = y)) as [-> |Hne].
  - exists (f it). rewrite lookup_alter_eq, Hit. by destruct (Hf it).
  - exists it. by rewrite lookup_alter_ne.
Qed.
Lemma rep_alter_other h t C M x f : rep hash h t C M -> (forall l, x ∉ C l) -> rep hash (alter f x h) t C M.
Proof.
  intros Hr Hx. apply (rep_ext hash h); [|done]. intros l y it Hy Hit. exists it.
  rewrite lookup_alter_ne; [done|]. intros ->. by apply (Hx l).
Qed.
Lemma lru_alter h L Q x f : (forall it, next (f it) = next it /\ prev (f it) = prev it /\ slabs_clsid (f it) = slabs_clsid it /\
    ITEM_ntotal (f it) = ITEM_ntotal it) -> lru_rep ∅ h L Q -> lru_rep ∅ (alter f x h) L Q.
Proof.
  intros Hf Hr. apply (lru_rep_frame ∅ h); [done|]. intros id y it Hy Hit. destruct (decide (x = y)) as [-> |Hne].
  - exists (f it). rewrite lookup_alter_eq, Hit. split; [done|]. by apply Hf.
  - exists it. by rewrite lookup_alter_ne.
Qed.
Lemma lru_alter_other h L Q x f : lru_rep ∅ h L Q -> (forall id, x ∉ Q id) -> lru_rep ∅ (alter f x h) L Q.
Proof.
  intros Hr Hx. apply (lru_rep_frame ∅ h); [done|]. intros id y it Hy Hit. exists it.
  rewrite lookup_alter_ne; [done|]. intros ->. by apply (Hx id).
Qed.

(** The histogram is not part of the invariant. *)
Lemma wf_sizes s M Q F U R d x : wf s M Q F U R -> wf (sizes_change set d x s) M Q F U R.
Proof.
  apply wf_ext; unfold sizes_change; destruct (sizes_hist s); try done; by repeat case_if.
Qed.

Lemma linked_insert M k x y : M !! k = None -> linked (<[k := x]> M) y <-> y = x \/ linked M y.
Proof.
  intros Hk. split.
  - intros [k' Hk']. destruct (decide (k = k')) as [<- |Hne].
    + rewrite lookup_insert_eq in Hk'. injection Hk' as <-. by left.
    + rewrite lookup_insert_ne in Hk' by done. right. by exists k'.
  - intros [-> |[k' Hk']]; [exists k; by rewrite lookup_insert_eq|]. exists k'.
    rewrite lookup_insert_ne; [done|]. congruence.
Qed.

(** The header of an item that is being linked. *)
Definition link_header (cas t : Z) (it : item) : item := ITEM_set_cas cas (set_time t (or_flag ITEM_LINKED it)).
Lemma link_header_spec cas t it :
  links (link_header cas t it) = links it /\ refcount (link_header cas t it) = refcount it /\
  has_flag ITEM_LINKED (link_header cas t it) = true /\
  has_flag ITEM_CHUNKED (link_header cas t it) = has_flag ITEM_CHUNKED it /\
  has_flag ITEM_SLABBED (link_header cas t it) = has_flag ITEM_SLABBED it.
Proof.
  destruct (keeps_set_cas cas (set_time t (or_flag ITEM_LINKED it))) as (E1 & E2 & E3 & E4 & E5).
  unfold link_header. rewrite E1, E2, E3, E4, E5.
  change (has_flag ?g (set_time ?t ?i)) with (has_flag g i). change (links (set_time ?t ?i)) with (links i).
  rewrite links_or, has_flag_or_same, !has_flag_or by done. done.
Qed.

(** [do_item_link] up to the insertion into the table: only the header has changed. *)
Lemma link_prefix x hv s : exists cas s5,
  mem s5 = alter (link_header cas (current_time s)) x (mem s) /\ table s5 = table s /\ lrus s5 = lrus s /\ slab s5 = slab s /\
  curr_items s5 = u64 (curr_items s + 1) /\
  do_item_link set x hv s =
    item_stats_sizes_add set x (refcount_incr x (item_link_q x
      (with_table (assoc_insert (mem s5) (table s5) x hv).1 (assoc_insert (mem s5) (table s5) x hv).2 s5))).
Proof.
  unfold do_item_link. cbn zeta. set (s2 := upd_item _ x (upd_item _ x s)). set (s3 := count_items _ 1 1 s2).
  set (b := has_flag ITEM_CAS _ && use_cas set).
  exists (if b then get_cas_id s3 else (0, s3)).1.
  exists (upd_item (ITEM_set_cas (if b then get_cas_id s3 else (0, s3)).1) x (if b then get_cas_id s3 else (0, s3)).2).
  destruct (if b then get_cas_id s3 else (0, s3)) as [cas s4] eqn:E.
  assert (mem s4 = mem s2 /\ table s4 = table s /\ lrus s4 = lrus s /\ slab s4 = slab s /\
    curr_items s4 = u64 (curr_items s + 1)) as (Em & Et & El & Es & Ec) by (by destruct b; injection E as <- <-).
  split_and!; try done.
  - cbn [fst snd]. unfold upd_item. cbn [mem with_mem]. rewrite Em. unfold s2, upd_item. cbn [mem with_mem].
    apply map_eq. intros y. destruct (decide (x = y)) as [<- |]; [|by rewrite !lookup_alter_ne].
    rewrite !lookup_alter_eq. by destruct (mem s !! x).
  - cbn [fst snd]. by destruct (assoc_insert _ _ x hv).
Qed.

Lemma wf_link s M Q F U R c x : wf s M Q F U R -> x ∈ U c -> ~ linked M x ->
  M !! ikey (item_at s x) = None -> R x + 1 < 2 ^ 16 ->
  wf (do_item_link set x (hash (ikey (item_at s x))) s) (<[ikey (item_at s x) := x]> M)
    (upd Q (slabs_clsid (item_at s x)) (x :: Q (slabs_clsid (item_at s x)))) F U R.
Proof.
  intros Hw Hx Hnl HMk HRb. pose proof Hw as [[C Ht] Hl _ Hq Hu _ _ Hcnt].
  destruct (Hu c x Hx) as (it & Hit & Hc & Hcl & Hch & Hsl & HRx & Hb & Hlx).
  destruct Hlx as [(? & _)|(_ & Hlf & Hrc & Hpos)]; [done|].
  assert (item_at s x = it) as Hat by (unfold item_at; by apply get_Some). rewrite Hat in *.
  assert (forall l, x ∉ C l) as HxC.
  { intros l Hin. destruct (rep_member hash _ _ _ _ _ _ Ht Hin) as (it' & _ & ?). apply Hnl. by eexists. }
  assert (forall id, x ∉ Q id) as HxQ by (intros id Hin; apply Hnl, Hq; by exists id).
  assert (x <> 0) as Hx0 by (by eapply used_nonzero).
  destruct (link_prefix x (hash (ikey it)) s) as (cas & s5 & Em & Et & El & Es & Ec & ->).
  unfold item_stats_sizes_add. apply wf_sizes. rewrite Et.
  set (it3 := link_header cas (current_time s) it). set (h3 := mem s5) in *.
  destruct (link_header_spec cas (current_time s) it) as (Hlk3 & Hrc3 & Hlf3 & Hch3 & Hsl3). fold it3 in Hlk3, Hrc3, Hlf3, Hch3, Hsl3.
  injection Hlk3 as Hn3 Hp3 Hhn3 Hkey3 Hcls3 Hnt3.
  assert (h3 !! x = Some it3) as Hx3 by (rewrite Em, lookup_alter_eq, Hit; done).
  assert (rep hash h3 (table s) C M) as Ht3 by (rewrite Em; by apply rep_alter_other).
  pose proof (rep_insert hash h3 (table s) C M x it3 Ht3 Hx0 Hx3 ltac:(by rewrite Hkey3)) as Hins.
  rewrite Hkey3 in Hins. destruct (assoc_insert h3 (table s) x (hash (ikey it))) as [h4 t4]. destruct Hins as [Ht4 Eh4]. cbn [fst snd].
  set (it4 := set_h_next (load h3 (table s) (head_of (table s) (hash (ikey it)))) it3).
  assert (h4 !! x = Some it4) as Hx4 by (rewrite Eh4, lookup_alter_eq, Hx3; done).
  assert (forall y, y <> x -> h4 !! y = mem s !! y) as Hk4 by (intros y Hy; rewrite Eh4, Em; by rewrite !lookup_alter_ne).
  assert (lru_rep ∅ h4 (lrus s) Q) as Hl4 by (rewrite Eh4, Em; by repeat apply lru_alter_other).
  assert (slabs_clsid it4 = slabs_clsid it) as Hcls4 by done.
  pose proof (link_q_spec ∅ h4 (lrus s) Q x it4 Hl4 Hx0 Hx4 ltac:(by rewrite Hcls4) HxQ ltac:(set_solver)) as Hlink.
  rewrite Hcls4 in Hlink. unfold item_link_q. cbn [mem with_table]. change (lrus (with_table h4 t4 s5)) with (lrus s5). rewrite El.
  destruct (do_item_link_q h4 (lrus s) x) as [h5 L5]. destruct Hlink as (Hl5 & Ho5 & Hk5).
  pose proof (links_only_meta _ _ x Ho5) as Hm5. rewrite Hx4 in Hm5. cbn in Hm5. apply fmap_Some in Hm5 as (it5 & Hx5 & Hm5).
  injection Hm5 as Hc5 Hf5 Hr5.
  eapply (wf_relink s _ M _ Q _ F U R R c x Hw Hx); try done; unfold refcount_incr, upd_item; cbn [mem with_mem with_lru].
  - eexists. apply rep_alter; [done|]. by eapply rep_links.
  - by apply lru_alter.
  - intros y Hy. rewrite lookup_alter_ne by done. rewrite (links_only_meta h4) by done. by rewrite Hk4.
  - intros i y Hy. assert (y <> x) as Hyx by (intros ->; by eapply used_free_disjoint).
    rewrite lookup_alter_ne, Hk5 by (done || by eapply queue_not_free). by apply Hk4.
  - intros y Hy. rewrite linked_insert by done. tauto.
  - intros y. rewrite linked_insert, Hq by done. unfold upd. split.
    + intros [-> |[id Hid]]; [exists (slabs_clsid it); rewrite decide_True by done; by left|].
      exists id. case_decide; [subst id; by right|done].
    + intros [id Hid]. case_decide; [|by right; exists id]. apply elem_of_cons in Hid as [-> |Hid]; [by left|]. right. by eexists.
  - exists (set_refcount (u16 (refcount it5 + 1)) it5). rewrite lookup_alter_eq, Hx5. split; [done|].
    assert (u16 (refcount it5 + 1) = R x + 1) as ->.
    { rewrite <- Hr5. change (refcount it4) with (refcount it3). rewrite Hrc3, Hrc. apply wrap_small. lia. }
    unfold ITEM_clsid, has_flag in *. cbn [slabs_clsid it_flags refcount set_refcount]. rewrite <- Hc5, <- Hf5.
    change (it_flags it4) with (it_flags it3). rewrite ?Hcls4, ?Hcls3, Hch3, Hsl3, Hlf3. split_and!; try done; try lia.
    left. split_and!; try done. apply linked_insert; [done|by left].
  - cbn [curr_items]. change (curr_items s5 = u64 (Z.of_nat (size (<[ikey it := x]> M)))).
    rewrite Ec, Hcnt, map_size_insert_None, wrap_add_l by done. f_equal. lia.
Qed.

(** ** Unlinking *)

Lemma lru_h_next h h' L Q : h_next_only h h' -> lru_rep ∅ h L Q -> lru_rep ∅ h' L Q.
Proof.
  intros Ho Hr. apply (lru_rep_frame ∅ h); [done|]. intros id y it Hy Hit. specialize (Ho y). rewrite Hit in Ho. cbn in Ho.
  apply fmap_Some in Ho as (it' & Hit' & Heq). exists it'. split; [done|].
  assert (forall A (f : item -> A), (forall i, f (set_h_next 0 i) = f i) -> f it' = f it) as Hf.
  { intros A f Hf. by rewrite <- (Hf it'), <- Heq, Hf. }
  rewrite (Hf _ next), (Hf _ prev), (Hf _ slabs_clsid), (Hf _ ITEM_ntotal) by done. done.
Qed.

Lemma linked_delete s M Q F U R k x y : wf s M Q F U R -> M !! k = Some x ->
  linked (delete k M) y <-> linked M y /\ y <> x.
Proof.
  intros Hw Hk. split.
  - intros [k' Hk']. apply lookup_delete_Some in Hk' as [Hne Hk']. split; [by exists k'|]. intros ->.
    apply Hne. by eapply w_key_unique.
  - intros [[k' Hk'] Hne]. exists k'. apply lookup_delete_Some. split; [|done]. intros ->. congruence.
Qed.

(** The state of [do_item_unlink] before the reference of the link is dropped. *)
Lemma wf_unlink_prefix s M Q F U R k x : wf s M Q F U R -> M !! k = Some x ->
  exists s3 Q', do_item_unlink set nchunks x (hash k) s = Some (do_item_remove nchunks x s3) /\
    wf s3 (delete k M) Q' F U (set_ref R x (R x + 1)).
Proof.
  intros Hw Hk. pose proof Hw as [[C Ht] Hl _ Hq Hu Hlk _ Hcnt].
  assert (linked M x) as Hlx by (by exists k). destruct (Hlk x Hlx) as [c Hx].
  destruct (Hu c x Hx) as (it & Hit & Hc & Hcl & Hch & Hsl & HRx & Hb & [(_ & Hlf & Hrc)|(? & _)]); [|done].
  destruct (w_key _ _ _ _ _ _ _ _ Hw Hk) as (it' & Hit' & Hkey). rewrite Hit in Hit'. injection Hit' as <-.
  assert (item_at s x = it) as Hat by (unfold item_at; by apply get_Some).
  unfold do_item_unlink. rewrite Hat, Hlf. cbn zeta.
  set (s1 := item_stats_sizes_remove _ x _).
  assert (mem s1 = alter (clear_flag ITEM_LINKED) x (mem s) /\ table s1 = table s /\ lrus s1 = lrus s /\ slab s1 = slab s /\
    curr_items s1 = u64 (curr_items s + -1)) as (Em & Et & El & Es & Ec).
  { unfold s1, item_stats_sizes_remove, sizes_change. destruct (sizes_hist _); by repeat case_if. }
  assert (item_at s1 x = clear_flag ITEM_LINKED it) as ->.
  { unfold item_at, get. by rewrite Em, lookup_alter_eq, Hit. }
  change (ikey (clear_flag ITEM_LINKED it)) with (ikey it). rewrite Hkey, Et, Em. set (h1 := alter _ x (mem s)).
  assert (rep hash h1 (table s) C M) as Ht1 by (by apply rep_alter).
  destruct (rep_delete hash h1 (table s) C M k x Ht1 Hk) as (h2 & t2 & C2 & -> & Ht2 & Ho2 & Hk2).
  assert (lru_rep ∅ h2 (lrus s) Q) as Hl2.
  { eapply lru_h_next; [done|]. apply lru_alter; [|done]. intros i. pose proof (links_clear ITEM_LINKED i eq_refl eq_refl) as E.
    by injection E. }
  assert (h1 !! x = Some (clear_flag ITEM_LINKED it)) as Hx1 by (unfold h1; by rewrite lookup_alter_eq, Hit).
  pose proof (h_next_only_meta _ _ x Ho2) as Hm2. rewrite Hx1 in Hm2. cbn in Hm2.
  apply fmap_Some in Hm2 as (it2 & Hx2 & Hm2). injection Hm2 as Hc2 Hf2 Hr2.
  destruct (proj1 (Hq x) Hlx) as [id Hid]. destruct (lr_class _ _ _ _ Hl2 id x Hid) as (it2' & E & Hcls). rewrite Hx2 in E. injection E as <-.
  apply list_elem_of_split in Hid as (l1 & l2 & HQ). rewrite <- Hcls in HQ.
  pose proof (unlink_q_spec ∅ h2 (lrus s) Q x it2 l1 l2 Hl2 Hx2 ltac:(unfold ids; lia) HQ ltac:(set_solver)) as Hun.
  unfold item_unlink_q. cbn [mem with_table]. change (lrus (with_table h2 t2 s1)) with (lrus s1). rewrite El.
  destruct (do_item_unlink_q h2 (lrus s) x) as [h3 L3]. destruct Hun as (Hl3 & Ho3 & Hk3).
  eexists _, _. split; [done|].
  pose proof (links_only_meta _ _ x Ho3) as Hm3. rewrite Hx2 in Hm3. cbn in Hm3. apply fmap_Some in Hm3 as (it3 & Hx3 & Hm3).
  injection Hm3 as Hc3 Hf3 Hr3.
  assert (forall i y, y ∈ F i -> (forall l, y ∉ C l)) as HFC.
  { intros i y Hy l Hin. destruct (rep_member hash _ _ _ _ _ _ Ht Hin) as (? & _ & HM). destruct (Hlk y) as [j Hj]; [by eexists|].
    by eapply used_free_disjoint. }
  assert (NoDup (Q (slabs_clsid it2))) as Hnd by apply (lr_nodup _ _ _ _ Hl2). rewrite HQ in Hnd.
  assert (forall i y, y ∈ upd Q (slabs_clsid it2) (l1 ++ l2) i <-> y ∈ Q i /\ y <> x) as HQ'.
  { intros i y. unfold upd. case_decide as Hi; [subst i|].
    - rewrite HQ, <- (remove_split x) by done. unfold remove. rewrite list_elem_of_filter. tauto.
    - split; [|tauto]. intros Hy. split; [done|]. intros ->. apply Hi.
      eapply (lr_disjoint ∅ h2); [done|done|]. rewrite HQ. set_solver. }
  eapply (wf_relink s _ M _ Q _ F U R _ c x Hw Hx); cbn [mem with_lru].
  - exists C2. by eapply rep_links.
  - exact Hl3.
  - change (slab s1 = slab s). done.
  - intros y Hy. rewrite (links_only_meta h2) by done. rewrite (h_next_only_meta h1) by done. unfold h1. by rewrite lookup_alter_ne.
  - intros i y Hy. assert (y <> x) as Hyx by (intros ->; by eapply used_free_disjoint).
    rewrite Hk3, Hk2; [unfold h1; by rewrite lookup_alter_ne|by eapply HFC|].
    intros Hin. eapply (queue_not_free s M Q F U R (slabs_clsid it2)); [done|done|]. rewrite HQ. set_solver.
  - intros y Hy. rewrite (linked_delete s) by done. tauto.
  - intros y. rewrite (linked_delete s) by done. rewrite Hq. split.
    + intros [[i Hi] Hy]. exists i. by apply HQ'.
    + intros [i [Hi Hy]%HQ']. split; [by exists i|done].
  - intros y Hy. by apply set_ref_other.
  - exists it3. rewrite set_ref_same. split; [done|].
    assert (forall g, has_flag g it3 = has_flag g (clear_flag ITEM_LINKED it)) as Hg by (intros g; unfold has_flag; by rewrite <- Hf3, <- Hf2).
    rewrite !Hg, !has_flag_clear, has_flag_clear_same by done.
    assert (slabs_clsid it3 = slabs_clsid it /\ refcount it3 = refcount it) as [Hs3 ->] by (rewrite <- Hc3, <- Hc2, <- Hr3, <- Hr2; done).
    unfold ITEM_clsid in *. rewrite Hs3. split_and!; try done; try lia.
    right. split_and!; try done; [|lia]. rewrite (linked_delete s) by done. by intros [_ ?].
  - change (curr_items s1 = u64 (Z.of_nat (size (delete k M)))). rewrite Ec, Hcnt, map_size_delete_Some, wrap_add_l by done. f_equal.
    assert (size M <> 0%nat). { intros E%map_size_empty_inv. by rewrite E in Hk. } lia.
Qed.

(** The link of an item is dropped; its chunk is freed when nobody else refers to it. *)
Lemma wf_unlink s M Q F U R k x : wf s M Q F U R -> M !! k = Some x ->
  exists s' Q' F' U', do_item_unlink set nchunks x (hash k) s = Some s' /\ wf s' (delete k M) Q' F' U' R /\
    (forall i y, y ∈ U' i -> y ∈ U i) /\ (forall i y, y ∈ U i -> y <> x \/ 0 < R x -> y ∈ U' i) /\
    (R x = 0 -> forall i, x ∉ U' i).
Proof.
  intros Hw Hk. destruct (wf_unlink_prefix s M Q F U R k x Hw Hk) as (s3 & Q' & -> & Hw3).
  destruct (w_linked _ _ _ _ _ _ Hw x ltac:(by exists k)) as [c Hx].
  destruct (w_used _ _ _ _ _ _ Hw c x Hx) as (it & _ & _ & _ & _ & _ & HRx & _).
  destruct (wf_remove s3 _ Q' F U _ c x Hw3 Hx) as (F' & U' & Hw' & HU1 & HU2 & HU3 & _).
  { rewrite set_ref_same. lia. }
  exists (do_item_remove nchunks x s3), Q', F', U'. rewrite set_ref_same in *.
  assert (~ linked (delete k M) x) as Hnl by (rewrite (linked_delete s) by done; tauto).
  split_and!; try done.
  - eapply wf_R; [|done]. intros y. unfold set_ref. repeat case_decide; subst; lia.
  - intros i y Hy Hor. apply HU2; [done|]. destruct (decide (y = x)) as [-> |]; [|by left].
    right. right. rewrite set_ref_same. destruct Hor; [done|lia].
  - intros H0. apply HU3; [done|lia].
Qed.

(** ** Moving between queues *)

(** The class byte after a move to another LRU, checked for every byte. *)
Definition lru_ids : list Z := [HOT_LRU; WARM_LRU; COLD_LRU; TEMP_LRU].
Lemma class_byte a l : 0 <= a < 256 -> l ∈ lru_ids ->
  Z.ldiff (Z.lor (Z.ldiff a 192) l) 192 = Z.ldiff a 192 /\ 0 <= Z.lor (Z.ldiff a 192) l < 256.
Proof.
  intros Ha Hl.
  assert (forallb (fun a => forallb (fun l => (Z.ldiff (Z.lor (Z.ldiff a 192) l) 192 =? Z.ldiff a 192)
    && (0 <=? Z.lor (Z.ldiff a 192) l) && (Z.lor (Z.ldiff a 192) l <? 256)) lru_ids) (seqZ 0 256) = true) as Hall by (vm_compute; done).
  rewrite forallb_forall in Hall. specialize (Hall a). rewrite <- list_elem_of_In, elem_of_seqZ in Hall. specialize (Hall ltac:(lia)).
  rewrite forallb_forall in Hall. specialize (Hall l). rewrite <- list_elem_of_In in Hall. specialize (Hall Hl). lia.
Qed.

(** Stores to an item that is in the table and in no queue: the LRU of its class may change. *)
Definition keeps_class (g : item -> item) : Prop := forall it, 0 <= slabs_clsid it < 256 ->
  h_next (g it) = h_next it /\ ikey (g it) = ikey it /\ refcount (g it) = refcount it /\
  has_flag ITEM_LINKED (g it) = has_flag ITEM_LINKED it /\ has_flag ITEM_CHUNKED (g it) = has_flag ITEM_CHUNKED it /\
  has_flag ITEM_SLABBED (g it) = has_flag ITEM_SLABBED it /\
  ITEM_clsid (g it) = ITEM_clsid it /\ 0 <= slabs_clsid (g it) < 256.

Lemma keeps_class_keeps g : keeps g -> keeps_class g.
Proof.
  intros Hg it Hcl. destruct (Hg it) as (Hl & ? & ? & ? & ?). injection Hl as _ _ ? ? Hc _. unfold ITEM_clsid.
  rewrite Hc. done.
Qed.
Lemma keeps_class_comp g g' : keeps_class g -> keeps_class g' -> keeps_class (g' ∘ g).
Proof.
  intros Hg Hg' it Hcl. destruct (Hg it Hcl) as (? & ? & ? & ? & ? & ? & ? & Hr).
  destruct (Hg' (g it) Hr) as (? & ? & ? & ? & ? & ? & ? & ?). cbn. split_and!; try congruence; lia.
Qed.
Definition moved_to (l : Z) (it : item) : item := set_clsid (Z.lor (ITEM_clsid it) l) it.
Lemma keeps_class_move l : l ∈ lru_ids -> keeps_class (moved_to l).
Proof.
  intros Hl it Hcl. destruct (class_byte (slabs_clsid it) l Hcl Hl) as [Hc Hr]. split_and!; try done; unfold moved_to;
    cbn [slabs_clsid set_clsid]; unfold ITEM_clsid; cbn [slabs_clsid set_clsid]; first [done|lia].
Qed.

Lemma upd_item_comp f g x s : upd_item g x (upd_item f x s) = upd_item (g ∘ f) x s.
Proof.
  unfold upd_item, with_mem. cbn. f_equal. apply map_eq. intros y.
  destruct (decide (x = y)) as [<- |]; [|by rewrite !lookup_alter_ne]. rewrite !lookup_alter_eq. by destruct (mem s !! x).
Qed.
Lemma move_lru_eq l x s : move_lru l x s = upd_item (moved_to l) x s.
Proof. unfold move_lru. by rewrite upd_item_comp. Qed.

(** Out of one queue and into the queue of the class the item has then. *)
Lemma wf_requeue s M Q F U R x g : wf s M Q F U R -> linked M x -> keeps_class g ->
  exists Q', wf (item_link_q x (upd_item g x (item_unlink_q x s))) M Q' F U R.
Proof.
  intros Hw Hlx Hg. pose proof Hw as [[C Ht] Hl _ Hq Hu Hlk _ Hcnt]. destruct (Hlk x Hlx) as [c Hx].
  destruct (Hu c x Hx) as (it & Hit & Hc & Hcl & Hch & Hsl & HRx & Hb & Hlf).
  destruct (proj1 (Hq x) Hlx) as [id Hid]. destruct (lr_class _ _ _ _ Hl id x Hid) as (it' & E & Hcls). rewrite Hit in E. injection E as <-.
  apply list_elem_of_split in Hid as (l1 & l2 & HQ). rewrite <- Hcls in HQ.
  pose proof (unlink_q_spec ∅ (mem s) (lrus s) Q x it l1 l2 Hl Hit ltac:(unfold ids; lia) HQ ltac:(set_solver)) as Hun.
  unfold item_unlink_q. destruct (do_item_unlink_q (mem s) (lrus s) x) as [h1 L1]. destruct Hun as (Hl1 & Ho1 & Hk1).
  set (Q1 := upd Q (slabs_clsid it) (l1 ++ l2)) in *. unfold upd_item. cbn [mem with_lru]. set (h2 := alter g x h1).
  assert (NoDup (Q (slabs_clsid it))) as Hnd by apply (lr_nodup _ _ _ _ Hl). rewrite HQ in Hnd.
  assert (forall i y, y ∈ Q1 i <-> y ∈ Q i /\ y <> x) as HQ1.
  { intros i y. unfold Q1, upd. case_decide as Hi; [subst i|].
    - rewrite HQ, <- (remove_split x) by done. unfold remove. rewrite list_elem_of_filter. tauto.
    - split; [|tauto]. intros Hy. split; [done|]. intros ->. apply Hi.
      eapply (lr_disjoint ∅ (mem s)); [done|done|]. rewrite HQ. set_solver. }
  pose proof (Ho1 x) as Hx1. rewrite Hit in Hx1. cbn in Hx1. apply fmap_Some in Hx1 as (it1 & Hx1 & Heq1).
  assert (forall A (f : item -> A), (forall i, f (set_next 0 (set_prev 0 i)) = f i) -> f it1 = f it) as Hf1.
  { intros A f Hf. transitivity (f (set_next 0 (set_prev 0 it1))); [by rewrite Hf|].
    transitivity (f (set_next 0 (set_prev 0 it))); [f_equal; exact (eq_sym Heq1)|apply Hf]. }
  assert (slabs_clsid it1 = slabs_clsid it) as Hc1 by (by apply (Hf1 _ slabs_clsid)).
  destruct (Hg it1 ltac:(by rewrite Hc1)) as (Hg1 & Hg2 & Hg3 & Hg4 & Hg5 & Hg6 & Hg7 & Hg8).
  assert (h2 !! x = Some (g it1)) as Hx2 by (unfold h2; by rewrite lookup_alter_eq, Hx1).
  assert (lru_rep ∅ h2 L1 Q1) as Hl2 by (apply lru_alter_other; [done|]; intros i [_ ?]%HQ1; done).
  pose proof (link_q_spec ∅ h2 L1 Q1 x (g it1) Hl2 ltac:(by eapply used_nonzero) Hx2 ltac:(done) ltac:(intros i [_ ?]%HQ1; done)
    ltac:(set_solver)) as Hlink.
  unfold item_link_q. cbn [mem with_mem]. change (lrus (with_mem h2 (with_lru h1 L1 s))) with L1.
  destruct (do_item_link_q h2 L1 x) as [h3 L3]. destruct Hlink as (Hl3 & Ho3 & Hk3).
  eexists. eapply (wf_relink s _ M M Q _ F U R R c x Hw Hx); try done; cbn [mem with_lru].
  - exists C. eapply rep_links; [done|]. apply (rep_ext hash (mem s)); [|done]. intros l y ity Hy Hity. unfold h2.
    destruct (decide (x = y)) as [<- |Hne].
    + exists (g it1). rewrite lookup_alter_eq, Hx1. rewrite Hit in Hity. injection Hity as <-.
      rewrite Hg1, Hg2, (Hf1 _ h_next), (Hf1 _ ikey) by done. done.
    + rewrite lookup_alter_ne by done. destruct (links_only_Some _ _ _ _ Ho1 Hity) as (ity' & ? & Heqy). exists ity'. split; [done|].
      change (h_next ity') with (h_next (set_next 0 (set_prev 0 ity'))). change (ikey ity') with (ikey (set_next 0 (set_prev 0 ity'))).
      by rewrite Heqy.
  - intros y Hy. rewrite (links_only_meta h2) by done. unfold h2. rewrite lookup_alter_ne by done. by apply links_only_meta.
  - intros i y Hy. assert (y <> x) as Hyx by (intros ->; by eapply used_free_disjoint).
    rewrite Hk3; [|done|intros [Hin _]%HQ1; by eapply queue_not_free]. unfold h2. rewrite lookup_alter_ne by done.
    apply Hk1. intros Hin. eapply (queue_not_free s M Q F U R (slabs_clsid it)); [done|done|]. rewrite HQ. set_solver.
  - intros y. rewrite Hq. split.
    + intros [i Hi]. destruct (decide (y = x)) as [-> |Hne].
      * exists (slabs_clsid (g it1)). unfold upd. rewrite decide_True by done. by left.
      * exists i. unfold upd. case_decide; [subst i; right|]; by apply HQ1.
    + intros [i Hi]. unfold upd in Hi. case_decide; [|exists i; by apply HQ1].
      apply elem_of_cons in Hi as [-> |Hi]; [by apply Hq|]. eexists. by apply HQ1.
  - pose proof (links_only_meta _ _ x Ho3) as Hm3. rewrite Hx2 in Hm3. cbn in Hm3. apply fmap_Some in Hm3 as (it3 & Hx3 & Hm3).
    injection Hm3 as Hc3 Hfl3 Hr3. exists it3. split; [done|]. unfold ITEM_clsid, has_flag in *. rewrite <- Hc3, <- Hfl3, <- Hr3.
    rewrite Hg3, Hg4, Hg5, Hg6, Hg7. rewrite (Hf1 _ refcount), (Hf1 _ slabs_clsid), (Hf1 _ it_flags) by done. done.
Qed.

(** ** Allocation of a chunk *)

(** A class number has no LRU bits. *)
Lemma small_class id : 0 <= id < 64 -> Z.ldiff id 192 = id.
Proof.
  intros Hr. assert (forallb (fun a => Z.ldiff a 192 =? a) (seqZ 0 64) = true) as Hall by (vm_compute; done).
  rewrite forallb_forall in Hall. specialize (Hall id). rewrite <- list_elem_of_In, elem_of_seqZ in Hall. lia.
Qed.

Lemma wf_alloc_chunk s M Q F U R e id flags : wf s M Q F U R -> alloc_ok (slab_set set) e (slab s) id ->
  let '(it, s') := alloc_chunk set nchunks e id flags s in
  exists F', (forall i y, y ∈ U i -> mem s' !! y = mem s !! y) /\
    (it = 0 /\ wf s' M Q F' U R \/
     0 < it /\ (forall i, it ∉ U i) /\ wf s' M Q F' (upd U id (it :: U id)) (set_ref R it 1) /\
     it_flags (item_at s' it) = 0 /\ slabs_clsid (item_at s' it) = id).
Proof.
  intros Hw Hok. unfold alloc_chunk. pose proof Hw as [[C Ht] Hl Hs Hq Hu Hlk HR Hcnt].
  pose proof (do_slabs_alloc_spec (slab_set set) (schunk_of s) nchunks Hpage e (mem s) (slab s) F U id flags Hs Hok) as Ha.
  destruct (do_slabs_alloc _ _ _ _ _ _ _ _) as [[it h'] sl']. destruct Ha as (F' & Ho & Hk). exists F'. split; [exact Hk|].
  assert (forall y, linked M y -> h' !! y = mem s !! y) as Hkl by (intros y Hy; destruct (Hlk y Hy) as [i Hi]; by apply (Hk i)).
  assert (rep hash h' (table s) C M) as Ht'.
  { apply (rep_ext hash (mem s)); [|done]. intros l y ity Hy Hity. destruct (rep_member hash _ _ _ _ _ _ Ht Hy) as (? & _ & ?).
    exists ity. rewrite Hkl by (by eexists). done. }
  assert (lru_rep ∅ h' (lrus s) Q) as Hl'.
  { apply (lru_rep_frame ∅ (mem s)); [done|]. intros i y ity Hy Hity. exists ity. rewrite Hkl; [done|]. apply Hq. by exists i. }
  destruct Ho as [[-> Hs']|(Hit & Hfresh & Hs' & Hrc & Hfl & Hcl & [ity Hity])]; [left|right].
  - split; [done|]. split; try done; cbn [mem table with_slab]; [by exists C|].
    intros i y Hy. apply (used_ok_other (mem s) _ M M R); [by apply (Hk i)|done|done|by apply Hu].
  - assert (get h' it = ity) as Hg by (by apply get_Some). rewrite Hg in *.
    assert (POWER_SMALLEST <= id <= power_largest sl') as Hid.
    { apply (chunk_class _ _ _ _ _ _ id it Hs'). unfold upd. rewrite decide_True by done. set_solver. }
    pose proof (si_largest _ _ _ _ _ _ Hs') as Hpl. unfold POWER_SMALLEST in Hid.
    assert (~ linked M it) as Hnl by (intros Hlk'; destruct (Hlk it Hlk') as [i Hi]; by apply (Hfresh i)).
    assert (item_at (with_slab h' sl' s) it = ity) as -> by done. split_and!; [done|done| |done|done].
    split; try done; cbn [mem table with_slab]; [by exists C| | |].
    + intros i y Hy. destruct (decide (y = it)) as [-> |Hne].
      * assert (i = id) as ->.
        { unfold upd in Hy. case_decide; [done|]. by destruct (Hfresh i). }
        exists ity. rewrite set_ref_same. unfold ITEM_clsid, has_flag. rewrite Hfl, Hcl, Hrc. split_and!; try done; try lia.
        -- apply small_class. lia.
        -- right. split_and!; done || lia.
      * assert (y ∈ U i) as Hyi. { unfold upd in Hy. case_decide; [subst i; set_solver|done]. }
        apply (used_ok_other (mem s) _ M M R); [by apply (Hk i)|by apply set_ref_other|done|by apply Hu].
    + intros y Hy. destruct (Hlk y Hy) as [i Hi]. exists i. unfold upd. case_decide; [subst i; set_solver|done].
    + intros y Hy. destruct (decide (y = it)) as [-> |Hne].
      * exists id. unfold upd. rewrite decide_True by done. set_solver.
      * rewrite set_ref_other in Hy by done. destruct (HR y Hy) as [i Hi]. exists i. unfold upd. case_decide; [subst i; set_solver|done].
Qed.
End store.
