(* ===== verification/McPayload.v ===== *)
(** What the operations of items.c leave of an item.  [Unaffected R] says that the stores of
    these operations to the links, the counters and the LINKED, ACTIVE and FETCHED flags,
    and the release of the item's memory, keep the relation [R] between the old and the
    new item; then every operation keeps it, whatever the state.  The payload (what
    readers of an item see: its key, size, client flags and value) is such a relation; so
    are the header a reply is made of and the lifetime, as long as the item is not
    released. *)
From S2P Require Import Prelude McItem McAssoc McLru McSlabs McItems McItemStore.

Class Unaffected (R : item -> item -> Prop) : Prop := {
  un_pre :: PreOrder R;
  un_next v it : R it (set_next v it);
  un_prev v it : R it (set_prev v it);
  un_h_next v it : R it (set_h_next v it);
  un_refcount v it : R it (set_refcount v it);
  un_clsid v it : R it (set_clsid v it);
  un_or f it : f ∈ [ITEM_LINKED; ITEM_ACTIVE; ITEM_FETCHED] -> R it (or_flag f it);
  un_clear f it : f ∈ [ITEM_LINKED; ITEM_ACTIVE; ITEM_FETCHED] -> R it (clear_flag f it);
  un_free it : R it (set_flags ITEM_SLABBED it)
}.
(** Access times, new CAS ids and expiry times are kept apart. *)
Class UnaffectedTime (R : item -> item -> Prop) : Prop := { un_time v it : R it (set_time v it) }.
Class UnaffectedCas (R : item -> item -> Prop) : Prop := { un_cas v it : R it (ITEM_set_cas v it) }.
Class UnaffectedExptime (R : item -> item -> Prop) : Prop := { un_exptime v it : R it (set_exptime v it) }.

(** Every item there is keeps the relation. *)
Definition upays (R : item -> item -> Prop) (h h' : heap) : Prop := forall y it, h !! y = Some it -> exists it', h' !! y = Some it' /\ R it it'.
Definition uspays (R : item -> item -> Prop) (h0 : heap) (s : server) : Prop := upays R h0 (mem s).

Section payload.
Context {R : item -> item -> Prop} {HR : Unaffected R} {HT : UnaffectedTime R} {HC : UnaffectedCas R} {HE : UnaffectedExptime R}.
Abbreviation pays := (upays R).
Abbreviation spays := (uspays R).

Lemma pays_refl h : pays h h.
Proof. intros y it Hy. by exists it. Qed.
Lemma pays_trans h1 h2 h3 : pays h1 h2 -> pays h2 h3 -> pays h1 h3.
Proof. intros H1 H2 y it Hy. destruct (H1 y it Hy) as (it2 & Hy2 & H12). destruct (H2 y it2 Hy2) as (it3 & Hy3 & H23). exists it3. split; [done|by etrans]. Qed.
#[global] Instance pays_preorder : PreOrder pays.
Proof. split; [exact pays_refl|exact pays_trans]. Qed.

(** Stores to the other fields, after a sequence of such stores. *)
Lemma pays_alter f p h0 h : (forall it, R it (f it)) -> pays h0 h -> pays h0 (alter f p h).
Proof.
  intros Hf H. etrans; [exact H|]. intros y it Hy. destruct (decide (p = y)) as [-> |Hne].
  - exists (f it). by rewrite lookup_alter_eq, Hy.
  - exists it. by rewrite lookup_alter_ne.
Qed.
Lemma pays_store f p h0 h : (forall it, R it (f it)) -> pays h0 h -> pays h0 (McSlabs.store f p h).
Proof.
  intros Hf H. etrans; [exact H|]. intros y it Hy. unfold McSlabs.store. destruct (decide (p = y)) as [-> |Hne].
  - exists (f it). rewrite lookup_insert_eq. unfold get. by rewrite Hy.
  - exists it. by rewrite lookup_insert_ne.
Qed.
Lemma pays_store_nz f p h0 h : (forall it, R it (f it)) -> pays h0 h -> pays h0 (store_nz f p h).
Proof. intros Hf H. unfold store_nz. case_if; [done|by apply pays_store]. Qed.
Lemma pays_store_if f p v h0 h : (forall v it, R it (f v it)) -> pays h0 h -> pays h0 (store_if f p v h).
Proof. intros Hf H. unfold store_if. case_if; [done|by apply pays_alter]. Qed.
Lemma pays_assoc_store h0 h t l v : pays h0 h -> pays h0 (McAssoc.store h t l v).1.
Proof. intros H. destruct l; [done|done|]. apply pays_alter; [apply un_h_next|done]. Qed.

Create HintDb pays.
Hint Extern 1 (R _ _) =>
  first [apply un_next|apply un_prev|apply un_h_next|apply un_refcount|apply un_clsid|apply un_free|apply un_or|apply un_clear] : pays.
Hint Resolve pays_refl pays_alter pays_store pays_store_nz pays_store_if pays_assoc_store : pays.

(** ** The data structures *)

Lemma pays_insert h0 h t p hv : pays h0 h -> pays h0 (assoc_insert h t p hv).1.
Proof. intros H. unfold assoc_insert. auto with pays. Qed.
Lemma pays_delete h0 h t k hv h' t' : assoc_delete h t k hv = Some (h', t') -> pays h0 h -> pays h0 h'.
Proof.
  unfold assoc_delete. cbn zeta. case_if; [done|]. intros [= E] H.
  change h' with (h', t').1. rewrite <- E. auto with pays.
Qed.
Lemma pays_link_q h0 h L p : pays h0 h -> pays h0 (do_item_link_q h L p).1.
Proof. intros H. unfold do_item_link_q. cbn [fst]. auto with pays. Qed.
Lemma pays_unlink_q h0 h L p : pays h0 h -> pays h0 (do_item_unlink_q h L p).1.
Proof. intros H. unfold do_item_unlink_q, unlink_pointers. cbn [fst]. auto with pays. Qed.
Lemma pays_push h0 h sl id p : pays h0 h -> pays h0 (push_slot h sl id p).1.
Proof. intros H. unfold push_slot. cbn [fst]. auto with pays. Qed.
Hint Resolve pays_insert pays_link_q pays_unlink_q pays_push : pays.

Lemma pays_free_chunks h0 n : forall h sl c, pays h0 h -> pays h0 (free_chunks h sl c n).1.
Proof.
  induction n as [|n IH]; intros h sl c H; cbn [free_chunks]; [done|]. case_if; [done|].
  match goal with |- context [push_slot ?a ?b ?c ?d] => pose proof (pays_push h0 a b c d) as Hp; destruct (push_slot a b c d) end.
  apply IH, Hp. auto with pays.
Qed.
Lemma pays_free schunk n h0 h sl p id : pays h0 h -> pays h0 (do_slabs_free schunk n h sl p id).1.
Proof.
  intros H. unfold do_slabs_free. case_if; [done|]. case_if; [|auto with pays].
  unfold do_slabs_free_chunked. destruct (schunk p) as [c o].
  match goal with |- context [push_slot ?a ?b ?c ?d] => pose proof (pays_push h0 a b c d) as Hp; destruct (push_slot a b c d) end.
  apply pays_free_chunks, Hp. auto with pays.
Qed.
Hint Resolve pays_free : pays.

Lemma pays_move_loop hash h0 fuel : forall h t it, pays h0 h -> pays h0 (move_loop hash fuel h t it).1.
Proof.
  induction fuel as [|n IH]; intros h t it H; cbn [move_loop]; [done|]. case_if; [done|]. cbn zeta. auto with pays.
Qed.
Lemma pays_bulk_move hash h0 locks : forall h t, pays h0 h -> pays h0 (bulk_move hash locks h t).1.
Proof.
  induction locks as [|b locks IH]; intros h t H; cbn [bulk_move]; [done|]. case_if; [|done].
  destruct b; [|by apply IH]. unfold move_bucket.
  match goal with |- context [move_loop ?a ?b ?c ?d ?e] =>
    pose proof (pays_move_loop a h0 b c d e H) as Hp; destruct (move_loop a b c d e) end.
  by apply IH.
Qed.
Lemma pays_maintenance hash locks wake h0 h t : pays h0 h -> pays h0 (maintenance_round hash locks wake h t).1.
Proof.
  intros H. unfold maintenance_round. pose proof (pays_bulk_move hash h0 locks h t H) as Hp.
  destruct (bulk_move hash locks h t). case_if; [done|]. by destruct wake.
Qed.

(** ** The operations of items.c *)

Context (set : item_settings) (hash : list Z -> Z) (nchunks : nat).

Lemma spays_upd f p h0 s : (forall it, R it (f it)) -> spays h0 s -> spays h0 (upd_item f p s).
Proof. intros Hf H. by apply pays_alter. Qed.
Lemma spays_incr p h0 s : spays h0 s -> spays h0 (refcount_incr p s).
Proof. apply spays_upd. intros it. apply un_refcount. Qed.
Lemma spays_decr p h0 s : spays h0 s -> spays h0 (refcount_decr p s).
Proof. apply spays_upd. intros it. apply un_refcount. Qed.
Lemma spays_clear f p h0 s : f ∈ [ITEM_LINKED; ITEM_ACTIVE; ITEM_FETCHED] -> spays h0 s -> spays h0 (upd_item (clear_flag f) p s).
Proof. intros Hf. apply spays_upd. intros it. by apply un_clear. Qed.
Lemma spays_or f p h0 s : f ∈ [ITEM_LINKED; ITEM_ACTIVE; ITEM_FETCHED] -> spays h0 s -> spays h0 (upd_item (or_flag f) p s).
Proof. intros Hf. apply spays_upd. intros it. by apply un_or. Qed.
Lemma flag_linked : ITEM_LINKED ∈ [ITEM_LINKED; ITEM_ACTIVE; ITEM_FETCHED].
Proof. apply list_elem_of_here. Qed.
Lemma flag_active : ITEM_ACTIVE ∈ [ITEM_LINKED; ITEM_ACTIVE; ITEM_FETCHED].
Proof. apply list_elem_of_further, list_elem_of_here. Qed.
Lemma flag_fetched : ITEM_FETCHED ∈ [ITEM_LINKED; ITEM_ACTIVE; ITEM_FETCHED].
Proof. apply list_elem_of_further, list_elem_of_further, list_elem_of_here. Qed.
Hint Resolve flag_linked flag_active flag_fetched : pays.
Lemma spays_time t p h0 s : spays h0 s -> spays h0 (upd_item (set_time t) p s).
Proof. apply spays_upd. intros it. apply un_time. Qed.
Lemma spays_ref t p h0 s : spays h0 s -> spays h0 (upd_item (set_refcount t) p s).
Proof. apply spays_upd. intros it. apply un_refcount. Qed.
Lemma spays_cas c p h0 s : spays h0 s -> spays h0 (upd_item (ITEM_set_cas c) p s).
Proof. apply spays_upd. intros it. apply un_cas. Qed.
Lemma spays_stat id st v h0 s : spays h0 s -> spays h0 (stat_add id st v s).
Proof. done. Qed.
Lemma spays_sizes d p h0 s : spays h0 s -> spays h0 (sizes_change set d p s).
Proof. unfold sizes_change. destruct (sizes_hist s); [by repeat case_if|done]. Qed.
Lemma spays_slink_q p h0 s : spays h0 s -> spays h0 (item_link_q p s).
Proof.
  intros H. unfold item_link_q. pose proof (pays_link_q h0 _ (lrus s) p H). by destruct (do_item_link_q _ _ _).
Qed.
Lemma spays_sunlink_q p h0 s : spays h0 s -> spays h0 (item_unlink_q p s).
Proof.
  intros H. unfold item_unlink_q. pose proof (pays_unlink_q h0 _ (lrus s) p H). by destruct (do_item_unlink_q _ _ _).
Qed.
Lemma spays_move l p h0 s : spays h0 s -> spays h0 (move_lru l p s).
Proof. intros H. unfold move_lru. apply spays_upd; [intros it; apply un_clsid|]. apply spays_upd; [intros it; apply un_clsid|done]. Qed.
Lemma spays_item_free p h0 s : spays h0 s -> spays h0 (item_free nchunks p s).
Proof.
  intros H. unfold item_free. pose proof (pays_free (schunk_of s) nchunks h0 _ (slab s) p (ITEM_clsid (item_at s p)) H).
  by destruct (do_slabs_free _ _ _ _ _ _).
Qed.
Hint Resolve spays_incr spays_decr spays_clear spays_or spays_ref spays_stat spays_sizes
  spays_slink_q spays_sunlink_q spays_move spays_item_free : pays.

Lemma spays_remove p h0 s : spays h0 s -> spays h0 (do_item_remove nchunks p s).
Proof. intros H. unfold do_item_remove. case_if; auto with pays. Qed.
Lemma spays_unlink p hv h0 s s' : do_item_unlink set nchunks p hv s = Some s' -> spays h0 s -> spays h0 s'.
Proof.
  unfold do_item_unlink. case_if; [|by intros [= <-]]. destruct (assoc_delete _ _ _ _) as [[h t]|] eqn:E; [|done].
  intros [= <-] H. apply spays_remove, spays_sunlink_q. eapply pays_delete; [exact E|].
  apply spays_sizes, spays_clear; [apply flag_linked|done].
Qed.
Lemma spays_link p hv h0 s : spays h0 s -> spays h0 (do_item_link set p hv s).
Proof.
  intros H. unfold do_item_link. destruct (if _ && use_cas set then _ else _) as [cas s1] eqn:E.
  assert (spays h0 s1) as H1.
  { destruct (_ && use_cas set); injection E as <- <-; apply spays_time, spays_or; (apply flag_linked || done). }
  match goal with |- context [assoc_insert ?a ?b ?c ?d] => pose proof (pays_insert h0 a b c d) as Hp; destruct (assoc_insert a b c d) end.
  apply spays_sizes, spays_incr, spays_slink_q, Hp. by apply spays_cas.
Qed.
(** The access times these operations store are the current time, in the item [p]. *)
Definition now_ok (p : Z) (s : server) : Prop := forall it, ikey it = ikey (item_at s p) -> R it (set_time (current_time s) it).
Lemma spays_now p h0 s : now_ok p s -> spays h0 s -> spays h0 (upd_item (set_time (current_time s)) p s).
Proof.
  intros Hn H. unfold uspays in *. etrans; [exact H|]. intros y it Hy. unfold upd_item. cbn [mem with_mem]. destruct (decide (p = y)) as [-> |Hne].
  - exists (set_time (current_time s) it). rewrite lookup_alter_eq, Hy. split; [done|]. apply Hn. unfold item_at. by rewrite (get_Some _ _ _ Hy).
  - exists it. by rewrite lookup_alter_ne.
Qed.
Lemma now_upd f p s : (forall it, ikey (f it) = ikey it) -> now_ok p s -> now_ok p (upd_item f p s).
Proof.
  intros Hf Hn it Hk. apply Hn. rewrite Hk. unfold item_at, upd_item, get. cbn [mem with_mem]. rewrite lookup_alter_eq. by destruct (mem s !! p); cbn; rewrite ?Hf.
Qed.
Hint Resolve spays_remove spays_now : pays.
Lemma spays_update_at p h0 s : now_ok p s -> spays h0 s -> spays h0 (do_item_update set p s).
Proof. intros Hn H. unfold do_item_update, item_link_q_warm. repeat case_if; auto 10 with pays. Qed.
Lemma spays_bump_at room p hv h0 s : now_ok p s -> spays h0 s -> spays h0 (do_item_bump set room p hv s).
Proof.
  intros Hn H. assert (forall f, f ∈ [ITEM_LINKED; ITEM_ACTIVE; ITEM_FETCHED] -> spays h0 (upd_item (or_flag f) p s)) as Ho by auto with pays.
  unfold do_item_bump. repeat case_if; auto with pays.
  - apply (spays_now p h0 (upd_item (or_flag ITEM_ACTIVE) p s)); [by apply now_upd|auto with pays].
  - unfold lru_bump_async. destruct room.
    + apply spays_incr, Ho, flag_active.
    + apply spays_clear; [apply flag_active|]. apply spays_decr, spays_incr, Ho, flag_active.
  - apply spays_update_at; [by apply now_upd|auto with pays].
Qed.
Lemma spays_get_at room key hv u it h0 s s' : now_ok (assoc_find (mem s) (table s) key hv) s -> do_item_get set nchunks room key hv u s = Some (it, s') -> spays h0 s -> spays h0 s'.
Proof.
  intros Hn E H. unfold do_item_get in E. cbn zeta in E. destruct (_ =? 0); [by injection E as <- <-|].
  destruct (_ || _).
  - destruct (do_item_unlink _ _ _ _ _) as [s1|] eqn:E1; [|done]. injection E as <- <-.
    apply spays_remove. eapply spays_unlink; [exact E1|]. auto with pays.
  - destruct u; injection E as <- <-; [apply spays_bump_at; [by apply now_upd|]|]; auto with pays.
Qed.
Lemma now_any p s : now_ok p s.
Proof. intros it _. apply un_time. Qed.
Lemma spays_update p h0 s : spays h0 s -> spays h0 (do_item_update set p s).
Proof. apply spays_update_at, now_any. Qed.
Hint Resolve spays_update : pays.
Lemma spays_get room key hv u it h0 s s' : do_item_get set nchunks room key hv u s = Some (it, s') -> spays h0 s -> spays h0 s'.
Proof. apply spays_get_at, now_any. Qed.
Lemma spays_touch room key e hv it h0 s s' : do_item_touch set nchunks room key e hv s = Some (it, s') -> spays h0 s -> spays h0 s'.
Proof.
  intros E H. unfold do_item_touch in E. destruct (do_item_get _ _ _ _ _ _ _) as [[i s1]|] eqn:E1; [|done].
  apply spays_get with (h0 := h0) in E1; [|done]. destruct (_ =? 0); injection E as <- <-; [done|]. apply spays_upd; [intros i'; apply un_exptime|done].
Qed.
Lemma spays_replace a b hv h0 s s' : do_item_replace set nchunks a b hv s = Some s' -> spays h0 s -> spays h0 s'.
Proof.
  intros E H. unfold do_item_replace in E. destruct (do_item_unlink _ _ _ _ _) as [s1|] eqn:E1; [|done]. injection E as <-.
  apply spays_link. by eapply spays_unlink.
Qed.

(** ** The tails of the queues *)

Lemma mem_reassign locked src dst s : mem (slabs_reassign locked src dst s).2 = mem s.
Proof.
  unfold slabs_reassign. destruct locked; [done|]. unfold do_slabs_reassign. case_if; [done|]. case_if; [done|].
  assert (forall n dst s, mem (pick_any_loop n dst s).2 = mem s) as Hp.
  { induction n as [|n IH]; intros d s0; cbn [pick_any_loop]; [done|]. cbn zeta. repeat case_if; rewrite ?IH; done. }
  destruct (if src =? -1 then _ else _) as [src' s'] eqn:E.
  assert (mem s' = mem s) as Hb.
  { destruct (src =? -1); [|by injection E as <- <-]. specialize (Hp (Z.to_nat (power_largest (slab s) - POWER_SMALLEST + 1)) dst s).
    unfold slabs_reassign_pick_any in E. by rewrite E in Hp. }
  repeat case_if; done.
Qed.

Lemma spays_pull_live locked o c id tot fl age hv p rm r h0 s s' :
  pull_live set nchunks locked o c id tot fl age hv p rm s = Some (r, s') -> spays h0 s -> spays h0 s'.
Proof.
  unfold pull_live. cbn zeta. intros E H.
  repeat match type of E with (if ?b then _ else _) = _ => destruct b end; try (injection E as <- <-; auto 8 with pays; fail).
  destruct (do_item_unlink_nolock _ _ _ _ _) as [s2|] eqn:E2; [|done]. injection E as <- <-.
  apply spays_unlink with (h0 := h0) in E2; [|by repeat case_if]. case_if; [|done].
  unfold spays. by rewrite mem_reassign.
Qed.
Lemma spays_pull_one tl locked o c id tot fl age p rm r h0 s s' :
  pull_one set hash nchunks tl locked o c id tot fl age p rm s = Some (r, s') -> spays h0 s -> spays h0 s'.
Proof.
  unfold pull_one. cbn zeta. intros E H. destruct (negb (tl _)); [by injection E as <- <-|].
  set (s1 := if negb _ then stat_add _ _ _ _ else refcount_incr p s) in E.
  assert (spays h0 s1) as H1 by (unfold s1; case_if; auto with pays).
  repeat match type of E with (if ?b then _ else _) = _ => destruct b end.
  - destruct (do_item_unlink_nolock _ _ _ _ _) as [s2|] eqn:E2; [|done]. injection E as <- <-.
    eapply spays_unlink; [exact E2|]. auto with pays.
  - destruct (do_item_unlink_nolock _ _ _ _ _) as [s2|] eqn:E2; [|done]. injection E as <- <-.
    apply spays_remove. eapply spays_unlink; [exact E2|]. by case_if.
  - by eapply spays_pull_live.
Qed.
Lemma spays_pull_loop tl locked o c id tot fl age h0 n : forall tries p rm st r s s',
  pull_loop set hash nchunks tl locked o c id tot fl age n tries p rm s = Some (st, r, s') -> spays h0 s -> spays h0 s'.
Proof.
  induction n as [|n IH]; intros tries p rm st r s s' E H; cbn [pull_loop] in E; [by injection E as <- <- <-|].
  destruct (_ || _); [by injection E as <- <- <-|]. cbn zeta in E. destruct (is_crawler _).
  - destruct (negb _); [by injection E as <- <- <-|]. by eapply IH.
  - destruct (pull_one _ _ _ _ _ _ _ _ _ _ _ _ _ _) as [[r1 s1]|] eqn:E1; [|done].
    pose proof (spays_pull_one _ _ _ _ _ _ _ _ _ _ _ h0 _ _ E1 H).
    destruct (p_it r1 =? 0); [by eapply IH|]. by injection E as <- <- <-.
Qed.
Lemma spays_pull_tail tl locked o c tot fl age n ret h0 s s' :
  lru_pull_tail set hash nchunks tl locked o c tot fl age s = Some (n, ret, s') -> spays h0 s -> spays h0 s'.
Proof.
  intros E H. unfold lru_pull_tail in E. destruct (o =? 0); [by injection E as <- <- <-|]. cbn zeta in E.
  destruct (pull_loop _ _ _ _ _ _ _ _ _ _ _ _ _ _ _ _) as [[[st r] s1]|] eqn:E1; [|done].
  pose proof (spays_pull_loop _ _ _ _ _ _ _ _ h0 _ _ _ _ _ _ _ _ E1 H).
  destruct (st || _); injection E as <- <- <-; [done|]. repeat case_if; auto with pays.
Qed.

(** ** The maintenance thread *)

Lemma spays_bump_buffer b n h0 s : spays h0 s -> spays h0 (bump_buffer set nchunks b n s).
Proof.
  intros H. unfold bump_buffer. generalize (take n (nth b (bumps s) [])) as l. intros l.
  change (spays h0 (fold_left (fun s e => bump_one set nchunks e s) l s)).
  revert s H. induction l as [|e l IH]; intros s H; [done|]. cbn [fold_left]. apply IH. unfold bump_one. auto with pays.
Qed.
Lemma spays_bumps ns h0 s : spays h0 s -> spays h0 (lru_maintainer_bumps set nchunks ns s).2.
Proof.
  unfold lru_maintainer_bumps. cbn [snd]. generalize (imap pair ns) as l. intros l. revert s.
  induction l as [|e l IH]; intros s H; [done|]. cbn [fold_left]. apply IH. by apply spays_bump_buffer.
Qed.
Lemma spays_pull tl locked cl c tot fl age n h0 s s' :
  pull set hash nchunks tl locked cl c tot fl age s = Some (n, s') -> spays h0 s -> spays h0 s'.
Proof.
  unfold pull. destruct (lru_pull_tail _ _ _ _ _ _ _ _ _ _ _) as [[[a b] s1]|] eqn:E; [|done]. intros [= <- <-].
  by eapply spays_pull_tail.
Qed.
Lemma spays_temp tl locked cl h0 n : forall m s r s', temp_loop set hash nchunks tl locked cl n m s = Some (r, s') ->
  spays h0 s -> spays h0 s'.
Proof.
  induction n as [|n IH]; intros m s r s' E H; cbn [temp_loop] in E; [by injection E as <- <-|].
  destruct (pull _ _ _ _ _ _ _ _ _ _ _) as [[a s1]|] eqn:E1; [|done]. pose proof (spays_pull _ _ _ _ _ _ _ _ h0 _ _ E1 H).
  destruct (a <=? 0); [by injection E as <- <-|]. by eapply IH.
Qed.
Lemma spays_juggle_loop tl locked cl t ha wa h0 n : forall m s r s',
  juggle_loop set hash nchunks tl locked cl t ha wa n m s = Some (r, s') -> spays h0 s -> spays h0 s'.
Proof.
  induction n as [|n IH]; intros m s r s' E H; cbn [juggle_loop] in E; [by injection E as <- <-|].
  destruct (pull _ _ _ _ _ _ HOT_LRU _ _ _ _) as [[a s1]|] eqn:E1; [|done].
  pose proof (spays_pull _ _ _ _ _ _ _ _ h0 _ _ E1 H) as H1.
  destruct (if a =? 0 then _ else _) as [[b s2]|] eqn:E2; [|done].
  assert (spays h0 s2) as H2 by (destruct (a =? 0); [by eapply spays_pull|by injection E2 as <- <-]).
  destruct (if lru_segmented set then _ else _) as [[c s3]|] eqn:E3; [|done].
  assert (spays h0 s3) as H3 by (destruct (lru_segmented set); [by eapply spays_pull|by injection E3 as <- <-]).
  cbn zeta in E. match type of E with (if ?b then _ else _) = _ => destruct b end; [by injection E as <- <-|]. by eapply IH.
Qed.
Lemma spays_juggle tl locked cl r h0 s s' : lru_maintainer_juggle set hash nchunks tl locked cl s = Some (r, s') ->
  spays h0 s -> spays h0 s'.
Proof.
  unfold lru_maintainer_juggle. intros E H. destruct (if temp_lru set then _ else _) as [[a s1]|] eqn:E1; [|done].
  assert (spays h0 s1) by (destruct (temp_lru set); [by eapply spays_temp|by injection E1 as <- <-]).
  by eapply spays_juggle_loop.
Qed.
End payload.

(** ** The payload *)

Definition payload (it : item) : list Z * Z * Z * list Z := (ikey it, nbytes it, iflags it, idata it).
Definition pays_item (i j : item) : Prop := payload j = payload i.
#[global] Instance payload_unaffected : Unaffected pays_item.
Proof. split; try done. split; [done|]. intros i j k E1 E2. unfold pays_item in *. congruence. Qed.
#[global] Instance payload_time : UnaffectedTime pays_item.
Proof. by split. Qed.
#[global] Instance payload_cas : UnaffectedCas pays_item.
Proof. split. intros v it. unfold pays_item, ITEM_set_cas. by case_if. Qed.
#[global] Instance payload_exptime : UnaffectedExptime pays_item.
Proof. by split. Qed.
Abbreviation pays := (upays pays_item).
Abbreviation spays := (uspays pays_item).

(** ** The header of a reply, and the lifetime *)

(** The client flags and the CAS id, and whether the item was released. *)
Definition header (it : item) : bool * bool * Z * Z := (has_flag ITEM_SLABBED it, has_flag ITEM_CFLAGS it, iflags it, ITEM_get_cas it).
Definition keeps_header (i j : item) : Prop := header j = header i \/ has_flag ITEM_SLABBED j = true.

Lemma header_or f it : f ∈ [ITEM_LINKED; ITEM_ACTIVE; ITEM_FETCHED] -> header (or_flag f it) = header it.
Proof.
  intros Hf. unfold header, ITEM_get_cas. cbn [iflags icas or_flag set_flags].
  rewrite !elem_of_cons, elem_of_nil in Hf. destruct Hf as [-> |[-> |[-> |[]]]]; by rewrite !has_flag_or by reflexivity.
Qed.
Lemma header_clear f it : f ∈ [ITEM_LINKED; ITEM_ACTIVE; ITEM_FETCHED] -> header (clear_flag f it) = header it.
Proof.
  intros Hf. unfold header, ITEM_get_cas. cbn [iflags icas clear_flag set_flags].
  rewrite !elem_of_cons, elem_of_nil in Hf. destruct Hf as [-> |[-> |[-> |[]]]]; by rewrite !has_flag_clear by reflexivity.
Qed.
#[global] Instance header_unaffected : Unaffected keeps_header.
Proof.
  split; try (intros; by left).
  - split; [by left|]. intros i j k [E1|E1] [E2|E2]; try (by right).
    + left. congruence.
    + right. unfold header in E2. congruence.
  - intros f it Hf. left. by apply header_or.
  - intros f it Hf. left. by apply header_clear.
  - by right.
Qed.
#[global] Instance header_exptime : UnaffectedExptime keeps_header.
Proof. split. intros v it. by left. Qed.
#[global] Instance header_time : UnaffectedTime keeps_header.
Proof. split. intros v it. by left. Qed.

(** The times that decide whether the item is still valid; the access time of the items
    with the key [key] may become [now]. *)
Definition keeps_life (key : list Z) (now : Z) (i j : item) : Prop :=
  has_flag ITEM_SLABBED j = has_flag ITEM_SLABBED i /\ exptime j = exptime i /\ ikey j = ikey i /\
    (time j = time i \/ ikey i = key /\ time j = now) \/
  has_flag ITEM_SLABBED j = true.
#[global] Instance life_unaffected key now : Unaffected (keeps_life key now).
Proof.
  split; try (intros; left; split_and!; [done|done|done|by left]).
  - split; [intros i; left; split_and!; [done|done|done|by left]|].
    intros i j k [(E1 & E2 & E3 & E4)|E1] [(F1 & F2 & F3 & F4)|F1]; try (by right); [|right; congruence].
    left. split_and!; try congruence. destruct F4 as [-> |[F4 ->]]; [done|]. right. split; [congruence|done].
  - intros f it Hf. left. split_and!; [exact (f_equal (fun h => h.1.1.1) (header_or f it Hf))|done|done|by left].
  - intros f it Hf. left. split_and!; [exact (f_equal (fun h => h.1.1.1) (header_clear f it Hf))|done|done|by left].
  - by right.
Qed.
Lemma life_now key p s : ikey (item_at s p) = key -> forall it, ikey it = ikey (item_at s p) -> keeps_life key (current_time s) it (set_time (current_time s) it).
Proof. intros Hk it Hit. left. split_and!; [done|done|done|]. right. split; [congruence|done]. Qed.
