(* ===== verification/McItemOps.v ===== *)
(** The operations of items.c keep the item store consistent: fetching, touching,
    bumping, replacing, allocating with eviction, and pulling items off the tails of the
    queues; and the histories built from them.

    Small items only (no chunked values), and [tail_repair_time] is 0, its default: the
    source itself warns that the repair of leaked references corrupts memory. *)
From S2P Require Import Prelude McItem McAssoc McLru McSlabs McItems McItemStore McPayload.

Section ops.
Context (set : item_settings) (hash : list Z -> Z) {Hhash : KeyHash hash} (nchunks : nat).
Context (Hpage : 0 < slab_page_size (slab_set set) < 2 ^ 31).

Abbreviation ok := (wf set hash).

Lemma item_at_used s M Q F U R c x : ok s M Q F U R -> x ∈ U c ->
  exists it, mem s !! x = Some it /\ item_at s x = it /\ (has_flag ITEM_LINKED it = true <-> linked M x) /\
    0 <= R x /\ refcount it < 2 ^ 16 /\ (refcount it = R x + 1 /\ linked M x \/ refcount it = R x /\ 0 < R x /\ ~ linked M x).
Proof.
  intros Hw Hx. destruct (w_used _ _ _ _ _ _ _ _ Hw c x Hx) as (it & Hit & _ & _ & _ & _ & HR & Hb & Hl). exists it.
  split; [done|]. split; [unfold item_at; by apply get_Some|].
  destruct Hl as [(Hl & Hf & Hr)|(Hl & Hf & Hr & ?)]; rewrite Hf; (split; [|split; [done|split; [done|]]]); try tauto.
  by split.
Qed.

Lemma linked_used s M Q F U R x : ok s M Q F U R -> linked M x -> exists c, x ∈ U c.
Proof. intros Hw. apply (w_linked _ _ _ _ _ _ _ _ Hw). Qed.

Lemma wf_stat s M Q F U R id st v : ok s M Q F U R -> ok (stat_set id st v s) M Q F U R.
Proof. by apply wf_ext. Qed.
Lemma wf_stat_add s M Q F U R id st v : ok s M Q F U R -> ok (stat_add id st v s) M Q F U R.
Proof. apply wf_stat. Qed.

(** ** Updates and bumps *)

Lemma upd_item_id x s : upd_item (fun i => i) x s = s.
Proof.
  unfold upd_item, with_mem. destruct s. cbn. f_equal. apply map_eq. intros y.
  destruct (decide (x = y)) as [<- |]; [rewrite lookup_alter_eq; by destruct (mem !! x)|by rewrite lookup_alter_ne].
Qed.

Lemma wf_item_update s M Q F U R c x : ok s M Q F U R -> x ∈ U c ->
  exists Q', ok (do_item_update set x s) M Q' F U R.
Proof.
  intros Hw Hx. destruct (item_at_used _ _ _ _ _ _ _ _ Hw Hx) as (it & _ & Hat & Hfl & _).
  unfold do_item_update. rewrite Hat.
  assert (forall t, ok (upd_item (set_time t) x s) M Q F U R) as Ht 
    by (intros t; by apply (wf_upd set hash Hpage s M Q F U R c); [| |apply keeps_time]).
  destruct (lru_segmented set).
  - destruct (has_flag ITEM_LINKED it) eqn:E; [|by exists Q]. destruct (_ && _); [|eexists; apply Ht].
    cbn zeta. rewrite move_lru_eq, upd_item_comp. unfold item_link_q_warm.
    destruct (wf_requeue set hash Hpage _ M Q F U R x (clear_flag ITEM_ACTIVE ∘ moved_to WARM_LRU) (Ht (current_time s)) (proj1 Hfl eq_refl))
      as [Q' HQ'].
    + apply keeps_class_comp; [apply keeps_class_move; unfold lru_ids; set_solver|]. apply keeps_class_keeps, keeps_clear. done.
    + exists Q'. by apply wf_stat_add.
  - case_if; [|by exists Q]. destruct (has_flag ITEM_LINKED it) eqn:E; [|by exists Q]. cbn zeta.
    destruct (wf_requeue set hash Hpage _ M Q F U R x (fun i => i) (Ht (current_time s)) (proj1 Hfl eq_refl)) as [Q' HQ'].
    + intros i Hi. done.
    + exists Q'. by rewrite upd_item_id in HQ'.
Qed.

(** What a fetch does to the bump buffers: [d] entries, at most one, for the item. *)
Definition bumped (room : option nat) (d : Z) (e : Z * Z) (l l' : list (list (Z * Z))) : Prop :=
  d = 0 /\ l' = l \/ exists b, d = 1 /\ room = Some b /\ l' = alter (fun q => q ++ [e]) b l.

Lemma wf_bumps s M Q F U R b d : ok s M Q F U R -> ok (with_bumps b d s) M Q F U R.
Proof. by apply wf_ext. Qed.

(** A reference taken and given back. *)
Lemma refcount_incr_decr s M Q F U R c x : ok s M Q F U R -> x ∈ U c ->
  mem (refcount_decr x (refcount_incr x s)) = mem s.
Proof.
  intros Hw Hx. destruct (item_at_used _ _ _ _ _ _ _ _ Hw Hx) as (it & Hit & _ & _ & HR & Hb & Hr).
  unfold refcount_decr, refcount_incr. rewrite upd_item_comp. unfold upd_item. cbn [mem with_mem]. apply map_eq. intros y.
  destruct (decide (x = y)) as [<- |]; [|by rewrite lookup_alter_ne]. rewrite lookup_alter_eq, Hit. cbn.
  rewrite wrap_sub_l. replace (refcount it + 1 - 1) with (refcount it) by lia. rewrite wrap_small by lia. by destruct it.
Qed.

Lemma wf_bump s M Q F U R room c x hv : ok s M Q F U R -> x ∈ U c -> R x + 2 < 2 ^ 16 ->
  exists Q' d, ok (do_item_bump set room x hv s) M Q' F U (set_ref R x (R x + d)) /\
    bumped room d (x, hv) (bumps s) (bumps (do_item_bump set room x hv s)).
Proof.
  intros Hw Hx HR.
  assert (forall s' Q', ok s' M Q' F U R -> bumps s' = bumps s -> exists Q' d, ok s' M Q' F U (set_ref R x (R x + d)) /\
    bumped room d (x, hv) (bumps s) (bumps s')) as Hsame.
  { intros s' Q' Hw' Hb. exists Q', 0. split; [|by left]. eapply wf_R; [|done].
    intros y. unfold set_ref. case_decide; subst; lia. }
  assert (forall f, keeps f -> ok (upd_item f x s) M Q F U R) as Hupd by (intros f Hf; by apply (wf_upd set hash Hpage s M Q F U R c)).
  unfold do_item_bump. cbn zeta. destruct (lru_segmented set).
  - destruct (has_flag ITEM_ACTIVE _); [by eapply Hsame|].
    destruct (has_flag ITEM_FETCHED _); [|eapply Hsame; [apply Hupd, keeps_or; done|done]].
    pose proof (Hupd (or_flag ITEM_ACTIVE) ltac:(by apply keeps_or)) as Hw1. set (s1 := upd_item (or_flag ITEM_ACTIVE) x s) in *.
    destruct (negb _).
    + eapply Hsame; [|done]. apply (wf_upd set hash Hpage s1 M Q F U R c x _ Hw1 Hx), keeps_time.
    + unfold lru_bump_async. destruct room as [b|].
      * exists Q, 1. split; [|right; by eexists]. apply wf_bumps. by eapply wf_refcount_incr.
      * eapply (Hsame _ Q); [|done]. apply (wf_upd set hash Hpage _ M Q F U R c x); [|done|by apply keeps_clear].
        eapply (wf_ext set hash s1); try done. by eapply refcount_incr_decr.
  - pose proof (Hupd (or_flag ITEM_FETCHED) ltac:(by apply keeps_or)) as Hw1.
    destruct (wf_item_update _ _ _ _ _ _ _ _ Hw1 Hx) as [Q' HQ']. eapply Hsame; [done|].
    unfold do_item_update, item_link_q_warm, item_link_q, item_unlink_q.
    repeat (case_if || destruct (do_item_unlink_q _ _ _) || destruct (do_item_link_q _ _ _)); done.
Qed.

(** ** Fetching *)

(** An item is dead once it has been flushed or has expired. *)
Definition dead (s : server) (it : item) : bool := item_is_flushed set s it || expired s it.

Lemma dead_refcount s n it : dead s (set_refcount n it) = dead s it.
Proof. done. Qed.

Lemma bumps_remove x s : bumps (do_item_remove nchunks x s) = bumps s.
Proof.
  unfold do_item_remove, item_free. case_if; [|done]. by destruct (do_slabs_free _ _ _ _ _ _).
Qed.
Lemma bumps_unlink x hv s s' : do_item_unlink set nchunks x hv s = Some s' -> bumps s' = bumps s.
Proof.
  unfold do_item_unlink. case_if; [|by intros [= <-]]. destruct (assoc_delete _ _ _ _) as [[h t]|]; [|done]. intros [= <-].
  rewrite bumps_remove. unfold item_unlink_q. destruct (do_item_unlink_q _ _ _). cbn.
  unfold item_stats_sizes_remove, sizes_change. destruct (sizes_hist _); by repeat case_if.
Qed.

(** [do_item_get]: the item stored under the key, with a reference for the caller; a dead
    item is taken out instead. *)
Lemma wf_get s M Q F U R room key upd_ : ok s M Q F U R -> (forall x, R x + 3 < 2 ^ 16) ->
  exists it s', do_item_get set nchunks room key (hash key) upd_ s = Some (it, s') /\
  match M !! key with
  | None => it = 0 /\ s' = s
  | Some x =>
      if dead s (item_at s x) then
        it = 0 /\ bumps s' = bumps s /\ exists Q' F' U', ok s' (delete key M) Q' F' U' R
      else
        it = x /\ exists Q' d, ok s' M Q' F U (set_ref R x (R x + 1 + d)) /\
          bumped room d (x, hash key) (bumps s) (bumps s')
  end.
Proof.
  intros Hw Hfew. unfold do_item_get. destruct (w_table _ _ _ _ _ _ _ _ Hw) as [C Ht].
  rewrite (rep_find hash _ _ _ _ key Ht). destruct (M !! key) as [x|] eqn:Hk; cbn [default]; [|by exists 0, s].
  destruct (linked_used _ _ _ _ _ _ x Hw ltac:(by exists key)) as [c Hx].
  destruct (item_at_used _ _ _ _ _ _ _ _ Hw Hx) as (it & Hit & Hat & _ & HR & _).
  assert (x <> 0) as Hx0 by (by eapply (used_nonzero set hash Hpage)). cbn [id]. rewrite (proj2 (Z.eqb_neq x 0)) by done. cbn zeta.
  pose proof (wf_refcount_incr set hash Hpage s M Q F U R c x Hw Hx ltac:(pose proof (Hfew x); lia)) as Hw1.
  set (s1 := refcount_incr x s) in *.
  assert (item_is_flushed set s1 (item_at s1 x) || expired s1 (item_at s1 x) = dead s (item_at s x)) as ->.
  { rewrite Hat. assert (item_at s1 x = set_refcount (u16 (refcount it + 1)) it) as ->; [|done].
    unfold item_at, s1, refcount_incr, upd_item, get. cbn [mem with_mem]. by rewrite lookup_alter_eq, Hit. }
  destruct (dead s (item_at s x)).
  - destruct (wf_unlink set hash nchunks Hpage s1 M Q F U _ key x Hw1 Hk) as (s2 & Q2 & F2 & U2 & E & Hw2 & _ & HU2 & _).
    rewrite E. exists 0, (do_item_remove nchunks x s2). split; [done|]. split; [done|].
    assert (x ∈ U2 c) as Hx2 by (apply HU2; [done|right; rewrite set_ref_same; lia]).
    destruct (wf_remove set hash nchunks Hpage s2 _ Q2 F2 U2 _ c x Hw2 Hx2 ltac:(rewrite set_ref_same; lia)) as (F3 & U3 & Hw3 & _).
    split; [rewrite bumps_remove; rewrite (bumps_unlink _ _ _ _ E); done|].
    exists Q2, F3, U3. eapply wf_R; [|exact Hw3]. intros y. unfold set_ref. repeat case_decide; subst; lia.
  - destruct upd_.
    + destruct (wf_bump s1 M Q F U _ room c x (hash key) Hw1 Hx) as (Q2 & d & Hw2 & Hb2).
      { rewrite set_ref_same. pose proof (Hfew x). lia. }
      exists x, (do_item_bump set room x (hash key) s1). split; [done|]. split; [done|]. exists Q2, d. split_and!; try done.
      eapply wf_R; [|exact Hw2]. intros y. unfold set_ref. repeat case_decide; subst; lia.
    + exists x, s1. split; [done|]. split; [done|]. exists Q, 0. split; [|by left].
      eapply wf_R; [|exact Hw1]. intros y. unfold set_ref. repeat case_decide; subst; lia.
Qed.

(** ** Pulling items off a tail *)

Lemma wf_reassign s M Q F U R locked src dst : ok s M Q F U R -> ok (slabs_reassign locked src dst s).2 M Q F U R.
Proof.
  intros Hw. unfold slabs_reassign. destruct locked; [done|]. unfold do_slabs_reassign. case_if; [done|]. case_if; [done|].
  assert (forall n dst s, ok s M Q F U R -> ok (pick_any_loop n dst s).2 M Q F U R) as Hp.
  { induction n as [|n IH]; intros d s0 Hw0; cbn [pick_any_loop]; [done|]. cbn zeta.
    repeat case_if; try apply IH; by apply (wf_ext set hash s0). }
  destruct (if src =? -1 then _ else _) as [src' s'] eqn:E.
  assert (ok s' M Q F U R) as Hw'.
  { destruct (src =? -1); [|by injection E as <- <-]. specialize (Hp (Z.to_nat (power_largest (slab s) - POWER_SMALLEST + 1)) dst s Hw).
    unfold slabs_reassign_pick_any in E. by rewrite E in Hp. }
  repeat case_if; try done. by apply (wf_ext set hash s').
Qed.
Lemma bumps_reassign locked src dst s : bumps (slabs_reassign locked src dst s).2 = bumps s.
Proof.
  unfold slabs_reassign. destruct locked; [done|]. unfold do_slabs_reassign. case_if; [done|]. case_if; [done|].
  assert (forall n dst s, bumps (pick_any_loop n dst s).2 = bumps s) as Hp.
  { induction n as [|n IH]; intros d s0; cbn [pick_any_loop]; [done|]. cbn zeta. repeat case_if; rewrite ?IH; done. }
  destruct (if src =? -1 then _ else _) as [src' s'] eqn:E.
  assert (bumps s' = bumps s) as Hb.
  { destruct (src =? -1); [|by injection E as <- <-]. specialize (Hp (Z.to_nat (power_largest (slab s) - POWER_SMALLEST + 1)) dst s).
    unfold slabs_reassign_pick_any in E. by rewrite E in Hp. }
  repeat case_if; done.
Qed.
Lemma bumps_unlink_q x s : bumps (item_unlink_q x s) = bumps s.
Proof. unfold item_unlink_q. by destruct (do_item_unlink_q _ _ _). Qed.
Lemma bumps_link_q x s : bumps (item_link_q x s) = bumps s.
Proof. unfold item_link_q. by destruct (do_item_link_q _ _ _). Qed.

(** What a round of the pulling loop leaves behind: nothing to do; an item to let go of;
    or an item taken out of its queue that still has to enter another one. *)
Definition pull_result (s' : server) (M' : gmap (list Z) Z) (R : Z -> Z) (p : Z) (r : pulled) : Prop :=
  exists Q' F' U',
    (p_it r = 0 /\ ok s' M' Q' F' U' R) \/
    (p_it r = p /\ p_move r = 0 /\ ok s' M' Q' F' U' (set_ref R p (R p + 1))) \/
    (p_it r = p /\ p_move r <> 0 /\ p_move r ∈ lru_ids /\ linked M' p /\
     exists s0, s' = item_unlink_q p s0 /\ ok s0 M' Q' F' U' (set_ref R p (R p + 1))).

Lemma wf_pull_live locked orig_id cur_lru id total flags age p removed k s M Q F U R :
  ok s M Q F U (set_ref R p (R p + 1)) -> M !! k = Some p -> 0 <= R p ->
  exists r s' M', pull_live set nchunks locked orig_id cur_lru id total flags age (hash k) p removed s = Some (r, s') /\
    pull_result s' M' R p r /\ (M' = M \/ M' = delete k M) /\ bumps s' = bumps s.
Proof.
  intros Hw Hk HR. assert (linked M p) as Hlk by (by exists k).
  destruct (linked_used _ _ _ _ _ _ _ Hw Hlk) as [c Hx].
  assert (forall s1, ok s1 M Q F U (set_ref R p (R p + 1)) -> forall m rm rt, m = 0 ->
    pull_result s1 M R p {| p_it := p; p_move := m; p_removed := rm; p_ret := rt |}) as Hkeep.
  { intros s1 Hw1 m rm rt ->. exists Q, F, U. right. left. done. }
  assert (forall s1, ok s1 M Q F U (set_ref R p (R p + 1)) -> forall m rm rt, m <> 0 -> m ∈ lru_ids ->
    pull_result (item_unlink_q p s1) M R p {| p_it := p; p_move := m; p_removed := rm; p_ret := rt |}) as Hmove.
  { intros s1 Hw1 m rm rt Hm Hl. exists Q, F, U. right. right. split_and!; try done. by exists s1. }
  assert (ok (upd_item (clear_flag ITEM_ACTIVE) p s) M Q F U (set_ref R p (R p + 1))) as Hclr.
  { apply (wf_upd set hash Hpage s M Q F U _ c p _ Hw Hx). by apply keeps_clear. }
  unfold pull_live. cbn zeta. destruct ((cur_lru =? HOT_LRU) || (cur_lru =? WARM_LRU)).
  - destruct (has_flag ITEM_ACTIVE (item_at s p)); [destruct (cur_lru =? WARM_LRU)|].
    + set (s1 := stat_add id moves_within_lru 1 _).
      assert (ok s1 M Q F U (set_ref R p (R p + 1))) as Hw1 by (by apply wf_stat_add).
      destruct (wf_requeue set hash Hpage s1 M Q F U _ p (fun i => i) Hw1 Hlk) as [Q2 Hw2]; [done|]. rewrite upd_item_id in Hw2.
      destruct (wf_remove set hash nchunks Hpage _ M Q2 F U _ c p Hw2 Hx) as (F3 & U3 & Hw3 & _); [rewrite set_ref_same; lia|].
      eexists _, _, M. split; [done|]. split_and!; [|by left|rewrite bumps_remove, bumps_link_q, bumps_unlink_q; done].
      exists Q2, F3, U3. left. split; [done|]. eapply wf_R; [|exact Hw3]. intros y. unfold set_ref. repeat case_decide; subst; lia.
    + eexists _, _, M. split; [done|]. split_and!; [|by left|by rewrite bumps_unlink_q].
      apply Hmove; [by apply wf_stat_add|done|unfold lru_ids; set_solver].
    + destruct (_ || _).
      * eexists _, _, M. split; [done|]. split_and!; [|by left|by rewrite bumps_unlink_q].
        apply Hmove; [by apply wf_stat_add|done|unfold lru_ids; set_solver].
      * eexists _, _, M. split; [done|]. split_and!; [by apply Hkeep|by left|done].
  - destruct (cur_lru =? COLD_LRU); [|eexists _, _, M; split; [done|]; split_and!; [by apply Hkeep|by left|done]].
    destruct (negb (Z.land flags LRU_PULL_EVICT =? 0)); [destruct (evict_to_free set)|destruct (negb _); [|destruct (_ && _)]].
    + set (s1 := if has_flag ITEM_ACTIVE _ then _ else _).
      assert (ok s1 M Q F U (set_ref R p (R p + 1)) /\ bumps s1 = bumps s) as [Hw1 Hb1].
      { unfold s1. split; [|by repeat case_if]. by repeat (case_if || apply wf_stat_add || apply wf_stat). }
      destruct (wf_unlink set hash nchunks Hpage s1 M Q F U _ k p Hw1 Hk) as (s2 & Q2 & F2 & U2 & E & Hw2 & _).
      unfold do_item_unlink_nolock. rewrite E. eexists _, _, (delete k M). split; [done|]. split_and!; [|by right|].
      * exists Q2, F2, U2. right. left. split_and!; try done. case_if; [by apply wf_reassign|done].
      * case_if; rewrite ?bumps_reassign; by rewrite (bumps_unlink _ _ _ _ E).
    + eexists _, _, M. split; [done|]. split_and!; [by apply Hkeep|by left|done].
    + eexists _, _, M. split; [done|]. split_and!; [by apply Hkeep|by left|done].
    + eexists _, _, M. split; [done|]. split_and!; [|by left|by rewrite bumps_unlink_q].
      apply Hmove; [|done|unfold lru_ids; set_solver].
      apply (wf_upd set hash Hpage _ M Q F U _ c p); [by apply wf_stat_add|done|by apply keeps_clear].
    + eexists _, _, M. split; [done|]. split_and!; [by apply Hkeep|by left|done].
Qed.

Context (Hrepair : tail_repair_time set = 0).

Lemma wf_pull_one trylock locked orig_id cur_lru id total flags age p removed k s M Q F U R :
  ok s M Q F U R -> M !! k = Some p -> R p + 3 < 2 ^ 16 ->
  exists r s' M', pull_one set hash nchunks trylock locked orig_id cur_lru id total flags age p removed s = Some (r, s') /\
    pull_result s' M' R p r /\ (M' = M \/ trylock (hash k) = true /\ M' = delete k M) /\ bumps s' = bumps s.
Proof.
  intros Hw Hk Hb. destruct (linked_used _ _ _ _ _ _ p Hw ltac:(by exists k)) as [c Hx].
  destruct (item_at_used _ _ _ _ _ _ _ _ Hw Hx) as (it & Hit & Hat & _ & HR & _).
  destruct (w_key set hash _ _ _ _ _ _ _ _ Hw Hk) as (it' & Hit' & Hkey). rewrite Hit in Hit'. injection Hit' as <-.
  unfold pull_one. cbn zeta. rewrite Hat, Hkey, Hrepair. cbn [Z.eqb negb]. rewrite andb_false_r. cbn [andb].
  destruct (trylock (hash k)) eqn:Htl; cbn [negb].
  2: { eexists _, _, M. split; [done|]. split_and!; [|by left|done]. exists Q, F, U. by left. }
  pose proof (wf_refcount_incr set hash Hpage s M Q F U R c p Hw Hx ltac:(lia)) as Hw1.
  set (s1 := refcount_incr p s) in *.
  set (s2 := if negb (refcount (item_at s1 p) =? 2) then _ else s1).
  assert (ok s2 M Q F U (set_ref R p (R p + 1)) /\ bumps s2 = bumps s) as [Hw2 Hb2].
  { unfold s2. split; [|by case_if]. case_if; [by apply wf_stat_add|done]. }
  destruct (_ || _).
  - set (s3 := if has_flag _ _ then _ else _).
    assert (ok s3 M Q F U (set_ref R p (R p + 1)) /\ bumps s3 = bumps s) as [Hw3 Hb3].
    { unfold s3. split; [|by case_if]. by repeat (case_if || apply wf_stat_add). }
    destruct (wf_unlink set hash nchunks Hpage s3 M Q F U _ k p Hw3 Hk) as (s4 & Q4 & F4 & U4 & E & Hw4 & _ & HU4 & _).
    unfold do_item_unlink_nolock. rewrite E.
    assert (p ∈ U4 c) as Hp4 by (apply HU4; [done|right; rewrite set_ref_same; lia]).
    destruct (wf_remove set hash nchunks Hpage s4 _ Q4 F4 U4 _ c p Hw4 Hp4 ltac:(rewrite set_ref_same; lia)) as (F5 & U5 & Hw5 & _).
    eexists _, _, (delete k M). split; [done|]. split_and!; [|by right|by rewrite bumps_remove, (bumps_unlink _ _ _ _ E)].
    exists Q4, F5, U5. left. split; [done|]. eapply wf_R; [|exact Hw5]. intros y. unfold set_ref. repeat case_decide; subst; lia.
  - destruct (wf_pull_live locked orig_id cur_lru id total flags age p removed k s2 M Q F U R Hw2 Hk HR)
      as (r & s' & M' & E & Hr & HM & Hb'). rewrite E. exists r, s', M'. split_and!; try done; [|congruence].
    destruct HM as [-> | ->]; [by left|by right].
Qed.

(** Items are taken out, but none whose lock is taken. *)
Definition evicts (trylock : Z -> bool) (M M' : gmap (list Z) Z) : Prop :=
  M' ⊆ M /\ forall k, trylock (hash k) = false -> M' !! k = M !! k.
Lemma evicts_refl tl M : evicts tl M M.
Proof. by split. Qed.
Lemma evicts_trans tl M1 M2 M3 : evicts tl M1 M2 -> evicts tl M2 M3 -> evicts tl M1 M3.
Proof. intros [H1 H2] [H3 H4]. split; [by etrans|]. intros k Hk. by rewrite H4, H2. Qed.

(** The item before a linked item in its queue. *)
Lemma prev_linked s M Q F U R x : ok s M Q F U R -> linked M x ->
  prev (item_at s x) = 0 \/ linked M (prev (item_at s x)) /\ prev (item_at s x) <> x.
Proof.
  intros Hw Hx. destruct (proj1 (w_queues _ _ _ _ _ _ _ _ Hw x) Hx) as [id Hid]. pose proof (w_lru _ _ _ _ _ _ _ _ Hw) as Hl.
  assert (ids id) as Hids.
  { destruct (decide (0 <= id < 256)) as [|Hn]; [done|]. rewrite (lr_none _ _ _ _ Hl id Hn) in Hid. by apply not_elem_of_nil in Hid. }
  pose proof (lr_queue _ _ _ _ Hl id Hids) as Hq. pose proof (lr_nodup _ _ _ _ Hl id) as Hnd.
  pose proof Hid as (l1 & l2 & HQ)%list_elem_of_split. rewrite HQ in Hq, Hnd.
  apply dseg_app in Hq as (q & m & H1 & (_ & _ & it & Hit & Hp & _)).
  assert (prev (item_at s x) = q) as -> by (unfold item_at; by rewrite (get_Some _ _ _ Hit)).
  destruct (dseg_last _ _ _ _ _ _ H1) as [[_ ->]|Hin]; [by left|right].
  apply NoDup_app in Hnd as (_ & Hd & _). split; [|intros ->; apply (Hd x Hin); by left].
  apply (w_queues _ _ _ _ _ _ _ _ Hw). exists id. rewrite HQ. set_solver.
Qed.

Lemma wf_pull_loop trylock locked orig_id cur_lru id total flags age fuel tries search removed s M Q F U R :
  ok s M Q F U R -> (search = 0 \/ linked M search) -> (forall x, R x + 3 < 2 ^ 16) ->
  exists stop r s' M', pull_loop set hash nchunks trylock locked orig_id cur_lru id total flags age fuel tries search removed s
      = Some (stop, r, s') /\ evicts trylock M M' /\ bumps s' = bumps s /\
    ((stop = true \/ p_it r = 0) /\ (exists Q' F' U', ok s' M' Q' F' U' R) \/
     stop = false /\ p_it r <> 0 /\ exists p, pull_result s' M' R p r).
Proof.
  revert tries search removed s M Q F U. induction fuel as [|fuel IH]; intros tries search removed s M Q F U Hw Hs Hfew; cbn [pull_loop].
  { eexists _, _, s, M. split; [done|]. split_and!; try done. left. split; [by right|]. by exists Q, F, U. }
  destruct ((tries <=? 0) || (search =? 0)) eqn:E.
  { eexists _, _, s, M. split; [done|]. split_and!; try done. left. split; [by right|]. by exists Q, F, U. }
  apply orb_false_iff in E as [_ Hs0%Z.eqb_neq]. destruct Hs as [|Hlk]; [done|]. cbn zeta.
  pose proof (prev_linked _ _ _ _ _ _ _ Hw Hlk) as Hprev.
  destruct (is_crawler (item_at s search)).
  - destruct (negb _).
    + eexists _, _, s, M. split; [done|]. split_and!; try done. left. split; [by left|]. by exists Q, F, U.
    + apply (IH tries _ removed s M Q F U Hw); [|done]. destruct Hprev as [|[? _]]; [by left|by right].
  - pose proof Hlk as [k Hk].
    destruct (wf_pull_one trylock locked orig_id cur_lru id total flags age search removed k s M Q F U R Hw Hk (Hfew search))
      as (r & s' & M' & -> & Hr & HM & Hb).
    assert (evicts trylock M M') as Hsub.
    { destruct HM as [-> |[Htl ->]]; [apply evicts_refl|]. split; [apply delete_subseteq|]. intros k' Hk'. apply lookup_delete_ne. congruence. }
    destruct (Z.eqb_spec (p_it r) 0) as [Hz|Hz].
    + assert (search <> 0) by done.
      destruct Hr as (Q' & F' & U' & [[_ Hw']|[(E & _)|(E & _)]]); [|congruence|congruence].
      destruct (IH (tries - 1) (prev (item_at s search)) (p_removed r) s' M' Q' F' U' Hw') as (st & r2 & s2 & M2 & E2 & HM2 & Hb2 & Hr2); [|done|].
      { destruct Hprev as [|[Hpl Hpne]]; [by left|right]. destruct HM as [-> |[_ ->]]; [done|]. by apply (proj2 (linked_delete set hash s M Q F U R k search _ Hw Hk)). }
      exists st, r2, s2, M2. split_and!; try done; [by eapply evicts_trans|congruence].
    + eexists false, r, s', M'. split; [done|]. split_and!; try done. right. split_and!; try done. by exists search.
Qed.

Lemma wf_pull_tail trylock locked orig_id cur_lru total flags age s M Q F U R :
  ok s M Q F U R -> (forall x, R x + 3 < 2 ^ 16) -> Z.land flags LRU_PULL_RETURN_ITEM = 0 -> 0 <= Z.lor orig_id cur_lru < 256 ->
  exists n ret s' M' Q' F' U', lru_pull_tail set hash nchunks trylock locked orig_id cur_lru total flags age s = Some (n, ret, s') /\
    ok s' M' Q' F' U' R /\ evicts trylock M M' /\ bumps s' = bumps s.
Proof.
  intros Hw Hfew Hfl Hid. unfold lru_pull_tail. case_if; [by exists 0, 0, s, M, Q, F, U|]. cbn zeta.
  destruct (wf_pull_loop trylock locked orig_id cur_lru (Z.lor orig_id cur_lru) total flags age (6 + size (mem s)) 5
    (at_id (tails (lrus s)) (Z.lor orig_id cur_lru)) 0 s M Q F U R Hw) as (st & r & s' & M' & -> & HM & Hb & Hr); [|done|].
  { pose proof (lr_queue _ _ _ _ (w_lru _ _ _ _ _ _ _ _ Hw) _ Hid) as Hq.
    destruct (dseg_last _ _ _ _ _ _ Hq) as [[_ ->]|Hin]; [by left|right]. apply (w_queues _ _ _ _ _ _ _ _ Hw). by eexists. }
  destruct Hr as [(Hz & Q' & F' & U' & Hw')|(-> & Hz & p & Q' & F' & U' & [[? _]|Hr])]; [| |]; [| done |].
  { assert (st || (p_it r =? 0) = true) as -> by (destruct Hz as [-> | ->]; [done|by rewrite orb_true_r]).
    by eexists _, _, s', M', Q', F', U'. }
  rewrite (proj2 (Z.eqb_neq _ 0)) by done. cbn [orb]. rewrite Hfl. cbn [Z.eqb].
  assert (exists Q2, p_it r = p /\ ok (if p_move r =? 0 then s' else item_link_q (p_it r) (move_lru (p_move r) (p_it r) s')) M' Q2 F' U'
    (set_ref R p (R p + 1))) as (Q2 & Hp & Hw2).
  { destruct Hr as [(Hp & -> & Hw2)|(Hp & Hmz & Hmv & Hlk & s0 & -> & Hw2)]; [by exists Q'|].
    rewrite (proj2 (Z.eqb_neq _ 0)) by done. rewrite Hp, move_lru_eq.
    destruct (wf_requeue set hash Hpage s0 M' Q' F' U' _ p (moved_to (p_move r)) Hw2 Hlk) as [Q2 Hw3]; [by apply keeps_class_move|].
    by exists Q2. }
  set (s2 := if p_move r =? 0 then s' else _) in *. rewrite Hp in *.
  assert (0 <= R p) as HR.
  { destruct (decide (R p = 0)) as [->|Hne]; [done|]. destruct (w_refs _ _ _ _ _ _ _ _ Hw p Hne) as [c Hc].
    destruct (item_at_used _ _ _ _ _ _ _ _ Hw Hc) as (? & _ & _ & _ & ? & _). done. }
  destruct (w_refs _ _ _ _ _ _ _ _ Hw2 p ltac:(rewrite set_ref_same; lia)) as [c Hc].
  destruct (wf_remove set hash nchunks Hpage s2 M' Q2 F' U' _ c p Hw2 Hc ltac:(rewrite set_ref_same; lia)) as (F3 & U3 & Hw3 & _).
  eexists _, _, _, M', Q2, F3, U3. split; [done|]. split_and!; [|done|].
  - eapply wf_R; [|exact Hw3]. intros y. unfold set_ref. repeat case_decide; subst; lia.
  - rewrite bumps_remove. unfold s2. case_if; [done|]. rewrite bumps_link_q. done.
Qed.

(** ** Allocation *)

(** The items somebody holds, and those that are still linked, keep what the operations do not touch. *)
Definition held_pays (R : Z -> Z) (M' : gmap (list Z) Z) (s s' : server) : Prop :=
  forall P, Unaffected P -> UnaffectedTime P -> UnaffectedCas P -> UnaffectedExptime P ->
  forall y it, R y <> 0 \/ linked M' y -> mem s !! y = Some it -> exists it', mem s' !! y = Some it' /\ P it it'.

Lemma held_pays_all R M s s' : (forall P, Unaffected P -> UnaffectedTime P -> UnaffectedCas P -> UnaffectedExptime P -> uspays P (mem s) s') -> held_pays R M s s'.
Proof. intros H P H1 H2 H3 H4 y it _. by apply H. Qed.
Lemma held_pays_refl R M s : held_pays R M s s.
Proof. apply held_pays_all. intros P ? ? ? ?. apply pays_refl. Qed.
Lemma held_pays_trans R tl M2 M3 s1 s2 s3 : held_pays R M2 s1 s2 -> evicts tl M2 M3 -> held_pays R M3 s2 s3 -> held_pays R M3 s1 s3.
Proof.
  intros H1 [HM _] H2 P ? ? ? ? y it HR Hy. destruct (H1 P _ _ _ _ y it) as (it2 & Hy2 & E); try done.
  { destruct HR as [HR|[k Hk]]; [by left|right]. exists k. by eapply lookup_weaken. }
  destruct (H2 P _ _ _ _ y it2 HR Hy2) as (it3 & Hy3 & E3). exists it3. split; [done|by etrans].
Qed.

Lemma refs_nonneg s M Q F U R x : ok s M Q F U R -> 0 <= R x.
Proof.
  intros Hw. destruct (decide (R x = 0)) as [-> |Hne]; [done|]. destruct (w_refs _ _ _ _ _ _ _ _ Hw x Hne) as [c Hc].
  by destruct (item_at_used _ _ _ _ _ _ _ _ Hw Hc) as (? & _ & _ & _ & ? & _).
Qed.

(** The outcome of an attempt to allocate: nothing, or a chunk that nobody had, with one
    reference for the caller. *)
Definition allocated (R : Z -> Z) (M' : gmap (list Z) Z) (id it : Z) (s' : server) : Prop := exists Q' F' U',
  it = 0 /\ ok s' M' Q' F' U' R \/
  0 < it /\ R it = 0 /\ ~ linked M' it /\ it ∈ U' id /\ ok s' M' Q' F' U' (set_ref R it 1) /\
  it_flags (item_at s' it) = 0 /\ slabs_clsid (item_at s' it) = id.

Section alloc.
Context (es : nat -> slabs_t -> env) (trylock : Z -> bool) (locked : bool) (id : Z).
Context (Hes : forall i sl, alloc_ok (slab_set set) (es i sl) sl id) (Hid : 0 <= id < 64).

Lemma wf_pull_step cur flags s M Q F U R : ok s M Q F U R -> (forall x, R x + 3 < 2 ^ 16) ->
  Z.land flags LRU_PULL_RETURN_ITEM = 0 -> cur = HOT_LRU \/ cur = COLD_LRU ->
  exists r n s' M' Q' F' U', lru_pull_tail set hash nchunks trylock locked id cur 0 flags 0 s = Some (r, n, s') /\
    ok s' M' Q' F' U' R /\ evicts trylock M M' /\ bumps s' = bumps s /\ held_pays R M' s s'.
Proof.
  intros Hw Hfew Hfl Hcur.
  assert (0 <= Z.lor id cur < 256) as Hlor.
  { destruct (class_byte id cur) as [_ Hb]; [lia|unfold lru_ids; set_solver|].
    assert (Z.ldiff id 192 = id) as E; [|by rewrite E in Hb]. apply small_class. lia. }
  destruct (wf_pull_tail trylock locked id cur 0 flags 0 s M Q F U R Hw Hfew Hfl Hlor) as (r & n & s' & M' & Q' & F' & U' & E & ? & ? & ?).
  exists r, n, s', M', Q', F', U'. split_and!; try done. apply held_pays_all. intros P ? ? ? ?. eapply spays_pull_tail; [exact E|apply pays_refl].
Qed.

Lemma wf_alloc_loop n : forall i s M Q F U R, ok s M Q F U R -> (forall x, R x + 3 < 2 ^ 16) ->
  exists it j s' M', alloc_loop set hash nchunks es trylock locked id n i s = Some (it, j, s') /\
    evicts trylock M M' /\ bumps s' = bumps s /\ held_pays R M' s s' /\ allocated R M' id it s'.
Proof.
  induction n as [|n IH]; intros i s M Q F U R Hw Hfew; cbn [alloc_loop].
  { eexists 0, i, s, M. split_and!; try done; [apply held_pays_refl|]. exists Q, F, U. by left. }
  assert (exists r s1 M1 Q1 F1 U1, (if lru_segmented set then Some (0, s) else
      match lru_pull_tail set hash nchunks trylock locked id COLD_LRU 0 0 0 s with Some (r, _, s) => Some (r, s) | None => None end)
      = Some (r, s1) /\ ok s1 M1 Q1 F1 U1 R /\ evicts trylock M M1 /\ bumps s1 = bumps s /\ held_pays R M1 s s1)
    as (r1 & s1 & M1 & Q1 & F1 & U1 & -> & Hw1 & HM1 & Hb1 & Hp1).
  { destruct (lru_segmented set); [exists 0, s, M, Q, F, U; split_and!; try done; apply held_pays_refl|].
    destruct (wf_pull_step COLD_LRU 0 s M Q F U R Hw Hfew eq_refl (or_intror eq_refl)) as (r & k & s' & M' & Q' & F' & U' & -> & H).
    by exists r, s', M', Q', F', U'. }
  pose proof (wf_alloc_chunk set hash nchunks Hpage s1 M1 Q1 F1 U1 R (es i (slab s1)) id 0 Hw1 (Hes i (slab s1))) as Ha.
  assert (bumps (alloc_chunk set nchunks (es i (slab s1)) id 0 s1).2 = bumps s1) as Hb2.
  { unfold alloc_chunk. by destruct (do_slabs_alloc _ _ _ _ _ _ _ _) as [[? ?] ?]. }
  destruct (alloc_chunk set nchunks (es i (slab s1)) id 0 s1) as [it s2]. destruct Ha as (F2 & Hk & Ho). cbn [snd] in Hb2.
  assert (held_pays R M1 s s2) as Hp2.
  { eapply held_pays_trans; [exact Hp1|apply (evicts_refl trylock)|]. intros P ? ? ? ? y ity HR Hy. exists ity. split; [|done].
    assert (exists c, y ∈ U1 c) as [c Hc] by (destruct HR as [HR|HR]; [by apply (w_refs _ _ _ _ _ _ _ _ Hw1)|by apply (w_linked _ _ _ _ _ _ _ _ Hw1)]).
    by rewrite (Hk c y Hc). }
  destruct Ho as [[-> Hw2]|(Hit & Hfresh & Hw2 & Hfl & Hcl)].
  2: { rewrite (proj2 (Z.eqb_neq it 0)) by lia. eexists it, i, s2, M1. split_and!; try done; [congruence|].
    exists Q1, F2, (upd U1 id (it :: U1 id)). right. split_and!; try done.
    - destruct (decide (R it = 0)) as [|Hne]; [done|]. destruct (w_refs _ _ _ _ _ _ _ _ Hw1 it Hne) as [c Hc]. by destruct (Hfresh c).
    - intros Hlk. destruct (w_linked _ _ _ _ _ _ _ _ Hw1 it Hlk) as [c Hc]. by destruct (Hfresh c).
    - unfold upd. rewrite decide_True by done. by left. }
  cbn [Z.eqb].
  destruct (wf_pull_step COLD_LRU LRU_PULL_EVICT s2 M1 Q1 F2 U1 R Hw2 Hfew eq_refl (or_intror eq_refl))
    as (r3 & k3 & s3 & M3 & Q3 & F3 & U3 & -> & Hw3 & HM3 & Hb3 & Hp3).
  assert (forall s4 M4 Q4 F4 U4, ok s4 M4 Q4 F4 U4 R -> evicts trylock M3 M4 -> bumps s4 = bumps s3 -> held_pays R M4 s3 s4 ->
    exists it j s' M', alloc_loop set hash nchunks es trylock locked id n (S i) s4 = Some (it, j, s') /\
    evicts trylock M M' /\ bumps s' = bumps s /\ held_pays R M' s s' /\ allocated R M' id it s') as Hrec.
  { intros s4 M4 Q4 F4 U4 Hw4 HM4 Hb4 Hp4. destruct (IH (S i) s4 M4 Q4 F4 U4 R Hw4 Hfew) as (it & j & s' & M' & E & HM' & Hb' & Hp' & Ha').
    exists it, j, s', M'. split_and!; try done; [by eapply evicts_trans; [|eapply evicts_trans; [|eapply evicts_trans]]|congruence|].
    assert (evicts trylock M3 M') as HM3' by (by eapply evicts_trans). eapply held_pays_trans; [exact Hp2|by eapply evicts_trans|].
    eapply held_pays_trans; [exact Hp3|exact HM3'|]. by eapply held_pays_trans. }
  destruct (r3 <=? 0); [|apply (Hrec s3 M3 Q3 F3 U3); try done; apply held_pays_refl].
  destruct (lru_segmented set).
  - destruct (wf_pull_step HOT_LRU 0 s3 M3 Q3 F3 U3 R Hw3 Hfew eq_refl (or_introl eq_refl))
      as (r4 & k4 & s4 & M4 & Q4 & F4 & U4 & -> & Hw4 & HM4 & Hb4 & Hp4).
    by apply (Hrec s4 M4 Q4 F4 U4).
  - eexists 0, i, s3, M3. split_and!; try done; [by eapply evicts_trans|congruence|by eapply held_pays_trans|].
    exists Q3, F3, U3. by left.
Qed.
End alloc.

(** A store to an item that is in no data structure. *)
Lemma wf_private s M Q F U R c x f it : ok s M Q F U R -> x ∈ U c -> ~ linked M x -> mem s !! x = Some it ->
  ITEM_clsid (f it) = ITEM_clsid it -> 0 <= slabs_clsid (f it) < 256 -> refcount (f it) = refcount it ->
  (forall g, g ∈ [ITEM_LINKED; ITEM_CHUNKED; ITEM_SLABBED] -> has_flag g (f it) = has_flag g it) ->
  ok (upd_item f x s) M Q F U R.
Proof.
  intros Hw Hx Hnl Hit Hcl Hb Hrc Hg. pose proof Hw as [[C Ht] Hl _ Hq Hu Hlk _ Hcnt].
  assert (forall id, x ∉ Q id) as HxQ by (intros id Hin; apply Hnl, Hq; by exists id).
  eapply (wf_relink set hash Hpage s _ M M Q Q F U R R c x Hw Hx); try done.
  - exists C. apply rep_alter_other; [done|]. intros l Hin. destruct (rep_member hash _ _ _ _ _ _ Ht Hin) as (? & _ & ?).
    apply Hnl. by eexists.
  - by apply lru_alter_other.
  - intros y Hy. unfold upd_item. cbn [mem with_mem]. by rewrite lookup_alter_ne.
  - intros i y Hy. unfold upd_item. cbn [mem with_mem]. apply lookup_alter_ne. intros ->. by eapply (used_free_disjoint set hash Hpage).
  - destruct (Hu c x Hx) as (it' & Hit' & Hu'). rewrite Hit in Hit'. injection Hit' as <-. exists (f it).
    unfold upd_item. cbn [mem with_mem]. rewrite lookup_alter_eq, Hit, Hcl, Hrc, !Hg by set_solver. split; [done|].
    by destruct Hu' as (? & ? & H).
Qed.

(** The total size [do_item_alloc] computes. *)
Definition alloc_size (key : list Z) (flags nbytes : Z) : Z :=
  let ntotal := snd (item_make_header (Z.of_nat (length key) + 1) flags nbytes) in
  if use_cas set then u64 (ntotal + 8) else ntotal.

(** [do_item_alloc] for an item that fits a chunk: null, or an item nobody had, with the
    key and sizes asked for, in no data structure, held once. *)
Lemma wf_item_alloc es trylock locked key flags expt nb s M Q F U R :
  ok s M Q F U R -> (forall x, R x + 3 < 2 ^ 16) -> (forall i sl id, alloc_ok (slab_set set) (es i sl) sl id) ->
  alloc_size key flags nb <= slab_chunk_size_max (slab_set set) ->
  exists it s' M' Q' F' U', do_item_alloc set hash nchunks es trylock locked key flags expt nb s = Some (it, s') /\
    evicts trylock M M' /\ bumps s' = bumps s /\ held_pays R M' s s' /\
    (it = 0 /\ ok s' M' Q' F' U' R \/
     0 < it /\ R it = 0 /\ ~ linked M' it /\ ok s' M' Q' F' U' (set_ref R it 1) /\
     ikey (item_at s' it) = key /\ exptime (item_at s' it) = expt /\ nbytes (item_at s' it) = nb /\
     FLAGS_CONV (item_at s' it) = flags /\ has_flag ITEM_CHUNKED (item_at s' it) = false).
Proof.
  intros Hw Hfew Hes Hsmall. unfold alloc_size in Hsmall. unfold do_item_alloc. cbn zeta.
  pose proof (held_pays_refl R M s) as Hrefl.
  destruct (nb <? 2); [exists 0, s, M, Q, F, U; split_and!; try done; by left|].
  assert (nsuffix_ok : (item_make_header (Z.of_nat (length key) + 1) flags nb).1 = if flags =? 0 then 0 else 4) by done.
  destruct (item_make_header _ flags nb) as [nsuffix nt]. cbn [fst snd] in Hsmall, nsuffix_ok.
  set (ntotal := if use_cas set then u64 (nt + 8) else nt) in *. set (id := slabs_clsid_of _ _ ntotal).
  destruct (Z.eqb_spec id 0) as [|Hid0]; [exists 0, s, M, Q, F, U; split_and!; try done; by left|].
  assert (0 <= id < 64) as Hid.
  { pose proof (si_largest _ _ _ _ _ _ (w_slab _ _ _ _ _ _ _ _ Hw)) as Hl. unfold id, slabs_clsid_of in *. case_if; [done|].
    destruct (clsid_loop_spec (slab s) ntotal POWER_SMALLEST (Z.to_nat (power_largest (slab s)))) as (H1 & _);
      unfold POWER_SMALLEST in *; lia. }
  rewrite (proj2 (Z.ltb_ge _ _)) by lia. unfold do_item_alloc_pull.
  destruct (wf_alloc_loop es trylock locked id (fun i sl => Hes i sl id) Hid 10 0 s M Q F U R Hw Hfew)
    as (it & j & s1 & M1 & -> & HM1 & Hb1 & Hp1 & Q1 & F1 & U1 & Ho).
  set (s2 := if (j =? 0)%nat then s1 else _).
  assert (mem s2 = mem s1 /\ bumps s2 = bumps s1 /\ forall R, ok s1 M1 Q1 F1 U1 R -> ok s2 M1 Q1 F1 U1 R) as (Hm2 & Hb2 & Hw2).
  { unfold s2. case_if; [done|]. split_and!; try done. intros R'. by apply wf_stat_add. }
  assert (held_pays R M1 s s2) as Hp2 by (intros P ? ? ? ? y ity HR Hy; rewrite Hm2; by apply Hp1).
  destruct Ho as [[-> Hw1]|(Hit & HR & Hnl & Hin & Hw1 & Hfl & Hcl)].
  { cbn [Z.eqb]. eexists 0, _, M1, Q1, F1, U1. split_and!; try done; [cbn; congruence|]. left. split; [done|]. by apply wf_stat_add, Hw2. }
  rewrite (proj2 (Z.eqb_neq it 0)) by lia. specialize (Hw2 _ Hw1).
  assert (item_at s2 it = item_at s1 it) as Hat by (unfold item_at; by rewrite Hm2). rewrite <- Hat in Hfl, Hcl.
  destruct (item_at_used _ _ _ _ _ _ _ _ Hw2 Hin) as (ity & Hity & Hity' & _). rewrite Hity' in Hfl, Hcl.
  set (id2 := if _ && _ then _ else _).
  assert (Z.ldiff id2 192 = id /\ 0 <= id2 < 256) as [Hid2 Hr2].
  { assert (exists l, l ∈ lru_ids /\ id2 = Z.lor (Z.ldiff id 192) l) as (l & Hl & ->).
    { rewrite (small_class id Hid). unfold id2, lru_ids. repeat case_if; eexists; (split; [|done]); set_solver. }
    destruct (class_byte id l ltac:(lia) Hl) as [E1 E2]. split; [|done]. by rewrite E1, small_class. }
  set (f := init_item set id2 key flags nsuffix expt nb).
  assert (ok (upd_item f it s2) M1 Q1 F1 U1 (set_ref R it 1)) as Hw3.
  { apply (wf_private s2 M1 Q1 F1 U1 _ id it f ity); try done.
    - unfold f, init_item, ITEM_clsid. cbn [slabs_clsid]. rewrite Hcl, (wrap_small 8) by lia. by rewrite Hid2, small_class.
    - unfold f, init_item. cbn [slabs_clsid]. rewrite (wrap_small 8); lia.
    - intros g Hg. unfold f, init_item, has_flag. cbn [it_flags]. rewrite Hfl.
      repeat (apply elem_of_cons in Hg as [-> |Hg]; [by repeat case_if|]). by apply not_elem_of_nil in Hg. }
  exists it, (upd_item f it s2), M1, Q1, F1, U1. split_and!; try done; [cbn; congruence| |].
  - intros P ? ? ? ? y ity' HRy Hy. destruct (Hp2 P _ _ _ _ y ity' HRy Hy) as (it2 & Hy2 & ?). exists it2. split; [|done].
    unfold upd_item. cbn [mem with_mem]. rewrite lookup_alter_ne; [done|]. intros ->. by destruct HRy.
  - right. assert (item_at (upd_item f it s2) it = f ity) as ->.
    { unfold item_at, upd_item, get. cbn [mem with_mem]. by rewrite lookup_alter_eq, Hity. }
    split_and!; try done.
    + unfold FLAGS_CONV, f, init_item, has_flag. cbn [it_flags iflags]. rewrite nsuffix_ok, Hfl.
      destruct (Z.eqb_spec flags 0) as [-> |]; cbn [Z.eqb]; by destruct (use_cas set).
    + unfold f, init_item, has_flag. cbn [it_flags]. rewrite Hfl. by repeat case_if.
Qed.
End ops.
