(* ===== verification/McItemHistory.v ===== *)
(** Histories of the item store: any sequence of fetches, touches, links, unlinks,
    replacements, allocations with eviction, reference drops and passes of the
    maintenance threads.

    A [world] is the server's state together with the references its users hold.  The
    entries of the bump buffer hold references too.  Users follow the rules the callers in
    the source follow: they release, link or unlink only what they hold, write values only
    before linking or when nobody else refers to the item, store only to header fields the
    invariant does not mention, and link a key only when it is free; a worker thread queues
    its bump entries in the buffer it has. *)
From S2P Require Import Prelude McItem McAssoc McLru McSlabs McItems McItemStore McPayload McItemOps.

Record world := { wstore : server; held : Z -> Z }.

(** The references of the bump buffer, and all references that are not links. *)
Definition bump_refs (l : list (Z * Z)) (x : Z) : Z := Z.of_nat (length (filter (fun e => e.1 = x) l)).
Definition refs (w : world) (x : Z) : Z := held w x + bump_refs (concat (bumps (wstore w))) x.

Lemma bump_refs_nonneg l x : 0 <= bump_refs l x.
Proof. unfold bump_refs. lia. Qed.
Lemma bump_refs_app l l' x : bump_refs (l ++ l') x = bump_refs l x + bump_refs l' x.
Proof. unfold bump_refs. rewrite filter_app, length_app. lia. Qed.
Lemma bump_refs_cons y hv l x : bump_refs ((y, hv) :: l) x = (if decide (x = y) then 1 else 0) + bump_refs l x.
Proof.
  unfold bump_refs. rewrite filter_cons. cbn [fst]. repeat case_decide; subst; try done; cbn [length]; lia.
Qed.

(** An entry is queued, or the first entries of a buffer are taken out. *)
Lemma bump_refs_alter f b l x : (b < length l)%nat ->
  bump_refs (concat (alter f b l)) x = bump_refs (concat l) x + bump_refs (f (nth b l [])) x - bump_refs (nth b l []) x.
Proof.
  revert b. induction l as [|q l IH]; intros b Hb; [cbn in Hb; lia|]. destruct b as [|b]; cbn [nth].
  - change (alter f 0%nat (q :: l)) with (f q :: l). cbn [concat]. rewrite !bump_refs_app. lia.
  - change (alter f (S b) (q :: l)) with (q :: alter f b l). cbn [concat]. rewrite !bump_refs_app, IH by (cbn in Hb; lia). lia.
Qed.
Lemma bump_refs_push b y hv l x : (b < length l)%nat ->
  bump_refs (concat (alter (fun q => q ++ [(y, hv)]) b l)) x = bump_refs (concat l) x + if decide (x = y) then 1 else 0.
Proof.
  intros Hb. rewrite bump_refs_alter, bump_refs_app, bump_refs_cons by done. change (bump_refs [] x) with 0. lia.
Qed.
Lemma bump_refs_nth b l x : bump_refs (nth b l []) x <= bump_refs (concat l) x.
Proof.
  revert b. induction l as [|q l IH]; intros b; [by destruct b|]. cbn [concat]. rewrite bump_refs_app.
  pose proof (bump_refs_nonneg q x). pose proof (bump_refs_nonneg (concat l) x). destruct b as [|b]; cbn [nth]; [lia|]. specialize (IH b). lia.
Qed.
Lemma bump_refs_drop b n l x :
  bump_refs (concat (alter (drop n) b l)) x = bump_refs (concat l) x - bump_refs (take n (nth b l [])) x.
Proof.
  destruct (decide (b < length l)%nat) as [Hb|Hb].
  - rewrite bump_refs_alter by done. rewrite <- (take_drop n (nth b l [])) at 2. rewrite bump_refs_app. lia.
  - assert (alter (drop n) b l = l) as ->.
    { apply list_eq. intros i. destruct (decide (i = b)) as [-> |]; [|by rewrite list_lookup_alter_ne].
      assert (l !! b = None) as E by (apply lookup_ge_None_2; lia). rewrite list_lookup_alter_eq, E. done. }
    rewrite nth_overflow, take_nil by lia. change (bump_refs [] x) with 0. lia.
Qed.

Definition with_time (t : Z) (s : server) : server :=
  {| mem := mem s; table := table s; lrus := lrus s; slab := slab s; schunks := schunks s; cas_id := cas_id s;
     curr_items := curr_items s; curr_bytes := curr_bytes s; total_items := total_items s; istats := istats s;
     sizes_hist := sizes_hist s; sizes_cas_min := sizes_cas_min s; bumps := bumps s; dropped := dropped s;
     rebalance := rebalance s; current_time := t |}.

Inductive op :=
| OpGet (room : option nat) (key : list Z) (do_update : bool)
| OpTouch (room : option nat) (key : list Z) (exptime : Z)
| OpRelease (x : Z)
| OpUpdate (x : Z)
| OpBump (room : option nat) (x : Z)
| OpWrite (x : Z) (value : list Z)
| OpRewrite (x : Z) (value : list Z)
| OpHeader (x : Z) (f : item -> item)
| OpLink (x : Z)
| OpUnlink (x : Z)
| OpReplace (x y : Z)
| OpAlloc (es : nat -> slabs_t -> env) (trylock : Z -> bool) (locked : bool) (key : list Z) (flags exptime nbytes : Z)
| OpPull (trylock : Z -> bool) (locked : bool) (clsid lru_id total_bytes flags max_age : Z)
| OpJuggle (trylock : Z -> bool) (locked : bool) (clsid : Z)
| OpBumps (ready : list nat)
| OpExpand (items : Z)
| OpMaintain (locks : list bool) (wake : option bool)
| OpTick (t : Z).

Section history.
Context (set : item_settings) (hash : list Z -> Z) {Hhash : KeyHash hash} (nchunks : nat).
Context (Hpage : 0 < slab_page_size (slab_set set) < 2 ^ 31) (Hrepair : tail_repair_time set = 0).

(** A new value and a new CAS id for an item that stays where it is: the histogram goes
    by the CAS id, so the item leaves it and enters it again. *)
Definition rewrite_item (x : Z) (value : list Z) (s : server) : server :=
  let s := item_stats_sizes_remove set x s in
  let '(cas, s) := if has_flag ITEM_CAS (item_at s x) && use_cas set then get_cas_id s else (0, s) in
  let s := upd_item (ITEM_set_cas cas) x s in
  let s := item_stats_sizes_add set x s in
  upd_item (set_data value) x s.

(** A caller takes, gives back, or does not change its references. *)
Definition take_ref (x : Z) (s : server) (w : world) : world := {| wstore := s; held := set_ref (held w) x (held w x + 1) |}.
Definition drop_ref (x : Z) (s : server) (w : world) : world := {| wstore := s; held := set_ref (held w) x (held w x - 1) |}.
Definition keep (s : server) (w : world) : world := {| wstore := s; held := held w |}.
(** The result of a function that returns an item with a reference, or null. *)
Definition took (w : world) (r : Z * server) : Z * world := (r.1, if r.1 =? 0 then keep r.2 w else take_ref r.1 r.2 w).

Definition key_hash (s : server) (x : Z) : Z := hash (ikey (item_at s x)).

Definition exec (o : op) (w : world) : option (Z * world) :=
  let s := wstore w in
  match o with
  | OpGet room key u => took w <$> do_item_get set nchunks room key (hash key) u s
  | OpTouch room key e => took w <$> do_item_touch set nchunks room key e (hash key) s
  | OpRelease x => Some (0, drop_ref x (do_item_remove nchunks x s) w)
  | OpUpdate x => Some (0, keep (do_item_update set x s) w)
  | OpBump room x => Some (0, keep (do_item_bump set room x (key_hash s x) s) w)
  | OpWrite x v => Some (0, keep (upd_item (set_data v) x s) w)
  | OpRewrite x v => Some (0, keep (rewrite_item x v s) w)
  | OpHeader x f => Some (0, keep (upd_item f x s) w)
  | OpLink x => Some (0, keep (do_item_link set x (key_hash s x) s) w)
  | OpUnlink x => (fun s => (0, keep s w)) <$> do_item_unlink set nchunks x (key_hash s x) s
  | OpReplace x y => (fun s => (0, keep s w)) <$> do_item_replace set nchunks x y (key_hash s x) s
  | OpAlloc es trylock locked key flags e nb => took w <$> do_item_alloc set hash nchunks es trylock locked key flags e nb s
  | OpPull trylock locked clsid l total flags age =>
      (fun r => (r.1.1, keep r.2 w)) <$> lru_pull_tail set hash nchunks trylock locked clsid l total flags age s
  | OpJuggle trylock locked clsid => (fun r => (r.1, keep r.2 w)) <$> lru_maintainer_juggle set hash nchunks trylock locked clsid s
  | OpBumps ns => Some (0, keep (lru_maintainer_bumps set nchunks ns s).2 w)
  | OpExpand n => Some (0, keep (with_table (mem s) (assoc_start_expand (table s) n) s) w)
  | OpMaintain locks wake =>
      let '(h, t) := maintenance_round hash locks wake (mem s) (table s) in Some (0, keep (with_table h t s) w)
  | OpTick t => Some (0, keep (with_time t s) w)
  end.

(** The item stored under a key, or null. *)
Definition stored (w : world) (k : list Z) : Z := assoc_find (mem (wstore w)) (table (wstore w)) k (hash k).
Definition is_linked (w : world) (x : Z) : bool := has_flag ITEM_LINKED (item_at (wstore w) x).
Definition key_of (w : world) (x : Z) : list Z := ikey (item_at (wstore w) x).

(** The rules for the callers.  No item has more references than its counter can hold. *)
Definition allowed (o : op) (w : world) : Prop :=
  (forall x, refs w x + 3 < 2 ^ 16) /\
  match o with
  | OpRelease x | OpUpdate x | OpUnlink x => 0 < held w x
  | OpBump room x => 0 < held w x /\ match room with Some b => (b < length (bumps (wstore w)))%nat | None => True end
  | OpHeader x f => 0 < held w x /\ keeps f /\ forall it, payload (f it) = payload it
  | OpWrite x _ => 0 < held w x /\ is_linked w x = false
  | OpRewrite x _ => 0 < held w x /\ refs w x = 1
  | OpLink x => 0 < held w x /\ is_linked w x = false /\ stored w (key_of w x) = 0
  | OpReplace x y => 0 < held w x /\ is_linked w x = true /\ 0 < held w y /\ is_linked w y = false /\ key_of w y = key_of w x
  | OpAlloc es _ _ key flags _ nb =>
      (forall i sl id, alloc_ok (slab_set set) (es i sl) sl id) /\ alloc_size set key flags nb <= slab_chunk_size_max (slab_set set)
  | OpPull _ _ clsid l _ flags _ => 0 <= clsid < 64 /\ l ∈ lru_ids /\ Z.land flags LRU_PULL_RETURN_ITEM = 0
  | OpJuggle _ _ clsid => 0 <= clsid < 64
  | OpMaintain _ wake => wake = Some true -> hashpower (table (wstore w)) < 31
  | OpGet room _ _ | OpTouch room _ _ => match room with Some b => (b < length (bumps (wstore w)))%nat | None => True end
  | OpBumps _ | OpExpand _ | OpTick _ => True
  end.

(** What an operation returns, and what it does to the map from keys to items. *)
Definition live (w : world) (k : list Z) : bool :=
  negb (stored w k =? 0) && negb (dead set (wstore w) (item_at (wstore w) (stored w k))).
Definition outcome (o : op) (w : world) (r : Z) (w' : world) : Prop :=
  match o with
  | OpGet _ key _ => r = if live w key then stored w key else 0
  | OpTouch _ key e => r = (if live w key then stored w key else 0) /\ (r <> 0 -> exptime (item_at (wstore w') r) = e)
  | OpAlloc _ _ _ key fl e nb =>
      r = 0 \/ refs w r = 0 /\ (forall k, stored w' k <> r) /\ key_of w' r = key /\
        exptime (item_at (wstore w') r) = e /\ nbytes (item_at (wstore w') r) = nb /\
        FLAGS_CONV (item_at (wstore w') r) = fl /\ has_flag ITEM_CHUNKED (item_at (wstore w') r) = false
  | _ => True
  end.
Definition new_stored (o : op) (w w' : world) (k : list Z) : Prop :=
  match o with
  | OpGet _ key _ | OpTouch _ key _ => stored w' k = if decide (k = key) then (if live w key then stored w key else 0) else stored w k
  | OpLink x => stored w' k = if decide (k = key_of w x) then x else stored w k
  | OpUnlink x => stored w' k = if is_linked w x && bool_decide (k = key_of w x) then 0 else stored w k
  | OpReplace x y => stored w' k = if decide (k = key_of w x) then y else stored w k
  | OpAlloc _ tl _ _ _ _ _ | OpPull tl _ _ _ _ _ _ | OpJuggle tl _ _ =>
      (stored w' k = stored w k \/ stored w' k = 0) /\ (tl (hash k) = false -> stored w' k = stored w k)
  | _ => stored w' k = stored w k
  end.

(** The invariant of a world. *)
Definition winv (w : world) (M : gmap (list Z) Z) : Prop :=
  (forall x, 0 <= held w x) /\ exists Q F U, wf set hash (wstore w) M Q F U (refs w).

Lemma winv_stored w M k : winv w M -> stored w k = default 0 (M !! k).
Proof. intros [_ (Q & F & U & Hw)]. destruct (w_table _ _ _ _ _ _ _ _ Hw) as [C Ht]. by apply (rep_find hash _ _ _ _ k Ht). Qed.

(** ** Every allowed operation succeeds and does what it should *)

Definition writes (o : op) (x : Z) : bool := match o with OpWrite y _ | OpRewrite y _ => y =? x | _ => false end.
Definition stable (o : op) (w w' : world) : Prop := forall x it, refs w x <> 0 -> writes o x = false ->
  mem (wstore w) !! x = Some it -> exists it', mem (wstore w') !! x = Some it' /\ payload it' = payload it.
Definition good (o : op) (w : world) : Prop := exists r w' M', exec o w = Some (r, w') /\ winv w' M' /\
  outcome o w r w' /\ (forall k, new_stored o w w' k) /\ stable o w w' /\ forall x, refs w' x <= refs w x + 2.

Lemma stable_held o w M' s : held_pays (refs w) M' (wstore w) s -> forall w', wstore w' = s -> stable o w w'.
Proof. intros H w' <- x it HR _. apply (H pays_item); try apply _. by left. Qed.
Lemma stable_pays o w w' : spays (mem (wstore w)) (wstore w') -> stable o w w'.
Proof. intros H x it _ _. apply H. Qed.

(** The state changes, the references of the users do not. *)
Lemma winv_keep w M s' M' Q F U : winv w M -> wf set hash s' M' Q F U (refs w) -> bumps s' = bumps (wstore w) -> winv (keep s' w) M'.
Proof.
  intros [Hh _] Hw Hb. split; [exact Hh|]. exists Q, F, U. cbn [keep wstore]. eapply wf_R; [|exact Hw].
  intros x. unfold refs. cbn [keep wstore held]. by rewrite Hb.
Qed.
Lemma held_refs w M x : winv w M -> 0 < held w x -> 0 < refs w x.
Proof. intros _ Hx. unfold refs, bump_refs. lia. Qed.
Lemma held_used w M Q F U x : wf set hash (wstore w) M Q F U (refs w) -> 0 < refs w x -> exists c, x ∈ U c.
Proof. intros Hw Hx. apply (w_refs _ _ _ _ _ _ _ _ Hw). lia. Qed.

(** The map is unchanged. *)
Lemma same_map w w' M : winv w M -> winv w' M -> forall k, stored w' k = stored w k.
Proof. intros H H' k. by rewrite (winv_stored w M), (winv_stored w' M). Qed.
Lemma smaller_map tl w w' M M' : winv w M -> winv w' M' -> evicts hash tl M M' -> forall k,
  (stored w' k = stored w k \/ stored w' k = 0) /\ (tl (hash k) = false -> stored w' k = stored w k).
Proof.
  intros H H' [Hs Hl] k. rewrite (winv_stored w M), (winv_stored w' M') by done. split; [|intros Ht; by rewrite Hl].
  destruct (M' !! k) as [x|] eqn:E; [|by right]. left. by rewrite (lookup_weaken _ _ _ _ E Hs).
Qed.
Lemma refs_keep w s' : bumps s' = bumps (wstore w) -> forall x, refs (keep s' w) x <= refs w x + 2.
Proof. intros Hb x. unfold refs. cbn [keep wstore held]. rewrite Hb. lia. Qed.

(** What the LINKED flag and the table say about an item somebody holds. *)
Lemma linked_iff w M Q F U x : wf set hash (wstore w) M Q F U (refs w) -> 0 < refs w x ->
  (is_linked w x = true <-> linked M x) /\ (linked M x -> M !! key_of w x = Some x).
Proof.
  intros Hw Hx. destruct (held_used _ _ _ _ _ _ Hw Hx) as [c Hc].
  destruct (item_at_used set hash Hpage _ _ _ _ _ _ _ _ Hw Hc) as (it & Hit & Hat & Hl & _). unfold is_linked, key_of. rewrite Hat.
  split; [done|]. intros [k Hk]. destruct (w_key set hash _ _ _ _ _ _ _ _ Hw Hk) as (it' & Hit' & <-). congruence.
Qed.

Lemma live_dead w M k : winv w M ->
  live w k = match M !! k with Some x => negb (dead set (wstore w) (item_at (wstore w) x)) | None => false end.
Proof.
  intros Hi. unfold live. rewrite (winv_stored w M k Hi). destruct Hi as [_ (Q & F & U & Hw)].
  destruct (M !! k) as [x|] eqn:E; cbn [default]; [|done]. unfold id.
  destruct (w_linked _ _ _ _ _ _ _ _ Hw x ltac:(by exists k)) as [c Hc].
  rewrite (proj2 (Z.eqb_neq x 0)); [done|]. by eapply (used_nonzero set hash Hpage).
Qed.

Lemma new_map_get w w' M M' key : winv w M -> winv w' M' ->
  M' = (if live w key then M else delete key M) -> forall k,
  stored w' k = if decide (k = key) then (if live w key then stored w key else 0) else stored w k.
Proof.
  intros Hi Hi' -> k. rewrite (winv_stored w' _ k Hi'), !(winv_stored w M) by done.
  destruct (live w key); case_decide as Hk; subst; try done; [by rewrite lookup_delete_eq|by rewrite lookup_delete_ne].
Qed.

(** A fetch, with the store [f] to the item it returns. *)
Lemma good_get room key u w M : winv w M -> (forall x, refs w x + 3 < 2 ^ 16) ->
  match room with Some b => (b < length (bumps (wstore w)))%nat | None => True end -> exists r s',
  do_item_get set nchunks room key (hash key) u (wstore w) = Some (r, s') /\
  (r = if live w key then stored w key else 0) /\ (r <> 0 -> is_Some (mem s' !! r)) /\
  (forall f, keeps f -> winv (took w (r, if r =? 0 then s' else upd_item f r s')).2 (if live w key then M else delete key M)) /\
  forall f x, refs (took w (r, if r =? 0 then s' else upd_item f r s')).2 x <= refs w x + 2.
Proof.
  intros Hi Hfew Hroom. pose proof Hi as [Hh (Q & F & U & Hw)].
  destruct (wf_get set hash nchunks Hpage (wstore w) M Q F U (refs w) room key u Hw Hfew) as (r & s' & E & H).
  exists r, s'. split; [done|]. rewrite (live_dead w M key Hi), (winv_stored w M key Hi).
  destruct (M !! key) as [x|] eqn:Hk; cbn [default]; unfold id.
  - destruct (w_linked _ _ _ _ _ _ _ _ Hw x ltac:(by exists key)) as [c Hc].
    assert (x <> 0) as Hx0 by (by eapply (used_nonzero set hash Hpage)).
    destruct (dead set (wstore w) (item_at (wstore w) x)); cbn [negb id].
    + destruct H as (-> & Hb & Q' & F' & U' & Hw'). split; [done|]. split; [done|]. split; [intros f _; by apply (winv_keep w M s' _ Q' F' U')|].
      intros f. by apply refs_keep.
    + destruct H as (-> & Q' & d & Hw' & Hb). split; [done|].
      destruct (item_at_used set hash Hpage _ _ _ _ _ _ _ _ Hw' Hc) as (it & Hit & _). split; [by eexists|].
      unfold took. cbn [fst snd]. rewrite (proj2 (Z.eqb_neq x 0)) by done.
      assert (forall f y, refs (take_ref x (upd_item f x s') w) y = set_ref (refs w) x (refs w x + 1 + d) y) as Hrefs.
      { intros f y. unfold refs. cbn [take_ref wstore held bumps upd_item with_mem].
        destruct Hb as [[-> ->]|(b & -> & -> & ->)]; [|rewrite bump_refs_push by done]; unfold set_ref, refs; case_decide; subst; lia. }
      split; [|intros f y; rewrite Hrefs; unfold set_ref; destruct Hb as [[-> _]|(b & -> & _)]; case_decide; subst; lia].
      intros f Hf. split.
      * intros y. cbn [take_ref held]. unfold set_ref. specialize (Hh y). case_decide; subst; lia.
      * exists Q', F, U. cbn [take_ref wstore]. apply (wf_upd set hash Hpage s' M Q' F U _ c); [|done|done].
        eapply wf_R; [|exact Hw']. apply (Hrefs f).
  - destruct H as [-> ->]. split; [done|]. split; [done|]. split; [|intros f; by apply refs_keep].
    intros f _. rewrite delete_id by done. by apply (winv_keep w M _ M Q F U).
Qed.

Lemma good_OpGet room key u w M : winv w M -> allowed (OpGet room key u) w -> good (OpGet room key u) w.
Proof.
  intros Hi [Hfew Hroom]. destruct (good_get room key u w M Hi Hfew Hroom) as (r & s' & E & Hr & _ & Hf & Href).
  specialize (Hf (fun i => i) ltac:(by intros it)). specialize (Href (fun i => i)). rewrite upd_item_id in Hf, Href. assert ((if r =? 0 then s' else s') = s') as Hs by by case_if.
  rewrite Hs in Hf, Href. exists r, (took w (r, s')).2, (if live w key then M else delete key M). cbn [exec]. rewrite E. split_and!; try done.
  - intros k. cbn [new_stored]. by apply (new_map_get w _ M (if live w key then M else delete key M)).
  - apply stable_pays. assert (wstore (took w (r, s')).2 = s') as -> by (unfold took; cbn [fst snd]; by case_if).
    eapply spays_get; [exact E|apply pays_refl].
Qed.

Lemma good_OpTouch room key e w M : winv w M -> allowed (OpTouch room key e) w -> good (OpTouch room key e) w.
Proof.
  intros Hi [Hfew Hroom]. destruct (good_get room key true w M Hi Hfew Hroom) as (r & s' & E & Hr & Hsome & Hf & Href).
  specialize (Hf (set_exptime e) (keeps_exptime e)). specialize (Href (set_exptime e)). set (s2 := if r =? 0 then s' else upd_item (set_exptime e) r s') in *.
  assert (do_item_touch set nchunks room key e (hash key) (wstore w) = Some (r, s2)) as Et.
  { unfold do_item_touch. rewrite E. unfold s2. destruct (Z.eqb_spec r 0) as [-> |]; done. }
  exists r, (took w (r, s2)).2, (if live w key then M else delete key M). cbn [exec]. rewrite Et. 
  assert (wstore (took w (r, s2)).2 = s2) as Hs2 by (unfold took; cbn [fst snd]; by case_if).
  split_and!; try done.
  - cbn [outcome]. split; [done|]. intros Hr0. rewrite Hs2. unfold s2. rewrite (proj2 (Z.eqb_neq r 0)) by done.
    destruct (Hsome Hr0) as [it Hit]. unfold item_at, upd_item, get. cbn [mem with_mem]. by rewrite lookup_alter_eq, Hit.
  - intros k. cbn [new_stored]. by apply (new_map_get w _ M (if live w key then M else delete key M)).
  - apply stable_pays. rewrite Hs2. eapply spays_touch; [exact Et|apply pays_refl].
Qed.

Lemma good_OpRelease x w M : winv w M -> allowed (OpRelease x) w -> good (OpRelease x) w.
Proof.
  intros Hi [_ Hx]. pose proof Hi as [Hh (Q & F & U & Hw)]. pose proof (held_refs w M x Hi Hx) as HR.
  destruct (held_used _ _ _ _ _ _ Hw HR) as [c Hc].
  destruct (wf_remove set hash nchunks Hpage _ M Q F U _ c x Hw Hc HR) as (F' & U' & Hw' & _).
  assert (winv (drop_ref x (do_item_remove nchunks x (wstore w)) w) M) as Hi'.
  { split.
    - intros y. cbn [drop_ref held]. specialize (Hh y). unfold set_ref. case_decide; subst; lia.
    - exists Q, F', U'. eapply wf_R; [|exact Hw']. intros y. unfold refs. cbn [drop_ref wstore held]. rewrite bumps_remove.
      unfold set_ref. case_decide; subst; lia. }
  eexists _, _, M. cbn [exec]. split_and!; try done.
  - intros k. by apply (same_map w _ M).
  - apply stable_pays. apply spays_remove, pays_refl.
  - intros y. unfold refs. cbn [drop_ref wstore held]. rewrite bumps_remove. unfold set_ref. case_decide; subst; lia.
Qed.

Lemma good_same o w M s' Q F U : winv w M -> exec o w = Some (0, keep s' w) -> wf set hash s' M Q F U (refs w) ->
  bumps s' = bumps (wstore w) -> stable o w (keep s' w) -> outcome o w 0 (keep s' w) ->
  (forall w' k, stored w' k = stored w k -> new_stored o w w' k) -> good o w.
Proof.
  intros Hi E Hw Hb Hst Hout Hns. pose proof (winv_keep w M s' M Q F U Hi Hw Hb) as Hi'.
  exists 0, (keep s' w), M. split_and!; try done; [|by apply refs_keep]. intros k. by apply Hns, (same_map w _ M).
Qed.

Lemma bumps_update x s : bumps (do_item_update set x s) = bumps s.
Proof.
  unfold do_item_update, item_link_q_warm, item_link_q, item_unlink_q.
  repeat (case_if || destruct (do_item_unlink_q _ _ _) || destruct (do_item_link_q _ _ _)); done.
Qed.

Lemma good_OpUpdate x w M : winv w M -> allowed (OpUpdate x) w -> good (OpUpdate x) w.
Proof.
  intros Hi [_ Hx]. pose proof Hi as [Hh (Q & F & U & Hw)].
  destruct (held_used _ _ _ _ _ _ Hw (held_refs w M x Hi Hx)) as [c Hc].
  destruct (wf_item_update set hash Hpage _ M Q F U _ c x Hw Hc) as [Q' Hw'].
  apply (good_same _ w M (do_item_update set x (wstore w)) Q' F U); try done; [apply bumps_update|].
  apply stable_pays, spays_update, pays_refl.
Qed.

Lemma good_OpBump room x w M : winv w M -> allowed (OpBump room x) w -> good (OpBump room x) w.
Proof.
  intros Hi (Hfew & Hx & Hroom). pose proof Hi as [Hh (Q & F & U & Hw)].
  destruct (held_used _ _ _ _ _ _ Hw (held_refs w M x Hi Hx)) as [c Hc].
  destruct (wf_bump set hash Hpage _ M Q F U _ room c x (key_hash (wstore w) x) Hw Hc) as (Q' & d & Hw' & Hb); [specialize (Hfew x); lia|].
  set (s' := do_item_bump set room x (key_hash (wstore w) x) (wstore w)) in *.
  assert (forall y, refs (keep s' w) y = set_ref (refs w) x (refs w x + d) y) as Hrefs.
  { intros y. unfold refs at 1. cbn [keep wstore held].
    destruct Hb as [[-> ->]|(b & -> & -> & ->)]; [|rewrite bump_refs_push by done]; unfold set_ref, refs; case_decide; subst; lia. }
  assert (winv (keep s' w) M) as Hi' by (split; [exact Hh|]; exists Q', F, U; by eapply wf_R).
  exists 0, (keep s' w), M. split_and!; try done.
  - intros k. by apply (same_map w _ M).
  - apply stable_pays. cbn [keep wstore]. unfold s'. apply spays_bump_at; [apply now_any|apply pays_refl].
  - intros y. rewrite Hrefs. unfold set_ref. destruct Hb as [[-> _]|(b & -> & _)]; case_decide; subst; lia.
Qed.

Lemma good_OpWrite x v w M : winv w M -> allowed (OpWrite x v) w -> good (OpWrite x v) w.
Proof.
  intros Hi [_ [Hx Hl]]. pose proof Hi as [Hh (Q & F & U & Hw)].
  destruct (held_used _ _ _ _ _ _ Hw (held_refs w M x Hi Hx)) as [c Hc].
  apply (good_same _ w M (upd_item (set_data v) x (wstore w)) Q F U); try done.
  - apply (wf_upd set hash Hpage _ M Q F U _ c); try done. 
  - intros y it _ Hy Hit. cbn [writes] in Hy. apply Z.eqb_neq in Hy. exists it. cbn [keep wstore]. unfold upd_item. cbn [mem with_mem].
    by rewrite lookup_alter_ne.
Qed.

Lemma bumps_sizes d x s : bumps (sizes_change set d x s) = bumps s.
Proof. unfold sizes_change. destruct (sizes_hist s); [by repeat case_if|done]. Qed.
(** A rewrite is a store to the item, next to changes the invariant does not see. *)
Lemma wf_rewrite x v s M Q F U R c : wf set hash s M Q F U R -> x ∈ U c ->
  wf set hash (rewrite_item x v s) M Q F U R /\ bumps (rewrite_item x v s) = bumps s /\
  forall y, y <> x -> mem (rewrite_item x v s) !! y = mem s !! y.
Proof.
  intros Hw Hx. unfold rewrite_item. destruct (if _ && use_cas set then _ else _) as [cas s1] eqn:E.
  assert (wf set hash s1 M Q F U R /\ bumps s1 = bumps s /\ mem s1 = mem s) as (Hw1 & Hb1 & Hm1).
  { assert (wf set hash (item_stats_sizes_remove set x s) M Q F U R /\ bumps (item_stats_sizes_remove set x s) = bumps s
      /\ mem (item_stats_sizes_remove set x s) = mem s) as (? & ? & ?).
    { split_and!; [by apply wf_sizes|apply bumps_sizes|]. unfold item_stats_sizes_remove, sizes_change. destruct (sizes_hist s); [|done].
      by repeat case_if. }
    destruct (_ && use_cas set); injection E as <- <-; split_and!; try done. by apply (wf_ext set hash (item_stats_sizes_remove set x s)). }
  pose proof (wf_upd set hash Hpage _ M Q F U _ c x _ Hw1 Hx (keeps_set_cas cas)) as Hw2.
  pose proof (wf_sizes set hash _ M Q F U R 1 x Hw2) as Hw3. split_and!.
  - apply (wf_upd set hash Hpage _ M Q F U _ c x _ Hw3 Hx). done.
  - cbn [upd_item bumps with_mem]. unfold item_stats_sizes_add. rewrite bumps_sizes. done.
  - intros y Hy. unfold upd_item. cbn [mem with_mem]. rewrite lookup_alter_ne by done.
    assert (forall d s, mem (sizes_change set d x s) = mem s) as Hs.
    { intros d s0. unfold sizes_change. destruct (sizes_hist s0); [|done]. by repeat case_if. }
    unfold item_stats_sizes_add. rewrite Hs. cbn [mem with_mem]. by rewrite lookup_alter_ne, Hm1.
Qed.

Lemma good_OpRewrite x v w M : winv w M -> allowed (OpRewrite x v) w -> good (OpRewrite x v) w.
Proof.
  intros Hi [_ [Hx _]]. pose proof Hi as [Hh (Q & F & U & Hw)].
  destruct (held_used _ _ _ _ _ _ Hw (held_refs w M x Hi Hx)) as [c Hc].
  destruct (wf_rewrite x v _ M Q F U _ c Hw Hc) as (Hw' & Hb & Hm).
  apply (good_same _ w M (rewrite_item x v (wstore w)) Q F U); try done.
  intros y it _ Hy Hit. cbn [writes] in Hy. apply Z.eqb_neq in Hy. exists it. cbn [keep wstore]. by rewrite Hm.
Qed.

Lemma good_OpHeader x f w M : winv w M -> allowed (OpHeader x f) w -> good (OpHeader x f) w.
Proof.
  intros Hi [_ (Hx & Hk & Hp)]. pose proof Hi as [Hh (Q & F & U & Hw)].
  destruct (held_used _ _ _ _ _ _ Hw (held_refs w M x Hi Hx)) as [c Hc].
  apply (good_same _ w M (upd_item f x (wstore w)) Q F U); try done.
  - by apply (wf_upd set hash Hpage _ M Q F U _ c).
  - apply stable_pays, (spays_upd f); [done|apply pays_refl].
Qed.

Lemma bumps_link x hv s : bumps (do_item_link set x hv s) = bumps s.
Proof.
  unfold do_item_link. destruct (if _ && use_cas set then _ else _) as [cas s1] eqn:E.
  assert (bumps s1 = bumps s) as H1 by (by destruct (_ && use_cas set); injection E as <- <-).
  destruct (assoc_insert _ _ _ _) as [h t]. unfold item_stats_sizes_add. rewrite bumps_sizes.
  change (bumps (item_link_q x (with_table h t (upd_item (ITEM_set_cas cas) x s1))) = bumps s). by rewrite bumps_link_q.
Qed.

Lemma good_OpLink x w M : winv w M -> allowed (OpLink x) w -> good (OpLink x) w.
Proof.
  intros Hi [Hfew [Hx [Hl Hk]]]. pose proof Hi as [Hh (Q & F & U & Hw)]. pose proof (held_refs w M x Hi Hx) as HR.
  destruct (held_used _ _ _ _ _ _ Hw HR) as [c Hc]. destruct (linked_iff w M Q F U x Hw HR) as [Hlk _].
  assert (~ linked M x) as Hnl by (rewrite <- Hlk; congruence).
  assert (M !! key_of w x = None) as HMk.
  { rewrite (winv_stored w M _ Hi) in Hk. destruct (M !! key_of w x) as [y|] eqn:E; [|done]. cbn in Hk. subst y.
    destruct (w_linked _ _ _ _ _ _ _ _ Hw 0 ltac:(by eexists)) as [c0 Hc0]. by destruct (used_nonzero set hash Hpage _ _ _ _ _ _ _ _ Hw Hc0). }
  pose proof (wf_link set hash Hpage _ M Q F U _ c x Hw Hc Hnl HMk ltac:(specialize (Hfew x); lia)) as Hw'.
  pose proof (winv_keep w M _ _ _ _ _ Hi Hw' (bumps_link x _ _)) as Hi'.
  eexists _, _, _. cbn [exec]. unfold key_hash. split_and!; [done|exact Hi'|done| | |by apply refs_keep; try (apply bumps_link || by eapply bumps_unlink)].
  - intros k. cbn [new_stored]. rewrite (winv_stored _ _ k Hi'), (winv_stored w M k Hi). case_decide as Hkk; [subst k|].
    + unfold key_of. by rewrite lookup_insert_eq.
    + rewrite lookup_insert_ne; [done|]. intros E. by apply Hkk.
  - apply stable_pays, spays_link, pays_refl.
Qed.

Lemma good_OpUnlink x w M : winv w M -> allowed (OpUnlink x) w -> good (OpUnlink x) w.
Proof.
  intros Hi [_ Hx]. pose proof Hi as [Hh (Q & F & U & Hw)]. pose proof (held_refs w M x Hi Hx) as HR.
  destruct (linked_iff w M Q F U x Hw HR) as [Hlk Hkey]. destruct (is_linked w x) eqn:El.
  - specialize (Hkey (proj1 Hlk eq_refl)).
    destruct (wf_unlink set hash nchunks Hpage _ M Q F U _ _ x Hw Hkey) as (s' & Q' & F' & U' & E & Hw' & _).
    pose proof (winv_keep w M _ _ _ _ _ Hi Hw' (bumps_unlink set nchunks _ _ _ _ E)) as Hi'.
    eexists _, _, _. cbn [exec]. unfold key_hash. change (ikey (item_at (wstore w) x)) with (key_of w x). rewrite E.
    split_and!; [done|exact Hi'|done| | |by apply refs_keep; try (apply bumps_link || by eapply bumps_unlink)].
    + intros k. cbn [new_stored]. rewrite El, (winv_stored _ _ k Hi'), (winv_stored w M k Hi). cbn [andb].
      case_bool_decide as Hk; [subst k; by rewrite lookup_delete_eq|by rewrite lookup_delete_ne].
    + apply stable_pays. eapply spays_unlink; [exact E|apply pays_refl].
  - apply (good_same _ w M (wstore w) Q F U); try done.
    + cbn [exec]. unfold do_item_unlink. unfold is_linked in El. by rewrite El.
    + apply stable_pays, pays_refl.
    + intros w' k. cbn [new_stored]. by rewrite El.
Qed.

Lemma good_OpReplace x y w M : winv w M -> allowed (OpReplace x y) w -> good (OpReplace x y) w.
Proof.
  intros Hi [Hfew (Hx & Hlx & Hy & Hly & Hk)]. pose proof Hi as [Hh (Q & F & U & Hw)].
  pose proof (held_refs w M x Hi Hx) as HRx. pose proof (held_refs w M y Hi Hy) as HRy.
  destruct (linked_iff w M Q F U x Hw HRx) as [Hlkx Hkx]. specialize (Hkx (proj1 Hlkx Hlx)).
  destruct (linked_iff w M Q F U y Hw HRy) as [Hlky _].
  destruct (held_used _ _ _ _ _ _ Hw HRy) as [c Hc].
  destruct (wf_unlink set hash nchunks Hpage _ M Q F U _ _ x Hw Hkx) as (s1 & Q1 & F1 & U1 & E1 & Hw1 & _ & HU & _).
  pose proof (spays_unlink (R := pays_item) set nchunks _ _ (mem (wstore w)) _ _ E1 (pays_refl _)) as Hp1.
  assert (y <> x) as Hyx by congruence.
  assert (y ∈ U1 c) as Hc1 by (apply HU; [done|by left]).
  assert (ikey (item_at s1 y) = key_of w x) as Hk1.
  { destruct (item_at_used set hash Hpage _ _ _ _ _ _ _ _ Hw Hc) as (it & Hit & Hat & _). destruct (Hp1 y it Hit) as (it' & Hit' & Hpay).
    unfold item_at, get. rewrite Hit'. cbn. rewrite <- Hk. unfold key_of. rewrite Hat. by injection Hpay. }
  assert (~ linked (delete (key_of w x) M) y) as Hnl.
  { rewrite (linked_delete set hash _ _ _ _ _ _ _ _ _ Hw Hkx). intros [Hl _]. apply Hlky in Hl. congruence. }
  pose proof (wf_link set hash Hpage s1 _ Q1 F1 U1 _ c y Hw1 Hc1 Hnl) as Hw2. rewrite Hk1 in Hw2.
  specialize (Hw2 (lookup_delete_eq _ _) ltac:(specialize (Hfew y); lia)). rewrite insert_delete_eq in Hw2.
  assert (do_item_replace set nchunks x y (key_hash (wstore w) x) (wstore w) = Some (do_item_link set y (hash (key_of w x)) s1)) as E.
  { unfold do_item_replace, key_hash. change (ikey (item_at (wstore w) x)) with (key_of w x). by rewrite E1. }
  assert (bumps (do_item_link set y (hash (key_of w x)) s1) = bumps (wstore w)) as Hb.
  { rewrite bumps_link. by eapply bumps_unlink. }
  pose proof (winv_keep w M _ _ _ _ _ Hi Hw2 Hb) as Hi'.
  eexists _, _, _. cbn [exec]. rewrite E. split_and!; [done|exact Hi'|done| | |by apply refs_keep; try (apply bumps_link || by eapply bumps_unlink)].
  - intros k. cbn [new_stored]. rewrite (winv_stored _ _ k Hi'), (winv_stored w M k Hi).
    case_decide; [subst k; by rewrite lookup_insert_eq|by rewrite lookup_insert_ne].
  - apply stable_pays. cbn [keep wstore]. by apply spays_link.
Qed.

Lemma good_OpAlloc es tl lk key fl e nb w M : winv w M -> allowed (OpAlloc es tl lk key fl e nb) w -> good (OpAlloc es tl lk key fl e nb) w.
Proof.
  intros Hi [Hfew [Hes Hsz]]. pose proof Hi as [Hh (Q & F & U & Hw)].
  destruct (wf_item_alloc set hash nchunks Hpage Hrepair es tl lk key fl e nb _ M Q F U _ Hw Hfew Hes Hsz)
    as (it & s' & M' & Q' & F' & U' & E & HM & Hb & Hp & Ho).
  destruct Ho as [[-> Hw']|(Hit & HR & Hnl & Hw' & Hk & He & Hnb & Hfc & Hch)].
  - pose proof (winv_keep w M _ _ _ _ _ Hi Hw' Hb) as Hi'. eexists _, _, _. cbn [exec]. rewrite E.
    split_and!; [done|exact Hi'|by left| |by eapply stable_held|by apply refs_keep]. intros k. cbn [new_stored]. by apply (smaller_map _ w _ M M').
  - assert (winv (take_ref it s' w) M') as Hi'.
    { split.
      - intros y. cbn [take_ref held]. specialize (Hh y). unfold set_ref. case_decide; subst; lia.
      - exists Q', F', U'. eapply wf_R; [|exact Hw']. intros y. unfold refs. cbn [take_ref wstore held]. rewrite Hb. unfold refs in HR.
        unfold set_ref. case_decide; subst; [lia|done]. }
    exists it, (take_ref it s' w), M'. cbn [exec]. rewrite E. cbn [fmap option_fmap option_map]. unfold took. cbn [fst snd].
    rewrite (proj2 (Z.eqb_neq it 0)) by lia. split_and!; [done|done| | |by eapply stable_held|].
    + cbn [outcome]. right. split_and!; try done. intros k Hs. rewrite (winv_stored _ _ k Hi') in Hs.
      destruct (M' !! k) as [z|] eqn:Ez; cbn in Hs; [|lia]. subst z. apply Hnl. by exists k.
    + intros k. cbn [new_stored]. by apply (smaller_map _ w _ M M').
    + intros y. unfold refs. cbn [take_ref wstore held]. rewrite Hb. unfold set_ref. case_decide; subst; lia.
Qed.

Lemma class_lru clsid l : 0 <= clsid < 64 -> l ∈ lru_ids -> 0 <= Z.lor clsid l < 256.
Proof. intros Hc Hl. destruct (class_byte clsid l ltac:(lia) Hl) as [_ Hb]. by rewrite small_class in Hb. Qed.

Lemma good_OpPull tl lk clsid l tot fl age w M : winv w M -> allowed (OpPull tl lk clsid l tot fl age) w -> good (OpPull tl lk clsid l tot fl age) w.
Proof.
  intros Hi [Hfew (Hcl & Hl & Hfl)]. pose proof Hi as [Hh (Q & F & U & Hw)].
  destruct (wf_pull_tail set hash nchunks Hpage Hrepair tl lk clsid l tot fl age _ M Q F U _ Hw Hfew Hfl (class_lru _ _ Hcl Hl))
    as (n & ret & s' & M' & Q' & F' & U' & E & Hw' & HM & Hb).
  pose proof (winv_keep w M _ _ _ _ _ Hi Hw' Hb) as Hi'. eexists _, _, _. cbn [exec]. rewrite E.
  split_and!; [done|exact Hi'|done| | |by apply refs_keep; try (apply bumps_link || by eapply bumps_unlink)].
  - intros k. cbn [new_stored]. by apply (smaller_map _ w _ M M').
  - apply stable_pays. eapply spays_pull_tail; [exact E|apply pays_refl].
Qed.

(** Passes over the tails: the map only loses items. *)
Definition shrinks (tl : Z -> bool) (s : server) (M : gmap (list Z) Z) (R : Z -> Z) (s' : server) : Prop := exists M' Q' F' U',
  wf set hash s' M' Q' F' U' R /\ evicts hash tl M M' /\ bumps s' = bumps s.
Lemma shrinks_trans tl s M R s1 s2 M1 Q1 F1 U1 : wf set hash s1 M1 Q1 F1 U1 R -> evicts hash tl M M1 -> bumps s1 = bumps s ->
  shrinks tl s1 M1 R s2 -> shrinks tl s M R s2.
Proof.
  intros _ HM Hb (M' & Q' & F' & U' & Hw' & HM' & Hb'). exists M', Q', F', U'. split_and!; [done|by eapply evicts_trans|congruence].
Qed.

Section juggle.
Context (tl : Z -> bool) (lk : bool) (clsid : Z) (Hcl : 0 <= clsid < 64) (R : Z -> Z) (Hfew : forall x, R x + 3 < 2 ^ 16).

Lemma wf_pull cur tot fl age s M Q F U : wf set hash s M Q F U R -> cur ∈ lru_ids -> Z.land fl LRU_PULL_RETURN_ITEM = 0 ->
  exists r s' M' Q' F' U', pull set hash nchunks tl lk clsid cur tot fl age s = Some (r, s') /\ wf set hash s' M' Q' F' U' R /\ evicts hash tl M M' /\ bumps s' = bumps s.
Proof.
  intros Hw Hl Hfl. destruct (wf_pull_tail set hash nchunks Hpage Hrepair tl lk clsid cur tot fl age s M Q F U R Hw Hfew Hfl (class_lru _ _ Hcl Hl))
    as (n & ret & s' & M' & Q' & F' & U' & E & H).
  unfold pull. rewrite E. by exists n, s', M', Q', F', U'.
Qed.

Lemma wf_temp_loop n : forall m s M Q F U, wf set hash s M Q F U R ->
  exists r s', temp_loop set hash nchunks tl lk clsid n m s = Some (r, s') /\ shrinks tl s M R s'.
Proof.
  induction n as [|n IH]; intros m s M Q F U Hw; cbn [temp_loop]; [exists m, s; split; [done|by exists M, Q, F, U]|].
  destruct (wf_pull TEMP_LRU 0 0 0 s M Q F U Hw) as (r & s1 & M1 & Q1 & F1 & U1 & -> & Hw1 & HM & Hb); [unfold lru_ids; set_solver|done|].
  destruct (r <=? 0); [exists m, s1; split; [done|by exists M1, Q1, F1, U1]|].
  destruct (IH (m + 1) s1 M1 Q1 F1 U1 Hw1) as (r' & s2 & E & Hs). exists r', s2. split; [done|]. by eapply shrinks_trans.
Qed.

Lemma wf_juggle_loop tot ha wa n : forall m s M Q F U, wf set hash s M Q F U R ->
  exists r s', juggle_loop set hash nchunks tl lk clsid tot ha wa n m s = Some (r, s') /\ shrinks tl s M R s'.
Proof.
  induction n as [|n IH]; intros m s M Q F U Hw; cbn [juggle_loop]; [exists m, s; split; [done|by exists M, Q, F, U]|].
  destruct (wf_pull HOT_LRU tot LRU_PULL_CRAWL_BLOCKS ha s M Q F U Hw) as (r & s1 & M1 & Q1 & F1 & U1 & -> & Hw1 & HM1 & Hb1);
    [unfold lru_ids; set_solver|done|].
  assert (exists r2 s2 M2 Q2 F2 U2, (if r =? 0 then pull set hash nchunks tl lk clsid WARM_LRU tot LRU_PULL_CRAWL_BLOCKS wa s1 else Some (r, s1))
    = Some (r2, s2) /\ wf set hash s2 M2 Q2 F2 U2 R /\ evicts hash tl M1 M2 /\ bumps s2 = bumps s1) as (r2 & s2 & M2 & Q2 & F2 & U2 & -> & Hw2 & HM2 & Hb2).
  { case_if; [apply (wf_pull WARM_LRU tot LRU_PULL_CRAWL_BLOCKS wa s1 M1 Q1 F1 U1 Hw1); [unfold lru_ids; set_solver|done]|].
    by exists r, s1, M1, Q1, F1, U1. }
  assert (exists r3 s3 M3 Q3 F3 U3, (if lru_segmented set then pull set hash nchunks tl lk clsid COLD_LRU tot LRU_PULL_CRAWL_BLOCKS 0 s2 else Some (0, s2))
    = Some (r3, s3) /\ wf set hash s3 M3 Q3 F3 U3 R /\ evicts hash tl M2 M3 /\ bumps s3 = bumps s2) as (r3 & s3 & M3 & Q3 & F3 & U3 & -> & Hw3 & HM3 & Hb3).
  { case_if; [apply (wf_pull COLD_LRU tot LRU_PULL_CRAWL_BLOCKS 0 s2 M2 Q2 F2 U2 Hw2); [unfold lru_ids; set_solver|done]|].
    by exists 0, s2, M2, Q2, F2, U2. }
  cbn zeta. assert (evicts hash tl M M3 /\ bumps s3 = bumps s) as [HM Hb] by (split; [by eapply evicts_trans; [|eapply evicts_trans]|congruence]).
  match goal with |- context [if ?b then Some (m, s3) else _] => destruct b end; [exists m, s3; split; [done|by exists M3, Q3, F3, U3]|].
  destruct (IH (m + 1) s3 M3 Q3 F3 U3 Hw3) as (r' & s4 & E & Hs). exists r', s4. split; [done|]. by eapply shrinks_trans.
Qed.

Lemma wf_juggle s M Q F U : wf set hash s M Q F U R ->
  exists r s', lru_maintainer_juggle set hash nchunks tl lk clsid s = Some (r, s') /\ shrinks tl s M R s'.
Proof.
  intros Hw. unfold lru_maintainer_juggle.
  assert (exists m s1, (if temp_lru set then temp_loop set hash nchunks tl lk clsid 500 0 s else Some (0, s)) = Some (m, s1) /\ shrinks tl s M R s1)
    as (m & s1 & -> & M1 & Q1 & F1 & U1 & Hw1 & HM1 & Hb1).
  { case_if; [by apply (wf_temp_loop 500 0 s M Q F U)|]. exists 0, s. split; [done|]. by exists M, Q, F, U. }
  cbv zeta. match goal with |- context [juggle_loop _ _ _ _ _ _ ?t ?a ?b 500 ?m ?s] =>
    destruct (wf_juggle_loop t a b 500 m s M1 Q1 F1 U1 Hw1) as (r & s2 & E & Hs) end.
  exists r, s2. split; [exact E|]. by eapply shrinks_trans.
Qed.
End juggle.

Lemma good_OpJuggle tl lk clsid w M : winv w M -> allowed (OpJuggle tl lk clsid) w -> good (OpJuggle tl lk clsid) w.
Proof.
  intros Hi [Hfew Hcl]. pose proof Hi as [Hh (Q & F & U & Hw)].
  destruct (wf_juggle tl lk clsid Hcl (refs w) Hfew _ M Q F U Hw) as (r & s' & E & M' & Q' & F' & U' & Hw' & HM & Hb).
  pose proof (winv_keep w M _ _ _ _ _ Hi Hw' Hb) as Hi'. eexists _, _, _. cbn [exec]. rewrite E.
  split_and!; [done|exact Hi'|done| | |by apply refs_keep; try (apply bumps_link || by eapply bumps_unlink)].
  - intros k. cbn [new_stored]. by apply (smaller_map _ w _ M M').
  - apply stable_pays. eapply spays_juggle; [exact E|apply pays_refl].
Qed.

(** The bump buffer is drained: every entry gives its reference back. *)
Lemma wf_bump_fold l : forall s M Q F U R, wf set hash s M Q F U R -> (forall x, bump_refs l x <= R x) ->
  exists Q' F' U', wf set hash (fold_left (fun s e => bump_one set nchunks e s) l s) M Q' F' U' (fun x => R x - bump_refs l x).
Proof.
  induction l as [|[x hv] l IH]; intros s M Q F U R Hw Hl; cbn [fold_left].
  { exists Q, F, U. eapply wf_R; [|exact Hw]. intros x. change (R x - 0 = R x). lia. }
  assert (0 < R x) as HR by (specialize (Hl x); rewrite bump_refs_cons, decide_True in Hl by done; unfold bump_refs in Hl; lia).
  destruct (w_refs _ _ _ _ _ _ _ _ Hw x ltac:(lia)) as [c Hc].
  destruct (wf_item_update set hash Hpage _ M Q F U _ c x Hw Hc) as [Q1 Hw1].
  destruct (wf_remove set hash nchunks Hpage _ M Q1 F U _ c x Hw1 Hc HR) as (F2 & U2 & Hw2 & _).
  destruct (IH _ M Q1 F2 U2 _ Hw2) as (Q' & F' & U' & Hw').
  { intros y. specialize (Hl y). rewrite bump_refs_cons in Hl. unfold set_ref. repeat case_decide; subst; lia. }
  exists Q', F', U'. eapply wf_R; [|exact Hw']. intros y. cbv beta. rewrite bump_refs_cons. unfold set_ref.
  repeat case_decide; subst; lia.
Qed.

Lemma bumps_fold l s : bumps (fold_left (fun s e => bump_one set nchunks e s) l s) = bumps s.
Proof.
  revert s. induction l as [|e l IH]; intros s; [done|]. cbn [fold_left]. rewrite IH. unfold bump_one. by rewrite bumps_remove, bumps_update.
Qed.

Lemma winv_bump_buffer b n w M : winv w M -> winv (keep (bump_buffer set nchunks b n (wstore w)) w) M.
Proof.
  intros [Hh (Q & F & U & Hw)]. set (l := take n (nth b (bumps (wstore w)) [])).
  destruct (wf_bump_fold l _ M Q F U _ Hw) as (Q' & F' & U' & Hw').
  { intros x. specialize (Hh x). unfold refs. pose proof (bump_refs_nth b (bumps (wstore w)) x) as Hn.
    rewrite <- (take_drop n (nth b (bumps (wstore w)) [])) in Hn. fold l in Hn. rewrite bump_refs_app in Hn.
    assert (0 <= bump_refs (drop n (nth b (bumps (wstore w)) [])) x) by (unfold bump_refs; lia). lia. }
  split; [exact Hh|]. exists Q', F', U'. eapply wf_R; [|apply wf_bumps; exact Hw']. intros x. unfold refs.
  cbn [keep wstore held bump_buffer bumps with_bumps]. fold l. rewrite bumps_fold, bump_refs_drop. fold l. lia.
Qed.

Lemma refs_bump_buffer b n w x : refs (keep (bump_buffer set nchunks b n (wstore w)) w) x <= refs w x.
Proof.
  unfold refs. cbn [keep wstore held bump_buffer bumps with_bumps]. rewrite bumps_fold, bump_refs_drop.
  pose proof (bump_refs_nonneg (take n (nth b (bumps (wstore w)) [])) x). lia.
Qed.

Lemma good_OpBumps ns w M : winv w M -> allowed (OpBumps ns) w -> good (OpBumps ns) w.
Proof.
  intros Hi _.
  assert (forall l w, winv w M -> let w' := keep (fold_left (fun s bn => bump_buffer set nchunks bn.1 bn.2 s) l (wstore w)) w in
    winv w' M /\ forall x, refs w' x <= refs w x) as Hl.
  { induction l as [|[b n] l IH]; intros v Hv; cbn [fold_left]; [by destruct v|].
    destruct (IH _ (winv_bump_buffer b n v M Hv)) as [IH1 IH2]. split; [exact IH1|]. intros x.
    etrans; [exact (IH2 x)|]. apply refs_bump_buffer. }
  destruct (Hl (imap pair ns) w Hi) as [Hi' Hr]. eexists _, _, M. cbn [exec]. split_and!; [done|exact Hi'|done| | |].
  - intros k. by apply (same_map w _ M).
  - apply stable_pays, spays_bumps, pays_refl.
  - intros x. etrans; [exact (Hr x)|lia].
Qed.

(** ** The table grows, and time passes *)

Lemma wf_table s h t M Q F U R : wf set hash s M Q F U R -> (exists C, rep hash h t C M) -> h_next_only (mem s) h ->
  (forall q, (forall k, M !! k <> Some q) -> h !! q = mem s !! q) -> wf set hash (with_table h t s) M Q F U R.
Proof.
  intros [_ Hl Hs Hq Hu Hlk HR Hc] Ht Ho Hk. split; try done.
  - apply (lru_rep_frame ∅ (mem s)); [done|]. intros id x it Hx Hit. pose proof (Ho x) as Hox. rewrite Hit in Hox. cbn in Hox.
    apply fmap_Some in Hox as (it' & Hit' & Heq). exists it'. split; [done|].
    assert (forall A (f : item -> A), (forall i, f (set_h_next 0 i) = f i) -> f it' = f it) as Hf.
    { intros A f Hf. transitivity (f (set_h_next 0 it')); [by rewrite Hf|]. rewrite <- (Hf it). f_equal. exact (eq_sym Heq). }
    split_and!; by apply Hf.
  - apply (sinv_heap set (slab s) (mem s)); [done|]. intros c x Hx. apply Hk. intros k Hkx. destruct (Hlk x ltac:(by exists k)) as [i Hi].
    assert (x ∈ F c ++ U c) as Hin by set_solver.
    assert (i = c) as -> by (apply (chunk_one_class _ Hpage [] _ _ F U i c x Hs); set_solver).
    pose proof (NoDup_class _ Hpage _ _ _ _ _ c Hs (chunk_class _ _ _ _ _ _ _ _ Hs Hin)) as (_ & Hd & _)%NoDup_app. by apply (Hd x).
  - intros c x Hx. apply (used_ok_meta (mem s) _ M M R); [by apply h_next_only_meta|done|done|by apply Hu].
Qed.

Lemma good_OpExpand n w M : winv w M -> allowed (OpExpand n) w -> good (OpExpand n) w.
Proof.
  intros Hi _. pose proof Hi as [Hh (Q & F & U & Hw)].
  apply (good_same _ w M (with_table (mem (wstore w)) (assoc_start_expand (table (wstore w)) n) (wstore w)) Q F U); try done.
  - apply wf_table; [done| |apply h_next_only_refl|done].
    destruct (w_table _ _ _ _ _ _ _ _ Hw) as [C Ht]. exists C. by apply rep_start_expand.
  - apply stable_pays, pays_refl.
Qed.

Lemma good_OpMaintain locks wake w M : winv w M -> allowed (OpMaintain locks wake) w -> good (OpMaintain locks wake) w.
Proof.
  intros Hi [_ Hwk]. pose proof Hi as [Hh (Q & F & U & Hw)]. destruct (w_table _ _ _ _ _ _ _ _ Hw) as [C Ht].
  pose proof (rep_maintenance hash locks wake _ _ C M Ht Hwk) as Hm.
  pose proof (pays_maintenance (R := pays_item) hash locks wake _ _ (table (wstore w)) (pays_refl (mem (wstore w)))) as Hp.
  destruct (maintenance_round hash locks wake (mem (wstore w)) (table (wstore w))) as [h t] eqn:E.
  apply (good_same _ w M (with_table h t (wstore w)) Q F U); try done.
  - cbn [exec]. by rewrite E.
  - destruct Hm as (Hr & Ho & Hk). by apply wf_table.
  - by apply stable_pays.
Qed.

Lemma good_OpTick t w M : winv w M -> allowed (OpTick t) w -> good (OpTick t) w.
Proof.
  intros Hi _. pose proof Hi as [Hh (Q & F & U & Hw)].
  apply (good_same _ w M (with_time t (wstore w)) Q F U); try done; [by apply (wf_ext set hash (wstore w))|].
  apply stable_pays, pays_refl.
Qed.

Lemma step_good o w M : winv w M -> allowed o w -> good o w.
Proof.
  intros Hi Ha. destruct o; eauto using good_OpGet, good_OpTouch, good_OpRelease, good_OpUpdate, good_OpBump, good_OpWrite, good_OpRewrite, good_OpHeader, good_OpLink,
    good_OpUnlink, good_OpReplace, good_OpAlloc, good_OpPull, good_OpJuggle, good_OpBumps, good_OpExpand, good_OpMaintain, good_OpTick.
Qed.

(** ** Histories *)

(** The server after [assoc_init] and [slabs_init]: nothing is stored, nobody holds anything. *)
Definition start (t : assoc) (sl : slabs_t) (threads : nat) (now : Z) : world :=
  {| wstore := {| mem := ∅; table := t; lrus := lru_init; slab := sl; schunks := ∅; cas_id := 0; curr_items := 0; curr_bytes := 0;
                  total_items := 0; istats := fun _ _ => 0; sizes_hist := None; sizes_cas_min := 0; bumps := replicate threads []; dropped := 0;
                  rebalance := {| s_clsid := 0; d_clsid := 0; signal := 0; pick_cur := 0 |}; current_time := now |};
     held := fun _ => 0 |}.

Inductive history : world -> Prop :=
| history_start n t sl threads now : assoc_init n true = Some t -> 0 <= n <= 31 -> fresh_table (slab_set set) sl = true -> history (start t sl threads now)
| history_step o w r w' : history w -> allowed o w -> exec o w = Some (r, w') -> history w'.

Lemma start_inv n t sl threads now : assoc_init n true = Some t -> 0 <= n <= 31 -> fresh_table (slab_set set) sl = true -> winv (start t sl threads now) ∅.
Proof.
  intros Ht Hn Hf. split; [done|]. exists (fun _ => []), (fun _ => []), (fun _ => []).
  assert (forall x, refs (start t sl threads now) x = 0) as Href.
  { intros x. unfold refs. cbn [start held wstore bumps]. induction threads as [|m IH]; [done|exact IH]. }
  assert (forall A (x : A), x ∈ (fun _ : Z => @nil A) 0 -> False) as Hno by (intros A x []%not_elem_of_nil).
  split; cbn [start wstore mem table lrus slab curr_items].
  - exists (fun _ => []). by eapply rep_init.
  - apply lru_init_rep.
  - by apply fresh_sinv.
  - intros x. split; [by intros [k Hk]|by intros [i Hi%Hno]].
  - by intros c x Hx%Hno.
  - by intros x [k Hk].
  - intros x Hx. by rewrite Href in Hx.
  - done.
Qed.

Lemma history_inv w : history w -> exists M, winv w M.
Proof.
  induction 1 as [n t sl threads now Ht Hn Hf|o w r w' _ [M Hi] Ha E]; [exists ∅; by eapply start_inv|].
  destruct (step_good o w M Hi Ha) as (r' & w2 & M' & E' & Hi' & _). rewrite E in E'. injection E' as <- <-. by exists M'.
Qed.

(** The references, the LINKED flag and the key of an item in use. *)
Lemma item_facts w x : history w -> x <> 0 -> 0 < refs w x \/ (exists k, stored w k = x) ->
  refcount (item_at (wstore w) x) = refs w x + (if is_linked w x then 1 else 0) /\
  0 < refcount (item_at (wstore w) x) /\ has_flag ITEM_SLABBED (item_at (wstore w) x) = false /\
  (forall k, stored w k = x <-> is_linked w x = true /\ k = key_of w x).
Proof.
  intros Hw Hx0 Hx. destruct (history_inv w Hw) as [M Hi]. pose proof Hi as [_ (Q & F & U & Hwf)].
  assert (forall k, stored w k = x <-> M !! k = Some x) as Hst.
  { intros k. rewrite (winv_stored w M k Hi). destruct (M !! k); cbn; [|split; congruence]. unfold id. split; congruence. }
  assert (exists c, x ∈ U c) as [c Hc].
  { destruct Hx as [HR|[k Hk%Hst]]; [apply (w_refs _ _ _ _ _ _ _ _ Hwf); lia|apply (w_linked _ _ _ _ _ _ _ _ Hwf); by exists k]. }
  destruct (w_used _ _ _ _ _ _ _ _ Hwf c x Hc) as (it & Hit & _ & _ & _ & Hsl & HR & _ & Hl).
  assert (item_at (wstore w) x = it) as Hat by (unfold item_at; by apply get_Some). unfold is_linked, key_of. rewrite Hat.
  assert (forall k, stored w k = x <-> linked M x /\ k = ikey it) as Hkey.
  { intros k. rewrite Hst. split.
    - intros Hk. split; [by exists k|]. destruct (w_key set hash _ _ _ _ _ _ _ _ Hwf Hk) as (it' & Hit' & <-). congruence.
    - intros [[k' Hk'] ->]. destruct (w_key set hash _ _ _ _ _ _ _ _ Hwf Hk') as (it' & Hit' & <-). congruence. }
  destruct Hl as [(Hlk & Hf & Hr)|(Hlk & Hf & Hr & Hp)]; rewrite Hf, Hr; (split_and!; [lia|lia|done|]); intros k; rewrite Hkey.
  - split; intros [? ?]; by split.
  - split; [by intros [? _]|by intros [? _]].
Qed.

(** One step of a history. *)
Lemma history_next o w : history w -> allowed o w -> exists r w', exec o w = Some (r, w') /\ history w' /\
  outcome o w r w' /\ (forall k, new_stored o w w' k) /\ stable o w w' /\ forall x, refs w' x <= refs w x + 2.
Proof.
  intros Hw Ha. destruct (history_inv w Hw) as [M Hi]. destruct (step_good o w M Hi Ha) as (r & w' & M' & E & _ & H).
  exists r, w'. split; [done|]. split; [by apply (history_step o w r)|done].
Qed.
Lemma history_held w x : history w -> 0 <= held w x.
Proof. intros Hw. destruct (history_inv w Hw) as [M [Hh _]]. apply Hh. Qed.
Lemma history_used w x : history w -> 0 < refs w x -> exists it, mem (wstore w) !! x = Some it /\ item_at (wstore w) x = it /\ x <> 0.
Proof.
  intros Hw Hx. destruct (history_inv w Hw) as [M [_ (Q & F & U & Hwf)]]. destruct (held_used _ _ _ _ _ _ Hwf Hx) as [c Hc].
  destruct (item_at_used set hash Hpage _ _ _ _ _ _ _ _ Hwf Hc) as (it & Hit & Hat & _). exists it. split_and!; try done.
  by eapply (used_nonzero set hash Hpage).
Qed.
End history.

(** C8: the item store refines a map from keys to items.  In every history, every
    operation the rules allow succeeds (the assertion in [assoc_delete] never fails) and
    has the effect on the map it should have: a fetch returns the item stored under the
    key if it has neither expired nor been flushed, and takes it out otherwise; a link,
    unlink or replacement changes exactly its key; an allocation returns null or an item
    nobody refers to with the key and size asked for; and eviction and the maintenance
    passes can only take keys out, and none whose lock is held. *)
Theorem item_ops_refine_map set hash (Hhash : KeyHash hash) nchunks (Hpage : 0 < slab_page_size (slab_set set) < 2 ^ 31)
    (Hrepair : tail_repair_time set = 0) w o :
  history set hash nchunks w -> allowed set hash o w ->
  exists r w', exec set hash nchunks o w = Some (r, w') /\
    outcome set hash o w r w' /\ forall k, new_stored set hash o w w' k.
Proof.
  intros Hw Ha. destruct (history_inv set hash nchunks Hpage Hrepair w Hw) as [M Hi].
  destruct (step_good set hash nchunks Hpage Hrepair o w M Hi Ha) as (r & w' & M' & E & _ & Ho & Hn & _). by exists r, w'.
Qed.

(** C9: the components agree.  In every history there are a map from keys to items, a list
    of items for every queue, and the free chunks and the chunks in use of every class,
    such that the hash table holds the map, the queues are the lists with the right
    counters, the free lists and pages of the slab allocator hold the chunks, an item is
    in the table exactly when it is in a queue, everything linked or referred to is a
    chunk in use, and [curr_items] is the number of keys ([wf]). *)
Theorem item_store_consistent set hash (Hhash : KeyHash hash) nchunks (Hpage : 0 < slab_page_size (slab_set set) < 2 ^ 31)
    (Hrepair : tail_repair_time set = 0) w :
  history set hash nchunks w ->
  exists M Q F U, wf set hash (wstore w) M Q F U (refs w) /\ forall k, stored hash w k = default 0 (M !! k).
Proof.
  intros Hw. destruct (history_inv set hash nchunks Hpage Hrepair w Hw) as [M Hi]. pose proof Hi as [_ (Q & F & U & Hwf)].
  exists M, Q, F, U. split; [done|]. intros k. by apply (winv_stored set).
Qed.

(** C11: reference counts are exact.  In every history, an item that is stored under a key
    or that somebody refers to (a user, or an entry of the bump buffer) is not free, its
    counter is the number of those references plus one when it is stored, it carries the
    LINKED flag exactly when it is stored, and it is stored under its own key only. *)
Theorem refcounts_exact set hash (Hhash : KeyHash hash) nchunks (Hpage : 0 < slab_page_size (slab_set set) < 2 ^ 31)
    (Hrepair : tail_repair_time set = 0) w x :
  history set hash nchunks w -> x <> 0 -> 0 < refs w x \/ (exists k, stored hash w k = x) ->
  refcount (item_at (wstore w) x) = refs w x + (if is_linked w x then 1 else 0) /\
  0 < refcount (item_at (wstore w) x) /\ has_flag ITEM_SLABBED (item_at (wstore w) x) = false /\
  (forall k, stored hash w k = x <-> is_linked w x = true /\ k = key_of w x).
Proof. by apply item_facts. Qed.

(** C10: what a user holds does not change under its hands.  In every history, no operation
    of anybody else (fetch, link, replacement, eviction, allocation, maintenance) changes
    the key, the size, the client flags or the value of an item that somebody refers to;
    only its owner's writes do, before it is linked or while nobody else refers to it. *)
Theorem held_items_stable set hash (Hhash : KeyHash hash) nchunks (Hpage : 0 < slab_page_size (slab_set set) < 2 ^ 31)
    (Hrepair : tail_repair_time set = 0) w o r w' x :
  history set hash nchunks w -> allowed set hash o w -> exec set hash nchunks o w = Some (r, w') ->
  0 < refs w x -> writes o x = false ->
  payload (item_at (wstore w') x) = payload (item_at (wstore w) x).
Proof.
  intros Hw Ha E HR Hwr. destruct (history_inv set hash nchunks Hpage Hrepair w Hw) as [M Hi]. pose proof Hi as [_ (Q & F & U & Hwf)].
  destruct (step_good set hash nchunks Hpage Hrepair o w M Hi Ha) as (r2 & w2 & M' & E2 & _ & _ & _ & Hs & _).
  rewrite E in E2. injection E2 as <- <-. destruct (w_refs _ _ _ _ _ _ _ _ Hwf x ltac:(lia)) as [c Hc].
  destruct (w_used _ _ _ _ _ _ _ _ Hwf c x Hc) as (it & Hit & _). destruct (Hs x it ltac:(lia) Hwr Hit) as (it' & Hit' & Hp).
  unfold item_at. by rewrite (get_Some _ _ _ Hit), (get_Some _ _ _ Hit').
Qed.

(** ** A history *)

Module HistoryExample.
(** An answer of the C library that suits every state: an address above all pages. *)
Definition fresh_env (sl : slabs_t) : env :=
  {| e_realloc := forallb (fun c => sc_slabs c <? 2 ^ 30) (slabclass sl);
     e_malloc := 8192 + foldr (fun r m => Z.max (r.1 + r.2) m) 0 (regions SlabExample.set sl) |}.

Lemma fresh_env_ok (sl : slabs_t) id : alloc_ok SlabExample.set (fresh_env sl) sl id.
Proof.
  split.
  - cbn [fresh_env e_realloc]. rewrite forallb_forall. intros Hall. unfold cls.
    destruct (nth_in_or_default (Z.to_nat id) (slabclass sl) zero_class) as [Hin| ->]; [|done]. specialize (Hall _ Hin). lia.
  - right. cbn [fresh_env e_malloc]. generalize (regions SlabExample.set sl) as l. intros l.
    assert (0 <= foldr (fun r m => Z.max (r.1 + r.2) m) 0 l) by (induction l; cbn; lia). split; [lia|].
    intros r Hr. right. cbn [fst snd]. clear H. induction l as [|a l IH]; [by apply not_elem_of_nil in Hr|].
    cbn [foldr]. apply elem_of_cons in Hr as [-> |Hr]; [lia|]. specialize (IH Hr). lia.
Qed.

Definition set : item_settings :=
  {| slab_set := SlabExample.set; use_cas := true; lru_segmented := true; temp_lru := false; temporary_ttl := 61; oldest_live := 0;
     oldest_cas := 0; tail_repair_time := 0; evict_to_free := true; slab_automove := 1; hot_lru_pct := 20; warm_lru_pct := 40;
     hot_max_factor := double 1; warm_max_factor := double 2 |}.
Abbreviation sum_hash := Witness.sum_hash.
Definition table0 : assoc := default (snd Witness.s0) (assoc_init 4 true).
Definition w0 : world := start table0 SlabExample.s0 4 100.
Abbreviation run o w := (default (0, w) (exec set sum_hash 0 o w)).
Definition alloc (key : list Z) : op := OpAlloc (fun _ sl => fresh_env sl) (fun _ => true) false key 0 0 5.

(** An item is stored under "A" and fetched; a new value replaces it while it is held. *)
Definition w1 := run (alloc [65]) w0.
Definition w2 := run (OpWrite w1.1 [120; 121; 122; 13; 10]) w1.2.
Definition w3 := run (OpLink w1.1) w2.2.
Definition w4 := run (OpRelease w1.1) w3.2.
Definition w5 := run (OpGet (Some 0%nat) [65] true) w4.2.
Definition w6 := run (alloc [65]) w5.2.
Definition w7 := run (OpReplace w1.1 w6.1) w6.2.

Lemma few w : (forall x, held w x <= 100) -> (length (concat (bumps (wstore w))) <= 100)%nat -> forall x, refs w x + 3 < 2 ^ 16.
Proof.
  intros Hh Hb x. specialize (Hh x). unfold refs, bump_refs.
  pose proof (length_filter (fun e : Z * Z => e.1 = x) (concat (bumps (wstore w)))). lia.
Qed.
Lemma held_run o w n : (forall x, held w x <= n) -> forall x, held (run o w).2 x <= n + 1.
Proof.
  intros Hn x. destruct (exec set sum_hash 0 o w) as [[r w']|] eqn:E; cbn [default]; [|cbn; specialize (Hn x); lia].
  assert (forall w' , w' = keep (wstore w') w \/ w' = take_ref r (wstore w') w \/ (exists y, w' = drop_ref y (wstore w') w) ->
    held w' x <= n + 1) as Hcase.
  { intros v [-> |[-> |[y ->]]]; cbn [keep take_ref drop_ref held]; unfold set_ref; pose proof (Hn x);
      [lia|case_decide; [subst; lia|lia]|case_decide; [subst; lia|lia]]. }
  cbn [id snd]. apply Hcase. destruct o; cbn [exec] in E;
    try (apply fmap_Some in E as ([? ?] & _ & E)); try (apply fmap_Some in E as (? & _ & E));
    unfold took in E; cbn [fst snd] in E; try (destruct (maintenance_round _ _ _ _ _));
    simplify_eq; try (case_if; [by left|by right; left]); first [by left|right; right; by eexists].
Qed.

Lemma next o w : history set sum_hash 0 w -> allowed set sum_hash o w -> history set sum_hash 0 (run o w).2.
Proof.
  intros Hw Ha. destruct (history_inv set sum_hash 0 SlabExample.page_ok eq_refl w Hw) as [M Hi].
  destruct (step_good set sum_hash 0 SlabExample.page_ok eq_refl o w M Hi Ha) as (r & w' & _ & E & _).
  rewrite E. by apply (history_step set sum_hash 0 o w r).
Qed.

Lemma h0 : history set sum_hash 0 w0.
Proof. apply (history_start set sum_hash 0 4); [vm_compute; reflexivity|lia|vm_compute; reflexivity]. Qed.
Lemma b0 x : held w0 x <= 0.
Proof. done. Qed.
Lemma b1 : forall x, held w1.2 x <= 1.
Proof. exact (held_run (alloc [65]) w0 0 b0). Qed.
Lemma b2 : forall x, held w2.2 x <= 2.
Proof. exact (held_run _ w1.2 1 b1). Qed.
Lemma b3 : forall x, held w3.2 x <= 3.
Proof. exact (held_run _ w2.2 2 b2). Qed.
Lemma b4 : forall x, held w4.2 x <= 4.
Proof. exact (held_run _ w3.2 3 b3). Qed.
Lemma b5 : forall x, held w5.2 x <= 5.
Proof. exact (held_run _ w4.2 4 b4). Qed.
Lemma b6 : forall x, held w6.2 x <= 6.
Proof. exact (held_run _ w5.2 5 b5). Qed.
Ltac small B := apply few; [let x := fresh in intros x; pose proof (B x); lia|vm_compute; lia].

Lemma alloc_allowed key w : (forall x, refs w x + 3 < 2 ^ 16) -> key = [65] -> allowed set sum_hash (alloc key) w.
Proof.
  intros Hf ->. split; [exact Hf|]. split; [intros i sl id; apply fresh_env_ok|vm_compute; discriminate].
Qed.
Lemma h1 : history set sum_hash 0 w1.2.
Proof. apply (next (alloc [65])); [exact h0|]. apply alloc_allowed; [small b0|done]. Qed.
Lemma h2 : history set sum_hash 0 w2.2.
Proof. apply (next (OpWrite w1.1 _)); [exact h1|]. split; [small b1|]. split; vm_compute; reflexivity. Qed.
Lemma h3 : history set sum_hash 0 w3.2.
Proof. apply (next (OpLink w1.1)); [exact h2|]. split; [small b2|]. split_and!; vm_compute; reflexivity. Qed.
Lemma h4 : history set sum_hash 0 w4.2.
Proof. apply (next (OpRelease w1.1)); [exact h3|]. split; [small b3|]. vm_compute; reflexivity. Qed.
Lemma a4 : allowed set sum_hash (OpGet (Some 0%nat) [65] true) w4.2.
Proof. split; [small b4|vm_compute; lia]. Qed.
Lemma h5 : history set sum_hash 0 w5.2.
Proof. exact (next (OpGet (Some 0%nat) [65] true) w4.2 h4 a4). Qed.
Lemma h6 : history set sum_hash 0 w6.2.
Proof. apply (next (alloc [65])); [exact h5|]. apply alloc_allowed; [small b5|done]. Qed.
Lemma a6 : allowed set sum_hash (OpReplace w1.1 w6.1) w6.2.
Proof. split; [small b6|]. split_and!; vm_compute; reflexivity. Qed.
Lemma h7 : history set sum_hash 0 w7.2.
Proof. exact (next (OpReplace w1.1 w6.1) w6.2 h6 a6). Qed.
End HistoryExample.

(** The fetch of "A" finds the item that was linked. *)
Lemma item_ops_refine_map_witness : exists w',
  exec HistoryExample.set Witness.sum_hash 0 (OpGet (Some 0%nat) [65] true) HistoryExample.w4.2 = Some (11776, w') /\
  stored Witness.sum_hash w' [65] = 11776.
Proof.
  destruct (item_ops_refine_map HistoryExample.set Witness.sum_hash Witness.sum_hash_range 0 SlabExample.page_ok eq_refl
    HistoryExample.w4.2 (OpGet (Some 0%nat) [65] true) HistoryExample.h4 HistoryExample.a4) as (r & w' & E & Ho & Hn).
  assert (r = 11776) as -> by (rewrite Ho; vm_compute; reflexivity).
  exists w'. split; [exact E|]. rewrite (Hn [65]). vm_compute. reflexivity.
Defined.

(** After the replacement: two chunks are in use and one key is stored. *)
Lemma item_store_consistent_witness : exists M Q F U,
  wf HistoryExample.set Witness.sum_hash (wstore HistoryExample.w7.2) M Q F U (refs HistoryExample.w7.2) /\
  default 0 (M !! [65]) = 11264.
Proof.
  destruct (item_store_consistent HistoryExample.set Witness.sum_hash Witness.sum_hash_range 0 SlabExample.page_ok eq_refl
    HistoryExample.w7.2 HistoryExample.h7) as (M & Q & F & U & Hw & Hs).
  exists M, Q, F, U. split; [exact Hw|]. rewrite <- Hs. vm_compute. reflexivity.
Defined.

(** The replaced item is still held once, by its reader; the new one by its writer and the table. *)
Lemma refcounts_exact_witness :
  refcount (item_at (wstore HistoryExample.w7.2) 11776) = 1 /\ refcount (item_at (wstore HistoryExample.w7.2) 11264) = 2.
Proof.
  split.
  - destruct (refcounts_exact HistoryExample.set Witness.sum_hash Witness.sum_hash_range 0 SlabExample.page_ok eq_refl
      HistoryExample.w7.2 11776 HistoryExample.h7) as [-> _]; [discriminate|left; vm_compute; reflexivity|vm_compute; reflexivity].
  - destruct (refcounts_exact HistoryExample.set Witness.sum_hash Witness.sum_hash_range 0 SlabExample.page_ok eq_refl
      HistoryExample.w7.2 11264 HistoryExample.h7) as [-> _]; [discriminate|right; exists [65]; vm_compute; reflexivity|vm_compute; reflexivity].
Defined.

(** The reader of the replaced item still sees the value that was written. *)
Lemma held_items_stable_witness :
  payload (item_at (wstore HistoryExample.w7.2) 11776) = ([65], 5, 0, [120; 121; 122; 13; 10]).
Proof.
  rewrite (held_items_stable HistoryExample.set Witness.sum_hash Witness.sum_hash_range 0 SlabExample.page_ok eq_refl
    HistoryExample.w6.2 (OpReplace HistoryExample.w1.1 HistoryExample.w6.1) 0 HistoryExample.w7.2 11776 HistoryExample.h6 HistoryExample.a6).
  - vm_compute. reflexivity.
  - vm_compute. reflexivity.
  - vm_compute. reflexivity.
  - reflexivity.
Defined.
