(* ===== verification/McStore.v ===== *)
(** The storage commands on top of the item store (src/memcached-sr/memcached.c):
    set, add, replace, append, prepend and cas ([do_store_item]), incr and decr
    ([do_add_delta]).

    The value of an item is the first [nbytes] bytes of its data area, its line end
    included.  The thread's counters are part of the connection.  Values of several
    chunks are not modelled: [copy_chunks] stands for [_store_item_copy_chunks]. *)
From S2P Require Import Prelude McItoa McUtil McItem McAssoc McLru McSlabs McItems McItemStore McPayload McItemOps McItemHistory.

(** ** Connections *)

Inductive nread := NREAD_ADD | NREAD_SET | NREAD_REPLACE | NREAD_APPEND | NREAD_PREPEND | NREAD_CAS.
Inductive store_item_type := NOT_STORED | STORED | EXISTS | NOT_FOUND | TOO_LARGE | NO_MEMORY.
Inductive delta_result_type := OK | NON_NUMERIC | EOM | DELTA_ITEM_NOT_FOUND | DELTA_ITEM_CAS_MISMATCH.
#[global] Instance nread_eq_dec : EqDecision nread.
Proof. solve_decision. Defined.
#[global] Instance store_item_type_eq_dec : EqDecision store_item_type.
Proof. solve_decision. Defined.

(** The counters of a worker thread; those of [slab_stats] carry the class. *)
Inductive tstat :=
| set_cmds (clsid : Z) | get_hits (clsid : Z) | lru_hits (clsid : Z) | touch_hits (clsid : Z) | delete_hits (clsid : Z) | cas_hits (clsid : Z)
| cas_badval (clsid : Z) | incr_hits (clsid : Z) | decr_hits (clsid : Z)
| get_cmds | get_misses | get_expired | get_flushed | touch_cmds | touch_misses | delete_misses | incr_misses | decr_misses
| cas_misses | meta_cmds | bytes_read | bytes_written | flush_cmds | conn_yields | auth_cmds | auth_errors | idle_kicks.
#[global] Instance tstat_eq_dec : EqDecision tstat.
Proof. solve_decision. Defined.

Record conn := { c_cas : Z; set_stale : bool; tstats : tstat -> Z }.
Definition set_c_cas (v : Z) (c : conn) : conn := {| c_cas := v; set_stale := set_stale c; tstats := tstats c |}.
(** [c->thread->stats.st++] *)
Definition count (st : tstat) (c : conn) : conn :=
  {| c_cas := c_cas c; set_stale := set_stale c;
     tstats := fun t => if decide (t = st) then u64 (tstats c t + 1) else tstats c t |}.

Definition ITEM_TOKEN_SENT : Z := 512.
Definition ITEM_STALE : Z := 2048.

(** What an allocation asks of its surroundings. *)
Record alloc_env := { a_es : nat -> slabs_t -> env; a_trylock : Z -> bool; a_locked : bool }.

(** ** The data area *)

(** The first [n] bytes of the data area. *)
Definition data_bytes (n : Z) (it : item) : list Z := take (Z.to_nat n) (idata it ++ replicate (Z.to_nat n) 0).
Definition value (it : item) : list Z := data_bytes (nbytes it) it.

Section store.
Context (set : item_settings) (hash : list Z -> Z) (nchunks : nat).
Context (copy_chunks : nread -> Z -> Z -> Z -> server -> option server).
Context (a : alloc_env).

Abbreviation alloc := (do_item_alloc set hash nchunks (a_es a) (a_trylock a) (a_locked a)).

(** The counters of [do_item_get]. *)
Definition count_get (key : list Z) (hv : Z) (s : server) (c : conn) : conn :=
  let it := assoc_find (mem s) (table s) key hv in
  if it =? 0 then c
  else if item_is_flushed set s (item_at s it) then count get_flushed c
  else if expired s (item_at s it) then count get_expired c
  else c.

(** [_store_item_copy_data]: [None] is the result -1. *)
Definition copied_data (comm : nread) (old add : item) (d : list Z) : list Z :=
  let '(fst_it, snd_it) := if bool_decide (comm = NREAD_APPEND) then (old, add) else (add, old) in
  write (Z.to_nat (nbytes fst_it - 2)) (value snd_it) (write 0 (value fst_it) d).
Definition store_item_copy_data (comm : nread) (old_it new_it add_it : Z) (s : server) : option server :=
  if has_flag ITEM_CHUNKED (item_at s new_it) then copy_chunks comm old_it new_it add_it s
  else Some (upd_item (set_data (copied_data comm (item_at s old_it) (item_at s add_it) (idata (item_at s new_it)))) new_it s).

(** The branch of append and prepend: the outcome so far, whether the allocation failed,
    the item to store and the new item. *)
Definition store_combined (comm : nread) (it old_it : Z) (s : server) : option (store_item_type * bool * Z * Z * server) :=
  let cas := ITEM_get_cas (item_at s it) in
  if negb (cas =? 0) && negb (cas =? ITEM_get_cas (item_at s old_it)) then Some (EXISTS, false, it, 0, s)
  else
    let old := item_at s old_it in
    '(new_it, s) ← alloc (ikey (item_at s it)) (FLAGS_CONV old) (exptime old) (nbytes (item_at s it) + nbytes old - 2) s;
    if new_it =? 0 then Some (NOT_STORED, true, it, 0, s)
    else match store_item_copy_data comm old_it new_it it s with
         | None => Some (NOT_STORED, true, it, new_it, do_item_remove nchunks new_it s)
         | Some s => Some (NOT_STORED, false, new_it, new_it, s)
         end.

(** The branch of cas. *)
Definition store_cas (it old_it hv : Z) (c : conn) (s : server) : option (store_item_type * conn * server) :=
  if old_it =? 0 then Some (NOT_FOUND, count cas_misses c, s)
  else
    let old := item_at s old_it in
    let cas := ITEM_get_cas (item_at s it) in
    if cas =? ITEM_get_cas old then
      s ← do_item_replace set nchunks old_it it hv s; Some (STORED, count (cas_hits (ITEM_clsid old)) c, s)
    else if set_stale c && (cas <? ITEM_get_cas old) then
      let s := upd_item (set_exptime (exptime old)) it s in
      let s := upd_item (or_flag ITEM_STALE) it s in
      let s := if has_flag ITEM_TOKEN_SENT old then upd_item (or_flag ITEM_TOKEN_SENT) it s else s in
      s ← do_item_replace set nchunks old_it it hv s; Some (STORED, count (cas_hits (ITEM_clsid old)) c, s)
    else Some (EXISTS, count (cas_badval (ITEM_clsid old)) c, s).

(** The branches of [do_store_item], between the fetch of the old item and the release of
    the references. *)
Definition store_branch (it old_it : Z) (comm : nread) (hv : Z) (c : conn) (s : server) : option (store_item_type * Z * Z * conn * server) :=
  let found := negb (old_it =? 0) in
  if found && bool_decide (comm = NREAD_ADD) then Some (NOT_STORED, it, 0, c, do_item_update set old_it s)
  else if negb found && bool_decide (comm = NREAD_REPLACE \/ comm = NREAD_APPEND \/ comm = NREAD_PREPEND) then
    Some (NOT_STORED, it, 0, c, s)
  else if bool_decide (comm = NREAD_CAS) then
    '(stored, c, s) ← store_cas it old_it hv c s; Some (stored, it, 0, c, s)
  else
    '(stored, failed_alloc, it, new_it, s) ←
      (if bool_decide (comm = NREAD_APPEND \/ comm = NREAD_PREPEND) then store_combined comm it old_it s
       else Some (NOT_STORED, false, it, 0, s));
    if bool_decide (stored = NOT_STORED) && negb failed_alloc then
      s ← (if found then do_item_replace set nchunks old_it it hv s else Some (do_item_link set it hv s));
      Some (STORED, it, new_it, set_c_cas (ITEM_get_cas (item_at s it)) c, s)
    else Some (stored, it, new_it, c, s).

Definition do_store_item (it : Z) (comm : nread) (hv : Z) (c : conn) (s : server) : option (store_item_type * conn * server) :=
  let key := ikey (item_at s it) in
  let c := count_get key hv s c in
  '(old_it, s) ← do_item_get set nchunks None key hv false s;
  '(stored, it, new_it, c, s) ← store_branch it old_it comm hv c s;
  let s := if old_it =? 0 then s else do_item_remove nchunks old_it s in
  let s := if new_it =? 0 then s else do_item_remove nchunks new_it s in
  Some (stored, if bool_decide (stored = STORED) then set_c_cas (ITEM_get_cas (item_at s it)) c else c, s).

(** ** Arithmetic *)

Definition INCR_MAX_STORAGE_LEN : nat := 24.

(** The new value, at 64 bits: it wraps upwards and stops at 0 downwards. *)
Definition delta_value (incr : bool) (delta value : Z) : Z :=
  if incr then u64 (value + delta)
  else if value <? u64 delta then 0 else u64 (value - delta).

(** The text of the response buffer, and the value's bytes when it is replaced in place. *)
Definition delta_text (value : Z) : list Z := c_str (itoa_u64 value (replicate INCR_MAX_STORAGE_LEN 0, 0%nat)).1.
Definition delta_in_place (it : item) (text : list Z) : list Z :=
  let res := length text in
  write res (replicate (Z.to_nat (nbytes it - Z.of_nat res - 2)) 32) (write 0 text (idata it)).

(** The value in a new item: [false] when there is no memory for it. *)
Definition delta_replace (it : Z) (text : list Z) (hv : Z) (s : server) : option (bool * server) :=
  let i := item_at s it in
  '(new_it, s) ← alloc (ikey i) (FLAGS_CONV i) (exptime i) (Z.of_nat (length text) + 2) s;
  if new_it =? 0 then Some (false, s)
  else
    let d := write (length text) [13; 10] (write 0 text (idata (item_at s new_it))) in
    s ← do_item_replace set nchunks it new_it hv (upd_item (set_data d) new_it s);
    let s := upd_item (ITEM_set_cas (if use_cas set then ITEM_get_cas (item_at s new_it) else 0)) it s in
    Some (true, do_item_remove nchunks new_it s).

(** [cas] is the argument of the binary protocol; the results are the text in [buf] and
    the new CAS value of the caller's variable. *)
Definition do_add_delta (key : list Z) (incr : bool) (delta : Z) (cas : option Z) (hv : Z) (c : conn) (s : server)
    : option (delta_result_type * list Z * option Z * conn * server) :=
  let c := count_get key hv s c in
  '(it, s) ← do_item_get set nchunks None key hv false s;
  if it =? 0 then Some (DELTA_ITEM_NOT_FOUND, [], cas, c, s)
  else
    let i := item_at s it in
    if (nbytes i <=? 2) || has_flag ITEM_CHUNKED i then Some (NON_NUMERIC, [], cas, c, do_item_remove nchunks it s)
    else if match cas with Some v => negb (v =? 0) && negb (ITEM_get_cas i =? v) | None => false end then
      Some (DELTA_ITEM_CAS_MISMATCH, [], cas, c, do_item_remove nchunks it s)
    else
      match safe_strtoull (idata i) with
      | (false, _) => Some (NON_NUMERIC, [], cas, c, do_item_remove nchunks it s)
      | (true, v) =>
          let text := delta_text (delta_value incr delta v) in
          let res := Z.of_nat (length text) in
          let c := count (if incr then incr_hits (ITEM_clsid i) else decr_hits (ITEM_clsid i)) c in
          let finish s :=
            Some (OK, text, match cas with Some _ => Some (ITEM_get_cas (item_at s it)) | None => None end, c,
                  do_item_remove nchunks it s) in
          if (res + 2 <=? nbytes i) && (refcount i =? 2) then
            finish (do_item_update set it (rewrite_item set it (delta_in_place i text) s))
          else if 1 <? refcount i then
            '(ok, s) ← delta_replace it text hv s;
            if ok : bool then finish s else Some (EOM, text, cas, c, do_item_remove nchunks it s)
          else
            Some (DELTA_ITEM_NOT_FOUND, text, cas, c, if refcount i =? 1 then do_item_remove nchunks it s else s)
      end.
End store.

Lemma count_get_conn set key hv s c : c_cas (count_get set key hv s c) = c_cas c /\ set_stale (count_get set key hv s c) = set_stale c.
Proof. unfold count_get. cbv zeta. by repeat case_if. Qed.

(** ** Steps of a history *)

Section semantics.
Context (set : item_settings) (hash : list Z -> Z) {Hhash : KeyHash hash} (nchunks : nat).
Context (Hpage : 0 < slab_page_size (slab_set set) < 2 ^ 31) (Hrepair : tail_repair_time set = 0).

Abbreviation hist := (history set hash nchunks).
Abbreviation stored := (stored hash).
Definition few (n : Z) (w : world) : Prop := forall x, refs w x + n < 2 ^ 16.

Lemma few_next n w w' : few (n + 2) w -> (forall x, refs w' x <= refs w x + 2) -> few n w'.
Proof. intros Hf Hr x. specialize (Hf x). specialize (Hr x). lia. Qed.

(** The item a fetch returns. *)
Definition current (w : world) (k : list Z) : Z := if live set hash w k then stored w k else 0.

(** What a step keeps of the items somebody refers to. *)
Definition same_payload (w w' : world) (x : Z) : Prop := payload (item_at (wstore w') x) = payload (item_at (wstore w) x).
Lemma stable_payload o w w' x : hist w -> stable o w w' -> 0 < refs w x -> writes o x = false -> same_payload w w' x.
Proof.
  intros Hw Hs Hx Ho. destruct (history_used set hash nchunks Hpage Hrepair w x Hw Hx) as (it & Hit & Hat & _).
  destruct (Hs x it ltac:(lia) Ho Hit) as (it' & Hit' & Hp). unfold same_payload. rewrite Hat. unfold item_at. by rewrite (get_Some _ _ _ Hit').
Qed.

Lemma step_get w key : hist w -> few 3 w -> exists w1,
  do_item_get set nchunks None key (hash key) false (wstore w) = Some (current w key, wstore w1) /\ hist w1 /\
  (forall x, held w1 x = held w x + if decide (x = current w key /\ current w key <> 0) then 1 else 0) /\
  (forall k, stored w1 k = if decide (k = key) then current w key else stored w k) /\
  (current w key <> 0 -> wstore w1 = refcount_incr (current w key) (wstore w)) /\
  (forall x, refs w1 x <= refs w x + 2) /\ (forall x, 0 < refs w x -> same_payload w w1 x).
Proof.
  intros Hw Hf. destruct (history_next set hash nchunks Hpage Hrepair (OpGet None key false) w Hw) as (r & w1 & E & Hw1 & Ho & Hn & Hs & Hr); [by split|].
  cbn [exec] in E. apply fmap_Some in E as ([it s] & E & E1). unfold took in E1. cbn [fst snd] in E1. injection E1 as -> ->.
  cbn [outcome] in Ho. change (it = current w key) in Ho. subst it.
  exists (if current w key =? 0 then keep s w else take_ref (current w key) s w).
  assert (wstore (if current w key =? 0 then keep s w else take_ref (current w key) s w) = s) as Hst by by case_if.
  rewrite Hst. split_and!; try done.
  - intros x. destruct (Z.eqb_spec (current w key) 0) as [E0|E0]; cbn [keep take_ref held].
    + rewrite decide_False by (intros [_ ?]; done). lia.
    + unfold set_ref. destruct (decide (x = current w key)) as [-> |Hne]; [rewrite decide_True by done; lia|].
      rewrite decide_False by (intros [? _]; done). lia.
  - intros H0. unfold do_item_get in E. unfold current in *. destruct (live set hash w key) eqn:El; [|done].
    unfold live in El. apply andb_true_iff in El as [El1 El2]. change (assoc_find _ _ key (hash key)) with (stored w key) in E.
    apply negb_true_iff in El1. rewrite El1 in E. cbn zeta in E.
    assert (item_is_flushed set (refcount_incr (stored w key) (wstore w)) (item_at (refcount_incr (stored w key) (wstore w)) (stored w key))
      || expired (refcount_incr (stored w key) (wstore w)) (item_at (refcount_incr (stored w key) (wstore w)) (stored w key))
      = dead set (wstore w) (item_at (wstore w) (stored w key))) as E2.
    { unfold item_at, refcount_incr, upd_item, get. cbn [mem with_mem]. rewrite lookup_alter_eq. by destruct (mem (wstore w) !! stored w key). }
    rewrite E2 in E. apply negb_true_iff in El2. rewrite El2 in E. by injection E as <-.
  - intros x Hx. eapply stable_payload; [done|exact Hs|done|done].
Qed.

Lemma step_replace w x y : hist w -> few 3 w -> 0 < held w x -> is_linked w x = true -> 0 < held w y -> is_linked w y = false ->
  key_of w y = key_of w x -> exists w1,
  do_item_replace set nchunks x y (hash (key_of w x)) (wstore w) = Some (wstore w1) /\ hist w1 /\ (forall z, held w1 z = held w z) /\
  (forall k, stored w1 k = if decide (k = key_of w x) then y else stored w k) /\
  (forall z, refs w1 z <= refs w z + 2) /\ (forall z, 0 < refs w z -> same_payload w w1 z).
Proof.
  intros Hw Hf Hx Hlx Hy Hly Hk.
  destruct (history_next set hash nchunks Hpage Hrepair (OpReplace x y) w Hw) as (r & w1 & E & Hw1 & _ & Hn & Hs & Hr); [by split|].
  cbn [exec] in E. apply fmap_Some in E as (s & E & [= -> ->]). exists (keep s w). split_and!; try done.
  intros z Hz. eapply stable_payload; [done|exact Hs|done|done].
Qed.

Lemma step_link w x : hist w -> few 3 w -> 0 < held w x -> is_linked w x = false -> stored w (key_of w x) = 0 ->
  let w1 := keep (do_item_link set x (hash (key_of w x)) (wstore w)) w in
  hist w1 /\ (forall k, stored w1 k = if decide (k = key_of w x) then x else stored w k) /\
  (forall z, refs w1 z <= refs w z + 2) /\ (forall z, 0 < refs w z -> same_payload w w1 z).
Proof.
  intros Hw Hf Hx Hlx Hk w1.
  destruct (history_next set hash nchunks Hpage Hrepair (OpLink x) w Hw) as (r & w2 & E & Hw2 & _ & Hn & Hs & Hr); [by split|].
  cbn [exec] in E. injection E as <- <-. split_and!; try done. intros z Hz. eapply stable_payload; [done|exact Hs|done|done].
Qed.

Lemma step_release w x : hist w -> few 3 w -> 0 < held w x ->
  let w1 := drop_ref x (do_item_remove nchunks x (wstore w)) w in
  hist w1 /\ (forall k, stored w1 k = stored w k) /\ (forall z, refs w1 z <= refs w z + 2) /\ (forall z, 0 < refs w z -> same_payload w w1 z).
Proof.
  intros Hw Hf Hx w1.
  destruct (history_next set hash nchunks Hpage Hrepair (OpRelease x) w Hw) as (r & w2 & E & Hw2 & _ & Hn & Hs & Hr); [by split|].
  cbn [exec] in E. injection E as <- <-. split_and!; try done. intros z Hz. eapply stable_payload; [done|exact Hs|done|done].
Qed.

Lemma step_update w x : hist w -> few 3 w -> 0 < held w x ->
  let w1 := keep (do_item_update set x (wstore w)) w in
  hist w1 /\ (forall k, stored w1 k = stored w k) /\ (forall z, refs w1 z <= refs w z + 2) /\ (forall z, 0 < refs w z -> same_payload w w1 z).
Proof.
  intros Hw Hf Hx w1.
  destruct (history_next set hash nchunks Hpage Hrepair (OpUpdate x) w Hw) as (r & w2 & E & Hw2 & _ & Hn & Hs & Hr); [by split|].
  cbn [exec] in E. injection E as <- <-. split_and!; try done. intros z Hz. eapply stable_payload; [done|exact Hs|done|done].
Qed.

Lemma step_alloc a key fl e nb w : hist w -> few 3 w -> (forall i sl id, alloc_ok (slab_set set) (a_es a i sl) sl id) ->
  alloc_size set key fl nb <= slab_chunk_size_max (slab_set set) -> exists r w1,
  do_item_alloc set hash nchunks (a_es a) (a_trylock a) (a_locked a) key fl e nb (wstore w) = Some (r, wstore w1) /\ hist w1 /\
  (forall x, held w1 x = held w x + if decide (x = r /\ r <> 0) then 1 else 0) /\
  (forall k, (stored w1 k = stored w k \/ stored w1 k = 0) /\ (a_trylock a (hash k) = false -> stored w1 k = stored w k)) /\
  (r <> 0 -> refs w r = 0 /\ (forall k, stored w1 k <> r) /\ key_of w1 r = key /\ exptime (item_at (wstore w1) r) = e /\
     nbytes (item_at (wstore w1) r) = nb /\ FLAGS_CONV (item_at (wstore w1) r) = fl /\ has_flag ITEM_CHUNKED (item_at (wstore w1) r) = false) /\
  (forall x, refs w1 x <= refs w x + 2) /\ (forall x, 0 < refs w x -> same_payload w w1 x).
Proof.
  intros Hw Hf Ha Hsz.
  destruct (history_next set hash nchunks Hpage Hrepair (OpAlloc (a_es a) (a_trylock a) (a_locked a) key fl e nb) w Hw)
    as (r & w1 & E & Hw1 & Ho & Hn & Hs & Hr); [by split|].
  cbn [exec] in E. apply fmap_Some in E as ([it s] & E & E1). unfold took in E1. cbn [fst snd] in E1. injection E1 as -> ->.
  exists it, (if it =? 0 then keep s w else take_ref it s w).
  assert (wstore (if it =? 0 then keep s w else take_ref it s w) = s) as Hst by by case_if.
  rewrite Hst. cbn [outcome] in Ho. rewrite Hst in Ho. split_and!; try done.
  - intros x. destruct (Z.eqb_spec it 0) as [E0|E0]; cbn [keep take_ref held].
    + rewrite decide_False by (intros [_ ?]; done). lia.
    + unfold set_ref. destruct (decide (x = it)) as [-> |Hne]; [rewrite decide_True by done; lia|].
      rewrite decide_False by (intros [? _]; done). lia.
  - intros H0. by destruct Ho.
  - intros x Hx. eapply stable_payload; [done|exact Hs|done|done].
Qed.

Lemma step_write w x v : hist w -> few 3 w -> 0 < held w x -> is_linked w x = false ->
  let w1 := keep (upd_item (set_data v) x (wstore w)) w in
  hist w1 /\ (forall k, stored w1 k = stored w k) /\ (forall z, refs w1 z <= refs w z + 2) /\
  (forall z, z <> x -> 0 < refs w z -> same_payload w w1 z) /\ item_at (wstore w1) x = set_data v (item_at (wstore w) x).
Proof.
  intros Hw Hf Hx Hl w1.
  destruct (history_next set hash nchunks Hpage Hrepair (OpWrite x v) w Hw) as (r & w2 & E & Hw2 & _ & Hn & Hs & Hr); [by split|].
  cbn [exec] in E. injection E as <- <-. split_and!; try done.
  - intros z Hzx Hz. eapply stable_payload; [done|exact Hs|done|]. cbn [writes]. by apply Z.eqb_neq.
  - destruct (history_used set hash nchunks Hpage Hrepair w x Hw) as (it & Hit & Hat & _).
    { unfold refs. pose proof (bump_refs_nonneg (concat (bumps (wstore w))) x). lia. }
    rewrite Hat. unfold item_at, upd_item, w1. cbn [keep wstore mem with_mem upd_item]. unfold get. by rewrite lookup_alter_eq, Hit.
Qed.

Lemma step_header w x f : hist w -> few 3 w -> 0 < held w x -> keeps f -> (forall it, payload (f it) = payload it) ->
  let w1 := keep (upd_item f x (wstore w)) w in
  hist w1 /\ (forall k, stored w1 k = stored w k) /\ (forall z, refs w1 z <= refs w z + 2) /\ (forall z, 0 < refs w z -> same_payload w w1 z).
Proof.
  intros Hw Hf Hx Hk Hp w1.
  destruct (history_next set hash nchunks Hpage Hrepair (OpHeader x f) w Hw) as (r & w2 & E & Hw2 & _ & Hn & Hs & Hr); [by split|].
  cbn [exec] in E. injection E as <- <-. split_and!; try done. intros z Hz. eapply stable_payload; [done|exact Hs|done|done].
Qed.

(** The release of a reference that may be null. *)
Lemma step_drop w x : hist w -> few 3 w -> (x <> 0 -> 0 < held w x) -> exists w1,
  wstore w1 = (if x =? 0 then wstore w else do_item_remove nchunks x (wstore w)) /\ hist w1 /\
  (forall z, held w1 z = held w z - if decide (z = x /\ x <> 0) then 1 else 0) /\
  (forall k, stored w1 k = stored w k) /\ (forall z, refs w1 z <= refs w z + 2) /\ (forall z, 0 < refs w z -> same_payload w w1 z).
Proof.
  intros Hw Hf Hx. destruct (Z.eqb_spec x 0) as [-> |H0].
  - exists w. split_and!; try done; [|intros z; lia]. intros z. rewrite decide_False by (intros [_ ?]; done). lia.
  - destruct (step_release w x Hw Hf (Hx H0)) as (Hw1 & H1 & H2 & H3).
    exists (drop_ref x (do_item_remove nchunks x (wstore w)) w). split_and!; try done.
    intros z. cbn [drop_ref held]. unfold set_ref. destruct (decide (z = x)) as [-> |]; [rewrite decide_True by done; lia|].
    rewrite decide_False by (intros [? _]; done). lia.
Qed.

(** An item that is held is linked exactly when its key leads to it. *)
Lemma linked_stored w x : hist w -> 0 < refs w x -> is_linked w x = bool_decide (stored w (key_of w x) = x).
Proof.
  intros Hw Hx. destruct (history_used set hash nchunks Hpage Hrepair w x Hw Hx) as (_ & _ & _ & Hx0).
  destruct (item_facts set hash nchunks Hpage Hrepair w x Hw Hx0 (or_introl Hx)) as (_ & _ & _ & Hk).
  case_bool_decide as E; [by apply Hk in E as [? _]|]. destruct (is_linked w x) eqn:El; [|done]. destruct E. by apply Hk.
Qed.
Lemma held_refs_pos w x : 0 < held w x -> 0 < refs w x.
Proof. intros Hx. unfold refs. pose proof (bump_refs_nonneg (concat (bumps (wstore w))) x). lia. Qed.
Lemma same_key w w' x : same_payload w w' x -> key_of w' x = key_of w x.
Proof. intros Hp. unfold key_of. by injection Hp. Qed.
Lemma value_payload i j : payload i = payload j -> value i = value j.
Proof. intros Hp. unfold value, data_bytes. injection Hp as _ -> _ ->. done. Qed.
Lemma same_value w w' x : same_payload w w' x -> value (item_at (wstore w') x) = value (item_at (wstore w) x).
Proof. apply value_payload. Qed.

(** ** Storing *)

Definition combines (comm : nread) : bool := bool_decide (comm = NREAD_APPEND \/ comm = NREAD_PREPEND).
(** The value append and prepend produce: the line end of the first part goes. *)
Definition combined (comm : nread) (old add : list Z) : list Z :=
  let '(a, b) := if bool_decide (comm = NREAD_APPEND) then (old, add) else (add, old) in take (length a - 2) a ++ b.

(** The answer to a storage command, given the item under the key and enough memory. *)
Definition decision (comm : nread) (stale found : bool) (it cur : item) : store_item_type :=
  match comm with
  | NREAD_SET => STORED
  | NREAD_ADD => if found then NOT_STORED else STORED
  | NREAD_REPLACE => if found then STORED else NOT_STORED
  | NREAD_APPEND | NREAD_PREPEND =>
      if found then
        if negb (ITEM_get_cas it =? 0) && negb (ITEM_get_cas it =? ITEM_get_cas cur) then EXISTS else STORED
      else NOT_STORED
  | NREAD_CAS =>
      if found then
        if ITEM_get_cas it =? ITEM_get_cas cur then STORED
        else if stale && (ITEM_get_cas it <? ITEM_get_cas cur) then STORED else EXISTS
      else NOT_FOUND
  end.

Lemma length_data_bytes n it : length (data_bytes n it) = Z.to_nat n.
Proof. unfold data_bytes. rewrite length_take, length_app, length_replicate. lia. Qed.

Lemma combined_data a b d n : (2 <= length a)%nat -> n = (length a + length b - 2)%nat ->
  take n (write (length a - 2) b (write 0 a d) ++ replicate n 0) = take (length a - 2) a ++ b.
Proof.
  intros Ha ->. unfold write. cbn [take]. rewrite !app_nil_l. cbn [Nat.add].
  rewrite (take_app_le a) by lia. rewrite app_assoc, <- (app_assoc _ _ (replicate _ _)).
  apply take_app_length'. rewrite length_app, length_take. lia.
Qed.

Lemma copied_value comm old add new : 2 <= nbytes old -> 2 <= nbytes add -> nbytes new = nbytes add + nbytes old - 2 ->
  value (set_data (copied_data comm old add (idata new)) new) = combined comm (value old) (value add).
Proof.
  intros H1 H2 Hn. unfold value at 1. unfold data_bytes. cbn [nbytes set_data idata].
  assert (forall i, length (value i) = Z.to_nat (nbytes i)) as Hl by (intros i; apply length_data_bytes).
  unfold copied_data, combined. case_bool_decide.
  - replace (Z.to_nat (nbytes old - 2)) with (length (value old) - 2)%nat by (rewrite Hl; lia). apply combined_data; rewrite !Hl; lia.
  - replace (Z.to_nat (nbytes add - 2)) with (length (value add) - 2)%nat by (rewrite Hl; lia). apply combined_data; rewrite !Hl; lia.
Qed.

(** A store under way: the old item is what the key leads to, and both are held. *)
Record ready (n : Z) (w : world) (key : list Z) (old it : Z) : Prop := {
  rd_hist : hist w;
  rd_few : few n w;
  rd_it : 0 < held w it;
  rd_key : key_of w it = key;
  rd_new : it <> old;
  rd_stored : stored w key = old;
  rd_old : old <> 0 -> 0 < held w old
}.
(** Steps in which the references the users hold stay the same. *)
Record kept (n : Z) (w w' : world) : Prop := {
  kp_hist : hist w';
  kp_held : forall x, held w' x = held w x;
  kp_refs : forall x, refs w' x <= refs w x + n;
  kp_pay : forall x, 0 < held w x -> same_payload w w' x
}.

Lemma kept_refl w : hist w -> kept 0 w w.
Proof. intros Hw. split; try done. intros x. lia. Qed.
Lemma kept_trans n m w w1 w2 : kept n w w1 -> kept m w1 w2 -> kept (n + m) w w2.
Proof.
  intros H1 H2. split.
  - apply (kp_hist _ _ _ H2).
  - intros x. by rewrite (kp_held _ _ _ H2), (kp_held _ _ _ H1).
  - intros x. pose proof (kp_refs _ _ _ H1 x). pose proof (kp_refs _ _ _ H2 x). lia.
  - intros x Hx. unfold same_payload. rewrite (kp_pay _ _ _ H2 x), (kp_pay _ _ _ H1 x); [done|done|by rewrite (kp_held _ _ _ H1)].
Qed.
Lemma kept_le n m w w' : n <= m -> kept n w w' -> kept m w w'.
Proof. intros Hnm [H1 H2 H3 H4]. split; try done. intros x. specialize (H3 x). lia. Qed.
Lemma kept_few n m w w' : kept n w w' -> few (m + n) w -> few m w'.
Proof. intros H Hf x. specialize (Hf x). pose proof (kp_refs _ _ _ H x). lia. Qed.
Lemma kept_keep w s : hist (keep s w) -> (forall z, refs (keep s w) z <= refs w z + 2) ->
  (forall z, 0 < refs w z -> same_payload w (keep s w) z) -> kept 2 w (keep s w).
Proof. intros Hw Hr Hp. split; try done. intros x Hx. by apply Hp, held_refs_pos. Qed.
Lemma few_le n m w : m <= n -> few n w -> few m w.
Proof. intros Hnm Hf x. specialize (Hf x). lia. Qed.

Lemma ready_le n m w key old it : m <= n -> ready n w key old it -> ready m w key old it.
Proof. intros Hnm [H1 H2 H3 H4 H5 H6 H7]. split; try done. by eapply few_le. Qed.
Lemma ready_nonzero n w key old it : ready n w key old it -> it <> 0.
Proof. intros H. by destruct (history_used set hash nchunks Hpage Hrepair w it (rd_hist _ _ _ _ _ H) (held_refs_pos _ _ (rd_it _ _ _ _ _ H))) as (_ & _ & _ & ?). Qed.
Lemma ready_unlinked n w key old it : ready n w key old it -> is_linked w it = false.
Proof.
  intros H. rewrite (linked_stored w it (rd_hist _ _ _ _ _ H) (held_refs_pos _ _ (rd_it _ _ _ _ _ H))).
  rewrite (rd_key _ _ _ _ _ H), (rd_stored _ _ _ _ _ H). apply bool_decide_eq_false_2. intros E. by destruct (rd_new _ _ _ _ _ H).
Qed.
Lemma ready_linked n w key old it : ready n w key old it -> old <> 0 -> is_linked w old = true /\ key_of w old = key.
Proof.
  intros H H0. destruct (item_facts set hash nchunks Hpage Hrepair w old (rd_hist _ _ _ _ _ H) H0) as (_ & _ & _ & Hk).
  { left. by apply held_refs_pos, (rd_old _ _ _ _ _ H). }
  destruct (proj1 (Hk key) (rd_stored _ _ _ _ _ H)) as [? ->]. done.
Qed.

(** The new item takes the place of the old one, if there is one. *)
Lemma put_item n w key old it : 3 <= n -> ready n w key old it -> exists w2,
  (if negb (old =? 0) then do_item_replace set nchunks old it (hash key) (wstore w) else Some (do_item_link set it (hash key) (wstore w)))
    = Some (wstore w2) /\
  kept 2 w w2 /\ (forall k, stored w2 k = if decide (k = key) then it else stored w k).
Proof.
  intros Hn H. pose proof (few_le _ _ _ Hn (rd_few _ _ _ _ _ H)) as Hf. pose proof (ready_unlinked _ _ _ _ _ H) as Hu. destruct (Z.eqb_spec old 0) as [-> |H0]; cbn [negb].
  - destruct (step_link w it (rd_hist _ _ _ _ _ H) Hf (rd_it _ _ _ _ _ H) Hu) as (H1 & H2 & H3 & H4).
    { rewrite (rd_key _ _ _ _ _ H). apply (rd_stored _ _ _ _ _ H). }
    rewrite (rd_key _ _ _ _ _ H) in *. exists (keep (do_item_link set it (hash key) (wstore w)) w).
    split; [done|]. split; [by apply kept_keep|done].
  - destruct (ready_linked _ _ _ _ _ H H0) as [Hl Hk].
    destruct (step_replace w old it (rd_hist _ _ _ _ _ H) Hf (rd_old _ _ _ _ _ H H0) Hl (rd_it _ _ _ _ _ H) Hu) as (w2 & E & H1 & H2 & H3 & H4 & H5).
    { by rewrite Hk, (rd_key _ _ _ _ _ H). }
    rewrite Hk in *. exists w2. split; [done|]. split; [|done]. split; try done. intros x Hx. by apply H5, held_refs_pos.
Qed.

(** The allocation of the combined item fails. *)
Definition no_memory (a : alloc_env) (s : server) (key : list Z) (old it : Z) : Prop := exists s',
  do_item_alloc set hash nchunks (a_es a) (a_trylock a) (a_locked a) key (FLAGS_CONV (item_at s old)) (exptime (item_at s old))
    (nbytes (item_at s it) + nbytes (item_at s old) - 2) s = Some (0, s').

(** Append and prepend: another version than the client's, no memory, or a new item with
    the combined value, ready to be stored. *)
Lemma combined_item a copy_chunks comm w key old it : ready 9 w key old it -> old <> 0 -> combines comm = true ->
  (forall i sl id, alloc_ok (slab_set set) (a_es a i sl) sl id) -> a_trylock a (hash key) = false ->
  2 <= nbytes (item_at (wstore w) it) -> 2 <= nbytes (item_at (wstore w) old) ->
  alloc_size set key (FLAGS_CONV (item_at (wstore w) old)) (nbytes (item_at (wstore w) it) + nbytes (item_at (wstore w) old) - 2)
    <= slab_chunk_size_max (slab_set set) ->
  exists res failed y new w2,
  store_combined set hash nchunks copy_chunks a comm it old (wstore w) = Some (res, failed, y, new, wstore w2) /\ hist w2 /\
  (forall x, held w2 x = held w x + if decide (x = new /\ new <> 0) then 1 else 0) /\ (forall x, refs w2 x <= refs w x + 4) /\
  (forall x, 0 < held w x -> same_payload w w2 x) /\ (forall k, stored w2 k = stored w k \/ stored w2 k = 0) /\
  (res = EXISTS /\ new = 0 /\ y = it /\ stored w2 key = stored w key /\
     negb (ITEM_get_cas (item_at (wstore w) it) =? 0) && negb (ITEM_get_cas (item_at (wstore w) it) =? ITEM_get_cas (item_at (wstore w) old)) = true \/
   res = NOT_STORED /\
     negb (ITEM_get_cas (item_at (wstore w) it) =? 0) && negb (ITEM_get_cas (item_at (wstore w) it) =? ITEM_get_cas (item_at (wstore w) old)) = false /\
     (failed = true /\ new = 0 /\ y = it /\ stored w2 key = stored w key /\ no_memory a (wstore w) key old it \/
      failed = false /\ y = new /\ ready 5 w2 key old new /\
      value (item_at (wstore w2) new) = combined comm (value (item_at (wstore w) old)) (value (item_at (wstore w) it)))).
Proof.
  intros H H0 Hc Ha Ht Hn1 Hn2 Hsz. unfold store_combined. destruct (_ && _) eqn:Ecas.
  { exists EXISTS, false, it, 0, w. split; [done|]. split; [apply (rd_hist _ _ _ _ _ H)|]. split_and!; try done.
    - intros x. rewrite decide_False by (intros [_ ?]; done). lia.
    - intros x. lia.
    - by left.
    - by left. }
  rewrite <- (rd_key _ _ _ _ _ H) in Hsz at 1. unfold key_of in Hsz.
  destruct (step_alloc a _ _ (exptime (item_at (wstore w) old)) _ w (rd_hist _ _ _ _ _ H) (few_le 9 3 w ltac:(lia) (rd_few _ _ _ _ _ H)) Ha Hsz)
    as (new & wa & E & Hwa & Hha & Hsa & Hoa & Hra & Hpa). cbn zeta. rewrite E. cbn [mbind option_bind].
  destruct (Z.eqb_spec new 0) as [-> |Hnew].
  { exists NOT_STORED, true, it, 0, wa. split_and!; try done; [intros x; specialize (Hra x); lia|intros x Hx; by apply Hpa, held_refs_pos|intros k; apply Hsa|].
    right. split_and!; try done. left. split_and!; try done; [by apply Hsa|].
    exists (wstore wa). rewrite <- (rd_key _ _ _ _ _ H). exact E. }
  destruct (Hoa Hnew) as (Hr0 & Hns & Hkn & _ & Hnb & _ & Hch). unfold store_item_copy_data. rewrite Hch.
  pose proof (history_held set hash nchunks Hpage Hrepair w new (rd_hist _ _ _ _ _ H)) as Hh0.
  assert (0 < held wa new) as Hhn by (rewrite Hha, decide_True by done; lia).
  assert (forall x, 0 < held w x -> x <> new) as Hne.
  { intros x Hx ->. apply held_refs_pos in Hx. lia. }
  assert (is_linked wa new = false) as Hun.
  { rewrite (linked_stored wa new Hwa (held_refs_pos _ _ Hhn)). by apply bool_decide_eq_false_2. }
  assert (few 7 wa) as Hfa by (intros x; pose proof (rd_few _ _ _ _ _ H x); specialize (Hra x); lia).
  destruct (step_write wa new (copied_data comm (item_at (wstore wa) old) (item_at (wstore wa) it) (idata (item_at (wstore wa) new))) Hwa
    (few_le 7 3 wa ltac:(lia) Hfa) Hhn Hun) as (Hwb & Hsb & Hrb & Hpb & Hat).
  set (wb := keep _ wa) in *. exists NOT_STORED, false, new, new, wb.
  assert (forall x, 0 < held w x -> same_payload w wb x) as Hp.
  { intros x Hx. unfold same_payload. rewrite (Hpb x), (Hpa x); [done|by apply held_refs_pos|by apply Hne|].
    apply held_refs_pos. rewrite Hha. destruct (decide _); lia. }
  split_and!; try done; [intros x; specialize (Hra x); specialize (Hrb x); lia|intros k; rewrite Hsb; apply Hsa|].
  right. split_and!; try done. right. split_and!; try done.
  - pose proof (rd_old _ _ _ _ _ H H0) as Hho. split; try done.
    + intros x. specialize (Hfa x). specialize (Hrb x). lia.
    + unfold key_of. rewrite Hat. cbn [ikey set_data]. rewrite <- (rd_key _ _ _ _ _ H). exact Hkn.
    + intros <-. by apply (Hne new).
    + rewrite Hsb. rewrite (proj2 (Hsa key) Ht). apply (rd_stored _ _ _ _ _ H).
    + intros _. cbn [wb keep held]. rewrite Hha. destruct (decide _); lia.
  - pose proof (Hpa old (held_refs_pos _ _ (rd_old _ _ _ _ _ H H0))) as Po. pose proof (Hpa it (held_refs_pos _ _ (rd_it _ _ _ _ _ H))) as Pi.
    rewrite Hat, <- (same_value _ _ _ Po), <- (same_value _ _ _ Pi).
    assert (nbytes (item_at (wstore wa) old) = nbytes (item_at (wstore w) old)) as E1 by by injection Po.
    assert (nbytes (item_at (wstore wa) it) = nbytes (item_at (wstore w) it)) as E2 by by injection Pi.
    apply copied_value; lia.
Qed.

Lemma ready_kept n m w w' key old it : ready (n + m) w key old it -> kept m w w' -> stored w' key = stored w key -> ready n w' key old it.
Proof.
  intros H Hk Hs. pose proof (kp_held _ _ _ Hk) as Hh. split.
  - apply (kp_hist _ _ _ Hk).
  - apply (kept_few m n w w' Hk), (rd_few _ _ _ _ _ H).
  - rewrite Hh. apply (rd_it _ _ _ _ _ H).
  - rewrite (same_key w w' it); [apply (rd_key _ _ _ _ _ H)|apply (kp_pay _ _ _ Hk), (rd_it _ _ _ _ _ H)].
  - apply (rd_new _ _ _ _ _ H).
  - rewrite Hs. apply (rd_stored _ _ _ _ _ H).
  - rewrite Hh. apply (rd_old _ _ _ _ _ H).
Qed.

(** A store to the header of the new item, while the store is under way. *)
Lemma ready_header n w key old it f : ready (n + 2) w key old it -> 1 <= n -> keeps f -> (forall i, payload (f i) = payload i) ->
  exists w1, wstore w1 = upd_item f it (wstore w) /\ ready n w1 key old it /\ kept 2 w w1 /\ forall k, stored w1 k = stored w k.
Proof.
  intros H Hn Hf Hp. pose proof (few_le (n + 2) 3 w ltac:(lia) (rd_few _ _ _ _ _ H)) as Hfew.
  destruct (step_header w it f (rd_hist _ _ _ _ _ H) Hfew (rd_it _ _ _ _ _ H) Hf Hp) as (H1 & H2 & H3 & H4).
  assert (kept 2 w (keep (upd_item f it (wstore w)) w)) as Hk by by apply kept_keep.
  eexists. split; [|split; [by eapply ready_kept|by split]]. done.
Qed.
Lemma put_ready n w key old it : 3 <= n -> ready n w key old it -> old <> 0 -> exists w2,
  do_item_replace set nchunks old it (hash key) (wstore w) = Some (wstore w2) /\ kept 2 w w2 /\
  (forall k, stored w2 k = if decide (k = key) then it else stored w k).
Proof. intros Hn H H0. pose proof (put_item n w key old it Hn H) as Hp. by rewrite (proj2 (Z.eqb_neq old 0) H0) in Hp. Qed.

Lemma cas_item w key old it c : ready 9 w key old it -> exists res c' w2,
  store_cas set nchunks it old (hash key) c (wstore w) = Some (res, c', wstore w2) /\ kept 8 w w2 /\
  res = decision NREAD_CAS (set_stale c) (negb (old =? 0)) (item_at (wstore w) it) (item_at (wstore w) old) /\
  (forall k, stored w2 k = if decide (res = STORED /\ k = key) then it else stored w k) /\ c_cas c' = c_cas c.
Proof.
  intros H. unfold store_cas, decision. assert (kept 8 w w) as Hid.
  { apply (kept_le 0); [lia|]. apply kept_refl, (rd_hist _ _ _ _ _ H). }
  destruct (Z.eqb_spec old 0) as [-> |H0]; cbn [negb].
  { eexists _, _, w. by split_and!. }
  assert (forall n w', 3 <= n -> ready n w' key old it -> kept 6 w w' -> (forall k, stored w' k = stored w k) -> exists w2,
    do_item_replace set nchunks old it (hash key) (wstore w') = Some (wstore w2) /\ kept 8 w w2 /\
    forall k, stored w2 k = if decide (STORED = STORED /\ k = key) then it else stored w k) as Hput.
  { intros n w' Hn H' Hk Hs. destruct (put_ready n w' key old it Hn H' H0) as (w2 & E & Hk2 & Hs2). exists w2. split; [done|].
    split; [by apply (kept_trans 6 2 w w')|]. intros k. rewrite Hs2, Hs. destruct (decide (k = key)) as [Hkk|Hkk];
      [by rewrite decide_True|by rewrite decide_False by (intros [_ ?]; done)]. }
  destruct (ITEM_get_cas (item_at (wstore w) it) =? _) eqn:E1.
  { destruct (Hput 9 w ltac:(lia) H) as (w2 & E & Hk & Hs); [|done|].
    - apply (kept_le 0); [lia|]. apply kept_refl, (rd_hist _ _ _ _ _ H).
    - rewrite E. cbn [mbind option_bind]. eexists _, _, w2. by split_and!. }
  destruct (_ && _) eqn:E2; [|eexists _, _, w; by split_and!].
  destruct (ready_header 7 w key old it (set_exptime (exptime (item_at (wstore w) old))) H ltac:(lia) (keeps_exptime _) ltac:(done)) as (wa & <- & Ha & Ka & Sa).
  destruct (ready_header 5 wa key old it (or_flag ITEM_STALE) Ha ltac:(lia) (keeps_or ITEM_STALE eq_refl) ltac:(done)) as (wb & <- & Hb & Kb & Sb).
  pose proof (kept_trans 2 2 _ _ _ Ka Kb) as Kab.
  assert (exists wc, wstore wc = (if has_flag ITEM_TOKEN_SENT (item_at (wstore w) old) then upd_item (or_flag ITEM_TOKEN_SENT) it (wstore wb) else wstore wb) /\
    ready 3 wc key old it /\ kept 6 w wc /\ forall k, stored wc k = stored w k) as (wc & <- & Hc & Kc & Sc).
  { case_if.
    - destruct (ready_header 3 wb key old it (or_flag ITEM_TOKEN_SENT) Hb ltac:(lia) (keeps_or ITEM_TOKEN_SENT eq_refl) ltac:(done)) as (wc & <- & Hc & Kc & Sc).
      exists wc. split_and!; try done; [by apply (kept_trans 4 2 w wb)|]. intros k. by rewrite Sc, Sb.
    - exists wb. split_and!; try done; [by apply (ready_le 5)|by apply (kept_le 4)|intros k; by rewrite Sb]. }
  destruct (Hput 3 wc ltac:(lia) Hc Kc Sc) as (w2 & E & Hk & Hs). rewrite E. cbn [mbind option_bind]. eexists _, _, w2. by split_and!.
Qed.

(** Evaluates the decisions on constants. *)
Ltac eval_decide := repeat match goal with |- context [bool_decide ?P] =>
  let b := eval vm_compute in (bool_decide P) in change (bool_decide P) with b end; cbv iota.

(** A branch has decided and stored. *)
Record branched (a : alloc_env) (w w2 : world) (comm : nread) (stale : bool) (key : list Z) (old it new : Z) (res : store_item_type) (y : Z) : Prop := {
  bd_hist : hist w2;
  bd_held : forall x, held w2 x = held w x + if decide (x = new /\ new <> 0) then 1 else 0;
  bd_refs : forall x, refs w2 x <= refs w x + 8;
  bd_pay : forall x, 0 < held w x -> same_payload w w2 x;
  bd_res : res = decision comm stale (negb (old =? 0)) (item_at (wstore w) it) (item_at (wstore w) old) \/
           res = NOT_STORED /\ combines comm = true /\ old <> 0 /\ no_memory a (wstore w) key old it;
  bd_key : stored w2 key = if decide (res = STORED) then y else old;
  bd_other : forall k, k <> key -> stored w2 k = stored w k \/ combines comm = true /\ stored w2 k = 0;
  bd_item : res = STORED -> 0 < held w2 y /\ (if combines comm then y = new else y = it) /\
    value (item_at (wstore w2) y) =
      if combines comm then combined comm (value (item_at (wstore w) old)) (value (item_at (wstore w) it)) else value (item_at (wstore w) it)
}.

(** The branches that keep the users' references. *)
Lemma branched_kept a w w2 comm stale key old it res : ready 9 w key old it -> kept 8 w w2 -> res <> STORED \/ combines comm = false ->
  res = decision comm stale (negb (old =? 0)) (item_at (wstore w) it) (item_at (wstore w) old) ->
  (forall k, stored w2 k = if decide (res = STORED /\ k = key) then it else stored w k) ->
  branched a w w2 comm stale key old it 0 res it.
Proof.
  intros H Hk Hc Hres Hs. split.
  - apply (kp_hist _ _ _ Hk).
  - intros x. rewrite (kp_held _ _ _ Hk). rewrite decide_False by (intros [_ ?]; done). lia.
  - apply (kp_refs _ _ _ Hk).
  - apply (kp_pay _ _ _ Hk).
  - by left.
  - rewrite Hs, <- (rd_stored _ _ _ _ _ H). destruct (decide (res = STORED)); [by rewrite decide_True|by rewrite decide_False by (intros [? _]; done)].
  - intros k Hne. left. rewrite Hs. by rewrite decide_False by (intros [_ ?]; done).
  - intros Hst. destruct Hc as [Hc|Hc]; [done|]. rewrite Hc, (kp_held _ _ _ Hk). split_and!; [apply (rd_it _ _ _ _ _ H)|done|].
    apply same_value, (kp_pay _ _ _ Hk), (rd_it _ _ _ _ _ H).
Qed.

(** Set, and add and replace when they store. *)
Lemma branch_plain a comm stale w key old it : ready 9 w key old it -> combines comm = false ->
  decision comm stale (negb (old =? 0)) (item_at (wstore w) it) (item_at (wstore w) old) = STORED -> exists w2,
  (if negb (old =? 0) then do_item_replace set nchunks old it (hash key) (wstore w) else Some (do_item_link set it (hash key) (wstore w)))
    = Some (wstore w2) /\ branched a w w2 comm stale key old it 0 STORED it.
Proof.
  intros H Hc Hd. destruct (put_item 9 w key old it ltac:(lia) H) as (w2 & E & Hk & Hs). exists w2. split; [done|].
  apply branched_kept; try done; [by apply (kept_le 2)|by right|]. intros k. rewrite Hs.
  destruct (decide (k = key)); [by rewrite decide_True|by rewrite decide_False by (intros [_ ?]; done)].
Qed.

(** What an append or prepend asks of its surroundings: the client's library behaves, this
    thread holds the lock of the key, and the combined value fits into one chunk. *)
Record can_combine (a : alloc_env) (w : world) (key : list Z) (old it : Z) : Prop := {
  cc_alloc : forall i sl id, alloc_ok (slab_set set) (a_es a i sl) sl id;
  cc_lock : a_trylock a (hash key) = false;
  cc_it : 2 <= nbytes (item_at (wstore w) it);
  cc_old : old <> 0 -> 2 <= nbytes (item_at (wstore w) old);
  cc_size : old <> 0 -> alloc_size set key (FLAGS_CONV (item_at (wstore w) old))
    (nbytes (item_at (wstore w) it) + nbytes (item_at (wstore w) old) - 2) <= slab_chunk_size_max (slab_set set)
}.

Lemma branch_combined a copy_chunks comm stale w key old it c : ready 9 w key old it -> old <> 0 -> combines comm = true ->
  can_combine a w key old it -> exists res y new c' w2,
  ('(stored, failed_alloc, it, new_it, s) ← store_combined set hash nchunks copy_chunks a comm it old (wstore w);
   if bool_decide (stored = NOT_STORED) && negb failed_alloc then
     s ← do_item_replace set nchunks old it (hash key) s;
     Some (STORED, it, new_it, set_c_cas (ITEM_get_cas (item_at s it)) c, s)
   else Some (stored, it, new_it, c, s)) = Some (res, y, new, c', wstore w2) /\
  branched a w w2 comm stale key old it new res y /\ (res <> STORED -> c_cas c' = c_cas c).
Proof.
  intros H H0 Hc [Ha Ht Hn1 Hn2 Hsz].
  destruct (combined_item a copy_chunks comm w key old it H H0 Hc Ha Ht Hn1 (Hn2 H0) (Hsz H0))
    as (res & failed & y & new & w2 & E & Hw2 & Hh & Hr & Hp & Hs & Hcase). rewrite E. cbn [mbind option_bind]. clear E.
  assert (forall sl, decision comm sl (negb (old =? 0)) (item_at (wstore w) it) (item_at (wstore w) old) =
    if negb (ITEM_get_cas (item_at (wstore w) it) =? 0) && negb (ITEM_get_cas (item_at (wstore w) it) =? ITEM_get_cas (item_at (wstore w) old))
    then EXISTS else STORED) as Hd.
  { intros sl. rewrite (proj2 (Z.eqb_neq old 0) H0). unfold combines in Hc. destruct comm; try done. }
  destruct Hcase as [(-> & -> & -> & Hk & Hcas)|(-> & Hcas & Hcase)].
  - rewrite bool_decide_eq_false_2 by done. cbn [andb]. eexists _, _, _, _, w2. split; [done|]. split; [|done]. split; try done.
    + intros x. specialize (Hr x). lia.
    + left. by rewrite Hd, Hcas.
    + rewrite Hk. apply (rd_stored _ _ _ _ _ H).
    + intros k _. destruct (Hs k); [by left|by right].
  - rewrite bool_decide_eq_true_2 by done. cbn [andb]. destruct Hcase as [(-> & -> & -> & Hk & Hnm)|(-> & -> & Hrd & Hv)]; cbn [negb].
    + eexists _, _, _, _, w2. split; [done|]. split; [|done]. split; try done.
      * intros x. specialize (Hr x). lia.
      * by right.
      * rewrite Hk. apply (rd_stored _ _ _ _ _ H).
      * intros k _. destruct (Hs k); [by left|by right].
    + destruct (put_ready 5 w2 key old new ltac:(lia) Hrd H0) as (w3 & E & Hk3 & Hs3). rewrite E. cbn [mbind option_bind].
      eexists _, _, _, _, w3. split; [done|]. split; [|done]. split.
      * apply (kp_hist _ _ _ Hk3).
      * intros x. by rewrite (kp_held _ _ _ Hk3).
      * intros x. specialize (Hr x). pose proof (kp_refs _ _ _ Hk3 x). lia.
      * intros x Hx. unfold same_payload. rewrite (kp_pay _ _ _ Hk3), (Hp x Hx); [done|]. rewrite Hh. destruct (decide _); lia.
      * left. by rewrite Hd, Hcas.
      * rewrite Hs3. by rewrite !decide_True.
      * intros k Hne. rewrite Hs3, decide_False by done. destruct (Hs k); [by left|by right].
      * intros _. rewrite Hc, (kp_held _ _ _ Hk3). pose proof (rd_it _ _ _ _ _ Hrd) as Hn. split_and!; try done.
        rewrite <- Hv. by apply same_value, (kp_pay _ _ _ Hk3).
Qed.

Lemma branch_ok a copy_chunks comm w key old it c : ready 9 w key old it -> can_combine a w key old it \/ combines comm = false ->
  exists res y new c' w2,
  store_branch set hash nchunks copy_chunks a it old comm (hash key) c (wstore w) = Some (res, y, new, c', wstore w2) /\
  branched a w w2 comm (set_stale c) key old it new res y /\ (res <> STORED -> c_cas c' = c_cas c).
Proof.
  intros H Hcan. unfold store_branch. assert (kept 8 w w) as Hid.
  { apply (kept_le 0); [lia|]. apply kept_refl, (rd_hist _ _ _ _ _ H). }
  assert (forall comm stale (found : bool), found = negb (old =? 0) -> combines comm = false ->
    decision comm stale found (item_at (wstore w) it) (item_at (wstore w) old) = STORED -> exists w2,
    (if found then do_item_replace set nchunks old it (hash key) (wstore w) else Some (do_item_link set it (hash key) (wstore w)))
      = Some (wstore w2) /\ branched a w w2 comm stale key old it 0 STORED it) as Hplain.
  { intros comm' stale found -> Hc Hd. by apply branch_plain. }
  assert (forall w2 res, kept 8 w w2 -> (forall k, stored w2 k = stored w k) -> res <> STORED ->
    res = decision comm (set_stale c) (negb (old =? 0)) (item_at (wstore w) it) (item_at (wstore w) old) ->
    branched a w w2 comm (set_stale c) key old it 0 res it) as Hnone.
  { intros w2 res Hk Hs Hr Hd. apply branched_kept; try done; [by left|]. intros k. by rewrite Hs, decide_False by (intros [? _]; done). }
  destruct (bool_decide_reflect (comm = NREAD_CAS)) as [-> |Hncas].
  { eval_decide. rewrite !andb_false_r.
    destruct (cas_item w key old it c H) as (res & c' & w2 & E & Hk & Hr & Hs & Hcc). rewrite E. cbn [mbind option_bind].
    eexists _, _, _, _, w2. split; [done|]. split; [apply branched_kept; try done; by right|done]. }
  destruct (negb (old =? 0)) eqn:Ef; cbn [negb andb].
  - assert (old <> 0) as H0 by (intros ->; done). destruct comm; try done; eval_decide; cbn [mbind option_bind andb negb]; eval_decide; cbn [andb].
    + pose proof (step_update w old (rd_hist _ _ _ _ _ H) (few_le 9 3 w ltac:(lia) (rd_few _ _ _ _ _ H)) (rd_old _ _ _ _ _ H H0)) as (H1 & H2 & H3 & H4).
      eexists _, _, _, _, (keep (do_item_update set old (wstore w)) w). split; [done|]. split; [|done].
      apply Hnone; try done. by apply (kept_le 2), kept_keep.
    + destruct (Hplain NREAD_SET (set_stale c) true) as (w2 & -> & Hb); try done. eexists _, _, _, _, w2. by split.
    + destruct (Hplain NREAD_REPLACE (set_stale c) true) as (w2 & -> & Hb); try done. eexists _, _, _, _, w2. by split.
    + destruct Hcan as [Hcan|?]; [|done]. by apply branch_combined.
    + destruct Hcan as [Hcan|?]; [|done]. by apply branch_combined.
  - destruct comm; try done; eval_decide; cbn [mbind option_bind andb negb]; eval_decide; cbn [andb mbind option_bind].
    + destruct (Hplain NREAD_ADD (set_stale c) false) as (w2 & E & Hb); try done. injection E as ->. eexists _, _, _, _, w2. by split.
    + destruct (Hplain NREAD_SET (set_stale c) false) as (w2 & E & Hb); try done. injection E as ->. eexists _, _, _, _, w2. by split.
    + eexists _, _, _, _, w. split; [done|]. split; [by apply Hnone|done].
    + eexists _, _, _, _, w. split; [done|]. split; [by apply Hnone|done].
    + eexists _, _, _, _, w. split; [done|]. split; [by apply Hnone|done].
Qed.

(** The fetch changes nothing but one reference count. *)
Lemma at_incr x y s : exists r, item_at (refcount_incr x s) y = set_refcount r (item_at s y).
Proof.
  unfold item_at, refcount_incr, upd_item, get. cbn [mem with_mem]. destruct (decide (x = y)) as [-> |Hne].
  - rewrite lookup_alter_eq. destruct (mem s !! y) as [it|]; cbn; [by eexists|by exists 0].
  - rewrite lookup_alter_ne by done. destruct (mem s !! y) as [it|]; cbn; [|by exists 0]. exists (refcount it). by destruct it.
Qed.
Lemma same_incr {A} (f : item -> A) x y s : (forall r i, f (set_refcount r i) = f i) -> f (item_at (refcount_incr x s) y) = f (item_at s y).
Proof. intros Hf. destruct (at_incr x y s) as [r ->]. apply Hf. Qed.

(** The state after the fetch. *)
Lemma fetched w it key : hist w -> few 16 w -> 0 < held w it -> is_linked w it = false -> key = key_of w it -> exists w1,
  do_item_get set nchunks None key (hash key) false (wstore w) = Some (current w key, wstore w1) /\
  ready 9 w1 key (current w key) it /\ (forall x, refs w1 x <= refs w x + 2) /\
  (forall x, held w1 x = held w x + if decide (x = current w key /\ current w key <> 0) then 1 else 0) /\
  (forall k, k <> key -> stored w1 k = stored w k) /\ (current w key <> 0 -> wstore w1 = refcount_incr (current w key) (wstore w)) /\
  same_payload w w1 it.
Proof.
  intros Hw Hf Hit Hl ->. destruct (step_get w (key_of w it) Hw (few_le 16 3 w ltac:(lia) Hf)) as (w1 & E & Hw1 & Hh & Hs & Hst & Hr & Hp).
  pose proof (held_refs_pos _ _ Hit) as Hri. pose proof (Hp it Hri) as Hpi.
  exists w1. split_and!; try done; [|intros k Hk; by rewrite Hs, decide_False].
  destruct (history_used set hash nchunks Hpage Hrepair w it Hw Hri) as (_ & _ & _ & Hnz).
  split; try done.
  - intros x. specialize (Hf x). specialize (Hr x). lia.
  - rewrite Hh. destruct (decide _); lia.
  - by apply same_key.
  - unfold current. rewrite (linked_stored w it Hw Hri) in Hl. apply bool_decide_eq_false in Hl. case_if; congruence.
  - by rewrite Hs, decide_True.
  - intros H0. pose proof (history_held set hash nchunks Hpage Hrepair w (current w (key_of w it)) Hw). rewrite Hh, decide_True by done. lia.
Qed.

Lemma can_combine_fetched a w w1 key old it : (old <> 0 -> wstore w1 = refcount_incr old (wstore w)) -> same_payload w w1 it ->
  can_combine a w key old it -> can_combine a w1 key old it.
Proof.
  intros E Hp [H1 H2 H3 H4 H5]. pose proof (fun y => same_incr nbytes old y (wstore w) ltac:(done)) as Hn.
  pose proof (fun y => same_incr FLAGS_CONV old y (wstore w) ltac:(done)) as Hf. split; try done.
  - by injection Hp as _ -> _ _.
  - intros H0. rewrite E, Hn by done. by apply H4.
  - intros H0. rewrite E, !Hn, Hf by done. by apply H5.
Qed.

Lemma decision_incr comm stale old it s : decision comm stale (negb (old =? 0)) (item_at (refcount_incr old s) it) (item_at (refcount_incr old s) old) =
  decision comm stale (negb (old =? 0)) (item_at s it) (item_at s old).
Proof. pose proof (fun y => same_incr ITEM_get_cas old y s ltac:(done)) as Hc. unfold decision. by rewrite !Hc. Qed.
Lemma decision_absent comm stale i j i' j' : decision comm stale false i j = decision comm stale false i' j'.
Proof. by destruct comm. Qed.

(** The references the code has taken are given back. *)
Lemma released w1 w2 a comm stale key old it new res y : branched a w1 w2 comm stale key old it new res y -> ready 9 w1 key old it -> few 14 w1 ->
  exists w', wstore w' = (let s := if old =? 0 then wstore w2 else do_item_remove nchunks old (wstore w2) in
                          if new =? 0 then s else do_item_remove nchunks new s) /\ hist w' /\
  (forall x, held w' x = held w1 x - if decide (x = old /\ old <> 0) then 1 else 0) /\ (forall k, stored w' k = stored w2 k) /\
  (forall x, refs w' x <= refs w1 x + 12) /\
  (res = STORED -> value (item_at (wstore w') y) = value (item_at (wstore w2) y)).
Proof.
  intros Hb Hrd Hf. pose proof (bd_held _ _ _ _ _ _ _ _ _ _ _ Hb) as Hh. pose proof (bd_refs _ _ _ _ _ _ _ _ _ _ _ Hb) as Hr.
  assert (few 6 w2) as Hf2 by (intros x; specialize (Hf x); specialize (Hr x); lia).
  assert (forall x, 0 <= held w1 x) as Hpos by (intros x; apply (history_held set hash nchunks Hpage Hrepair), (rd_hist _ _ _ _ _ Hrd)).
  destruct (step_drop w2 old (bd_hist _ _ _ _ _ _ _ _ _ _ _ Hb) (few_le 6 3 w2 ltac:(lia) Hf2)) as (w3 & E3 & Hw3 & Hh3 & Hs3 & Hr3 & Hp3).
  { intros H0. rewrite Hh. pose proof (rd_old _ _ _ _ _ Hrd H0). destruct (decide _); lia. }
  assert (forall x, new = x -> new <> 0 -> 0 < held w3 x) as Hnew.
  { intros x <- H0. rewrite Hh3, Hh, (decide_True (P := new = new /\ _)) by done. specialize (Hpos new).
    destruct (decide (new = old /\ _)) as [[-> Ho]|]; [|lia]. pose proof (rd_old _ _ _ _ _ Hrd Ho). lia. }
  destruct (step_drop w3 new Hw3) as (w' & E' & Hw' & Hh' & Hs' & Hr' & Hp').
  { intros x. specialize (Hf2 x). specialize (Hr3 x). lia. }
  { by apply Hnew. }
  exists w'. split_and!; try done.
  - by rewrite E', E3.
  - intros x. rewrite Hh', Hh3, Hh. repeat destruct (decide _); lia.
  - intros k. by rewrite Hs', Hs3.
  - intros x. specialize (Hr x). specialize (Hr3 x). specialize (Hr' x). lia.
  - intros Hst. destruct (bd_item _ _ _ _ _ _ _ _ _ _ _ Hb Hst) as (Hy & Hyn & _).
    assert (0 < held w3 y) as Hy3.
    { destruct (combines comm).
      - subst y. destruct (Z.eq_dec new 0) as [E0|E0]; [|by apply Hnew].
        destruct (history_used set hash nchunks Hpage Hrepair w2 new (bd_hist _ _ _ _ _ _ _ _ _ _ _ Hb) (held_refs_pos _ _ Hy)) as (_ & _ & _ & ?). done.
      - subst y. rewrite Hh3, Hh. rewrite (decide_False (P := it = old /\ _)) by (intros [? _]; by destruct (rd_new _ _ _ _ _ Hrd)).
        pose proof (rd_it _ _ _ _ _ Hrd). destruct (decide _); lia. }
    rewrite (same_value w3 w' y), (same_value w2 w3 y); [done|by apply Hp3, held_refs_pos|by apply Hp', held_refs_pos].
Qed.

(** ** Arithmetic on values *)

(** The answer to incr and decr for the item found, given enough memory. *)
Definition delta_answer (cas : option Z) (i : item) : delta_result_type :=
  if (nbytes i <=? 2) || has_flag ITEM_CHUNKED i then NON_NUMERIC
  else if match cas with Some v => negb (v =? 0) && negb (ITEM_get_cas i =? v) | None => false end then DELTA_ITEM_CAS_MISMATCH
  else if (safe_strtoull (idata i)).1 then OK else NON_NUMERIC.

Lemma delta_value_range incr d v : 0 <= delta_value incr d v < 2 ^ 64.
Proof. unfold delta_value, u64, wrap. repeat case_if; try lia; apply Z.mod_pos_bound; lia. Qed.

(** A parsed number has 64 bits. *)
Lemma strtoull_range str : 0 <= (safe_strtoull str).2 < 2 ^ 64.
Proof.
  unfold safe_strtoull, safe_strtoull_base, strtoull. destruct (scan_number 10 str) as [[[neg ds] rest]|]; [|cbn; lia].
  assert (forall ds acc, 0 <= acc -> 0 <= fold_left (fun v c => v * 10 + digit_val c) ds acc) as Hnn.
  { clear. induction ds as [|c ds IH]; intros acc Hacc; [done|]. cbn [fold_left]. apply IH.
    assert (0 <= digit_val c); [|lia]. unfold digit_val, isdigit, isupper, islower. repeat case_if; zbool; lia. }
  specialize (Hnn ds 0 ltac:(lia)). fold (value_of 10 ds) in Hnn. case_if; [cbn; lia|zbool].
  assert (0 <= (if neg then u64 (- value_of 10 ds) else value_of 10 ds) < 2 ^ 64).
  { case_if; [apply Z.mod_pos_bound; lia|lia]. }
  repeat (case_if; cbn [snd]; try lia).
Qed.

(** Addition modulo 2^64; subtraction down to 0. *)
Definition counted (incr : bool) (delta v : Z) : Z := if incr then (v + delta) mod 2 ^ 64 else Z.max 0 (v - delta mod 2 ^ 64).
Lemma delta_value_counted incr delta v : 0 <= v < 2 ^ 64 -> delta_value incr delta v = counted incr delta v.
Proof.
  intros Hv. unfold delta_value, counted. destruct incr; [done|]. unfold u64, wrap.
  pose proof (Z.mod_pos_bound delta (2 ^ 64) ltac:(lia)) as Hd. destruct (Z.ltb_spec v (delta mod 2 ^ 64)) as [H|H]; [lia|].
  rewrite <- Zminus_mod_idemp_r, Z.mod_small by lia. lia.
Qed.

Lemma delta_text_decimal v : 0 <= v < 2 ^ 64 -> delta_text v = decimal v.
Proof.
  intros Hv. unfold delta_text. rewrite itoa_u64_spec by (done || (unfold room; cbn; lia)).
  unfold terminate, put. cbn [fst snd]. rewrite (write_write_next 0) by lia. unfold write at 1. cbn [take Nat.add app].
  rewrite <- app_assoc. cbn [app]. apply c_str_app. eapply Forall_impl; [apply dpad_digits|]. cbn. intros c Hc%isdigit_range. lia.
Qed.
Lemma length_delta_text v : 0 <= v < 2 ^ 64 -> (0 < length (delta_text v) <= 20)%nat.
Proof. intros Hv. rewrite delta_text_decimal by done. apply length_decimal; lia. Qed.

(** A write inside the data area. *)
Lemma data_write n off bs d : (off <= length d)%nat -> (off + length bs <= n)%nat ->
  take n (write off bs d ++ replicate n 0) = write off bs (take n (d ++ replicate n 0)).
Proof.
  intros Ho Hn. unfold write. rewrite take_take, Nat.min_l, (take_app_le d) by lia.
  rewrite <- !app_assoc. rewrite take_app_ge by (rewrite length_take; lia). rewrite length_take, Nat.min_l by lia. f_equal.
  rewrite take_app_ge by lia. f_equal. rewrite skipn_firstn_comm. rewrite drop_app.
  rewrite Nat.sub_add_distr.
  destruct (decide (off + length bs <= length d)%nat) as [Hl|Hl].
  - replace (off + length bs - length d)%nat with 0%nat by lia. rewrite drop_0. done.
  - rewrite (drop_ge d) by lia. cbn [app]. rewrite drop_replicate, !take_replicate. f_equal. lia.
Qed.

Lemma in_place_value i text u : value i = u ++ [13; 10] -> Z.of_nat (length text) + 2 <= nbytes i ->
  value (set_data (delta_in_place i text) i) = text ++ replicate (Z.to_nat (nbytes i - Z.of_nat (length text) - 2)) 32 ++ [13; 10].
Proof.
  intros Hv Hn. pose proof (length_data_bytes (nbytes i) i) as Hlen. fold (value i) in Hlen. rewrite Hv, length_app in Hlen. cbn [length] in Hlen.
  unfold value, data_bytes, delta_in_place. cbn [nbytes idata set_data]. rewrite data_write.
  - rewrite data_write by lia. fold (data_bytes (nbytes i) i). fold (value i). rewrite Hv.
    change (length text) with (0 + length text)%nat at 1. rewrite write_write_next by lia. unfold write. cbn [take app Nat.add].
    rewrite <- app_assoc. rewrite take_0. cbn [app]. f_equal. f_equal. rewrite drop_app_ge by (rewrite length_app, length_replicate; lia).
    rewrite length_app, length_replicate. replace (_ - _)%nat with 0%nat by lia. done.
  - unfold write. rewrite !length_app. lia.
  - rewrite length_replicate. lia.
Qed.
Lemma replaced_value i text : nbytes i = Z.of_nat (length text) + 2 ->
  value (set_data (write (length text) [13; 10] (write 0 text (idata i))) i) = text ++ [13; 10].
Proof.
  intros Hn. unfold value, data_bytes. cbn [nbytes idata set_data].
  change (length text) with (0 + length text)%nat at 1. rewrite write_write_next by lia. rewrite data_write by (rewrite ?length_app; cbn [length]; lia).
  unfold write. cbn [take app Nat.add]. rewrite drop_ge, app_nil_r; [done|]. rewrite length_take, length_app, length_replicate, length_app. cbn [length]. lia.
Qed.

Lemma payload_rewrite x v s i : mem s !! x = Some i -> payload (item_at (rewrite_item set x v s) x) = payload (set_data v i).
Proof.
  intros Hi. unfold rewrite_item.
  assert (forall d s, mem (sizes_change set d x s) = mem s) as Hs.
  { intros d s0. unfold sizes_change. destruct (sizes_hist s0); [|done]. by repeat case_if. }
  destruct (if _ && use_cas set then _ else _) as [cas s1] eqn:E.
  assert (mem s1 !! x = Some i) as H1.
  { destruct (_ && use_cas set); injection E as <- <-; [|by unfold item_stats_sizes_remove; rewrite Hs].
    change (mem (item_stats_sizes_remove set x s) !! x = Some i). unfold item_stats_sizes_remove. by rewrite Hs. }
  unfold item_at, upd_item, get. cbn [mem with_mem]. rewrite lookup_alter_eq. unfold item_stats_sizes_add. rewrite Hs. cbn [mem with_mem].
  rewrite lookup_alter_eq, H1. cbn. unfold payload, ITEM_set_cas. by case_if.
Qed.

Lemma step_rewrite w x v : hist w -> few 3 w -> 0 < held w x -> refs w x = 1 ->
  let w1 := keep (rewrite_item set x v (wstore w)) w in
  hist w1 /\ (forall k, stored w1 k = stored w k) /\ (forall z, refs w1 z <= refs w z + 2) /\
  payload (item_at (wstore w1) x) = payload (set_data v (item_at (wstore w) x)).
Proof.
  intros Hw Hf Hx Hr w1.
  destruct (history_next set hash nchunks Hpage Hrepair (OpRewrite x v) w Hw) as (r & w2 & E & Hw2 & _ & Hn & Hs & Hr2); [by split|].
  cbn [exec] in E. injection E as <- <-. split_and!; try done.
  destruct (history_used set hash nchunks Hpage Hrepair w x Hw ltac:(lia)) as (i & Hi & -> & _). by apply payload_rewrite.
Qed.

(** An item under change: the key leads to it and it is held. *)
Record found (n : Z) (w : world) (key : list Z) (it : Z) : Prop := {
  fd_hist : hist w;
  fd_few : few n w;
  fd_it : 0 < held w it;
  fd_stored : stored w key = it
}.
Lemma found_linked n w key it : found n w key it -> is_linked w it = true /\ key_of w it = key /\ it <> 0 /\
  refcount (item_at (wstore w) it) = refs w it + 1.
Proof.
  intros [Hw _ Hi Hs]. pose proof (held_refs_pos _ _ Hi) as Hr.
  destruct (history_used set hash nchunks Hpage Hrepair w it Hw Hr) as (_ & _ & _ & H0).
  destruct (item_facts set hash nchunks Hpage Hrepair w it Hw H0 (or_introl Hr)) as (Hrc & _ & _ & Hk).
  destruct (proj1 (Hk key) Hs) as [Hl ->]. rewrite Hl in Hrc. done.
Qed.
Lemma release_one w it : hist w -> few 3 w -> 0 < held w it -> exists w', wstore w' = do_item_remove nchunks it (wstore w) /\ hist w' /\
  (forall x, held w' x = held w x - if decide (x = it) then 1 else 0) /\ (forall k, stored w' k = stored w k) /\
  (forall x, refs w' x <= refs w x + 2) /\ (forall x, is_Some (mem (wstore w) !! x) -> is_Some (mem (wstore w') !! x) /\ same_payload w w' x).
Proof.
  intros Hw Hf Hi. destruct (step_release w it Hw Hf Hi) as (H1 & H2 & H3 & H4).
  exists (drop_ref it (do_item_remove nchunks it (wstore w)) w). split_and!; try done.
  - intros x. cbn [drop_ref held]. unfold set_ref. destruct (decide (x = it)) as [-> |]; lia.
  - intros x [i Hx]. destruct (spays_remove (R := pays_item) nchunks it _ (wstore w) (pays_refl _) x i Hx) as (i' & Hi' & Hp).
    split; [by exists i'|]. unfold same_payload, item_at. cbn [drop_ref wstore]. by rewrite (get_Some _ _ _ Hx), (get_Some _ _ _ Hi').
Qed.

(** The value is replaced where it is. *)
Lemma delta_place w key it text u : found 9 w key it -> refcount (item_at (wstore w) it) = 2 ->
  value (item_at (wstore w) it) = u ++ [13; 10] -> Z.of_nat (length text) + 2 <= nbytes (item_at (wstore w) it) -> exists w',
  wstore w' = do_item_update set it (rewrite_item set it (delta_in_place (item_at (wstore w) it) text) (wstore w)) /\
  found 5 w' key it /\ (forall x, held w' x = held w x) /\ (forall k, stored w' k = stored w k) /\
  value (item_at (wstore w') it) = text ++ replicate (Z.to_nat (nbytes (item_at (wstore w) it) - Z.of_nat (length text) - 2)) 32 ++ [13; 10].
Proof.
  intros H Hrc Hv Hn. destruct (found_linked _ _ _ _ H) as (_ & _ & _ & Hr). pose proof H as [Hw Hf Hi Hs].
  destruct (step_rewrite w it (delta_in_place (item_at (wstore w) it) text) Hw (few_le 9 3 w ltac:(lia) Hf) Hi ltac:(lia)) as (H1 & H2 & H3 & H4).
  set (w2 := keep _ w) in *.
  destruct (step_update w2 it H1) as (H5 & H6 & H7 & H8); [by apply (few_next 3 w w2 ltac:(by apply (few_le 9)))|done|].
  set (w3 := keep _ w2) in *. exists w3. split_and!; try done.
  - split; try done; [|by rewrite H6, H2]. intros x. specialize (Hf x). specialize (H3 x). specialize (H7 x). lia.
  - intros k. by rewrite H6, H2.
  - rewrite (same_value w2 w3 it (H8 it (held_refs_pos w2 it Hi))). rewrite <- (in_place_value _ text u Hv Hn).
    by apply value_payload.
Qed.

(** What incr and decr ask of their surroundings: the C library behaves, this thread holds
    the lock of the key, and a number fits into one chunk. *)
Record can_count (a : alloc_env) (w : world) (key : list Z) (it : Z) : Prop := {
  cn_alloc : forall i sl id, alloc_ok (slab_set set) (a_es a i sl) sl id;
  cn_lock : a_trylock a (hash key) = false;
  cn_size : forall n, 0 <= n <= 22 -> alloc_size set key (FLAGS_CONV (item_at (wstore w) it)) n <= slab_chunk_size_max (slab_set set)
}.

(** The allocation of the new item fails. *)
Definition no_room (a : alloc_env) (s : server) (it : Z) (text : list Z) : Prop := exists s',
  do_item_alloc set hash nchunks (a_es a) (a_trylock a) (a_locked a) (ikey (item_at s it)) (FLAGS_CONV (item_at s it))
    (exptime (item_at s it)) (Z.of_nat (length text) + 2) s = Some (0, s').

(** The value goes to a new item. *)
Lemma delta_new a w key it text : found 14 w key it -> can_count a w key it -> (length text <= 20)%nat -> exists ok w',
  delta_replace set hash nchunks a it text (hash key) (wstore w) = Some (ok, wstore w') /\ hist w' /\ few 3 w' /\
  (forall x, held w' x = held w x) /\ (forall k, k <> key -> stored w' k = stored w k \/ stored w' k = 0) /\
  (ok = false -> stored w' key = it /\ no_room a (wstore w) it text) /\
  (ok = true -> stored w' key <> 0 /\ is_Some (mem (wstore w') !! stored w' key) /\ value (item_at (wstore w') (stored w' key)) = text ++ [13; 10]).
Proof.
  intros H [Ha Ht Hsz] Hlen. destruct (found_linked _ _ _ _ H) as (Hl & Hk & H0 & _). pose proof H as [Hw Hf Hi Hs].
  unfold delta_replace. cbn zeta.
  destruct (step_alloc a (ikey (item_at (wstore w) it)) (FLAGS_CONV (item_at (wstore w) it)) (exptime (item_at (wstore w) it)) (Z.of_nat (length text) + 2) w Hw
    (few_le 14 3 w ltac:(lia) Hf) Ha) as (new & wa & E & Hwa & Hha & Hsa & Hoa & Hra & Hpa).
  { change (ikey (item_at (wstore w) it)) with (key_of w it). rewrite Hk. apply Hsz. lia. }
  rewrite E. cbn [mbind option_bind]. destruct (Z.eqb_spec new 0) as [-> |Hnew].
  { exists false, wa. split_and!; try done.
    - intros x. specialize (Hf x). specialize (Hra x). lia.
    - intros x. rewrite Hha, decide_False by (intros [_ ?]; done). lia.
    - intros k _. apply Hsa.
    - intros _. split; [by rewrite (proj2 (Hsa key) Ht)|]. by exists (wstore wa). }
  destruct (Hoa Hnew) as (Hr0 & Hns & Hkn & _ & Hnb & _ & _).
  pose proof (history_held set hash nchunks Hpage Hrepair w new Hw) as Hh0.
  assert (0 < held wa new) as Hhn by (rewrite Hha, decide_True by done; lia).
  assert (is_linked wa new = false) as Hun.
  { rewrite (linked_stored wa new Hwa (held_refs_pos _ _ Hhn)). by apply bool_decide_eq_false_2. }
  assert (few 12 wa) as Hfa by (intros x; specialize (Hf x); specialize (Hra x); lia).
  destruct (step_write wa new (write (length text) [13; 10] (write 0 text (idata (item_at (wstore wa) new)))) Hwa
    (few_le 12 3 wa ltac:(lia) Hfa) Hhn Hun) as (Hwb & Hsb & Hrb & Hpb & Hat).
  set (wb := keep _ wa) in *.
  assert (ready 10 wb key it new) as Hrd.
  { split; try done.
    - intros x. specialize (Hfa x). specialize (Hrb x). lia.
    - unfold key_of. rewrite Hat. cbn [ikey set_data]. rewrite <- Hk. exact Hkn.
    - intros ->. apply held_refs_pos in Hi. lia.
    - by rewrite Hsb, (proj2 (Hsa key) Ht).
    - intros _. cbn [wb keep held]. rewrite Hha. destruct (decide _); lia. }
  destruct (put_ready 10 wb key it new ltac:(lia) Hrd H0) as (wc & Ec & Kc & Sc). cbn [wb keep wstore] in Ec. rewrite Ec. cbn [mbind option_bind].
  pose proof (kept_few 2 8 wb wc Kc (rd_few _ _ _ _ _ Hrd)) as Hfc. pose proof (kp_held _ _ _ Kc) as Hhc.
  destruct (step_header wc it (ITEM_set_cas (if use_cas set then ITEM_get_cas (item_at (wstore wc) new) else 0)) (kp_hist _ _ _ Kc)
    (few_le 8 3 wc ltac:(lia) Hfc)) as (Hwd & Hsd & Hrd' & Hpd).
  { rewrite Hhc. by apply (rd_old _ _ _ _ _ Hrd). }
  { apply keeps_set_cas. }
  { intros i. unfold ITEM_set_cas. by case_if. }
  set (wd := keep _ wc) in *. assert (0 < held wd new) as Hnd by (cbn [wd keep held]; by rewrite Hhc).
  destruct (release_one wd new Hwd) as (we & Ee & Hwe & Hhe & Hse & Hre & Hpe); [|done|].
  { intros x. specialize (Hfc x). specialize (Hrd' x). lia. }
  assert (forall k, stored we k = if decide (k = key) then new else stored wa k) as Hst by (intros k; by rewrite Hse, Hsd, Sc, Hsb).
  exists true, we. split; [by rewrite Ee|]. split_and!; try done.
  - intros x. specialize (Hfc x). specialize (Hrd' x). specialize (Hre x). lia.
  - intros x. rewrite Hhe. cbn [wd keep held]. rewrite Hhc. cbn [wb keep held]. rewrite Hha. repeat destruct (decide _); naive_solver lia.
  - intros k Hne. rewrite Hst, decide_False by done. apply Hsa.
  - intros _. rewrite Hst, decide_True by done. destruct (history_used set hash nchunks Hpage Hrepair wd new Hwd (held_refs_pos _ _ Hnd)) as (i & Hi' & _).
    destruct (Hpe new ltac:(by exists i)) as [He Hp]. split_and!; try done.
    rewrite (same_value wd we new Hp), (same_value wc wd new), (same_value wb wc new), Hat; [by apply replaced_value|by apply (kp_pay _ _ _ Kc)|].
    apply Hpd, held_refs_pos. by rewrite Hhc.
Qed.

(** The value is a number: in place, in a new item, or no memory. *)
Lemma delta_count a w key it text cas c u : found 14 w key it -> can_count a w key it -> value (item_at (wstore w) it) = u ++ [13; 10] ->
  (length text <= 20)%nat ->
  let i := item_at (wstore w) it in
  let finish s := Some (OK, text, match cas : option Z with Some _ => Some (ITEM_get_cas (item_at s it)) | None => None end, c : conn, do_item_remove nchunks it s) in
  exists res cas' w',
  (if (Z.of_nat (length text) + 2 <=? nbytes i) && (refcount i =? 2) then
     finish (do_item_update set it (rewrite_item set it (delta_in_place i text) (wstore w)))
   else if 1 <? refcount i then
     '(ok, s) ← delta_replace set hash nchunks a it text (hash key) (wstore w);
     if ok : bool then finish s else Some (EOM, text, cas, c, do_item_remove nchunks it s)
   else Some (DELTA_ITEM_NOT_FOUND, text, cas, c, if refcount i =? 1 then do_item_remove nchunks it (wstore w) else wstore w))
    = Some (res, text, cas', c, wstore w') /\
  hist w' /\ (forall x, held w' x = held w x - if decide (x = it) then 1 else 0) /\
  (res = OK \/ res = EOM /\ no_room a (wstore w) it text) /\ (forall k, k <> key -> stored w' k = stored w k \/ stored w' k = 0) /\
  (res <> OK -> stored w' key = it) /\
  (res = OK -> stored w' key <> 0 /\ exists n, value (item_at (wstore w') (stored w' key)) = text ++ replicate n 32 ++ [13; 10]).
Proof.
  intros H Hcan Hu Hlen i finish. destruct (found_linked _ _ _ _ H) as (_ & _ & H0 & Hrc). pose proof H as [Hw Hf Hi Hs].
  pose proof (held_refs_pos _ _ Hi) as Hri. fold i in Hrc.
  destruct (_ && (refcount i =? 2)) eqn:Eb.
  - apply andb_true_iff in Eb as [E1 E2]. apply Z.leb_le in E1. apply Z.eqb_eq in E2.
    destruct (delta_place w key it text u) as (w2 & Ew2 & [Hw2 Hf2 Hi2 Hs2] & Hh2 & Hk2 & Hv); try done.
    { split; try done. by apply (few_le 14). }
    destruct (release_one w2 it Hw2 (few_le 5 3 w2 ltac:(lia) Hf2) Hi2) as (w3 & Ew3 & Hw3 & Hh3 & Hk3 & _ & Hp3).
    eexists OK, _, w3. unfold finish. fold i in Ew2. rewrite <- Ew2, <- Ew3. split_and!; try done; [|by left|..].
    + intros x. by rewrite Hh3, Hh2.
    + intros k _. left. by rewrite Hk3, Hk2.
    + intros _. rewrite Hk3, Hs2. split; [done|]. eexists. rewrite (same_value w2 w3 it), Hv; [done|]. apply Hp3.
      destruct (history_used set hash nchunks Hpage Hrepair w2 it Hw2 (held_refs_pos _ _ Hi2)) as (? & ? & _). by eexists.
  - rewrite (proj2 (Z.ltb_lt 1 (refcount i))) by lia.
    destruct (delta_new a w key it text H Hcan Hlen) as (ok & w2 & -> & Hw2 & Hf2 & Hh2 & Hk2 & Hno & Hok). cbn [mbind option_bind].
    destruct (release_one w2 it Hw2 Hf2 ltac:(by rewrite Hh2)) as (w3 & Ew3 & Hw3 & Hh3 & Hk3 & _ & Hp3).
    exists (if ok then OK else EOM). unfold finish. rewrite <- Ew3. eexists (if ok then _ else _), w3.
    split; [destruct ok; reflexivity|]. split_and!; try done.
    + intros x. by rewrite Hh3, Hh2.
    + destruct ok; [by left|right; split; [done|by apply Hno]].
    + intros k Hk. rewrite Hk3. by apply Hk2.
    + intros Hr. rewrite Hk3. destruct ok; [done|by apply Hno].
    + intros Hr. destruct ok; [|done]. destruct (Hok eq_refl) as (Hn & Hsome & Hv). rewrite Hk3. split; [done|]. exists 0%nat.
      rewrite (same_value w2 w3 _ (proj2 (Hp3 _ Hsome))). exact Hv.
Qed.

Lemma can_count_incr a w w1 key it : wstore w1 = refcount_incr it (wstore w) -> can_count a w key it -> can_count a w1 key it.
Proof. intros E [H1 H2 H3]. split; try done. intros n Hn. rewrite E, (same_incr FLAGS_CONV) by done. by apply H3. Qed.
End semantics.

(** The contract of [do_store_item]: [w] is the world before, [w'] the one after, [y] the
    item that is stored. *)
Definition store_contract (set : item_settings) (hash : list Z -> Z) (nchunks : nat) (a : alloc_env) (w : world) (it : Z) (comm : nread) (c : conn)
    (res : store_item_type) (c' : conn) (w' : world) (y : Z) : Prop :=
  let key := key_of w it in
  let old := current set hash w key in
  let I := item_at (wstore w) it in
  let O := item_at (wstore w) old in
  history set hash nchunks w' /\ (forall x, held w' x = held w x) /\ (forall x, refs w' x <= refs w x + 14) /\
  (res = decision comm (set_stale c) (negb (old =? 0)) I O \/
   res = NOT_STORED /\ combines comm = true /\ old <> 0 /\ no_memory set hash nchunks a (refcount_incr old (wstore w)) key old it) /\
  stored hash w' key = (if decide (res = STORED) then y else old) /\
  (forall k, k <> key -> stored hash w' k = stored hash w k \/ combines comm = true /\ stored hash w' k = 0) /\
  (res = STORED -> y <> 0 /\ (combines comm = false -> y = it) /\ c_cas c' = ITEM_get_cas (item_at (wstore w') y) /\
     value (item_at (wstore w') y) = if combines comm then combined comm (value O) (value I) else value I) /\
  (res <> STORED -> c_cas c' = c_cas c).

Lemma store_item_ok set hash (Hhash : KeyHash hash) nchunks (Hpage : 0 < slab_page_size (slab_set set) < 2 ^ 31)
    (Hrepair : tail_repair_time set = 0) copy_chunks a w it comm c :
  let key := key_of w it in
  history set hash nchunks w -> few 16 w -> 0 < held w it -> is_linked w it = false ->
  can_combine set hash a w key (current set hash w key) it \/ combines comm = false ->
  exists res c' w' y,
    do_store_item set hash nchunks copy_chunks a it comm (hash key) c (wstore w) = Some (res, c', wstore w') /\
    store_contract set hash nchunks a w it comm c res c' w' y.
Proof.
  intros key Hw Hf Hit Hl Hcan. set (old := current set hash w key) in *.
  destruct (fetched set hash nchunks Hpage Hrepair w it key Hw Hf Hit Hl eq_refl) as (w1 & E1 & Hrd & Hr1 & Hh1 & Ho1 & Hst1 & Hp1).
  fold old in E1, Hrd, Hh1, Hst1.
  destruct (count_get_conn set key (hash key) (wstore w) c) as [Hcc Hcs].
  destruct (branch_ok set hash nchunks Hpage Hrepair a copy_chunks comm w1 key old it (count_get set key (hash key) (wstore w) c) Hrd) as (res & y & new & c' & w2 & E2 & Hb & Hc).
  { destruct Hcan as [Hcan|?]; [left|by right]. by apply (can_combine_fetched set hash a w). }
  rewrite Hcc in Hc. rewrite Hcs in Hb.
  destruct (released set hash nchunks Hpage Hrepair w1 w2 a comm _ key old it new res y Hb Hrd) as (w' & E3 & Hw' & Hh3 & Hs3 & Hr3 & Hv3).
  { intros x. specialize (Hf x). specialize (Hr1 x). lia. }
  exists res, (if bool_decide (res = STORED) then set_c_cas (ITEM_get_cas (item_at (wstore w') y)) c' else c'), w', y. unfold store_contract. cbn zeta. fold key. fold old. split_and!; try done.
  - unfold do_store_item. change (ikey (item_at (wstore w) it)) with key. cbn zeta. rewrite E1. cbn [mbind option_bind]. rewrite E2. cbn [mbind option_bind].
    cbn zeta in E3. by rewrite <- E3.
  - intros x. rewrite Hh3, Hh1. destruct (decide _); lia.
  - intros x. specialize (Hr1 x). specialize (Hr3 x). lia.
  - destruct (bd_res _ _ _ _ _ _ _ _ _ _ _ _ _ _ Hb) as [Hres|(Hres & Hcm & H0 & Hm)].
    + left. rewrite Hres. destruct (Z.eqb_spec old 0) as [H0|H0]; [apply decision_absent|].
      rewrite (Hst1 H0). pose proof (decision_incr comm (set_stale c) old it (wstore w)) as Hd. by rewrite (proj2 (Z.eqb_neq old 0) H0) in Hd.
    + right. split_and!; try done. by rewrite <- (Hst1 H0).
  - rewrite Hs3. apply (bd_key _ _ _ _ _ _ _ _ _ _ _ _ _ _ Hb).
  - intros k Hk. rewrite Hs3, <- (Ho1 k Hk). by apply (bd_other _ _ _ _ _ _ _ _ _ _ _ _ _ _ Hb).
  - intros Hres. destruct (bd_item _ _ _ _ _ _ _ _ _ _ _ _ _ _ Hb Hres) as (Hhy & Hy & Hv). rewrite bool_decide_eq_true_2 by done.
    destruct (history_used set hash nchunks Hpage Hrepair w2 y (bd_hist _ _ _ _ _ _ _ _ _ _ _ _ _ _ Hb) (held_refs_pos _ _ Hhy)) as (_ & _ & _ & Hy0).
    split_and!; [done|intros Hcm; by rewrite Hcm in Hy|done|]. rewrite (Hv3 Hres), Hv. destruct (combines comm) eqn:Hcm; [|by apply same_value].
    rewrite (same_value w w1 it Hp1). f_equal. destruct (Z.eq_dec old 0) as [H0|H0]; [|rewrite (Hst1 H0); by apply (same_incr value)].
    exfalso. destruct (bd_res _ _ _ _ _ _ _ _ _ _ _ _ _ _ Hb) as [Hd|[? _]]; [|congruence]. rewrite H0, Hres in Hd.
    unfold combines in Hcm. by destruct comm.
  - intros Hres. rewrite bool_decide_eq_false_2 by done. by apply Hc.
Qed.


Lemma few_of n k w : (forall x, held w x <= k) -> Z.of_nat (length (concat (bumps (wstore w)))) + k + n < 2 ^ 16 -> few n w.
Proof.
  intros Hh Hb x. specialize (Hh x). unfold refs, bump_refs.
  pose proof (length_filter (fun e : Z * Z => e.1 = x) (concat (bumps (wstore w)))). lia.
Qed.

Module StoreExample.
Import HistoryExample.
(** "xyz" is stored under "A" and held by a reader; a client sends "abc". *)
Definition w7 := run (OpWrite w6.1 [97; 98; 99; 13; 10]) w6.2.
Definition env : alloc_env := {| a_es := fun _ sl => fresh_env sl; a_trylock := fun _ => false; a_locked := false |}.
Definition c0 : conn := {| c_cas := 0; set_stale := false; tstats := fun _ => 0 |}.
(** Values of several chunks do not occur. *)
Definition no_chunks (_ : nread) (_ _ _ : Z) (_ : server) : option server := None.

Lemma held7 : history set sum_hash 0 w7.2.
Proof. apply (next (OpWrite w6.1 _)); [exact h6|]. split; [small b6|]. split; vm_compute; reflexivity. Qed.
Lemma few7 : McStore.few 16 w7.2.
Proof. apply (few_of 16 7); [exact (held_run (OpWrite w6.1 [97; 98; 99; 13; 10]) w6.2 6 b6)|vm_compute; reflexivity]. Qed.
Lemma combine7 : can_combine set sum_hash env w7.2 (key_of w7.2 w6.1) (current set sum_hash w7.2 (key_of w7.2 w6.1)) w6.1.
Proof.
  split.
  - intros i sl id. apply fresh_env_ok.
  - done.
  - vm_compute. discriminate.
  - intros _. vm_compute. discriminate.
  - intros _. vm_compute. discriminate.
Qed.
End StoreExample.


(** The answers that change nothing. *)
Ltac refused w0 Ew0 :=
  eexists _, _, _, _, w0; split; [by rewrite Ew0|]; split_and!; try done; [by left|intros; left; naive_solver congruence|naive_solver congruence].

(** C13: incr and decr count.  In every history, with the item lock held, [do_add_delta]
    returns without a failure: it answers that there is no item, that its version is not
    the one asked for, or that its value is no number, and changes nothing under the key;
    otherwise it adds modulo 2^64 or subtracts down to 0, replies with the new value in
    decimal and leaves an item under the key with that text, padded with spaces in front of the line end,
    whether the value was changed in place or in a new item; it answers that memory ran
    out only when the allocation failed, and never comes to the branch for an item that
    is not linked.  All references it took are given back. *)
Theorem add_delta_semantics set hash (Hhash : KeyHash hash) nchunks (Hpage : 0 < slab_page_size (slab_set set) < 2 ^ 31)
    (Hrepair : tail_repair_time set = 0) a w key incr delta cas c :
  let it := current set hash w key in
  let I := item_at (wstore w) it in
  history set hash nchunks w -> few 16 w ->
  (it <> 0 -> can_count set hash a w key it /\ exists u, value I = u ++ [13; 10]) ->
  exists res text cas' c' w',
    do_add_delta set hash nchunks a key incr delta cas (hash key) c (wstore w) = Some (res, text, cas', c', wstore w') /\
    history set hash nchunks w' /\ (forall x, held w' x = held w x) /\
    (res = (if it =? 0 then DELTA_ITEM_NOT_FOUND else delta_answer cas I) \/
     res = EOM /\ delta_answer cas I = OK /\ no_room set hash nchunks a (refcount_incr it (wstore w)) it text) /\
    (forall k, k <> key -> stored hash w' k = stored hash w k \/ stored hash w' k = 0) /\
    (res <> OK -> stored hash w' key = it) /\
    (res = OK -> text = decimal (counted incr delta (safe_strtoull (idata I)).2) /\ stored hash w' key <> 0 /\
       exists n, value (item_at (wstore w') (stored hash w' key)) = text ++ replicate n 32 ++ [13; 10]).
Proof.
  intros it I Hw Hf Hit. destruct (step_get set hash nchunks Hpage Hrepair w key Hw (few_le 16 3 w ltac:(lia) Hf))
    as (w1 & E & Hw1 & Hh & Hs & Hst & Hr & _). fold it in E, Hh, Hs, Hst. unfold do_add_delta. cbn zeta. rewrite E. cbn [mbind option_bind].
  generalize (count_get set key (hash key) (wstore w) c) as c1. intros c1.
  assert (forall k, k <> key -> stored hash w1 k = stored hash w k) as Ho by (intros k Hk; by rewrite Hs, decide_False).
  destruct (Z.eqb_spec it 0) as [H0|H0].
  { eexists _, _, _, _, w1. split; [done|]. split_and!; try done; [|by left|intros k Hk; left; by apply Ho|intros _; by rewrite Hs, decide_True].
    intros x. rewrite Hh, decide_False by (intros [_ ?]; done). lia. }
  destruct (Hit H0) as [Hcan [u Hu]]. cbn zeta.
  assert (found set hash nchunks 14 w1 key it) as Hfd.
  { split; try done; [intros x; specialize (Hf x); specialize (Hr x); lia| |by rewrite Hs, decide_True].
    pose proof (history_held set hash nchunks Hpage Hrepair w it Hw). rewrite Hh, decide_True by done. lia. }
  assert (forall x, held w1 x = held w x + if decide (x = it) then 1 else 0) as Hh1.
  { intros x. rewrite Hh. repeat destruct (decide _); naive_solver lia. }
  pose proof Hfd as [_ Hf1 Hi1 Hs1].
  destruct (release_one set hash nchunks Hpage Hrepair w1 it Hw1 (few_le 14 3 w1 ltac:(lia) Hf1) Hi1) as (w0 & Ew0 & Hw0 & Hh0 & Hs0 & _).
  assert (forall x, held w0 x = held w x) as Hh2 by (intros x; rewrite Hh0, Hh1; destruct (decide _); lia).
  specialize (Hst H0).
  assert (nbytes (item_at (wstore w1) it) = nbytes I /\ idata (item_at (wstore w1) it) = idata I /\ value (item_at (wstore w1) it) = value I /\
    has_flag ITEM_CHUNKED (item_at (wstore w1) it) = has_flag ITEM_CHUNKED I /\ ITEM_get_cas (item_at (wstore w1) it) = ITEM_get_cas I) as (Hn & Hd & Hv & Hch & Hcs).
  { rewrite Hst. destruct (at_incr it it (wstore w)) as [r ->]. done. }
  rewrite Hn, Hch, Hcs, Hd. unfold delta_answer in *. destruct (_ || _); [refused w0 Ew0|].
  destruct (match cas with Some _ => _ | None => _ end); [refused w0 Ew0|].
  pose proof (strtoull_range (idata I)) as Hvr. destruct (safe_strtoull (idata I)) as [[] v]; cbn [fst] in *; [|refused w0 Ew0].
  pose proof (delta_value_range incr delta v) as Hrange.
  destruct (delta_count set hash nchunks Hpage Hrepair a w1 key it (delta_text (delta_value incr delta v)) cas
    (count (if incr then incr_hits (ITEM_clsid (item_at (wstore w1) it)) else decr_hits (ITEM_clsid (item_at (wstore w1) it))) c1) u Hfd)
    as (res & cas' & w' & E' & Hw' & Hh' & Hres & Hk' & Hno & Hok).
  { by apply (can_count_incr set hash a w). }
  { by rewrite Hv. }
  { pose proof (length_delta_text _ Hrange). lia. }
  cbn zeta in E'. rewrite Hn in E'. eexists _, _, _, _, w'. split; [exact E'|]. split_and!; try done.
  - intros x. rewrite Hh', Hh1. destruct (decide _); lia.
  - destruct Hres as [-> |[-> Hroom]]; [by left|right]. rewrite Hst in Hroom. done.
  - intros k Hk. rewrite <- Ho by done. by apply Hk'.
  - intros Hr2. split; [|by apply Hok]. cbn [snd]. by rewrite <- delta_value_counted, delta_text_decimal.
Qed.

Module DeltaExample.
Import HistoryExample StoreExample.
(** "99 " is stored under "A". *)
Definition d2 := run (OpWrite w1.1 [57; 57; 32; 13; 10]) w1.2.
Definition d3 := run (OpLink w1.1) d2.2.
Definition d4 := run (OpRelease w1.1) d3.2.
Lemma bd2 : forall x, held d2.2 x <= 2.
Proof. exact (held_run _ w1.2 1 b1). Qed.
Lemma bd3 : forall x, held d3.2 x <= 3.
Proof. exact (held_run _ d2.2 2 bd2). Qed.
Lemma hd2 : history set sum_hash 0 d2.2.
Proof. apply (next (OpWrite w1.1 _)); [exact h1|]. split; [small b1|]. split; vm_compute; reflexivity. Qed.
Lemma hd3 : history set sum_hash 0 d3.2.
Proof. apply (next (OpLink w1.1)); [exact hd2|]. split; [small bd2|]. split_and!; vm_compute; reflexivity. Qed.
Lemma hd4 : history set sum_hash 0 d4.2.
Proof. apply (next (OpRelease w1.1)); [exact hd3|]. split; [small bd3|]. vm_compute; reflexivity. Qed.
Lemma fd4 : McStore.few 16 d4.2.
Proof. apply (few_of 16 4); [exact (held_run (OpRelease w1.1) d3.2 3 bd3)|vm_compute; reflexivity]. Qed.
Lemma count4 : can_count set sum_hash env d4.2 [65] (current set sum_hash d4.2 [65]).
Proof.
  split.
  - intros i sl id. apply fresh_env_ok.
  - done.
  - intros n Hn. assert (FLAGS_CONV (item_at (wstore d4.2) (current set sum_hash d4.2 [65])) = 0) as -> by (vm_compute; reflexivity).
    assert (Forall (fun n => alloc_size set [65] 0 n <=? slab_chunk_size_max (slab_set set) = true) (seqZ 0 23)) as Hall.
    { repeat constructor. }
    rewrite Forall_forall in Hall. apply Z.leb_le, Hall, elem_of_seqZ. lia.
Qed.
End DeltaExample.

(** 99 + 1: the reply is "100" and the item holds it. *)
Lemma add_delta_semantics_witness : exists cas' c' w',
  do_add_delta HistoryExample.set Witness.sum_hash 0 StoreExample.env [65] true 1 None (Witness.sum_hash [65]) StoreExample.c0
    (wstore DeltaExample.d4.2) = Some (OK, [49; 48; 48], cas', c', wstore w') /\ stored Witness.sum_hash w' [65] <> 0 /\
  exists n, value (item_at (wstore w') (stored Witness.sum_hash w' [65])) = [49; 48; 48] ++ replicate n 32 ++ [13; 10].
Proof.
  destruct (add_delta_semantics HistoryExample.set Witness.sum_hash Witness.sum_hash_range 0 SlabExample.page_ok eq_refl
    StoreExample.env DeltaExample.d4.2 [65] true 1 None StoreExample.c0 DeltaExample.hd4 DeltaExample.fd4)
    as (res & text & cas' & c' & w' & E & _ & _ & Hres & _ & _ & Hok).
  - intros _. split; [exact DeltaExample.count4|]. exists [57; 57; 32]. vm_compute. reflexivity.
  - assert (res = OK) as ->.
    { destruct Hres as [Hres|[Hres _]]; [rewrite Hres; vm_compute; reflexivity|]. subst res.
      apply (f_equal (fmap (fun r => r.1.1.1.1))) in E. vm_compute in E. discriminate. }
    destruct (Hok eq_refl) as (-> & Hn & Hv). exists cas', c', w'. split_and!; [exact E|exact Hn|exact Hv].
Defined.
