(* ===== verification/McToken.v ===== *)
(** The tokenizer of the ASCII protocol (src/memcached-sr/memcached.c, [tokenize_command])
    and the conversion of expiry times ([realtime]).

    A token is a position in the read buffer and a length; the tokenizer writes a NUL
    behind every token that is followed by a space.  The C strings of the tokens are
    then the space-separated words of the command line. *)
From S2P Require Import Prelude McItoa McUtil.

(** The value is a pointer into the buffer, or null. *)
Record token := { tvalue : option nat; tlength : nat }.

Definition COMMAND_TOKEN : nat := 0.
Definition SUBCOMMAND_TOKEN : nat := 1.
Definition KEY_TOKEN : nat := 1.
Definition MAX_TOKENS : nat := 8.

Definition mk_token (s e : nat) : token := {| tvalue := Some s; tlength := e - s |}.

(** The scan: [n] iterations are left, [s] and [e] are the pointers of the source. *)
Fixpoint tokenize_loop (n max_tokens : nat) (buf : list Z) (s e : nat) (tokens : list token) : list Z * nat * nat * list token :=
  match n with
  | O => (buf, s, e, tokens)
  | S n =>
      if byte_at buf e =? 32 then
        if (s =? e)%nat then tokenize_loop n max_tokens buf (S e) (S e) tokens
        else
          let tokens := tokens ++ [mk_token s e] in
          let buf := <[e := 0]> buf in
          if (length tokens =? max_tokens - 1)%nat then (buf, S e, S e, tokens)
          else tokenize_loop n max_tokens buf (S e) (S e) tokens
      else tokenize_loop n max_tokens buf s (S e) tokens
  end.

(** Behind the scan: the last word, and the terminal token. *)
Definition tokenize_end (r : list Z * nat * nat * list token) : list Z * list token :=
  let '(buf, s, e, tokens) := r in
  let tokens := if (s =? e)%nat then tokens else tokens ++ [mk_token s e] in
  (buf, tokens ++ [{| tvalue := if byte_at buf e =? 0 then None else Some e; tlength := 0 |}]).

(** The new buffer and the tokens. *)
Definition tokenize_command (buf : list Z) (command max_tokens : nat) : list Z * list token :=
  tokenize_end (tokenize_loop (length (c_str (drop command buf))) max_tokens buf command command []).

(** The tokens of a whole command, the way [process_get_command] reads its keys: round
    after round, from the first character the last round has not processed on. *)
Definition token_text (buf : list Z) (t : token) : list Z := match tvalue t with Some p => c_str (drop p buf) | None => [] end.
Fixpoint key_rounds (fuel : nat) (buf : list Z) (tokens : list token) : list (list Z) :=
  let texts := map (token_text buf) (filter (fun t => tlength t <> 0%nat) tokens) in
  match fuel, tvalue (default {| tvalue := None; tlength := 0 |} (last tokens)) with
  | S fuel, Some p =>
      let '(buf, tokens) := tokenize_command buf p MAX_TOKENS in texts ++ key_rounds fuel buf tokens
  | _, _ => texts
  end.

(** ** Expiry times *)

Definition REALTIME_MAXDELTA : Z := 60 * 60 * 24 * 30.
Definition realtime (process_started current_time exptime : Z) : Z :=
  if exptime =? 0 then 0
  else if REALTIME_MAXDELTA <? exptime then
    if exptime <=? process_started then 1 else u32 (exptime - process_started)
  else u32 (exptime + current_time).

(** ** Words *)

(** The words of a text; [cur] is the word that has begun. *)
Fixpoint words (cur text : list Z) : list (list Z) :=
  match text with
  | [] => if decide (cur = []) then [] else [cur]
  | c :: text => if c =? 32 then (if decide (cur = []) then words [] text else cur :: words [] text)
                 else words (cur ++ [c]) text
  end.

Lemma byte_at_mid a c b : byte_at (a ++ c :: b) (length a) = c.
Proof. unfold byte_at. rewrite app_nth2, Nat.sub_diag by lia. done. Qed.

Lemma c_str_none l : Forall (fun c => c <> 0) l -> forall post, c_str (l ++ 0 :: post) = l.
Proof. intros Hl post. by apply c_str_app. Qed.
Lemma insert_mid (a : list Z) c b v : <[length a := v]> (a ++ c :: b) = a ++ v :: b.
Proof. rewrite insert_app_r_alt, Nat.sub_diag by lia. done. Qed.

(** The terminal token: null when the whole command is scanned. *)
Definition terminal (left : list Z) (p : nat) : token := {| tvalue := if decide (left = []) then None else Some p; tlength := 0 |}.
Lemma terminal_eq done left post n : Forall (fun c => c <> 0) left -> n = length done ->
  {| tvalue := if byte_at (done ++ left ++ 0 :: post) n =? 0 then None else Some n; tlength := 0 |} = terminal left n.
Proof.
  intros Hl ->. unfold terminal. destruct left as [|c left]; cbn [app].
  - by rewrite byte_at_mid.
  - rewrite byte_at_mid. apply Forall_cons in Hl as [Hc _]. by rewrite (proj2 (Z.eqb_neq c 0)) by done.
Qed.

(** The result of a scan from a point inside the buffer: [done] holds what is scanned,
    [cur] the word that has begun, [rest] what is left of the command.  The tokens are the
    next words, as many as there is room for; [left] is what is not scanned. *)
Definition scanned (max : nat) (post done cur rest : list Z) (tokens : list token) (r : list Z * list token) : Prop :=
  exists X left ts,
  r = (done ++ X ++ left ++ 0 :: post, tokens ++ ts ++ [terminal left (length done + length X)]) /\
  left `suffix_of` rest /\ (left <> [] -> X <> []) /\ length (X ++ left) = length (cur ++ rest) /\
  map (token_text (done ++ X ++ left ++ 0 :: post)) ts = take (max - 1 - length tokens) (words cur rest) /\
  map tlength ts = map length (take (max - 1 - length tokens) (words cur rest)) /\
  words [] left = drop (max - 1 - length tokens) (words cur rest).

Section scan.
Context (max : nat) (post : list Z).

Lemma token_text_word done cur l : Forall (fun c => c <> 0) cur ->
  token_text (done ++ cur ++ 0 :: l) (mk_token (length done) (length done + length cur)) = cur.
Proof. intros Hc. unfold token_text, mk_token. cbn [tvalue]. rewrite drop_app_length. by apply c_str_none. Qed.
Lemma tlength_word n m : tlength (mk_token n (n + m)) = m.
Proof. cbn. lia. Qed.

(** The end of the command. *)
Lemma scanned_end done cur tokens : Forall (fun c => c <> 0) cur -> (length tokens + 1 < max)%nat ->
  scanned max post done cur [] tokens (tokenize_end (done ++ cur ++ 0 :: post, length done, (length done + length cur)%nat, tokens)).
Proof.
  intros Hcur Hmax. exists cur, []. cbn [tokenize_end words app]. destruct (decide (cur = [])) as [-> |Hne].
  - exists []. cbn [length]. rewrite Nat.add_0_r, Nat.eqb_refl, take_nil, drop_nil.
    split_and!; try done. by rewrite <- (terminal_eq done [] post).
  - exists [mk_token (length done) (length done + length cur)].
    assert (length cur <> 0)%nat by (by destruct cur). rewrite (proj2 (Nat.eqb_neq _ _)) by lia.
    destruct (max - 1 - length tokens)%nat as [|m] eqn:Em; [lia|]. cbn [take drop map]. rewrite take_nil, drop_nil.
    split_and!; try done.
    + rewrite <- (terminal_eq (done ++ cur) [] post) by (done || by rewrite length_app). cbn [app]. by rewrite <- !app_assoc.
    + by rewrite token_text_word.
    + by rewrite tlength_word.
Qed.

(** A space in front of a word. *)
Lemma scanned_blank done rest tokens r : scanned max post (done ++ [32]) [] rest tokens r -> scanned max post done [] (32 :: rest) tokens r.
Proof.
  intros (X & left & ts & -> & Hsuf & HX & Hlen & Htx & Htl & Hw). exists (32 :: X), left, ts. rewrite length_app in *. cbn [length app words] in *.
  rewrite <- app_assoc in *. cbn [app] in *. replace (length done + S (length X))%nat with (length done + 1 + length X)%nat by lia.
  split_and!; try done; [by apply suffix_cons_r|rewrite length_app; lia].
Qed.

(** The last word there is room for. *)
Lemma scanned_full done cur rest tokens : Forall (fun c => c <> 0) cur -> Forall (fun c => c <> 0) rest -> cur <> [] ->
  (length tokens + 2 = max)%nat ->
  scanned max post done cur (32 :: rest) tokens
    (tokenize_end (done ++ cur ++ 0 :: rest ++ 0 :: post, S (length done + length cur), S (length done + length cur),
                   tokens ++ [mk_token (length done) (length done + length cur)])).
Proof.
  intros Hcur Hrest Hne Hmax. exists (cur ++ [0]), rest, [mk_token (length done) (length done + length cur)].
  replace (max - 1 - length tokens)%nat with 1%nat by lia. cbn [words]. rewrite (decide_False (P := cur = [])) by done.
  cbn [take drop tokenize_end map Z.eqb Pos.eqb]. rewrite Nat.eqb_refl, take_0. rewrite <- !app_assoc. cbn [app]. split_and!; try done.
  - rewrite <- (terminal_eq (done ++ cur ++ [0]) rest post) by (done || (rewrite !length_app; cbn [length]; lia)).
    rewrite <- !app_assoc. cbn [app]. rewrite length_app. cbn [length].
    by replace (length done + (length cur + 1))%nat with (S (length done + length cur)) by lia.
  - by apply suffix_cons_r.
  - intros _. by destruct cur.
  - rewrite !length_app. cbn [length]. lia.
  - by rewrite token_text_word.
  - by rewrite tlength_word.
Qed.

(** A word, with room for more. *)
Lemma scanned_word done cur rest tokens r : Forall (fun c => c <> 0) cur -> cur <> [] -> (length tokens + 2 < max)%nat ->
  scanned max post (done ++ cur ++ [0]) [] rest (tokens ++ [mk_token (length done) (length done + length cur)]) r ->
  scanned max post done cur (32 :: rest) tokens r.
Proof.
  intros Hcur Hne Hmax (X & left & ts & -> & Hsuf & HX & Hlen & Htx & Htl & Hw).
  exists (cur ++ 0 :: X), left, (mk_token (length done) (length done + length cur) :: ts).
  rewrite !length_app in *. cbn [length app] in *. cbn [words]. rewrite (decide_False (P := cur = [])) by done. cbn [Z.eqb Pos.eqb].
  destruct (max - 1 - length tokens)%nat as [|m] eqn:Em; [lia|]. replace (max - 1 - (length tokens + 1))%nat with m in * by lia.
  rewrite <- !app_assoc in *. cbn [app take drop map] in *.
  replace (length done + (length cur + S (length X)))%nat with (length done + (length cur + 1) + length X)%nat by lia.
  split_and!; try done; [by apply suffix_cons_r|intros _; by destruct cur|lia|by rewrite token_text_word, Htx|by rewrite tlength_word, Htl].
Qed.

(** A character of a word. *)
Lemma scanned_char done cur c rest tokens r : c <> 32 -> scanned max post done (cur ++ [c]) rest tokens r -> scanned max post done cur (c :: rest) tokens r.
Proof.
  intros Hc (X & left & ts & -> & Hsuf & HX & Hlen & H). exists X, left, ts. cbn [words]. rewrite (proj2 (Z.eqb_neq c 32)) by done.
  split_and!; try apply H; [done|by apply suffix_cons_r|done|]. rewrite Hlen, !length_app. cbn [length]. lia.
Qed.

Lemma tokenize_scan rest : forall done cur tokens,
  Forall (fun c => c <> 0) rest -> Forall (fun c => c <> 0) cur -> (length tokens + 1 < max)%nat ->
  scanned max post done cur rest tokens
    (tokenize_end (tokenize_loop (length rest) max (done ++ cur ++ rest ++ 0 :: post) (length done) (length done + length cur) tokens)).
Proof.
  induction rest as [|c rest IH]; intros done cur tokens Hrest Hcur Hmax; cbn [length tokenize_loop]; [by apply scanned_end|].
  apply Forall_cons in Hrest as [Hc Hrest]. cbn [app].
  assert (byte_at (done ++ cur ++ c :: rest ++ 0 :: post) (length done + length cur) = c) as ->.
  { rewrite app_assoc, <- length_app. apply byte_at_mid. }
  destruct (Z.eqb_spec c 32) as [-> |Hsp].
  - destruct (Nat.eqb_spec (length done) (length done + length cur)) as [He|He].
    + assert (cur = []) as -> by (destruct cur; [done|cbn in He; lia]). apply scanned_blank.
      specialize (IH (done ++ [32]) [] tokens Hrest Hcur Hmax). rewrite length_app, <- app_assoc in IH. cbn [length app] in *.
      rewrite Nat.add_0_r in IH. by replace (S (length done + 0)) with (length done + 1)%nat by lia.
    + assert (cur <> []) as Hne by (intros ->; cbn in He; lia).
      assert (<[(length done + length cur)%nat:=0]> (done ++ cur ++ 32 :: rest ++ 0 :: post) = done ++ cur ++ 0 :: rest ++ 0 :: post) as ->.
      { rewrite app_assoc, <- length_app, insert_mid. by rewrite <- app_assoc. }
      rewrite length_app. cbn [length]. destruct (Nat.eqb_spec (length tokens + 1) (max - 1)) as [Hm|Hm]; [apply scanned_full; try done; lia|].
      apply scanned_word; [done|done|lia|].
      specialize (IH (done ++ cur ++ [0]) [] (tokens ++ [mk_token (length done) (length done + length cur)]) Hrest ltac:(done)).
      rewrite !length_app, <- !app_assoc in IH. cbn [length app] in IH.
      replace (S (length done + length cur)) with (length done + (length cur + 1))%nat by lia.
      rewrite Nat.add_0_r in IH. apply IH. lia.
  - apply scanned_char; [done|]. specialize (IH done (cur ++ [c]) tokens Hrest). rewrite <- app_assoc in IH. cbn [app] in IH.
    rewrite length_app, Nat.add_assoc in IH. cbn [length] in IH.
    replace (S (length done + length cur)) with (length done + length cur + 1)%nat by lia.
    apply IH; [|done]. apply Forall_app_2; [done|by constructor].
Qed.
End scan.

(** One round. *)
Lemma tokenize_round pre cmd post max : Forall (fun c => c <> 0) cmd -> (2 <= max)%nat ->
  scanned max post pre [] cmd [] (tokenize_command (pre ++ cmd ++ 0 :: post) (length pre) max).
Proof.
  intros Hc Hm. unfold tokenize_command. rewrite drop_app_length, c_str_none by done.
  pose proof (tokenize_scan max post cmd pre [] [] Hc ltac:(done) ltac:(cbn; lia)) as H. cbn [app length] in H. by rewrite Nat.add_0_r in H.
Qed.

Lemma words_nonempty text : forall cur, Forall (fun w => w <> []) (words cur text).
Proof.
  induction text as [|c text IH]; intros cur; cbn [words]; [case_decide; by repeat constructor|].
  repeat (case_if || case_decide); try done. by constructor.
Qed.
Lemma length_words text : forall cur, (length (words cur text) <= length text + length cur)%nat.
Proof.
  induction text as [|c text IH]; intros cur; cbn [words].
  - case_decide; [cbn; lia|]. destruct cur; [done|cbn; lia].
  - case_if; [case_decide|]; cbn [length].
    + specialize (IH []). cbn in IH. lia.
    + specialize (IH []). cbn in IH. destruct cur; [done|cbn [length]; lia].
    + specialize (IH (cur ++ [c])). rewrite length_app in IH. cbn in IH. lia.
Qed.

(** The words of a round are its tokens of positive length. *)
Lemma round_tokens (ts : list token) (ws : list (list Z)) left p : map tlength ts = map length ws -> Forall (fun w => w <> []) ws ->
  filter (fun t => tlength t <> 0%nat) (ts ++ [terminal left p]) = ts.
Proof.
  intros Hl Hw. rewrite filter_app. cbn. rewrite app_nil_r. revert ws Hl Hw. induction ts as [|t ts IH]; intros [|w ws] Hl Hw; [done|done|done|].
  injection Hl as Ht Hl. apply Forall_cons in Hw as [Hw Hws]. rewrite filter_cons_True by (rewrite Ht; by destruct w). by rewrite (IH ws).
Qed.

(** The rounds read all words of the command. *)
Lemma rounds_words fuel : forall pre cmd post, Forall (fun c => c <> 0) cmd -> (length cmd <= fuel)%nat ->
  (let '(buf, tokens) := tokenize_command (pre ++ cmd ++ 0 :: post) (length pre) MAX_TOKENS in key_rounds fuel buf tokens) = words [] cmd.
Proof.
  induction fuel as [|fuel IH]; intros pre cmd post Hc Hf;
    destruct (tokenize_round pre cmd post MAX_TOKENS Hc ltac:(unfold MAX_TOKENS; lia)) as (X & left & ts & -> & Hsuf & HX & Hlen & Htx & Htl & Hw);
    cbn [key_rounds length app] in *; rewrite (round_tokens ts _ left _ Htl) by (apply Forall_take, words_nonempty); rewrite ?last_snoc; cbn [default id].
  - assert (cmd = []) as -> by (destruct cmd; [done|cbn in Hf; lia]). by destruct ts.
  - rewrite <- (take_drop (MAX_TOKENS - 1 - 0) (words [] cmd)), <- Htx, <- Hw. cbn [terminal tvalue].
    destruct (decide (left = [])) as [-> |Hne]; [by rewrite app_nil_r|].
    specialize (IH (pre ++ X) left post). rewrite length_app, <- app_assoc in IH.
    destruct (tokenize_command _ _ _) as [buf tokens]. f_equal. apply IH.
    + destruct Hsuf as [k ->]. by apply Forall_app in Hc as [_ ?].
    + rewrite length_app in Hlen. assert (length X <> 0)%nat by (specialize (HX Hne); by destruct X). lia.
Qed.

(** C16: the tokenizer splits a command line at its spaces.  For every command line and
    every size of the token array, one call finds the first [max_tokens - 1] words in
    order, with their lengths and each ended by a NUL, ends the array with a token that is
    null or points to the rest of the line, whose words are the other words, writes
    nothing outside the command, and never more tokens than there is room for; and the
    calls of [process_get_command], one after the other, find all words of the line. *)
Theorem tokenize_splits pre cmd post max : Forall (fun c => c <> 0) cmd -> (2 <= max)%nat ->
  (exists X left ts, let buf := pre ++ X ++ left ++ 0 :: post in
     tokenize_command (pre ++ cmd ++ 0 :: post) (length pre) max = (buf, ts ++ [terminal left (length pre + length X)]) /\
     length (X ++ left) = length cmd /\ (length ts < max)%nat /\
     map (token_text buf) ts = take (max - 1) (words [] cmd) /\ map tlength ts = map length (take (max - 1) (words [] cmd)) /\
     words [] left = drop (max - 1) (words [] cmd)) /\
  (let '(buf, tokens) := tokenize_command (pre ++ cmd ++ 0 :: post) (length pre) MAX_TOKENS in key_rounds (length cmd) buf tokens) = words [] cmd.
Proof.
  intros Hc Hm. split; [|by apply rounds_words].
  destruct (tokenize_round pre cmd post max Hc Hm) as (X & left & ts & E & _ & _ & Hlen & Htx & Htl & Hw).
  exists X, left, ts. cbn [length app] in *. rewrite Nat.sub_0_r in *. split_and!; try done.
  apply (f_equal length) in Htl. rewrite !length_map, length_take in Htl. lia.
Qed.

(** A get of nine keys takes two rounds. *)
Lemma tokenize_splits_witness :
  let '(buf, tokens) := tokenize_command (bytes "get a b  c d e f g h i" ++ [0]) 0 MAX_TOKENS in
  key_rounds 22 buf tokens = [bytes "get"; [97]; [98]; [99]; [100]; [101]; [102]; [103]; [104]; [105]].
Proof.
  destruct (tokenize_splits [] (bytes "get a b  c d e f g h i") [] MAX_TOKENS) as [_ H].
  - repeat constructor; discriminate.
  - unfold MAX_TOKENS. lia.
  - exact H.
Defined.

(** ** Numbers in commands *)

Lemma scan_decimal u : 0 <= u < 2 ^ 64 -> scan_number 10 (decimal u) = Some (false, decimal u, []).
Proof.
  intros Hu. rewrite <- (app_nil_r (decimal u)) at 1. apply scan_digits; [|apply dpad_digits|done].
  intros ?%(f_equal length). pose proof (length_decimal u 20). cbn in *. lia.
Qed.
Lemma strtoul_decimal u : 0 <= u < 2 ^ 32 -> safe_strtoul (decimal u) = (true, u).
Proof.
  intros Hu. unfold safe_strtoul, strtoull. rewrite scan_decimal, value_decimal by lia. rewrite (proj2 (Z.leb_gt _ _)) by lia.
  change (ends_number []) with true. cbn iota. rewrite s64_small by lia. rewrite (proj2 (Z.ltb_ge _ _)) by lia. cbn [andb].
  by rewrite wrap_small by lia.
Qed.
Lemma strtol_decimal u : 0 <= u < 2 ^ 31 -> safe_strtol (decimal u) = (true, u).
Proof.
  intros Hu. unfold safe_strtol, strtoll. rewrite scan_decimal, value_decimal by lia.
  rewrite (proj2 (Z.ltb_ge _ _)), (proj2 (Z.leb_gt _ _)) by lia. change (ends_number []) with true. cbn iota.
  f_equal. unfold signed. cbn zeta. rewrite wrap_small by lia. by rewrite (proj2 (Z.ltb_lt _ _)) by lia.
Qed.

(** ** Expiry times *)

(** What a positive expiry time means: a number of seconds up to thirty days is counted
    from now, a greater number is a date, and a date before the start of the server has
    passed. *)
Lemma realtime_relative started now e : 0 < e <= REALTIME_MAXDELTA -> 0 <= now < 2 ^ 31 -> realtime started now e = now + e.
Proof.
  intros He Hn. unfold REALTIME_MAXDELTA in He. unfold realtime, REALTIME_MAXDELTA. rewrite (proj2 (Z.eqb_neq _ _)), (proj2 (Z.ltb_ge _ _)) by lia.
  rewrite wrap_small; lia.
Qed.
Lemma realtime_date started now e : REALTIME_MAXDELTA < e < 2 ^ 32 -> 0 <= started ->
  realtime started now e = if e <=? started then 1 else e - started.
Proof.
  intros He Hs. unfold REALTIME_MAXDELTA in He. unfold realtime, REALTIME_MAXDELTA. rewrite (proj2 (Z.eqb_neq _ _)), (proj2 (Z.ltb_lt _ _)) by lia.
  case_if; [done|zbool]. rewrite wrap_small; lia.
Qed.
(** A negative expiry time of [touch] and [gat], which do not replace it as [set] does: the
    sum wraps around when it reaches further back than the start of the server, and the
    item outlives the next 2^31 seconds. *)
Lemma realtime_negative_immortal started now e : 0 <= now < 2 ^ 30 -> - 2 ^ 30 <= e < - now -> now + 2 ^ 31 < realtime started now e.
Proof.
  intros Hn He. unfold realtime, REALTIME_MAXDELTA. rewrite (proj2 (Z.eqb_neq _ _)), (proj2 (Z.ltb_ge _ _)) by lia.
  unfold wrap. rewrite <- (Z.mod_add _ 1) by lia. rewrite Z.mod_small; lia.
Qed.
