(* ===== verification/McProto.v ===== *)
(** The storage, arithmetic, touch and delete commands of the ASCII protocol
    (src/memcached-sr/memcached.c), on top of the storage commands and the tokenizer.

    A connection is what these commands use of [struct conn]: the reply to be written, the
    state the connection goes to, and the item whose value is being read.  The text of
    the command is the read buffer behind [tokenize_command].  The wrappers of thread.c
    only add the item lock. *)
From S2P Require Import Prelude McItoa McUtil McItem McAssoc McSlabs McItems McItemStore McPayload McItemOps McItemHistory McStore McToken.

Inductive conn_states :=
| conn_listening | conn_new_cmd | conn_waiting | conn_read | conn_parse_cmd | conn_write | conn_nread | conn_swallow
| conn_closing | conn_mwrite | conn_closed | conn_watch | conn_max_state.
#[global] Instance conn_states_eq_dec : EqDecision conn_states.
Proof. solve_decision. Defined.

Record client := {
  cn : conn;
  noreply : bool;
  state : conn_states;
  write_and_go : conn_states;
  wbuf : list Z;  (** what is to be written, [wbytes] long *)
  wsize : Z;
  c_item : Z;
  rlbytes : Z;
  c_cmd : nread;
  sbytes : Z
}.

Definition KEY_MAX_LENGTH : nat := 250.

Definition with_cn (v : conn) (c : client) : client :=
  {| cn := v; noreply := noreply c; state := state c; write_and_go := write_and_go c; wbuf := wbuf c; wsize := wsize c;
     c_item := c_item c; rlbytes := rlbytes c; c_cmd := c_cmd c; sbytes := sbytes c |}.
Definition with_noreply (v : bool) (c : client) : client :=
  {| cn := cn c; noreply := v; state := state c; write_and_go := write_and_go c; wbuf := wbuf c; wsize := wsize c;
     c_item := c_item c; rlbytes := rlbytes c; c_cmd := c_cmd c; sbytes := sbytes c |}.
Definition with_state (v : conn_states) (c : client) : client :=
  {| cn := cn c; noreply := noreply c; state := v; write_and_go := write_and_go c; wbuf := wbuf c; wsize := wsize c;
     c_item := c_item c; rlbytes := rlbytes c; c_cmd := c_cmd c; sbytes := sbytes c |}.
Definition with_reply (v : list Z) (go : conn_states) (c : client) : client :=
  {| cn := cn c; noreply := noreply c; state := conn_write; write_and_go := go; wbuf := v; wsize := wsize c;
     c_item := c_item c; rlbytes := rlbytes c; c_cmd := c_cmd c; sbytes := sbytes c |}.
Definition with_swallow (n : Z) (c : client) : client :=
  {| cn := cn c; noreply := noreply c; state := state c; write_and_go := conn_swallow; wbuf := wbuf c; wsize := wsize c;
     c_item := c_item c; rlbytes := rlbytes c; c_cmd := c_cmd c; sbytes := n |}.
Definition with_item (it n : Z) (comm : nread) (c : client) : client :=
  {| cn := cn c; noreply := noreply c; state := state c; write_and_go := write_and_go c; wbuf := wbuf c; wsize := wsize c;
     c_item := it; rlbytes := n; c_cmd := comm; sbytes := sbytes c |}.

(** ** Replies *)

Definition out_string (str : list Z) (c : client) : client :=
  if noreply c then with_state conn_new_cmd (with_noreply false c)
  else
    let str := if wsize c <? Z.of_nat (length str) + 2 then bytes "SERVER_ERROR output line too long" else str in
    with_reply (str ++ [13; 10]) conn_new_cmd c.
(** Of a connection that speaks the ASCII protocol. *)
Definition out_of_memory (ascii_error : list Z) (c : client) : client := out_string ascii_error c.

(** [strcmp(a, b) == 0] *)
Definition streq (a b : list Z) : bool := bool_decide (c_str a = c_str b).
Definition nth_token (tokens : list token) (i : nat) : token := nth i tokens {| tvalue := None; tlength := 0 |}.
Definition text (buf : list Z) (tokens : list token) (i : nat) : list Z := token_text buf (nth_token tokens i).

Definition set_noreply_maybe (buf : list Z) (tokens : list token) (c : client) : client :=
  let t := nth_token tokens (length tokens - 2) in
  match tvalue t with
  | Some _ => if streq (token_text buf t) (bytes "noreply") then with_noreply true c else c
  | None => c
  end.

Section proto.
Context (set : item_settings) (hash : list Z -> Z) (nchunks : nat).
Context (copy_chunks : nread -> Z -> Z -> Z -> server -> option server).
Context (process_started : Z).
Context (a : alloc_env).

Definition bad_format : list Z := bytes "CLIENT_ERROR bad command line format".

(** ** set, add, replace, append, prepend and cas *)

(** No memory: the data line is to be swallowed, and a [set] takes out the old item. *)
Definition update_failed (comm : nread) (key : list Z) (flags vlen : Z) (c : client) (s : server) : option (client * server) :=
  let c := if item_size_ok set (Z.of_nat (length key)) flags vlen s
           then out_of_memory (bytes "SERVER_ERROR out of memory storing object") c
           else out_string (bytes "SERVER_ERROR object too large for cache") c in
  let c := with_swallow vlen c in
  if bool_decide (comm = NREAD_SET) then
    let c := with_cn (count_get set key (hash key) s (cn c)) c in
    '(it, s) ← do_item_get set nchunks None key (hash key) false s;
    if it =? 0 then Some (c, s)
    else
      s ← do_item_unlink set nchunks it (hash (ikey (item_at s it))) s;
      Some (c, do_item_remove nchunks it s)
  else Some (c, s).

Definition process_update_command (buf : list Z) (tokens : list token) (comm : nread) (handle_cas : bool) (c : client) (s : server)
    : option (client * server) :=
  let c := set_noreply_maybe buf tokens c in
  if (KEY_MAX_LENGTH <? tlength (nth_token tokens KEY_TOKEN))%nat then Some (out_string bad_format c, s)
  else
    let key := text buf tokens KEY_TOKEN in
    let '(ok1, flags) := safe_strtoul (text buf tokens 2) in
    let '(ok2, exptime_int) := safe_strtol (text buf tokens 3) in
    let '(ok3, vlen) := safe_strtol (text buf tokens 4) in
    if negb (ok1 && ok2 && ok3) then Some (out_string bad_format c, s)
    else
      let exptime := if exptime_int <? 0 then REALTIME_MAXDELTA + 1 else exptime_int in
      let '(ok4, req_cas_id) := if handle_cas then safe_strtoull (text buf tokens 5) else (true, 0) in
      if negb ok4 then Some (out_string bad_format c, s)
      else if (vlen <? 0) || (2 ^ 31 - 1 - 2 <? vlen) then Some (out_string bad_format c, s)
      else
        let vlen := vlen + 2 in
        '(it, s) ← do_item_alloc set hash nchunks (a_es a) (a_trylock a) (a_locked a) key flags (realtime process_started (current_time s) exptime) vlen s;
        if it =? 0 then update_failed comm key flags vlen c s
        else
          let s := upd_item (ITEM_set_cas req_cas_id) it s in
          Some (with_state conn_nread (with_item it (nbytes (item_at s it)) comm c), s).

(** The value has been read. *)
Definition store_reply (ret : store_item_type) : list Z :=
  match ret with
  | STORED => bytes "STORED"
  | EXISTS => bytes "EXISTS"
  | NOT_FOUND => bytes "NOT_FOUND"
  | NOT_STORED => bytes "NOT_STORED"
  | TOO_LARGE | NO_MEMORY => bytes "SERVER_ERROR Unhandled storage type."
  end.
(** Of an item that is not chunked, after a command that is not a meta command. *)
Definition complete_nread_ascii (c : client) (s : server) : option (client * server) :=
  let it := c_item c in
  let c := with_cn (count (set_cmds (ITEM_clsid (item_at s it))) (cn c)) c in
  '(c, s) ←
    (if bool_decide (drop (Z.to_nat (nbytes (item_at s it) - 2)) (value (item_at s it)) = [13; 10]) then
       '(ret, cc, s) ← do_store_item set hash nchunks copy_chunks a it (c_cmd c) (hash (ikey (item_at s it))) (cn c) s;
       Some (out_string (store_reply ret) (with_cn cc c), s)
     else Some (out_string (bytes "CLIENT_ERROR bad data chunk") c, s));
  let cc := {| c_cas := c_cas (cn c); set_stale := false; tstats := tstats (cn c) |} in
  Some (with_item 0 (rlbytes c) (c_cmd c) (with_cn cc c), do_item_remove nchunks (c_item c) s).

(** ** touch, incr and decr, delete *)

Definition process_touch_command (room : option nat) (buf : list Z) (tokens : list token) (c : client) (s : server) : option (client * server) :=
  let c := set_noreply_maybe buf tokens c in
  if (KEY_MAX_LENGTH <? tlength (nth_token tokens KEY_TOKEN))%nat then Some (out_string bad_format c, s)
  else
    let key := text buf tokens KEY_TOKEN in
    match safe_strtol (text buf tokens 2) with
    | (false, _) => Some (out_string (bytes "CLIENT_ERROR invalid exptime argument") c, s)
    | (true, exptime_int) =>
        let c := with_cn (count_get set key (hash key) s (cn c)) c in
        '(it, s) ← do_item_touch set nchunks room key (realtime process_started (current_time s) exptime_int) (hash key) s;
        if it =? 0 then
          Some (out_string (bytes "NOT_FOUND") (with_cn (count touch_misses (count touch_cmds (cn c))) c), s)
        else
          let cc := count (touch_hits (ITEM_clsid (item_at s it))) (count touch_cmds (cn c)) in
          Some (out_string (bytes "TOUCHED") (with_cn cc c), do_item_remove nchunks it s)
    end.

Definition process_arithmetic_command (buf : list Z) (tokens : list token) (incr : bool) (c : client) (s : server) : option (client * server) :=
  let c := set_noreply_maybe buf tokens c in
  if (KEY_MAX_LENGTH <? tlength (nth_token tokens KEY_TOKEN))%nat then Some (out_string bad_format c, s)
  else
    let key := text buf tokens KEY_TOKEN in
    match safe_strtoull (text buf tokens 2) with
    | (false, _) => Some (out_string (bytes "CLIENT_ERROR invalid numeric delta argument") c, s)
    | (true, delta) =>
        '(res, temp, _, cc, s) ← do_add_delta set hash nchunks a key incr (s64 delta) None (hash key) (cn c) s;
        let c := with_cn cc c in
        Some (match res with
              | OK => out_string temp c
              | NON_NUMERIC => out_string (bytes "CLIENT_ERROR cannot increment or decrement non-numeric value") c
              | EOM => out_of_memory (bytes "SERVER_ERROR out of memory") c
              | DELTA_ITEM_NOT_FOUND => out_string (bytes "NOT_FOUND") (with_cn (count (if incr then incr_misses else decr_misses) cc) c)
              | DELTA_ITEM_CAS_MISMATCH => c
              end, s)
    end.

Definition process_delete_command (buf : list Z) (tokens : list token) (c : client) (s : server) : option (client * server) :=
  let ntokens := length tokens in
  let hold_is_zero := streq (text buf tokens (KEY_TOKEN + 1)) (bytes "0") in
  let c := if (3 <? ntokens)%nat then set_noreply_maybe buf tokens c else c in
  let sets_noreply := noreply c in
  let valid := ((ntokens =? 4)%nat && (hold_is_zero || sets_noreply)) || ((ntokens =? 5)%nat && hold_is_zero && sets_noreply) in
  if (3 <? ntokens)%nat && negb valid then
    Some (out_string (bytes "CLIENT_ERROR bad command line format.  Usage: delete <key> [noreply]") c, s)
  else if (KEY_MAX_LENGTH <? tlength (nth_token tokens KEY_TOKEN))%nat then Some (out_string bad_format c, s)
  else
    let key := text buf tokens KEY_TOKEN in
    let c := with_cn (count_get set key (hash key) s (cn c)) c in
    '(it, s) ← do_item_get set nchunks None key (hash key) false s;
    if it =? 0 then Some (out_string (bytes "NOT_FOUND") (with_cn (count delete_misses (cn c)) c), s)
    else
      let c := with_cn (count (delete_hits (ITEM_clsid (item_at s it))) (cn c)) c in
      s ← do_item_unlink set nchunks it (hash key) s;
      Some (out_string (bytes "DELETED") c, do_item_remove nchunks it s).
End proto.

(** ** Dispatch *)

(** The handler [process_command] gives the tokens to. *)
Inductive handler :=
| H_get (return_cas should_touch : bool)
| H_update (comm : nread) (handle_cas : bool)
| H_arithmetic (incr : bool)
| H_mget | H_mset | H_mdelete | H_mn | H_meta | H_delete | H_touch | H_stat | H_flush_all | H_version | H_quit | H_shutdown
| H_slabs | H_lru_crawler | H_watch | H_memlimit | H_verbosity | H_lru | H_close | H_error.

(** The commands of a build without debugging, external storage and TLS. *)
Definition command_of (buf : list Z) (tokens : list token) : handler :=
  let ntokens := length tokens in
  let cmd s := streq (text buf tokens COMMAND_TOKEN) (bytes s) in
  let n lo hi := (lo <=? ntokens)%nat && (ntokens <=? hi)%nat in
  if (3 <=? ntokens)%nat && (cmd "get" || cmd "bget") then H_get false false
  else if n 6%nat 7%nat && cmd "add" then H_update NREAD_ADD false
  else if n 6%nat 7%nat && cmd "set" then H_update NREAD_SET false
  else if n 6%nat 7%nat && cmd "replace" then H_update NREAD_REPLACE false
  else if n 6%nat 7%nat && cmd "prepend" then H_update NREAD_PREPEND false
  else if n 6%nat 7%nat && cmd "append" then H_update NREAD_APPEND false
  else if n 7%nat 8%nat && cmd "cas" then H_update NREAD_CAS true
  else if n 4%nat 5%nat && cmd "incr" then H_arithmetic true
  else if (3 <=? ntokens)%nat && cmd "gets" then H_get true false
  else if (3 <=? ntokens)%nat && cmd "mg" then H_mget
  else if (3 <=? ntokens)%nat && cmd "ms" then H_mset
  else if (3 <=? ntokens)%nat && cmd "md" then H_mdelete
  else if (2 <=? ntokens)%nat && cmd "mn" then H_mn
  else if (2 <=? ntokens)%nat && cmd "me" then H_meta
  else if n 4%nat 5%nat && cmd "decr" then H_arithmetic false
  else if n 3%nat 5%nat && cmd "delete" then H_delete
  else if n 4%nat 5%nat && cmd "touch" then H_touch
  else if (4 <=? ntokens)%nat && cmd "gat" then H_get false true
  else if (4 <=? ntokens)%nat && cmd "gats" then H_get true true
  else if (2 <=? ntokens)%nat && cmd "stats" then H_stat
  else if n 2%nat 4%nat && cmd "flush_all" then H_flush_all
  else if (ntokens =? 2)%nat && cmd "version" then H_version
  else if (ntokens =? 2)%nat && cmd "quit" then H_quit
  else if (ntokens =? 2)%nat && cmd "shutdown" then H_shutdown
  else if (1 <? ntokens)%nat && cmd "slabs" then H_slabs
  else if (1 <? ntokens)%nat && cmd "lru_crawler" then H_lru_crawler
  else if (1 <? ntokens)%nat && cmd "watch" then H_watch
  else if n 3%nat 4%nat && cmd "cache_memlimit" then H_memlimit
  else if n 3%nat 4%nat && cmd "verbosity" then H_verbosity
  else if (3 <=? ntokens)%nat && cmd "lru" then H_lru
  else if (2 <=? ntokens)%nat && bool_decide (take 5 (text buf tokens (ntokens - 2)) = bytes "HTTP/") then H_close
  else H_error.

(** ** Commands whose words are known *)

(** The tokens of a line of at most seven words. *)
Definition line_tokens (buf : list Z) (tokens : list token) (ws : list (list Z)) : Prop :=
  length tokens = S (length ws) /\ (forall i, (i < length ws)%nat -> text buf tokens i = nth i ws [] /\ tlength (nth_token tokens i) = length (nth i ws [])) /\
  (forall i, (i < length ws)%nat -> is_Some (tvalue (nth_token tokens i))).

Lemma tokenize_line pre cmd post ws : Forall (fun c => c <> 0) cmd -> words [] cmd = ws -> (length ws < MAX_TOKENS)%nat ->
  let '(buf, tokens) := tokenize_command (pre ++ cmd ++ 0 :: post) (length pre) MAX_TOKENS in line_tokens buf tokens ws.
Proof.
  intros Hc Hws Hn. destruct (tokenize_round pre cmd post MAX_TOKENS Hc ltac:(unfold MAX_TOKENS; lia)) as (X & left & ts & E & _ & _ & _ & Htx & Htl & _).
  rewrite E. cbn [app length] in *. rewrite Hws, take_ge in Htx, Htl by (unfold MAX_TOKENS in *; lia).
  pose proof (f_equal length Htx) as Hlen. rewrite length_map in Hlen. unfold line_tokens.
  assert (forall i, (i < length ws)%nat -> nth_token (ts ++ [terminal left (length pre + length X)]) i = nth_token ts i) as Hnth.
  { intros i Hi. unfold nth_token. apply app_nth1. lia. }
  assert (forall i, (i < length ws)%nat -> text (pre ++ X ++ left ++ 0 :: post) (ts ++ [terminal left (length pre + length X)]) i = nth i ws []) as Htext.
  { intros i Hi. unfold text. rewrite Hnth by done. rewrite <- Htx. unfold nth_token.
    rewrite (nth_indep (map _ ts) [] (token_text (pre ++ X ++ left ++ 0 :: post) {| tvalue := None; tlength := 0 |})) by (rewrite length_map; lia).
    by rewrite map_nth. }
  split; [rewrite length_app; cbn [length]; lia|]. split.
  - intros i Hi. split; [by apply Htext|]. rewrite Hnth by done. unfold nth_token.
    change 0%nat with (length (@nil Z)) in Htl. rewrite <- (map_nth tlength). cbn [tlength]. rewrite Htl. change 0%nat with (@length Z []). by rewrite map_nth.
  - intros i Hi. specialize (Htext i Hi). unfold text, token_text in Htext.
    assert (nth i ws [] <> []) as Hne.
    { pose proof (words_nonempty cmd []) as Hw. rewrite Hws, Forall_forall in Hw. apply Hw, list_elem_of_In, nth_In. done. }
    destruct (tvalue _); [by eexists|congruence].
Qed.

Lemma out_string_eq str c : noreply c = false -> Z.of_nat (length str) + 2 <= wsize c -> out_string str c = with_reply (str ++ [13; 10]) conn_new_cmd c.
Proof. intros Hn Hw. unfold out_string. rewrite Hn. by rewrite (proj2 (Z.ltb_ge _ _)). Qed.

(** A number is not the word "noreply". *)
Lemma no_noreply buf tokens n c : (0 < length tokens)%nat -> text buf tokens (length tokens - 2) = decimal n -> set_noreply_maybe buf tokens c = c.
Proof.
  intros Hl Ht. unfold set_noreply_maybe, text in *. destruct (tvalue _); [|done]. rewrite Ht. unfold streq.
  rewrite bool_decide_eq_false_2; [done|]. intros E.
  assert (forall l, Forall (fun c => isdigit c = true) l -> Forall (fun c => isdigit c = true) (c_str l)) as Hc.
  { induction 1 as [|x l Hx _ IH]; cbn [c_str]; [done|]. case_if; [done|by constructor]. }
  specialize (Hc (decimal n) (dpad_digits _ _)). rewrite E in Hc. apply Forall_inv in Hc. done.
Qed.

Lemma at_upd (f : item -> item) x s i : mem s !! x = Some i -> item_at (upd_item f x s) x = f (item_at s x).
Proof. intros Hi. unfold item_at, upd_item, get. cbn [mem with_mem]. by rewrite lookup_alter_eq, Hi. Qed.

Section commands.
Context (set : item_settings) (hash : list Z -> Z) {Hhash : KeyHash hash} (nchunks : nat).
Context (Hpage : 0 < slab_page_size (slab_set set) < 2 ^ 31) (Hrepair : tail_repair_time set = 0).

Abbreviation hist := (history set hash nchunks).
Abbreviation stored := (stored hash).
Abbreviation current := (current set hash).

Lemma history_stored w k : hist w -> stored w k <> 0 -> is_Some (mem (wstore w) !! stored w k).
Proof.
  intros Hw H0. destruct (history_inv set hash nchunks Hpage Hrepair w Hw) as [M Hi]. rewrite (winv_stored set hash w M k Hi) in *.
  destruct (M !! k) as [x|] eqn:E; [|done]. destruct Hi as [_ (Q & F & U & Hwf)].
  destruct (w_key set hash _ _ _ _ _ _ _ _ Hwf E) as (i & Hi & _). by exists i.
Qed.

Lemma step_unlink w x : hist w -> few 3 w -> 0 < held w x -> exists w1,
  do_item_unlink set nchunks x (hash (key_of w x)) (wstore w) = Some (wstore w1) /\ kept set hash nchunks 2 w w1 /\
  forall k, stored w1 k = if is_linked w x && bool_decide (k = key_of w x) then 0 else stored w k.
Proof.
  intros Hw Hf Hx.
  destruct (history_next set hash nchunks Hpage Hrepair (OpUnlink x) w Hw) as (r & w1 & E & Hw1 & _ & Hn & Hs & Hr); [by split|].
  cbn [exec] in E. apply fmap_Some in E as (s & E & [= -> ->]). exists (keep s w). split; [done|]. split; [|done].
  split; try done. intros y Hy. apply (stable_payload set hash nchunks Hpage Hrepair (OpUnlink x)); [done|done|by apply held_refs_pos|done].
Qed.

Lemma live_current w key : live set hash w key = negb (current w key =? 0).
Proof.
  unfold McStore.current, live. destruct (stored w key =? 0) eqn:E; cbn [negb andb]; [done|].
  destruct (negb (dead _ _ _)); [by rewrite E|done].
Qed.

(** The item under a key is fetched and taken out. *)
Lemma take_out w key : hist w -> few 8 w -> exists w1,
  do_item_get set nchunks None key (hash key) false (wstore w) = Some (current w key, wstore w1) /\
  exists w', hist w' /\ (forall x, held w' x = held w x) /\ (forall k, stored w' k = if decide (k = key) then 0 else stored w k) /\
  (forall x, refs w' x <= refs w x + 6) /\
  if decide (current w key = 0) then w' = w1
  else ikey (item_at (wstore w1) (current w key)) = key /\ exists s2,
    do_item_unlink set nchunks (current w key) (hash key) (wstore w1) = Some s2 /\ wstore w' = do_item_remove nchunks (current w key) s2.
Proof.
  intros Hw Hf. destruct (step_get set hash nchunks Hpage Hrepair w key Hw (few_le 8 3 w ltac:(lia) Hf)) as (w1 & E & Hw1 & Hh & Hs & _ & Hr & _).
  exists w1. split; [done|]. destruct (decide (current w key = 0)) as [H0|H0].
  { exists w1. split_and!; try done.
    - intros x. rewrite Hh, decide_False by (intros [_ ?]; done). lia.
    - intros k. rewrite Hs. by destruct (decide (k = key)).
    - intros x. specialize (Hr x). lia. }
  assert (found set hash nchunks 6 w1 key (current w key)) as Hfd.
  { split; [done|intros x; specialize (Hf x); specialize (Hr x); lia| |by rewrite Hs, decide_True].
    pose proof (history_held set hash nchunks Hpage Hrepair w (current w key) Hw). rewrite Hh, decide_True by done. lia. }
  destruct (found_linked set hash nchunks Hpage Hrepair _ _ _ _ Hfd) as (Hl & Hk & _ & _). pose proof Hfd as [_ Hf1 Hi1 Hs1].
  destruct (step_unlink w1 (current w key) Hw1 (few_le 6 3 w1 ltac:(lia) Hf1) Hi1) as (w2 & E2 & K2 & S2). rewrite Hk, Hl in *. cbn [andb] in S2.
  destruct (release_one set hash nchunks Hpage Hrepair w2 (current w key) (kp_hist _ _ _ _ _ _ K2)) as (w3 & E3 & Hw3 & Hh3 & Hs3 & Hr3 & _).
  { apply (few_le 4); [lia|]. by apply (kept_few set hash nchunks 2 4 w1). }
  { by rewrite (kp_held _ _ _ _ _ _ K2). }
  exists w3. split_and!; try done.
  - intros x. rewrite Hh3, (kp_held _ _ _ _ _ _ K2), Hh. repeat destruct (decide _); naive_solver lia.
  - intros k. rewrite Hs3, S2. destruct (decide (k = key)) as [-> |Hne]; [by rewrite bool_decide_eq_true_2|].
    rewrite bool_decide_eq_false_2 by done. by rewrite Hs, decide_False.
  - intros x. specialize (Hr x). specialize (Hr3 x). pose proof (kp_refs _ _ _ _ _ _ K2 x). lia.
  - exists (wstore w2). by split.
Qed.

(** The value is read into the item and stored: a [set] whose line end is right. *)
Lemma nread_set a copy_chunks w it c data : hist w -> few 22 w -> 0 < held w it -> is_linked w it = false -> it <> 0 ->
  nbytes (item_at (wstore w) it) = Z.of_nat (length data) + 2 -> c_item c = it -> c_cmd c = NREAD_SET -> noreply c = false -> 2048 <= wsize c ->
  let key := key_of w it in
  let w1 := keep (upd_item (set_data (write 0 (data ++ [13; 10]) (idata (item_at (wstore w) it)))) it (wstore w)) w in
  exists c' w', complete_nread_ascii set hash nchunks copy_chunks a c (wstore w1) = Some (c', wstore w') /\ hist w' /\
    (forall x, held w' x = held w x - if decide (x = it) then 1 else 0) /\ (forall k, k <> key -> stored w' k = stored w k) /\
    stored w' key <> 0 /\ value (item_at (wstore w') (stored w' key)) = data ++ [13; 10] /\
    wbuf c' = bytes "STORED" ++ [13; 10] /\ state c' = conn_write /\ c_item c' = 0.
Proof.
  intros Hw Hf Hi Hl H0 Hnb Hci Hcc Hn Hsz key w1.
  destruct (step_write set hash nchunks Hpage Hrepair w it (write 0 (data ++ [13; 10]) (idata (item_at (wstore w) it))) Hw (few_le 22 3 w ltac:(lia) Hf) Hi Hl)
    as (Hw1 & Hs1 & Hr1 & _ & Hat). fold w1 in Hw1, Hs1, Hr1, Hat.
  assert (value (item_at (wstore w1) it) = data ++ [13; 10]) as Hv.
  { rewrite Hat. unfold value, data_bytes. cbn [nbytes set_data idata]. rewrite Hnb. rewrite data_write by (rewrite ?length_app; cbn [length]; lia).
    unfold write. cbn [take app Nat.add]. rewrite drop_ge, app_nil_r; [done|]. rewrite length_take, !length_app, length_replicate. cbn [length]. lia. }
  assert (key_of w1 it = key) as Hk by (unfold key_of; by rewrite Hat).
  assert (is_linked w1 it = false) as Hl1 by (unfold is_linked; by rewrite Hat).
  assert (nbytes (item_at (wstore w1) it) = Z.of_nat (length data) + 2) as Hnb1 by (by rewrite Hat).
  unfold complete_nread_ascii. rewrite Hci. cbn zeta. rewrite Hv, Hnb1.
  rewrite bool_decide_eq_true_2 by (rewrite drop_app_length'; [done|lia]). cbn [cn with_cn c_cmd]. rewrite Hcc.
  destruct (store_item_ok set hash Hhash nchunks Hpage Hrepair copy_chunks a w1 it NREAD_SET
    (count (set_cmds (ITEM_clsid (item_at (wstore w1) it))) (cn c)) Hw1) as (res & c2 & w2 & y & E & Hw2 & Hh2 & Hr2 & Hres & Hst & Ho & Hval & _).
  { intros x. specialize (Hf x). specialize (Hr1 x). lia. }
  { done. }
  { done. }
  { by right. }
  fold (key_of w1 it). rewrite E. cbn [mbind option_bind]. destruct Hres as [Hres|[_ [? _]]]; [|done]. cbn [decision] in Hres. subst res.
  destruct (Hval eq_refl) as (Hy0 & Hyit & _ & Hvy). cbn [combines] in Hvy. rewrite (Hyit eq_refl) in *. rewrite decide_True in Hst by done.
  destruct (release_one set hash nchunks Hpage Hrepair w2 it Hw2) as (w3 & E3 & Hw3 & Hh3 & Hs3 & _ & Hp3).
  { intros x. specialize (Hf x). specialize (Hr1 x). specialize (Hr2 x). lia. }
  { by rewrite Hh2. }
  rewrite out_string_eq by (done || (cbn; lia)). cbn [c_item with_reply with_cn]. rewrite Hci, <- E3. eexists _, w3. split; [done|].
  rewrite Hs3. rewrite Hk in Hst, Ho. fold key in Hst, Ho. rewrite Hst. split_and!; try done.
  - intros x. by rewrite Hh3, Hh2.
  - intros k Hne. rewrite Hs3. destruct (Ho k Hne) as [-> |[? _]]; [apply Hs1|done].
  - rewrite (same_value w2 w3 it), Hvy; [done|]. apply Hp3. rewrite <- Hst. apply history_stored; [done|by rewrite Hst].
Qed.

Definition refusals : list (list Z) :=
  [bytes "SERVER_ERROR out of memory storing object" ++ [13; 10]; bytes "SERVER_ERROR object too large for cache" ++ [13; 10]].

(** A [set] that finds no memory. *)
Lemma set_failed w key flags vlen c : hist w -> few 8 w -> noreply c = false -> 2048 <= wsize c -> exists c' w',
  update_failed set hash nchunks NREAD_SET key flags vlen c (wstore w) = Some (c', wstore w') /\ hist w' /\ (forall x, held w' x = held w x) /\
  (forall k, stored w' k = if decide (k = key) then 0 else stored w k) /\
  state c' = conn_write /\ write_and_go c' = conn_swallow /\ sbytes c' = vlen /\ wbuf c' ∈ refusals.
Proof.
  intros Hw Hf Hn Hsz. destruct (take_out w key Hw Hf) as (w1 & E & w' & Hw' & Hh & Hs & _ & Hcase).
  unfold update_failed, out_of_memory. cbn zeta. rewrite !out_string_eq by (done || (cbn; lia)). rewrite bool_decide_eq_true_2 by done.
  rewrite E. cbn [mbind option_bind].
  assert (forall b : bool, wbuf (if b then with_reply (bytes "SERVER_ERROR out of memory storing object" ++ [13; 10]) conn_new_cmd c
    else with_reply (bytes "SERVER_ERROR object too large for cache" ++ [13; 10]) conn_new_cmd c) ∈ refusals) as Hr.
  { intros []; cbn [wbuf with_reply]; unfold refusals; set_solver. }
  assert (forall b : bool, state (if b then with_reply (bytes "SERVER_ERROR out of memory storing object" ++ [13; 10]) conn_new_cmd c
    else with_reply (bytes "SERVER_ERROR object too large for cache" ++ [13; 10]) conn_new_cmd c) = conn_write) as Hst by by intros [].
  destruct (decide (current w key = 0)) as [H0|H0].
  - subst w'. rewrite H0. cbn [Z.eqb]. eexists _, w1. split; [done|]. split_and!; try done; [apply Hst|apply Hr].
  - rewrite (proj2 (Z.eqb_neq _ _) H0). destruct Hcase as (-> & s2 & -> & E'). cbn [mbind option_bind]. rewrite <- E'.
    eexists _, w'. split; [done|]. split_and!; try done; [apply Hst|apply Hr].
Qed.

(** The handler, once the line is parsed. *)
Lemma set_allocates copy_chunks a w key f e data c : hist w -> few 26 w -> noreply c = false -> 2048 <= wsize c ->
  let n := Z.of_nat (length data) in
  (forall i sl id, alloc_ok (slab_set set) (a_es a i sl) sl id) -> alloc_size set key f (n + 2) <= slab_chunk_size_max (slab_set set) ->
  exists c1 w1,
    ('(it, s) ← do_item_alloc set hash nchunks (a_es a) (a_trylock a) (a_locked a) key f e (n + 2) (wstore w);
     if it =? 0 then update_failed set hash nchunks NREAD_SET key f (n + 2) c s
     else
       let s := upd_item (ITEM_set_cas 0) it s in
       Some (with_state conn_nread (with_item it (nbytes (item_at s it)) NREAD_SET c), s)) = Some (c1, wstore w1) /\ hist w1 /\
    (state c1 = conn_write /\ write_and_go c1 = conn_swallow /\ sbytes c1 = n + 2 /\ wbuf c1 ∈ refusals /\ stored w1 key = 0 /\
       (forall x, held w1 x = held w x) \/
     state c1 = conn_nread /\ rlbytes c1 = n + 2 /\
       let it := c_item c1 in
       key_of w1 it = key /\ FLAGS_CONV (item_at (wstore w1) it) = f /\ exptime (item_at (wstore w1) it) = e /\
       let w2 := keep (upd_item (set_data (write 0 (data ++ [13; 10]) (idata (item_at (wstore w1) it)))) it (wstore w1)) w1 in
       exists c' w', complete_nread_ascii set hash nchunks copy_chunks a c1 (wstore w2) = Some (c', wstore w') /\ hist w' /\
         (forall x, held w' x = held w x) /\ (forall k, k <> key -> stored w' k = stored w k \/ stored w' k = 0) /\
         stored w' key <> 0 /\ value (item_at (wstore w') (stored w' key)) = data ++ [13; 10] /\
         wbuf c' = bytes "STORED" ++ [13; 10] /\ state c' = conn_write /\ c_item c' = 0).
Proof.
  intros Hw Hf Hn Hsz n Ha Has.
  destruct (step_alloc set hash nchunks Hpage Hrepair a key f e (n + 2) w Hw (few_le 26 3 w ltac:(lia) Hf) Ha Has)
    as (it & wa & E & Hwa & Hha & Hsa & Hoa & Hra & _). rewrite E. cbn [mbind option_bind].
  assert (few 24 wa) as Hfa by (intros x; specialize (Hf x); specialize (Hra x); lia).
  destruct (Z.eqb_spec it 0) as [H0|H0].
  { destruct (set_failed wa key f (n + 2) c Hwa (few_le 24 8 wa ltac:(lia) Hfa) Hn Hsz) as (c1 & w1 & E1 & Hw1 & Hh1 & Hs1 & Hst & Hgo & Hsb & Hwb).
    exists c1, w1. split; [done|]. split; [done|]. left. split_and!; try done; [by rewrite Hs1, decide_True|].
    intros x. rewrite Hh1, Hha, decide_False by (intros [_ ?]; done). lia. }
  destruct (Hoa H0) as (_ & Hns & Hk & Hex & Hnb & Hfl & _).
  assert (0 < held wa it) as Hhn.
  { pose proof (history_held set hash nchunks Hpage Hrepair w it Hw). rewrite Hha, decide_True by done. lia. }
  assert (forall i, payload (ITEM_set_cas 0 i) = payload i) as Hpc by (intros i; unfold ITEM_set_cas; by case_if).
  destruct (step_header set hash nchunks Hpage Hrepair wa it (ITEM_set_cas 0) Hwa (few_le 24 3 wa ltac:(lia) Hfa) Hhn (keeps_set_cas 0) Hpc)
    as (Hw1 & Hs1 & Hr1 & Hp1). set (w1 := keep _ wa) in *.
  assert (item_at (wstore w1) it = ITEM_set_cas 0 (item_at (wstore wa) it)) as Hat.
  { destruct (history_used set hash nchunks Hpage Hrepair wa it Hwa (held_refs_pos _ _ Hhn)) as (i & Hi & _). by apply (at_upd _ _ _ i). }
  assert (forall i, FLAGS_CONV (ITEM_set_cas 0 i) = FLAGS_CONV i /\ exptime (ITEM_set_cas 0 i) = exptime i /\ nbytes (ITEM_set_cas 0 i) = nbytes i /\
    ikey (ITEM_set_cas 0 i) = ikey i) as Hfields by (intros i; unfold ITEM_set_cas; by case_if).
  destruct (Hfields (item_at (wstore wa) it)) as (F1 & F2 & F3 & F4). rewrite <- Hat in F1, F2, F3, F4.
  assert (key_of w1 it = key) as Hk1 by (unfold key_of in *; congruence).
  assert (nbytes (item_at (wstore w1) it) = n + 2) as Hnb1 by congruence.
  change (upd_item (ITEM_set_cas 0) it (wstore wa)) with (wstore w1). eexists _, w1. split; [done|]. split; [done|]. right.
  cbn [state with_state rlbytes with_item c_item]. split_and!; try done; [congruence|congruence|].
  assert (is_linked w1 it = false) as Hl1.
  { rewrite (linked_stored set hash nchunks Hpage Hrepair w1 it Hw1 (held_refs_pos w1 it Hhn)). apply bool_decide_eq_false_2. rewrite Hs1. apply Hns. }
  destruct (nread_set a copy_chunks w1 it (with_state conn_nread (with_item it (nbytes (item_at (wstore w1) it)) NREAD_SET c)) data Hw1)
    as (c' & w' & E' & Hw' & Hh' & Ho' & H1 & H2 & H3); try done.
  { intros x. specialize (Hfa x). specialize (Hr1 x). lia. }
  rewrite Hk1 in *. exists c', w'. split_and!; try done; try apply H3.
  - intros x. rewrite Hh'. cbn [w1 keep held]. rewrite Hha. repeat destruct (decide _); naive_solver lia.
  - intros k Hne. rewrite (Ho' k Hne), Hs1. apply Hsa.
Qed.
End commands.

(** C15: the delete command.  A line whose words are "delete" and a key goes to the delete
    handler, and in every history the handler runs without a failure, replies DELETED
    when an item is stored under the key that has not expired and NOT_FOUND otherwise,
    leaves nothing under the key and every other key alone, and gives back every
    reference. *)
Theorem delete_command_deletes set hash (Hhash : KeyHash hash) nchunks (Hpage : 0 < slab_page_size (slab_set set) < 2 ^ 31)
    (Hrepair : tail_repair_time set = 0) pre cmd post key w c :
  Forall (fun b => b <> 0) cmd -> words [] cmd = [bytes "delete"; key] -> (length key <= 250)%nat ->
  noreply c = false -> 2048 <= wsize c -> history set hash nchunks w -> few 16 w ->
  let '(buf, tokens) := tokenize_command (pre ++ cmd ++ 0 :: post) (length pre) MAX_TOKENS in
  command_of buf tokens = H_delete /\ exists c' w',
    process_delete_command set hash nchunks buf tokens c (wstore w) = Some (c', wstore w') /\
    history set hash nchunks w' /\ (forall x, held w' x = held w x) /\
    (forall k, stored hash w' k = if decide (k = key) then 0 else stored hash w k) /\
    wbuf c' = (if live set hash w key then bytes "DELETED" else bytes "NOT_FOUND") ++ [13; 10] /\
    state c' = conn_write /\ write_and_go c' = conn_new_cmd.
Proof.
  intros Hc Hws Hk Hn Hsz Hw Hf. pose proof (tokenize_line pre cmd post _ Hc Hws ltac:(cbn; unfold MAX_TOKENS; lia)) as Hline.
  destruct (tokenize_command _ _ _) as [buf tokens]. destruct Hline as (Hlen & Htx & _). cbn [length] in Hlen, Htx.
  destruct (Htx 0%nat ltac:(lia)) as [T0 _]. destruct (Htx 1%nat ltac:(lia)) as [T1 L1]. cbn [nth] in T0, T1, L1. split.
  { unfold command_of, COMMAND_TOKEN. rewrite Hlen, T0. vm_compute. done. }
  unfold process_delete_command. rewrite Hlen. unfold KEY_TOKEN. rewrite T1, L1.
  rewrite (proj2 (Nat.ltb_ge KEY_MAX_LENGTH (length key))) by (unfold KEY_MAX_LENGTH; lia). cbn [Nat.ltb Nat.leb andb].
  destruct (take_out set hash nchunks Hpage Hrepair w key Hw (few_le 16 8 w ltac:(lia) Hf)) as (w1 & E & w' & Hw' & Hh & Hs & _ & Hcase).
  rewrite E. cbn [mbind option_bind]. rewrite (live_current set hash w key).
  destruct (decide (current set hash w key = 0)) as [H0|H0].
  - subst w'. rewrite H0. cbn [Z.eqb negb]. rewrite out_string_eq by (done || (cbn; lia)). by eexists _, w1.
  - rewrite (proj2 (Z.eqb_neq _ _) H0). destruct Hcase as (_ & s2 & -> & E'). cbn [mbind option_bind negb]. rewrite <- E'.
    rewrite out_string_eq by (done || (cbn; lia)). by eexists _, w'.
Qed.

(** The data line of a refused [set] is swallowed only when a reply is written: with
    "noreply" the connection goes on to read a command, and takes the data for one. *)
Lemma noreply_data_not_swallowed set hash nchunks comm key flags vlen c s c' s' : noreply c = true ->
  update_failed set hash nchunks comm key flags vlen c s = Some (c', s') -> state c' = conn_new_cmd.
Proof.
  intros Hn E. unfold update_failed, out_of_memory, out_string in E. cbn zeta in E. rewrite Hn in E.
  assert (forall b : bool, state (if b then with_state conn_new_cmd (with_noreply false c) else with_state conn_new_cmd (with_noreply false c)) = conn_new_cmd)
    as Hs by by intros [].
  case_bool_decide; [|injection E as <- <-; apply Hs].
  destruct (do_item_get _ _ _ _ _ _ _) as [[it s1]|]; [|done]. cbn [mbind option_bind] in E. destruct (it =? 0); [injection E as <- <-; apply Hs|].
  destruct (do_item_unlink _ _ _ _ _); [|done]. cbn [mbind option_bind] in E. injection E as <- <-. apply Hs.
Qed.

Module ProtoExample.
Import HistoryExample.
Definition c0 : client :=
  {| cn := StoreExample.c0; noreply := false; state := conn_parse_cmd; write_and_go := conn_new_cmd; wbuf := []; wsize := 2048;
     c_item := 0; rlbytes := 0; c_cmd := NREAD_ADD; sbytes := 0 |}.
Lemma few4 n : n <= 1000 -> McStore.few n w4.2.
Proof. intros Hn. apply (few_of n 4); [exact b4|]. assert (length (concat (bumps (wstore w4.2))) = 0)%nat as -> by (vm_compute; reflexivity). lia. Qed.
End ProtoExample.

(** "A" is stored; the command deletes it. *)
Lemma delete_command_deletes_witness :
  let '(buf, tokens) := tokenize_command (bytes "delete A" ++ [0]) 0 MAX_TOKENS in exists c' w',
  process_delete_command HistoryExample.set Witness.sum_hash 0 buf tokens ProtoExample.c0 (wstore HistoryExample.w4.2) = Some (c', wstore w') /\
  stored Witness.sum_hash w' [65] = 0 /\ wbuf c' = bytes "DELETED" ++ [13; 10].
Proof.
  pose proof (delete_command_deletes HistoryExample.set Witness.sum_hash Witness.sum_hash_range 0 SlabExample.page_ok eq_refl
    [] (bytes "delete A") [] [65] HistoryExample.w4.2 ProtoExample.c0) as H.
  destruct H as (_ & c' & w' & E & _ & _ & Hs & Hb & _).
  - repeat constructor; discriminate.
  - reflexivity.
  - cbn. lia.
  - reflexivity.
  - cbn. lia.
  - exact HistoryExample.h4.
  - apply ProtoExample.few4. lia.
  - exists c', w'. split; [exact E|]. split; [rewrite Hs; reflexivity|]. rewrite Hb. vm_compute. reflexivity.
Defined.

(** C14: the set command, from the line to the stored value.  A line whose words are "set",
    a key and three numbers goes to the update handler, and in every history the handler
    runs without a failure.  Either the allocation failed: then it replies so, arranges
    for the data to be swallowed, and nothing is left under the key; or it has an item
    with the key, the flags, the expiry time and room for the data: then, after the data
    and the line end are read into it, the reply is STORED, the key leads to an item with
    exactly the data and the line end, other keys lose at most their items to
    eviction, and no reference is left over. *)
Theorem set_command_stores set hash (Hhash : KeyHash hash) nchunks (Hpage : 0 < slab_page_size (slab_set set) < 2 ^ 31)
    (Hrepair : tail_repair_time set = 0) copy_chunks started a pre cmd post key f e data w c :
  let n := Z.of_nat (length data) in
  Forall (fun b => b <> 0) cmd -> words [] cmd = [bytes "set"; key; decimal f; decimal e; decimal n] -> (length key <= 250)%nat ->
  0 <= f < 2 ^ 32 -> 0 <= e < 2 ^ 31 -> n + 2 < 2 ^ 31 -> noreply c = false -> 2048 <= wsize c ->
  history set hash nchunks w -> few 26 w ->
  (forall i sl id, alloc_ok (slab_set set) (a_es a i sl) sl id) -> alloc_size set key f (n + 2) <= slab_chunk_size_max (slab_set set) ->
  let '(buf, tokens) := tokenize_command (pre ++ cmd ++ 0 :: post) (length pre) MAX_TOKENS in
  command_of buf tokens = H_update NREAD_SET false /\ exists c1 w1,
    process_update_command set hash nchunks started a buf tokens NREAD_SET false c (wstore w) = Some (c1, wstore w1) /\
    history set hash nchunks w1 /\
    (state c1 = conn_write /\ write_and_go c1 = conn_swallow /\ sbytes c1 = n + 2 /\ wbuf c1 ∈ refusals /\ stored hash w1 key = 0 /\
       (forall x, held w1 x = held w x) \/
     state c1 = conn_nread /\ rlbytes c1 = n + 2 /\
       let it := c_item c1 in
       key_of w1 it = key /\ FLAGS_CONV (item_at (wstore w1) it) = f /\
       exptime (item_at (wstore w1) it) = realtime started (current_time (wstore w)) e /\
       let w2 := keep (upd_item (set_data (write 0 (data ++ [13; 10]) (idata (item_at (wstore w1) it)))) it (wstore w1)) w1 in
       exists c' w', complete_nread_ascii set hash nchunks copy_chunks a c1 (wstore w2) = Some (c', wstore w') /\
         history set hash nchunks w' /\ (forall x, held w' x = held w x) /\
         (forall k, k <> key -> stored hash w' k = stored hash w k \/ stored hash w' k = 0) /\
         stored hash w' key <> 0 /\ value (item_at (wstore w') (stored hash w' key)) = data ++ [13; 10] /\
         wbuf c' = bytes "STORED" ++ [13; 10] /\ state c' = conn_write /\ c_item c' = 0).
Proof.
  intros n Hc Hws Hk Hfl He Hnn Hn Hsz Hw Hf Ha Has.
  pose proof (tokenize_line pre cmd post _ Hc Hws ltac:(cbn; unfold MAX_TOKENS; lia)) as Hline.
  destruct (tokenize_command _ _ _) as [buf tokens]. destruct Hline as (Hlen & Htx & Hsome). cbn [length] in Hlen, Htx, Hsome.
  destruct (Htx 0%nat ltac:(lia)) as [T0 _]. destruct (Htx 1%nat ltac:(lia)) as [T1 L1].
  destruct (Htx 2%nat ltac:(lia)) as [T2 _]. destruct (Htx 3%nat ltac:(lia)) as [T3 _]. destruct (Htx 4%nat ltac:(lia)) as [T4 _]. cbn [nth] in *. split.
  { unfold command_of, COMMAND_TOKEN. rewrite Hlen, T0. vm_compute. done. }
  unfold process_update_command. rewrite (no_noreply buf tokens n) by (rewrite Hlen; (lia || exact T4)).
  unfold KEY_TOKEN. rewrite L1, T1, T2, T3, T4. rewrite strtoul_decimal, !strtol_decimal by lia.
  rewrite (proj2 (Nat.ltb_ge KEY_MAX_LENGTH (length key))) by (unfold KEY_MAX_LENGTH; lia). cbn [andb negb].
  rewrite (proj2 (Z.ltb_ge e 0)), (proj2 (Z.ltb_ge n 0)), (proj2 (Z.ltb_ge _ n)) by lia. cbn [orb].
  by apply set_allocates.
Qed.

(** A new value for "A": the allocation succeeds, and the reply after the data is STORED. *)
Lemma set_command_stores_witness :
  let '(buf, tokens) := tokenize_command (bytes "set A 5 0 3" ++ [0]) 0 MAX_TOKENS in exists c1 w1 c' w',
  process_update_command HistoryExample.set Witness.sum_hash 0 0 StoreExample.env buf tokens NREAD_SET false ProtoExample.c0
    (wstore HistoryExample.w4.2) = Some (c1, wstore w1) /\ state c1 = conn_nread /\
  complete_nread_ascii HistoryExample.set Witness.sum_hash 0 StoreExample.no_chunks StoreExample.env c1
    (upd_item (set_data (write 0 (bytes "abc" ++ [13; 10]) (idata (item_at (wstore w1) (c_item c1))))) (c_item c1) (wstore w1)) = Some (c', wstore w') /\
  value (item_at (wstore w') (stored Witness.sum_hash w' [65])) = bytes "abc" ++ [13; 10] /\ wbuf c' = bytes "STORED" ++ [13; 10].
Proof.
  pose proof (set_command_stores HistoryExample.set Witness.sum_hash Witness.sum_hash_range 0 SlabExample.page_ok eq_refl
    StoreExample.no_chunks 0 StoreExample.env [] (bytes "set A 5 0 3") [] [65] 5 0 (bytes "abc") HistoryExample.w4.2 ProtoExample.c0) as H.
  destruct H as (_ & c1 & w1 & E & _ & Hcase).
  - repeat constructor; discriminate.
  - reflexivity.
  - cbn. lia.
  - lia.
  - lia.
  - cbn. lia.
  - reflexivity.
  - cbn. lia.
  - exact HistoryExample.h4.
  - apply ProtoExample.few4. lia.
  - intros i sl id. apply HistoryExample.fresh_env_ok.
  - vm_compute. discriminate.
  - destruct Hcase as [(Hst & _)|(Hst & _ & _ & _ & _ & c' & w' & E' & _ & _ & _ & _ & Hv & Hb & _)].
    + apply (f_equal (fmap (fun r => state r.1))) in E. cbn [fmap option_fmap option_map fst] in E. rewrite Hst in E. vm_compute in E. discriminate.
    + exists c1, w1, c', w'. split_and!; [exact E|exact Hst|exact E'|exact Hv|exact Hb].
Defined.
