(* ===== verification/McOutput.v ===== *)
(** The outgoing messages of a connection (src/memcached-sr/memcached.c): the list of
    message headers and the array of I/O vectors behind it, which [add_iov] fills,
    [build_udp_headers] completes and [transmit] sends.

    Both arrays are reallocated when they are full; [oom n] says that the [n]-th
    reallocation of the connection fails.  A vector entry refers to memory that is read
    when it is sent: literals and buffers of the connection, the header buffer, and the
    keys and values of items.  [None] is an access outside the arrays. *)
From S2P Require Import Prelude McItem McStore.

Definition IOV_MAX : nat := 1024.
Definition UDP_MAX_PAYLOAD_SIZE : Z := 1400.
Definition UDP_HEADER_SIZE : Z := 8.

Inductive base := Null | Literal (text : list Z) | Headers | ItemKey (x : Z) | ItemData (x : Z).
Record iovec := { iov_base : base; iov_off : Z; iov_len : Z }.
Definition blank_iov : iovec := {| iov_base := Null; iov_off := 0; iov_len := 0 |}.
(** [msg_iov] points to an entry of [iov]. *)
Record msghdr := { msg_iov : nat; msg_iovlen : nat }.

Record output := {
  is_udp : bool;
  request_id : Z;
  iov : list iovec;        (** [iovsize] entries *)
  iovused : nat;
  msglist : list msghdr;   (** [msgsize] entries *)
  msgused : nat;
  msgcurr : nat;
  msgbytes : Z;
  hdrbuf : list Z;
  hdrsize : nat;
  tries : nat;             (** reallocations so far *)
  malloc_fails : Z
}.

Definition with_iov (v : list iovec) (used : nat) (ms : list msghdr) (bytes : Z) (o : output) : output :=
  {| is_udp := is_udp o; request_id := request_id o; iov := v; iovused := used; msglist := ms; msgused := msgused o;
     msgcurr := msgcurr o; msgbytes := bytes; hdrbuf := hdrbuf o; hdrsize := hdrsize o; tries := tries o; malloc_fails := malloc_fails o |}.
Definition with_msgs (ms : list msghdr) (used curr : nat) (bytes : Z) (o : output) : output :=
  {| is_udp := is_udp o; request_id := request_id o; iov := iov o; iovused := iovused o; msglist := ms; msgused := used;
     msgcurr := curr; msgbytes := bytes; hdrbuf := hdrbuf o; hdrsize := hdrsize o; tries := tries o; malloc_fails := malloc_fails o |}.
Definition with_hdr (v : list iovec) (h : list Z) (n : nat) (o : output) : output :=
  {| is_udp := is_udp o; request_id := request_id o; iov := v; iovused := iovused o; msglist := msglist o; msgused := msgused o;
     msgcurr := msgcurr o; msgbytes := msgbytes o; hdrbuf := h; hdrsize := n; tries := tries o; malloc_fails := malloc_fails o |}.
(** A reallocation was tried; it may have failed. *)
Definition tried (failed : bool) (o : output) : output :=
  {| is_udp := is_udp o; request_id := request_id o; iov := iov o; iovused := iovused o; msglist := msglist o; msgused := msgused o;
     msgcurr := msgcurr o; msgbytes := msgbytes o; hdrbuf := hdrbuf o; hdrsize := hdrsize o; tries := S (tries o);
     malloc_fails := if failed then malloc_fails o + 1 else malloc_fails o |}.

Section output.
Context (oom : nat -> bool).

(** The message headers point at their entries of the new array, one behind the other. *)
Fixpoint repoint (iovnum : nat) (ms : list msghdr) : list msghdr :=
  match ms with
  | [] => []
  | m :: ms => {| msg_iov := iovnum; msg_iovlen := msg_iovlen m |} :: repoint (iovnum + msg_iovlen m) ms
  end.

(** The result is false when there is no memory. *)
Definition ensure_iov_space (o : output) : bool * output :=
  if (length (iov o) <=? iovused o)%nat then
    if oom (tries o) then (false, tried true o)
    else
      let ms := repoint 0 (take (msgused o) (msglist o)) ++ drop (msgused o) (msglist o) in
      (true, with_iov (iov o ++ replicate (length (iov o)) blank_iov) (iovused o) ms (msgbytes o) (tried false o))
  else (true, o).

(** [add_msghdr] up to the room for the UDP header. *)
Definition new_msghdr (o : output) : option (bool * output) :=
  let '(ok, o) :=
    if (length (msglist o) =? msgused o)%nat then
      if oom (tries o) then (false, tried true o)
      else
        let m := {| msg_iov := 0; msg_iovlen := 0 |} in
        (true, with_msgs (msglist o ++ replicate (length (msglist o)) m) (msgused o) (msgcurr o) (msgbytes o) (tried false o))
    else (true, o) in
  if ok : bool then
    if (msgused o <? length (msglist o))%nat then
      Some (true, with_msgs (<[msgused o := {| msg_iov := iovused o; msg_iovlen := 0 |}]> (msglist o)) (S (msgused o)) (msgcurr o) 0 o)
    else None
  else Some (false, o).

(** [&c->msglist[c->msgused - 1]] *)
Definition last_msg (o : output) : option msghdr := if (msgused o =? 0)%nat then None else msglist o !! (msgused o - 1)%nat.

(** The entry behind the last one of the last message. *)
Definition put_iov (b : base) (off len : Z) (o : output) : option output :=
  m ← last_msg o;
  let k := (msg_iov m + msg_iovlen m)%nat in
  if (k <? length (iov o))%nat then
    Some (with_iov (<[k := {| iov_base := b; iov_off := off; iov_len := len |}]> (iov o)) (S (iovused o))
            (<[(msgused o - 1)%nat := {| msg_iov := msg_iov m; msg_iovlen := S (msg_iovlen m) |}]> (msglist o)) (msgbytes o + len) o)
  else None.

(** [add_iov] of a UDP connection and [add_msghdr], which call each other; the results of
    [add_msghdr] are not used.  [None] is also the lack of fuel. *)
Fixpoint add_iov_udp (n : nat) (b : base) (off len : Z) (o : output) : option (bool * output) :=
  match n with
  | O => None
  | S n =>
      m ← last_msg o;
      o ← (if (msg_iovlen m =? IOV_MAX)%nat || (UDP_MAX_PAYLOAD_SIZE <=? msgbytes o) then
             '(ok, o) ← new_msghdr o;
             if ok : bool then snd <$> add_iov_udp n Null 0 UDP_HEADER_SIZE o else Some o
           else Some o);
      let '(ok, o) := ensure_iov_space o in
      if ok : bool then
        let leftover := if UDP_MAX_PAYLOAD_SIZE <? len + msgbytes o then len + msgbytes o - UDP_MAX_PAYLOAD_SIZE else 0 in
        let len := len - leftover in
        o ← put_iov b off len o;
        if 0 <? leftover then add_iov_udp n b (off + len) leftover o else Some (true, o)
      else Some (false, o)
  end.
Definition add_iov (b : base) (len : Z) (o : output) : option (bool * output) :=
  if is_udp o then add_iov_udp (Z.to_nat len + 3) b 0 len o
  else
    m ← last_msg o;
    o ← (if (msg_iovlen m =? IOV_MAX)%nat then snd <$> new_msghdr o else Some o);
    let '(ok, o) := ensure_iov_space o in
    if ok : bool then o ← put_iov b 0 len o; Some (true, o) else Some (false, o).
Definition add_msghdr (o : output) : option (bool * output) :=
  '(ok, o) ← new_msghdr o;
  if ok : bool then if is_udp o then add_iov Null UDP_HEADER_SIZE o else Some (true, o) else Some (false, o).

(** The state [process_command] and [out_string] start an answer in. *)
Definition reset_output (o : output) : option (bool * output) :=
  add_msghdr (with_msgs (msglist o) 0 0 (msgbytes o) (with_iov (iov o) 0 (msglist o) (msgbytes o) o)).

(** ** The headers of the datagrams *)

Definition udp_header (id i total : Z) : list Z :=
  [u8 (id / 256); u8 (id mod 256); u8 (i / 256); u8 (i mod 256); u8 (total / 256); u8 (total mod 256); 0; 0].
Fixpoint header_entries (i : nat) (ms : list msghdr) (v : list iovec) : option (list iovec) :=
  match ms with
  | [] => Some v
  | m :: ms =>
      if (msg_iov m <? length v)%nat then
        header_entries (S i) ms (<[msg_iov m := {| iov_base := Headers; iov_off := UDP_HEADER_SIZE * Z.of_nat i; iov_len := UDP_HEADER_SIZE |}]> v)
      else None
  end.
Definition build_udp_headers (o : output) : option (bool * output) :=
  let '(ok, o) :=
    if (hdrsize o <? msgused o)%nat then
      if oom (tries o) then (false, tried true o)
      else (true, with_hdr (iov o) (hdrbuf o) (msgused o * 2) (tried false o))
    else (true, o) in
  if ok : bool then
    v ← header_entries 0 (take (msgused o) (msglist o)) (iov o);
    let h := concat (map (fun i => udp_header (request_id o) (Z.of_nat i) (Z.of_nat (msgused o))) (seq 0 (msgused o))) in
    Some (true, with_hdr v h (hdrsize o) o)
  else Some (false, o).
End output.

(** ** Sending *)

Inductive transmit_result := TRANSMIT_COMPLETE | TRANSMIT_INCOMPLETE | TRANSMIT_SOFT_ERROR | TRANSMIT_HARD_ERROR.
(** What [sendmsg] returns: the bytes it took, that it would block, with the result of
    [update_event] behind it, or another error. *)
Inductive send_result := Sent (n : Z) | Again (updated : bool) | Failed.

(** The entries that were sent are taken off the message. *)
Fixpoint take_sent (v : list iovec) (fuel : nat) (m : msghdr) (res : Z) : option (msghdr * Z) :=
  match fuel with
  | O => Some (m, res)
  | S n =>
      if (msg_iovlen m =? 0)%nat then Some (m, res)
      else
        e ← v !! msg_iov m;
        if iov_len e <=? res then take_sent v n {| msg_iov := S (msg_iov m); msg_iovlen := msg_iovlen m - 1 |} (res - iov_len e)
        else Some (m, res)
  end.
Definition shift_entry (res : Z) (e : iovec) : iovec := {| iov_base := iov_base e; iov_off := iov_off e + res; iov_len := iov_len e - res |}.

(** A message that is sent is left behind. *)
Definition next_msg (o : output) : option output :=
  if (msgcurr o <? msgused o)%nat then
    m ← msglist o !! msgcurr o;
    Some (if (msg_iovlen m =? 0)%nat then with_msgs (msglist o) (msgused o) (S (msgcurr o)) (msgbytes o) o else o)
  else Some o.
Definition transmit (send : send_result) (o : output) : option (transmit_result * output) :=
  o ← next_msg o;
  if (msgcurr o <? msgused o)%nat then
    m ← msglist o !! msgcurr o;
    match send with
    | Sent res =>
        '(m', res) ← take_sent (iov o) (msg_iovlen m) m res;
        v ← (if 0 <? res then
               if (msg_iov m' <? length (iov o))%nat then Some (alter (shift_entry res) (msg_iov m') (iov o)) else None
             else Some (iov o));
        Some (TRANSMIT_INCOMPLETE, with_iov v (iovused o) (<[msgcurr o := m']> (msglist o)) (msgbytes o) o)
    | Again updated => Some (if updated then TRANSMIT_SOFT_ERROR else TRANSMIT_HARD_ERROR, o)
    | Failed => Some (TRANSMIT_HARD_ERROR, o)
    end
  else Some (TRANSMIT_COMPLETE, o).

(** ** What an answer holds *)

(** The messages [vs], one behind the other in the array. *)
Fixpoint place (k : nat) (vs : list (list iovec)) : list msghdr :=
  match vs with
  | [] => []
  | v :: vs => {| msg_iov := k; msg_iovlen := length v |} :: place (k + length v) vs
  end.
Record building (o : output) (vs : list (list iovec)) : Prop := {
  bd_used : (msgused o <= length (msglist o))%nat;
  bd_msgs : take (msgused o) (msglist o) = place 0 vs;
  bd_room : (0 < length (iov o))%nat /\ (0 < length (msglist o))%nat;
  bd_iovused : iovused o = length (concat vs) /\ (iovused o <= length (iov o))%nat;
  bd_iov : take (iovused o) (iov o) = concat vs
}.

Lemma place_app k us vs : place k (us ++ vs) = place k us ++ place (k + length (concat us)) vs.
Proof.
  revert k. induction us as [|u us IH]; intros k; cbn [app place concat length]; [by rewrite Nat.add_0_r|].
  rewrite IH, length_app. by rewrite Nat.add_assoc.
Qed.
Lemma length_place k vs : length (place k vs) = length vs.
Proof. revert k. induction vs as [|v vs IH]; intros k; cbn [place length]; [done|]. by rewrite IH. Qed.
Lemma repoint_place k j vs : repoint k (place j vs) = place k vs.
Proof. revert k j. induction vs as [|v vs IH]; intros k j; cbn [place repoint msg_iovlen]; [done|]. by rewrite IH. Qed.
Lemma bd_count o vs : building o vs -> msgused o = length vs.
Proof. intros Hb. pose proof (f_equal length (bd_msgs _ _ Hb)) as E. rewrite length_take, length_place in E. pose proof (bd_used _ _ Hb). lia. Qed.
Lemma concat_snoc {A} (us : list (list A)) v : concat (us ++ [v]) = concat us ++ v.
Proof. by rewrite concat_app, concat_cons, app_nil_r. Qed.

Lemma last_msg_building o us v : building o (us ++ [v]) ->
  last_msg o = Some {| msg_iov := length (concat us); msg_iovlen := length v |}.
Proof.
  intros Hb. pose proof (bd_count _ _ Hb) as Hn. rewrite length_app in Hn. cbn [length] in Hn. unfold last_msg.
  rewrite (proj2 (Nat.eqb_neq _ _)) by lia. rewrite <- (lookup_take_lt _ (msgused o)) by lia. rewrite (bd_msgs _ _ Hb), place_app.
  rewrite lookup_app_r by (rewrite length_place; lia). rewrite length_place. by replace (msgused o - 1 - length us)%nat with 0%nat by lia.
Qed.

Section building.
Context (oom : nat -> bool).

Lemma ensure_space o vs : building o vs -> exists ok o', ensure_iov_space oom o = (ok, o') /\ building o' vs /\
  (ok = true -> (iovused o' < length (iov o'))%nat) /\ (ok = false -> oom (tries o) = true) /\
  msgbytes o' = msgbytes o /\ is_udp o' = is_udp o /\ msgcurr o' = msgcurr o.
Proof.
  intros [Hu Hm Hr Hi Hv]. unfold ensure_iov_space. destruct (Nat.leb_spec (length (iov o)) (iovused o)).
  - destruct (oom (tries o)) eqn:E.
    + exists false, (tried true o). by split_and!.
    + eexists true, _. split; [done|]. split_and!; try done.
      * split; cbn [iov iovused msglist msgused with_iov tried]; try done.
        -- rewrite length_app, length_drop. rewrite Hm, repoint_place, length_place.
           apply (f_equal length) in Hm. rewrite length_take, length_place in Hm. lia.
        -- rewrite Hm, repoint_place. rewrite take_app_le by (rewrite length_place; apply (f_equal length) in Hm; rewrite length_take, length_place in Hm; lia).
           rewrite <- Hm, take_take. f_equal. lia.
        -- rewrite !length_app, length_drop, length_replicate, Hm, repoint_place, length_place.
           apply (f_equal length) in Hm. rewrite length_take, length_place in Hm. lia.
        -- rewrite length_app, length_replicate. lia.
        -- rewrite take_app_le by lia. done.
      * intros _. cbn [iov iovused with_iov tried]. rewrite length_app, length_replicate. lia.
  - exists true, o. by split_and!.
Qed.

Lemma new_msghdr_building o vs : building o vs -> exists ok o', new_msghdr oom o = Some (ok, o') /\
  building o' (if ok then vs ++ [[]] else vs) /\ (ok = false -> oom (tries o) = true) /\ (ok = true -> msgbytes o' = 0) /\
  is_udp o' = is_udp o /\ msgcurr o' = msgcurr o.
Proof.
  intros Hb. pose proof (bd_count _ _ Hb) as Hn. destruct Hb as [Hu Hm Hr Hi Hv]. unfold new_msghdr.
  assert (forall o1, (msgused o < length (msglist o1))%nat -> msgused o1 = msgused o -> iovused o1 = iovused o -> iov o1 = iov o ->
    take (msgused o) (msglist o1) = place 0 vs ->
    building (with_msgs (<[msgused o1 := {| msg_iov := iovused o1; msg_iovlen := 0 |}]> (msglist o1)) (S (msgused o1)) (msgcurr o1) 0 o1) (vs ++ [[]])) as Hnew.
  { intros o1 Hl E1 E2 E3 Ht. split; cbn [iov iovused msglist msgused with_msgs]; rewrite ?E1, ?E2, ?E3, ?concat_snoc, ?app_nil_r; try done.
    - rewrite length_insert. lia.
    - rewrite (take_S_r _ _ {| msg_iov := iovused o; msg_iovlen := 0 |}) by (apply list_lookup_insert_eq; lia).
      rewrite take_insert_ge, Ht, place_app by lia. cbn [place length Nat.add]. by rewrite (proj1 Hi).
    - split; [lia|]. rewrite length_insert. lia. }
  destruct (Nat.eqb_spec (length (msglist o)) (msgused o)).
  - destruct (oom (tries o)) eqn:E.
    + exists false, (tried true o). by split_and!.
    + match goal with |- context [with_msgs ?a ?b ?c ?d (tried false o)] => set (o1 := with_msgs a b c d (tried false o)) end.
      rewrite (proj2 (Nat.ltb_lt (msgused o1) _)) by (cbn; rewrite length_app, length_replicate; lia).
      eexists true, _. split; [done|]. split_and!; try done. apply (Hnew o1); try done; cbn [o1 msglist with_msgs tried].
      * rewrite length_app, length_replicate. lia.
      * by rewrite take_app_le by lia.
  - rewrite (proj2 (Nat.ltb_lt _ _)) by lia. eexists true, _. split; [done|]. split_and!; try done. apply Hnew; try done. lia.
Qed.

Lemma put_building o us v b off len : building o (us ++ [v]) -> (iovused o < length (iov o))%nat -> exists o',
  put_iov b off len o = Some o' /\ building o' (us ++ [v ++ [{| iov_base := b; iov_off := off; iov_len := len |}]]) /\
  msgbytes o' = msgbytes o + len /\ is_udp o' = is_udp o /\ msgcurr o' = msgcurr o /\ tries o' = tries o.
Proof.
  intros Hb Hl. unfold put_iov. rewrite (last_msg_building o us v Hb). cbn [mbind option_bind msg_iov msg_iovlen].
  pose proof (bd_count _ _ Hb) as Hn. rewrite length_app in Hn. cbn [length] in Hn. destruct Hb as [Hu Hm Hr Hi Hv].
  rewrite concat_snoc, length_app in Hi. rewrite (proj2 (Nat.ltb_lt _ _)) by lia. eexists. split; [done|]. split_and!; try done.
  split; cbn [iov iovused msglist msgused with_iov]; rewrite ?length_insert, ?concat_snoc; try done; try lia.
  - rewrite take_insert_lt by lia. rewrite Hm, !place_app. cbn [place Nat.add].
    rewrite insert_app_r_alt by (rewrite length_place; lia). rewrite length_place. replace (msgused o - 1 - length us)%nat with 0%nat by lia.
    cbn. rewrite length_app. cbn [length]. by rewrite Nat.add_1_r.
  - rewrite !length_app. cbn [length]. lia.
  - rewrite <- (proj1 Hi). erewrite take_S_r by (apply list_lookup_insert_eq; lia).
    rewrite take_insert_ge, Hv, concat_snoc by lia. by rewrite <- app_assoc.
Qed.

(** ** TCP *)

(** Whatever reallocations fail, an entry is added or the answer stays as it was. *)
Lemma add_iov_tcp o vs b len : building o vs -> vs <> [] -> is_udp o = false -> exists ok o' vs',
  add_iov oom b len o = Some (ok, o') /\ building o' vs' /\ vs' <> [] /\ is_udp o' = false /\ msgcurr o' = msgcurr o /\
  concat vs' = concat vs ++ (if ok then [{| iov_base := b; iov_off := 0; iov_len := len |}] else []) /\
  ((forall n, oom n = false) -> ok = true /\ (Forall (fun v => (length v <= IOV_MAX)%nat) vs -> Forall (fun v => (length v <= IOV_MAX)%nat) vs')).
Proof.
  intros Hb Hne Hu. destruct (exists_last Hne) as (us & v & ->). unfold add_iov. rewrite Hu, (last_msg_building o us v Hb).
  cbn [mbind option_bind msg_iovlen].
  assert (exists o1 us1 v1, (if (length v =? IOV_MAX)%nat then snd <$> new_msghdr oom o else Some o) = Some o1 /\
    building o1 (us1 ++ [v1]) /\ is_udp o1 = false /\ msgcurr o1 = msgcurr o /\ concat (us1 ++ [v1]) = concat (us ++ [v]) /\
    ((forall n, oom n = false) -> Forall (fun v => (length v <= IOV_MAX)%nat) (us ++ [v]) ->
       Forall (fun v => (length v <= IOV_MAX)%nat) us1 /\ (length v1 < IOV_MAX)%nat)) as (o1 & us1 & v1 & E1 & Hb1 & Hu1 & Hc1 & He1 & Hs1).
  { destruct (Nat.eqb_spec (length v) IOV_MAX) as [Hf|Hf].
    - destruct (new_msghdr_building o _ Hb) as (ok & o1 & E & Hb1 & Hoom & _ & Hu1 & Hc1). rewrite E. cbn [fmap option_fmap option_map snd].
      destruct ok.
      + exists o1, (us ++ [v]), []. split_and!; try done; [congruence|by rewrite concat_snoc, app_nil_r|]. intros _ HF. split; [done|]. cbn. unfold IOV_MAX. lia.
      + exists o1, us, v. split_and!; try done; [congruence|]. intros Hno. specialize (Hoom eq_refl). by rewrite Hno in Hoom.
    - exists o, us, v. split_and!; try done. intros _ HF. apply Forall_app in HF as [HF1 HF2]. apply Forall_inv in HF2. split; [done|]. lia. }
  rewrite E1. cbn [mbind option_bind].
  destruct (ensure_space o1 _ Hb1) as (ok & o2 & E2 & Hb2 & Hl2 & Hoom & _ & Hu2 & Hc2). rewrite E2. destruct ok.
  - destruct (put_building o2 us1 v1 b 0 len Hb2 (Hl2 eq_refl)) as (o3 & E3 & Hb3 & _ & Hu3 & Hc3 & _). rewrite E3. cbn [mbind option_bind].
    eexists true, o3, _. split_and!; try done; try congruence.
    + intros H. by apply (app_cons_not_nil us1 [] (v1 ++ [{| iov_base := b; iov_off := 0; iov_len := len |}])).
    + rewrite <- He1, !concat_snoc. by rewrite app_assoc.
    + intros Hno. split; [done|]. intros HF. destruct (Hs1 Hno HF) as [HF1 HF2]. apply Forall_app. split; [done|]. constructor; [|done].
      rewrite length_app. cbn [length]. lia.
  - exists false, o2, (us1 ++ [v1]). split_and!; try done; try congruence.
    + intros H. by apply (app_cons_not_nil us1 [] v1).
    + by rewrite He1, app_nil_r.
    + intros Hno. specialize (Hoom eq_refl). by rewrite Hno in Hoom.
Qed.

(** The start of an answer. *)
Lemma reset_building o : (0 < length (iov o))%nat -> (0 < length (msglist o))%nat ->
  building (with_msgs (msglist o) 0 0 (msgbytes o) (with_iov (iov o) 0 (msglist o) (msgbytes o) o)) [].
Proof. intros H1 H2. split; cbn; try done; try lia. Qed.
Lemma new_msghdr_first o : building o [] -> exists o', new_msghdr oom o = Some (true, o') /\ building o' [[]] /\ msgbytes o' = 0 /\
  is_udp o' = is_udp o /\ msgcurr o' = msgcurr o.
Proof.
  intros Hb. destruct (new_msghdr_building o _ Hb) as (ok & o' & E & Hb' & _ & Hm & Hu & Hc).
  assert (ok = true) as ->; [|exists o'; by rewrite (Hm eq_refl)].
  pose proof (bd_count _ _ Hb) as H0. destruct (bd_room _ _ Hb) as [_ Hr]. unfold new_msghdr in E. cbn [length] in H0. rewrite H0 in E.
  rewrite (proj2 (Nat.eqb_neq _ _)) in E by lia. rewrite H0 in E. rewrite (proj2 (Nat.ltb_lt _ _)) in E by lia. by injection E as <- <-.
Qed.
Lemma reset_tcp o : (0 < length (iov o))%nat -> (0 < length (msglist o))%nat -> is_udp o = false -> exists o',
  reset_output oom o = Some (true, o') /\ building o' [[]] /\ is_udp o' = false /\ msgcurr o' = 0%nat.
Proof.
  intros H1 H2 Hu. destruct (new_msghdr_first _ (reset_building o H1 H2)) as (o' & E & Hb & _ & Hu' & Hc).
  exists o'. unfold reset_output, add_msghdr. rewrite E. cbn [mbind option_bind]. rewrite Hu'. cbn [is_udp with_msgs with_iov]. by rewrite Hu.
Qed.

(** ** UDP *)

Definition udp_room : iovec := {| iov_base := Null; iov_off := 0; iov_len := UDP_HEADER_SIZE |}.
Definition vsize (v : list iovec) : Z := foldr (fun e n => iov_len e + n) 0 v.
(** A datagram: the room for the header, then the payload. *)
Definition datagram (v : list iovec) : Prop := exists p, v = udp_room :: p /\ vsize v <= UDP_MAX_PAYLOAD_SIZE /\ (length v <= IOV_MAX)%nat /\
  Forall (fun e => iov_base e <> Null) p.
Lemma vsize_app v w : vsize (v ++ w) = vsize v + vsize w.
Proof. unfold vsize. induction v as [|e v IH]; cbn; [done|]. rewrite IH. lia. Qed.

(** The entries [p] are [len] bytes from [off] on. *)
Fixpoint pieces (b : base) (off len : Z) (p : list iovec) : Prop :=
  match p with
  | [] => len = 0
  | e :: p => iov_base e = b /\ iov_off e = off /\ 0 <= iov_len e <= len /\ pieces b (off + iov_len e) (len - iov_len e) p
  end.
Definition payload_of (vs : list (list iovec)) : list iovec := concat (map tail vs).
Lemma payload_app us vs : payload_of (us ++ vs) = payload_of us ++ payload_of vs.
Proof. unfold payload_of. by rewrite map_app, concat_app. Qed.

Context (Hoom : forall n, oom n = false).

Lemma udp_put b off len o us v : building o (us ++ [v]) -> exists o1 o2, ensure_iov_space oom o = (true, o1) /\ msgbytes o1 = msgbytes o /\
  put_iov b off len o1 = Some o2 /\ building o2 (us ++ [v ++ [{| iov_base := b; iov_off := off; iov_len := len |}]]) /\
  msgbytes o2 = msgbytes o + len /\ is_udp o2 = is_udp o /\ msgcurr o2 = msgcurr o.
Proof.
  intros Hb. destruct (ensure_space o _ Hb) as (ok & o1 & E1 & Hb1 & Hl1 & Hf & Hm1 & Hu1 & Hc1).
  destruct ok; [|specialize (Hf eq_refl); by rewrite Hoom in Hf].
  destruct (put_building o1 us v b off len Hb1 (Hl1 eq_refl)) as (o2 & E2 & Hb2 & Hm2 & Hu2 & Hc2 & _).
  exists o1, o2. split_and!; try done; congruence.
Qed.
Lemma udp_first n o us : building o (us ++ [[]]) -> msgbytes o = 0 -> exists o',
  add_iov_udp oom (S n) Null 0 UDP_HEADER_SIZE o = Some (true, o') /\ building o' (us ++ [[udp_room]]) /\ msgbytes o' = UDP_HEADER_SIZE /\
  is_udp o' = is_udp o /\ msgcurr o' = msgcurr o.
Proof.
  intros Hb Hm. cbn [add_iov_udp]. rewrite (last_msg_building o us [] Hb). cbn [mbind option_bind msg_iovlen length]. rewrite Hm.
  change ((0 =? IOV_MAX)%nat || (UDP_MAX_PAYLOAD_SIZE <=? 0)) with false. cbn [mbind option_bind].
  destruct (udp_put Null 0 UDP_HEADER_SIZE o us [] Hb) as (o1 & o2 & E1 & Hm1 & E2 & Hb2 & Hm2 & Hu2 & Hc2).
  rewrite E1, Hm1, Hm. change (UDP_MAX_PAYLOAD_SIZE <? UDP_HEADER_SIZE + 0) with false. cbv zeta. rewrite Z.sub_0_r, E2. cbn [mbind option_bind Z.ltb Z.compare].
  exists o2. split_and!; try done. rewrite Hm2, Hm. done.
Qed.
Lemma datagram_first : datagram [udp_room].
Proof. exists []. split_and!; try done. unfold IOV_MAX. cbn. lia. Qed.

(** The state between two calls of [add_iov]. *)
Definition udp_state (o : output) (us : list (list iovec)) (v : list iovec) : Prop :=
  building o (us ++ [v]) /\ Forall datagram (us ++ [v]) /\ msgbytes o = vsize v /\ is_udp o = true.

(** A message with room for an entry. *)
Lemma udp_open n o us v : udp_state o us v -> exists o1 us1 v1,
  (if (length v =? IOV_MAX)%nat || (UDP_MAX_PAYLOAD_SIZE <=? msgbytes o) then
     '(ok, o) ← new_msghdr oom o;
     if ok : bool then snd <$> add_iov_udp oom (S n) Null 0 UDP_HEADER_SIZE o else Some o
   else Some o) = Some o1 /\ udp_state o1 us1 v1 /\ msgcurr o1 = msgcurr o /\ (length v1 < IOV_MAX)%nat /\ vsize v1 < UDP_MAX_PAYLOAD_SIZE /\
  payload_of (us1 ++ [v1]) = payload_of (us ++ [v]).
Proof.
  intros (Hb & Hd & Hm & Hu). destruct ((length v =? IOV_MAX)%nat || (UDP_MAX_PAYLOAD_SIZE <=? msgbytes o)) eqn:E.
  - destruct (new_msghdr_building o _ Hb) as (ok & o1 & E1 & Hb1 & Hf & Hm1 & Hu1 & Hc1).
    destruct ok; [|specialize (Hf eq_refl); by rewrite Hoom in Hf]. rewrite E1. cbn [mbind option_bind].
    destruct (udp_first n o1 (us ++ [v]) Hb1 (Hm1 eq_refl)) as (o2 & E2 & Hb2 & Hm2 & Hu2 & Hc2). rewrite E2. cbn [fmap option_fmap option_map snd].
    exists o2, (us ++ [v]), [udp_room]. split_and!; try done; try congruence.
    + split_and!; try done; [|congruence]. apply Forall_app. split; [done|]. constructor; [apply datagram_first|done].
    + unfold IOV_MAX. cbn. lia.
    + rewrite payload_app. unfold payload_of at 2. cbn. by rewrite app_nil_r.
  - apply orb_false_iff in E as [E1 E2]. apply Nat.eqb_neq in E1. apply Z.leb_gt in E2. exists o, us, v. split_and!; try done; [|lia].
    apply Forall_app in Hd as [_ Hd]. apply Forall_inv in Hd as (p & _ & _ & Hl & _). lia.
Qed.
Lemma datagram_snoc v e : datagram v -> (length v < IOV_MAX)%nat -> vsize v + iov_len e <= UDP_MAX_PAYLOAD_SIZE -> iov_base e <> Null -> datagram (v ++ [e]).
Proof.
  intros (p & -> & _ & _ & Hp) Hl Hs He. exists (p ++ [e]). cbn [app]. split_and!; try done.
  - rewrite app_comm_cons, vsize_app. unfold vsize at 2. cbn [foldr]. lia.
  - rewrite app_comm_cons, length_app. cbn [length]. cbn [length] in Hl. lia.
  - apply Forall_app. split; [done|]. by constructor.
Qed.

Lemma add_udp b : b <> Null -> forall n off len o us v, udp_state o us v -> 0 <= len -> (Z.to_nat len + 2 <= n)%nat -> exists o' us' v' p,
  add_iov_udp oom n b off len o = Some (true, o') /\ udp_state o' us' v' /\ msgcurr o' = msgcurr o /\
  payload_of (us' ++ [v']) = payload_of (us ++ [v]) ++ p /\ pieces b off len p.
Proof.
  intros Hnull n. induction n as [|n IH]; intros off len o us v Ho Hlen Hn; [lia|]. cbn [add_iov_udp].
  rewrite (last_msg_building o us v (proj1 Ho)). cbn [mbind option_bind msg_iovlen].
  destruct n as [|n]; [lia|]. destruct (udp_open n o us v Ho) as (o1 & us1 & v1 & E1 & (Hb1 & Hd1 & Hm1 & Hu1) & Hc1 & Hl1 & Hs1 & Hp1).
  rewrite E1. cbn [mbind option_bind]. clear E1.
  destruct (udp_put b off (Z.min len (UDP_MAX_PAYLOAD_SIZE - vsize v1)) o1 us1 v1 Hb1) as (o2 & o3 & E2 & Hm2 & E3 & Hb3 & Hm3 & Hu3 & Hc3).
  rewrite E2, Hm2, Hm1. cbv zeta.
  set (left := if UDP_MAX_PAYLOAD_SIZE <? len + vsize v1 then len + vsize v1 - UDP_MAX_PAYLOAD_SIZE else 0).
  assert (left = len - Z.min len (UDP_MAX_PAYLOAD_SIZE - vsize v1)) as Hleft.
  { unfold left. destruct (Z.ltb_spec UDP_MAX_PAYLOAD_SIZE (len + vsize v1)); lia. }
  replace (len - left) with (Z.min len (UDP_MAX_PAYLOAD_SIZE - vsize v1)) by lia. rewrite E3. cbn [mbind option_bind].
  set (k := Z.min len (UDP_MAX_PAYLOAD_SIZE - vsize v1)) in *. set (e := {| iov_base := b; iov_off := off; iov_len := k |}) in *.
  assert (udp_state o3 us1 (v1 ++ [e])) as Ho3.
  { split_and!; try done; [| |congruence].
    - apply Forall_app in Hd1 as [Hd1 Hd2]. apply Forall_app. split; [done|]. constructor; [|done]. apply Forall_inv in Hd2.
      apply datagram_snoc; try done. cbn [e iov_len]. lia.
    - rewrite Hm3, Hm1, vsize_app. unfold vsize at 3. cbn [foldr e iov_len]. lia. }
  assert (payload_of (us1 ++ [v1 ++ [e]]) = payload_of (us ++ [v]) ++ [e]) as Hp3.
  { rewrite <- Hp1, !payload_app, <- app_assoc. f_equal. apply Forall_app in Hd1 as [_ Hd2]. apply Forall_inv in Hd2 as (p & -> & _).
    unfold payload_of. cbn. by rewrite !app_nil_r. }
  destruct (Z.ltb_spec 0 left) as [Hl|Hl].
  - destruct (IH (off + k) left o3 us1 (v1 ++ [e]) Ho3) as (o4 & us4 & v4 & p & E4 & Ho4 & Hc4 & Hp4 & Hpc); [lia|lia|].
    rewrite E4. exists o4, us4, v4, (e :: p). split_and!; try done; [congruence|rewrite Hp4, Hp3; by rewrite <- app_assoc|].
    cbn [pieces e iov_base iov_off iov_len]. split_and!; try done; try lia. by replace (len - k) with left by lia.
  - exists o3, us1, (v1 ++ [e]), [e]. split_and!; try done; [congruence|]. cbn [pieces e iov_base iov_off iov_len]. split_and!; try done; lia.
Qed.
Lemma add_iov_datagrams b len o us v : b <> Null -> udp_state o us v -> 0 <= len -> exists o' us' v' p,
  add_iov oom b len o = Some (true, o') /\ udp_state o' us' v' /\ msgcurr o' = msgcurr o /\
  payload_of (us' ++ [v']) = payload_of (us ++ [v]) ++ p /\ pieces b 0 len p.
Proof. intros Hb Ho Hl. unfold add_iov. rewrite (proj2 (proj2 (proj2 Ho))). apply add_udp; try done; lia. Qed.
Lemma reset_udp o : (0 < length (iov o))%nat -> (0 < length (msglist o))%nat -> is_udp o = true -> exists o',
  reset_output oom o = Some (true, o') /\ udp_state o' [] [udp_room] /\ msgcurr o' = 0%nat.
Proof.
  intros H1 H2 Hu. destruct (new_msghdr_first _ (reset_building o H1 H2)) as (o1 & E1 & Hb1 & Hm1 & Hu1 & Hc1).
  destruct (udp_first (Z.to_nat UDP_HEADER_SIZE + 2) o1 [] Hb1 Hm1) as (o2 & E2 & Hb2 & Hm2 & Hu2 & Hc2).
  exists o2. unfold reset_output, add_msghdr. rewrite E1. cbn [mbind option_bind]. rewrite Hu1. cbn [is_udp with_msgs with_iov]. rewrite Hu.
  unfold add_iov. rewrite Hu1. cbn [is_udp with_msgs with_iov]. rewrite Hu. split_and!; [exact E2| |by rewrite Hc2].
  split_and!; try done; [|by rewrite Hu2, Hu1]. constructor; [apply datagram_first|done].
Qed.
End building.

(** ** Bytes *)

(** The memory an entry refers to. *)
Definition read (hdr : list Z) (h : Z -> item) (b : base) : list Z :=
  match b with
  | Null => []
  | Literal text => text
  | Headers => hdr
  | ItemKey x => ikey (h x)
  | ItemData x => value (h x)
  end.
Definition zslice (off len : Z) (l : list Z) : list Z := take (Z.to_nat len) (drop (Z.to_nat off) l).
Definition entry_bytes (hdr : list Z) (h : Z -> item) (e : iovec) : list Z := zslice (iov_off e) (iov_len e) (read hdr h (iov_base e)).
Definition bytes_of (hdr : list Z) (h : Z -> item) (v : list iovec) : list Z := concat (map (entry_bytes hdr h) v).
Definition readable (hdr : list Z) (h : Z -> item) (e : iovec) : Prop :=
  0 <= iov_off e /\ 0 <= iov_len e /\ iov_off e + iov_len e <= Z.of_nat (length (read hdr h (iov_base e))).

Section bytes.
Context (hdr : list Z) (h : Z -> item).

Lemma bytes_of_app v w : bytes_of hdr h (v ++ w) = bytes_of hdr h v ++ bytes_of hdr h w.
Proof. unfold bytes_of. by rewrite map_app, concat_app. Qed.
Lemma length_entry e : readable hdr h e -> Z.of_nat (length (entry_bytes hdr h e)) = iov_len e.
Proof. intros (H1 & H2 & H3). unfold entry_bytes, zslice. rewrite length_take, length_drop. lia. Qed.
Lemma length_bytes v : Forall (readable hdr h) v -> Z.of_nat (length (bytes_of hdr h v)) = vsize v.
Proof.
  induction 1 as [|e v He _ IH]; [done|]. unfold bytes_of in *. cbn [map concat vsize foldr]. rewrite length_app, Nat2Z.inj_add, IH, length_entry by done. done.
Qed.
Lemma slice_split off a b l : 0 <= off -> 0 <= a -> 0 <= b -> zslice off a l ++ zslice (off + a) b l = zslice off (a + b) l.
Proof.
  intros Ho Ha Hb. unfold zslice. rewrite !Z2Nat.inj_add by lia. rewrite <- drop_drop. apply take_take_drop.
Qed.
Lemma pieces_bytes b off len p : pieces b off len p -> 0 <= off -> off + len <= Z.of_nat (length (read hdr h b)) ->
  bytes_of hdr h p = zslice off len (read hdr h b) /\ Forall (readable hdr h) p.
Proof.
  revert off len. induction p as [|e p IH]; intros off len Hp Ho Hl; cbn [pieces] in Hp.
  - subst len. unfold zslice. by rewrite take_0.
  - destruct Hp as (<- & <- & Hlen & Hp). destruct (IH _ _ Hp ltac:(lia) ltac:(lia)) as [E HF]. split.
    + unfold bytes_of in *. cbn [map concat]. rewrite E. unfold entry_bytes. rewrite slice_split by lia. f_equal. lia.
    + constructor; [|done]. split_and!; lia.
Qed.
End bytes.

(** ** The headers are in front of the payloads *)

Definition header_entry (i : nat) : iovec := {| iov_base := Headers; iov_off := UDP_HEADER_SIZE * Z.of_nat i; iov_len := UDP_HEADER_SIZE |}.
Fixpoint headed (i : nat) (vs : list (list iovec)) : list (list iovec) :=
  match vs with
  | [] => []
  | v :: vs => (header_entry i :: tail v) :: headed (S i) vs
  end.
Lemma place_headed k i vs : Forall (fun v => v <> []) vs -> place k (headed i vs) = place k vs.
Proof.
  intros Hv. revert k i. induction Hv as [|v vs Hv _ IH]; intros k i; cbn [headed place]; [done|]. rewrite IH. by destruct v.
Qed.
Lemma length_headed i vs : Forall (fun v => v <> []) vs -> length (concat (headed i vs)) = length (concat vs).
Proof.
  intros Hv. revert i. induction Hv as [|v vs Hv _ IH]; intros i; cbn [headed concat]; [done|]. rewrite !length_app, IH. by destruct v.
Qed.
Lemma header_entries_headed vs : Forall (fun v => v <> []) vs -> forall pre post i,
  header_entries i (place (length pre) vs) (pre ++ concat vs ++ post) = Some (pre ++ concat (headed i vs) ++ post).
Proof.
  induction 1 as [|v vs Hv _ IH]; intros pre post i; cbn [place headed concat header_entries]; [done|].
  destruct v as [|e v]; [done|]. cbn [msg_iov tail app length]. rewrite (proj2 (Nat.ltb_lt _ _)) by (rewrite length_app; cbn; lia).
  rewrite insert_app_r_alt, Nat.sub_diag by lia. cbn [insert list_insert].
  specialize (IH (pre ++ header_entry i :: v) post (S i)). rewrite length_app in IH. cbn [length] in IH.
  rewrite <- !app_assoc in *. cbn [app] in *. exact IH.
Qed.

Lemma build_headers oom o vs : (forall n, oom n = false) -> building o vs -> Forall (fun v => v <> []) vs -> exists o',
  build_udp_headers oom o = Some (true, o') /\ building o' (headed 0 vs) /\ (length vs <= hdrsize o')%nat /\ msgcurr o' = msgcurr o /\
  hdrbuf o' = concat (map (fun i => udp_header (request_id o) (Z.of_nat i) (Z.of_nat (length vs))) (seq 0 (length vs))).
Proof.
  intros Hoom Hb Hne. pose proof (bd_count _ _ Hb) as Hn. unfold build_udp_headers.
  set (grown := if (hdrsize o <? msgused o)%nat then _ else _).
  assert (exists o1, grown = (true, o1) /\ (msgused o <= hdrsize o1)%nat /\ iov o1 = iov o /\ iovused o1 = iovused o /\ msglist o1 = msglist o /\
    msgused o1 = msgused o /\ msgcurr o1 = msgcurr o /\ request_id o1 = request_id o) as (o1 & -> & Hh & E1 & E2 & E3 & E4 & E5 & E6).
  { unfold grown. destruct (Nat.ltb_spec (hdrsize o) (msgused o)); [rewrite Hoom|]; eexists; split; try done; split_and!; try done; cbn; lia. }
  destruct Hb as [Hu Hm Hr Hi Hv]. rewrite E1, E3, E4, E6, Hm.
  pose proof (header_entries_headed vs Hne [] (drop (iovused o) (iov o)) 0) as E. cbn [app length] in E. rewrite <- Hv, take_drop in E. rewrite E.
  cbn [mbind option_bind]. eexists. split; [done|]. rewrite <- Hn. split_and!; try done.
  pose proof (length_headed 0 vs Hne) as Hlh. apply (f_equal length) in Hv. rewrite length_take in Hv.
  split; cbn [iov iovused msglist msgused with_hdr]; rewrite ?E2, ?E3, ?E4, ?Hlh; try done.
  - by rewrite place_headed.
  - rewrite length_app, length_drop, Hlh. lia.
  - rewrite length_app, length_drop, Hlh. lia.
  - rewrite <- (take_app_length (concat (headed 0 vs)) (drop (iovused o) (iov o))) at 2. f_equal. lia.
Qed.

Lemma header_bytes (f : nat -> list Z) : (forall i, length (f i) = 8%nat) -> forall n i j, (i < n)%nat ->
  zslice (UDP_HEADER_SIZE * Z.of_nat i) UDP_HEADER_SIZE (concat (map f (seq j n))) = f (j + i)%nat.
Proof.
  intros Hf. unfold zslice, UDP_HEADER_SIZE. induction n as [|n IH]; intros i j Hi; [lia|]. cbn [seq map concat]. destruct i as [|i].
  - rewrite Nat.add_0_r. apply take_app_length'. rewrite Hf. lia.
  - replace (Z.to_nat (8 * Z.of_nat (S i))) with (length (f j) + Z.to_nat (8 * Z.of_nat i))%nat by (rewrite Hf; lia).
    rewrite drop_app_add, IH by lia. f_equal. lia.
Qed.

Lemma length_headers (f : nat -> list Z) : (forall i, length (f i) = 8%nat) -> forall n j,
  Z.of_nat (length (concat (map f (seq j n)))) = UDP_HEADER_SIZE * Z.of_nat n.
Proof.
  intros Hf. induction n as [|n IH]; intros j; [done|]. cbn [seq map concat]. rewrite length_app, Nat2Z.inj_add, IH, Hf. unfold UDP_HEADER_SIZE. lia.
Qed.

(** A sequence of [add_iov] calls, up to the first that fails. *)
Fixpoint add_all (oom : nat -> bool) (parts : list (base * Z)) (o : output) : option (bool * output) :=
  match parts with
  | [] => Some (true, o)
  | (b, len) :: parts => '(ok, o) ← add_iov oom b len o; if ok : bool then add_all oom parts o else Some (false, o)
  end.
(** The bytes of the parts of an answer. *)
Definition part_ok (h : Z -> item) (p : base * Z) : Prop :=
  p.1 <> Null /\ p.1 <> Headers /\ 0 <= p.2 <= Z.of_nat (length (read [] h p.1)).
Definition part_bytes (h : Z -> item) (p : base * Z) : list Z := zslice 0 p.2 (read [] h p.1).
Definition own (e : iovec) : Prop := iov_base e <> Headers.
Lemma own_bytes hdr h v : Forall own v -> bytes_of hdr h v = bytes_of [] h v.
Proof.
  induction 1 as [|e v He _ IH]; [done|]. unfold bytes_of in *. cbn [map concat]. rewrite IH. f_equal. unfold entry_bytes, own in *. by destruct (iov_base e).
Qed.
Lemma own_readable hdr h e : own e -> readable hdr h e <-> readable [] h e.
Proof. unfold own, readable. by destruct (iov_base e). Qed.

Lemma pieces_own b off len p : b <> Headers -> pieces b off len p -> Forall own p.
Proof.
  intros Hb. revert off len. induction p as [|e p IH]; intros off len Hp; [done|]. destruct Hp as (He & _ & _ & Hp).
  constructor; [unfold own; congruence|by eapply IH].
Qed.

Lemma add_all_datagrams oom h parts : (forall n, oom n = false) -> Forall (part_ok h) parts -> forall o us v, udp_state o us v ->
  exists o' us' v' p, add_all oom parts o = Some (true, o') /\ udp_state o' us' v' /\ msgcurr o' = msgcurr o /\
    payload_of (us' ++ [v']) = payload_of (us ++ [v]) ++ p /\ bytes_of [] h p = concat (map (part_bytes h) parts) /\
    Forall (readable [] h) p /\ Forall own p.
Proof.
  intros Hoom HF. induction HF as [|[b len] parts (H1 & H2 & H3) _ IH]; intros o us v Ho; cbn [add_all].
  { exists o, us, v, []. split_and!; try done. by rewrite app_nil_r. }
  cbn [fst snd] in *.
  destruct (add_iov_datagrams oom Hoom b len o us v H1 Ho (proj1 H3)) as (o1 & us1 & v1 & p1 & E1 & Ho1 & Hc1 & Hp1 & Hpc).
  rewrite E1. cbn [mbind option_bind]. destruct (IH o1 us1 v1 Ho1) as (o2 & us2 & v2 & p2 & E2 & Ho2 & Hc2 & Hp2 & Hb2 & Hr2 & Hw2).
  destruct (pieces_bytes [] h b 0 len p1 Hpc ltac:(lia) ltac:(lia)) as [Hb1 Hr1].
  exists o2, us2, v2, (p1 ++ p2). split_and!; try done; [congruence|by rewrite Hp2, Hp1, <- app_assoc| | |].
  - rewrite bytes_of_app, Hb1, Hb2. done.
  - by apply Forall_app.
  - apply Forall_app. split; [by eapply pieces_own|done].
Qed.

(** The request id stays. *)
Section request.
Context (oom : nat -> bool).
Lemma request_space o : request_id (ensure_iov_space oom o).2 = request_id o.
Proof. unfold ensure_iov_space. by repeat case_if. Qed.
Lemma request_new o r : new_msghdr oom o = Some r -> request_id r.2 = request_id o.
Proof. unfold new_msghdr. repeat case_match; intros; simplify_eq; done. Qed.
Lemma request_put b off len o o' : put_iov b off len o = Some o' -> request_id o' = request_id o.
Proof. unfold put_iov. destruct (last_msg o); [|done]. cbn [mbind option_bind]. by case_match; intros; simplify_eq. Qed.
Lemma request_udp n : forall b off len o r, add_iov_udp oom n b off len o = Some r -> request_id r.2 = request_id o.
Proof.
  induction n as [|n IH]; intros b off len o r E; [done|]. cbn [add_iov_udp] in E. destruct (last_msg o) as [m|]; [|done]. cbn [mbind option_bind] in E.
  destruct (if _ || _ then _ else _) as [o1|] eqn:E1; [|done]. cbn [mbind option_bind] in E.
  assert (request_id o1 = request_id o) as <-.
  { destruct (_ || _); [|by injection E1 as <-]. destruct (new_msghdr oom o) as [[ok o2]|] eqn:E2; [|done]. cbn [mbind option_bind] in E1.
    apply request_new in E2. cbn [snd] in E2. destruct ok; [|injection E1 as <-; done].
    destruct (add_iov_udp oom n Null _ _ o2) as [r2|] eqn:E3; [|done]. injection E1 as <-. apply IH in E3. congruence. }
  pose proof (request_space o1) as Hs. destruct (ensure_iov_space oom o1) as [ok o2]. cbn [snd] in Hs. destruct ok; [|injection E as <-; done].
  cbv zeta in E. match type of E with context [put_iov ?a ?b ?c ?d] => destruct (put_iov a b c d) as [o3|] eqn:E3 end; [|done]. cbn [mbind option_bind] in E.
  apply request_put in E3. case_match; [apply IH in E; congruence|injection E as <-; cbn; congruence].
Qed.
Lemma request_add b len o r : is_udp o = true -> add_iov oom b len o = Some r -> request_id r.2 = request_id o.
Proof. unfold add_iov. intros ->. apply request_udp. Qed.
Lemma request_all h parts : (forall n, oom n = false) -> Forall (part_ok h) parts -> forall o us v r, udp_state o us v ->
  add_all oom parts o = Some r -> request_id r.2 = request_id o.
Proof.
  intros Hoom HF. induction HF as [|[b len] parts (H1 & H2 & H3) _ IH]; intros o us v r Ho E; cbn [add_all] in E; [by injection E as <-|].
  destruct (add_iov_datagrams oom Hoom b len o us v H1 Ho (proj1 H3)) as (o1 & us1 & v1 & p1 & E1 & Ho1 & _).
  rewrite E1 in E. cbn [mbind option_bind] in E. apply (request_add b len) in E1; [|apply Ho]. cbn [snd] in E1. rewrite <- E1. by eapply IH.
Qed.
Lemma request_reset o r : is_udp o = true -> reset_output oom o = Some r -> request_id r.2 = request_id o.
Proof.
  unfold reset_output, add_msghdr. intros Hu E. destruct (new_msghdr oom _) as [[ok o1]|] eqn:E1; [|done]. cbn [mbind option_bind] in E.
  pose proof (request_new _ _ E1) as Hr. cbn [snd] in Hr. destruct ok; [|by injection E as <-].
  destruct (is_udp o1) eqn:Hu1; [|by injection E as <-]. apply request_add in E; [|done]. by rewrite E, Hr.
Qed.
End request.

(** The bytes of a message. *)
Definition message_bytes (h : Z -> item) (o : output) (i : nat) : list Z :=
  match msglist o !! i with
  | Some m => bytes_of (hdrbuf o) h (take (msg_iovlen m) (drop (msg_iov m) (iov o)))
  | None => []
  end.
Lemma place_lookup vs : forall k i v, vs !! i = Some v -> place k vs !! i = Some {| msg_iov := k + length (concat (take i vs)); msg_iovlen := length v |}.
Proof.
  induction vs as [|w vs IH]; intros k i v E; [done|]. destruct i as [|i]; cbn [place lookup list_lookup take concat length] in *.
  - injection E as ->. by rewrite Nat.add_0_r.
  - rewrite (IH _ _ _ E), length_app. by rewrite Nat.add_assoc.
Qed.
Lemma concat_split {A} (vs : list (list A)) i v : vs !! i = Some v -> concat vs = concat (take i vs) ++ v ++ concat (drop (S i) vs).
Proof. intros E. rewrite <- (take_drop_middle vs i v E) at 1. by rewrite concat_app. Qed.
Lemma building_message o vs i v : building o vs -> vs !! i = Some v -> exists m, msglist o !! i = Some m /\ msg_iovlen m = length v /\
  take (length v) (drop (msg_iov m) (iov o)) = v.
Proof.
  intros Hb E. pose proof (bd_count _ _ Hb) as Hn. pose proof (lookup_lt_Some _ _ _ E) as Hi.
  pose proof (place_lookup vs 0 i v E) as Ep. rewrite <- (bd_msgs _ _ Hb), lookup_take_lt in Ep by lia.
  eexists. split; [exact Ep|]. split; [done|]. cbn [msg_iov Nat.add]. rewrite <- (take_drop (iovused o) (iov o)), (bd_iov _ _ Hb), (concat_split vs i v E).
  rewrite <- !app_assoc, drop_app_length. apply take_app_length.
Qed.
Lemma headed_lookup vs : forall j i v, vs !! i = Some v -> headed j vs !! i = Some (header_entry (j + i) :: tail v).
Proof.
  induction vs as [|w vs IH]; intros j i v E; [done|]. destruct i as [|i]; cbn [headed lookup list_lookup] in *.
  - injection E as ->. by rewrite Nat.add_0_r.
  - by rewrite (IH _ _ _ E), Nat.add_succ_comm.
Qed.
Lemma datagram_ne vs : Forall datagram vs -> Forall (fun v => v <> []) vs.
Proof. intros HF. eapply Forall_impl; [exact HF|]. by intros v (p & -> & _). Qed.
Lemma payload_bytes hdr h vs : bytes_of hdr h (payload_of vs) = concat (map (fun v => bytes_of hdr h (tail v)) vs).
Proof. unfold payload_of. induction vs as [|v vs IH]; [done|]. cbn [map concat]. by rewrite bytes_of_app, IH. Qed.
Lemma payload_Forall (P : iovec -> Prop) vs i v : Forall P (payload_of vs) -> vs !! i = Some v -> Forall P (tail v).
Proof.
  unfold payload_of. intros HF E. apply Forall_concat in HF. rewrite Forall_lookup in HF. apply (HF i). apply list_lookup_fmap_Some_2 with (f := tail) in E. exact E.
Qed.

(** The datagrams, once the payload is complete. *)
Definition datagrams (h : Z -> item) (id : Z) (o : output) (reply : list Z) : Prop := exists ps,
  length ps = msgused o /\ concat ps = reply /\ Z.of_nat (length (hdrbuf o)) = UDP_HEADER_SIZE * Z.of_nat (msgused o) /\ (msgused o <= hdrsize o)%nat /\
  forall i p, ps !! i = Some p -> message_bytes h o i = udp_header id (Z.of_nat i) (Z.of_nat (length ps)) ++ p /\
    Z.of_nat (length (message_bytes h o i)) <= UDP_MAX_PAYLOAD_SIZE.
Lemma length_headed_vs j vs : length (headed j vs) = length vs.
Proof. revert j. induction vs as [|w vs IH]; intros j; cbn [headed length]; [done|]. by rewrite IH. Qed.
Lemma datagrams_built oom h o us v : (forall n, oom n = false) -> udp_state o us v ->
  Forall (readable [] h) (payload_of (us ++ [v])) -> Forall own (payload_of (us ++ [v])) -> exists o',
  build_udp_headers oom o = Some (true, o') /\ datagrams h (request_id o) o' (bytes_of [] h (payload_of (us ++ [v]))) /\
  building o' (headed 0 (us ++ [v])) /\ msgcurr o' = msgcurr o.
Proof.
  intros Hoom (Hb & Hd & _) Hr Hown. destruct (build_headers oom o (us ++ [v]) Hoom Hb (datagram_ne _ Hd)) as (o' & E & Hb' & Hh & Hc & Hbuf).
  set (vs := us ++ [v]) in *. pose proof (bd_count _ _ Hb') as Hn. rewrite length_headed_vs in Hn.
  exists o'. split_and!; try done. exists (map (fun v => bytes_of [] h (tail v)) vs). rewrite length_map. split_and!; try done; [by rewrite payload_bytes| |lia|].
  { rewrite Hbuf, Hn. by apply length_headers. }
  intros i q Hq. apply list_lookup_fmap_Some_1 in Hq as (w & -> & Hw). pose proof (headed_lookup vs 0 i w Hw) as Hhw.
  destruct (building_message o' _ i _ Hb' Hhw) as (m & Em & Elen & Eslice). pose proof (lookup_lt_Some _ _ _ Hw) as Hi.
  assert (message_bytes h o' i = udp_header (request_id o) (Z.of_nat i) (Z.of_nat (length vs)) ++ bytes_of [] h (tail w)) as Eb.
  { unfold message_bytes. rewrite Em, Elen, Eslice. unfold bytes_of at 1. cbn [map concat]. f_equal; [|apply own_bytes; by eapply payload_Forall].
    unfold entry_bytes. cbn [header_entry iov_base iov_off iov_len read]. by rewrite Hbuf, (header_bytes (fun i => udp_header _ (Z.of_nat i) _)) by done. }
  split; [exact Eb|]. rewrite Eb, length_app, Nat2Z.inj_add, (length_bytes [] h) by (by eapply payload_Forall).
  rewrite Forall_lookup in Hd. destruct (Hd i w Hw) as (pp & -> & Hs & _). exact Hs.
Qed.

(** C20: the datagrams of an answer.  When memory suffices, an answer that is put together from
    any literals, keys and values is cut into datagrams of at most 1400 bytes, each with the
    request's id, its number and the number of datagrams in front; the payloads in order
    are exactly the answer, and the headers fit into their buffer. *)
Theorem udp_answer_datagrams oom h parts o : (forall n, oom n = false) -> Forall (part_ok h) parts ->
  (0 < length (iov o))%nat -> (0 < length (msglist o))%nat -> is_udp o = true -> exists o1 o2 o3,
  reset_output oom o = Some (true, o1) /\ add_all oom parts o1 = Some (true, o2) /\ build_udp_headers oom o2 = Some (true, o3) /\
  datagrams h (request_id o) o3 (concat (map (part_bytes h) parts)).
Proof.
  intros Hoom HF H1 H2 Hu. destruct (reset_udp oom Hoom o H1 H2 Hu) as (o1 & E1 & Ho1 & _).
  destruct (add_all_datagrams oom h parts Hoom HF o1 [] [udp_room] Ho1) as (o2 & us & v & p & E2 & Ho2 & _ & Hp & Hbytes & Hr & Hown).
  pose proof (request_all oom h parts Hoom HF o1 _ _ _ Ho1 E2) as Hq2. pose proof (request_reset oom o _ Hu E1) as Hq1. cbn [snd] in Hq1, Hq2.
  change (payload_of ([] ++ [[udp_room]])) with (@nil iovec) in Hp. cbn [app] in Hp. rewrite <- Hp in Hr, Hown, Hbytes.
  destruct (datagrams_built oom h o2 us v Hoom Ho2 Hr Hown) as (o3 & E3 & Hd & _). exists o1, o2, o3. rewrite Hbytes in Hd. by rewrite Hq2, Hq1 in Hd.
Qed.

(** ** Sending *)

(** What is left to send: the messages are behind one another in the array. *)
Inductive spread (v : list iovec) : nat -> list msghdr -> list (list iovec) -> Prop :=
| spread_nil k : spread v k [] []
| spread_cons k m ms w ws : (k <= msg_iov m)%nat -> msg_iovlen m = length w -> take (length w) (drop (msg_iov m) v) = w ->
    spread v (msg_iov m + length w) ms ws -> spread v k (m :: ms) (w :: ws).
Definition sending (o : output) (ws : list (list iovec)) : Prop :=
  (msgused o <= length (msglist o))%nat /\ spread (iov o) 0 (drop (msgcurr o) (take (msgused o) (msglist o))) ws.

Lemma spread_place v : forall vs k pre post, length pre = k -> v = pre ++ concat vs ++ post -> spread v k (place k vs) vs.
Proof.
  induction vs as [|w vs IH]; intros k pre post Hk Hv; cbn [place]; [constructor|]. cbn [concat] in Hv. constructor; cbn [msg_iov msg_iovlen]; try done.
  - subst v k. rewrite drop_app_length, <- app_assoc. apply take_app_length.
  - apply (IH _ (pre ++ w) post); [rewrite length_app; lia|]. by rewrite Hv, <- !app_assoc.
Qed.
Lemma building_sending o vs : building o vs -> msgcurr o = 0%nat -> sending o vs.
Proof.
  intros [Hu Hm Hr Hi Hv] Hc. split; [done|]. rewrite Hc, drop_0, Hm. apply (spread_place _ vs 0 [] (drop (iovused o) (iov o))); [done|].
  cbn [app]. rewrite <- Hv. by rewrite take_drop.
Qed.
(** A store in front of the messages. *)
Lemma spread_alter v f j : forall ms ws k, (j < k)%nat -> spread v k ms ws -> spread (alter f j v) k ms ws.
Proof.
  intros ms ws k Hj Hs. induction Hs as [k|k m ms w ws Hk Hl Hw Hs IH]; [constructor|]. constructor; try done; [|apply IH; lia].
  by rewrite drop_alter_lt by lia.
Qed.
Lemma spread_le v k k' ms ws : (k <= k')%nat -> spread v k' ms ws -> spread v k ms ws.
Proof. intros Hk Hs. destruct Hs; constructor; try done. lia. Qed.

Lemma lookup_slice {A} (v : list A) p e w : take (S (length w)) (drop p v) = e :: w -> v !! p = Some e /\ take (length w) (drop (S p) v) = w.
Proof.
  intros E. assert (drop p v !! 0%nat = Some e) as E0 by (rewrite <- (lookup_take_lt _ (S (length w))) by lia; by rewrite E).
  rewrite lookup_drop, Nat.add_0_r in E0. split; [done|]. rewrite (drop_S v e p E0) in E. cbn [take] in E. by injection E.
Qed.

(** The loop over the entries: whole entries go, and what is left of the count is less than
    the first entry that stays. *)
Lemma take_sent_split v : forall w m res, msg_iovlen m = length w -> take (length w) (drop (msg_iov m) v) = w ->
  Forall (fun e => 0 <= iov_len e) w -> 0 <= res <= vsize w -> exists w1 w2 m' res',
  take_sent v (length w) m res = Some (m', res') /\ w = w1 ++ w2 /\ res = vsize w1 + res' /\ 0 <= res' /\
  msg_iov m' = (msg_iov m + length w1)%nat /\ msg_iovlen m' = length w2 /\
  (w2 = [] /\ res' = 0 \/ exists e w3, w2 = e :: w3 /\ res' < iov_len e).
Proof.
  induction w as [|e w IH]; intros m res Hl Hw Hp Hr; cbn [length take_sent] in *.
  - exists [], [], m, res. cbn in *. split_and!; try done; try lia. left. split; [done|lia].
  - rewrite Hl. cbn [Nat.eqb]. destruct (lookup_slice v (msg_iov m) e w Hw) as [E1 E2]. rewrite E1. cbn [mbind option_bind].
    apply Forall_cons in Hp as [He Hp]. cbn [vsize foldr] in Hr. fold (vsize w) in Hr. destruct (Z.leb_spec (iov_len e) res) as [Hle|Hlt].
    + destruct (IH {| msg_iov := S (msg_iov m); msg_iovlen := S (length w) - 1 |} (res - iov_len e)) as (w1 & w2 & m' & res' & E & Hs & Hres & H0 & Hi & Hn & Hc);
        cbn [msg_iov msg_iovlen]; try done; try lia.
      exists (e :: w1), w2, m', res'. split_and!; try done; cbn [app vsize foldr length msg_iov] in *; try lia; [by rewrite Hs|].
      fold (vsize w1). lia.
    + exists [], (e :: w), m, res. split_and!; try done; cbn; try lia. right. by exists e, w.
Qed.

Section sending.
Context (hdr : list Z) (h : Z -> item).

Definition all_readable (ws : list (list iovec)) : Prop := Forall (Forall (readable hdr h)) ws.
Definition left_bytes (ws : list (list iovec)) : list Z := bytes_of hdr h (concat ws).

Lemma readable_len e : readable hdr h e -> 0 <= iov_len e.
Proof. by intros (_ & H & _). Qed.
Lemma shift_bytes n e : readable hdr h e -> 0 <= n <= iov_len e -> readable hdr h (shift_entry n e) /\
  entry_bytes hdr h (shift_entry n e) = drop (Z.to_nat n) (entry_bytes hdr h e).
Proof.
  intros (H1 & H2 & H3) Hn. split; [split_and!; cbn; lia|]. unfold entry_bytes, zslice. cbn [shift_entry iov_base iov_off iov_len].
  rewrite Z2Nat.inj_add, Z2Nat.inj_sub by lia. by rewrite <- drop_drop, skipn_firstn_comm.
Qed.

(** The message behind a finished one. *)
Definition next_messages (ws : list (list iovec)) : list (list iovec) := match ws with [] :: ws => ws | ws => ws end.
Lemma skip_sent o ws : sending o ws -> exists o1, next_msg o = Some o1 /\ sending o1 (next_messages ws) /\ hdrbuf o1 = hdrbuf o.
Proof.
  intros [Hu Hs]. unfold next_msg. destruct (Nat.ltb_spec (msgcurr o) (msgused o)) as [Hc|Hc].
  - assert (exists m, msglist o !! msgcurr o = Some m) as [m Hm] by (apply lookup_lt_is_Some_2; lia). rewrite Hm. cbn [mbind option_bind].
    assert (take (msgused o) (msglist o) !! msgcurr o = Some m) as Hm' by (by rewrite lookup_take_lt).
    rewrite (drop_S _ m _ Hm') in Hs. inversion Hs as [|k m0 ms w ws' Hk Hl Hw Hs']; subst. eexists. split; [done|].
    destruct (Nat.eqb_spec (msg_iovlen m) 0) as [H0|H0].
    + destruct w; [|by rewrite H0 in Hl]. split; [|done]. split; [done|]. cbn [next_messages msgcurr with_msgs msgused msglist iov].
      eapply spread_le; [|exact Hs']. lia.
    + split; [|done]. split; [done|]. rewrite (drop_S _ m _ Hm'). destruct w as [|e w]; [done|]. cbn [next_messages]. by constructor.
  - exists o. split; [done|]. rewrite drop_ge in Hs by (rewrite length_take; lia). inversion Hs; subst.
    split; [|done]. split; [done|]. cbn [next_messages]. rewrite drop_ge by (rewrite length_take; lia). constructor.
Qed.

Lemma left_next ws : left_bytes (next_messages ws) = left_bytes ws.
Proof. by destruct ws as [|[|e w] ws]. Qed.
Lemma readable_next ws : all_readable ws -> all_readable (next_messages ws).
Proof. intros H. destruct ws as [|[|e w] ws]; try done. by apply Forall_cons in H as [_ H]. Qed.

(** The entries of the message [sendmsg] is given. *)
Definition offered (o : output) : list iovec :=
  match next_msg o with
  | Some o => match msglist o !! msgcurr o with
              | Some m => if (msgcurr o <? msgused o)%nat then take (msg_iovlen m) (drop (msg_iov m) (iov o)) else []
              | None => []
              end
  | None => []
  end.
Lemma current_message o w ws : sending o (w :: ws) -> exists m, msglist o !! msgcurr o = Some m /\ (msgcurr o < msgused o)%nat /\
  msg_iovlen m = length w /\ take (length w) (drop (msg_iov m) (iov o)) = w /\
  spread (iov o) (msg_iov m + length w) (drop (S (msgcurr o)) (take (msgused o) (msglist o))) ws.
Proof.
  intros [Hu Hs]. destruct (decide (msgcurr o < msgused o)%nat) as [Hc|Hc]; [|rewrite drop_ge in Hs by (rewrite length_take; lia); inversion Hs].
  assert (exists m, msglist o !! msgcurr o = Some m) as [m Hm] by (apply lookup_lt_is_Some_2; lia).
  assert (take (msgused o) (msglist o) !! msgcurr o = Some m) as Hm' by (by rewrite lookup_take_lt).
  rewrite (drop_S _ m _ Hm') in Hs. inversion Hs; subst. by exists m.
Qed.
Lemma offered_head o ws : sending o ws -> offered o = match next_messages ws with w :: _ => w | [] => [] end.
Proof.
  intros Hs. destruct (skip_sent o ws Hs) as (o1 & E & Hs1 & _). unfold offered. rewrite E. destruct (next_messages ws) as [|w ws1].
  - destruct Hs1 as [Hu Hs1]. destruct (Nat.ltb_spec (msgcurr o1) (msgused o1)) as [Hc|Hc]; [|by case_match].
    inversion Hs1 as [k Ek E0|]. apply (f_equal length) in E0. rewrite length_drop, length_take in E0. cbn in E0. lia.
  - destruct (current_message o1 w ws1 Hs1) as (m & Em & Hc & El & Ew & _). rewrite Em, (proj2 (Nat.ltb_lt _ _)) by done. by rewrite El.
Qed.

(** The bytes sent are the first of what is left. *)
Lemma transmit_sent o ws n : sending o ws -> all_readable ws -> 0 <= n <= vsize (offered o) ->
  next_messages ws <> [] -> exists o' w' ws', transmit (Sent n) o = Some (TRANSMIT_INCOMPLETE, o') /\ hdrbuf o' = hdrbuf o /\
  sending o' (w' :: ws') /\ all_readable (w' :: ws') /\ left_bytes (w' :: ws') = drop (Z.to_nat n) (left_bytes ws) /\
  next_messages ws = offered o :: ws' /\ (offered o = [] -> w' = []) /\ (vsize (offered o) = 0 -> w' = []) /\
  Z.of_nat (length (left_bytes ws)) = n + Z.of_nat (length (left_bytes (w' :: ws'))) /\
  take (Z.to_nat n) (left_bytes ws) = take (Z.to_nat n) (bytes_of hdr h (offered o)).
Proof.
  intros Hs Hr Hn Hne. rewrite (offered_head o ws Hs) in *. destruct (skip_sent o ws Hs) as (o1 & E & Hs1 & Hh1).
  apply readable_next in Hr. rewrite <- (left_next ws). destruct (next_messages ws) as [|w ws1]; [done|]. clear Hne Hs.
  destruct (current_message o1 w ws1 Hs1) as (m & Em & Hc & El & Ew & Hsp).
  apply Forall_cons in Hr as [Hrw Hrs].
  destruct (take_sent_split (iov o1) w m n El Ew) as (w1 & w2 & m' & res' & Ea & -> & Hres & H0 & Hi & Hl & Hcase); [|done|].
  { eapply Forall_impl; [exact Hrw|]. apply readable_len. }
  unfold transmit. rewrite E. cbn [mbind option_bind]. rewrite (proj2 (Nat.ltb_lt _ _)) by done. rewrite Em. cbn [mbind option_bind].
  rewrite El, Ea. cbn [mbind option_bind].
  apply Forall_app in Hrw as [Hr1 Hr2]. pose proof (length_bytes hdr h w1 Hr1) as Hb1.
  set (w' := match w2 with [] => [] | e :: w3 => if 0 <? res' then shift_entry res' e :: w3 else w2 end).
  set (v' := if 0 <? res' then alter (shift_entry res') (msg_iov m') (iov o1) else iov o1).
  assert ((if 0 <? res' then if (msg_iov m' <? length (iov o1))%nat then Some (alter (shift_entry res') (msg_iov m') (iov o1)) else None
           else Some (iov o1)) = Some v' /\ msg_iovlen m' = length w' /\ take (length w') (drop (msg_iov m') v') = w' /\
          Forall (readable hdr h) w' /\ bytes_of hdr h w' = drop (Z.to_nat res') (bytes_of hdr h w2) /\
          Z.of_nat (length (bytes_of hdr h w2)) = res' + Z.of_nat (length (bytes_of hdr h w'))) as (Ev & Hl' & Ht' & Hr' & Hb' & Hlen').
  { assert (take (length w2) (drop (msg_iov m') (iov o1)) = w2) as Et2.
    { rewrite Hi, <- drop_drop. apply (f_equal (drop (length w1))) in Ew. rewrite drop_app_length, length_app in Ew.
      by rewrite <- Ew at 2; rewrite skipn_firstn_comm; f_equal; lia. }
    destruct Hcase as [[-> ->]|(e & w3 & -> & Hlt)]; unfold v', w'; [by split_and!|].
    destruct (Z.ltb_spec 0 res') as [Hp|Hp].
    - destruct (lookup_slice _ _ _ _ Et2) as [Ee Et3]. rewrite (proj2 (Nat.ltb_lt _ _)) by (by eapply lookup_lt_Some).
      apply Forall_cons in Hr2 as [He Hr3]. destruct (shift_bytes res' e He ltac:(lia)) as [Hse Hsb]. split_and!; try done.
      + cbn [length]. rewrite (drop_S _ (shift_entry res' e)) by (by rewrite list_lookup_alter_eq, Ee). cbn [take]. f_equal.
        by rewrite drop_alter_lt by lia.
      + by constructor.
      + unfold bytes_of. cbn [map concat]. rewrite Hsb, drop_app_le; [done|]. pose proof (length_entry hdr h e He). lia.
      + unfold bytes_of. cbn [map concat]. rewrite Hsb, !length_app, length_drop. pose proof (length_entry hdr h e He). lia.
    - assert (res' = 0) as -> by lia. by rewrite drop_0. }
  rewrite Ev. cbn [mbind option_bind]. eexists _, w', ws1. split; [done|].
  assert (vsize (w1 ++ w2) = 0 -> w' = []) as Hzero.
  { rewrite vsize_app. intros Hz. pose proof (length_bytes hdr h w2 Hr2). destruct Hcase as [[-> _]|(e & w3 & -> & Hlt)]; [done|].
    apply Forall_cons in Hr2 as [He Hr3]. pose proof (length_bytes hdr h w3 Hr3). cbn [vsize foldr] in Hz. fold (vsize w3) in Hz.
    pose proof (length_bytes hdr h w1 Hr1). lia. }
  split_and!; try done.
  - split; cbn [iov msglist msgused msgcurr with_iov]; [rewrite length_insert; apply Hs1|].
    rewrite take_insert_lt by done. rewrite (drop_S _ m') by (rewrite list_lookup_insert_eq; [done|rewrite length_take; destruct Hs1; lia]).
    rewrite drop_insert_lt by lia. constructor; try done; [lia|].
    assert (spread v' (msg_iov m + length (w1 ++ w2)) (drop (S (msgcurr o1)) (take (msgused o1) (msglist o1))) ws1) as Hsp'.
    { unfold v'. case_if; [|done]. destruct Hcase as [[-> ->]|(e & w3 & -> & _)]; [done|]. apply spread_alter; [|done]. rewrite Hi, length_app. cbn [length]. lia. }
    eapply spread_le; [|exact Hsp']. rewrite Hi, length_app. lia.
  - by constructor.
  - unfold left_bytes. cbn [concat]. rewrite !bytes_of_app, Hb', <- app_assoc.
    replace (Z.to_nat n) with (length (bytes_of hdr h w1) + Z.to_nat res')%nat by lia. rewrite drop_app_add, drop_app_le; [done|]. lia.
  - intros Hnil. apply Hzero. by rewrite Hnil.
  - unfold left_bytes. cbn [concat]. rewrite !bytes_of_app, !length_app. lia.
  - unfold left_bytes. cbn [concat]. rewrite bytes_of_app, take_app_le; [done|]. rewrite bytes_of_app, length_app. lia.
Qed.
End sending.

(** ** The loop of the state conn_mwrite *)

(** [kernel i size]: what the [i]-th [sendmsg] returns when it is given [size] bytes.
    The loop goes on while the connection stays in the state; the result is that of the
    last call, with the bytes the client has got. *)
Fixpoint send_loop (h : Z -> item) (kernel : nat -> Z -> send_result) (n i : nat) (sent : list Z) (o : output)
    : option (transmit_result * list Z * output) :=
  match n with
  | O => Some (TRANSMIT_INCOMPLETE, sent, o)
  | S n =>
      let r := kernel i (vsize (offered o)) in
      let got := match r with Sent k => take (Z.to_nat k) (bytes_of (hdrbuf o) h (offered o)) | _ => [] end in
      '(t, o') ← transmit r o;
      match t with
      | TRANSMIT_INCOMPLETE => send_loop h kernel n (S i) (sent ++ got) o'
      | TRANSMIT_SOFT_ERROR => send_loop h kernel n (S i) sent o'
      | TRANSMIT_COMPLETE | TRANSMIT_HARD_ERROR => Some (t, sent, o')
      end
  end.

(** [sendmsg] takes no more than it is given. *)
Definition honest (kernel : nat -> Z -> send_result) : Prop := forall i size k, 0 <= size -> kernel i size = Sent k -> 0 <= k <= size.
(** It takes something, or it blocks in one of the calls [blocked]. *)
Definition progressing (kernel : nat -> Z -> send_result) (blocked : nat -> bool) : Prop := forall i size, 0 <= size ->
  match kernel i size with
  | Sent k => 0 <= k <= size /\ (0 < size -> 0 < k)
  | Again updated => updated = true /\ blocked i = true
  | Failed => False
  end.
(** The calls from the [i]-th on that do not block. *)
Fixpoint free_calls (blocked : nat -> bool) (i n : nat) : nat :=
  match n with O => O | S n => (if blocked i then 0 else 1) + free_calls blocked (S i) n end.
(** Calls that send an answer: one for every byte, and two for every message. *)
Definition send_cost (hdr : list Z) (h : Z -> item) (ws : list (list iovec)) : nat :=
  length (left_bytes hdr h ws) + length ws + length (filter (fun w => w <> []) ws).

Section loop.
Context (h : Z -> item) (kernel : nat -> Z -> send_result).

Lemma transmit_done r o ws : sending o ws -> next_messages ws = [] -> exists o', transmit r o = Some (TRANSMIT_COMPLETE, o') /\ sending o' [] /\ hdrbuf o' = hdrbuf o.
Proof.
  intros Hs Hn. destruct (skip_sent o ws Hs) as (o1 & E & Hs1 & Hh). rewrite Hn in Hs1. exists o1. split; [|done]. unfold transmit. rewrite E. cbn [mbind option_bind].
  destruct (Nat.ltb_spec (msgcurr o1) (msgused o1)) as [Hc|Hc]; [|done]. destruct Hs1 as [Hu Hs1].
  inversion Hs1 as [k Ek E0|]. apply (f_equal length) in E0. rewrite length_drop, length_take in E0. cbn in E0. lia.
Qed.
Lemma transmit_error r o ws : sending o ws -> next_messages ws <> [] -> (forall k, r <> Sent k) -> exists o' t, transmit r o = Some (t, o') /\
  sending o' (next_messages ws) /\ hdrbuf o' = hdrbuf o /\ t = match r with Again true => TRANSMIT_SOFT_ERROR | _ => TRANSMIT_HARD_ERROR end.
Proof.
  intros Hs Hn Hr. destruct (skip_sent o ws Hs) as (o1 & E & Hs1 & Hh). exists o1. unfold transmit. rewrite E. cbn [mbind option_bind].
  destruct (next_messages ws) as [|w ws1] eqn:En; [done|]. destruct (current_message o1 w ws1 Hs1) as (m & Em & Hc & _). rewrite (proj2 (Nat.ltb_lt _ _)) by done.
  rewrite Em. cbn [mbind option_bind]. destruct r as [k|[]|]; [by destruct (Hr k)| | |]; eexists; by split_and!.
Qed.
Lemma done_left hdr ws : next_messages ws = [] -> left_bytes hdr h ws = [].
Proof. destruct ws as [|[|e w] ws]; cbn; try done. by intros ->. Qed.
Lemma offered_size hdr o ws : sending o ws -> all_readable hdr h ws -> 0 <= vsize (offered o).
Proof.
  intros Hs Hr. rewrite (offered_head o ws Hs). apply readable_next in Hr. destruct (next_messages ws) as [|w ws1]; [done|].
  apply Forall_cons in Hr as [Hr _]. rewrite <- (length_bytes hdr h w Hr). lia.
Qed.

(** Nothing is lost, doubled or reordered, whatever the kernel takes. *)
Lemma send_loop_prefix : honest kernel -> forall n i sent o ws, sending o ws -> all_readable (hdrbuf o) h ws -> exists t more o' ws',
  send_loop h kernel n i sent o = Some (t, sent ++ more, o') /\ sending o' ws' /\ hdrbuf o' = hdrbuf o /\
  left_bytes (hdrbuf o) h ws = more ++ left_bytes (hdrbuf o) h ws' /\ (t = TRANSMIT_COMPLETE -> left_bytes (hdrbuf o) h ws = more).
Proof.
  intros Hk. induction n as [|n IH]; intros i sent o ws Hs Hr; cbn [send_loop].
  { exists TRANSMIT_INCOMPLETE, [], o, ws. by rewrite app_nil_r. }
  cbv zeta. destruct (decide (next_messages ws = [])) as [Hn|Hn].
  { destruct (transmit_done (kernel i (vsize (offered o))) o ws Hs Hn) as (o' & E & Hs' & Hh). rewrite E. cbn [mbind option_bind].
    exists TRANSMIT_COMPLETE, [], o', []. rewrite (done_left _ ws Hn). by rewrite app_nil_r. }
  pose proof (offered_size (hdrbuf o) o ws Hs Hr) as H0.
  destruct (kernel i (vsize (offered o))) as [k|u|] eqn:Er.
  - destruct (transmit_sent (hdrbuf o) h o ws k Hs Hr (Hk i _ k H0 Er) Hn) as (o' & w' & ws' & E & Hh & Hs' & Hr' & Hd & _ & _ & _ & _ & Ht).
    rewrite E. cbn [mbind option_bind]. rewrite <- Hh in Hr'.
    destruct (IH (S i) (sent ++ take (Z.to_nat k) (bytes_of (hdrbuf o) h (offered o))) o' _ Hs' Hr') as (t & more & o2 & ws2 & E2 & Hs2 & Hh2 & Hl2 & Hc2).
    rewrite E2. rewrite Hh in Hl2, Hc2. exists t, (take (Z.to_nat k) (bytes_of (hdrbuf o) h (offered o)) ++ more), o2, ws2.
    rewrite <- Ht, app_assoc. split_and!; try done; [congruence|by rewrite <- app_assoc, <- Hl2, Hd, take_drop|].
    intros Hcc. by rewrite <- (Hc2 Hcc), Hd, take_drop.
  - destruct (transmit_error (Again u) o ws Hs Hn ltac:(done)) as (o' & t & E & Hs' & Hh & ->). rewrite E. cbn [mbind option_bind]. destruct u.
    + rewrite <- Hh. destruct (IH (S i) sent o' (next_messages ws) Hs') as (t & more & o2 & ws2 & E2 & Hs2 & Hh2 & Hl2 & Hc2); [rewrite Hh; by apply readable_next|].
      rewrite E2. rewrite left_next in Hl2, Hc2. by exists t, more, o2, ws2.
    + exists TRANSMIT_HARD_ERROR, [], o', (next_messages ws). rewrite left_next, app_nil_r. by split_and!.
  - destruct (transmit_error Failed o ws Hs Hn ltac:(done)) as (o' & t & E & Hs' & Hh & ->). rewrite E. cbn [mbind option_bind].
    exists TRANSMIT_HARD_ERROR, [], o', (next_messages ws). rewrite left_next, app_nil_r. by split_and!.
Qed.

Lemma filter_empty_head (ws : list (list iovec)) : filter (fun w => w <> []) ([] :: ws) = filter (fun w => w <> []) ws.
Proof. apply filter_cons_False. intros H. by apply H. Qed.
Lemma cost_sent hdr o ws k w' ws' : next_messages ws = offered o :: ws' -> (0 < vsize (offered o) -> 0 < k) -> 0 <= vsize (offered o) -> 0 <= k ->
  (offered o = [] -> w' = []) -> (vsize (offered o) = 0 -> w' = []) ->
  Z.of_nat (length (left_bytes hdr h ws)) = k + Z.of_nat (length (left_bytes hdr h (w' :: ws'))) -> (send_cost hdr h (w' :: ws') < send_cost hdr h ws)%nat.
Proof.
  intros Hn Hp H0 Hk Hnil Hz Hl. unfold send_cost.
  assert (forall w : list iovec, (length (filter (fun w => w <> []) (w :: ws')) = (if decide (w = []) then 0 else 1) + length (filter (fun w => w <> []) ws'))%nat) as Hf.
  { intros w. rewrite filter_cons. destruct (decide (w = [])) as [-> |Hw]; [rewrite decide_False by (intros H; by apply H); done|by rewrite decide_True]. }
  rewrite Hf. destruct ws as [|[|e w] ws]; cbn [next_messages] in Hn; [done| |].
  - subst ws. rewrite filter_empty_head. cbn [length] in *. rewrite Hf.
    destruct (decide (offered o = [])) as [E|E]; [specialize (Hnil E); subst w'; rewrite decide_True by done; lia|]. case_decide; lia.
  - injection Hn as E <-. rewrite <- E in *. rewrite Hf. rewrite (decide_False (P := e :: w = [])) by done. cbn [length] in *.
    destruct (decide (0 < vsize (e :: w))) as [Hpos|Hpos]; [specialize (Hp Hpos); case_decide; lia|].
    specialize (Hz ltac:(lia)). subst w'. rewrite decide_True by done. lia.
Qed.

(** Enough calls that do not block send everything. *)
Lemma send_loop_completes blocked : progressing kernel blocked -> forall n i sent o ws, sending o ws -> all_readable (hdrbuf o) h ws ->
  (send_cost (hdrbuf o) h ws < free_calls blocked i n)%nat -> exists o',
  send_loop h kernel n i sent o = Some (TRANSMIT_COMPLETE, sent ++ left_bytes (hdrbuf o) h ws, o') /\ sending o' [].
Proof.
  intros Hk. induction n as [|n IH]; intros i sent o ws Hs Hr Hc; cbn [send_loop free_calls] in *; [lia|].
  cbv zeta. destruct (decide (next_messages ws = [])) as [Hn|Hn].
  { destruct (transmit_done (kernel i (vsize (offered o))) o ws Hs Hn) as (o' & E & Hs' & Hh). rewrite E. cbn [mbind option_bind].
    exists o'. by rewrite (done_left _ ws Hn), app_nil_r. }
  pose proof (offered_size (hdrbuf o) o ws Hs Hr) as H0. specialize (Hk i _ H0) as Hki. destruct (kernel i (vsize (offered o))) as [k|u|] eqn:Er; [| |done].
  - destruct Hki as [Hk1 Hk2].
    destruct (transmit_sent (hdrbuf o) h o ws k Hs Hr Hk1 Hn) as (o' & w' & ws' & E & Hh & Hs' & Hr' & Hd & Hnx & Hnil & Hz & Hlen & Ht).
    rewrite E. cbn [mbind option_bind]. rewrite <- Hh in Hr'.
    pose proof (cost_sent (hdrbuf o) o ws k w' ws' Hnx Hk2 H0 (proj1 Hk1) Hnil Hz Hlen) as Hcost. rewrite <- Hh in Hcost.
    destruct (IH (S i) (sent ++ take (Z.to_nat k) (bytes_of (hdrbuf o) h (offered o))) o' _ Hs' Hr') as (o2 & E2 & Hs2).
    { rewrite <- Hh in Hc. destruct (blocked i); lia. }
    exists o2. rewrite E2, Hh, Hd, <- Ht, <- app_assoc, take_drop. done.
  - destruct Hki as [-> Hb]. rewrite Hb in Hc. destruct (transmit_error (Again true) o ws Hs Hn ltac:(done)) as (o' & t & E & Hs' & Hh & ->).
    rewrite E. cbn [mbind option_bind].
    destruct (IH (S i) sent o' (next_messages ws) Hs') as (o2 & E2 & Hs2); [rewrite Hh; by apply readable_next| |].
    { rewrite Hh. assert (send_cost (hdrbuf o) h (next_messages ws) <= send_cost (hdrbuf o) h ws)%nat; [|lia].
      unfold send_cost. rewrite left_next. destruct ws as [|[|e w] ws]; cbn [next_messages]; try lia.
      rewrite filter_empty_head. cbn [length]. lia. }
    exists o2. rewrite E2, Hh, left_next. done.
Qed.
End loop.

Definition whole_entry (p : base * Z) : iovec := {| iov_base := p.1; iov_off := 0; iov_len := p.2 |}.
Lemma add_all_tcp oom parts : forall o vs, building o vs -> vs <> [] -> is_udp o = false -> exists ok o' vs',
  add_all oom parts o = Some (ok, o') /\ building o' vs' /\ vs' <> [] /\ is_udp o' = false /\ msgcurr o' = msgcurr o /\
  (ok = true -> concat vs' = concat vs ++ map whole_entry parts) /\ ((forall n, oom n = false) -> ok = true).
Proof.
  induction parts as [|[b len] parts IH]; intros o vs Hb Hne Hu; cbn [add_all].
  { exists true, o, vs. split_and!; try done. intros _. by rewrite app_nil_r. }
  destruct (add_iov_tcp oom o vs b len Hb Hne Hu) as (ok & o1 & vs1 & E1 & Hb1 & Hne1 & Hu1 & Hc1 & He1 & Ho1). rewrite E1. cbn [mbind option_bind].
  destruct ok; [|exists false, o1, vs1; split_and!; try done; intros Hno; by destruct (Ho1 Hno)].
  destruct (IH o1 vs1 Hb1 Hne1 Hu1) as (ok & o2 & vs2 & E2 & Hb2 & Hne2 & Hu2 & Hc2 & He2 & Ho2). rewrite E2.
  exists ok, o2, vs2. split_and!; try done; [congruence|]. intros Hok. rewrite (He2 Hok), He1, <- app_assoc. done.
Qed.
Lemma bytes_whole hdr h parts : Forall (part_ok h) parts -> bytes_of hdr h (map whole_entry parts) = concat (map (part_bytes h) parts) /\
  Forall (readable hdr h) (map whole_entry parts).
Proof.
  induction 1 as [|[b len] parts (H1 & H2 & H3) _ [IH1 IH2]]; [done|]. cbn [fst snd] in *. cbn [map concat].
  assert (read hdr h b = read [] h b) as Hb by (by destruct b).
  split; [unfold bytes_of in *; cbn [map concat]; rewrite IH1; f_equal; unfold entry_bytes; cbn [whole_entry iov_base iov_off iov_len fst snd]; by rewrite Hb|].
  constructor; [|done]. unfold readable. cbn [whole_entry iov_base iov_off iov_len fst snd]. rewrite Hb. lia.
Qed.
Lemma all_readable_concat hdr h vs : Forall (readable hdr h) (concat vs) -> all_readable hdr h vs.
Proof. intros H. by apply Forall_concat. Qed.
Lemma cost_le hdr h ws : (send_cost hdr h ws <= length (left_bytes hdr h ws) + 2 * length ws)%nat.
Proof. unfold send_cost. pose proof (length_filter (fun w : list iovec => w <> []) ws). lia. Qed.

(** C19: an answer over TCP.  Whatever reallocations fail, the calls that put an answer together
    stay inside the arrays and report whether they got all of it in.  If they did, the
    client gets exactly the bytes of the parts in order: no sequence of partial writes, of
    writes that block and of errors makes the connection send anything but a prefix of
    them, and all are sent, and the connection finishes, as soon as one write for every
    byte and two for every message did not block. *)
Theorem tcp_answer_delivered oom h parts o : Forall (part_ok h) parts -> (0 < length (iov o))%nat -> (0 < length (msglist o))%nat -> is_udp o = false ->
  let answer := concat (map (part_bytes h) parts) in exists o1 ok o2,
  reset_output oom o = Some (true, o1) /\ add_all oom parts o1 = Some (ok, o2) /\ ((forall n, oom n = false) -> ok = true) /\
  (ok = true -> (forall kernel, honest kernel -> forall n, exists t sent rest o3,
     send_loop h kernel n 0 [] o2 = Some (t, sent, o3) /\ answer = sent ++ rest /\ (t = TRANSMIT_COMPLETE -> rest = [])) /\
   forall kernel blocked, progressing kernel blocked -> forall n, (length answer + 2 * msgused o2 < free_calls blocked 0 n)%nat -> exists o3,
     send_loop h kernel n 0 [] o2 = Some (TRANSMIT_COMPLETE, answer, o3)).
Proof.
  intros HF H1 H2 Hu answer. destruct (reset_tcp oom o H1 H2 Hu) as (o1 & E1 & Hb1 & Hu1 & Hc1).
  destruct (add_all_tcp oom parts o1 [[]] Hb1 ltac:(done) Hu1) as (ok & o2 & vs & E2 & Hb2 & _ & _ & Hc2 & He2 & Ho2).
  exists o1, ok, o2. split_and!; try done. intros Hok. specialize (He2 Hok). cbn [concat app] in He2.
  destruct (bytes_whole (hdrbuf o2) h parts HF) as [Hbytes Hread]. rewrite <- He2 in Hbytes, Hread.
  pose proof (building_sending o2 vs Hb2 ltac:(congruence)) as Hs. pose proof (all_readable_concat _ _ _ Hread) as Hr. split.
  - intros kernel Hk n. destruct (send_loop_prefix h kernel Hk n 0 [] o2 vs Hs Hr) as (t & more & o3 & ws & E & _ & _ & Hl & Hc).
    exists t, more, (left_bytes (hdrbuf o2) h ws), o3. unfold left_bytes at 1 in Hl. rewrite Hbytes in Hl. split_and!; try done.
    intros Ht. specialize (Hc Ht). unfold left_bytes at 1 in Hc. rewrite Hbytes in Hc. fold answer in Hc, Hl. rewrite Hc in Hl.
    apply (app_inv_head more). by rewrite app_nil_r.
  - intros kernel blocked Hk n Hn. rewrite (bd_count _ _ Hb2) in Hn. pose proof (cost_le (hdrbuf o2) h vs) as Hcost.
    assert (left_bytes (hdrbuf o2) h vs = answer) as Ha by exact Hbytes. rewrite Ha in Hcost.
    destruct (send_loop_completes h kernel blocked Hk n 0 [] o2 vs Hs Hr ltac:(lia)) as (o3 & E & _). rewrite Ha in E. by exists o3.
Qed.

(** ** An answer under construction, over either transport *)

(** The entries [q] are the parts, each in one or more pieces. *)
Inductive cut : list (base * Z) -> list iovec -> Prop :=
| cut_nil : cut [] []
| cut_snoc ps q b len p : cut ps q -> pieces b 0 len p -> cut (ps ++ [(b, len)]) (q ++ p).
Definition holds (o : output) (ps : list (base * Z)) : Prop :=
  msgcurr o = 0%nat /\
  if is_udp o then exists us v, udp_state o us v /\ cut ps (payload_of (us ++ [v]))
  else exists vs, building o vs /\ vs <> [] /\ concat vs = map whole_entry ps.
(** The messages carry the answer [reply] to the request [id]. *)
Definition answers (h : Z -> item) (id : Z) (o : output) (reply : list Z) : Prop :=
  if is_udp o then datagrams h id o reply
  else exists vs, sending o vs /\ all_readable (hdrbuf o) h vs /\ left_bytes (hdrbuf o) h vs = reply.

Lemma cut_bytes h ps q : cut ps q -> Forall (part_ok h) ps ->
  bytes_of [] h q = concat (map (part_bytes h) ps) /\ Forall (readable [] h) q /\ Forall own q.
Proof.
  induction 1 as [|ps q b len p _ IH Hp]; intros HF; [done|]. apply Forall_app in HF as [HF1 HF2]. apply Forall_inv in HF2 as (H1 & H2 & H3). cbn [fst snd] in *.
  destruct (IH HF1) as (IH1 & IH2 & IH3). destruct (pieces_bytes [] h b 0 len p Hp ltac:(lia) ltac:(lia)) as [Hb Hr].
  split_and!; [|by apply Forall_app|apply Forall_app; split; [done|by eapply pieces_own]].
  rewrite bytes_of_app, IH1, Hb, map_app, concat_app. cbn [map concat]. by rewrite app_nil_r.
Qed.

Section holds.
Context (oom : nat -> bool) (Hoom : forall n, oom n = false).

Lemma holds_start o : (0 < length (iov o))%nat -> (0 < length (msglist o))%nat -> exists o', reset_output oom o = Some (true, o') /\ holds o' [] /\
  is_udp o' = is_udp o /\ (is_udp o = true -> request_id o' = request_id o).
Proof.
  intros H1 H2. destruct (is_udp o) eqn:Hu.
  - destruct (reset_udp oom Hoom o H1 H2 Hu) as (o' & E & Ho & Hc). exists o'. pose proof (request_reset oom o _ Hu E) as Hq. pose proof Ho as (_ & _ & _ & Hu').
    split_and!; try done. unfold holds. rewrite Hu'. split; [done|]. exists [], [udp_room]. split; [done|]. constructor.
  - destruct (reset_tcp oom o H1 H2 Hu) as (o' & E & Hb & Hu' & Hc). exists o'. split_and!; try done. unfold holds. rewrite Hu'. split; [done|].
    by exists [[]].
Qed.
Lemma holds_add o ps b len : holds o ps -> b <> Null -> 0 <= len -> exists o', add_iov oom b len o = Some (true, o') /\ holds o' (ps ++ [(b, len)]) /\
  is_udp o' = is_udp o /\ (is_udp o = true -> request_id o' = request_id o).
Proof.
  intros [Hc Ho] Hb Hl. destruct (is_udp o) eqn:Hu.
  - destruct Ho as (us & v & Ho & Hcut). destruct (add_iov_datagrams oom Hoom b len o us v Hb Ho Hl) as (o' & us' & v' & p & E & Ho' & Hc' & Hp & Hpc).
    pose proof (request_add oom b len o _ Hu E) as Hq. pose proof Ho' as (_ & _ & _ & Hu'). exists o'. split_and!; try done. unfold holds. rewrite Hu'.
    split; [congruence|]. exists us', v'. split; [done|]. rewrite Hp. by constructor.
  - destruct Ho as (vs & Hbd & Hne & He). destruct (add_iov_tcp oom o vs b len Hbd Hne Hu) as (ok & o' & vs' & E & Hb' & Hne' & Hu' & Hc' & He' & Hok).
    destruct (Hok Hoom) as [-> _]. exists o'. split_and!; try done. unfold holds. rewrite Hu'. split; [congruence|]. exists vs'. split_and!; try done.
    by rewrite He', He, map_app.
Qed.
Lemma holds_tried b o ps : holds o ps -> holds (tried b o) ps.
Proof.
  intros [Hc Ho]. split; [done|]. cbn [is_udp tried]. destruct (is_udp o) eqn:Hu.
  - destruct Ho as (us & v & (Hb & Hd & Hm & Hu1) & Hcut). exists us, v. split; [|done]. split_and!; try done. by destruct Hb; split.
  - destruct Ho as (vs & Hb & Hne & He). exists vs. split_and!; try done. by destruct Hb; split.
Qed.

(** ** Answers in one datagram *)

(** The same with every part in one entry of the only datagram. *)
Definition holds_one (o : output) (ps : list (base * Z)) : Prop :=
  msgcurr o = 0%nat /\ is_udp o = true /\ udp_state o [] (udp_room :: map whole_entry ps).
Definition parts_size (ps : list (base * Z)) : Z := foldr (fun p n => p.2 + n) 0 ps.
Definition fits_one (ps : list (base * Z)) : Prop :=
  UDP_HEADER_SIZE + parts_size ps <= UDP_MAX_PAYLOAD_SIZE - 1 /\ (length ps < IOV_MAX)%nat /\ Forall (fun p => 0 <= p.2) ps.
Lemma parts_size_app ps qs : parts_size (ps ++ qs) = parts_size ps + parts_size qs.
Proof. unfold parts_size. induction ps as [|p ps IH]; cbn; [done|]. rewrite IH. lia. Qed.
Lemma parts_size_nonneg ps : Forall (fun p => 0 <= p.2) ps -> 0 <= parts_size ps.
Proof. induction 1 as [|p ps Hp _ IH]; [cbn; lia|]. cbn [parts_size foldr]. fold (parts_size ps). lia. Qed.
Lemma vsize_whole ps : vsize (map whole_entry ps) = parts_size ps.
Proof. induction ps as [|p ps IH]; [done|]. cbn [map vsize foldr whole_entry iov_len]. fold (vsize (map whole_entry ps)). by rewrite IH. Qed.
Lemma fits_prefix ps qs : fits_one (ps ++ qs) -> fits_one ps.
Proof.
  unfold fits_one. rewrite parts_size_app, length_app. intros (H1 & H2 & H3). apply Forall_app in H3 as [H3 H4]. pose proof (parts_size_nonneg qs H4). split_and!; [lia|lia|done].
Qed.
Lemma holds_one_add o ps b len : holds_one o ps -> b <> Null -> 0 <= len -> fits_one (ps ++ [(b, len)]) -> exists o',
  add_iov oom b len o = Some (true, o') /\ holds_one o' (ps ++ [(b, len)]) /\ is_udp o' = is_udp o /\ (is_udp o = true -> request_id o' = request_id o).
Proof.
  intros (Hc & Hu & Hb & Hd & Hm & _) Hnull Hl Hf. pose proof (fits_prefix ps _ Hf) as (P1 & P2 & P3).
  destruct Hf as (F1 & F2 & F3). rewrite parts_size_app in F1. change (parts_size [(b, len)]) with (len + 0) in F1.
  rewrite length_app in F2. cbn [length] in F2. unfold add_iov. rewrite Hu. replace (Z.to_nat len + 3)%nat with (S (Z.to_nat len + 2)) by lia. cbn [add_iov_udp].
  cbn [app] in Hb. rewrite (last_msg_building o [] _ Hb). cbn [mbind option_bind msg_iovlen length]. rewrite length_map.
  assert (vsize (udp_room :: map whole_entry ps) = UDP_HEADER_SIZE + parts_size ps) as Hv by (rewrite <- vsize_whole; done). rewrite Hm, Hv.
  rewrite (proj2 (Nat.eqb_neq _ _)), (proj2 (Z.leb_gt _ _)) by lia. cbn [orb mbind option_bind].
  destruct (udp_put oom Hoom b 0 len o [] _ Hb) as (o1 & o2 & E1 & Hm1 & E2 & Hb2 & Hm2 & Hu2 & Hc2). rewrite E1, Hm1, Hm, Hv.
  rewrite (proj2 (Z.ltb_ge UDP_MAX_PAYLOAD_SIZE _)) by lia. cbv zeta. rewrite Z.sub_0_r, E2. cbn [mbind option_bind Z.ltb Z.compare].
  assert (request_id o2 = request_id o) as Hq.
  { pose proof (request_space oom o) as Hq1. rewrite E1 in Hq1. rewrite (request_put _ _ _ _ _ E2). exact Hq1. }
  exists o2. split_and!; try done; [|congruence]. unfold holds_one. split_and!; [congruence|congruence|]. rewrite map_app.
  split_and!; [exact Hb2| |rewrite Hm2, Hm; cbn [map app]; rewrite app_comm_cons, vsize_app; cbn [vsize foldr whole_entry iov_len snd]; lia|congruence].
  constructor; [|done]. cbn [map app]. rewrite app_comm_cons. apply datagram_snoc; [by apply Forall_inv in Hd| | |done].
  - cbn [length]. rewrite length_map. lia.
  - rewrite Hv. cbn [whole_entry iov_len snd]. lia.
Qed.
Lemma holds_one_start o : (0 < length (iov o))%nat -> (0 < length (msglist o))%nat -> is_udp o = true -> exists o',
  reset_output oom o = Some (true, o') /\ holds_one o' [] /\ request_id o' = request_id o.
Proof.
  intros H1 H2 Hu. destruct (reset_udp oom Hoom o H1 H2 Hu) as (o' & E & Ho & Hc). exists o'. pose proof Ho as (_ & _ & _ & Hu').
  split_and!; try done. by apply (request_reset oom o _ Hu E).
Qed.
Lemma holds_one_tried b o ps : holds_one o ps -> holds_one (tried b o) ps.
Proof. intros (Hc & Hu & Hb & Hd & Hm & Hu1). split_and!; try done. split_and!; try done. by destruct Hb; split. Qed.

(** The answer is complete. *)
Lemma headers_udp o ok o' : build_udp_headers oom o = Some (ok, o') -> is_udp o' = is_udp o.
Proof.
  intros E. unfold build_udp_headers in E. destruct (if (hdrsize o <? _)%nat then _ else _) as [ok1 o1] eqn:E1.
  assert (is_udp o1 = is_udp o) as Hu1 by (destruct (_ <? _)%nat; [destruct (oom _)|]; by injection E1 as <- <-).
  destruct ok1; [|by injection E as <- <-]. destruct (header_entries _ _ _); [|done]. cbn [mbind option_bind] in E. injection E as <- <-. exact Hu1.
Qed.
Lemma holds_finish h o ps : holds o ps -> Forall (part_ok h) ps -> exists o',
  (if is_udp o then build_udp_headers oom o else Some (true, o)) = Some (true, o') /\ answers h (request_id o) o' (concat (map (part_bytes h) ps)) /\
  msgcurr o' = 0%nat /\ is_udp o' = is_udp o.
Proof.
  intros [Hc Ho] HF. destruct (is_udp o) eqn:Hu.
  - destruct Ho as (us & v & Ho & Hcut). destruct (cut_bytes h ps _ Hcut HF) as (Hb & Hr & Hown).
    destruct (datagrams_built oom h o us v Hoom Ho Hr Hown) as (o' & E & Hd & _ & Hc'). exists o'. rewrite Hb in Hd.
    pose proof (headers_udp _ _ _ E) as Hu'. rewrite Hu in Hu'. split_and!; try done; [unfold answers; by rewrite Hu'|congruence].
  - destruct Ho as (vs & Hb & Hne & He). exists o. split_and!; try done. unfold answers. rewrite Hu. exists vs.
    destruct (bytes_whole (hdrbuf o) h ps HF) as [Hbytes Hread]. rewrite <- He in Hbytes, Hread.
    split_and!; [by apply building_sending|by apply all_readable_concat|exact Hbytes].
Qed.
Lemma whole_cut ps : Forall (fun p => 0 <= p.2) ps -> cut ps (map whole_entry ps).
Proof.
  induction ps as [|[b len] ps IH] using rev_ind; intros HF; [constructor|]. apply Forall_app in HF as [HF1 HF2]. apply Forall_inv in HF2. cbn [snd] in HF2.
  rewrite map_app. constructor; [by apply IH|]. cbn [map pieces whole_entry iov_base iov_off iov_len fst snd]. split_and!; try done; lia.
Qed.
(** One datagram carries the answer. *)
Definition in_one (h : Z -> item) (id : Z) (o : output) (reply : list Z) : Prop :=
  is_udp o = true /\ msgused o = 1%nat /\ message_bytes h o 0 = udp_header id 0 1 ++ reply.
Lemma holds_one_finish h o ps : holds_one o ps -> fits_one ps -> Forall (part_ok h) ps -> exists o',
  (if is_udp o then build_udp_headers oom o else Some (true, o)) = Some (true, o') /\ in_one h (request_id o) o' (concat (map (part_bytes h) ps)) /\
  msgcurr o' = 0%nat /\ is_udp o' = is_udp o.
Proof.
  intros (Hc & Hu & Ho) (_ & _ & Hpos) HF. destruct (cut_bytes h ps _ (whole_cut ps Hpos) HF) as (Hb & Hr & Hown).
  assert (payload_of ([] ++ [udp_room :: map whole_entry ps]) = map whole_entry ps) as Hp by (unfold payload_of; cbn; by rewrite app_nil_r).
  destruct (datagrams_built oom h o [] _ Hoom Ho ltac:(by rewrite Hp) ltac:(by rewrite Hp)) as (o' & E & (qs & Hn & Hq & _ & _ & Hi) & Hbd & Hc').
  rewrite Hp, Hb in Hq. pose proof (bd_count _ _ Hbd) as Hcount. cbn [app headed length] in Hcount. rewrite Hcount in Hn.
  pose proof (headers_udp _ _ _ E) as Hu'. rewrite Hu in *. exists o'. split_and!; try done; [|congruence]. split_and!; try done. destruct qs as [|q [|q' qs]]; [done| |done]. cbn [concat] in Hq. rewrite app_nil_r in Hq. subst q. apply (Hi 0%nat _ eq_refl).
Qed.
(** ** Collecting the parts of an answer *)

(** What the commands need of a predicate on answers under construction: parts can be
    added as long as they fit, and at the end the messages carry them. *)
Class Collector (H : output -> list (base * Z) -> Prop) (fits : list (base * Z) -> Prop) (carried : (Z -> item) -> Z -> output -> list Z -> Prop) : Prop := {
  col_add o ps b len : H o ps -> b <> Null -> 0 <= len -> fits (ps ++ [(b, len)]) -> exists o', add_iov oom b len o = Some (true, o') /\
    H o' (ps ++ [(b, len)]) /\ is_udp o' = is_udp o /\ (is_udp o = true -> request_id o' = request_id o);
  col_tried b o ps : H o ps -> H (tried b o) ps;
  col_prefix ps qs : fits (ps ++ qs) -> fits ps;
  col_finish h o ps : H o ps -> fits ps -> Forall (part_ok h) ps -> exists o',
    (if is_udp o then build_udp_headers oom o else Some (true, o)) = Some (true, o') /\ carried h (request_id o) o' (concat (map (part_bytes h) ps)) /\
    msgcurr o' = 0%nat /\ is_udp o' = is_udp o
}.
#[export] Instance holds_collector : Collector holds (fun _ => True) answers.
Proof. split; [intros o ps b len H1 H2 H3 _; by apply holds_add|apply holds_tried|done|intros h o ps H1 _; by apply holds_finish]. Qed.
#[export] Instance holds_one_collector : Collector holds_one fits_one in_one.
Proof. split; [apply holds_one_add|apply holds_one_tried|apply fits_prefix|apply holds_one_finish]. Qed.
Lemma collect_all `{HC : Collector H fits carried} qs : Forall (fun q => q.1 <> Null /\ 0 <= q.2) qs -> forall o ps, H o ps -> fits (ps ++ qs) -> exists o',
  add_all oom qs o = Some (true, o') /\ H o' (ps ++ qs) /\ is_udp o' = is_udp o /\ (is_udp o = true -> request_id o' = request_id o).
Proof.
  induction 1 as [|[b len] qs [H1 H2] _ IH]; intros o ps Ho Hf; cbn [add_all]; [exists o; by rewrite app_nil_r|]. cbn [fst snd] in *.
  rewrite (app_assoc ps [(b, len)] qs : ps ++ (b, len) :: qs = _) in Hf.
  destruct (col_add o ps b len Ho H1 H2 (col_prefix _ _ Hf)) as (o1 & E1 & Ho1 & Hu1 & Hq1). rewrite E1. cbn [mbind option_bind].
  destruct (IH o1 _ Ho1 Hf) as (o2 & E2 & Ho2 & Hu2 & Hq2). exists o2. rewrite <- app_assoc in Ho2. split_and!; try done; [congruence|].
  intros Hu. rewrite Hq2 by congruence. by apply Hq1.
Qed.

End holds.

Module OutputExample.
Definition o0 (udp : bool) : output :=
  {| is_udp := udp; request_id := 258; iov := replicate 4 blank_iov; iovused := 0; msglist := replicate 2 {| msg_iov := 0; msg_iovlen := 0 |};
     msgused := 0; msgcurr := 0; msgbytes := 0; hdrbuf := []; hdrsize := 0; tries := 0; malloc_fails := 0 |}.
Definition no_items : Z -> item := fun _ => blank_item.
Definition parts : list (base * Z) := [(Literal (bytes "VALUE "), 6); (Literal (replicate 1500 65), 1500); (Literal (bytes "END"), 3)].
Lemma parts_ok : Forall (part_ok no_items) parts.
Proof. repeat constructor; cbn; try done; try lia. Qed.
(** A kernel that takes 1000 bytes at a time and blocks in every other call. *)
Definition kernel (i : nat) (size : Z) : send_result := if Nat.even i then Again true else Sent (Z.min size 1000).
Lemma kernel_progress : progressing kernel Nat.even.
Proof. intros i size H. unfold kernel. destruct (Nat.even i); [done|]. lia. Qed.
Lemma kernel_free n : free_calls Nat.even 0 (2 * n) = n.
Proof.
  assert (forall i, Nat.even i = true -> free_calls Nat.even i (2 * n) = n) as H; [|by apply H].
  induction n as [|n IH]; intros i Hi; [done|]. replace (2 * S n)%nat with (S (S (2 * n))) by lia. cbn [free_calls]. rewrite Hi, Nat.even_succ, <- Nat.negb_even, Hi.
  cbn [negb Nat.add]. by rewrite IH.
Qed.
End OutputExample.

(** Three parts over TCP, sent in pieces. *)
Lemma tcp_answer_delivered_witness : exists o1 o2 o3,
  reset_output (fun _ => false) (OutputExample.o0 false) = Some (true, o1) /\ add_all (fun _ => false) OutputExample.parts o1 = Some (true, o2) /\
  send_loop OutputExample.no_items OutputExample.kernel (2 * (1509 + 2 * msgused o2 + 1)) 0 [] o2 =
    Some (TRANSMIT_COMPLETE, bytes "VALUE " ++ replicate 1500 65 ++ bytes "END", o3).
Proof.
  destruct (tcp_answer_delivered (fun _ => false) OutputExample.no_items OutputExample.parts (OutputExample.o0 false) OutputExample.parts_ok
    ltac:(cbn; lia) ltac:(cbn; lia) eq_refl) as (o1 & ok & o2 & E1 & E2 & Hok & Hsend).
  specialize (Hok (fun _ => eq_refl)). subst ok. destruct (Hsend eq_refl) as [_ Hlive].
  destruct (Hlive OutputExample.kernel Nat.even OutputExample.kernel_progress (2 * (1509 + 2 * msgused o2 + 1))%nat) as (o3 & E3).
  { rewrite OutputExample.kernel_free. assert (length (concat (map (part_bytes OutputExample.no_items) OutputExample.parts)) = 1509%nat) as -> by reflexivity. lia. }
  exists o1, o2, o3. split_and!; [exact E1|exact E2|]. rewrite E3. reflexivity.
Defined.

(** The same parts in two datagrams. *)
Lemma udp_answer_datagrams_witness : exists o1 o2 o3,
  reset_output (fun _ => false) (OutputExample.o0 true) = Some (true, o1) /\ add_all (fun _ => false) OutputExample.parts o1 = Some (true, o2) /\
  build_udp_headers (fun _ => false) o2 = Some (true, o3) /\ Z.of_nat (length (message_bytes OutputExample.no_items o3 0)) <= 1400.
Proof.
  destruct (udp_answer_datagrams (fun _ => false) OutputExample.no_items OutputExample.parts (OutputExample.o0 true) (fun _ => eq_refl) OutputExample.parts_ok
    ltac:(cbn; lia) ltac:(cbn; lia) eq_refl) as (o1 & o2 & o3 & E1 & E2 & E3 & ps & _ & Hps & _ & _ & Hm).
  exists o1, o2, o3. split_and!; [exact E1|exact E2|exact E3|]. destruct ps as [|p ps]; [discriminate Hps|]. apply (Hm 0%nat p eq_refl).
Defined.
