(* ===== verification/McGet.v ===== *)
(** The commands get, gets, gat and gats of the ASCII protocol (src/memcached-sr/memcached.c):
    the keys are fetched one after the other, every hit adds a header, the key and the
    value to the outgoing messages, and the items stay referenced until the messages are
    sent.

    A connection is its [client] side, its outgoing messages, the items and the suffix
    buffers it holds.  [oom] says which reallocations fail, [no_suffix n] that the object
    cache has no buffer for the [n]-th suffix, and [room n] which bump buffer takes the
    [n]-th fetch.  Detailed statistics are off, and there is no external storage;
    [add_chunked] stands for [add_chunked_item_iovs]. *)
From S2P Require Import Prelude McItoa McUtil McItem McAssoc McLru McSlabs McItems McItemStore McPayload McItemOps McItemHistory.
From S2P Require Import McStore McToken McProto McOutput.

Definition SUFFIX_SIZE : nat := 50.
Definition IT_REFCOUNT_LIMIT : Z := 60000.

Record getter := {
  gc : client;
  out : output;
  ilist : list Z;               (** the first [ileft] entries of the array *)
  isize : nat;
  suffixlist : list (list Z);   (** the contents of the [suffixleft] buffers *)
  suffixsize : nat
}.
Definition with_gc (v : client) (g : getter) : getter :=
  {| gc := v; out := out g; ilist := ilist g; isize := isize g; suffixlist := suffixlist g; suffixsize := suffixsize g |}.
Definition with_out (v : output) (g : getter) : getter :=
  {| gc := gc g; out := v; ilist := ilist g; isize := isize g; suffixlist := suffixlist g; suffixsize := suffixsize g |}.
Definition with_items (v : list Z) (n : nat) (g : getter) : getter :=
  {| gc := gc g; out := out g; ilist := v; isize := n; suffixlist := suffixlist g; suffixsize := suffixsize g |}.
Definition with_suffixes (v : list (list Z)) (n : nat) (g : getter) : getter :=
  {| gc := gc g; out := out g; ilist := ilist g; isize := isize g; suffixlist := v; suffixsize := n |}.
Definition gcount (st : tstat) (g : getter) : getter := with_gc (with_cn (count st (cn (gc g))) (gc g)) g.

(** The line behind the key of a hit, and its length; [suffix] is the buffer. *)
Definition make_ascii_get_suffix (suffix : list Z) (it : item) (return_cas : bool) (nb : Z) : list Z * nat :=
  let c := put [32] (suffix, 0%nat) in
  let c := if has_flag ITEM_CFLAGS it then itoa_u32 (iflags it) c else put [48] c in
  let c := put [32] c in
  let c := itoa_u32 (u32 (nb - 2)) c in
  let c := if return_cas then itoa_u64 (ITEM_get_cas it) (put [32] c) else c in
  let '(buf, p) := c in
  (write (p + 2) [0] (write (p + 1) [10] (write p [13] buf)), (p + 2)%nat).

Section get.
Context (set : item_settings) (hash : list Z -> Z) (nchunks : nat).
Context (add_chunked : Z -> output -> option (bool * output)).
Context (process_started : Z).
Context (oom no_suffix : nat -> bool) (room : nat -> option nat).

(** [out_string] with its effect on the outgoing messages. *)
Definition out_string_conn (str : list Z) (g : getter) : option getter :=
  if noreply (gc g) then Some (with_gc (out_string str (gc g)) g)
  else '(_, o) ← reset_output oom (out g); Some (with_out o (with_gc (out_string str (gc g)) g)).

(** The [k]-th fetch.  An item with too many references counts as missing. *)
Definition limited_get (k : nat) (key : list Z) (exptime : Z) (should_touch : bool) (c : conn) (s : server) : option (Z * conn * server) :=
  let c := count_get set key (hash key) s c in
  '(it, s) ← (if should_touch then do_item_touch set nchunks (room k) key exptime (hash key) s
              else do_item_get set nchunks (room k) key (hash key) true s);
  if negb (it =? 0) && (IT_REFCOUNT_LIMIT <? refcount (item_at s it)) then Some (0, c, do_item_remove nchunks it s)
  else Some (it, c, s).

Definition ascii_get_expand_ilist (g : getter) : bool * getter :=
  if (isize g <=? length (ilist g))%nat then
    if oom (tries (out g)) then (false, with_out (tried true (out g)) g)
    else (true, with_items (ilist g) (isize g * 2) (with_out (tried false (out g)) g))
  else (true, g).

(** Room for another suffix; [false] is the null pointer. *)
Definition ascii_get_suffix_buf (g : getter) : option (bool * getter) :=
  let '(ok, g) :=
    if (suffixsize g <=? length (suffixlist g))%nat then
      if oom (tries (out g)) then (false, with_out (tried true (out g)) g)
      else (true, with_suffixes (suffixlist g) (suffixsize g * 2) (with_out (tried false (out g)) g))
    else (true, g) in
  if ok : bool then
    if no_suffix (length (suffixlist g)) then
      g ← out_string_conn (bytes "SERVER_ERROR out of memory making CAS suffix") (with_out (tried true (out g)) g); Some (false, g)
    else Some (true, g)
  else Some (false, g).

Definition miss (should_touch : bool) (g : getter) : getter :=
  if should_touch then gcount touch_misses (gcount touch_cmds g) else gcount get_cmds (gcount get_misses g).
Definition hit (should_touch : bool) (it : Z) (i : item) (g : getter) : getter :=
  let g := if should_touch then gcount (touch_hits (ITEM_clsid i)) (gcount touch_cmds g) else gcount get_cmds (gcount (lru_hits (slabs_clsid i)) g) in
  with_items (ilist g ++ [it]) (isize g) g.

(** One key; the result is true when the loop is left. *)
Definition get_key (k : nat) (key : list Z) (exptime : Z) (return_cas should_touch : bool) (g : getter) (s : server) : option (bool * getter * server) :=
  '(it, cc, s) ← limited_get k key exptime should_touch (cn (gc g)) s;
  let g := with_gc (with_cn cc (gc g)) g in
  if it =? 0 then Some (false, miss should_touch g, s)
  else
    let stop g := Some (true, g, do_item_remove nchunks it s) in
    let '(ok, g) := ascii_get_expand_ilist g in
    if negb ok then stop g
    else
      '(ok, g) ← ascii_get_suffix_buf g;
      if negb ok then stop g
      else
        let i := item_at s it in
        let '(suffix, suffix_len) := make_ascii_get_suffix (replicate SUFFIX_SIZE 0) i return_cas (nbytes i) in
        let g := with_suffixes (suffixlist g ++ [suffix]) (suffixsize g) g in
        '(ok, o) ← add_all oom [(Literal (bytes "VALUE "), 6); (ItemKey it, nkey i); (Literal suffix, Z.of_nat suffix_len)] (out g);
        if negb ok then stop (with_out o g)
        else if negb (has_flag ITEM_CHUNKED i) then
          '(_, o) ← add_iov oom (ItemData it) (nbytes i) o; Some (false, hit should_touch it i (with_out o g), s)
        else
          '(ok, o) ← add_chunked it o;
          if negb ok then stop (with_out o g) else Some (false, hit should_touch it i (with_out o g), s).

(** The tokens of one round: whether the loop was left, whether because of a long key,
    [key_token->value], and the number of the next key. *)
Fixpoint get_tokens (k : nat) (buf : list Z) (tokens : list token) (exptime : Z) (return_cas should_touch : bool) (g : getter) (s : server)
    : option (bool * bool * option nat * nat * getter * server) :=
  match tokens with
  | [] => None
  | t :: tokens =>
      if (tlength t =? 0)%nat then Some (false, false, tvalue t, k, g, s)
      else if (KEY_MAX_LENGTH <? tlength t)%nat then Some (true, true, tvalue t, k, g, s)
      else
        '(stopped, g, s) ← get_key k (token_text buf t) exptime return_cas should_touch g s;
        if stopped : bool then Some (true, false, tvalue t, k, g, s)
        else get_tokens (S k) buf tokens exptime return_cas should_touch g s
  end.

(** All rounds: whether a key was too long, and [key_token->value] at the end. *)
Fixpoint get_rounds (fuel k : nat) (buf : list Z) (tokens : list token) (exptime : Z) (return_cas should_touch : bool) (g : getter) (s : server)
    : option (bool * option nat * getter * server) :=
  match fuel with
  | O => None
  | S fuel =>
      '(stopped, fail_length, v, k, g, s) ← get_tokens k buf tokens exptime return_cas should_touch g s;
      if stopped : bool then Some (fail_length, v, g, s)
      else
        match v with
        | None => Some (false, None, g, s)
        | Some p =>
            let '(buf, tokens) := tokenize_command buf p MAX_TOKENS in
            match tvalue (nth_token tokens 0) with
            | None => Some (false, None, g, s)
            | Some _ => get_rounds fuel k buf tokens exptime return_cas should_touch g s
            end
        end
  end.

Definition conn_release_items (g : getter) (s : server) : getter * server :=
  let '(c, s) :=
    if c_item (gc g) =? 0 then (gc g, s)
    else (with_item 0 (rlbytes (gc g)) (c_cmd (gc g)) (gc g), do_item_remove nchunks (c_item (gc g)) s) in
  (with_suffixes [] (suffixsize g) (with_items [] (isize g) (with_gc c g)), fold_left (fun s it => do_item_remove nchunks it s) (ilist g) s).

(** Behind the loop. *)
Definition get_end (fail_length : bool) (v : option nat) (g : getter) (s : server) : option (getter * server) :=
  '(ok, o) ← (if v then Some (false, out g)
              else
                '(ok, o) ← add_iov oom (Literal (bytes "END" ++ [13; 10])) 5 (out g);
                if ok : bool then if is_udp o then build_udp_headers oom o else Some (true, o) else Some (false, o));
  let g := with_out o g in
  if ok : bool then Some (with_out (with_msgs (msglist o) (msgused o) 0 (msgbytes o) o) (with_gc (with_state conn_mwrite (gc g)) g), s)
  else
    g ← out_string_conn (if fail_length then bytes "CLIENT_ERROR bad command line format" else bytes "SERVER_ERROR out of memory writing get response") g;
    Some (conn_release_items g s).

Definition process_get_command (buf : list Z) (tokens : list token) (return_cas should_touch : bool) (g : getter) (s : server) : option (getter * server) :=
  let '(ok, exptime_int) := if should_touch then safe_strtol (text buf tokens 1) else (true, 0) in
  if negb ok then g ← out_string_conn (bytes "CLIENT_ERROR invalid exptime argument") g; Some (g, s)
  else
    let exptime := if should_touch then realtime process_started (current_time s) exptime_int else 0 in
    let keys := drop (if should_touch then KEY_TOKEN + 1 else KEY_TOKEN) tokens in
    '(fail_length, v, g, s) ← get_rounds (S (length buf)) 0 buf keys exptime return_cas should_touch g s;
    get_end fail_length v g s.
End get.

(** ** The suffix *)

(** The fields are in the ranges of their C types. *)
Definition typed (it : item) : Prop := 0 <= iflags it < 2 ^ 32 /\ 0 <= icas it < 2 ^ 64 /\ 0 <= nbytes it < 2 ^ 31.
Definition suffix_text (return_cas : bool) (it : item) : list Z :=
  [32] ++ (if has_flag ITEM_CFLAGS it then decimal (iflags it) else [48]) ++ [32] ++ decimal (u32 (nbytes it - 2)) ++
  (if return_cas then [32] ++ decimal (ITEM_get_cas it) else []) ++ [13; 10].

Lemma decimal_nonempty u n : 0 <= u < 10 ^ Z.of_nat n -> (0 < n <= 20)%nat -> decimal u <> [].
Proof. intros Hu Hn E. pose proof (length_decimal u n Hu Hn) as H. rewrite E in H. cbn in H. lia. Qed.
Lemma put_after b t c : inside c -> b <> [] -> put b (terminate (put t c)) = put b (put t c).
Proof.
  intros Hc Hb. apply put_terminate; [|done]. destruct c as [buf p]. unfold inside, put in *. cbn in *.
  unfold write. rewrite !length_app, length_take, length_drop. lia.
Qed.
Lemma get_suffix it return_cas : typed it ->
  let '(buf, n) := make_ascii_get_suffix (replicate SUFFIX_SIZE 0) it return_cas (nbytes it) in
  n = length (suffix_text return_cas it) /\ take n buf = suffix_text return_cas it /\ (n < SUFFIX_SIZE)%nat /\ length buf = SUFFIX_SIZE.
Proof.
  intros (Hfl & Hcas & Hnb). unfold make_ascii_get_suffix. set (start := (replicate SUFFIX_SIZE 0, 0%nat)).
  assert (forall b, (length b <= 50)%nat -> room (50 - length b) (put b start)) as Hroom.
  { intros b Hb. apply room_put. unfold room, start. cbn [fst snd]. rewrite length_replicate. unfold SUFFIX_SIZE. lia. }
  assert (inside start) as Hs by (unfold inside, start; cbn [fst snd]; lia).
  pose proof (u32_range (nbytes it - 2)) as Hn.
  pose proof (length_decimal (iflags it) 10 ltac:(cbn; lia) ltac:(lia)) as L1. pose proof (length_decimal (u32 (nbytes it - 2)) 10 ltac:(cbn; lia) ltac:(lia)) as L2.
  assert (0 <= ITEM_get_cas it < 2 ^ 64) as Hc by (unfold ITEM_get_cas; case_if; lia).
  pose proof (length_decimal (ITEM_get_cas it) 20 ltac:(cbn; lia) ltac:(lia)) as L3.
  set (f := if has_flag ITEM_CFLAGS it then decimal (iflags it) else [48]).
  assert (put [32] (if has_flag ITEM_CFLAGS it then itoa_u32 (iflags it) (put [32] start) else put [48] (put [32] start)) = put ([32] ++ f ++ [32]) start) as ->.
  { unfold f. destruct (has_flag ITEM_CFLAGS it).
    - rewrite itoa_u32_spec by (done || (eapply room_weaken; [apply (Hroom [32]); cbn; lia|cbn; lia])).
      rewrite put_put, put_after, put_put by done. by rewrite <- app_assoc.
    - rewrite (put_put [32] [48]), put_put by done. done. }
  assert (length f <= 10)%nat as Lf by (unfold f; case_if; cbn [length]; rewrite ?length_app; cbn [length]; lia).
  rewrite itoa_u32_spec by (done || (eapply room_weaken; [apply Hroom; rewrite ?length_app; cbn [length]; lia|rewrite ?length_app; cbn [length]; lia])).
  rewrite put_put by done. rewrite <- !app_assoc.
  set (t1 := [32] ++ f ++ [32] ++ decimal (u32 (nbytes it - 2))).
  assert (length t1 <= 22)%nat as Lt by (unfold t1; rewrite ?length_app; cbn [length]; lia).
  set (t := t1 ++ if return_cas then [32] ++ decimal (ITEM_get_cas it) else []).
  assert ((if return_cas then itoa_u64 (ITEM_get_cas it) (put [32] (terminate (put t1 start))) else terminate (put t1 start)) = terminate (put t start)) as ->.
  { unfold t. destruct return_cas; [|by rewrite app_nil_r]. rewrite put_after, put_put by done.
    rewrite itoa_u64_spec by (done || (eapply room_weaken; [apply Hroom; rewrite ?length_app; cbn [length]; lia|rewrite ?length_app; cbn [length]; lia])).
    rewrite put_put by done. by rewrite <- app_assoc. }
  assert (length t <= 43)%nat as Ltt by (unfold t; rewrite length_app; case_if; cbn [length]; rewrite ?length_app; cbn [length]; lia).
  assert (suffix_text return_cas it = t ++ [13; 10]) as -> by (unfold suffix_text, t, t1, f; by rewrite <- !app_assoc).
  assert (forall b, (length b <= 50)%nat -> length (write 0 b (replicate SUFFIX_SIZE 0)) = SUFFIX_SIZE) as Hlen.
  { intros b Hb. rewrite length_write; rewrite ?length_replicate; unfold SUFFIX_SIZE; lia. }
  unfold start. cbn [put terminate Nat.add]. rewrite write_write_same by (done || (rewrite Hlen by lia; unfold SUFFIX_SIZE; lia)).
  pose proof (write_write_next 0 t [13] (replicate SUFFIX_SIZE 0) ltac:(lia)) as W1. pose proof (write_write_next 0 (t ++ [13]) [10] (replicate SUFFIX_SIZE 0) ltac:(lia)) as W2.
  pose proof (write_write_next 0 (t ++ [13; 10]) [0] (replicate SUFFIX_SIZE 0) ltac:(lia)) as W3.
  rewrite length_app in W2, W3. cbn [length Nat.add] in W1, W2, W3. rewrite <- app_assoc in W2. cbn [app] in W2. rewrite W1, W2, W3.
  split_and!; [rewrite length_app; cbn [length]; lia| |unfold SUFFIX_SIZE; lia|rewrite Hlen; [done|rewrite !length_app; cbn [length]; lia]].
  replace (length t + 2)%nat with (length (t ++ [13; 10])) by (rewrite length_app; cbn [length]; lia).
  unfold write. rewrite take_0, app_nil_l, <- app_assoc. apply take_app_length.
Qed.

(** ** Fetching *)

Section fetching.
Context (set : item_settings) (hash : list Z -> Z) {Hhash : KeyHash hash} (nchunks : nat).
Context (Hpage : 0 < slab_page_size (slab_set set) < 2 ^ 31) (Hrepair : tail_repair_time set = 0).

Abbreviation hist := (history set hash nchunks).
Abbreviation stored := (stored hash).
Abbreviation current := (current set hash).

(** The time and the number of bump buffers stay. *)
Definition clock (s : server) : Z * nat := (current_time s, length (bumps s)).
Lemma clock_remove x s : clock (do_item_remove nchunks x s) = clock s.
Proof. unfold do_item_remove, item_free. case_if; [|done]. by destruct (do_slabs_free _ _ _ _ _ _). Qed.
Lemma clock_unlink_q x s : clock (item_unlink_q x s) = clock s.
Proof. unfold item_unlink_q. by destruct (do_item_unlink_q _ _ _). Qed.
Lemma clock_link_q x s : clock (item_link_q x s) = clock s.
Proof. unfold item_link_q. by destruct (do_item_link_q _ _ _). Qed.
Lemma clock_sizes d x s : clock (sizes_change set d x s) = clock s.
Proof. unfold sizes_change. destruct (sizes_hist s); [by repeat case_if|done]. Qed.
Lemma clock_unlink x hv s s' : do_item_unlink set nchunks x hv s = Some s' -> clock s' = clock s.
Proof.
  unfold do_item_unlink. case_if; [|by intros [= <-]]. destruct (assoc_delete _ _ _ _) as [[h t]|]; [|done]. intros [= <-].
  rewrite clock_remove, clock_unlink_q. unfold item_stats_sizes_remove. exact (clock_sizes _ _ _).
Qed.
Lemma clock_update x s : clock (do_item_update set x s) = clock s.
Proof.
  unfold do_item_update, item_link_q_warm. by repeat case_if.
Qed.
Lemma clock_bump room x hv s : clock (do_item_bump set room x hv s) = clock s.
Proof.
  unfold do_item_bump, lru_bump_async. repeat case_if; try done; [|by rewrite clock_update]. destruct room; [|done].
  unfold clock. cbn. by rewrite length_alter.
Qed.
Lemma clock_get room key hv u s r : do_item_get set nchunks room key hv u s = Some r -> clock r.2 = clock s.
Proof.
  unfold do_item_get. cbv zeta. destruct (_ =? 0); [by intros [= <-]|]. destruct (_ || _).
  - destruct (do_item_unlink _ _ _ _ _) as [s1|] eqn:E; [|done]. intros [= <-]. cbn [snd]. rewrite clock_remove. by rewrite (clock_unlink _ _ _ _ E).
  - destruct u; intros [= <-]; [|done]. cbn [snd]. by rewrite clock_bump.
Qed.

(** Items somebody refers to or that are stored. *)
Definition used (w : world) (x : Z) : Prop := x <> 0 /\ (0 < refs w x \/ exists k, stored w k = x).
Lemma used_mem w x : hist w -> used w x -> exists it, mem (wstore w) !! x = Some it /\ item_at (wstore w) x = it /\ has_flag ITEM_SLABBED it = false.
Proof.
  intros Hw [H0 Hx]. destruct (item_facts set hash nchunks Hpage Hrepair w x Hw H0 Hx) as (_ & _ & Hs & _).
  assert (is_Some (mem (wstore w) !! x)) as [it Hit].
  { destruct Hx as [Hx|[k <-]]; [|by apply (history_stored set hash nchunks Hpage Hrepair)].
    destruct (history_used set hash nchunks Hpage Hrepair w x Hw Hx) as (it & Hit & _). by exists it. }
  exists it. assert (item_at (wstore w) x = it) as Hat by (unfold item_at; by apply get_Some). rewrite Hat in Hs. by split_and!.
Qed.
(** What a fetch leaves of the items in use: what a reply is made of, and the times. *)
Definition same_reply (w w' : world) (x : Z) : Prop :=
  payload (item_at (wstore w') x) = payload (item_at (wstore w) x) /\ header (item_at (wstore w') x) = header (item_at (wstore w) x).
Definition same_life (key : list Z) (w w' : world) (x : Z) : Prop :=
  let i := item_at (wstore w) x in let j := item_at (wstore w') x in
  exptime j = exptime i /\ (time j = time i \/ ikey i = key /\ time j = current_time (wstore w)).

Lemma kept_item R w w' x : hist w -> hist w' -> used w x -> used w' x -> uspays R (mem (wstore w)) (wstore w') ->
  R (item_at (wstore w) x) (item_at (wstore w') x) /\ has_flag ITEM_SLABBED (item_at (wstore w') x) = false.
Proof.
  intros Hw Hw' Hx Hx' HR. destruct (used_mem w x Hw Hx) as (it & Hit & <- & _). destruct (used_mem w' x Hw' Hx') as (it' & Hit' & <- & Hs).
  destruct (HR x _ Hit) as (j & Hj & HRj). rewrite Hit' in Hj. by injection Hj as <-.
Qed.

Definition room_ok (room : option nat) (s : server) : Prop := match room with Some b => (b < length (bumps s))%nat | None => True end.

Lemma step_fetch room w key : hist w -> few 3 w -> room_ok room (wstore w) -> exists w1,
  do_item_get set nchunks room key (hash key) true (wstore w) = Some (current w key, wstore w1) /\ hist w1 /\
  (forall x, held w1 x = held w x + if decide (x = current w key /\ current w key <> 0) then 1 else 0) /\
  (forall k, stored w1 k = if decide (k = key) then current w key else stored w k) /\
  (forall x, refs w1 x <= refs w x + 2) /\ clock (wstore w1) = clock (wstore w) /\
  (forall x, used w x -> used w1 x -> same_reply w w1 x /\ same_life key w w1 x).
Proof.
  intros Hw Hf Hroom.
  destruct (history_next set hash nchunks Hpage Hrepair (OpGet room key true) w Hw) as (r & w1 & E & Hw1 & Ho & Hn & _ & Hr); [by split|].
  cbn [exec] in E. apply fmap_Some in E as ([it s] & E & E1). unfold took in E1. cbn [fst snd] in E1. injection E1 as -> ->.
  cbn [outcome] in Ho. change (it = current w key) in Ho. subst it.
  exists (if current w key =? 0 then keep s w else take_ref (current w key) s w).
  assert (wstore (if current w key =? 0 then keep s w else take_ref (current w key) s w) = s) as Hst by by case_if.
  split_and!; try done; [by rewrite Hst| |by rewrite Hst; apply (clock_get _ _ _ _ _ _ E)|].
  - intros x. destruct (Z.eqb_spec (current w key) 0) as [E0|E0]; cbn [keep take_ref held].
    + rewrite decide_False by (intros [_ ?]; done). lia.
    + unfold set_ref. destruct (decide (x = current w key)) as [-> |Hne]; [rewrite decide_True by done; lia|].
      rewrite decide_False by (intros [? _]; done). lia.
  - intros x Hx Hx1.
    destruct (kept_item pays_item _ _ x Hw Hw1 Hx Hx1) as [Hp _]; [rewrite Hst; eapply spays_get; [exact E|apply pays_refl]|].
    destruct (kept_item keeps_header _ _ x Hw Hw1 Hx Hx1) as [Hh Hs]; [rewrite Hst; eapply spays_get; [exact E|apply pays_refl]|].
    destruct (kept_item (keeps_life key (current_time (wstore w))) _ _ x Hw Hw1 Hx Hx1) as [Hl _].
    { rewrite Hst. destruct (decide (stored w key = 0)) as [H0|H0].
      - unfold do_item_get in E. change (assoc_find _ _ key (hash key)) with (stored w key) in E. rewrite H0 in E. injection E as _ <-. apply pays_refl.
      - eapply spays_get_at; [|exact E|apply pays_refl]. unfold now_ok. apply life_now.
        by destruct (item_facts set hash nchunks Hpage Hrepair w (stored w key) Hw H0 ltac:(right; by exists key)) as (_ & _ & _ & Hk); destruct (proj1 (Hk key) eq_refl). }
    unfold same_reply, same_life. rewrite Hst in *. destruct Hh as [Hh|Hh]; [|congruence]. destruct Hl as [(_ & He & _ & Ht)|Hl]; [|congruence]. by split_and!.
Qed.

(** A fetch does not change what other fetches return, unless a flush is due in this very
    second. *)
Lemma key_of_stored w k : hist w -> stored w k <> 0 -> key_of w (stored w k) = k.
Proof.
  intros Hw H0. destruct (item_facts set hash nchunks Hpage Hrepair w (stored w k) Hw H0 ltac:(right; by exists k)) as (_ & _ & _ & Hk).
  by destruct (proj1 (Hk k) eq_refl).
Qed.
Lemma same_dead key w w' x : same_reply w w' x -> same_life key w w' x -> current_time (wstore w') = current_time (wstore w) ->
  oldest_live set <> current_time (wstore w) -> key_of w x <> key \/ dead set (wstore w) (item_at (wstore w) x) = false ->
  dead set (wstore w') (item_at (wstore w') x) = dead set (wstore w) (item_at (wstore w) x).
Proof.
  intros [_ Hh] (He & Ht) Hc Ho Hk. unfold dead, item_is_flushed, expired in *. rewrite He, Hc.
  assert (ITEM_get_cas (item_at (wstore w') x) = ITEM_get_cas (item_at (wstore w) x)) as -> by (unfold header in Hh; congruence).
  destruct Ht as [-> |[Hkx ->]]; [done|]. destruct Hk as [Hk|Hd]; [done|]. rewrite Hd. apply orb_false_iff in Hd as [Hd1 ->].
  rewrite orb_false_r. destruct ((oldest_live set =? 0) || _) eqn:E; [done|].
  apply orb_false_iff in Hd1 as [_ ->]. apply orb_false_iff in E as [_ E]. rewrite orb_false_r. apply Z.ltb_ge in E. apply Z.leb_gt. lia.
Qed.
Lemma current_stored w k : current w k <> 0 -> current w k = stored w k /\ dead set (wstore w) (item_at (wstore w) (stored w k)) = false.
Proof.
  unfold McStore.current, live. destruct (negb (stored w k =? 0)); [|done]. cbn [andb]. by destruct (dead _ _ _).
Qed.
Lemma fetch_current w w1 key : hist w -> hist w1 -> oldest_live set <> current_time (wstore w) -> clock (wstore w1) = clock (wstore w) ->
  (forall k, stored w1 k = if decide (k = key) then current w key else stored w k) ->
  (forall x, used w x -> used w1 x -> same_reply w w1 x /\ same_life key w w1 x) -> forall k, current w1 k = current w k.
Proof.
  intros Hw Hw1 Ho Hc Hs Hsame k. unfold clock in Hc. injection Hc as Hc _.
  assert (forall x, x <> 0 -> stored w k = x -> stored w1 k = x -> key_of w x <> key \/ dead set (wstore w) (item_at (wstore w) x) = false ->
    dead set (wstore w1) (item_at (wstore w1) x) = dead set (wstore w) (item_at (wstore w) x)) as Hd.
  { intros x Hx0 Hx Hx1 Hor. destruct (Hsame x) as [H1 H2]; [split; [done|right; by exists k]|split; [done|right; by exists k]|]. by apply (same_dead key). }
  specialize (Hs k). destruct (decide (k = key)) as [-> |Hne].
  - destruct (decide (current w key = 0)) as [H0|H0]; [unfold McStore.current, live at 1; by rewrite Hs, H0|].
    destruct (current_stored w key H0) as [E Hdead]. rewrite E in Hs, H0. rewrite E. unfold McStore.current, live. rewrite Hs.
    rewrite (Hd _ H0 eq_refl Hs (or_intror Hdead)), Hdead. by rewrite (proj2 (Z.eqb_neq _ _) H0).
  - unfold McStore.current, live. rewrite Hs. destruct (Z.eqb_spec (stored w k) 0) as [H0|H0]; [done|]. cbn [negb andb].
    rewrite (Hd _ H0 eq_refl Hs); [done|]. left. by rewrite (key_of_stored w k Hw H0).
Qed.

(** ** The fetches of a command *)

Definition hits (w : world) (keys : list (list Z)) : list Z := filter (fun x => x <> 0) (map (current w) keys).
Definition count_of (x : Z) (l : list Z) : Z := Z.of_nat (length (filter (fun y => y = x) l)).
Lemma hits_snoc w keys k : hits w (keys ++ [k]) = hits w keys ++ if decide (current w k = 0) then [] else [current w k].
Proof.
  unfold hits. rewrite map_app, filter_app. f_equal. cbn [map]. rewrite filter_cons. destruct (decide (current w k = 0)) as [E|E]; case_decide; done.
Qed.
Lemma count_snoc x l y : count_of x (l ++ [y]) = count_of x l + if decide (x = y) then 1 else 0.
Proof. unfold count_of. rewrite filter_app, length_app, filter_cons. repeat case_decide; subst; try done; cbn; lia. Qed.

(** After the fetches of [keys]. *)
Record got (w0 : world) (keys : list (list Z)) (w : world) : Prop := {
  gt_hist : hist w;
  gt_held : forall x, held w x = held w0 x + count_of x (hits w0 keys);
  gt_refs : forall x, refs w x <= refs w0 x + 2 * Z.of_nat (length keys);
  gt_clock : clock (wstore w) = clock (wstore w0);
  gt_current : forall k, current w k = current w0 k;
  gt_stored : forall k, stored w k = if decide (k ∈ keys) then current w0 k else stored w0 k;
  gt_same : forall x, x <> 0 -> 0 < held w0 x \/ (exists k, current w0 k = x) -> same_reply w0 w x
}.
(** Few references, so that the counters stay below the limit of [limited_get]. *)
Definition calm (n : Z) (w : world) : Prop := forall x, refs w x + 2 * n + 4 <= IT_REFCOUNT_LIMIT.

Lemma got_start w : hist w -> got w [] w.
Proof.
  intros Hw. split; try done.
  - intros x. change (count_of x (hits w [])) with 0. lia.
  - intros x. cbn. lia.
Qed.
Lemma count_nonneg x l : 0 <= count_of x l.
Proof. unfold count_of. lia. Qed.
Lemma got_fetch room w0 keys w key : got w0 keys w -> calm (Z.of_nat (length keys) + 1) w0 -> room_ok room (wstore w0) ->
  oldest_live set <> current_time (wstore w0) -> exists w1,
  do_item_get set nchunks room key (hash key) true (wstore w) = Some (current w0 key, wstore w1) /\ got w0 (keys ++ [key]) w1 /\
  (current w0 key <> 0 -> refcount (item_at (wstore w1) (current w0 key)) <= IT_REFCOUNT_LIMIT).
Proof.
  intros [Hw Hheld Hrefs Hclock Hcur Hst Hsame] Hcalm Hroom Hold. pose proof Hclock as Hcl. unfold clock in Hcl. injection Hcl as Htime Hlen.
  destruct (step_fetch room w key Hw) as (w1 & E & Hw1 & Hh1 & Hs1 & Hr1 & Hc1 & Hsame1).
  { intros x. specialize (Hcalm x). specialize (Hrefs x). unfold IT_REFCOUNT_LIMIT in Hcalm. lia. }
  { unfold room_ok in *. by rewrite Hlen. }
  rewrite Hcur in *. pose proof (fetch_current w w1 key Hw Hw1 ltac:(by rewrite Htime) Hc1) as Hcur1. rewrite Hcur in Hcur1. specialize (Hcur1 Hs1 Hsame1).
  exists w1. split; [done|]. split; [split|]; try done.
  - intros x. rewrite Hh1, Hheld, hits_snoc. destruct (decide (current w0 key = 0)) as [E0|E0].
    + rewrite decide_False by (intros [_ ?]; done). rewrite app_nil_r. lia.
    + rewrite count_snoc. destruct (decide (x = current w0 key)) as [-> |]; [rewrite decide_True by done; lia|rewrite decide_False by (intros [? _]; done); lia].
  - intros x. specialize (Hr1 x). specialize (Hrefs x). rewrite length_app. cbn [length]. lia.
  - congruence.
  - intros k. by rewrite Hcur1, Hcur.
  - intros k. rewrite Hs1, Hst. destruct (decide (k = key)) as [-> |Hne]; [by rewrite decide_True by set_solver|].
    destruct (decide (k ∈ keys)); [by rewrite decide_True by set_solver|by rewrite decide_False by set_solver].
  - intros x Hx0 Hx. pose proof (Hsame x Hx0 Hx) as [Hp Hh].
    assert (forall w', (forall y, held w0 y <= held w' y) -> hist w' -> (forall k, current w' k = current w0 k) -> used w' x) as Hused.
    { intros w' Hge Hw' Hc'. split; [done|]. destruct Hx as [Hx|[k Hk]].
      - left. apply held_refs_pos. specialize (Hge x). lia.
      - right. exists k. rewrite <- Hk, <- Hc'. symmetry. apply current_stored. rewrite Hc'. congruence. }
    destruct (Hsame1 x) as [[Hp1 Hh1'] _]; [apply Hused; try done| |].
    + intros y. rewrite Hheld. pose proof (count_nonneg y (hits w0 keys)). lia.
    + apply Hused; try done; [|intros k; by rewrite Hcur1, Hcur]. intros y. rewrite Hh1, Hheld. pose proof (count_nonneg y (hits w0 keys)). destruct (decide _); lia.
    + split; congruence.
  - intros H0. assert (stored w1 key = current w0 key) as Hsk by (by rewrite Hs1, decide_True).
    destruct (item_facts set hash nchunks Hpage Hrepair w1 (current w0 key) Hw1 H0 ltac:(right; by exists key)) as (-> & _).
    specialize (Hcalm (current w0 key)). specialize (Hrefs (current w0 key)). specialize (Hr1 (current w0 key)). case_if; lia.
Qed.
End fetching.

(** ** The reply *)

(** What one hit adds to the messages. *)
Definition parts_of (return_cas : bool) (x : Z) (i : item) : list (base * Z) :=
  let '(suffix, n) := make_ascii_get_suffix (replicate SUFFIX_SIZE 0) i return_cas (nbytes i) in
  [(Literal (bytes "VALUE "), 6); (ItemKey x, nkey i); (Literal suffix, Z.of_nat n); (ItemData x, nbytes i)].
Definition block (return_cas : bool) (i : item) : list Z := bytes "VALUE " ++ ikey i ++ suffix_text return_cas i ++ value i.

Lemma make_suffix_same buf i j return_cas n : payload j = payload i -> header j = header i ->
  make_ascii_get_suffix buf j return_cas n = make_ascii_get_suffix buf i return_cas n.
Proof.
  intros Hp Hh. unfold make_ascii_get_suffix. unfold payload, header in *. injection Hp as _ _ Hf _. injection Hh as _ E1 _ E2. by rewrite Hf, E1, E2.
Qed.
Lemma parts_same return_cas x i j : payload j = payload i -> header j = header i -> parts_of return_cas x j = parts_of return_cas x i.
Proof.
  intros Hp Hh. unfold parts_of. rewrite (make_suffix_same _ i j) by done. unfold payload in Hp. injection Hp as Hk Hn _ _. unfold nkey. by rewrite Hk, Hn.
Qed.
Lemma block_same return_cas i j : payload j = payload i -> header j = header i -> block return_cas j = block return_cas i.
Proof.
  intros Hp Hh. unfold block. rewrite (value_payload j i Hp). unfold payload, header in *. injection Hp as -> Hn Hf _. injection Hh as _ E1 _ E2.
  unfold suffix_text. by rewrite E1, E2, Hf, Hn.
Qed.
Lemma block_parts h return_cas x i : payload (h x) = payload i -> typed i ->
  concat (map (part_bytes h) (parts_of return_cas x i)) = block return_cas i /\ Forall (part_ok h) (parts_of return_cas x i).
Proof.
  intros Hp Ht. unfold parts_of, block. pose proof (get_suffix i return_cas Ht) as Hs. destruct (make_ascii_get_suffix _ _ _ _) as [suffix n].
  destruct Hs as (Hn & Hsuf & Hlt & Hlen). destruct Ht as (_ & _ & Hnb).
  assert (length (value i) = Z.to_nat (nbytes i)) as Hv by apply length_data_bytes.
  pose proof (value_payload _ _ Hp) as Hvp. assert (ikey (h x) = ikey i) as Hk by (unfold payload in Hp; congruence). split.
  - cbn [map concat]. unfold part_bytes, zslice. cbn [fst snd read]. rewrite Hvp, Hk. unfold nkey. rewrite Nat2Z.id, !drop_0, app_nil_r.
    rewrite (take_ge (ikey _)), (take_ge (value _)) by lia. rewrite Nat2Z.id, Hsuf. done.
  - repeat constructor; cbn [fst snd read]; rewrite ?Hvp, ?Hk; try done; unfold nkey; lia.
Qed.

Ltac eval_streq := repeat match goal with |- context [streq ?a ?b] => let v := eval vm_compute in (streq a b) in change (streq a b) with v end.

Section command.
Context (set : item_settings) (hash : list Z -> Z) {Hhash : KeyHash hash} (nchunks : nat).
Context (Hpage : 0 < slab_page_size (slab_set set) < 2 ^ 31) (Hrepair : tail_repair_time set = 0).
Context (add_chunked : Z -> output -> option (bool * output)).
Context (oom no_suffix : nat -> bool) (room : nat -> option nat).
Context (Hoom : forall n, oom n = false) (Hsuffix : forall n, no_suffix n = false).
Context (H : output -> list (base * Z) -> Prop) (fits : list (base * Z) -> Prop) (carried : (Z -> item) -> Z -> output -> list Z -> Prop) {HC : Collector oom H fits carried}.

Abbreviation hist := (history set hash nchunks).
Abbreviation stored := (stored hash).
Abbreviation current := (current set hash).
Abbreviation got := (got set hash nchunks).
Abbreviation hits := (hits set hash).
Abbreviation fetch_key := (get_key set hash nchunks add_chunked oom no_suffix room).
Abbreviation fetch_tokens := (get_tokens set hash nchunks add_chunked oom no_suffix room).
Abbreviation fetch_rounds := (get_rounds set hash nchunks add_chunked oom no_suffix room).

Definition parts_for (return_cas : bool) (w : world) (k : list Z) : list (base * Z) :=
  if decide (current w k = 0) then [] else parts_of return_cas (current w k) (item_at (wstore w) (current w k)).
Definition reply_parts (return_cas : bool) (w : world) (keys : list (list Z)) : list (base * Z) := concat (map (parts_for return_cas w) keys).
Lemma reply_snoc return_cas w keys k : reply_parts return_cas w (keys ++ [k]) = reply_parts return_cas w keys ++ parts_for return_cas w k.
Proof. unfold reply_parts. rewrite map_app, concat_app. cbn [map concat]. by rewrite app_nil_r. Qed.

(** The conditions on a command, in the state it starts in. *)
Record get_ready (w0 : world) (keys : list (list Z)) : Prop := {
  gr_calm : calm (Z.of_nat (length keys)) w0;
  gr_room : forall k, room_ok (room k) (wstore w0);
  gr_flush : oldest_live set <> current_time (wstore w0);
  gr_typed : forall k, k ∈ keys -> current w0 k <> 0 -> typed (item_at (wstore w0) (current w0 k))
}.

(** Progress of a command: [done] are the keys that are processed. *)
Record getting (return_cas : bool) (w0 : world) (g0 : getter) (done : list (list Z)) (g : getter) (w : world) : Prop := {
  gg_got : got w0 done w;
  gg_holds : H (out g) (reply_parts return_cas w0 done);
  gg_udp : is_udp (out g) = is_udp (out g0);
  gg_id : is_udp (out g0) = true -> request_id (out g) = request_id (out g0);
  gg_items : ilist g = ilist g0 ++ hits w0 done;
  gg_item : c_item (gc g) = c_item (gc g0)
}.

Lemma not_chunked w x : hist w -> used hash w x -> has_flag ITEM_CHUNKED (item_at (wstore w) x) = false.
Proof.
  intros Hw [H0 Hx]. destruct (history_inv set hash nchunks Hpage Hrepair w Hw) as [M Hi]. pose proof Hi as [_ (Q & F & U & Hwf)].
  assert (exists c, x ∈ U c) as [c Hc].
  { destruct Hx as [HR|[k Hk]]; [apply (w_refs _ _ _ _ _ _ _ _ Hwf); lia|]. apply (w_linked _ _ _ _ _ _ _ _ Hwf). exists k.
    rewrite (winv_stored set hash w M k Hi) in Hk. destruct (M !! k); cbn in Hk; [by subst|congruence]. }
  destruct (w_used _ _ _ _ _ _ _ _ Hwf c x Hc) as (it & Hit & _ & _ & Hch & _). unfold item_at. by rewrite (get_Some _ _ _ Hit).
Qed.

Lemma stored_key w k : hist w -> stored w k <> 0 -> ikey (item_at (wstore w) (stored w k)) = k.
Proof.
  intros Hw H0. destruct (history_inv set hash nchunks Hpage Hrepair w Hw) as [M Hi]. pose proof Hi as [_ (Q & F & U & Hwf)].
  rewrite (winv_stored set hash w M k Hi) in *. destruct (M !! k) as [x|] eqn:Hk; [|done]. cbn [from_option] in *.
  destruct (w_key _ _ _ _ _ _ _ _ _ _ Hwf Hk) as (it & Hit & <-). unfold id, item_at. by rewrite (get_Some _ _ _ Hit).
Qed.

(** The arrays of the connection grow. *)
Lemma expand_ilist g ps : H (out g) ps -> exists g', ascii_get_expand_ilist oom g = (true, g') /\ H (out g') ps /\
  is_udp (out g') = is_udp (out g) /\ request_id (out g') = request_id (out g) /\ ilist g' = ilist g /\ gc g' = gc g.
Proof.
  intros Ho. unfold ascii_get_expand_ilist. destruct (_ <=? _)%nat; [rewrite Hoom|]; eexists; split; [done| |done|]; split_and!; try done. by apply (col_tried oom (Collector := HC)).
Qed.
Lemma suffix_buf g ps : H (out g) ps -> exists g', ascii_get_suffix_buf oom no_suffix g = Some (true, g') /\ H (out g') ps /\
  is_udp (out g') = is_udp (out g) /\ request_id (out g') = request_id (out g) /\ ilist g' = ilist g /\ gc g' = gc g.
Proof.
  intros Ho. unfold ascii_get_suffix_buf. destruct (_ <=? _)%nat; [rewrite Hoom|]; cbn [suffixlist with_suffixes with_out]; rewrite Hsuffix;
    eexists; split; [done| |done|]; split_and!; try done. by apply (col_tried oom (Collector := HC)).
Qed.
Lemma hit_conn b x i g : out (hit b x i g) = out g /\ ilist (hit b x i g) = ilist g ++ [x] /\ c_item (gc (hit b x i g)) = c_item (gc g).
Proof. unfold hit. by destruct b. Qed.

(** One key. *)
Lemma getting_key return_cas w0 g0 ks g w k key : getting return_cas w0 g0 ks g w -> get_ready w0 (ks ++ [key]) ->
  fits (reply_parts return_cas w0 (ks ++ [key])) -> exists g' w',
  fetch_key k key 0 return_cas false g (wstore w) = Some (false, g', wstore w') /\ getting return_cas w0 g0 (ks ++ [key]) g' w'.
Proof.
  intros [Hg Ho Hu Hid Hi Hci] [Hcalm Hroom Hfl Hty] Hfits. rewrite reply_snoc in Hfits. rewrite length_app in Hcalm. cbn [length] in Hcalm.
  destruct (got_fetch set hash nchunks Hpage Hrepair (room k) w0 ks w key Hg ltac:(intros x; specialize (Hcalm x); lia) (Hroom k) Hfl) as (w1 & E & Hg1 & Hlim).
  unfold get_key, limited_get. rewrite E. cbn [mbind option_bind].
  set (g1 := with_gc (with_cn (count_get set key (hash key) (wstore w) (cn (gc g))) (gc g)) g). assert (out g1 = out g /\ ilist g1 = ilist g /\ c_item (gc g1) = c_item (gc g)) as (Eo & El & Ec) by done.
  unfold reply_parts in *. destruct (Z.eqb_spec (current w0 key) 0) as [H0|H0].
  - cbn [negb andb mbind option_bind]. rewrite H0. cbn [Z.eqb]. eexists _, w1. split; [done|]. split; try done.
    + rewrite reply_snoc. unfold parts_for. rewrite decide_True by done. by rewrite app_nil_r.
    + rewrite hits_snoc, decide_True, app_nil_r by done. exact Hi.
  - cbn [negb andb]. rewrite (proj2 (Z.ltb_ge _ _)) by (by apply Hlim). cbn [mbind option_bind]. rewrite (proj2 (Z.eqb_neq _ _)) by done. cbn zeta. fold g1.
    destruct (expand_ilist g1 _ Ho) as (g2 & E2 & Ho2 & Hu2 & Hid2 & Hi2 & Hc2). rewrite E2. cbn [negb].
    destruct (suffix_buf g2 _ Ho2) as (g3 & E3 & Ho3 & Hu3 & Hid3 & Hi3 & Hc3). rewrite E3. cbn [mbind option_bind negb].
    destruct (gt_same _ _ _ _ _ _ Hg1 (current w0 key) H0 ltac:(right; by exists key)) as [Hp Hh].
    set (i := item_at (wstore w1) (current w0 key)) in *.
    pose proof (parts_same return_cas (current w0 key) _ i Hp Hh) as Hparts. unfold parts_of at 1 in Hparts.
    assert (used hash w1 (current w0 key)) as Hused.
    { split; [done|]. right. exists key. rewrite (gt_stored _ _ _ _ _ _ Hg1), decide_True by set_solver. done. }
    assert (0 <= nbytes i) as Hnb.
    { destruct (Hty key ltac:(set_solver) H0) as (_ & _ & Hn). unfold payload in Hp. injection Hp as _ Hn' _ _. lia. }
    destruct (make_ascii_get_suffix (replicate SUFFIX_SIZE 0) i return_cas (nbytes i)) as [suffix n] eqn:Es.
    unfold parts_for in Hfits. rewrite decide_False, <- Hparts in Hfits by done. fold (reply_parts return_cas w0 ks) in Hfits.
    destruct (collect_all oom [(Literal (bytes "VALUE "), 6); (ItemKey (current w0 key), nkey i); (Literal suffix, Z.of_nat n)]
      ltac:(repeat constructor; cbn; unfold nkey; (done || lia)) (out g3) _ Ho3) as (o4 & E4 & Ho4 & Hu4 & Hid4).
    { apply (col_prefix oom _ [(ItemData (current w0 key), nbytes i)]). by rewrite <- app_assoc. }
    cbn [out with_suffixes]. rewrite E4. cbn [mbind option_bind negb]. pose proof (not_chunked w1 _ (gt_hist _ _ _ _ _ _ Hg1) Hused) as Hch. fold i in Hch. rewrite Hch. cbn [negb].
    destruct (col_add oom o4 _ (ItemData (current w0 key)) (nbytes i) Ho4 ltac:(done) Hnb) as (o5 & E5 & Ho5 & Hu5 & Hid5); [by rewrite <- app_assoc|]. rewrite E5. cbn [mbind option_bind].
    eexists _, w1. split; [done|]. match goal with |- context [hit false ?x ?i ?g] => destruct (hit_conn false x i g) as (Hx1 & Hx2 & Hx3) end.
    split; rewrite ?Hx1, ?Hx2, ?Hx3; cbn [out with_out ilist gc with_suffixes]; try done.
    + rewrite reply_snoc. unfold parts_for. rewrite decide_False by done. rewrite <- Hparts. rewrite <- app_assoc in Ho5. exact Ho5.
    + congruence.
    + intros Hudp. rewrite Hid5, Hid4, Hid3, Hid2 by congruence. rewrite Eo. by apply Hid.
    + rewrite hits_snoc, decide_False by done. rewrite Hi3, Hi2, El, Hi. by rewrite app_assoc.
    + congruence.
Qed.

Lemma get_ready_le w0 ks ls : get_ready w0 (ks ++ ls) -> get_ready w0 ks.
Proof.
  intros [H1 H2 H3 H4]. rewrite length_app in H1. split; try done; [intros x; specialize (H1 x); lia|]. intros k Hk. apply H4. apply elem_of_app. by left.
Qed.

Lemma fits_le return_cas w0 ks ls : fits (reply_parts return_cas w0 (ks ++ ls)) -> fits (reply_parts return_cas w0 ks).
Proof. unfold reply_parts. rewrite map_app, concat_app. apply (col_prefix oom (Collector := HC)). Qed.

(** The tokens of a round. *)
Lemma getting_tokens return_cas w0 g0 buf t0 : tlength t0 = 0%nat -> forall ts ws k ks g w,
  map (token_text buf) ts = ws -> map tlength ts = map length ws -> Forall (fun w => w <> []) ws -> Forall (fun w => (length w <= KEY_MAX_LENGTH)%nat) ws ->
  getting return_cas w0 g0 ks g w -> get_ready w0 (ks ++ ws) -> fits (reply_parts return_cas w0 (ks ++ ws)) -> exists k' g' w',
  fetch_tokens k buf (ts ++ [t0]) 0 return_cas false g (wstore w) = Some (false, false, tvalue t0, k', g', wstore w') /\
  getting return_cas w0 g0 (ks ++ ws) g' w'.
Proof.
  intros H0. induction ts as [|t ts IH]; intros ws k ks g w Htx Htl Hne Hmax Hg Hr Hf; destruct ws as [|key ws]; try done; cbn [app get_tokens].
  - rewrite H0. cbn [Nat.eqb]. exists k, g, w. by rewrite app_nil_r.
  - injection Htx as Ht Htx. injection Htl as Hl Htl. apply Forall_cons in Hne as [Hk Hne]. apply Forall_cons in Hmax as [Hm Hmax].
    rewrite Hl, (proj2 (Nat.eqb_neq _ _)) by (by destruct key). rewrite (proj2 (Nat.ltb_ge _ _)) by done. rewrite Ht.
    replace (ks ++ key :: ws) with ((ks ++ [key]) ++ ws) in * by (by rewrite <- app_assoc).
    destruct (getting_key return_cas w0 g0 ks g w k key Hg (get_ready_le _ _ _ Hr) (fits_le _ _ _ _ Hf)) as (g1 & w1 & E1 & Hg1). rewrite E1. cbn [mbind option_bind].
    by apply (IH ws (S k) (ks ++ [key]) g1 w1).
Qed.

Lemma getting_rounds return_cas w0 g0 post fuel : forall k P left ts ws ks g w, let buf := P ++ left ++ 0 :: post in
  map (token_text buf) ts = ws -> map tlength ts = map length ws -> Forall (fun w => w <> []) ws -> Forall (fun c => c <> 0) left ->
  Forall (fun w => (length w <= KEY_MAX_LENGTH)%nat) (ws ++ words [] left) -> (length left < fuel)%nat ->
  getting return_cas w0 g0 ks g w -> get_ready w0 (ks ++ ws ++ words [] left) ->
  fits (reply_parts return_cas w0 (ks ++ ws ++ words [] left)) -> exists g' w',
  fetch_rounds fuel k buf (ts ++ [terminal left (length P)]) 0 return_cas false g (wstore w) = Some (false, None, g', wstore w') /\
  getting return_cas w0 g0 (ks ++ ws ++ words [] left) g' w'.
Proof.
  induction fuel as [|fuel IH]; intros k P left ts ws ks g w buf Htx Htl Hne Hnz Hmax Hf Hg Hr Hfits; [lia|]. cbn [get_rounds].
  apply Forall_app in Hmax as [Hmax1 Hmax2].
  destruct (getting_tokens return_cas w0 g0 buf (terminal left (length P)) eq_refl ts ws k ks g w Htx Htl Hne Hmax1 Hg) as (k1 & g1 & w1 & E1 & Hg1).
  { rewrite app_assoc in Hr. by apply (get_ready_le _ _ _ Hr). }
  { rewrite app_assoc in Hfits. by apply (fits_le _ _ _ _ Hfits). }
  rewrite E1. cbn [mbind option_bind terminal tvalue]. destruct (decide (left = [])) as [-> |Hleft].
  { exists g1, w1. cbn [words]. rewrite decide_True by done. by rewrite app_nil_r. }
  destruct (tokenize_round P left post MAX_TOKENS Hnz ltac:(unfold MAX_TOKENS; lia)) as (X & left2 & ts2 & E2 & Hsuf & HX & Hlen & Htx2 & Htl2 & Hw2).
  unfold buf. rewrite E2. cbn [app length] in *. set (ws2 := take (MAX_TOKENS - 1 - 0) (words [] left)) in *.
  assert (words [] left = ws2 ++ words [] left2) as Ewords by (rewrite Hw2; symmetry; apply take_drop).
  assert (Forall (fun c => c <> 0) left2) as Hnz2 by (destruct Hsuf as [pp ->]; by apply Forall_app in Hnz as [_ ?]).
  assert (Forall (fun w => w <> []) ws2) as Hne2 by (apply Forall_take, words_nonempty).
  destruct (tvalue (nth_token (ts2 ++ [terminal left2 (length P + length X)]) 0)) as [p|] eqn:Ev.
  - assert (ks ++ ws ++ words [] left = (ks ++ ws) ++ ws2 ++ words [] left2) as Eks by (rewrite Ewords at 1; by rewrite <- app_assoc).
    rewrite Eks in *.
    rewrite Ewords in Hmax2. replace (length P + length X)%nat with (length (P ++ X)) by apply length_app.
    replace (P ++ X ++ left2 ++ 0 :: post) with ((P ++ X) ++ left2 ++ 0 :: post) in * by (by rewrite <- app_assoc).
    apply (IH k1 (P ++ X) left2 ts2 ws2 (ks ++ ws) g1 w1); try done.
    rewrite length_app in Hlen. destruct (decide (left2 = [])) as [-> |H2]; [cbn; destruct left; [done|cbn in *; lia]|].
    assert (length X <> 0)%nat by (specialize (HX H2); by destruct X). lia.
  - exists g1, w1. split; [done|]. assert (ts2 = [] /\ left2 = []) as [-> ->].
    { destruct ts2 as [|t2 ts2].
      - split; [done|]. cbn [app nth_token nth terminal tvalue] in Ev. by destruct (decide (left2 = [])).
      - cbn [app nth_token nth] in Ev. clearbody ws2. destruct ws2 as [|w2 ws2]; [done|]. injection Htx2 as Ht2 _. apply Forall_inv in Hne2.
        unfold token_text in Ht2. rewrite Ev in Ht2. by rewrite <- Ht2 in Hne2. }
    cbn [map] in Htx2. rewrite Ewords, <- Htx2. cbn [words app]. rewrite decide_True by done. by rewrite app_nil_r.
Qed.

(** ** While the reply is sent *)

(** Operations of others, while somebody keeps the references [xs]. *)
Inductive meanwhile (xs : list Z) (w : world) : world -> Prop :=
| meanwhile_refl : meanwhile xs w w
| meanwhile_step o w1 r w2 : meanwhile xs w w1 -> allowed set hash o w1 -> exec set hash nchunks o w1 = Some (r, w2) ->
    (forall x, x ∈ xs -> writes o x = false) -> (forall x, count_of x xs <= held w2 x) -> meanwhile xs w w2.

Lemma count_pos x xs : x ∈ xs -> 0 < count_of x xs.
Proof.
  intros Hx. unfold count_of. assert (x ∈ filter (fun y => y = x) xs) as Hin by (by apply list_elem_of_filter). destruct (filter _ _); [by apply not_elem_of_nil in Hin|cbn; lia].
Qed.
Lemma meanwhile_stable xs w w2 : hist w -> (forall x, count_of x xs <= held w x) -> meanwhile xs w w2 ->
  hist w2 /\ (forall x, count_of x xs <= held w2 x) /\ forall x, x ∈ xs -> payload (item_at (wstore w2) x) = payload (item_at (wstore w) x).
Proof.
  intros Hw Hh Hm. induction Hm as [|o w1 r w2 Hm (Hw1 & Hh1 & Hp1) Ha E Hwr Hh2]; [done|].
  destruct (history_next set hash nchunks Hpage Hrepair o w1 Hw1 Ha) as (r' & w2' & E' & Hw2 & _ & _ & Hs & _). rewrite E in E'. injection E' as <- <-.
  split_and!; try done. intros x Hx. rewrite <- (Hp1 x Hx). apply (stable_payload set hash nchunks Hpage Hrepair o); try done; [|by apply Hwr].
  apply held_refs_pos. specialize (Hh1 x). pose proof (count_pos x xs Hx). lia.
Qed.

Lemma release_list xs : forall w, hist w -> calm (Z.of_nat (length xs)) w -> (forall x, count_of x xs <= held w x) -> exists w',
  fold_left (fun s it => do_item_remove nchunks it s) xs (wstore w) = wstore w' /\ hist w' /\ (forall k, stored w' k = stored w k) /\
  forall x, held w' x = held w x - count_of x xs.
Proof.
  induction xs as [|y xs IH]; intros w Hw Hc Hh; cbn [fold_left].
  { exists w. split_and!; try done. intros x. change (count_of x []) with 0. lia. }
  assert (forall x, count_of x (y :: xs) = (if decide (x = y) then 1 else 0) + count_of x xs) as Hcons.
  { intros x. unfold count_of. rewrite filter_cons. repeat case_decide; subst; try done; cbn [length]; lia. }
  cbn [length] in Hc.
  destruct (step_release set hash nchunks Hpage Hrepair w y Hw) as (Hw1 & Hs1 & Hr1 & _).
  { intros x. specialize (Hc x). unfold IT_REFCOUNT_LIMIT in Hc. lia. }
  { specialize (Hh y). rewrite Hcons, decide_True in Hh by done. pose proof (count_nonneg y xs). lia. }
  set (w1 := drop_ref y _ w) in *.
  assert (forall x, held w1 x = held w x - if decide (x = y) then 1 else 0) as Hheld.
  { intros x. cbn [w1 drop_ref held]. unfold set_ref. destruct (decide (x = y)) as [-> |]; lia. }
  destruct (IH w1 Hw1) as (w2 & E2 & Hw2 & Hs2 & Hh2).
  - intros x. specialize (Hc x). specialize (Hr1 x). lia.
  - intros x. rewrite Hheld. specialize (Hh x). rewrite Hcons in Hh. lia.
  - exists w2. split_and!; [exact E2|done|intros k; by rewrite Hs2|]. intros x. rewrite Hh2, Hheld, Hcons. lia.
Qed.

(** ** The whole command *)

Definition END : list Z := bytes "END" ++ [13; 10].
(** The reply to the keys in a state: a block for every key with a valid item. *)
Definition reply (return_cas : bool) (w : world) (keys : list (list Z)) : list Z :=
  concat (map (fun k => if live set hash w k then block return_cas (item_at (wstore w) (stored w k)) else []) keys) ++ END.

Lemma reply_bytes return_cas w keys h : (forall k, k ∈ keys -> current w k <> 0 -> typed (item_at (wstore w) (current w k))) ->
  (forall x, x ∈ hits w keys -> payload (h x) = payload (item_at (wstore w) x)) ->
  concat (map (part_bytes h) (reply_parts return_cas w keys ++ [(Literal END, 5)])) = reply return_cas w keys /\
  Forall (part_ok h) (reply_parts return_cas w keys ++ [(Literal END, 5)]).
Proof.
  intros Hty Hp. unfold reply. assert (forall ks, (forall k, k ∈ ks -> k ∈ keys) -> (forall x, x ∈ hits w ks -> payload (h x) = payload (item_at (wstore w) x)) ->
    concat (map (part_bytes h) (reply_parts return_cas w ks)) =
    concat (map (fun k => if live set hash w k then block return_cas (item_at (wstore w) (stored w k)) else []) ks) /\
    Forall (part_ok h) (reply_parts return_cas w ks)) as Hall.
  { clear Hp. induction ks as [|k ks IH]; intros Hin Hp; [done|]. unfold reply_parts in *. cbn [map concat].
    assert (forall x, x ∈ hits w ks -> payload (h x) = payload (item_at (wstore w) x)) as Hp'.
    { intros x Hx. apply Hp. unfold McGet.hits in *. cbn [map]. apply list_elem_of_filter in Hx as [H1 H2]. apply list_elem_of_filter. split; [done|by right]. }
    destruct (IH (fun j Hj => Hin j (list_elem_of_further _ _ _ Hj)) Hp') as [IH1 IH2]. rewrite map_app, concat_app, IH1. unfold parts_for. rewrite (live_current set hash w k).
    destruct (decide (current w k = 0)) as [E|E]; [by rewrite E|]. rewrite (proj2 (Z.eqb_neq _ _)) by done. cbn [negb].
    destruct (block_parts h return_cas (current w k) (item_at (wstore w) (current w k))) as [B1 B2].
    { apply Hp. unfold McGet.hits. cbn [map]. apply list_elem_of_filter. split; [done|by left]. }
    { apply Hty; [apply Hin; by left|done]. }
    rewrite B1. destruct (current_stored set hash w k E) as [<- _]. split; [done|by apply Forall_app]. }
  destruct (Hall keys (fun k Hk => Hk) Hp) as [H1 H2]. rewrite map_app, concat_app, H1. split.
  - cbn [map concat]. by rewrite app_nil_r.
  - apply Forall_app. split; [done|]. repeat constructor; cbn; (done || lia).
Qed.

Lemma with_msgs_id o : msgcurr o = 0%nat -> with_msgs (msglist o) (msgused o) 0 (msgbytes o) o = o.
Proof. intros Hm. destruct o. cbn in *. unfold with_msgs. cbn. by subst. Qed.

(** The reply is complete, and stays what it is as long as its items are held. *)
Lemma getting_end return_cas w0 g0 keys g w : getting return_cas w0 g0 keys g w -> get_ready w0 keys ->
  fits (reply_parts return_cas w0 keys ++ [(Literal END, 5)]) -> exists id g',
  get_end nchunks oom false None g (wstore w) = Some (g', wstore w) /\ state (gc g') = conn_mwrite /\ ilist g' = ilist g /\ c_item (gc g') = c_item (gc g) /\
  is_udp (out g') = is_udp (out g) /\ (is_udp (out g) = true -> id = request_id (out g)) /\
  forall h, (forall x, x ∈ hits w0 keys -> payload (h x) = payload (item_at (wstore w0) x)) ->
    carried h id (out g') (reply return_cas w0 keys).
Proof.
  intros [Hg Ho Hu Hid Hi Hc] Hr Hf. unfold get_end.
  destruct (col_add oom (out g) _ (Literal END) 5 Ho ltac:(done) ltac:(lia) Hf) as (o1 & E1 & Ho1 & Hu1 & Hid1).
  change (Literal (bytes "END" ++ [13; 10])) with (Literal END). rewrite E1. cbn [mbind option_bind].
  assert (forall x, x ∈ hits w0 keys -> payload (item_at (wstore w0) x) = payload (item_at (wstore w0) x)) as Hrefl by done.
  destruct (reply_bytes return_cas w0 keys (item_at (wstore w0)) (gr_typed _ _ Hr) Hrefl) as [_ Hok].
  destruct (col_finish oom _ o1 _ Ho1 Hf Hok) as (o2 & E2 & _ & Hc2 & Hu2). rewrite E2. cbn [mbind option_bind].
  rewrite with_msgs_id by done. exists (request_id o1). eexists. split; [done|]. split_and!; try done; [cbn; congruence|]. intros h Hh.
  destruct (reply_bytes return_cas w0 keys h (gr_typed _ _ Hr) Hh) as [Hb Hok']. destruct (col_finish oom h o1 _ Ho1 Hf Hok') as (o3 & E3 & Ha & _).
  rewrite E2 in E3. injection E3 as <-. rewrite Hb in Ha. exact Ha.
Qed.

(** The command, for any kind of answer. *)
Lemma get_command started (gets : bool) pre cmd post keys w g :
  Forall (fun b => b <> 0) cmd -> words [] cmd = (if gets then bytes "gets" else bytes "get") :: keys -> keys <> [] ->
  Forall (fun k => (length k <= KEY_MAX_LENGTH)%nat) keys -> hist w -> get_ready w keys -> H (out g) [] -> ilist g = [] -> c_item (gc g) = 0 ->
  fits (reply_parts gets w keys ++ [(Literal END, 5)]) ->
  let '(buf, tokens) := tokenize_command (pre ++ cmd ++ 0 :: post) (length pre) MAX_TOKENS in
  command_of buf tokens = H_get gets false /\ exists id g' w',
    process_get_command set hash nchunks add_chunked started oom no_suffix room buf tokens gets false g (wstore w) = Some (g', wstore w') /\
    hist w' /\ state (gc g') = conn_mwrite /\ ilist g' = hits w keys /\ c_item (gc g') = 0 /\
    (forall x, held w' x = held w x + count_of x (ilist g')) /\
    (forall k, stored w' k = if decide (k ∈ keys) then current w k else stored w k) /\
    is_udp (out g') = is_udp (out g) /\ (is_udp (out g) = true -> id = request_id (out g)) /\
    forall w2, meanwhile (ilist g') w' w2 -> hist w2 /\ (forall x, count_of x (ilist g') <= held w2 x) /\
      carried (item_at (wstore w2)) id (out g') (reply gets w keys).
Proof.
  intros Hc Hws Hkeys Hmax Hw Hr Ho Hil Hci Hfits.
  destruct (tokenize_round pre cmd post MAX_TOKENS Hc ltac:(unfold MAX_TOKENS; lia)) as (X & left & ts & E & Hsf & _ & Hlen & Htx & Htl & Hleft).
  rewrite E. cbn [app length] in *. rewrite Hws in *. set (buf := pre ++ X ++ left ++ 0 :: post) in *.
  assert (Forall (fun c => c <> 0) left) as Hnz by (destruct Hsf as [p ->]; by apply Forall_app in Hc as [_ ?]).
  change (MAX_TOKENS - 1 - 0)%nat with 7%nat in *. cbn [take] in Htx, Htl. cbn [drop] in Hleft. destruct ts as [|t ts]; [done|]. injection Htx as Ht0 Htx. injection Htl as _ Htl.
  assert (keys = take 6 keys ++ words [] left) as Ek by (rewrite Hleft; symmetry; apply take_drop).
  set (ws := take 6 keys) in *. set (tl := terminal left _).
  assert (ts <> []) as Hts.
  { intros ->. cbn [map] in Htx. destruct keys as [|k0 keys0]; [done|]. by unfold ws in Htx. }
  split.
  { unfold command_of. assert (text buf ((t :: ts) ++ [tl]) COMMAND_TOKEN = if gets then bytes "gets" else bytes "get") as -> by exact Ht0.
    assert ((3 <=? length ((t :: ts) ++ [tl]))%nat = true) as ->.
    { apply Nat.leb_le. rewrite length_app. cbn [length]. destruct ts; [done|cbn [length]; lia]. }
    destruct gets; eval_streq; rewrite ?andb_false_r; reflexivity. }
  unfold process_get_command. change (drop KEY_TOKEN ((t :: ts) ++ [tl])) with (ts ++ [tl]). cbn [negb].
  pose proof (got_start set hash nchunks w Hw) as Hg0.
  assert (getting gets w g [] g w) as Hg by (split; try done; by rewrite app_nil_r).
  destruct (getting_rounds gets w g post (S (length buf)) 0 (pre ++ X) left ts ws [] g w) as (g1 & w1 & E1 & Hg1); try done.
  { by rewrite <- app_assoc. }
  { apply Forall_take. pose proof (words_nonempty cmd []) as Hne. rewrite Hws in Hne. by apply Forall_cons in Hne as [_ ?]. }
  { by rewrite <- Ek. }
  { unfold buf. rewrite !length_app. cbn [length]. lia. }
  { cbn [app]. by rewrite <- Ek. }
  { cbn [app]. rewrite <- Ek. by apply (col_prefix oom _ _ Hfits). }
  cbn [app] in Hg1. rewrite <- Ek in Hg1. rewrite <- app_assoc, length_app in E1. fold buf tl in E1. rewrite E1. cbn [mbind option_bind].
  destruct (getting_end gets w g keys g1 w1 Hg1 Hr Hfits) as (id & g2 & E2 & Hst & Hil2 & Hci2 & Hu2 & Hid2 & Hans). rewrite E2.
  destruct Hg1 as [Hgot Ho1 Hu1 Hid1 Hil1 Hci1]. rewrite Hil in Hil1. cbn [app] in Hil1. rewrite Hil1 in Hil2.
  exists id, g2, w1. split; [done|]. rewrite Hil2. split_and!; [by apply Hgot|done|done|congruence|by apply Hgot|by apply Hgot|congruence| |].
  { intros Hu. rewrite Hid2 by congruence. by apply Hid1. }
  intros w2 Hm. destruct (meanwhile_stable (hits w keys) w1 w2 (gt_hist _ _ _ _ _ _ Hgot)) as (Hw2 & Hh2 & Hp2); [|done|].
  { intros x. rewrite (gt_held _ _ _ _ _ _ Hgot). pose proof (history_held set hash nchunks Hpage Hrepair w x Hw). lia. }
  split_and!; try done. apply Hans. intros x Hx. rewrite (Hp2 x Hx). apply (gt_same _ _ _ _ _ _ Hgot).
  - unfold McGet.hits in Hx. by apply list_elem_of_filter in Hx as [? _].
  - right. unfold McGet.hits in Hx. apply list_elem_of_filter in Hx as [_ Hx]. apply list_elem_of_fmap in Hx as (k & -> & _). by exists k.
Qed.
(** Sent or not, the connection gives the references back. *)
Lemma get_released keys g' w w2 : hist w2 -> (forall x, count_of x (ilist g') <= held w2 x) -> ilist g' = hits w keys -> c_item (gc g') = 0 ->
  calm (Z.of_nat (length keys)) w2 -> exists w3, (conn_release_items nchunks g' (wstore w2)).2 = wstore w3 /\ hist w3 /\
  forall x, held w3 x = held w2 x - count_of x (ilist g').
Proof.
  intros Hw2 Hh2 Hil Hci Hcalm. destruct (release_list (ilist g') w2 Hw2) as (w3 & E3 & Hw3 & _ & Hh3).
  - intros x. specialize (Hcalm x). assert (length (hits w keys) <= length keys)%nat; [|rewrite Hil; lia].
    unfold McGet.hits. etrans; [apply length_filter|]. by rewrite length_map.
  - exact Hh2.
  - exists w3. split; [|done]. unfold conn_release_items. by rewrite Hci.
Qed.
End command.


(** C17: the get commands.  A line whose words are "get" or "gets" and any number of keys goes to
    the get handler.  In every history, when memory suffices, the handler runs without a
    failure and leaves messages that carry exactly the reply: for every key in order whose
    item has not expired a line with the key, the client flags, the length and, for
    "gets", the CAS id, and the value, then END; over UDP in datagrams with their headers.
    It takes out the expired items among the keys and nothing else.  The connection holds
    one reference for every hit, and whatever others do before it gives them back (store,
    replace, delete, evict, maintain) the messages stay what they are.  When it gives them
    back, it holds what it held before. *)
Theorem get_command_answers set hash (Hhash : KeyHash hash) nchunks (Hpage : 0 < slab_page_size (slab_set set) < 2 ^ 31)
    (Hrepair : tail_repair_time set = 0) add_chunked started oom no_suffix room (gets : bool) pre cmd post keys w g :
  (forall n, oom n = false) -> (forall n, no_suffix n = false) ->
  Forall (fun b => b <> 0) cmd -> words [] cmd = (if gets then bytes "gets" else bytes "get") :: keys -> keys <> [] ->
  Forall (fun k => (length k <= KEY_MAX_LENGTH)%nat) keys ->
  history set hash nchunks w -> get_ready set hash room w keys -> holds (out g) [] -> ilist g = [] -> c_item (gc g) = 0 ->
  let '(buf, tokens) := tokenize_command (pre ++ cmd ++ 0 :: post) (length pre) MAX_TOKENS in
  command_of buf tokens = H_get gets false /\ exists g' w',
    process_get_command set hash nchunks add_chunked started oom no_suffix room buf tokens gets false g (wstore w) = Some (g', wstore w') /\
    history set hash nchunks w' /\ state (gc g') = conn_mwrite /\ ilist g' = hits set hash w keys /\
    (forall x, held w' x = held w x + count_of x (ilist g')) /\
    (forall k, stored hash w' k = if decide (k ∈ keys) then current set hash w k else stored hash w k) /\
    forall w2, meanwhile set hash nchunks (ilist g') w' w2 ->
      answers (item_at (wstore w2)) (request_id (out g)) (out g') (reply set hash gets w keys) /\
      (calm (Z.of_nat (length keys)) w2 -> exists w3, (conn_release_items nchunks g' (wstore w2)).2 = wstore w3 /\ history set hash nchunks w3 /\
         forall x, held w3 x = held w2 x - count_of x (ilist g')).
Proof.
  intros Hoom Hsuf Hc Hws Hkeys Hmax Hw Hr Ho Hil Hci.
  pose proof (get_command set hash nchunks Hpage Hrepair add_chunked oom no_suffix room Hoom Hsuf holds (fun _ => True) answers (HC := holds_collector oom Hoom)
    started gets pre cmd post keys w g Hc Hws Hkeys Hmax Hw Hr Ho Hil Hci I) as Hcmd.
  destruct (tokenize_command _ _ _) as [buf tokens]. destruct Hcmd as (Hcm & id & g' & w' & E & Hw' & Hst & Hi & Hci' & Hh & Hs & Hu & Hid & Hm).
  split; [done|]. exists g', w'. split_and!; try done. intros w2 Hw2. destruct (Hm w2 Hw2) as (Hh2 & Hc2 & Ha). split.
  - unfold answers in *. rewrite Hu in *. destruct (is_udp (out g)); [by rewrite <- Hid|done].
  - intros Hcalm. by apply (get_released set hash nchunks Hpage Hrepair keys g' w w2).
Qed.

Module GetExample.
Import HistoryExample.
Definition g0 (o : output) : getter :=
  {| gc := ProtoExample.c0; out := o; ilist := []; isize := 200; suffixlist := []; suffixsize := 100 |}.
Lemma ready4 keys : (length keys <= 100)%nat -> Forall (fun k => k = [65] \/ k = [66]) keys -> get_ready set sum_hash (fun _ => None) w4.2 keys.
Proof.
  intros Hl HF. split; [|done|vm_compute; discriminate|].
  - intros x. pose proof (b4 x) as Hh. assert (length (concat (bumps (wstore w4.2))) = 0)%nat as Hb by (vm_compute; reflexivity).
    unfold refs, bump_refs, IT_REFCOUNT_LIMIT. pose proof (length_filter (fun e : Z * Z => e.1 = x) (concat (bumps (wstore w4.2)))). lia.
  - intros k Hk. rewrite Forall_forall in HF. destruct (HF k Hk) as [-> | ->]; intros H0; vm_compute in H0; [|done]. vm_compute. repeat split; discriminate.
Qed.
End GetExample.

(** "A" is stored and "B" is not; the reply over UDP has "A" twice. *)
Lemma get_command_answers_witness : exists o,
  reset_output (fun _ => false) (OutputExample.o0 true) = Some (true, o) /\
  let '(buf, tokens) := tokenize_command (bytes "gets A B A" ++ [0]) 0 MAX_TOKENS in exists g' w',
  process_get_command HistoryExample.set Witness.sum_hash 0 (fun _ o => Some (true, o)) 0 (fun _ => false) (fun _ => false) (fun _ => None)
    buf tokens true false (GetExample.g0 o) (wstore HistoryExample.w4.2) = Some (g', wstore w') /\
  ilist g' = [11776; 11776] /\
  answers (item_at (wstore w')) (request_id o) (out g')
    (bytes "VALUE A 0 3 1" ++ [13; 10] ++ bytes "xyz" ++ [13; 10] ++ bytes "VALUE A 0 3 1" ++ [13; 10] ++ bytes "xyz" ++ [13; 10] ++ bytes "END" ++ [13; 10]).
Proof.
  destruct (holds_start (fun _ => false) (fun _ => eq_refl) (OutputExample.o0 true) ltac:(cbn; lia) ltac:(cbn; lia)) as (o & E & Ho & _).
  exists o. split; [exact E|].
  pose proof (get_command_answers HistoryExample.set Witness.sum_hash Witness.sum_hash_range 0 SlabExample.page_ok eq_refl (fun _ o => Some (true, o)) 0
    (fun _ => false) (fun _ => false) (fun _ => None) true [] (bytes "gets A B A") [] [[65]; [66]; [65]] HistoryExample.w4.2 (GetExample.g0 o)) as H.
  destruct H as (_ & g' & w' & E' & _ & _ & Hil & _ & _ & Hm).
  - done.
  - done.
  - repeat constructor; discriminate.
  - reflexivity.
  - discriminate.
  - repeat constructor; unfold KEY_MAX_LENGTH; cbn; lia.
  - exact HistoryExample.h4.
  - apply GetExample.ready4; [cbn; lia|]. repeat constructor; (by left) || by right.
  - exact Ho.
  - reflexivity.
  - reflexivity.
  - destruct (Hm w' (meanwhile_refl _ _ _ _ _)) as [Ha _]. exists g', w'. split; [exact E'|]. split; [rewrite Hil; vm_compute; reflexivity|].
    replace (bytes "VALUE A 0 3 1" ++ _) with (reply HistoryExample.set Witness.sum_hash true HistoryExample.w4.2 [[65]; [66]; [65]]) by (vm_compute; reflexivity).
    exact Ha.
Defined.

(** The result of adding the value is not looked at: when the array of entries is full at that
    moment and cannot grow, the reply announces a value, lacks it, and ends with END. *)
Lemma unchecked_add_drops_value :
  let fails n := (n =? 0)%nat in
  let '(buf, tokens) := tokenize_command (bytes "get A" ++ [0]) 0 MAX_TOKENS in
  (o ← reset_output fails (OutputExample.o0 true);
   '(g, s) ← process_get_command HistoryExample.set Witness.sum_hash 0 (fun _ o => Some (true, o)) 0 fails (fun _ => false) (fun _ => None)
      buf tokens false false (GetExample.g0 o.2) (wstore HistoryExample.w4.2);
   Some (state (gc g), message_bytes (item_at s) (out g) 0)) =
  Some (conn_mwrite, udp_header 258 0 1 ++ bytes "VALUE A 0 3" ++ [13; 10] ++ bytes "END" ++ [13; 10]).
Proof. vm_compute. reflexivity. Qed.
