(* ===== verification/McConn.v ===== *)
(** A client connection (src/memcached-sr/memcached.c): the read buffer, the parser of
    command lines, [process_command] and the state machine [drive_machine] that moves
    between reading, executing, storing values and writing.

    The kernel's side of the socket is a list of segments: bytes that have arrived, after
    each other, and the places where a read finds nothing or fails.  [Bytes []] is the
    end of the stream; over UDP a segment is a datagram.  The answers to writes and to
    changes of the event are lists too.  [log] is no state of the program: it records what
    the connection did with the bytes it was given.

    The machine is the one of a client that speaks the ASCII protocol, without
    authentication, external storage and TLS; listening sockets are not modelled.  [other]
    stands for the handlers of commands that are not modelled, [orc n] for what the [n]-th
    command meets in the allocator.  [None] is behaviour outside the model: an access
    outside the arrays, a value of several chunks, the binary protocol. *)
From S2P Require Import Prelude McItoa McUtil McItem McAssoc McSlabs McItems McItemStore McPayload McItemOps McItemHistory.
From S2P Require Import McStore McToken McProto McOutput McGet.

Definition DATA_BUFFER_SIZE : nat := 2048.
Definition ITEM_LIST_INITIAL : nat := 200.
Definition IOV_LIST_INITIAL : nat := 400.
Definition MSG_LIST_INITIAL : nat := 10.
Definition READ_BUFFER_HIGHWAT : nat := 8192.
Definition ITEM_LIST_HIGHWAT : nat := 400.
Definition IOV_LIST_HIGHWAT : nat := 600.
Definition MSG_LIST_HIGHWAT : nat := 100.
Definition PROTOCOL_BINARY_REQ : Z := 128.

(** ** The socket *)

Inductive segment := Bytes (bs : list Z) | Block | Broken.
Inductive read_result := Got (bs : list Z) | WouldBlock | ReadFailed.
Definition sock_read (avail : nat) (k : list segment) : read_result * list segment :=
  match k with
  | [] => (WouldBlock, [])
  | Bytes bs :: k => (Got (take avail bs), if (length bs <=? avail)%nat then k else Bytes (drop avail bs) :: k)
  | Block :: k => (WouldBlock, k)
  | Broken :: k => (ReadFailed, k)
  end.
(** A datagram is read whole; what does not fit is lost. *)
Definition sock_recv (size : nat) (k : list segment) : read_result * list segment :=
  match k with
  | [] => (WouldBlock, [])
  | Bytes bs :: k => (Got (take size bs), k)
  | Block :: k => (WouldBlock, k)
  | Broken :: k => (ReadFailed, k)
  end.

(** [Accept n]: the kernel takes up to [n] bytes. *)
Inductive send_answer := Accept (n : nat) | NoRoom | SendFails.
Record kernel := { net : list segment; sends : list send_answer; updates : list bool }.

(** ** The connection *)

(** [rcurr] is relative to [rbuf], whose length is [rsize]. *)
Record reader := { rbuf : list Z; rcurr : nat; rbytes : nat }.
Definition rsize (r : reader) : nat := length (rbuf r).
(** The bytes that are not parsed yet. *)
Definition pending (r : reader) : list Z := slice (rcurr r) (rbytes r) (rbuf r).
Definition consume (n : nat) (r : reader) : reader := {| rbuf := rbuf r; rcurr := rcurr r + n; rbytes := rbytes r - n |}.

(** A command line with its line end, a part of a value, the value [v] given to a storage
    command, bytes thrown away on request of a command, and bytes thrown away for another
    reason. *)
Inductive event := Line (text eol : list Z) | Data (bs : list Z) | Complete (v : list Z) | Swallowed (bs : list Z) | Lost (bs : list Z).
Definition event_bytes (e : event) : list Z :=
  match e with Line text eol => text ++ eol | Complete _ => [] | Data bs | Swallowed bs | Lost bs => bs end.

Record session := {
  rd : reader;
  sg : getter;
  ss : server;
  kn : kernel;
  ncmd : nat;
  log : list event
}.
Definition with_rd (v : reader) (s : session) : session :=
  {| rd := v; sg := sg s; ss := ss s; kn := kn s; ncmd := ncmd s; log := log s |}.
Definition with_sg (v : getter) (s : session) : session :=
  {| rd := rd s; sg := v; ss := ss s; kn := kn s; ncmd := ncmd s; log := log s |}.
Definition with_ss (v : server) (s : session) : session :=
  {| rd := rd s; sg := sg s; ss := v; kn := kn s; ncmd := ncmd s; log := log s |}.
Definition with_kn (v : kernel) (s : session) : session :=
  {| rd := rd s; sg := sg s; ss := ss s; kn := v; ncmd := ncmd s; log := log s |}.
Definition with_net (v : list segment) (s : session) : session :=
  with_kn {| net := v; sends := sends (kn s); updates := updates (kn s) |} s.
Definition note (e : event) (s : session) : session :=
  {| rd := rd s; sg := sg s; ss := ss s; kn := kn s; ncmd := ncmd s; log := log s ++ [e] |}.
Definition next_cmd (s : session) : session :=
  {| rd := rd s; sg := sg s; ss := ss s; kn := kn s; ncmd := S (ncmd s); log := log s |}.

Definition with_client (f : client -> client) (s : session) : session := with_sg (with_gc (f (gc (sg s))) (sg s)) s.
Definition cstate (s : session) : conn_states := state (gc (sg s)).
Definition conn_set_state (st : conn_states) (s : session) : session := with_client (with_state st) s.
Definition with_go (v : conn_states) (c : client) : client :=
  {| cn := cn c; noreply := noreply c; state := state c; write_and_go := v; wbuf := wbuf c; wsize := wsize c;
     c_item := c_item c; rlbytes := rlbytes c; c_cmd := c_cmd c; sbytes := sbytes c |}.
Definition with_rlbytes (v : Z) (c : client) : client := with_item (c_item c) v (c_cmd c) c.
Definition with_sbytes (v : Z) (c : client) : client :=
  {| cn := cn c; noreply := noreply c; state := state c; write_and_go := write_and_go c; wbuf := wbuf c; wsize := wsize c;
     c_item := c_item c; rlbytes := rlbytes c; c_cmd := c_cmd c; sbytes := v |}.
(** [c->thread->stats.st += n] *)
Definition count_n (st : tstat) (n : nat) (c : client) : client :=
  with_cn {| c_cas := c_cas (cn c); set_stale := set_stale (cn c);
             tstats := fun t => if decide (t = st) then u64 (tstats (cn c) t + Z.of_nat n) else tstats (cn c) t |} c.
(** Bytes arrived. *)
Definition received (bs : list Z) (k : list segment) (s : session) : session :=
  with_client (count_n bytes_read (length bs)) (with_net k s).

(** The result of [update_event]. *)
Definition update_event (s : session) : bool * session :=
  match updates (kn s) with
  | [] => (true, s)
  | b :: u => (b, with_kn {| net := net (kn s); sends := sends (kn s); updates := u |} s)
  end.

(** What a command meets. *)
Record oracle := { o_alloc : alloc_env; o_room : nat -> option nat; o_no_suffix : nat -> bool }.

Create HintDb conn.

Section machine.
Context (set : item_settings) (hash : list Z -> Z) (nchunks : nat).
Context (copy_chunks : nread -> Z -> Z -> Z -> server -> option server).
Context (add_chunked : Z -> output -> option (bool * output)).
Context (process_started : Z) (version : list Z).
Context (oom : nat -> bool) (orc : nat -> oracle).
Context (other : handler -> list Z -> list token -> getter -> server -> option (getter * server)).

(** ** Commands *)

(** A handler of McProto; when it leaves a reply, [out_string] has reset the messages. *)
Definition on_client (h : client -> server -> option (client * server)) (g : getter) (s : server) : option (getter * server) :=
  '(c, s) ← h (gc g) s;
  if bool_decide (state c = conn_write) then '(_, o) ← reset_output oom (out g); Some (with_out o (with_gc c g), s)
  else Some (with_gc c g, s).
Definition reply_with (str : list Z) (g : getter) (s : server) : option (getter * server) := g ← out_string_conn oom str g; Some (g, s).
Definition closing (g : getter) : getter := with_gc (with_state conn_closing (gc g)) g.

Definition run_handler (n : nat) (h : handler) (buf : list Z) (tokens : list token) (g : getter) (s : server) : option (getter * server) :=
  let a := o_alloc (orc n) in
  match h with
  | H_get return_cas should_touch =>
      process_get_command set hash nchunks add_chunked process_started oom (o_no_suffix (orc n)) (o_room (orc n)) buf tokens return_cas should_touch g s
  | H_update comm handle_cas => on_client (process_update_command set hash nchunks process_started a buf tokens comm handle_cas) g s
  | H_arithmetic incr => on_client (process_arithmetic_command set hash nchunks a buf tokens incr) g s
  | H_delete => on_client (process_delete_command set hash nchunks buf tokens) g s
  | H_touch => on_client (process_touch_command set hash nchunks process_started (o_room (orc n) 0%nat) buf tokens) g s
  | H_mn => reply_with (bytes "EN") g s
  | H_version => reply_with (bytes "VERSION " ++ version) g s
  | H_quit | H_close => Some (closing g, s)
  | H_error => reply_with (bytes "ERROR") g s
  | _ => other h buf tokens g s
  end.
(** [line] is the text up to the line end, which the NUL has replaced. *)
Definition process_command (n : nat) (line : list Z) (g : getter) (s : server) : option (getter * server) :=
  '(ok, o) ← reset_output oom (out g);
  let g := with_out o g in
  if ok : bool then
    let '(buf, tokens) := tokenize_command (line ++ [0]) 0 MAX_TOKENS in
    run_handler n (command_of buf tokens) buf tokens g s
  else reply_with (bytes "SERVER_ERROR out of memory preparing response") g s.

(** The value of an ASCII storage command is complete. *)
Definition complete_nread (n : nat) (g : getter) (s : server) : option (getter * server) :=
  on_client (complete_nread_ascii set hash nchunks copy_chunks (o_alloc (orc n))) g s.

(** ** Reading *)

(** The position of the first byte [c]. *)
Fixpoint memchr (c : Z) (l : list Z) : option nat :=
  match l with
  | [] => None
  | b :: l => if b =? c then Some 0%nat else S <$> memchr c l
  end.
(** The number of leading spaces of a text that has something else behind them. *)
Fixpoint leading_spaces (l : list Z) : option nat :=
  match l with
  | [] => None
  | b :: l => if b =? 32 then S <$> leading_spaces l else Some 0%nat
  end.

(** The result is false when more data is needed. *)
Definition try_read_command_ascii (s : session) : option (bool * session) :=
  let p := pending (rd s) in
  if (rbytes (rd s) =? 0)%nat then Some (false, s)
  else
    match memchr 10 p with
    | None =>
        if (1024 <? rbytes (rd s))%nat then
          n ← leading_spaces p;
          if (100 <? n)%nat || negb (bool_decide (take 4 (drop n p) = bytes "get ") || bool_decide (take 5 (drop n p) = bytes "gets "))
          then Some (true, conn_set_state conn_closing s)
          else Some (false, s)
        else Some (false, s)
    | Some el =>
        let cont := S el in
        let el := if (1 <? el)%nat && (byte_at p (el - 1) =? 13) then (el - 1)%nat else el in
        let line := take el p in
        '(g, sv) ← process_command (ncmd s) line (sg s) (ss s);
        Some (true, next_cmd (note (Line line (slice el (cont - el) p)) (with_rd (consume cont (rd s)) (with_ss sv (with_sg g s)))))
    end.
Definition try_read_command (s : session) : option (bool * session) :=
  if is_udp (out (sg s)) && (byte_at (rbuf (rd s)) 0 =? PROTOCOL_BINARY_REQ) then None else try_read_command_ascii s.

Inductive try_read_result := READ_DATA_RECEIVED | READ_NO_DATA_RECEIVED | READ_ERROR | READ_MEMORY_ERROR.

Definition try_read_udp (s : session) : option (try_read_result * session) :=
  let r := rd s in
  match sock_recv (rsize r) (net (kn s)) with
  | (Got bs, k) =>
      if (8 <? length bs)%nat then
        let o := out (sg s) in
        let o := {| is_udp := is_udp o; request_id := byte_at bs 0 * 256 + byte_at bs 1; iov := iov o; iovused := iovused o; msglist := msglist o;
                    msgused := msgused o; msgcurr := msgcurr o; msgbytes := msgbytes o; hdrbuf := hdrbuf o; hdrsize := hdrsize o;
                    tries := tries o; malloc_fails := malloc_fails o |} in
        let s := with_client (count_n bytes_read (length bs)) (with_sg (with_out o (sg s)) (with_net k s)) in
        let s := with_rd {| rbuf := write 0 bs (rbuf r); rcurr := rcurr r; rbytes := rbytes r |} s in
        if negb (byte_at bs 4 =? 0) || negb (byte_at bs 5 =? 1) then
          g ← out_string_conn oom (bytes "SERVER_ERROR multi-packet request not supported") (sg s);
          Some (READ_NO_DATA_RECEIVED, with_sg g s)
        else
          let data := drop 8 bs in
          let s := note (Lost (pending r)) s in
          Some (READ_DATA_RECEIVED, with_rd {| rbuf := write 0 data (write 0 bs (rbuf r)); rcurr := 0; rbytes := length data |} s)
      else Some (READ_NO_DATA_RECEIVED, with_net k (with_rd {| rbuf := write 0 bs (rbuf r); rcurr := rcurr r; rbytes := rbytes r |} s))
  | (_, k) => Some (READ_NO_DATA_RECEIVED, with_net k s)
  end.

(** No memory for a larger buffer. *)
Definition read_memory_error (s : session) : option (try_read_result * session) :=
  let r := rd s in
  let s := note (Lost (pending r)) (with_rd {| rbuf := rbuf r; rcurr := rcurr r; rbytes := 0 |} s) in
  g ← out_string_conn oom (bytes "SERVER_ERROR out of memory reading request") (with_out (tried true (out (sg s))) (sg s));
  Some (READ_MEMORY_ERROR, with_client (with_go conn_closing) (with_sg g s)).
Definition grow_rbuf (s : session) : session :=
  let r := rd s in
  with_sg (with_out (tried false (out (sg s))) (sg s)) (with_rd {| rbuf := rbuf r ++ replicate (rsize r) 0; rcurr := 0; rbytes := rbytes r |} s).
(** The loop of [try_read_network]. *)
Fixpoint read_loop (fuel num_allocs : nat) (gotdata : try_read_result) (s : session) : option (try_read_result * session) :=
  match fuel with
  | O => None
  | S fuel =>
      let full := (rsize (rd s) <=? rbytes (rd s))%nat in
      if full && (num_allocs =? 4)%nat then Some (gotdata, s)
      else if full && oom (tries (out (sg s))) then read_memory_error s
      else
        let s := if full then grow_rbuf s else s in
        let num_allocs := if full then S num_allocs else num_allocs in
        let r := rd s in
        let avail := (rsize r - rbytes r)%nat in
        match sock_read avail (net (kn s)) with
        | (Got [], k) => Some (READ_ERROR, with_net k s)
        | (Got bs, k) =>
            let s := received bs k (with_rd {| rbuf := write (rbytes r) bs (rbuf r); rcurr := rcurr r; rbytes := rbytes r + length bs |} s) in
            if (length bs =? avail)%nat then read_loop fuel num_allocs READ_DATA_RECEIVED s else Some (READ_DATA_RECEIVED, s)
        | (WouldBlock, k) => Some (gotdata, with_net k s)
        | (ReadFailed, k) => Some (READ_ERROR, with_net k s)
        end
  end.
(** What is not parsed moves to the start of the buffer. *)
Definition compact (r : reader) : reader :=
  if (rcurr r =? 0)%nat then r else {| rbuf := write 0 (pending r) (rbuf r); rcurr := 0; rbytes := rbytes r |}.
Definition try_read_network (s : session) : option (try_read_result * session) :=
  read_loop 6 0 READ_NO_DATA_RECEIVED (with_rd (compact (rd s)) s).

(** ** Between commands *)

(** Arrays that have grown are cut. *)
Definition conn_shrink (s : session) : session :=
  if is_udp (out (sg s)) then s
  else
    let s :=
      if (READ_BUFFER_HIGHWAT <? rsize (rd s))%nat && (rbytes (rd s) <? DATA_BUFFER_SIZE)%nat then
        let r := compact (rd s) in
        let o := out (sg s) in
        if oom (tries o) then with_rd r (with_sg (with_out (tried false o) (sg s)) s)
        else with_rd {| rbuf := take DATA_BUFFER_SIZE (rbuf r); rcurr := 0; rbytes := rbytes r |} (with_sg (with_out (tried false o) (sg s)) s)
      else s in
    let g := sg s in
    let g :=
      if (ITEM_LIST_HIGHWAT <? isize g)%nat then
        with_items (ilist g) (if oom (tries (out g)) then isize g else ITEM_LIST_INITIAL) (with_out (tried false (out g)) g)
      else g in
    let o := out g in
    let o :=
      if (MSG_LIST_HIGHWAT <? length (msglist o))%nat then
        with_msgs (if oom (tries o) then msglist o else take MSG_LIST_INITIAL (msglist o)) (msgused o) (msgcurr o) (msgbytes o) (tried false o)
      else o in
    let o :=
      if (IOV_LIST_HIGHWAT <? length (iov o))%nat then
        with_iov (if oom (tries o) then iov o else take IOV_LIST_INITIAL (iov o)) (iovused o) (msglist o) (msgbytes o) (tried false o)
      else o in
    with_sg (with_out o g) s.
Definition reset_cmd_handler (s : session) : session :=
  let c := gc (sg s) in
  let s :=
    if c_item c =? 0 then s
    else with_client (fun c => with_item 0 (rlbytes c) (c_cmd c) c) (with_ss (do_item_remove nchunks (c_item c) (ss s)) s) in
  let s := conn_shrink s in
  conn_set_state (if (0 <? rbytes (rd s))%nat then conn_parse_cmd else conn_waiting) s.

(** ** The state machine *)

(** The event is awaited, or the connection is closed. *)
Definition await (s : session) : bool * session :=
  let '(ok, s) := update_event s in if ok : bool then (true, s) else (false, conn_set_state conn_closing s).

(** Bytes for the value: [c->ritem] is behind the bytes that are there. *)
Definition into_item (bs : list Z) (s : session) : session :=
  let c := gc (sg s) in
  let it := c_item c in
  let i := item_at (ss s) it in
  let off := Z.to_nat (nbytes i - rlbytes c) in
  note (Data bs) (with_client (with_rlbytes (rlbytes c - Z.of_nat (length bs))) (with_ss (upd_item (set_data (write off bs (idata i))) it (ss s)) s)).

(** The states [conn_nread] and [conn_swallow]; the result is [stop]. *)
Definition drive_nread (s : session) : option (bool * session) :=
  let c := gc (sg s) in
  if rlbytes c =? 0 then
    '(g, sv) ← complete_nread (ncmd s) (sg s) (ss s);
    Some (false, note (Complete (value (item_at (ss s) (c_item c)))) (with_ss sv (with_sg g s)))
  else if rlbytes c <? 0 then Some (false, conn_set_state conn_closing s)
  else if (c_item c =? 0) || has_flag ITEM_CHUNKED (item_at (ss s) (c_item c)) then None
  else
    let s :=
      if (0 <? rbytes (rd s))%nat then
        let tocopy := Nat.min (rbytes (rd s)) (Z.to_nat (rlbytes c)) in
        with_rd (consume tocopy (rd s)) (into_item (take tocopy (pending (rd s))) s)
      else s in
    let c := gc (sg s) in
    if rlbytes c =? 0 then Some (false, s)
    else
      match sock_read (Z.to_nat (rlbytes c)) (net (kn s)) with
      | (Got [], k) => Some (false, conn_set_state conn_closing (with_net k s))
      | (Got bs, k) => Some (false, into_item bs (received bs k s))
      | (WouldBlock, k) => Some (await (with_net k s))
      | (ReadFailed, k) => Some (false, conn_set_state conn_closing (with_net k s))
      end.
Definition drive_swallow (s : session) : bool * session :=
  let c := gc (sg s) in
  if sbytes c <=? 0 then (false, conn_set_state conn_new_cmd s)
  else if (0 <? rbytes (rd s))%nat then
    let tocopy := Nat.min (rbytes (rd s)) (Z.to_nat (sbytes c)) in
    (false, note (Swallowed (take tocopy (pending (rd s))))
              (with_rd (consume tocopy (rd s)) (with_client (with_sbytes (sbytes c - Z.of_nat tocopy)) s)))
  else
    match sock_read (Nat.min (rsize (rd s)) (Z.to_nat (sbytes c))) (net (kn s)) with
    | (Got [], k) => (false, conn_set_state conn_closing (with_net k s))
    | (Got bs, k) => (false, note (Swallowed bs) (with_client (with_sbytes (sbytes c - Z.of_nat (length bs))) (received bs k s)))
    | (WouldBlock, k) => await (with_net k s)
    | (ReadFailed, k) => (false, conn_set_state conn_closing (with_net k s))
    end.

(** [transmit] on the connection: the kernel's answer, and the state after an error. *)
Definition transmit_conn (s : session) : option (transmit_result * session) :=
  let o := out (sg s) in
  let '(a, rest) := match sends (kn s) with [] => (NoRoom, []) | a :: rest => (a, rest) end in
  let '(upd, s') := match a with NoRoom => update_event s | _ => (true, s) end in
  let send := match a with
              | Accept n => Sent (Z.min (Z.of_nat n) (vsize (offered o)))
              | NoRoom => Again upd
              | SendFails => Failed
              end in
  '(t, o') ← transmit send o;
  match t with
  | TRANSMIT_COMPLETE => Some (t, with_sg (with_out o' (sg s)) s)
  | _ =>
      let s := with_kn {| net := net (kn s'); sends := rest; updates := updates (kn s') |} (with_sg (with_out o' (sg s')) s') in
      Some (t, match t, a with
               | TRANSMIT_INCOMPLETE, Accept n => with_client (count_n bytes_written (Z.to_nat (Z.min (Z.of_nat n) (vsize (offered o))))) s
               | TRANSMIT_HARD_ERROR, SendFails => conn_set_state (if is_udp o then conn_read else conn_closing) s
               | TRANSMIT_HARD_ERROR, _ => conn_set_state conn_closing s
               | _, _ => s
               end)
  end.
(** The state [conn_mwrite], and [conn_write] behind its first part. *)
Definition drive_mwrite (s : session) : option (bool * session) :=
  let o := out (sg s) in
  '(ok, o) ← (if is_udp o && (msgcurr o =? 0)%nat then build_udp_headers oom o else Some (true, o));
  let s := with_sg (with_out o (sg s)) s in
  if negb ok then Some (false, conn_set_state conn_closing s)
  else
    '(t, s) ← transmit_conn s;
    match t with
    | TRANSMIT_COMPLETE =>
        if bool_decide (cstate s = conn_mwrite) then
          let '(g, sv) := conn_release_items nchunks (sg s) (ss s) in
          Some (false, conn_set_state conn_new_cmd (with_ss sv (with_sg g s)))
        else if bool_decide (cstate s = conn_write) then Some (false, conn_set_state (write_and_go (gc (sg s))) s)
        else Some (false, conn_set_state conn_closing s)
    | TRANSMIT_INCOMPLETE | TRANSMIT_HARD_ERROR => Some (false, s)
    | TRANSMIT_SOFT_ERROR => Some (true, s)
    end.
Definition drive_write (s : session) : option (bool * session) :=
  let o := out (sg s) in
  if (iovused o =? 0)%nat || (is_udp o && (iovused o =? 1)%nat) then
    let w := wbuf (gc (sg s)) in
    '(ok, o) ← add_iov oom (Literal w) (Z.of_nat (length w)) o;
    let s := with_sg (with_out o (sg s)) s in
    if ok : bool then drive_mwrite s else Some (false, conn_set_state conn_closing s)
  else drive_mwrite s.

Definition conn_close (s : session) : session :=
  let '(g, sv) := conn_release_items nchunks (sg s) (ss s) in
  conn_set_state (if is_udp (out g) then conn_read else conn_closed) (with_ss sv (with_sg g s)).

(** One turn of the loop of [drive_machine]: [stop], the requests left, the connection. *)
Definition drive1 (nreqs : Z) (s : session) : option (bool * Z * session) :=
  match cstate s with
  | conn_waiting =>
      let '(ok, s) := update_event s in
      Some (if ok : bool then (true, nreqs, conn_set_state conn_read s) else (false, nreqs, conn_set_state conn_closing s))
  | conn_read =>
      '(res, s) ← (if is_udp (out (sg s)) then try_read_udp s else try_read_network s);
      Some (false, nreqs,
        match res with
        | READ_NO_DATA_RECEIVED => conn_set_state conn_waiting s
        | READ_DATA_RECEIVED => conn_set_state conn_parse_cmd s
        | READ_ERROR => conn_set_state conn_closing s
        | READ_MEMORY_ERROR => s
        end)
  | conn_parse_cmd =>
      '(more, s) ← try_read_command s;
      Some (false, nreqs, if more : bool then s else conn_set_state conn_waiting s)
  | conn_new_cmd =>
      let nreqs := nreqs - 1 in
      if 0 <=? nreqs then Some (false, nreqs, reset_cmd_handler s)
      else
        let s := with_client (fun c => with_cn (count conn_yields (cn c)) c) s in
        let '(stop, s) := if (0 <? rbytes (rd s))%nat then await s else (true, s) in
        Some (stop, nreqs, s)
  | conn_nread => '(stop, s) ← drive_nread s; Some (stop, nreqs, s)
  | conn_swallow => let '(stop, s) := drive_swallow s in Some (stop, nreqs, s)
  | conn_write => '(stop, s) ← drive_write s; Some (stop, nreqs, s)
  | conn_mwrite => '(stop, s) ← drive_mwrite s; Some (stop, nreqs, s)
  | conn_closing => Some (true, nreqs, conn_close s)
  | conn_watch => Some (true, nreqs, s)
  | conn_listening | conn_closed | conn_max_state => None
  end.

(** The loop; [Running] is the lack of fuel. *)
Inductive outcome := Running | Outside | Stopped (s : session).
Fixpoint drive (fuel : nat) (nreqs : Z) (s : session) : outcome :=
  match fuel with
  | O => Running
  | S fuel =>
      match drive1 nreqs s with
      | None => Outside
      | Some (true, _, s) => Stopped s
      | Some (false, nreqs, s) => drive fuel nreqs s
      end
  end.
Definition drive_machine (reqs_per_event : Z) (fuel : nat) (s : session) : outcome := drive fuel reqs_per_event s.

(** ** What commands do to the state *)

(** The states behind a command, and those behind a written reply. *)
Definition settled (st : conn_states) : Prop :=
  st = conn_write \/ st = conn_mwrite \/ st = conn_new_cmd \/ st = conn_closing \/ st = conn_watch.
Definition go_ok (st : conn_states) : Prop := st = conn_new_cmd \/ st = conn_swallow \/ st = conn_closing.
Definition quiet (c c' : client) : Prop :=
  (state c' = state c \/ settled (state c')) /\ (write_and_go c' = write_and_go c \/ go_ok (write_and_go c')).
Lemma quiet_refl c : quiet c c.
Proof. split; by left. Qed.
Lemma quiet_trans c1 c2 c3 : quiet c1 c2 -> quiet c2 c3 -> quiet c1 c3.
Proof. intros [[E1|H1] [E2|H2]] [[E3|H3] [E4|H4]]; split; rewrite ?E3, ?E4; auto. Qed.
Lemma quiet_same c c' : state c' = state c -> write_and_go c' = write_and_go c -> quiet c c'.
Proof. intros H1 H2. split; by left. Qed.
Lemma quiet_out_string str c : quiet c (out_string str c).
Proof. unfold out_string, quiet. destruct (noreply c); cbn; unfold settled, go_ok; auto 10. Qed.
Lemma quiet_noreply buf tokens c : quiet c (set_noreply_maybe buf tokens c).
Proof. unfold set_noreply_maybe. destruct (tvalue _); [|apply quiet_refl]. destruct (streq _ _); [by apply quiet_same|apply quiet_refl]. Qed.
Lemma quiet_swallow n c : quiet c (with_swallow n c).
Proof. split; [by left|]. right. right. by left. Qed.
Lemma quiet_cn v c c' : quiet c c' -> quiet c (with_cn v c').
Proof. intros H. by apply (quiet_trans _ c'); [done|apply quiet_same]. Qed.
Lemma quiet_then c c' str : quiet c c' -> quiet c (out_string str c').
Proof. intros H. apply (quiet_trans _ c'); [done|apply quiet_out_string]. Qed.
Hint Resolve quiet_refl quiet_out_string quiet_noreply quiet_cn quiet_then : conn.

(** Case analysis on everything a handler looks at. *)
Ltac handler := repeat first
  [ progress cbn [mbind option_bind] in *
  | match goal with
    | H : Some _ = Some _ |- _ => injection H as <- <-
    | H : None = Some _ |- _ => discriminate H
    | H : context [match ?x with _ => _ end] |- _ => destruct x eqn:?
    | H : (?x ≫= _) = Some _ |- _ => destruct x as [[]|] eqn:?
    | |- context [match ?x with _ => _ end] => destruct x eqn:?
    end ].

Lemma quiet_touch room buf tokens c sv c' sv' : process_touch_command set hash nchunks process_started room buf tokens c sv = Some (c', sv') -> quiet c c'.
Proof. unfold process_touch_command. intros E. handler; eauto 6 with conn. Qed.
Lemma quiet_arithmetic a buf tokens incr c sv c' sv' : process_arithmetic_command set hash nchunks a buf tokens incr c sv = Some (c', sv') -> quiet c c'.
Proof. unfold process_arithmetic_command, out_of_memory. intros E. handler; eauto 6 with conn. Qed.
Lemma quiet_delete buf tokens c sv c' sv' : process_delete_command set hash nchunks buf tokens c sv = Some (c', sv') -> quiet c c'.
Proof. unfold process_delete_command. intros E. handler; eauto 8 with conn. Qed.
(** A storage command has an item that waits for its value, or is over. *)
Definition wants_value (c : client) (sv : server) : Prop := state c = conn_nread /\ c_item c <> 0 /\ rlbytes c = nbytes (item_at sv (c_item c)).
Lemma update_effect a buf tokens comm cas c sv c' sv' : process_update_command set hash nchunks process_started a buf tokens comm cas c sv = Some (c', sv') ->
  quiet c c' \/ (wants_value c' sv' /\ write_and_go c' = write_and_go c).
Proof.
  unfold process_update_command, update_failed, out_of_memory. intros E. pose proof (quiet_noreply buf tokens c) as Hn.
  assert (write_and_go (set_noreply_maybe buf tokens c) = write_and_go c) as Hgo by (unfold set_noreply_maybe; by repeat case_match).
  set (c0 := set_noreply_maybe buf tokens c) in *. clearbody c0.
  assert (forall str n, quiet c (with_swallow n (out_string str c0))) as Hsw.
  { intros str n. apply (quiet_trans _ (out_string str c0)); [by apply quiet_then|apply quiet_swallow]. }
  assert (forall str n v, quiet c (with_cn v (with_swallow n (out_string str c0)))) as Hsw' by (intros; by apply quiet_cn).
  handler; try (left; by eauto 6 with conn).
  all: right; split; [|exact Hgo]; split_and!; cbn; try done; by apply Z.eqb_neq.
Qed.
Lemma quiet_complete a c sv c' sv' : complete_nread_ascii set hash nchunks copy_chunks a c sv = Some (c', sv') ->
  settled (state c') /\ (write_and_go c' = write_and_go c \/ go_ok (write_and_go c')).
Proof.
  unfold complete_nread_ascii. intros E. handler; cbn; unfold out_string, settled, go_ok; repeat case_match; cbn; auto 8.
Qed.

(** The same of the get commands. *)
Lemma quiet_string_conn str g g' : out_string_conn oom str g = Some g' -> quiet (gc g) (gc g').
Proof.
  unfold out_string_conn. intros E. destruct (noreply _); [injection E as <-; apply quiet_out_string|].
  destruct (reset_output _ _) as [[ok o]|]; [|done]. injection E as <-. apply quiet_out_string.
Qed.
Lemma quiet_suffix no_suffix g ok g' : ascii_get_suffix_buf oom no_suffix g = Some (ok, g') -> quiet (gc g) (gc g').
Proof.
  unfold ascii_get_suffix_buf. intros E. destruct (_ <=? _)%nat; [destruct (oom _)|]; cbn [mbind option_bind] in E.
  1: injection E as <- <-; apply quiet_refl.
  all: destruct (no_suffix _); [|injection E as <- <-; apply quiet_refl].
  all: destruct (out_string_conn _ _ _) eqn:E1; [|done]; injection E as <- <-; by apply quiet_string_conn in E1.
Qed.
Lemma quiet_get_key room no_suffix k key e rc st g sv r g' sv' :
  get_key set hash nchunks add_chunked oom no_suffix room k key e rc st g sv = Some (r, g', sv') -> quiet (gc g) (gc g').
Proof.
  unfold get_key. intros E. destruct (limited_get _ _ _ _ _ _ _ _ _ _) as [[[it cc] sv1]|]; [|done]. cbn [mbind option_bind] in E.
  destruct (it =? 0); [injection E as <- <- <-; unfold miss; destruct st; by apply quiet_same|].
  destruct (ascii_get_expand_ilist _ _) as [ok g1] eqn:E1.
  assert (quiet (gc g) (gc g1)) as H1.
  { unfold ascii_get_expand_ilist in E1. destruct (_ <=? _)%nat; [destruct (oom _)|]; injection E1 as <- <-; by apply quiet_same. }
  destruct ok; cbn [negb] in E; [|injection E as <- <- <-; done].
  destruct (ascii_get_suffix_buf _ _ _) as [[ok g2]|] eqn:E2; [|done]. cbn [mbind option_bind] in E.
  assert (quiet (gc g) (gc g2)) as H2 by (eapply quiet_trans; [exact H1|by eapply quiet_suffix]).
  destruct ok; cbn [negb] in E; [|injection E as <- <- <-; done].
  assert (forall o l i, quiet (gc g) (gc (hit st it i (with_out o (with_suffixes l (suffixsize g2) g2))))) as Hh.
  { intros o l i. eapply quiet_trans; [exact H2|]. unfold hit. destruct st; by apply quiet_same. }
  destruct (make_ascii_get_suffix _ _ _ _) as [buf n]. destruct (add_all _ _ _) as [[ok o]|]; [|done]. cbn [mbind option_bind] in E.
  destruct ok; cbn [negb] in E; [|injection E as <- <- <-; done]. destruct (negb (has_flag _ _)).
  - destruct (add_iov _ _ _ _) as [[? o2]|]; [|done]. injection E as <- <- <-. apply Hh.
  - destruct (add_chunked _ _) as [[ok o2]|]; [|done]. cbn [mbind option_bind] in E. destruct ok; cbn [negb] in E; injection E as <- <- <-; [apply Hh|exact H2].
Qed.
Lemma quiet_get_tokens room no_suffix buf e rc st ts : forall k g sv r f v k' g' sv',
  get_tokens set hash nchunks add_chunked oom no_suffix room k buf ts e rc st g sv = Some (r, f, v, k', g', sv') -> quiet (gc g) (gc g').
Proof.
  induction ts as [|t ts IH]; intros k g sv r f v k' g' sv' E; cbn [get_tokens] in E; [done|].
  destruct (_ =? _)%nat; [injection E as <- <- <- <- <- <-; apply quiet_refl|]. destruct (_ <? _)%nat; [injection E as <- <- <- <- <- <-; apply quiet_refl|].
  destruct (get_key _ _ _ _ _ _ _ _ _ _ _ _ _ _) as [[[stop g1] sv1]|] eqn:E1; [|done]. cbn [mbind option_bind] in E. apply quiet_get_key in E1.
  destruct stop; [injection E as <- <- <- <- <- <-; done|]. eapply quiet_trans; [exact E1|by eapply IH].
Qed.
Lemma quiet_get_rounds room no_suffix e rc st fuel : forall k buf ts g sv f v g' sv',
  get_rounds set hash nchunks add_chunked oom no_suffix room fuel k buf ts e rc st g sv = Some (f, v, g', sv') -> quiet (gc g) (gc g').
Proof.
  induction fuel as [|fuel IH]; intros k buf ts g sv f v g' sv' E; cbn [get_rounds] in E; [done|].
  destruct (get_tokens _ _ _ _ _ _ _ _ _ _ _ _ _ _ _) as [[[[[[stop fl] v1] k1] g1] sv1]|] eqn:E1; [|done]. cbn [mbind option_bind] in E. apply quiet_get_tokens in E1.
  destruct stop; [injection E as <- <- <- <-; done|]. destruct v1; [|injection E as <- <- <- <-; done].
  destruct (tokenize_command _ _ _) as [buf1 ts1]. destruct (tvalue _); [|injection E as <- <- <- <-; done].
  eapply quiet_trans; [exact E1|by eapply IH].
Qed.
Lemma quiet_get room no_suffix buf ts rc st g sv g' sv' :
  process_get_command set hash nchunks add_chunked process_started oom no_suffix room buf ts rc st g sv = Some (g', sv') -> quiet (gc g) (gc g').
Proof.
  unfold process_get_command. destruct (if st then _ else _) as [ok x]. destruct ok; cbn [negb].
  - destruct (get_rounds _ _ _ _ _ _ _ _ _ _ _ _ _ _ _ _) as [[[[f v] g1] sv1]|] eqn:E1; [|done]. cbn [mbind option_bind]. apply quiet_get_rounds in E1.
    unfold get_end. intros E. eapply quiet_trans; [exact E1|].
    destruct (if v then _ else _) as [[ok o]|]; [|done]. cbn [mbind option_bind] in E. destruct ok.
    + injection E as <- <-. split; [right; right; by left|by left].
    + destruct (out_string_conn _ _ _) as [g2|] eqn:E2; [|done]. cbn [mbind option_bind] in E. injection E as E. apply quiet_string_conn in E2.
      eapply quiet_trans; [exact E2|]. unfold conn_release_items in E. destruct (_ =? 0); injection E as <- <-; by apply quiet_same.
  - intros E. destruct (out_string_conn _ _ _) as [g2|] eqn:E2; [|done]. injection E as <- <-. by apply quiet_string_conn in E2.
Qed.
(** ** The read buffer *)

Definition buf_ok (r : reader) : Prop := (rcurr r + rbytes r <= rsize r)%nat /\ (0 < rsize r)%nat.
Definition segment_bytes (k : segment) : list Z := match k with Bytes bs => bs | Block | Broken => [] end.
Definition net_bytes (k : list segment) : list Z := concat (map segment_bytes k).

Lemma sock_read_bytes avail k r k' : sock_read avail k = (r, k') ->
  match r with Got bs => net_bytes k = bs ++ net_bytes k' /\ (length bs <= avail)%nat | _ => net_bytes k' = net_bytes k end.
Proof.
  destruct k as [|[bs| |] k]; cbn [sock_read]; intros [= <- <-]; try done. split; [|rewrite length_take; lia].
  unfold net_bytes. cbn [map segment_bytes concat]. destruct (Nat.leb_spec (length bs) avail); [by rewrite take_ge by lia|]. cbn [map segment_bytes concat]. by rewrite app_assoc, take_drop.
Qed.
Lemma length_pending r : buf_ok r -> length (pending r) = rbytes r.
Proof. intros [H _]. unfold pending, slice, rsize in *. rewrite length_take, length_drop. lia. Qed.
Lemma pending_consume n r : pending (consume n r) = drop n (pending r).
Proof. unfold pending, consume, slice. cbn [rcurr rbytes rbuf]. by rewrite skipn_firstn_comm, drop_drop. Qed.
Lemma consume_ok n r : buf_ok r -> (n <= rbytes r)%nat -> buf_ok (consume n r).
Proof. intros [H1 H2] Hn. unfold consume, buf_ok, rsize in *. cbn. lia. Qed.
Lemma pending_compact r : buf_ok r -> pending (compact r) = pending r /\ buf_ok (compact r) /\ rcurr (compact r) = 0%nat /\ rbytes (compact r) = rbytes r /\ rsize (compact r) = rsize r.
Proof.
  intros Hb. pose proof (length_pending r Hb) as Hl. destruct Hb as [H1 H2]. unfold compact. destruct (Nat.eqb_spec (rcurr r) 0) as [E|E]; [done|].
  assert (length (write 0 (pending r) (rbuf r)) = rsize r) as Hw by (unfold rsize in *; rewrite length_write; lia).
  unfold buf_ok, rsize at 1 2 4. cbn [rcurr rbytes rbuf]. rewrite Hw. split_and!; try done; try lia.
  unfold pending at 1. cbn [rcurr rbytes rbuf]. rewrite <- Hl. apply slice_write_same. unfold rsize in *. lia.
Qed.
Lemma pending_grow r : rcurr r = 0%nat -> buf_ok r -> pending {| rbuf := rbuf r ++ replicate (rsize r) 0; rcurr := 0; rbytes := rbytes r |} = pending r.
Proof.
  intros H0 [H1 _]. unfold pending, slice, rsize in *. cbn [rcurr rbytes rbuf]. rewrite H0, !drop_0. apply take_app_le. lia.
Qed.
Lemma pending_append r bs : rcurr r = 0%nat -> buf_ok r -> (length bs <= rsize r - rbytes r)%nat ->
  let r' := {| rbuf := write (rbytes r) bs (rbuf r); rcurr := rcurr r; rbytes := rbytes r + length bs |} in
  pending r' = pending r ++ bs /\ buf_ok r' /\ rsize r' = rsize r.
Proof.
  intros H0 [H1 H2] Hl r'. unfold buf_ok, rsize, r' in *. cbn [rcurr rbytes rbuf].
  assert (length (write (rbytes r) bs (rbuf r)) = length (rbuf r)) as Hw by (apply length_write; lia). rewrite Hw. split_and!; try lia.
  unfold pending, slice, write. cbn [rcurr rbytes rbuf]. rewrite H0, !drop_0, app_assoc, take_app_le by (rewrite length_app, length_take; lia).
  apply take_ge. rewrite length_app, length_take. lia.
Qed.

(** What a handler may leave. *)
Definition cmd_effect (c c' : client) (sv' : server) : Prop :=
  quiet c c' \/ (wants_value c' sv' /\ (write_and_go c' = write_and_go c \/ go_ok (write_and_go c'))).
Context (Hother : forall h buf tokens g sv g' sv', other h buf tokens g sv = Some (g', sv') -> cmd_effect (gc g) (gc g') sv').

Lemma on_client_eq h g sv g' sv' : on_client h g sv = Some (g', sv') -> exists c', h (gc g) sv = Some (c', sv') /\ gc g' = c'.
Proof.
  unfold on_client. intros E. destruct (h _ _) as [[c' sv1]|]; [|done]. cbn [mbind option_bind] in E. exists c'.
  destruct (bool_decide _); [destruct (reset_output _ _) as [[? o]|]; [|done]|]; injection E as <- <-; done.
Qed.
Lemma run_handler_effect n h buf tokens g sv g' sv' : run_handler n h buf tokens g sv = Some (g', sv') -> cmd_effect (gc g) (gc g') sv'.
Proof.
  assert (forall str, reply_with str g sv = Some (g', sv') -> cmd_effect (gc g) (gc g') sv') as Hr.
  { intros str E. unfold reply_with in E. destruct (out_string_conn _ _ _) as [g1|] eqn:E1; [|done]. injection E as <- <-. left. by apply quiet_string_conn in E1. }
  assert (Some (closing g, sv) = Some (g', sv') -> cmd_effect (gc g) (gc g') sv') as Hc.
  { intros [= <- <-]. left. split; [|by left]. cbn. right. unfold settled. auto. }
  destruct h; cbn [run_handler]; intros E; try (by eapply Hother); try (by eapply Hr); try (by apply Hc).
  all: try (left; by eapply quiet_get).
  all: apply on_client_eq in E as (c' & E & ->).
  - apply update_effect in E as [?|[? ?]]; [by left|right]. split; [done|by left].
  - left. by apply quiet_arithmetic in E.
  - left. by apply quiet_delete in E.
  - left. by apply quiet_touch in E.
Qed.
Lemma process_command_effect n line g sv g' sv' : process_command n line g sv = Some (g', sv') -> cmd_effect (gc g) (gc g') sv'.
Proof.
  unfold process_command. intros E. destruct (reset_output _ _) as [[ok o]|]; [|done]. cbn [mbind option_bind] in E. destruct ok.
  - destruct (tokenize_command _ _ _) as [buf ts]. apply run_handler_effect in E. exact E.
  - unfold reply_with in E. destruct (out_string_conn _ _ _) as [g1|] eqn:E1; [|done]. injection E as <- <-. left. by apply quiet_string_conn in E1.
Qed.

(** ** What a connection does with its input *)

(** A command line starts a value, of which [ds] are the parts read so far. *)
Definition reading (l : list event) (ds : list (list Z)) : Prop := exists l0 text eol, l = l0 ++ Line text eol :: map Data ds.
(** An event behind the events [l]: lines are cut at their newline, with the return before
    it; parts of values come behind a line; the value a command gets is all of them; bytes
    are lost only for lack of memory. *)
Definition follows (l : list event) (e : event) : Prop :=
  match e with
  | Line text eol => 10 ∉ text /\ (eol = [10] \/ eol = [13; 10])
  | Data _ => exists ds, reading l ds
  | Complete v => exists ds, reading l ds /\ v = concat ds
  | Swallowed _ => True
  | Lost _ => exists n, oom n = true
  end.
Inductive framed : list event -> Prop :=
| framed_nil : framed []
| framed_snoc l e : framed l -> follows l e -> framed (l ++ [e]).

(** A value is being read: what is there of it is in the item. *)
Definition value_part (s : session) : Prop := exists ds,
  let c := gc (sg s) in let i := item_at (ss s) (c_item c) in
  reading (log s) ds /\ c_item c <> 0 /\ nbytes i = rlbytes c + Z.of_nat (length (concat ds)) /\
  take (length (concat ds)) (idata i) = concat ds.

Section stream.
(** All that arrives on the connection. *)
Context (T : list Z).

(** Every byte is in the log, still to be parsed, or still in the socket. *)
Definition accounted (s : session) : Prop := T = concat (map event_bytes (log s)) ++ pending (rd s) ++ net_bytes (net (kn s)).
Record conn_inv (s : session) : Prop := {
  ci_buf : buf_ok (rd s);
  ci_acc : accounted s;
  ci_framed : framed (log s);
  ci_go : go_ok (write_and_go (gc (sg s)));
  ci_value : cstate s = conn_nread -> value_part s
}.

Lemma memchr_Some c l n : memchr c l = Some n -> l = take n l ++ c :: drop (S n) l /\ c ∉ take n l /\ (n < length l)%nat.
Proof.
  revert n. induction l as [|b l IH]; intros n E; [done|]. cbn [memchr] in E. destruct (Z.eqb_spec b c) as [-> |Hb].
  - injection E as <-. cbn. split_and!; [done|apply not_elem_of_nil|lia].
  - destruct (memchr c l) as [m|] eqn:Em; [|done]. injection E as <-. destruct (IH m eq_refl) as (H1 & H2 & H3). cbn [take drop app length].
    split_and!; [by rewrite <- H1| |lia]. apply not_elem_of_cons. by split.
Qed.

Lemma item_written (i : item) D bs r : nbytes i = r + Z.of_nat (length D) -> take (length D) (idata i) = D -> 
  let i' := set_data (write (Z.to_nat (nbytes i - r)) bs (idata i)) i in
  nbytes i' = (r - Z.of_nat (length bs)) + Z.of_nat (length (D ++ bs)) /\ take (length (D ++ bs)) (idata i') = D ++ bs.
Proof.
  intros Hn Hd i'. assert (Z.to_nat (nbytes i - r) = length D) as E by lia. unfold i'. cbn [nbytes idata set_data]. rewrite E, length_app. split; [lia|].
  unfold write. rewrite Hd, app_assoc. rewrite take_app_le by (rewrite length_app; lia). apply take_ge. rewrite length_app. lia.
Qed.
Lemma reading_snoc l ds bs : reading l ds -> reading (l ++ [Data bs]) (ds ++ [bs]).
Proof. intros (l0 & t & e & ->). exists l0, t, e. rewrite map_app, <- app_assoc. done. Qed.

(** Bytes go into the item. *)
Lemma into_item_inv bs s s' : framed (log s) -> go_ok (write_and_go (gc (sg s))) -> value_part s -> 0 < rlbytes (gc (sg s)) ->
  sg s' = sg s -> ss s' = ss s -> log s' = log s ->
  framed (log (into_item bs s')) /\ value_part (into_item bs s') /\ write_and_go (gc (sg (into_item bs s'))) = write_and_go (gc (sg s)).
Proof.
  intros Hf Hgo (ds & Hr & Hit & Hn & Hd) Hrl E1 E2 E3.
  assert (exists i, mem (ss s) !! c_item (gc (sg s)) = Some i) as [i Hi].
  { unfold item_at, get in Hn. destruct (mem (ss s) !! _) as [i|]; [by exists i|]. cbn in Hn. lia. }
  split_and!; [|exists (ds ++ [bs])|].
  - unfold into_item. cbn [note log with_client with_sg with_ss]. rewrite E3. constructor; [done|]. by exists ds.
  - unfold into_item. cbn [note log with_client with_sg with_ss sg gc ss with_gc with_rlbytes with_item c_item rlbytes]. rewrite E1, E2, E3.
    rewrite (at_upd _ _ _ i Hi), concat_app. cbn [concat]. rewrite app_nil_r. split; [by apply reading_snoc|]. split; [done|].
    by apply item_written.
  - unfold into_item. cbn. by rewrite E1.
Qed.

(** The part of the invariant that does not depend on the state. *)
Record base_inv (s : session) : Prop := {
  bi_buf : buf_ok (rd s);
  bi_acc : accounted s;
  bi_framed : framed (log s);
  bi_go : go_ok (write_and_go (gc (sg s)))
}.
Lemma base_of s : conn_inv s -> base_inv s.
Proof. intros []; by split. Qed.
Lemma inv_of s : base_inv s -> cstate s <> conn_nread -> conn_inv s.
Proof. intros [] H. by split. Qed.
Lemma base_same s s' : rd s' = rd s -> log s' = log s -> net_bytes (net (kn s')) = net_bytes (net (kn s)) -> write_and_go (gc (sg s')) = write_and_go (gc (sg s)) -> base_inv s -> base_inv s'.
Proof. intros E1 E2 E3 E4 [H1 H2 H3 H4]. split; unfold accounted in *; congruence. Qed.

(** Bytes are appended to the buffer, or go straight into the log. *)
Lemma base_append s s' bs : base_inv s -> rd s' = rd s -> log s' = log s -> net_bytes (net (kn s')) = net_bytes (net (kn s)) -> write_and_go (gc (sg s')) = write_and_go (gc (sg s)) ->
  rcurr (rd s) = 0%nat -> (length bs <= rsize (rd s) - rbytes (rd s))%nat ->
  forall k, net_bytes (net (kn s)) = bs ++ net_bytes k -> let r := rd s' in
  base_inv (received bs k (with_rd {| rbuf := write (rbytes r) bs (rbuf r); rcurr := rcurr r; rbytes := rbytes r + length bs |} s')).
Proof.
  intros [H1 H2 H3 H4] E1 E2 E3 E4 H0 Hl k Hk r. unfold r. rewrite E1. destruct (pending_append (rd s) bs H0 H1 Hl) as (P1 & P2 & _).
  split; cbn [rd received with_client with_sg with_net with_kn with_rd log kn net sg gc with_gc write_and_go count_n with_cn]; try done; try congruence.
  unfold accounted in *. cbn [rd received with_client with_sg with_net with_kn with_rd log kn net]. rewrite P1, E2, H2, Hk. by rewrite <- !app_assoc.
Qed.
Lemma base_note e bs s s' : base_inv s -> rd s' = consume (length bs) (rd s) -> net_bytes (net (kn s')) = net_bytes (net (kn s)) -> log s' = log s ++ [e] -> event_bytes e = bs ->
  follows (log s) e -> (exists rest, pending (rd s) = bs ++ rest) -> go_ok (write_and_go (gc (sg s'))) -> base_inv s'.
Proof.
  intros [H1 H2 H3 H4] E1 E2 E3 E4 Hf [rest Hr] Hgo. pose proof (f_equal length Hr) as Hl. rewrite length_pending, length_app in Hl by done. split; try done.
  - rewrite E1. apply consume_ok; [done|lia].
  - unfold accounted in *. rewrite E1, E2, E3, H2, pending_consume, Hr, map_app, concat_app, drop_app_length. cbn [map concat]. rewrite E4, app_nil_r. by rewrite <- !app_assoc.
  - rewrite E3. by constructor.
Qed.

Lemma grow_base s : base_inv s -> rcurr (rd s) = 0%nat -> base_inv (grow_rbuf s) /\ rcurr (rd (grow_rbuf s)) = 0%nat.
Proof.
  intros [H1 H2 H3 H4] H0. split; [|done]. unfold grow_rbuf. split; cbn [rd with_sg with_rd log kn net sg gc with_out]; try done.
  - destruct H1 as [Ha Hb]. unfold buf_ok, rsize in *. cbn. rewrite length_app, length_replicate. lia.
  - unfold accounted in *. cbn [rd with_sg with_rd log kn net]. by rewrite pending_grow.
Qed.

Lemma read_loop_base fuel : forall n got s r s', base_inv s -> rcurr (rd s) = 0%nat -> read_loop fuel n got s = Some (r, s') ->
  base_inv s' /\ (r = READ_MEMORY_ERROR -> got <> READ_MEMORY_ERROR -> cstate s' <> conn_nread \/ cstate s' = cstate s).
Proof.
  induction fuel as [|fuel IH]; intros n got s r s' Hb H0 E; cbn [read_loop] in E; [done|].
  set (full := (rsize (rd s) <=? rbytes (rd s))%nat) in *. destruct (full && _); [injection E as <- <-; split; [done|intros -> ?; done]|].
  destruct (full && oom _) eqn:Eo.
  { unfold read_memory_error in E. destruct (out_string_conn _ _ _) as [g|] eqn:E1; [|done]. cbn [mbind option_bind] in E. injection E as <- <-.
    apply andb_prop in Eo as [_ Eo]. split.
    - destruct Hb as [[H1 H1'] H2 H3 H4]. split; cbn; try done; try (by right; right).
      + unfold buf_ok, rsize in *. cbn. lia.
      + unfold accounted in *. cbn. rewrite map_app, concat_app, H2. cbn [map concat event_bytes]. by rewrite app_nil_r, <- app_assoc.
      + constructor; [done|]. by eexists.
    - intros _ _. apply quiet_string_conn in E1 as [[E1|E1] _]; [by right|]. left. unfold cstate. cbn. unfold settled in E1. intros E2. rewrite E2 in E1. naive_solver. }
  set (s1 := if full then grow_rbuf s else s) in *. assert (base_inv s1 /\ rcurr (rd s1) = 0%nat /\ cstate s1 = cstate s) as (Hb1 & H01 & Hst).
  { unfold s1. destruct full; [|done]. destruct (grow_base s Hb H0). done. }
  destruct (sock_read _ _) as [rr k] eqn:Es. apply sock_read_bytes in Es. destruct rr as [[|b bs]| |].
  - injection E as <- <-. split; [destruct Es as [Es _]; by apply (base_same s1)|done].
  - destruct Es as [Es Hl]. pose proof (base_append s1 s1 (b :: bs) Hb1 eq_refl eq_refl eq_refl eq_refl H01 Hl k Es) as Hb2. cbn zeta in Hb2. destruct (_ =? _)%nat.
    + destruct (IH _ _ _ _ _ Hb2 H01 E) as [Hb3 Hs3]. split; [done|]. intros Hr _. destruct (Hs3 Hr ltac:(done)) as [?|Hs]; [by left|]. right. rewrite Hs. exact Hst.
    + injection E as <- <-. done.
  - injection E as <- <-. split; [by apply (base_same s1)|]. intros -> ?; done.
  - injection E as <- <-. split; [by apply (base_same s1)|]. done.
Qed.

Lemma shrink_base s : base_inv s -> base_inv (conn_shrink s) /\ cstate (conn_shrink s) = cstate s.
Proof.
  intros Hb. unfold conn_shrink. destruct (is_udp _); [done|].
  set (s1 := if _ && _ then _ else s).
  assert (base_inv s1 /\ cstate s1 = cstate s) as [Hb1 Hs1].
  { unfold s1. destruct (_ && _) eqn:Ec; [|done]. apply andb_prop in Ec as [Ec1 Ec2]. apply Nat.ltb_lt in Ec1, Ec2.
    destruct Hb as [H1 H2 H3 H4]. destruct (pending_compact (rd s) H1) as (P1 & P2 & P3 & P4 & P5).
    assert (buf_ok {| rbuf := take DATA_BUFFER_SIZE (rbuf (compact (rd s))); rcurr := 0; rbytes := rbytes (compact (rd s)) |}) as Hk.
    { unfold buf_ok, rsize in *. cbn [rcurr rbytes rbuf]. rewrite length_take, P4, P5. unfold DATA_BUFFER_SIZE, READ_BUFFER_HIGHWAT in *. lia. }
    destruct (oom _); (split; [|done]); split; cbn [rd with_rd log kn net sg with_sg gc with_out write_and_go]; try done; unfold accounted in *; cbn [rd with_rd log kn net with_sg].
    - by rewrite P1.
    - rewrite H2, <- P1. do 2 f_equal. unfold pending, slice. cbn [rcurr rbytes rbuf]. rewrite P3, !drop_0, take_take. f_equal.
      rewrite P4. unfold DATA_BUFFER_SIZE in *. lia. }
  clearbody s1. set (g1 := if (ITEM_LIST_HIGHWAT <? _)%nat then _ else _).
  assert (gc g1 = gc (sg s1)) as Hg1 by (unfold g1; by destruct (_ <? _)%nat).
  split; [apply (base_same s1); try done; cbn; by rewrite Hg1|]. unfold cstate in *. cbn. by rewrite Hg1.
Qed.
Lemma reset_inv s : base_inv s -> conn_inv (reset_cmd_handler s).
Proof.
  intros Hb. unfold reset_cmd_handler. set (s1 := if _ =? 0 then s else _). assert (base_inv s1) as Hb1 by (unfold s1; destruct (_ =? 0); [done|by apply (base_same s)]).
  destruct (shrink_base s1 Hb1) as [Hb2 _]. apply inv_of; [by apply (base_same (conn_shrink s1))|]. unfold cstate, conn_set_state, with_client. cbn [sg with_sg gc with_gc with_state state]. by case_match.
Qed.

(** A line is executed. *)
Lemma command_inv s more s' : conn_inv s -> cstate s = conn_parse_cmd -> try_read_command_ascii s = Some (more, s') -> conn_inv s'.
Proof.
  intros Hi Hst E. pose proof (base_of s Hi) as Hb. pose proof (length_pending _ (bi_buf _ Hb)) as Hlen. unfold try_read_command_ascii in E.
  destruct (_ =? 0)%nat; [injection E as <- <-; done|]. destruct (memchr 10 _) as [el|] eqn:Em.
  2:{ destruct (_ <? _)%nat; [|injection E as <- <-; done]. destruct (leading_spaces _); [|done]. cbn [mbind option_bind] in E. destruct (_ || _); injection E as <- <-; [|done].
      apply inv_of; [by apply (base_same s)|done]. }
  set (p := pending (rd s)) in *. set (el2 := if _ && _ then _ else el) in *. destruct (process_command _ _ _ _) as [[g sv]|] eqn:Ep; [|done].
  cbn [mbind option_bind] in E. injection E as <- <-. destruct (memchr_Some _ _ _ Em) as (Hp & Hnl & Hel).
  assert (take el2 p ++ slice el2 (S el - el2) p = take (S el) p /\ 10 ∉ take el2 p /\ (slice el2 (S el - el2) p = [10] \/ slice el2 (S el - el2) p = [13; 10])) as (Hcut & Hnl2 & Heol).
  { assert (take (S el) p = take el p ++ [10]) as Ht.
    { rewrite Hp at 1. rewrite take_app_ge by (rewrite length_take; lia). rewrite length_take. replace (S el - el `min` length p)%nat with 1%nat by lia. done. }
    assert (slice el 1 p = [10]) as Hs.
    { unfold slice. rewrite Hp at 1. rewrite drop_app_ge by (rewrite length_take; lia). rewrite length_take. by replace (el - el `min` length p)%nat with 0%nat by lia. }
    unfold el2. destruct (_ && _) eqn:Ec.
    - apply andb_prop in Ec as [Ec1 Ec2]. apply Nat.ltb_lt in Ec1. apply Z.eqb_eq in Ec2.
      assert (slice (el - 1) 2 p = [13; 10]) as Hs2.
      { unfold slice in *. rewrite (drop_S p 13 (el - 1)).
        - replace (S (el - 1)) with el by lia. change 2%nat with (S 1). cbn [take]. by rewrite Hs.
        - destruct (lookup_lt_is_Some_2 p (el - 1) ltac:(lia)) as [x Hx]. unfold byte_at in Ec2. rewrite nth_lookup, Hx in Ec2. cbn in Ec2. congruence. }
      replace (S el - (el - 1))%nat with 2%nat by lia. split_and!; [|intros (j & Hj & ?)%elem_of_take; apply Hnl, elem_of_take; exists j; split; [done|lia]|by right].
      unfold slice. rewrite take_take_drop. f_equal. lia.
    - replace (S el - el)%nat with 1%nat by lia. split_and!; [by rewrite Hs|done|by left]. }
  apply process_command_effect in Ep. set (text := take el2 p) in *. set (eol := slice el2 (S el - el2) p) in *. clearbody text eol.
  assert (base_inv (next_cmd (note (Line text eol) (with_rd (consume (S el) (rd s)) (with_ss sv (with_sg g s)))))) as Hb'.
  { apply (base_note (Line text eol) (take (S el) p) s); cbn [rd next_cmd note with_rd with_ss with_sg kn net log sg]; try done.
    - rewrite length_take. f_equal. lia.
    - exists (drop (S el) p). symmetry. apply take_drop.
    - pose proof (bi_go _ Hb) as Hgo. destruct Ep as [[_ [->| ?]]|[_ [->| ?]]]; done. }
  destruct Ep as [[Hq _]|[(Hw1 & Hw2 & Hw3) _]].
  - apply inv_of; [done|]. unfold cstate in *. cbn. rewrite Hst in Hq. intros Hn. rewrite Hn in Hq. unfold settled in Hq. naive_solver.
  - destruct Hb' as [B1 B2 B3 B4]. split; try done. intros _. exists []. cbn [sg next_cmd note with_rd with_ss with_sg ss log gc concat length take].
    split_and!; try done; [|lia]. exists (log s), text, eol. done.
Qed.

(** Bytes that go past the empty buffer. *)
Lemma base_direct e bs s s' : base_inv s -> rbytes (rd s) = 0%nat -> rd s' = rd s -> net_bytes (net (kn s)) = bs ++ net_bytes (net (kn s')) -> log s' = log s ++ [e] -> event_bytes e = bs ->
  follows (log s) e -> go_ok (write_and_go (gc (sg s'))) -> base_inv s'.
Proof.
  intros [H1 H2 H3 H4] H0 E1 E2 E3 E4 Hf Hgo. split; [by rewrite E1| |rewrite E3; by constructor|done]. unfold accounted in *. rewrite E1, E3, H2, E2.
  unfold pending, slice. rewrite H0, take_0, map_app, concat_app. cbn [map concat app]. by rewrite E4, app_nil_r, <- app_assoc.
Qed.

(** The value of a storage command. *)
Lemma update_same s b s' : update_event s = (b, s') -> rd s' = rd s /\ sg s' = sg s /\ ss s' = ss s /\ log s' = log s /\ net (kn s') = net (kn s) /\ sends (kn s') = sends (kn s).
Proof. unfold update_event. destruct (updates _); intros [= <- <-]; done. Qed.
Lemma await_inv s : conn_inv s -> conn_inv (await s).2.
Proof.
  intros Hi. unfold await. destruct (update_event s) as [b s1] eqn:E. apply update_same in E as (E1 & E2 & E3 & E4 & E5 & _).
  assert (base_inv s1) as Hb by (apply (base_same s); try done; [by rewrite E5|by rewrite E2|by apply base_of]). destruct b; cbn [snd].
  - destruct Hb. split; try done. intros Hn. unfold cstate, value_part in *. rewrite E2, E3, E4 in *. by apply Hi.
  - apply inv_of; [by apply (base_same s1)|done].
Qed.
Lemma part_value ds i r : nbytes i = r + Z.of_nat (length (concat ds)) -> take (length (concat ds)) (idata i) = concat ds -> r = 0 -> value i = concat ds.
Proof.
  intros Hn Hd ->. unfold value, data_bytes. rewrite Hn. replace (Z.to_nat _) with (length (concat ds)) by lia.
  rewrite take_app_le; [done|]. rewrite <- Hd at 1. rewrite length_take. lia.
Qed.
Lemma received_value bs k s : conn_inv s -> rbytes (rd s) = 0%nat -> 0 < rlbytes (gc (sg s)) -> cstate s = conn_nread ->
  net_bytes (net (kn s)) = bs ++ net_bytes k -> conn_inv (into_item bs (received bs k s)).
Proof.
  intros Hi H0 Hr Hst Hk. pose proof (base_of s Hi) as Hb. destruct (ci_value s Hi Hst) as (ds & Hrd & Hit & Hn & Hd).
  set (s0 := with_client (count_n bytes_read (length bs)) s). assert (value_part s0) as Hv by (by exists ds).
  destruct (into_item_inv bs s0 (received bs k s) (bi_framed _ Hb) (bi_go _ Hb) Hv Hr eq_refl eq_refl eq_refl) as (F1 & F2 & F3).
  assert (base_inv (into_item bs (received bs k s))) as Hb2.
  { apply (base_direct (Data bs) bs s); try done; [by exists ds|]. rewrite F3. apply Hb. }
  destruct Hb2. by split.
Qed.
Lemma nread_inv s stop s' : conn_inv s -> cstate s = conn_nread -> drive_nread s = Some (stop, s') -> conn_inv s'.
Proof.
  intros Hi Hst E. pose proof (base_of s Hi) as Hb. pose proof (ci_value s Hi Hst) as Hv. unfold drive_nread in E.
  destruct (Z.eqb_spec (rlbytes (gc (sg s))) 0) as [H0|H0].
  { destruct (complete_nread _ _ _) as [[g sv]|] eqn:Ec; [|done]. cbn [mbind option_bind] in E. injection E as <- <-.
    unfold complete_nread in Ec. apply on_client_eq in Ec as (c' & Ec & Eg). apply quiet_complete in Ec as [Hs Hgo]. destruct Hv as (ds & Hr & _ & Hn & Hd).
    pose proof (part_value ds _ _ Hn Hd H0) as Hval. apply inv_of.
    - destruct Hb as [B1 B2 B3 B4]. split; cbn [rd note with_ss with_sg log kn net sg]; try done.
      + unfold accounted in *. cbn [rd note with_ss with_sg log kn net]. rewrite map_app, concat_app. cbn [map event_bytes concat]. by rewrite !app_nil_r.
      + constructor; [done|]. exists ds. by split.
      + rewrite Eg. by destruct Hgo as [->|?].
    - unfold cstate. cbn. rewrite Eg. intros Hn'. rewrite Hn' in Hs. unfold settled in Hs. naive_solver. }
  destruct (_ <? 0) eqn:Hneg; [injection E as <- <-; apply inv_of; [by apply (base_same s)|done]|]. apply Z.ltb_ge in Hneg.
  destruct (_ || _); [done|].
  set (s1 := if (0 <? _)%nat then _ else s) in *.
  assert (conn_inv s1 /\ cstate s1 = conn_nread /\ 0 <= rlbytes (gc (sg s1)) /\ (rlbytes (gc (sg s1)) <> 0 -> rbytes (rd s1) = 0%nat)) as (Hi1 & Hst1 & Hpos & Hempty).
  { unfold s1. destruct (Nat.ltb_spec 0 (rbytes (rd s))); [|split_and!; try done; lia]. set (n := Nat.min _ _). pose proof (length_pending _ (bi_buf _ Hb)) as Hlen.
    assert (length (take n (pending (rd s))) = n) as Hn by (rewrite length_take; lia).
    destruct (into_item_inv (take n (pending (rd s))) s s (bi_framed _ Hb) (bi_go _ Hb) Hv ltac:(lia) eq_refl eq_refl eq_refl) as (F1 & F2 & F3).
    assert (rlbytes (gc (sg (into_item (take n (pending (rd s))) s))) = rlbytes (gc (sg s)) - Z.of_nat n) as Hrl by (cbn; lia).
    set (s2 := into_item _ s) in *. cut (conn_inv (with_rd (consume n (rd s)) s2)); [intros Hc; split_and!; try done; cbn [sg with_rd rd consume rbytes]; lia|].
    assert (base_inv (with_rd (consume n (rd s)) s2)) as Hb2.
    { apply (base_note (Data (take n (pending (rd s)))) (take n (pending (rd s))) s); try done; [by rewrite Hn| | |].
      - destruct Hv as (ds & Hr & _). by exists ds.
      - exists (drop n (pending (rd s))). symmetry. apply take_drop.
      - cbn [sg with_rd]. rewrite F3. apply Hb. }
    destruct Hb2. split; try done. }
  clearbody s1. pose proof (base_of s1 Hi1) as Hb1. pose proof (ci_value s1 Hi1 Hst1) as Hv1.
  destruct (Z.eqb_spec (rlbytes (gc (sg s1))) 0) as [H1|H1]; [injection E as <- <-; done|].
  destruct (sock_read _ _) as [rr k] eqn:Es. apply sock_read_bytes in Es. destruct rr as [[|b bs]| |].
  - injection E as <- <-. destruct Es as [Es _]. apply inv_of; [by apply (base_same s1)|done].
  - injection E as <- <-. destruct Es as [Es _]. apply received_value; [done|by apply Hempty|lia|done|done].
  - assert (conn_inv (with_net k s1)) as Hnet by (destruct (base_same s1 (with_net k s1) eq_refl eq_refl Es eq_refl Hb1); by split).
    pose proof (await_inv _ Hnet) as Ha. destruct (await _) as [st s2]. injection E as <- <-. exact Ha.
  - injection E as <- <-. apply inv_of; [by apply (base_same s1)|done].
Qed.

Lemma swallow_inv s : conn_inv s -> cstate s <> conn_nread -> conn_inv (drive_swallow s).2.
Proof.
  intros Hi Hst. pose proof (base_of s Hi) as Hb. unfold drive_swallow.
  destruct (_ <=? 0); [apply inv_of; [by apply (base_same s)|done]|]. destruct (Nat.ltb_spec 0 (rbytes (rd s))) as [Hr|Hr].
  - set (n := Nat.min _ _). pose proof (length_pending _ (bi_buf _ Hb)) as Hlen.
    assert (length (take n (pending (rd s))) = n) as Hn by (rewrite length_take; lia). cbn [snd]. apply inv_of; [|done].
    apply (base_note (Swallowed (take n (pending (rd s)))) (take n (pending (rd s))) s); try done; [by rewrite Hn| |apply Hb].
    exists (drop n (pending (rd s))). symmetry. apply take_drop.
  - destruct (sock_read _ _) as [rr k] eqn:Es. apply sock_read_bytes in Es. destruct rr as [[|b bs]| |]; cbn [snd].
    + destruct Es as [Es _]. apply inv_of; [by apply (base_same s)|done].
    + destruct Es as [Es _]. apply inv_of; [|done]. apply (base_direct (Swallowed (b :: bs)) (b :: bs) s); try done; [lia|apply Hb].
    + apply await_inv, inv_of; [by apply (base_same s)|done].
    + apply inv_of; [by apply (base_same s)|done].
Qed.

(** Writing touches neither the buffer nor the log. *)
Lemma transmit_conn_same s t s' : transmit_conn s = Some (t, s') ->
  rd s' = rd s /\ log s' = log s /\ ss s' = ss s /\ write_and_go (gc (sg s')) = write_and_go (gc (sg s)) /\ net (kn s') = net (kn s) /\
  match t with
  | TRANSMIT_COMPLETE => cstate s' = cstate s /\ kn s' = kn s
  | TRANSMIT_INCOMPLETE => cstate s' = cstate s /\ (length (sends (kn s')) < length (sends (kn s)))%nat
  | TRANSMIT_SOFT_ERROR => cstate s' = cstate s
  | TRANSMIT_HARD_ERROR => (length (sends (kn s')) <= length (sends (kn s)))%nat /\
      (cstate s' = conn_closing \/ cstate s' = conn_read /\ (length (sends (kn s')) < length (sends (kn s)))%nat)
  end.
Proof.
  unfold transmit_conn. set (a := match sends (kn s) with [] => NoRoom | a :: _ => a end).
  set (rest := match sends (kn s) with [] => [] | _ :: r => r end).
  replace (match sends (kn s) with [] => (NoRoom, []) | a :: rest => (a, rest) end) with (a, rest) by (unfold a, rest; by destruct (sends _)).
  assert (a <> NoRoom -> (length rest < length (sends (kn s)))%nat) as Hrest by (unfold a, rest; destruct (sends _); cbn; [done|lia]).
  assert (length rest <= length (sends (kn s)))%nat as Hle by (unfold rest; destruct (sends _); cbn; lia). clearbody a rest.
  destruct (match a with NoRoom => update_event s | _ => (true, s) end) as [upd s1] eqn:Eu.
  assert (rd s1 = rd s /\ sg s1 = sg s /\ ss s1 = ss s /\ log s1 = log s /\ net (kn s1) = net (kn s)) as (E1 & E2 & E3 & E4 & E6).
  { destruct a; [injection Eu as <- <-; done| |injection Eu as <- <-; done]. apply update_same in Eu as (? & ? & ? & ? & ? & _). done. }
  destruct (transmit _ _) as [[t1 o1]|] eqn:Et; [|done]. cbn [mbind option_bind]. unfold transmit in Et. destruct (next_msg _) as [o2|]; [|done]. cbn [mbind option_bind] in Et.
  destruct (_ <? _)%nat; [|injection Et as <- <-; intros [= <- <-]; done].
  destruct (msglist o2 !! _); [|done]. cbn [mbind option_bind] in Et. destruct a as [n| |]; cbn in Et.
  - destruct (take_sent _ _ _ _) as [[m' r']|]; [|done]. cbn [mbind option_bind] in Et. destruct (if _ <? _ then _ else _); [|done]. injection Et as <- <-.
    intros [= <- <-]. cbn. rewrite E1, E2, E3, E4, E6. split_and!; try done; try (unfold cstate; cbn; by rewrite E2). by apply Hrest.
  - injection Et as <- <-. destruct upd; intros [= <- <-]; cbn; rewrite ?E1, ?E2, ?E3, ?E4, ?E6; split_and!; try done; try (unfold cstate; cbn; by rewrite E2); by left.
  - injection Et as <- <-. intros [= <- <-]. cbn. rewrite E1, E2, E3, E4, E6. split_and!; try done. unfold cstate. cbn. destruct (is_udp _); [right; split; [done|by apply Hrest]|by left].
Qed.
Definition writing (s : session) : Prop := cstate s = conn_write \/ cstate s = conn_mwrite.
Lemma mwrite_base s stop s' : base_inv s -> writing s -> drive_mwrite s = Some (stop, s') -> conn_inv s'.
Proof.
  intros Hb Hw E. unfold drive_mwrite in E. destruct (if _ && _ then _ else _) as [[ok o]|]; [|done]. cbn [mbind option_bind] in E.
  set (s1 := with_sg (with_out o (sg s)) s) in *. assert (base_inv s1) as Hb1 by (by apply (base_same s)).
  destruct ok; cbn [negb] in E; [|injection E as <- <-; apply inv_of; [by apply (base_same s)|done]].
  destruct (transmit_conn s1) as [[t s2]|] eqn:Et; [|done]. cbn [mbind option_bind] in E. apply transmit_conn_same in Et as (E1 & E2 & E4 & E5 & E6 & E7).
  assert (base_inv s2) as Hb2 by (apply (base_same s1); try done; by rewrite E6). assert (cstate s1 <> conn_nread) as Hn by (destruct Hw as [Hw|Hw]; unfold cstate in *; cbn; by rewrite Hw).
  destruct t.
  - destruct (bool_decide _).
    + destruct (conn_release_items _ _ _) as [g sv] eqn:Er. injection E as <- <-. apply inv_of; [|done]. apply (base_same s2); try done. cbn.
      unfold conn_release_items in Er. destruct (_ =? 0); injection Er as <- <-; done.
    + destruct (bool_decide _); injection E as <- <-; (apply inv_of; [by apply (base_same s2)|]); [|done]. unfold cstate, conn_set_state. cbn.
      pose proof (bi_go _ Hb2) as Hgo. intros Hs. rewrite Hs in Hgo. unfold go_ok in Hgo. naive_solver.
  - injection E as <- <-. apply inv_of; [done|]. by rewrite (proj1 E7).
  - injection E as <- <-. apply inv_of; [done|]. by rewrite E7.
  - injection E as <- <-. apply inv_of; [done|]. destruct E7 as [_ [->|[-> _]]]; done.
Qed.

(** The other states. *)
Lemma yield_inv s : base_inv s -> cstate s = conn_new_cmd -> let s1 := with_client (fun c => with_cn (count conn_yields (cn c)) c) s in
  conn_inv (if (0 <? rbytes (rd s1))%nat then await s1 else (true, s1)).2.
Proof.
  intros Hb Hst s1. assert (conn_inv s1) as Hi1 by (apply inv_of; [by apply (base_same s)|unfold cstate in *; cbn; by rewrite Hst]).
  destruct (_ <? _)%nat; [by apply await_inv|done].
Qed.
Lemma waiting_inv s b s1 : base_inv s -> update_event s = (b, s1) -> conn_inv (conn_set_state (if b then conn_read else conn_closing) s1).
Proof.
  intros Hb Eu. apply update_same in Eu as (E1 & E2 & E3 & E4 & E5 & _). assert (base_inv s1) as Hb1 by (apply (base_same s); try done; [by rewrite E5|by rewrite E2]).
  apply inv_of; [by apply (base_same s1)|by destruct b].
Qed.
Lemma network_eq s : try_read_network s = read_loop 6 0 READ_NO_DATA_RECEIVED (with_rd (compact (rd s)) s).
Proof. reflexivity. Qed.
Lemma read_inv s r s1 : base_inv s -> cstate s = conn_read -> try_read_network s = Some (r, s1) ->
  conn_inv match r with
           | READ_NO_DATA_RECEIVED => conn_set_state conn_waiting s1
           | READ_DATA_RECEIVED => conn_set_state conn_parse_cmd s1
           | READ_ERROR => conn_set_state conn_closing s1
           | READ_MEMORY_ERROR => s1
           end.
Proof.
  intros Hb Hst Er. rewrite network_eq in Er. destruct (pending_compact (rd s) (bi_buf _ Hb)) as (P1 & P2 & P3 & _).
  set (s0 := with_rd (compact (rd s)) s) in *.
  assert (base_inv s0) as Hb0 by (destruct Hb as [B1 B2 B3 B4]; split; try done; unfold accounted in *; cbn [s0 rd with_rd log kn net]; by rewrite P1).
  destruct (read_loop_base 6 0 READ_NO_DATA_RECEIVED s0 r s1 Hb0 P3 Er) as [Hb1 Hs1].
  destruct r; (apply inv_of; [by apply (base_same s1)|]); try done. destruct (Hs1 eq_refl ltac:(done)) as [?|Hs]; [done|]. rewrite Hs. unfold cstate in *. cbn. by rewrite Hst.
Qed.
Lemma write_inv s stop s' : base_inv s -> cstate s = conn_write -> drive_write s = Some (stop, s') -> conn_inv s'.
Proof.
  intros Hb Hst E. unfold drive_write in E. destruct (_ || _); [|by apply (mwrite_base s stop); [|left|]].
  destruct (add_iov _ _ _ _) as [[ok o]|]; [|done]. cbn [mbind option_bind] in E. set (s1 := with_sg (with_out o (sg s)) s) in *. assert (base_inv s1) as Hb1 by (by apply (base_same s)).
  destruct ok; [by apply (mwrite_base s1 stop); [|left|]|]. injection E as <- <-. apply inv_of; [by apply (base_same s)|done].
Qed.
Lemma close_inv s : base_inv s -> conn_inv (conn_close s).
Proof.
  intros Hb. unfold conn_close. destruct (conn_release_items _ _ _) as [g sv] eqn:Er. apply inv_of.
  - apply (base_same s); try done. cbn. unfold conn_release_items in Er. destruct (_ =? 0); injection Er as <- <-; done.
  - unfold cstate, conn_set_state, with_client. cbn [sg with_sg gc with_gc with_state state]. by case_match.
Qed.
Lemma parse_inv s more s1 : conn_inv s -> cstate s = conn_parse_cmd -> try_read_command_ascii s = Some (more, s1) ->
  conn_inv (if more then s1 else conn_set_state conn_waiting s1).
Proof.
  intros Hi Hst Ec. pose proof (command_inv _ _ _ Hi Hst Ec) as Hi1. destruct more; [done|]. apply inv_of; [apply (base_same s1); try done; by apply base_of|done].
Qed.

(** Every turn of the loop of a TCP connection keeps the invariant. *)
Lemma drive1_inv n s stop n' s' : is_udp (out (sg s)) = false -> conn_inv s -> drive1 n s = Some (stop, n', s') -> conn_inv s'.
Proof.
  intros Hu Hi E. pose proof (base_of s Hi) as Hb. unfold drive1 in E. destruct (cstate s) eqn:Hst; try done.
  - destruct (0 <=? _); [injection E as _ _ <-; by apply reset_inv|]. pose proof (yield_inv s Hb Hst) as Hy. cbv zeta in Hy.
    destruct (if (0 <? _)%nat then _ else _) as [st s1]. injection E as _ _ <-. exact Hy.
  - destruct (update_event s) as [b s1] eqn:Eu. pose proof (waiting_inv s b s1 Hb Eu) as H. destruct b; injection E as _ _ <-; exact H.
  - rewrite Hu in E. destruct (try_read_network s) as [[r s1]|] eqn:Er; [|done]. injection E as _ _ <-. by apply (read_inv s).
  - unfold try_read_command in E. rewrite Hu in E. cbn [andb] in E. destruct (try_read_command_ascii s) as [[more s1]|] eqn:Ec; [|done].
    injection E as _ _ <-. by apply (parse_inv s).
  - destruct (drive_write s) as [[st s1]|] eqn:Ew; [|done]. injection E as _ _ <-. by apply (write_inv s st).
  - destruct (drive_nread s) as [[st s1]|] eqn:En; [|done]. injection E as _ _ <-. by apply (nread_inv s st).
  - pose proof (swallow_inv s Hi ltac:(by rewrite Hst)) as H. destruct (drive_swallow s) as [st s1]. injection E as _ _ <-. exact H.
  - injection E as _ _ <-. by apply close_inv.
  - destruct (drive_mwrite s) as [[st s1]|] eqn:Em; [|done]. injection E as _ _ <-. by apply (mwrite_base s st); [|right|].
  - injection E as _ _ <-. exact Hi.
Qed.
End stream.

(** ** The loop ends *)

(** What is left of the kernel's input. *)
Definition net_size (k : list segment) : nat := foldr (fun b n => S (length (segment_bytes b) + n)) 0%nat k.
Definition rank (st : conn_states) : nat :=
  match st with
  | conn_nread => 6 | conn_write | conn_mwrite => 5 | conn_swallow => 4 | conn_new_cmd => 3
  | conn_read | conn_parse_cmd => 2 | conn_waiting => 1
  | conn_closing | conn_watch | conn_listening | conn_closed | conn_max_state => 0
  end%nat.
Definition measure (n : Z) (s : session) : nat * nat * nat * nat * nat :=
  (Z.to_nat (n + 1), net_size (net (kn s)), rbytes (rd s), length (sends (kn s)), rank (cstate s)).
Definition smaller (x y : nat * nat * nat * nat * nat) : Prop :=
  let '(a, b, c, d, e) := x in let '(a', b', c', d', e') := y in
  (a < a' \/ a = a' /\ (b < b' \/ b = b' /\ (c < c' \/ c = c' /\ (d < d' \/ d = d' /\ e < e'))))%nat.
Lemma smaller_wf x : Acc smaller x.
Proof.
  destruct x as [[[[a b] c] d] e]. revert b c d e. induction a as [a IHa] using lt_wf_ind. intros b. induction b as [b IHb] using lt_wf_ind.
  intros c. induction c as [c IHc] using lt_wf_ind. intros d. induction d as [d IHd] using lt_wf_ind. intros e. induction e as [e IHe] using lt_wf_ind.
  constructor. intros [[[[a' b'] c'] d'] e'] [H|[-> [H|[-> [H|[-> [H|[-> H]]]]]]]]; auto.
Qed.

Lemma sock_read_size avail k r k' : sock_read avail k = (r, k') ->
  (net_size k' <= net_size k)%nat /\ forall b bs, r = Got (b :: bs) -> (net_size k' < net_size k)%nat.
Proof.
  assert (forall b k, net_size (b :: k) = S (length (segment_bytes b) + net_size k)) as Hc by done.
  destruct k as [|[l| |] k]; cbn [sock_read]; intros [= <- <-]; rewrite ?Hc; try (split; [lia|done]). cbn [segment_bytes].
  destruct (Nat.leb_spec (length l) avail); rewrite ?Hc; cbn [segment_bytes]; rewrite ?length_drop; (split; [lia|]); intros b bs E; [lia|].
  destruct avail; [discriminate E|]. lia.
Qed.
(** What the loop needs of the connection. *)
Definition sound (s : session) : Prop := go_ok (write_and_go (gc (sg s))) /\ (0 < rsize (rd s))%nat.
Lemma sound_same s s' : rsize (rd s') = rsize (rd s) -> write_and_go (gc (sg s')) = write_and_go (gc (sg s)) -> sound s -> sound s'.
Proof. intros E1 E2 [H1 H2]. split; [by rewrite E2|by rewrite E1]. Qed.
(** A turn that does not stop makes progress. *)
Definition progress (n : Z) (s : session) (stop : bool) (n' : Z) (s' : session) : Prop :=
  sound s' /\ (stop = false -> smaller (measure n' s') (measure n s)).

(** What reading leaves: if nothing came from the socket, the buffer has not grown. *)
Definition less_input (s s' : session) : Prop :=
  sound s' /\ (net_size (net (kn s')) <= net_size (net (kn s)))%nat /\
  (rbytes (rd s') <= rbytes (rd s) \/ net_size (net (kn s')) < net_size (net (kn s)))%nat /\ sends (kn s') = sends (kn s).
Lemma read_loop_progress fuel : forall n got s r s', sound s -> read_loop fuel n got s = Some (r, s') -> less_input s s' /\
  match r with
  | READ_DATA_RECEIVED => got = READ_DATA_RECEIVED \/ (net_size (net (kn s')) < net_size (net (kn s)))%nat
  | READ_MEMORY_ERROR => got = READ_MEMORY_ERROR \/ (rbytes (rd s') < rbytes (rd s) \/ net_size (net (kn s')) < net_size (net (kn s)))%nat
  | _ => True
  end.
Proof.
  induction fuel as [|fuel IH]; intros n got s r s' Hs E; cbn [read_loop] in E; [done|].
  set (full := (rsize (rd s) <=? rbytes (rd s))%nat) in *. destruct (full && _).
  { injection E as <- <-. split; [split_and!; try done; by left|destruct got; auto]. }
  destruct (full && oom _) eqn:Eo.
  { unfold read_memory_error in E. destruct (out_string_conn _ _ _) as [g|] eqn:E1; [|done]. cbn [mbind option_bind] in E. injection E as <- <-.
    apply andb_prop in Eo as [Eo _]. apply Nat.leb_le in Eo. destruct Hs as [Hg Hz].
    split; [split_and!; [split; [by right; right|exact Hz]|done|left; cbn; lia|done]|]. right. left. cbn. lia. }
  set (s1 := if full then grow_rbuf s else s) in *.
  assert (sound s1 /\ kn s1 = kn s /\ rbytes (rd s1) = rbytes (rd s)) as (Hs1 & Hn1 & Hr1).
  { unfold s1. destruct full; [|done]. split_and!; try done. split; [apply Hs|]. unfold rsize. cbn. rewrite length_app. destruct Hs as [_ Hz]. unfold rsize in Hz. lia. }
  clearbody s1. destruct (sock_read _ _) as [rr k] eqn:Es. apply sock_read_size in Es as [Es1 Es2]. rewrite Hn1 in *.
  assert (less_input s (with_net k s1)) as Hnet.
  { split_and!; [by apply (sound_same s1)|done|left; cbn [with_net with_kn rd]; lia|cbn; by rewrite Hn1]. }
  destruct rr as [[|b bs]| |].
  - injection E as <- <-. done.
  - specialize (Es2 b bs eq_refl). set (s2 := received _ _ _) in *.
    assert (sound s2 /\ net (kn s2) = k /\ sends (kn s2) = sends (kn s)) as (Hs2 & Hk2 & Hk3).
    { split_and!; [|done|cbn; by rewrite Hn1]. split; [apply Hs1|]. unfold rsize, s2. cbn [rd received with_client with_sg with_net with_kn with_rd rbuf]. unfold write. rewrite !length_app. cbn [length]. lia. }
    clearbody s2. destruct (_ =? _)%nat.
    + destruct (IH _ _ _ _ _ Hs2 E) as ((H1 & H2 & H3 & H4) & H5). rewrite Hk2 in *. split; [split_and!; [done|lia|right; lia|congruence]|]. destruct r; try done; right; [lia|].
      right. lia.
    + injection E as <- <-. rewrite <- Hk2 in *. split; [split_and!; [done|lia|right; lia|done]|right; lia].
  - injection E as <- <-. split; [done|destruct got; auto].
  - injection E as <- <-. done.
Qed.

Lemma sock_recv_size size k r k' : sock_recv size k = (r, k') -> (net_size k' <= net_size k)%nat /\ forall bs, r = Got bs -> (net_size k' < net_size k)%nat.
Proof.
  assert (forall b k, net_size (b :: k) = S (length (segment_bytes b) + net_size k)) as Hc by done.
  destruct k as [|[l| |] k]; cbn [sock_recv]; intros [= <- <-]; rewrite ?Hc; (split; [lia|]); intros bs E; (discriminate E || lia).
Qed.
Lemma length_write_pos off bs l : (0 < length l)%nat -> (0 < length (write off bs l))%nat.
Proof. intros H. unfold write. rewrite !length_app, length_take, length_drop. lia. Qed.
Lemma udp_progress s r s' : sound s -> try_read_udp s = Some (r, s') -> less_input s s' /\
  (r = READ_NO_DATA_RECEIVED \/ r = READ_DATA_RECEIVED /\ (net_size (net (kn s')) < net_size (net (kn s)))%nat).
Proof.
  intros [Hg Hz] E. unfold try_read_udp in E. destruct (sock_recv _ _) as [rr k] eqn:Es. apply sock_recv_size in Es as [Es1 Es2].
  unfold rsize in Hz. pose proof (fun bs => length_write_pos 0 bs (rbuf (rd s)) Hz) as Hw.
  destruct rr as [bs| |]; [|injection E as <- <-; split; [split_and!; [by split|exact Es1|by left|done]|by left]..]. specialize (Es2 bs eq_refl).
  destruct (8 <? _)%nat; [|injection E as <- <-; split; [split_and!; [split; [exact Hg|apply Hw]|exact Es1|by left|done]|by left]].
  destruct (_ || _).
  - destruct (out_string_conn _ _ _) as [g|] eqn:E1; [|done]. cbn [mbind option_bind] in E. injection E as <- <-. apply quiet_string_conn in E1 as [_ Hq].
    split; [split_and!; [|exact Es1|by left|done]|by left]. split; [|apply Hw]. cbn in Hq. destruct Hq as [Hq|Hq]; [|exact Hq]. cbn. rewrite Hq. exact Hg.
  - injection E as <- <-. split; [split_and!; [|exact Es1|right; exact Es2|done]|right; split; [done|exact Es2]]. split; [exact Hg|]. apply length_write_pos, Hw.
Qed.

Lemma smaller_rank n s s' : net (kn s') = net (kn s) -> rbytes (rd s') = rbytes (rd s) -> length (sends (kn s')) = length (sends (kn s)) ->
  (rank (cstate s') < rank (cstate s))%nat -> smaller (measure n s') (measure n s).
Proof. intros E1 E2 E3 Hr. unfold measure. rewrite E1, E2, E3. cbn. lia. Qed.
Lemma smaller_net n s s' : (net_size (net (kn s')) < net_size (net (kn s)))%nat -> smaller (measure n s') (measure n s).
Proof. intros H. unfold measure, smaller. lia. Qed.
Lemma smaller_rbytes n s s' : (net_size (net (kn s')) <= net_size (net (kn s)))%nat -> (rbytes (rd s') < rbytes (rd s))%nat -> smaller (measure n s') (measure n s).
Proof. intros H1 H2. unfold measure, smaller. lia. Qed.

Lemma await_progress n s s0 : sound s -> (net_size (net (kn s)) <= net_size (net (kn s0)))%nat -> (rbytes (rd s) <= rbytes (rd s0))%nat ->
  length (sends (kn s)) = length (sends (kn s0)) -> (0 < rank (cstate s0))%nat -> progress n s0 (await s).1 n (await s).2.
Proof.
  intros Hs H1 H2 H3 Hr. unfold await. destruct (update_event s) as [b s1] eqn:E. apply update_same in E as (E1 & E2 & E3 & E4 & E5 & E6).
  assert (sound s1) as Hs1 by (apply (sound_same s); [by rewrite E1|by rewrite E2|done]).
  destruct b; (split; [by apply (sound_same s1)|]); cbn [fst]; [done|]. intros _. unfold measure, smaller. cbn [snd].
  change (rank (cstate (conn_set_state conn_closing s1))) with 0%nat. change (kn (conn_set_state conn_closing s1)) with (kn s1). change (rd (conn_set_state conn_closing s1)) with (rd s1).
  rewrite E1, E5, E6. lia.
Qed.
Lemma shrink_same s : rbytes (rd (conn_shrink s)) = rbytes (rd s) /\ (0 < rsize (rd s) -> 0 < rsize (rd (conn_shrink s)))%nat /\
  gc (sg (conn_shrink s)) = gc (sg s) /\ kn (conn_shrink s) = kn s.
Proof.
  unfold conn_shrink. destruct (is_udp _); [done|].
  set (s1 := if _ && _ then _ else s).
  assert (rbytes (rd s1) = rbytes (rd s) /\ (0 < rsize (rd s) -> 0 < rsize (rd s1))%nat /\ gc (sg s1) = gc (sg s) /\ kn s1 = kn s) as (H1 & H2 & H3 & H4).
  { unfold s1. destruct (_ && _); [|done].
    assert (rbytes (compact (rd s)) = rbytes (rd s) /\ (0 < rsize (rd s) -> 0 < rsize (compact (rd s)))%nat) as [C1 C2].
    { unfold compact. destruct (_ =? _)%nat; [done|]. split; [done|]. unfold rsize. cbn [rbuf]. apply length_write_pos. }
    destruct (oom _); split_and!; try done. unfold rsize in *. cbn [rd with_rd rbuf]. rewrite length_take. unfold DATA_BUFFER_SIZE. intros H. specialize (C2 H). lia. }
  clearbody s1. split_and!; try done. cbn [sg with_sg]. rewrite <- H3. set (g1 := if (ITEM_LIST_HIGHWAT <? _)%nat then _ else _). assert (gc g1 = gc (sg s1)) as <- by (unfold g1; by destruct (ITEM_LIST_HIGHWAT <? _)%nat). done.
Qed.
Lemma drive_new_progress n s stop n' s' : sound s -> cstate s = conn_new_cmd -> drive1 n s = Some (stop, n', s') -> progress n s stop n' s'.
Proof.
  intros Hs Hst E. unfold drive1 in E. rewrite Hst in E. destruct (Z.leb_spec 0 (n - 1)) as [Hn|Hn].
  - injection E as <- <- <-. split; [|intros _; unfold measure, smaller; lia]. unfold reset_cmd_handler. set (s1 := if _ =? 0 then s else _).
    assert (sound s1) as [Hg Hz] by (unfold s1; destruct (_ =? 0); [done|by apply (sound_same s)]). destruct (shrink_same s1) as (_ & H2 & H3 & _).
    split; cbn [conn_set_state with_client with_sg sg gc with_gc with_state write_and_go rd]; [by rewrite H3|by apply H2].
  - set (s1 := with_client _ s) in *. assert (sound s1) as Hs1 by (by apply (sound_same s)).
    destruct (_ <? _)%nat; [|injection E as <- <- <-; split; [done|by intros]].
    pose proof (await_progress (n - 1) s1 s Hs1 ltac:(done) ltac:(done) eq_refl ltac:(rewrite Hst; cbn; lia)) as [Hp1 Hp2].
    destruct (await s1) as [st s2]. injection E as <- <- <-. split; [done|]. intros Hf. specialize (Hp2 Hf). cbn [snd] in Hp2. unfold measure, smaller in *. lia.
Qed.

Lemma command_progress n s more s' : sound s -> cstate s = conn_parse_cmd -> try_read_command s = Some (more, s') ->
  progress n s false n (if more then s' else conn_set_state conn_waiting s').
Proof.
  intros [Hg Hz] Hst E. unfold try_read_command in E. destruct (_ && _); [done|]. unfold try_read_command_ascii in E.
  assert (progress n s false n (conn_set_state conn_waiting s)) as Hwait by (split; [by split|intros _; apply smaller_rank; try done; rewrite Hst; cbn; lia]).
  assert (progress n s false n (conn_set_state conn_closing s)) as Hclose by (split; [by split|intros _; apply smaller_rank; try done; rewrite Hst; cbn; lia]).
  destruct (_ =? 0)%nat; [injection E as <- <-; done|]. destruct (memchr 10 _) as [el|] eqn:Em.
  2:{ destruct (_ <? _)%nat; [|injection E as <- <-; done]. destruct (leading_spaces _); [|done]. cbn [mbind option_bind] in E. destruct (_ || _); injection E as <- <-; done. }
  destruct (process_command _ _ _ _) as [[g sv]|] eqn:Ep; [|done]. cbn [mbind option_bind] in E. injection E as <- <-.
  apply memchr_Some in Em as (_ & _ & Hel). unfold pending, slice in Hel. rewrite length_take in Hel. apply process_command_effect in Ep. split.
  - split; [|exact Hz]. cbn [next_cmd note with_rd with_ss with_sg sg]. destruct Ep as [[_ [->| ?]]|[_ [->| ?]]]; done.
  - intros _. apply smaller_rbytes; [done|]. cbn [next_cmd note with_rd with_ss with_sg rd consume rbytes]. lia.
Qed.

Lemma nread_progress n s stop s' : sound s -> cstate s = conn_nread -> drive_nread s = Some (stop, s') -> progress n s stop n s'.
Proof.
  intros [Hg Hz] Hst E. unfold drive_nread in E.
  destruct (Z.eqb_spec (rlbytes (gc (sg s))) 0) as [H0|H0].
  { destruct (complete_nread _ _ _) as [[g sv]|] eqn:Ec; [|done]. cbn [mbind option_bind] in E. injection E as <- <-.
    unfold complete_nread in Ec. apply on_client_eq in Ec as (c' & Ec & Eg). apply quiet_complete in Ec as [Hs Hgo]. split.
    - split; [|exact Hz]. cbn [note with_ss with_sg sg]. rewrite Eg. by destruct Hgo as [->|?].
    - intros _. apply smaller_rank; try done. rewrite Hst. unfold cstate. cbn [note with_ss with_sg sg]. rewrite Eg. unfold settled in Hs. destruct Hs as [->|[->|[->|[->| ->]]]]; cbn; lia. }
  destruct (_ <? 0) eqn:Hneg; [injection E as <- <-; split; [by split|intros _; apply smaller_rank; try done; rewrite Hst; cbn; lia]|]. apply Z.ltb_ge in Hneg.
  destruct (_ || _); [done|].
  set (s1 := if (0 <? _)%nat then _ else s) in *.
  assert (sound s1 /\ kn s1 = kn s /\ cstate s1 = conn_nread /\ (rbytes (rd s1) < rbytes (rd s) \/ s1 = s)%nat) as (Hs1 & Hk1 & Hst1 & Hr1).
  { unfold s1. destruct (Nat.ltb_spec 0 (rbytes (rd s))); [|split; [by split|]; split_and!; try done; by right]. split; [by split|]. split; [done|]. split; [exact Hst|]. left.
    cbn [rd with_rd consume rbytes]. lia. }
  clearbody s1. destruct (Z.eqb_spec (rlbytes (gc (sg s1))) 0) as [H1|H1].
  { injection E as <- <-. split; [done|]. intros _. destruct Hr1 as [Hr1| ->]; [|done]. apply smaller_rbytes; [by rewrite Hk1|done]. }
  assert (rbytes (rd s1) <= rbytes (rd s))%nat as Hr by (destruct Hr1 as [?| ->]; lia).
  destruct (sock_read _ _) as [rr k] eqn:Es. apply sock_read_size in Es as [Es1 Es2]. rewrite Hk1 in Es1, Es2.
  assert (forall s2, net (kn s2) = k -> rd s2 = rd s1 -> sends (kn s2) = sends (kn s1) -> cstate s2 = conn_closing -> smaller (measure n s2) (measure n s)) as Hcl.
  { intros s2 E1 E2 E3 E4. unfold measure, smaller. rewrite E1, E2, E3, E4, Hk1, Hst. cbn [rank]. lia. }
  destruct rr as [[|b bs]| |].
  - injection E as <- <-. split; [by apply (sound_same s1)|]. intros _. by apply Hcl.
  - injection E as <- <-. split; [by apply (sound_same s1)|]. intros _. apply smaller_net. by apply (Es2 b bs).
  - pose proof (await_progress n (with_net k s1) s ltac:(by apply (sound_same s1)) Es1 Hr ltac:(by cbn; rewrite Hk1) ltac:(rewrite Hst; cbn; lia)) as Ha.
    destruct (await _) as [st s2]. injection E as <- <-. exact Ha.
  - injection E as <- <-. split; [by apply (sound_same s1)|]. intros _. by apply Hcl.
Qed.
Lemma swallow_progress n s : sound s -> cstate s = conn_swallow -> progress n s (drive_swallow s).1 n (drive_swallow s).2.
Proof.
  intros [Hg Hz] Hst. unfold drive_swallow. destruct (Z.leb_spec (sbytes (gc (sg s))) 0).
  { split; [by split|]. intros _. apply smaller_rank; try done. rewrite Hst. cbn. lia. }
  destruct (Nat.ltb_spec 0 (rbytes (rd s))).
  { split; [by split|]. intros _. apply smaller_rbytes; [done|]. cbn [snd note with_rd rd consume rbytes]. lia. }
  destruct (sock_read _ _) as [rr k] eqn:Es. apply sock_read_size in Es as [Es1 Es2].
  assert (smaller (measure n (conn_set_state conn_closing (with_net k s))) (measure n s)) as Hcl.
  { unfold measure, smaller. rewrite Hst. change (net (kn (conn_set_state conn_closing (with_net k s)))) with k. cbn [rank].
    change (cstate (conn_set_state conn_closing (with_net k s))) with conn_closing. cbn [rank]. change (rd _) with (rd s). change (sends _) with (sends (kn s)). lia. }
  destruct rr as [[|b bs]| |].
  - by split.
  - split; [by split|]. intros _. apply smaller_net. by apply (Es2 b bs).
  - apply await_progress; try done. rewrite Hst. cbn. lia.
  - by split.
Qed.
Lemma mwrite_progress n s o stop s' : sound s -> writing s -> drive_mwrite (with_sg (with_out o (sg s)) s) = Some (stop, s') -> progress n s stop n s'.
Proof.
  intros [Hg Hz] Hw E. assert (rank (cstate s) = 5)%nat as Hrk by (by destruct Hw as [-> | ->]). unfold drive_mwrite in E.
  destruct (if _ && _ then _ else _) as [[ok o2]|]; [|done]. cbn [mbind option_bind] in E.
  set (s1 := with_sg _ _) in E. assert (sound s1 /\ kn s1 = kn s /\ rd s1 = rd s /\ cstate s1 = cstate s) as (Hs1 & E1 & E2 & E3) by (by split; [split|]).
  clearbody s1. destruct ok; cbn [negb] in E.
  2:{ injection E as <- <-. split; [by apply (sound_same s1)|]. intros _. apply smaller_rank; cbn [conn_set_state with_client with_sg kn rd]; try congruence. rewrite Hrk. cbn. lia. }
  destruct (transmit_conn s1) as [[t s2]|] eqn:Et; [|done]. cbn [mbind option_bind] in E. apply transmit_conn_same in Et as (F1 & F2 & F3 & F4 & F5 & F6).
  assert (sound s2) as Hs2 by (apply (sound_same s1); [by rewrite F1|done|done]).
  assert (forall st, (rank st < 5)%nat -> kn s2 = kn s1 -> forall s3, kn s3 = kn s2 -> rd s3 = rd s2 -> cstate s3 = st -> smaller (measure n s3) (measure n s)) as Hdone.
  { intros st Hr Hk s3 K1 K2 K3. apply smaller_rank; rewrite ?K1, ?K2, ?K3, ?Hk, ?F1, ?E1, ?E2; done || lia. }
  destruct t.
  - destruct F6 as [F6 F7]. destruct (bool_decide _).
    + destruct (conn_release_items _ _ _) as [g sv] eqn:Er. injection E as <- <-. split; [|intros _; apply (Hdone conn_new_cmd); try done; cbn; lia].
      apply (sound_same s2); try done. cbn. unfold conn_release_items in Er. destruct (_ =? 0); injection Er as <- <-; done.
    + destruct (bool_decide _); injection E as <- <-; (split; [by apply (sound_same s2)|]); intros _.
      * apply (Hdone (write_and_go (gc (sg s2)))); try done. destruct Hs2 as [[->|[->| ->]] _]; cbn; lia.
      * apply (Hdone conn_closing); try done. cbn. lia.
  - injection E as <- <-. split; [done|]. intros _. unfold measure, smaller. rewrite F1, F5, E1, E2, <- E1. destruct F6 as [_ F6]. lia.
  - injection E as <- <-. by split.
  - injection E as <- <-. split; [done|]. intros _. destruct F6 as [F6 F7]. unfold measure, smaller. rewrite F1, F5, E1, E2, <- E1, Hrk. destruct F7 as [->|[_ F7]]; cbn [rank]; lia.
Qed.

Lemma read_progress n s r s1 : sound s -> cstate s = conn_read ->
  (if is_udp (out (sg s)) then try_read_udp s else try_read_network s) = Some (r, s1) ->
  progress n s false n match r with
           | READ_NO_DATA_RECEIVED => conn_set_state conn_waiting s1
           | READ_DATA_RECEIVED => conn_set_state conn_parse_cmd s1
           | READ_ERROR => conn_set_state conn_closing s1
           | READ_MEMORY_ERROR => s1
           end.
Proof.
  intros Hs Hst E.
  assert (less_input s s1 /\
    match r with
    | READ_DATA_RECEIVED => (net_size (net (kn s1)) < net_size (net (kn s)))%nat
    | READ_MEMORY_ERROR => (rbytes (rd s1) < rbytes (rd s) \/ net_size (net (kn s1)) < net_size (net (kn s)))%nat
    | _ => True
    end) as ((Hs1 & Hn1 & Hb1 & Hk1) & Hr1).
  { destruct (is_udp _).
    - destruct (udp_progress s r s1 Hs E) as [H1 [->|[-> H2]]]; done.
    - rewrite network_eq in E. set (s0 := with_rd (compact (rd s)) s) in *.
      assert (rbytes (rd s0) = rbytes (rd s) /\ sound s0) as [E0 Hs0].
      { destruct Hs as [Hg Hz]. unfold s0. cbn [rd with_rd]. unfold compact. destruct (_ =? _)%nat; [by split; [|split]|]. split; [done|]. split; [done|]. apply length_write_pos, Hz. }
      destruct (read_loop_progress 6 0 READ_NO_DATA_RECEIVED s0 r s1 Hs0 E) as ((H1 & H2 & H3 & H4) & H5). rewrite E0 in *.
      split; [done|]. destruct r; try done; by destruct H5 as [?|?]. }
  pose proof (f_equal length Hk1) as Hl1.
  destruct r.
  - split; [by apply (sound_same s1)|]. intros _. by apply smaller_net.
  - split; [by apply (sound_same s1)|]. intros _. unfold measure, smaller. rewrite Hst. change (kn (conn_set_state conn_waiting s1)) with (kn s1).
    change (rd (conn_set_state conn_waiting s1)) with (rd s1). change (cstate (conn_set_state conn_waiting s1)) with conn_waiting. cbn [rank]. lia.
  - split; [by apply (sound_same s1)|]. intros _. unfold measure, smaller. rewrite Hst. change (kn (conn_set_state conn_closing s1)) with (kn s1).
    change (rd (conn_set_state conn_closing s1)) with (rd s1). change (cstate (conn_set_state conn_closing s1)) with conn_closing. cbn [rank]. lia.
  - split; [done|]. intros _. unfold measure, smaller. lia.
Qed.

Lemma drive1_progress n s stop n' s' : sound s -> drive1 n s = Some (stop, n', s') -> progress n s stop n' s'.
Proof.
  intros Hs E. destruct (cstate s) eqn:Hst; [unfold drive1 in E; rewrite Hst in E; done|by apply drive_new_progress| | | | | | | | | | |]; unfold drive1 in E; rewrite Hst in E; try done.
  - destruct (update_event s) as [b s1] eqn:Eu. apply update_same in Eu as (E1 & E2 & E3 & E4 & E5 & E6).
    assert (sound s1) as Hs1 by (apply (sound_same s); [by rewrite E1|by rewrite E2|done]).
    destruct b; injection E as <- <- <-; (split; [by apply (sound_same s1)|]); [done|]. intros _. apply smaller_rank; cbn [conn_set_state with_client with_sg kn rd]; [congruence..|]. rewrite Hst. cbn. lia.
  - destruct (if is_udp _ then _ else _) as [[r s1]|] eqn:Er; [|done]. injection E as <- <- <-. by apply read_progress.
  - destruct (try_read_command s) as [[more s1]|] eqn:Ec; [|done]. injection E as <- <- <-. by apply command_progress.
  - destruct (drive_write s) as [[st s1]|] eqn:Ew; [|done]. injection E as <- <- <-. unfold drive_write in Ew. destruct (_ || _).
    + destruct (add_iov _ _ _ _) as [[ok o]|]; [|done]. cbn [mbind option_bind] in Ew. destruct ok; [by apply (mwrite_progress n s o); [|left|]|].
      injection Ew as <- <-. split; [by apply (sound_same s)|]. intros _. apply smaller_rank; try done. rewrite Hst. cbn. lia.
    + apply (mwrite_progress n s (out (sg s))); [done|by left|]. destruct s as [r g sv k c l]. by destruct g.
  - destruct (drive_nread s) as [[st s1]|] eqn:En; [|done]. injection E as <- <- <-. by apply nread_progress.
  - pose proof (swallow_progress n s Hs Hst) as H. destruct (drive_swallow s) as [st s1]. injection E as <- <- <-. exact H.
  - injection E as <- <- <-. split; [|done]. unfold conn_close. destruct (conn_release_items _ _ _) as [g sv] eqn:Er. apply (sound_same s); try done.
    cbn. unfold conn_release_items in Er. destruct (_ =? 0); injection Er as <- <-; done.
  - destruct (drive_mwrite s) as [[st s1]|] eqn:Em; [|done]. injection E as <- <- <-. apply (mwrite_progress n s (out (sg s))); [done|by right|].
    destruct s as [r g sv k c l]. by destruct g.
  - injection E as <- <- <-. by split.
Qed.

(** ** Runs *)

(** A new connection. *)
Definition fresh (s : session) : Prop :=
  log s = [] /\ rcurr (rd s) = 0%nat /\ rbytes (rd s) = 0%nat /\ (0 < rsize (rd s))%nat /\ go_ok (write_and_go (gc (sg s))) /\ cstate s <> conn_nread.
(** The kernel has more for the connection. *)
Definition arrive (k : kernel) (s : session) : session :=
  with_kn {| net := net (kn s) ++ net k; sends := sends (kn s) ++ sends k; updates := updates (kn s) ++ updates k |} s.
(** What can happen to a TCP connection on which [T] arrives: turns of its loop, in any
    number of calls; more input; and what others do to the store, which leaves alone the
    data of the item the connection is filling. *)
Inductive conn_run (s0 : session) : list Z -> session -> Prop :=
| run_start : conn_run s0 (net_bytes (net (kn s0))) s0
| run_turn T n stop n' s s' : conn_run s0 T s -> is_udp (out (sg s)) = false -> drive1 n s = Some (stop, n', s') -> conn_run s0 T s'
| run_arrive T k s : conn_run s0 T s -> conn_run s0 (T ++ net_bytes (net k)) (arrive k s)
| run_others T sv s : conn_run s0 T s -> let it := c_item (gc (sg s)) in
    nbytes (item_at sv it) = nbytes (item_at (ss s) it) -> idata (item_at sv it) = idata (item_at (ss s) it) -> conn_run s0 T (with_ss sv s).

Lemma run_inv s0 T s : fresh s0 -> conn_run s0 T s -> conn_inv T s.
Proof.
  intros (F1 & F2 & F3 & F4 & F5 & F6) Hr. induction Hr as [|T n stop n' s s' _ IH Hu E|T k s _ IH|T sv s _ IH it E1 E2].
  - apply inv_of; [|done]. split; try done.
    + unfold buf_ok. lia.
    + unfold accounted, pending, slice. by rewrite F1, F3, take_0.
    + rewrite F1. constructor.
  - by apply (drive1_inv T n s stop n').
  - destruct IH as [H1 H2 H3 H4 H5]. split; try done. unfold accounted in *. cbn [arrive with_kn kn net log rd]. rewrite H2. unfold net_bytes.
    rewrite map_app, concat_app. by rewrite <- !app_assoc.
  - destruct IH as [H1 H2 H3 H4 H5]. split; try done. intros Hst. destruct (H5 Hst) as (ds & Hd). exists ds. cbn [with_ss ss sg log] in *. unfold it in *. by rewrite E1, E2.
Qed.

(** C21: a connection cuts its input into commands and values.  However the bytes of a TCP
    stream are spread over reads, whatever writes block or fail in between and whatever
    others do to the store, at every moment the bytes that arrived are exactly what the
    connection has used, then what is in its buffer, then what is in the socket.  What it has used are
    command lines, cut at their first newline with the return before it; parts of values,
    which come right behind the line of their command; and bytes the command asked to
    swallow.  When a storage command gets its value, the value is exactly the bytes
    behind its line.  Bytes are dropped only if the buffer cannot grow.  The cursors stay
    inside the buffer. *)
Theorem connection_frames_stream s0 T s : fresh s0 -> conn_run s0 T s ->
  T = concat (map event_bytes (log s)) ++ pending (rd s) ++ net_bytes (net (kn s)) /\ framed (log s) /\
  (rcurr (rd s) + rbytes (rd s) <= rsize (rd s))%nat.
Proof. intros Hf Hr. destruct (run_inv s0 T s Hf Hr) as [H1 H2 H3 _ _]. split_and!; try done. apply H1. Qed.


(** The reply to a request of several datagrams is not sent: the caller of [try_read_udp]
    takes the result for "no data" and waits, with the reply in its buffer. *)
Lemma multi_packet_reply_dropped n s bs k g : cstate s = conn_read -> is_udp (out (sg s)) = true -> net (kn s) = Bytes bs :: k ->
  (8 < length bs <= rsize (rd s))%nat -> byte_at bs 4 <> 0 \/ byte_at bs 5 <> 1 -> updates (kn s) = [] ->
  (forall g1, gc g1 = count_n bytes_read (length bs) (gc (sg s)) ->
     out_string_conn oom (bytes "SERVER_ERROR multi-packet request not supported") g1 = Some g) ->
  exists s1 s2, drive1 n s = Some (false, n, s1) /\ sg s1 = with_gc (with_state conn_waiting (gc g)) g /\
    drive1 n s1 = Some (true, n, s2) /\ cstate s2 = conn_read /\ sends (kn s2) = sends (kn s).
Proof.
  intros Hst Hu Hn Hl Hb Hup Hg. unfold drive1 at 1. rewrite Hst, Hu. unfold try_read_udp. rewrite Hn. cbn [sock_recv]. rewrite take_ge by lia.
  rewrite (proj2 (Nat.ltb_lt _ _)) by lia.
  assert (negb (byte_at bs 4 =? 0) || negb (byte_at bs 5 =? 1) = true) as -> by (destruct (Z.eqb_spec (byte_at bs 4) 0), (Z.eqb_spec (byte_at bs 5) 1); cbn; naive_solver).
  rewrite Hg by done. cbn [mbind option_bind]. eexists. eexists. split; [done|]. split; [done|]. split; [|split].
  - unfold drive1. cbn [cstate conn_set_state with_client with_sg sg gc with_gc with_state state]. unfold update_event. cbn. rewrite Hup. reflexivity.
  - done.
  - done.
Qed.
(** A buffer of more than 1024 spaces is scanned past what was received. *)
Lemma spaces_scanned_past_input s : (1024 < rbytes (rd s))%nat -> Forall (fun b => b = 32) (pending (rd s)) -> try_read_command_ascii s = None.
Proof.
  intros Hr HF. unfold try_read_command_ascii. rewrite (proj2 (Nat.eqb_neq _ _)) by lia.
  assert (memchr 10 (pending (rd s)) = None /\ leading_spaces (pending (rd s)) = None) as [-> ->].
  { induction HF as [|b l -> _ [IH1 IH2]]; [done|]. cbn. by rewrite IH1, IH2. }
  rewrite (proj2 (Nat.ltb_lt _ _)) by done. done.
Qed.

(** Some turns, with all requests left. *)
Fixpoint turns (reqs_per_event : Z) (k : nat) (s : session) : option session :=
  match k with
  | O => Some s
  | S k => if is_udp (out (sg s)) then None else '(_, _, s) ← drive1 reqs_per_event s; turns reqs_per_event k s
  end.
Lemma turns_run n k : forall s0 T s s', conn_run s0 T s -> turns n k s = Some s' -> conn_run s0 T s'.
Proof.
  induction k as [|k IH]; intros s0 T s s' Hr E; cbn [turns] in E; [by injection E as <-|]. destruct (is_udp _) eqn:Hu; [done|].
  destruct (drive1 _ s) as [[[st n'] s1]|] eqn:E1; [|done]. cbn [mbind option_bind] in E. apply (IH s0 T s1 s'); [|done]. by apply (run_turn s0 T n st n' s).
Qed.
End machine.

Module ConnExample.
Definition crlf : list Z := [13; 10].
Definition other (_ : handler) (_ : list Z) (_ : list token) (_ : getter) (_ : server) : option (getter * server) := None.
Definition orc (_ : nat) : oracle := {| o_alloc := StoreExample.env; o_room := fun _ => None; o_no_suffix := fun _ => false |}.
Abbreviation step_k := (turns HistoryExample.set Witness.sum_hash 0 StoreExample.no_chunks (fun _ o => Some (true, o)) 0 (bytes "1.5.19") (fun _ => false) orc other 20).
Definition session0 (k : list segment) (room : nat) : session :=
  {| rd := {| rbuf := replicate room 0; rcurr := 0; rbytes := 0 |};
     sg := GetExample.g0 (OutputExample.o0 false);
     ss := wstore HistoryExample.w4.2;
     kn := {| net := k; sends := repeat (Accept 10) 20; updates := [] |};
     ncmd := 0; log := [] |}.
(** A set and a get, in pieces that cut the lines and the value. *)
Definition pieces : list segment :=
  [Bytes (bytes "set A 5 0 3" ++ [13]); Bytes ([10] ++ bytes "a"); Bytes (bytes "bc" ++ crlf ++ bytes "ge"); Block; Bytes (bytes "t A" ++ crlf)].
Lemma other_ok h buf tokens g sv g' sv' : other h buf tokens g sv = Some (g', sv') -> cmd_effect (gc g) (gc g') sv'.
Proof. done. Qed.
(** A line of 1100 bytes is executed when it arrives at once, and closes the connection when
    its newline comes later. *)
Definition long_line : list Z := repeat 120 1100.
Lemma long_line_depends_on_arrival :
  option_map cstate (step_k 4 (session0 [Bytes (long_line ++ [10])] 2048)) = Some conn_write /\
  option_map cstate (step_k 4 (session0 [Bytes long_line; Bytes [10]] 2048)) = Some conn_closing.
Proof. vm_compute. done. Qed.
End ConnExample.

Lemma connection_frames_stream_witness : exists s,
  ConnExample.step_k 30 (ConnExample.session0 ConnExample.pieces 16) = Some s /\
  log s = [Line (bytes "set A 5 0 3") [13; 10]; Data (bytes "a"); Data (bytes "bc" ++ [13; 10]); Complete (bytes "abc" ++ [13; 10]); Line (bytes "get A") [13; 10]] /\
  net_bytes ConnExample.pieces = concat (map event_bytes (log s)) ++ pending (rd s) ++ net_bytes (net (kn s)).
Proof.
  assert (option_map log (ConnExample.step_k 30 (ConnExample.session0 ConnExample.pieces 16)) =
    Some [Line (bytes "set A 5 0 3") [13; 10]; Data (bytes "a"); Data (bytes "bc" ++ [13; 10]); Complete (bytes "abc" ++ [13; 10]); Line (bytes "get A") [13; 10]]) as Hlog
    by (vm_compute; reflexivity).
  destruct (ConnExample.step_k 30 _) as [s|] eqn:E; [|discriminate Hlog]. exists s. split; [reflexivity|]. split; [by injection Hlog|].
  apply (connection_frames_stream HistoryExample.set Witness.sum_hash 0 StoreExample.no_chunks (fun _ o => Some (true, o)) 0 (bytes "1.5.19") (fun _ => false)
    ConnExample.orc ConnExample.other ConnExample.other_ok (ConnExample.session0 ConnExample.pieces 16)).
  - split; [reflexivity|]. split; [reflexivity|]. split; [reflexivity|]. split; [apply Nat.ltb_lt; reflexivity|]. split; [by left|discriminate].
  - exact (turns_run _ _ _ _ _ _ _ _ _ _ _ 30 _ _ _ s (run_start _ _ _ _ _ _ _ _ _ _ _) E).
Defined.

