(* ===== verification/McBinary.v ===== *)
(** The binary protocol (src/memcached-sr/memcached.c, protocol_binary.h): the header of a
    request, [dispatch_bin_command], the reading of extras, key and value, and the handlers
    of get, touch, set, add, replace, append, prepend, delete, increment, decrement, flush
    and the commands without a body.

    A connection is what these functions use of [struct conn].  [b_cmd] is [c->cmd], which
    holds an opcode and later the code of a storage command.  Positions in the read buffer
    are relative to its start.  The header of a response is built in [c->wbuf] and sent
    from there; here the entry carries its bytes.  [stat] and [sasl] stand for the
    statistics commands and for SASL.  Detailed statistics are off, there is no external
    storage, and values have one chunk.  [None] is behaviour outside the model: a failed
    assertion, an access outside the arrays, a value of several chunks. *)
From S2P Require Import Prelude McItoa McUtil McItem McAssoc McLru McSlabs McItems McItemStore McPayload McItemOps McItemHistory.
From S2P Require Import McStore McToken McProto McOutput McGet McConn.

(** ** Numbers in network order *)

Definition be (bs : list Z) : Z := fold_left (fun v b => 256 * v + b) bs 0.
Fixpoint to_be (n : nat) (v : Z) : list Z :=
  match n with
  | O => []
  | S n => to_be n (v / 256) ++ [v mod 256]
  end.

(** ** The protocol *)

Definition PROTOCOL_BINARY_RES : Z := 129.
Definition HEADER_SIZE : nat := 24.

Module Op.
Definition GET : Z := 0.
Definition SET : Z := 1.
Definition ADD : Z := 2.
Definition REPLACE : Z := 3.
Definition DELETE : Z := 4.
Definition INCREMENT : Z := 5.
Definition DECREMENT : Z := 6.
Definition QUIT : Z := 7.
Definition FLUSH : Z := 8.
Definition GETQ : Z := 9.
Definition NOOP : Z := 10.
Definition VERSION : Z := 11.
Definition GETK : Z := 12.
Definition GETKQ : Z := 13.
Definition APPEND : Z := 14.
Definition PREPEND : Z := 15.
Definition STAT : Z := 16.
Definition SETQ : Z := 17.
Definition ADDQ : Z := 18.
Definition REPLACEQ : Z := 19.
Definition DELETEQ : Z := 20.
Definition INCREMENTQ : Z := 21.
Definition DECREMENTQ : Z := 22.
Definition QUITQ : Z := 23.
Definition FLUSHQ : Z := 24.
Definition APPENDQ : Z := 25.
Definition PREPENDQ : Z := 26.
Definition TOUCH : Z := 28.
Definition GAT : Z := 29.
Definition GATQ : Z := 30.
Definition SASL_LIST_MECHS : Z := 32.
Definition SASL_AUTH : Z := 33.
Definition SASL_STEP : Z := 34.
Definition GATK : Z := 35.
Definition GATKQ : Z := 36.
End Op.

Inductive bin_status := SUCCESS | KEY_ENOENT | KEY_EEXISTS | E2BIG | EINVAL | ST_NOT_STORED | DELTA_BADVAL | AUTH_ERROR | UNKNOWN_COMMAND | ENOMEM.
Definition status_code (st : bin_status) : Z :=
  match st with
  | SUCCESS => 0 | KEY_ENOENT => 1 | KEY_EEXISTS => 2 | E2BIG => 3 | EINVAL => 4 | ST_NOT_STORED => 5 | DELTA_BADVAL => 6
  | AUTH_ERROR => 32 | UNKNOWN_COMMAND => 129 | ENOMEM => 130
  end.
(** The texts of [write_bin_error]; success has none. *)
Definition error_text (st : bin_status) : list Z :=
  match st with
  | ENOMEM => bytes "Out of memory"
  | UNKNOWN_COMMAND => bytes "Unknown command"
  | KEY_ENOENT => bytes "Not found"
  | EINVAL => bytes "Invalid arguments"
  | KEY_EEXISTS => bytes "Data exists for key."
  | E2BIG => bytes "Too large."
  | DELTA_BADVAL => bytes "Non-numeric server-side value for incr or decr"
  | ST_NOT_STORED => bytes "Not stored."
  | AUTH_ERROR => bytes "Auth failure."
  | SUCCESS => bytes "UNHANDLED ERROR"
  end.

(** [opaque] is sent back as it came. *)
Record bin_header := {
  magic : Z; opcode : Z; keylen : Z; extlen : Z; datatype : Z; reserved : Z; bodylen : Z; opaque : list Z; hcas : Z
}.
(** The header at the start of [b], numbers in host order. *)
Definition decode_header (b : list Z) : bin_header :=
  {| magic := byte_at b 0; opcode := byte_at b 1; keylen := be (slice 2 2 b); extlen := byte_at b 4; datatype := byte_at b 5;
     reserved := be (slice 6 2 b); bodylen := be (slice 8 4 b); opaque := slice 12 4 b; hcas := be (slice 16 8 b) |}.
Definition response_header (op err hdr_len key_len body_len cas : Z) (opq : list Z) : list Z :=
  [PROTOCOL_BINARY_RES; op] ++ to_be 2 key_len ++ [u8 hdr_len; 0] ++ to_be 2 err ++ to_be 4 body_len ++ opq ++ to_be 8 cas.

(** ** The connection *)

Inductive bin_substates :=
| bin_no_state | bin_reading_set_header | bin_reading_cas_header | bin_read_set_value | bin_reading_get_key | bin_reading_stat
| bin_reading_del_header | bin_reading_incr_header | bin_read_flush_exptime | bin_reading_sasl_auth | bin_reading_sasl_auth_data
| bin_reading_touch_key.

Inductive bin_cmd := Opcode (op : Z) | Nread (n : nread).
(** [c->cmd] as a number. *)
Definition cmd_code (c : bin_cmd) : Z :=
  match c with
  | Opcode op => op
  | Nread NREAD_ADD => 1 | Nread NREAD_SET => 2 | Nread NREAD_REPLACE => 3 | Nread NREAD_APPEND => 4 | Nread NREAD_PREPEND => 5 | Nread NREAD_CAS => 6
  end.

Record bconn := {
  b_cn : conn;
  b_noreply : bool;
  b_state : conn_states;
  b_go : conn_states;
  b_sbytes : Z;
  b_item : Z;
  b_rlbytes : Z;
  b_cmd : bin_cmd;
  b_sub : bin_substates;
  b_hdr : bin_header;
  b_out : output;
  b_rd : reader;
  b_ritem : nat  (** [c->ritem], when it points into the read buffer *)
}.
Definition b_with_cn (v : conn) (b : bconn) : bconn :=
  {| b_cn := v; b_noreply := b_noreply b; b_state := b_state b; b_go := b_go b; b_sbytes := b_sbytes b; b_item := b_item b; b_rlbytes := b_rlbytes b;
     b_cmd := b_cmd b; b_sub := b_sub b; b_hdr := b_hdr b; b_out := b_out b; b_rd := b_rd b; b_ritem := b_ritem b |}.
Definition b_with_state (v : conn_states) (b : bconn) : bconn :=
  {| b_cn := b_cn b; b_noreply := b_noreply b; b_state := v; b_go := b_go b; b_sbytes := b_sbytes b; b_item := b_item b; b_rlbytes := b_rlbytes b;
     b_cmd := b_cmd b; b_sub := b_sub b; b_hdr := b_hdr b; b_out := b_out b; b_rd := b_rd b; b_ritem := b_ritem b |}.
Definition b_with_go (v : conn_states) (sb : Z) (b : bconn) : bconn :=
  {| b_cn := b_cn b; b_noreply := b_noreply b; b_state := b_state b; b_go := v; b_sbytes := sb; b_item := b_item b; b_rlbytes := b_rlbytes b;
     b_cmd := b_cmd b; b_sub := b_sub b; b_hdr := b_hdr b; b_out := b_out b; b_rd := b_rd b; b_ritem := b_ritem b |}.
Definition b_with_item (it n : Z) (b : bconn) : bconn :=
  {| b_cn := b_cn b; b_noreply := b_noreply b; b_state := b_state b; b_go := b_go b; b_sbytes := b_sbytes b; b_item := it; b_rlbytes := n;
     b_cmd := b_cmd b; b_sub := b_sub b; b_hdr := b_hdr b; b_out := b_out b; b_rd := b_rd b; b_ritem := b_ritem b |}.
Definition b_with_cmd (v : bin_cmd) (nr : bool) (b : bconn) : bconn :=
  {| b_cn := b_cn b; b_noreply := nr; b_state := b_state b; b_go := b_go b; b_sbytes := b_sbytes b; b_item := b_item b; b_rlbytes := b_rlbytes b;
     b_cmd := v; b_sub := b_sub b; b_hdr := b_hdr b; b_out := b_out b; b_rd := b_rd b; b_ritem := b_ritem b |}.
Definition b_with_sub (v : bin_substates) (b : bconn) : bconn :=
  {| b_cn := b_cn b; b_noreply := b_noreply b; b_state := b_state b; b_go := b_go b; b_sbytes := b_sbytes b; b_item := b_item b; b_rlbytes := b_rlbytes b;
     b_cmd := b_cmd b; b_sub := v; b_hdr := b_hdr b; b_out := b_out b; b_rd := b_rd b; b_ritem := b_ritem b |}.
Definition b_with_out (v : output) (b : bconn) : bconn :=
  {| b_cn := b_cn b; b_noreply := b_noreply b; b_state := b_state b; b_go := b_go b; b_sbytes := b_sbytes b; b_item := b_item b; b_rlbytes := b_rlbytes b;
     b_cmd := b_cmd b; b_sub := b_sub b; b_hdr := b_hdr b; b_out := v; b_rd := b_rd b; b_ritem := b_ritem b |}.
Definition b_with_rd (v : reader) (ri : nat) (b : bconn) : bconn :=
  {| b_cn := b_cn b; b_noreply := b_noreply b; b_state := b_state b; b_go := b_go b; b_sbytes := b_sbytes b; b_item := b_item b; b_rlbytes := b_rlbytes b;
     b_cmd := b_cmd b; b_sub := b_sub b; b_hdr := b_hdr b; b_out := b_out b; b_rd := v; b_ritem := ri |}.
Definition b_with_hdr (v : bin_header) (b : bconn) : bconn :=
  {| b_cn := b_cn b; b_noreply := b_noreply b; b_state := b_state b; b_go := b_go b; b_sbytes := b_sbytes b; b_item := b_item b; b_rlbytes := b_rlbytes b;
     b_cmd := b_cmd b; b_sub := b_sub b; b_hdr := v; b_out := b_out b; b_rd := b_rd b; b_ritem := b_ritem b |}.
Definition bcount (st : tstat) (b : bconn) : bconn := b_with_cn (count st (b_cn b)) b.

Section binary.
Context (set : item_settings) (hash : list Z -> Z) (nchunks : nat).
Context (copy_chunks : nread -> Z -> Z -> Z -> server -> option server).
Context (process_started : Z) (version : list Z) (oom : nat -> bool).
Context (a : alloc_env) (room : option nat).
(** The settings [sasl] and [flush_enabled], [c->authenticated], and code that is not modelled. *)
Context (use_sasl authed flush_enabled : bool).
Context (stat sasl : bconn -> server -> option (bconn * server)).

(** ** Responses *)

(** [cas] is [c->cas], or what [c->wbuf] is changed to before it is sent.  [add_msghdr] does
    not fail here; if it did, [add_bin_header] would call itself. *)
Definition add_bin_header (err hdr_len key_len body_len cas : Z) (b : bconn) : option bconn :=
  '(ok, o) ← reset_output oom (b_out b);
  if ok : bool then
    '(_, o) ← add_iov oom (Literal (response_header (opcode (b_hdr b)) err hdr_len key_len body_len cas (opaque (b_hdr b)))) 24 o;
    Some (b_with_out o b)
  else None.
(** [add_iov], whose result is not used. *)
Definition badd (p : base) (len : Z) (b : bconn) : option bconn := '(_, o) ← add_iov oom p len (b_out b); Some (b_with_out o b).

(** [swallow] is an int. *)
Definition write_bin_error (st : bin_status) (text : list Z) (swallow : Z) (b : bconn) : option bconn :=
  let len := Z.of_nat (length text) in
  b ← add_bin_header (status_code st) 0 0 len (c_cas (b_cn b)) b;
  b ← (if 0 <? len then badd (Literal text) len b else Some b);
  let b := b_with_state conn_mwrite b in
  Some (if 0 <? swallow then b_with_go conn_swallow swallow b else b_with_go conn_new_cmd (b_sbytes b) b).
Definition bin_error (st : bin_status) (swallow : Z) (b : bconn) : option bconn := write_bin_error st (error_text st) swallow b.
(** [out_of_memory] of a connection that speaks the binary protocol, without the prefix. *)
Definition bin_out_of_memory (text : list Z) (b : bconn) : option bconn := write_bin_error ENOMEM text 0 b.
Definition handle_binary_protocol_error (b : bconn) : option bconn := b ← bin_error EINVAL 0 b; Some (b_with_go conn_closing (b_sbytes b) b).
(** [dlen] is the length of the data. *)
Definition write_bin_response (d : list Z) (hlen keylen : Z) (b : bconn) : option bconn :=
  if negb (b_noreply b) || (cmd_code (b_cmd b) =? Op.GET) || (cmd_code (b_cmd b) =? Op.GETK) then
    b ← add_bin_header 0 hlen keylen (Z.of_nat (length d)) (c_cas (b_cn b)) b;
    b ← (if 0 <? Z.of_nat (length d) then badd (Literal d) (Z.of_nat (length d)) b else Some b);
    Some (b_with_go conn_new_cmd (b_sbytes b) (b_with_state conn_mwrite b))
  else Some (b_with_state conn_new_cmd b).
(** With the key of the miss, or without. *)
Definition write_bin_miss_response (key : list Z) (b : bconn) : option bconn :=
  let nk := Z.of_nat (length key) in
  if negb (nk =? 0) then
    b ← add_bin_header (status_code KEY_ENOENT) 0 nk nk (c_cas (b_cn b)) b;
    b ← badd (Literal key) nk b;
    Some (b_with_go conn_new_cmd (b_sbytes b) (b_with_state conn_mwrite b))
  else bin_error KEY_ENOENT 0 b.

(** ** The request in the read buffer *)

(** Behind the key; the assertion is that the request starts in the buffer. *)
Definition binary_get_request (b : bconn) : option (list Z) :=
  let n := (HEADER_SIZE + Z.to_nat (keylen (b_hdr b)) + Z.to_nat (extlen (b_hdr b)))%nat in
  if (n <=? rcurr (b_rd b))%nat then Some (drop (rcurr (b_rd b) - n) (rbuf (b_rd b))) else None.
Definition binary_get_key (b : bconn) : list Z :=
  let n := Z.to_nat (keylen (b_hdr b)) in slice (rcurr (b_rd b) - n) n (rbuf (b_rd b)).

(** ** Handlers *)

Definition response_of (ret : store_item_type) (cmd : bin_cmd) : bin_status :=
  match ret with
  | STORED => SUCCESS
  | EXISTS => KEY_EEXISTS
  | NOT_FOUND => KEY_ENOENT
  | NOT_STORED | TOO_LARGE | NO_MEMORY =>
      match cmd with Nread NREAD_ADD => KEY_EEXISTS | Nread NREAD_REPLACE => KEY_ENOENT | _ => ST_NOT_STORED end
  end.
(** The value is complete but for its line end.  A command that is not one of the storage
    commands does not get here. *)
Definition complete_update_bin (b : bconn) (s : server) : option (bconn * server) :=
  let it := b_item b in
  let i := item_at s it in
  if has_flag ITEM_CHUNKED i then None
  else
    let b := bcount (set_cmds (ITEM_clsid i)) b in
    let s := upd_item (set_data (write (Z.to_nat (nbytes i - 2)) [13; 10] (idata i))) it s in
    match b_cmd b with
    | Opcode _ => None
    | Nread comm =>
        '(ret, cc, s) ← do_store_item set hash nchunks copy_chunks a it comm (hash (ikey (item_at s it))) (b_cn b) s;
        let b := b_with_cn cc b in
        b ← (if bool_decide (ret = STORED) then write_bin_response [] 0 0 b else bin_error (response_of ret (b_cmd b)) 0 b);
        Some (b_with_item 0 (b_rlbytes b) b, do_item_remove nchunks it s)
    end.

Definition nread_of (c : Z) : option nread :=
  if c =? Op.ADD then Some NREAD_ADD
  else if c =? Op.SET then Some NREAD_SET
  else if c =? Op.REPLACE then Some NREAD_REPLACE
  else None.
(** The value is read into the new item. *)
Definition read_value (it vlen : Z) (comm : nread) (b : bconn) : bconn :=
  b_with_sub bin_read_set_value (b_with_state conn_nread (b_with_item it vlen (b_with_cmd (Nread comm) (b_noreply b) b))).
(** No item for the value: the rest of the request is to be swallowed. *)
Definition bin_update_failed (key : list Z) (flags vlen : Z) (b : bconn) (s : server) : option bconn :=
  b ← (if item_size_ok set (Z.of_nat (length key)) flags (s32 (vlen + 2)) s
       then b ← bin_out_of_memory (bytes "Out of memory allocating item") b; Some (b_with_go (b_go b) vlen b)
       else bin_error E2BIG vlen b);
  Some (b_with_go conn_swallow (b_sbytes b) b).
Definition process_bin_update (b : bconn) (s : server) : option (bconn * server) :=
  req ← binary_get_request b;
  let key := binary_get_key b in
  let h := b_hdr b in
  let flags := be (slice 24 4 req) in
  let expiration := be (slice 28 4 req) in
  let vlen := s32 (bodylen h - (keylen h + extlen h)) in
  '(it, s) ← do_item_alloc set hash nchunks (a_es a) (a_trylock a) (a_locked a) key flags (realtime process_started (current_time s) expiration) (s32 (vlen + 2)) s;
  if it =? 0 then
    b ← bin_update_failed key flags vlen b s;
    if cmd_code (b_cmd b) =? Op.SET then
      let b := b_with_cn (count_get set key (hash key) s (b_cn b)) b in
      '(old, s) ← do_item_get set nchunks None key (hash key) false s;
      if old =? 0 then Some (b, s)
      else s ← do_item_unlink set nchunks old (hash (ikey (item_at s old))) s; Some (b, do_item_remove nchunks old s)
    else Some (b, s)
  else
    let s := upd_item (ITEM_set_cas (hcas h)) it s in
    comm ← nread_of (cmd_code (b_cmd b));
    let comm := if negb (ITEM_get_cas (item_at s it) =? 0) then NREAD_CAS else comm in
    Some (read_value it vlen comm b, s).
Definition process_bin_append_prepend (b : bconn) (s : server) : option (bconn * server) :=
  let key := binary_get_key b in
  let h := b_hdr b in
  let vlen := s32 (bodylen h - keylen h) in
  '(it, s) ← do_item_alloc set hash nchunks (a_es a) (a_trylock a) (a_locked a) key 0 0 (s32 (vlen + 2)) s;
  if it =? 0 then b ← bin_update_failed key 0 vlen b s; Some (b, s)
  else
    let s := upd_item (ITEM_set_cas (hcas h)) it s in
    comm ← (if cmd_code (b_cmd b) =? Op.APPEND then Some NREAD_APPEND else if cmd_code (b_cmd b) =? Op.PREPEND then Some NREAD_PREPEND else None);
    Some (read_value it vlen comm b, s).

Definition process_bin_get_or_touch (b : bconn) (s : server) : option (bconn * server) :=
  let key := binary_get_key b in
  let nk := Z.of_nat (length key) in
  let cmd := cmd_code (b_cmd b) in
  let should_touch := (cmd =? Op.TOUCH) || (cmd =? Op.GAT) || (cmd =? Op.GATK) in
  let should_return_key := (cmd =? Op.GETK) || (cmd =? Op.GATK) in
  let should_return_value := negb (cmd =? Op.TOUCH) in
  let b := b_with_cn (count_get set key (hash key) s (b_cn b)) b in
  '(it, s) ← (if should_touch then
                req ← binary_get_request b;
                do_item_touch set nchunks room key (realtime process_started (current_time s) (be (slice 24 4 req))) (hash key) s
              else do_item_get set nchunks room key (hash key) true s);
  if negb (it =? 0) then
    let i := item_at s it in
    if has_flag ITEM_CHUNKED i && should_return_value then None
    else
      let b := if should_touch then bcount (touch_hits (ITEM_clsid i)) (bcount touch_cmds b) else bcount (lru_hits (slabs_clsid i)) (bcount get_cmds b) in
      let value_len := if cmd =? Op.TOUCH then 0 else nbytes i - 2 in
      let klen := if should_return_key then nk else 0 in
      b ← add_bin_header 0 4 klen (u32 (4 + value_len + klen)) (ITEM_get_cas i) b;
      b ← badd (Literal (to_be 4 (FLAGS_CONV i))) 4 b;
      b ← (if should_return_key then badd (ItemKey it) nk b else Some b);
      b ← (if should_return_value then badd (ItemData it) (nbytes i - 2) b else Some b);
      Some (b_with_item it (b_rlbytes b) (b_with_go conn_new_cmd (b_sbytes b) (b_with_state conn_mwrite b)), s)
  else
    let b := if should_touch then bcount touch_misses (bcount touch_cmds b) else bcount get_misses (bcount get_cmds b) in
    if b_noreply b then Some (b_with_state conn_new_cmd b, s)
    else b ← write_bin_miss_response (if should_return_key then key else []) b; Some (b, s).

Definition process_bin_delete (b : bconn) (s : server) : option (bconn * server) :=
  req ← binary_get_request b;
  let key := binary_get_key b in
  let b := b_with_cn (count_get set key (hash key) s (b_cn b)) b in
  '(it, s) ← do_item_get set nchunks None key (hash key) false s;
  if negb (it =? 0) then
    let cas := be (slice 16 8 req) in
    if (cas =? 0) || (cas =? ITEM_get_cas (item_at s it)) then
      let b := bcount (delete_hits (ITEM_clsid (item_at s it))) b in
      s ← do_item_unlink set nchunks it (hash key) s;
      b ← write_bin_response [] 0 0 b;
      Some (b, do_item_remove nchunks it s)
    else b ← bin_error KEY_EEXISTS 0 b; Some (b, do_item_remove nchunks it s)
  else b ← bin_error KEY_ENOENT 0 b; Some (bcount delete_misses b, s).

(** A counter that is missing is created with its initial value. *)
Definition create_counter (key : list Z) (initial expiration : Z) (b : bconn) (s : server) : option (bconn * server) :=
  let text := decimal initial in
  '(it, s) ← do_item_alloc set hash nchunks (a_es a) (a_trylock a) (a_locked a) key 0 (realtime process_started (current_time s) expiration)
               (Z.of_nat (length text) + 2) s;
  if it =? 0 then b ← bin_out_of_memory (bytes "Out of memory allocating new item") b; Some (b, s)
  else
    let i := item_at s it in
    let s := upd_item (set_data (write (length text) [13; 10] (write 0 text (idata i)))) it s in
    '(ret, cc, s) ← do_store_item set hash nchunks copy_chunks a it NREAD_ADD (hash key) (b_cn b) s;
    let b := b_with_cn cc b in
    b ← (if bool_decide (ret = NOT_STORED) then bin_error ST_NOT_STORED 0 b
         else write_bin_response (to_be 8 initial) 0 0 (b_with_cn (set_c_cas (ITEM_get_cas (item_at s it)) cc) b));
    Some (b, do_item_remove nchunks it s).
Definition complete_incr_bin (b : bconn) (s : server) : option (bconn * server) :=
  req ← binary_get_request b;
  let key := binary_get_key b in
  let delta := be (slice 24 8 req) in
  let initial := be (slice 32 8 req) in
  let expiration := be (slice 40 4 req) in
  let incr := cmd_code (b_cmd b) =? Op.INCREMENT in
  '(res, text, cas, cc, s) ← do_add_delta set hash nchunks a key incr (s64 delta) (Some (hcas (b_hdr b))) (hash key) (b_cn b) s;
  let b := b_with_cn cc b in
  match res with
  | OK =>
      let cas := default 0 cas in
      let b := if negb (cas =? 0) then b_with_cn (set_c_cas cas (b_cn b)) b else b in
      b ← write_bin_response (to_be 8 (strtoull 10 text).1.1) 0 0 b; Some (b, s)
  | NON_NUMERIC => b ← bin_error DELTA_BADVAL 0 b; Some (b, s)
  | EOM => b ← bin_out_of_memory (bytes "Out of memory incrementing value") b; Some (b, s)
  | DELTA_ITEM_NOT_FOUND =>
      if negb (expiration =? 4294967295) then create_counter key initial expiration b s
      else b ← bin_error KEY_ENOENT 0 (bcount (if incr then incr_misses else decr_misses) b); Some (b, s)
  | DELTA_ITEM_CAS_MISMATCH => b ← bin_error KEY_EEXISTS 0 b; Some (b, s)
  end.

(** The settings are changed by a flush. *)
Definition with_oldest (live cas : Z) (st : item_settings) : item_settings :=
  {| slab_set := slab_set st; use_cas := use_cas st; lru_segmented := lru_segmented st; temp_lru := temp_lru st; temporary_ttl := temporary_ttl st;
     oldest_live := live; oldest_cas := cas; tail_repair_time := tail_repair_time st; evict_to_free := evict_to_free st; slab_automove := slab_automove st;
     hot_lru_pct := hot_lru_pct st; warm_lru_pct := warm_lru_pct st; hot_max_factor := hot_max_factor st; warm_max_factor := warm_max_factor st |}.
Definition flush_settings (new_oldest : Z) (s : server) : item_settings * server :=
  if use_cas set then
    let live := u32 (new_oldest - 1) in
    if live <=? current_time s then let '(id, s) := get_cas_id s in (with_oldest live id set, s) else (with_oldest live (oldest_cas set) set, s)
  else (with_oldest new_oldest (oldest_cas set) set, s).
Definition process_bin_flush (b : bconn) (s : server) : option (bconn * item_settings * server) :=
  req ← binary_get_request b;
  if negb flush_enabled then b ← bin_error AUTH_ERROR 0 b; Some (b, set, s)
  else
    let exptime := if extlen (b_hdr b) =? 4 then be (slice 24 4 req) else 0 in
    let new_oldest := if 0 <? exptime then realtime process_started (current_time s) exptime else current_time s in
    let '(st, s) := flush_settings new_oldest s in
    b ← write_bin_response [] 0 0 (bcount flush_cmds b); Some (b, st, s).

Definition complete_nread_binary (b : bconn) (s : server) : option (bconn * item_settings * server) :=
  let same (r : option (bconn * server)) := '(b, s) ← r; Some (b, set, s) in
  match b_sub b with
  | bin_reading_set_header =>
      if (cmd_code (b_cmd b) =? Op.APPEND) || (cmd_code (b_cmd b) =? Op.PREPEND) then same (process_bin_append_prepend b s) else same (process_bin_update b s)
  | bin_read_set_value => same (complete_update_bin b s)
  | bin_reading_get_key | bin_reading_touch_key => same (process_bin_get_or_touch b s)
  | bin_reading_stat => same (stat b s)
  | bin_reading_del_header => same (process_bin_delete b s)
  | bin_reading_incr_header => same (complete_incr_bin b s)
  | bin_read_flush_exptime => process_bin_flush b s
  | bin_reading_sasl_auth | bin_reading_sasl_auth_data => same (sasl b s)
  | bin_no_state | bin_reading_cas_header => None
  end.

(** ** Dispatch *)

Fixpoint double_until (fuel size nsize : nat) : nat :=
  match fuel with
  | O => nsize
  | S fuel => if (nsize <? size)%nat then double_until fuel size (2 * nsize) else nsize
  end.
(** Room for extras and key behind the header, which stays in the buffer. *)
Definition bin_read_key (next : bin_substates) (extra : Z) (b : bconn) : bconn :=
  let r := b_rd b in
  let n := keylen (b_hdr b) + extra in
  let b := b_with_sub next (b_with_item (b_item b) n b) in
  let ready r b := b_with_state conn_nread (b_with_rd r (rcurr r + HEADER_SIZE) b) in
  if Z.of_nat (rsize r) - Z.of_nat (rcurr r + HEADER_SIZE) <? n then
    let size := (Z.to_nat n + HEADER_SIZE)%nat in
    let nsize := double_until size size (rsize r) in
    if (nsize =? rsize r)%nat then ready (compact r) b
    else if oom (tries (b_out b)) then b_with_out (tried true (b_out b)) (b_with_state conn_closing b)
    else ready (compact {| rbuf := rbuf r ++ replicate (nsize - rsize r) 0; rcurr := rcurr r; rbytes := rbytes r |}) (b_with_out (tried false (b_out b)) b)
  else ready r b.

Definition authenticated (b : bconn) : bool :=
  let c := cmd_code (b_cmd b) in
  (c =? Op.SASL_LIST_MECHS) || (c =? Op.SASL_AUTH) || (c =? Op.SASL_STEP) || (c =? Op.VERSION) || authed.
(** The command of a quiet opcode. *)
Definition loud (op : Z) : option Z :=
  if op =? Op.SETQ then Some Op.SET else if op =? Op.ADDQ then Some Op.ADD else if op =? Op.REPLACEQ then Some Op.REPLACE
  else if op =? Op.DELETEQ then Some Op.DELETE else if op =? Op.INCREMENTQ then Some Op.INCREMENT else if op =? Op.DECREMENTQ then Some Op.DECREMENT
  else if op =? Op.QUITQ then Some Op.QUIT else if op =? Op.FLUSHQ then Some Op.FLUSH else if op =? Op.APPENDQ then Some Op.APPEND
  else if op =? Op.PREPENDQ then Some Op.PREPEND else if op =? Op.GETQ then Some Op.GET else if op =? Op.GETKQ then Some Op.GETK
  else if op =? Op.GATQ then Some Op.GAT else if op =? Op.GATKQ then Some Op.GATK
  else None.
(** The switch over the commands. *)
Definition dispatch_command (cmd : Z) (b : bconn) (s : server) : option (bconn * server) :=
  let h := b_hdr b in
  let k := keylen h in
  let e := extlen h in
  let l := bodylen h in
  let pure (r : option bconn) := b ← r; Some (b, s) in
  let check (c : bool) (r : option bconn) := if c then pure r else pure (handle_binary_protocol_error b) in
  let bare := (e =? 0) && (k =? 0) && (l =? 0) in
  if cmd =? Op.VERSION then check bare (write_bin_response version 0 0 b)
  else if cmd =? Op.FLUSH then check ((k =? 0) && (l =? e) && ((e =? 0) || (e =? 4))) (Some (bin_read_key bin_read_flush_exptime e b))
  else if cmd =? Op.NOOP then check bare (write_bin_response [] 0 0 b)
  else if (cmd =? Op.SET) || (cmd =? Op.ADD) || (cmd =? Op.REPLACE) then
    check ((e =? 8) && negb (k =? 0) && (k + 8 <=? l)) (Some (bin_read_key bin_reading_set_header 8 b))
  else if (cmd =? Op.GETQ) || (cmd =? Op.GET) || (cmd =? Op.GETKQ) || (cmd =? Op.GETK) then
    check ((e =? 0) && (l =? k) && (0 <? k)) (Some (bin_read_key bin_reading_get_key 0 b))
  else if cmd =? Op.DELETE then check ((0 <? k) && (e =? 0) && (l =? k)) (Some (bin_read_key bin_reading_del_header e b))
  else if (cmd =? Op.INCREMENT) || (cmd =? Op.DECREMENT) then
    check ((0 <? k) && (e =? 20) && (l =? k + e)) (Some (bin_read_key bin_reading_incr_header 20 b))
  else if (cmd =? Op.APPEND) || (cmd =? Op.PREPEND) then check ((0 <? k) && (e =? 0)) (Some (bin_read_key bin_reading_set_header 0 b))
  else if cmd =? Op.STAT then check (e =? 0) (Some (bin_read_key bin_reading_stat 0 b))
  else if cmd =? Op.QUIT then
    check bare (b ← write_bin_response [] 0 0 b;
                let b := b_with_go conn_closing (b_sbytes b) b in
                Some (if b_noreply b then b_with_state conn_closing b else b))
  else if cmd =? Op.SASL_LIST_MECHS then (if bare then sasl b s else pure (handle_binary_protocol_error b))
  else if (cmd =? Op.SASL_AUTH) || (cmd =? Op.SASL_STEP) then check ((e =? 0) && negb (k =? 0)) (Some (bin_read_key bin_reading_sasl_auth 0 b))
  else if (cmd =? Op.TOUCH) || (cmd =? Op.GAT) || (cmd =? Op.GATQ) || (cmd =? Op.GATK) || (cmd =? Op.GATKQ) then
    check ((e =? 4) && negb (k =? 0)) (Some (bin_read_key bin_reading_touch_key 4 b))
  else pure (bin_error UNKNOWN_COMMAND (s32 l) b).
Definition dispatch_bin_command (b : bconn) (s : server) : option (bconn * server) :=
  let h := b_hdr b in
  if (bodylen h <? keylen h) || (bodylen h <? keylen h + extlen h) then
    b ← bin_error UNKNOWN_COMMAND 0 b; Some (b_with_go conn_closing (b_sbytes b) b, s)
  else if use_sasl && negb (authenticated b) then
    b ← bin_error AUTH_ERROR 0 b; Some (b_with_go conn_closing (b_sbytes b) b, s)
  else if Z.of_nat KEY_MAX_LENGTH <? keylen h then
    b ← handle_binary_protocol_error (b_with_cmd (b_cmd b) true b); Some (b, s)
  else
    let op := cmd_code (b_cmd b) in
    match loud op with
    | Some c => dispatch_command c (b_with_cmd (Opcode c) true b) s
    | None => dispatch_command op (b_with_cmd (Opcode op) false b) s
    end.

(** The result is that of the function. *)
Definition try_read_command_binary (b : bconn) (s : server) : option (Z * bconn * server) :=
  if (rbytes (b_rd b) <? HEADER_SIZE)%nat then Some (0, b, s)
  else
    let h := decode_header (pending (b_rd b)) in
    let b := b_with_hdr h b in
    if negb (magic h =? PROTOCOL_BINARY_REQ) then Some (-1, b_with_state conn_closing b, s)
    else
      '(ok, o) ← reset_output oom (b_out b);
      let b := b_with_out o b in
      if ok : bool then
        let b := b_with_cn (set_c_cas 0 (b_cn b)) (b_with_cmd (Opcode (opcode h)) (b_noreply b) b) in
        '(b, s) ← dispatch_bin_command b s;
        Some (1, b_with_rd (consume HEADER_SIZE (b_rd b)) (b_ritem b) b, s)
      else b ← bin_out_of_memory (bytes "Out of memory allocating headers") b; Some (0, b, s).

(** ** Extras, key and value *)

(** Bytes go to [c->ritem]: into the read buffer, or into the item. *)
Definition bin_into (bs : list Z) (b : bconn) (s : server) : bconn * server :=
  let n := length bs in
  let b' := b_with_item (b_item b) (b_rlbytes b - Z.of_nat n) b in
  if b_item b =? 0 then
    let r := b_rd b in
    (b_with_rd {| rbuf := write (b_ritem b) bs (rbuf r); rcurr := rcurr r; rbytes := rbytes r |} (b_ritem b + n) b', s)
  else
    let i := item_at s (b_item b) in
    (b', upd_item (set_data (write (Z.to_nat (nbytes i - 2 - b_rlbytes b)) bs (idata i))) (b_item b) s).
(** What the buffer has of them. *)
Definition nread_buffered (b : bconn) (s : server) : bconn * server :=
  let r := b_rd b in
  if (0 <? rbytes r)%nat then
    let tocopy := Nat.min (rbytes r) (Z.to_nat (b_rlbytes b)) in
    let '(b, s) := bin_into (take tocopy (pending r)) b s in
    (b_with_rd (consume tocopy (b_rd b)) (b_ritem b) b, s)
  else (b, s).
(** What arrives behind them. *)
Definition nread_received (bs : list Z) (b : bconn) (s : server) : bconn * server :=
  let at_item := (b_item b =? 0) && (rcurr (b_rd b) =? b_ritem b)%nat in
  let '(b, s) := bin_into bs b s in
  let r := b_rd b in
  (if at_item then b_with_rd {| rbuf := rbuf r; rcurr := rcurr r + length bs; rbytes := rbytes r |} (b_ritem b) b else b, s).
(** One turn of the state [conn_nread] for the bytes [bs] the socket gives, if it is asked. *)
Definition bin_nread (bs : list Z) (b : bconn) (s : server) : option (bconn * item_settings * server) :=
  if b_rlbytes b =? 0 then complete_nread_binary b s
  else if b_rlbytes b <? 0 then Some (b_with_state conn_closing b, set, s)
  else if negb (b_item b =? 0) && has_flag ITEM_CHUNKED (item_at s (b_item b)) then None
  else
    let '(b, s) := nread_buffered b s in
    if b_rlbytes b =? 0 then Some (b, set, s)
    else let '(b, s) := nread_received (take (Z.to_nat (b_rlbytes b)) bs) b s in Some (b, set, s).
End binary.

(** ** Headers *)

Lemma length_to_be n v : length (to_be n v) = n.
Proof. revert v. induction n as [|n IH]; intros v; cbn [to_be]; [done|]. rewrite length_app, IH. cbn [length]. lia. Qed.
Lemma be_snoc bs b : be (bs ++ [b]) = 256 * be bs + b.
Proof. unfold be. by rewrite fold_left_app. Qed.
Lemma be_to_be n v : 0 <= v < 256 ^ Z.of_nat n -> be (to_be n v) = v.
Proof.
  revert v. induction n as [|n IH]; intros v Hv; cbn [to_be].
  - change (256 ^ Z.of_nat 0) with 1 in Hv. change (0 = v). lia.
  - rewrite Nat2Z.inj_succ, Z.pow_succ_r in Hv by lia. rewrite be_snoc, IH; [pose proof (Z.div_mod v 256); lia|].
    split; [apply Z.div_pos; lia|apply Z.div_lt_upper_bound; lia].
Qed.
(** The layout of a request, as protocol_binary.h gives it. *)
Definition encode_request (h : bin_header) : list Z :=
  [magic h; opcode h] ++ to_be 2 (keylen h) ++ [extlen h; datatype h] ++ to_be 2 (reserved h) ++ to_be 4 (bodylen h) ++ opaque h ++ to_be 8 (hcas h).
Definition header_ok (h : bin_header) : Prop :=
  is_byte (magic h) /\ is_byte (opcode h) /\ 0 <= keylen h < 2 ^ 16 /\ is_byte (extlen h) /\ is_byte (datatype h) /\ 0 <= reserved h < 2 ^ 16 /\
  0 <= bodylen h < 2 ^ 32 /\ length (opaque h) = 4%nat /\ 0 <= hcas h < 2 ^ 64.

Lemma slice_skip p q n l off : length p = off -> length q = n -> slice off n (p ++ q ++ l) = q.
Proof. intros <- <-. unfold slice. by rewrite drop_app_length, take_app_length. Qed.

Lemma decode_encode h rest : header_ok h -> decode_header (encode_request h ++ rest) = h.
Proof.
  destruct h as [mg op k e d rs l opq cas]. intros (_ & _ & Hk & _ & _ & Hr & Hl & Ho & Hc). cbn in Hk, Hr, Hl, Ho, Hc.
  unfold encode_request. cbn [magic opcode keylen extlen datatype reserved bodylen opaque hcas]. pose proof length_to_be as L. rewrite <- !app_assoc.
  unfold decode_header. f_equal.
  - rewrite (slice_skip [mg; op] (to_be 2 k)) by done. by apply be_to_be.
  - rewrite 2 app_assoc. rewrite (slice_skip _ (to_be 2 rs)) by (rewrite ?length_app, ?L; done). by apply be_to_be.
  - rewrite 3 app_assoc. rewrite (slice_skip _ (to_be 4 l)) by (rewrite ?length_app, ?L; done). by apply be_to_be.
  - rewrite 4 app_assoc. by rewrite (slice_skip _ opq) by (rewrite ?length_app, ?L; done).
  - rewrite 5 app_assoc. rewrite (slice_skip _ (to_be 8 cas)) by (rewrite ?length_app, ?L, ?Ho; done). by apply be_to_be.
Qed.

(** ** What a connection still takes from the stream *)

(** The bytes of the request that are not read yet; [None] when the connection is to be
    closed. *)
Definition value_len (b : bconn) : Z := bodylen (b_hdr b) - keylen (b_hdr b) - extlen (b_hdr b).
Definition body_left (b : bconn) : option Z :=
  match b_state b with
  | conn_nread => Some (b_rlbytes b + match b_sub b with bin_reading_set_header => value_len b | _ => 0 end)
  | conn_mwrite => match b_go b with conn_swallow => Some (Z.max 0 (b_sbytes b)) | conn_closing => None | _ => Some 0 end
  | conn_closing => None
  | _ => Some 0
  end.

(** The shape of a connection with a response. *)
Definition responds (go : conn_states) (sb : Z) (b b' : bconn) : Prop := exists o, b' = b_with_go go sb (b_with_state conn_mwrite (b_with_out o b)).
Definition answered (b b' : bconn) : Prop := responds conn_new_cmd (b_sbytes b) b b' \/ b' = b_with_state conn_new_cmd b.

Section frames.
Context (oom : nat -> bool).

Lemma add_bin_header_out err hl kl bl cas b b' : add_bin_header oom err hl kl bl cas b = Some b' -> exists o, b' = b_with_out o b.
Proof.
  unfold add_bin_header. destruct (reset_output oom (b_out b)) as [[[] o]|]; cbn [mbind option_bind]; [|done|done].
  destruct (add_iov _ _ _ _) as [[ok o1]|]; [|done]. intros E. injection E as <-. by eexists.
Qed.
Lemma badd_out p len b b' : badd oom p len b = Some b' -> exists o, b' = b_with_out o b.
Proof. unfold badd. destruct (add_iov _ _ _ _) as [[ok o]|]; [|done]. intros E. injection E as <-. by eexists. Qed.
Lemma badd_if_out (c : bool) p len b b' : (if c then badd oom p len b else Some b) = Some b' -> exists o, b' = b_with_out o b.
Proof. destruct c; [apply badd_out|]. intros E. injection E as <-. exists (b_out b). by destruct b. Qed.
Lemma error_shape st text sw b b' : write_bin_error oom st text sw b = Some b' ->
  responds (if 0 <? sw then conn_swallow else conn_new_cmd) (if 0 <? sw then sw else b_sbytes b) b b'.
Proof.
  unfold write_bin_error. destruct (add_bin_header _ _ _ _ _ _ _) as [b1|] eqn:E1; [|done]. cbn [mbind option_bind].
  destruct (add_bin_header_out _ _ _ _ _ _ _ E1) as [o ->]. destruct (if 0 <? Z.of_nat (length text) then _ else _) as [b2|] eqn:E2; [|done].
  apply badd_if_out in E2 as [o2 ->]. cbn [mbind option_bind]. intros E. injection E as <-. exists o2. by destruct (0 <? sw).
Qed.
Lemma response_shape d hl kl b b' : write_bin_response oom d hl kl b = Some b' -> answered b b'.
Proof.
  unfold write_bin_response. destruct (_ || _); [|intros E; injection E as <-; by right]. destruct (add_bin_header _ _ _ _ _ _ _) as [b1|] eqn:E1; [|done].
  destruct (add_bin_header_out _ _ _ _ _ _ _ E1) as [o ->]. cbn [mbind option_bind]. destruct (if 0 <? Z.of_nat (length d) then _ else _) as [b2|] eqn:E2; [|done].
  apply badd_if_out in E2 as [o2 ->]. cbn [mbind option_bind]. intros E. injection E as <-. left. by exists o2.
Qed.
Lemma no_swallow_answered st text b b' : write_bin_error oom st text 0 b = Some b' -> answered b b'.
Proof. intros H%error_shape. by left. Qed.
Lemma miss_shape key b b' : write_bin_miss_response oom key b = Some b' -> answered b b'.
Proof.
  unfold write_bin_miss_response. destruct (negb _); [|apply no_swallow_answered]. destruct (add_bin_header _ _ _ _ _ _ _) as [b1|] eqn:E1; [|done].
  destruct (add_bin_header_out _ _ _ _ _ _ _ E1) as [o ->]. cbn [mbind option_bind]. destruct (badd _ _ _ _) as [b2|] eqn:E2; [|done].
  apply badd_out in E2 as [o2 ->]. cbn [mbind option_bind]. intros E. injection E as <-. left. by exists o2.
Qed.
Lemma protocol_error_closes b b' : handle_binary_protocol_error oom b = Some b' -> body_left b' = None /\ b_rd b' = b_rd b.
Proof. unfold handle_binary_protocol_error. destruct (bin_error _ _ _ _) as [b1|] eqn:E; [|done]. apply error_shape in E as [o ->]. intros E. injection E as <-. done. Qed.

(** An answer takes nothing more from the stream. *)
Definition finished (b b' : bconn) : Prop := body_left b' = Some 0 /\ b_rd b' = b_rd b /\ b_hdr b' = b_hdr b /\ b_sbytes b' = b_sbytes b /\ b_state b' <> conn_nread.
Lemma answered_finished b0 b b' : answered b b' -> b_rd b = b_rd b0 -> b_hdr b = b_hdr b0 -> b_sbytes b = b_sbytes b0 -> finished b0 b'.
Proof. intros [[o ->]| ->] H1 H2 H3; split_and!; try done. Qed.
End frames.
#[export] Hint Resolve response_shape no_swallow_answered miss_shape : conn.

(** Cases of a handler that returned. *)
Ltac returns H :=
  repeat match type of H with
  | mbind _ ?m = Some _ => let E := fresh "E" in destruct m eqn:E; cbn [mbind option_bind] in H; [|discriminate H]
  | (match ?p with pair _ _ => _ end) = Some _ => destruct p
  | (if ?c then _ else _) = Some _ => let E := fresh "E" in destruct c eqn:E
  | Some _ = Some _ => injection H as ?; subst
  | None = Some _ => discriminate H
  end.
(** A connection that only got a new value of a field. *)
Ltac finishes := eapply answered_finished; [solve [eauto with conn]|done|done|done].

Ltac outputs :=
  repeat match goal with
  | E : (if _ then badd _ _ _ _ else Some _) = Some _ |- _ => apply badd_if_out in E as [? ->]
  | E : badd _ _ _ _ = Some _ |- _ => apply badd_out in E as [? ->]
  | E : add_bin_header _ _ _ _ _ _ _ = Some _ |- _ => apply add_bin_header_out in E as [? ->]
  end.

Section bodies.
Context (set : item_settings) (hash : list Z -> Z) (nchunks : nat) (copy_chunks : nread -> Z -> Z -> Z -> server -> option server).
Context (process_started : Z) (oom : nat -> bool) (a : alloc_env) (room : option nat) (flush_enabled : bool).

Lemma get_finished b s b' s' : process_bin_get_or_touch set hash nchunks process_started oom room b s = Some (b', s') -> finished b b'.
Proof.
  intros H. unfold process_bin_get_or_touch in H. cbv zeta in H.
  destruct ((cmd_code (b_cmd b) =? Op.TOUCH) || (cmd_code (b_cmd b) =? Op.GAT) || (cmd_code (b_cmd b) =? Op.GATK)); returns H; try finishes; try outputs; done.
Qed.
Lemma delete_finished b s b' s' : process_bin_delete set hash nchunks oom b s = Some (b', s') -> finished b b'.
Proof.
  intros H. unfold process_bin_delete in H. returns H; try finishes.
  match goal with E : bin_error _ _ _ _ = Some _ |- _ => apply error_shape in E as [o ->] end. done.
Qed.
Lemma incr_finished b s b' s' : complete_incr_bin set hash nchunks copy_chunks process_started oom a b s = Some (b', s') -> finished b b'.
Proof.
  intros H. unfold complete_incr_bin, create_counter, bin_out_of_memory in H. cbv zeta in H. returns H. destruct d; returns H; try finishes; repeat case_match; try finishes.
Qed.
Lemma s32_id x : 0 <= x < 2 ^ 31 -> s32 x = x.
Proof. intros H. unfold signed. rewrite wrap_small by lia. case_if; lia. Qed.
Lemma flush_finished b s b' st s' : process_bin_flush set process_started oom flush_enabled b s = Some (b', st, s') -> finished b b'.
Proof. intros H. unfold process_bin_flush in H. cbv zeta in H. returns H; finishes. Qed.
Lemma stored_finished b s b' s' : complete_update_bin set hash nchunks copy_chunks oom a b s = Some (b', s') -> finished b b'.
Proof.
  intros H. unfold complete_update_bin in H. cbv zeta in H. returns H. destruct (b_cmd _); [discriminate H|]. returns H.
  match goal with E : (if bool_decide _ then _ else _) = Some ?b1 |- _ => assert (finished b b1) as (F1 & F2 & F3 & F4 & F5) by (case_bool_decide; finishes) end.
  by split_and!.
Qed.

(** The value is to follow, or to be swallowed. *)
Definition awaits (n : Z) (b b' : bconn) : Prop := body_left b' = Some n /\ b_rd b' = b_rd b /\ b_hdr b' = b_hdr b /\
  (b_state b' = conn_nread -> b_sub b' = bin_read_set_value /\ b_item b' <> 0 /\ b_rlbytes b' = n /\ b_sbytes b' = b_sbytes b).
Lemma failed_awaits b0 key flags vlen b s b' : 0 <= vlen -> b_sbytes b <= 0 -> bin_update_failed set oom key flags vlen b s = Some b' ->
  b_rd b = b_rd b0 -> b_hdr b = b_hdr b0 -> awaits vlen b0 b' /\ cmd_code (b_cmd b') = cmd_code (b_cmd b).
Proof.
  intros Hv Hs H Er Eh. unfold bin_update_failed in H. returns H. destruct (item_size_ok _ _ _ _ _); returns E.
  - apply error_shape in E0 as [o ->]. unfold awaits, body_left. cbn. by rewrite Z.max_r by lia.
  - apply error_shape in E as [o ->]. unfold awaits, body_left. cbn. destruct (0 <? vlen) eqn:Ev; zbool; (split; [|done]); (split; [|done]); f_equal; lia.
Qed.
Lemma value_awaits b it vlen comm : it <> 0 -> awaits vlen b (read_value it vlen comm b).
Proof. intros Hi. unfold awaits, body_left. cbn. rewrite Z.add_0_r. by split_and!. Qed.
Lemma update_awaits b s b' s' : 0 <= value_len b < 2 ^ 31 -> b_sbytes b <= 0 ->
  process_bin_update set hash nchunks process_started oom a b s = Some (b', s') -> awaits (value_len b) b b'.
Proof.
  intros Hv Hs H. unfold process_bin_update in H. cbv zeta in H.
  replace (bodylen (b_hdr b) - (keylen (b_hdr b) + extlen (b_hdr b))) with (value_len b) in H by (unfold value_len; lia). rewrite (s32_id (value_len b)) in H by lia.
  returns H; zbool; try (by apply value_awaits);
    match goal with E : bin_update_failed _ _ _ _ _ _ _ = Some _ |- _ => apply (failed_awaits b) in E as [E _]; [exact E|lia|done|done|done] end.
Qed.
Lemma append_awaits b s b' s' : 0 <= value_len b < 2 ^ 31 -> extlen (b_hdr b) = 0 -> b_sbytes b <= 0 ->
  process_bin_append_prepend set hash nchunks oom a b s = Some (b', s') -> awaits (value_len b) b b'.
Proof.
  intros Hv He Hs H. unfold process_bin_append_prepend in H. cbv zeta in H.
  replace (bodylen (b_hdr b) - keylen (b_hdr b)) with (value_len b) in H by (unfold value_len; lia). rewrite (s32_id (value_len b)) in H by lia.
  returns H; zbool; try (by apply value_awaits);
    match goal with E : bin_update_failed _ _ _ _ _ _ _ = Some _ |- _ => apply (failed_awaits b) in E as [E _]; [exact E|lia|done|done|done] end.
Qed.
End bodies.

Lemma write_same off n l : (off + n <= length l)%nat -> write off (slice off n l) l = l.
Proof.
  intros H. unfold write. rewrite length_slice by done. unfold slice. rewrite <- (take_drop off l) at 4. f_equal.
  rewrite <- (take_drop n (drop off l)) at 2. f_equal. by rewrite drop_drop.
Qed.
Lemma pending_length r : (rcurr r + rbytes r <= rsize r)%nat -> length (pending r) = rbytes r.
Proof. intros H. unfold pending. by apply length_slice. Qed.

(** A connection that reads extras and key, or a value. *)
Definition plain_sub (st : bin_substates) : Prop :=
  match st with
  | bin_reading_set_header | bin_read_set_value | bin_reading_get_key | bin_reading_touch_key | bin_reading_del_header | bin_reading_incr_header
  | bin_read_flush_exptime => True
  | _ => False
  end.
Record reading (b : bconn) : Prop := {
  rg_state : b_state b = conn_nread;
  rg_left : 0 <= b_rlbytes b;
  rg_sbytes : b_sbytes b <= 0;
  rg_in : (rcurr (b_rd b) + rbytes (b_rd b) <= rsize (b_rd b))%nat;
  rg_key : b_item b = 0 -> rcurr (b_rd b) = b_ritem b /\ (rcurr (b_rd b) + Z.to_nat (b_rlbytes b) <= rsize (b_rd b))%nat;
  rg_sub : plain_sub (b_sub b);
  rg_item : b_item b <> 0 <-> b_sub b = bin_read_set_value;
  rg_value : b_sub b = bin_reading_set_header -> 0 <= value_len b < 2 ^ 31;
  rg_append : b_sub b = bin_reading_set_header -> cmd_code (b_cmd b) = Op.APPEND \/ cmd_code (b_cmd b) = Op.PREPEND -> extlen (b_hdr b) = 0
}.

(** What a turn takes out of the buffer and from the socket. *)
Definition from_buf (b : bconn) : nat := Nat.min (rbytes (b_rd b)) (Z.to_nat (b_rlbytes b)).
Definition from_sock (bs : list Z) (b : bconn) : nat := Nat.min (length bs) (Z.to_nat (b_rlbytes b) - from_buf b).

Lemma buffered_turn b s b' s' : reading b -> nread_buffered b s = (b', s') ->
  reading b' /\ pending (b_rd b') = drop (from_buf b) (pending (b_rd b)) /\ b_rlbytes b' = b_rlbytes b - Z.of_nat (from_buf b) /\
  rbytes (b_rd b') = (rbytes (b_rd b) - from_buf b)%nat /\ rbuf (b_rd b') = rbuf (b_rd b) /\ rcurr (b_rd b') = (rcurr (b_rd b) + from_buf b)%nat /\
  b_sub b' = b_sub b /\ b_hdr b' = b_hdr b /\ b_item b' = b_item b /\ b_cmd b' = b_cmd b.
Proof.
  intros Hr. unfold nread_buffered. fold (from_buf b). pose proof (rg_in _ Hr) as Hin. pose proof (rg_left _ Hr).
  destruct (0 <? rbytes (b_rd b))%nat eqn:E0.
  2:{ intros E. injection E as <- <-. assert (from_buf b = 0)%nat as -> by (unfold from_buf; zbool; lia). rewrite drop_0, Nat.sub_0_r, Nat.add_0_r. split_and!; try done. lia. }
  assert (take (from_buf b) (pending (b_rd b)) = slice (rcurr (b_rd b)) (from_buf b) (rbuf (b_rd b))) as Et.
  { unfold pending, slice. rewrite take_take. f_equal. unfold from_buf. lia. }
  assert (length (take (from_buf b) (pending (b_rd b))) = from_buf b) as El by (rewrite length_take, pending_length by done; unfold from_buf; lia).
  assert (forall l, pending {| rbuf := rbuf (b_rd b); rcurr := rcurr (b_rd b) + from_buf b; rbytes := rbytes (b_rd b) - from_buf b |} = l <-> drop (from_buf b) (pending (b_rd b)) = l) as Hp.
  { intros l. unfold pending, slice. cbn [rbuf rcurr rbytes]. by rewrite skipn_firstn_comm, drop_drop. }
  assert (from_buf b <= rbytes (b_rd b))%nat as Hf1 by (unfold from_buf; lia). assert (Z.of_nat (from_buf b) <= b_rlbytes b) as Hf2 by (unfold from_buf; lia).
  unfold bin_into. rewrite El. destruct (b_item b =? 0) eqn:Ei; intros E; injection E as <- <-.
  - zbool. destruct (rg_key _ Hr Ei) as [Hk1 Hk2]. rewrite Et, <- Hk1, write_same by (unfold rsize in *; lia).
    split; [|by split_and!; cbn; (done || apply Hp)]. destruct Hr. split; cbn; unfold rsize in *; try done; try lia.
  - split; [|by split_and!; cbn; (done || apply Hp)]. zbool. destruct Hr. split; cbn; unfold rsize in *; try done; try lia.
Qed.
Lemma received_turn bs b s b' s' : reading b -> rbytes (b_rd b) = 0%nat -> (length bs <= Z.to_nat (b_rlbytes b))%nat -> nread_received bs b s = (b', s') ->
  reading b' /\ pending (b_rd b') = [] /\ b_rlbytes b' = b_rlbytes b - Z.of_nat (length bs) /\
  (b_item b = 0 -> rcurr (b_rd b') = (rcurr (b_rd b) + length bs)%nat /\ rbuf (b_rd b') = write (rcurr (b_rd b)) bs (rbuf (b_rd b))) /\
  b_sub b' = b_sub b /\ b_hdr b' = b_hdr b /\ b_item b' = b_item b /\ b_cmd b' = b_cmd b.
Proof.
  intros Hr H0 Hl. pose proof (rg_left _ Hr). pose proof (rg_in _ Hr) as Hin. unfold nread_received, bin_into. destruct (b_item b =? 0) eqn:Ei; cbn [andb].
  - zbool. destruct (rg_key _ Hr Ei) as [Hk1 Hk2]. rewrite Hk1, Nat.eqb_refl. intros E. injection E as <- <-.
    assert (length (write (b_ritem b) bs (rbuf (b_rd b))) = length (rbuf (b_rd b))) as El by (apply length_write; unfold rsize in *; lia).
    split.
    + destruct Hr. split; cbn; unfold rsize in *; cbn; rewrite ?El; try done; try lia.
    + split_and!; try done. unfold pending. cbn. rewrite H0. done.
  - intros E. injection E as <- <-. zbool. split.
    + destruct Hr. split; cbn; unfold rsize in *; try done; try lia.
    + split_and!; try done. unfold pending. cbn. rewrite H0. done.
Qed.

Section turns.
Context (hash : list Z -> Z) (nchunks : nat) (copy_chunks : nread -> Z -> Z -> Z -> server -> option server).
Context (process_started : Z) (oom : nat -> bool) (a : alloc_env) (room : option nat) (flush_enabled : bool).
Context (stat sasl : bconn -> server -> option (bconn * server)).
Abbreviation nread_turn set := (bin_nread set hash nchunks copy_chunks process_started oom a room flush_enabled stat sasl).

(** The end of extras and key, or of the value. *)
Lemma complete_turn set b s b' st s' : reading b -> b_rlbytes b = 0 ->
  complete_nread_binary set hash nchunks copy_chunks process_started oom a room flush_enabled stat sasl b s = Some (b', st, s') ->
  body_left b' = body_left b /\ b_rd b' = b_rd b /\ (b_state b' = conn_nread -> reading b').
Proof.
  intros Hr H0 H. unfold complete_nread_binary in H. pose proof (rg_sub _ Hr) as Hs. pose proof (rg_state _ Hr) as Hst.
  assert (forall b1, finished b b1 -> b_sub b <> bin_reading_set_header -> body_left b1 = body_left b /\ b_rd b1 = b_rd b /\ (b_state b1 = conn_nread -> reading b1)) as Hfin.
  { intros b1 (F1 & F2 & F3 & F4 & F5) Hns. split_and!; [|done|done]. rewrite F1. unfold body_left. rewrite Hst, H0. by destruct (b_sub b). }
  assert (forall b1, awaits (value_len b) b b1 -> b_sub b = bin_reading_set_header ->
    body_left b1 = body_left b /\ b_rd b1 = b_rd b /\ (b_state b1 = conn_nread -> reading b1)) as Haw.
  { intros b1 (F1 & F2 & F3 & F4) Hns. split_and!; [|done|].
    - rewrite F1. unfold body_left. by rewrite Hst, H0, Hns.
    - intros Hn. destruct (F4 Hn) as (G1 & G2 & G3 & G4). destruct (rg_value _ Hr Hns). pose proof (rg_in _ Hr). pose proof (rg_sbytes _ Hr).
      split; rewrite ?F2, ?G1, ?G3, ?G4; try done; try lia. }
  pose proof (rg_sbytes _ Hr) as Hsb. destruct (b_sub b) eqn:Esub; try done; returns H.
  - apply Haw; [|done]. eapply append_awaits; [by apply (rg_value _ Hr)|apply (rg_append _ Hr); [done|]|done|done]. apply orb_true_iff in E as [E|E]; zbool; auto.
  - apply Haw; [|done]. eapply update_awaits; [by apply (rg_value _ Hr)|done|done].
  - apply Hfin; [by eapply stored_finished|done].
  - apply Hfin; [by eapply get_finished|done].
  - apply Hfin; [by eapply delete_finished|done].
  - apply Hfin; [by eapply incr_finished|done].
  - apply Hfin; [by eapply flush_finished|done].
  - apply Hfin; [by eapply get_finished|done].
Qed.

(** One turn: what it takes is what is no longer left. *)
Lemma turn_takes set bs b s b' st s' : reading b -> nread_turn set bs b s = Some (b', st, s') ->
  pending (b_rd b') = drop (from_buf b) (pending (b_rd b)) /\ (b_state b' = conn_nread -> reading b') /\
  forall l, body_left b' = Some l -> body_left b = Some (l + Z.of_nat (from_buf b) + Z.of_nat (from_sock bs b)).
Proof.
  intros Hr H. unfold bin_nread in H. pose proof (rg_left _ Hr). destruct (b_rlbytes b =? 0) eqn:E0.
  { zbool. apply (complete_turn set b s b' st s' Hr E0) in H as (H1 & H2 & H3). assert (from_buf b = 0)%nat as -> by (unfold from_buf; lia).
    assert (from_sock bs b = 0)%nat as -> by (unfold from_sock; lia). rewrite H2, drop_0. split_and!; try done. intros l Hl. rewrite <- H1, Hl. f_equal. lia. }
  zbool. rewrite (proj2 (Z.ltb_ge _ _)) in H by lia. destruct (negb _ && _); [done|]. destruct (nread_buffered b s) as [b1 s1] eqn:E1.
  destruct (buffered_turn b s b1 s1 Hr E1) as (R1 & P1 & L1 & B1 & _ & _ & S1 & H1 & I1 & C1).
  assert (forall b2 n, reading b2 -> b_rlbytes b2 = b_rlbytes b - Z.of_nat (from_buf b) - n -> b_sub b2 = b_sub b -> b_hdr b2 = b_hdr b -> forall l, body_left b2 = Some l -> body_left b = Some (l + Z.of_nat (from_buf b) + n)) as Hleft.
  { intros b2 n R2 E2 S2 H2 l. unfold body_left, value_len. rewrite (rg_state _ R2), (rg_state _ Hr), E2, S2, H2. intros E. injection E as <-. f_equal. lia. }
  destruct (b_rlbytes b1 =? 0) eqn:E2.
  - injection H as <- <- <-. zbool. assert (from_sock bs b = 0)%nat as -> by (unfold from_sock; lia). split_and!; try done. apply Hleft; try done. lia.
  - zbool. assert (rbytes (b_rd b1) = 0)%nat as Hb0 by (rewrite B1; unfold from_buf in *; lia).
    destruct (nread_received _ b1 s1) as [b2 s2] eqn:E3. injection H as <- <- <-.
    apply received_turn in E3 as (R2 & P2 & L2 & _ & S2 & H2 & I2 & C2); [|done|done|rewrite length_take; lia].
    rewrite length_take in L2. assert (Nat.min (Z.to_nat (b_rlbytes b1)) (length bs) = from_sock bs b) as Em by (unfold from_sock; lia). rewrite Em in L2.
    split_and!; [|done|apply Hleft; try congruence; lia]. rewrite P2, drop_ge; [done|]. rewrite pending_length by apply (rg_in _ Hr). lia.
Qed.
End turns.

(** ** From the header to the key *)

Lemma double_until_spec fuel size n : (0 < n)%nat -> (size <= n + fuel)%nat ->
  (n <= double_until fuel size n)%nat /\ (size <= double_until fuel size n)%nat /\ (double_until fuel size n = n -> size <= n)%nat.
Proof.
  revert n. induction fuel as [|fuel IH]; intros n Hn Hs; cbn [double_until]; [lia|].
  destruct (n <? size)%nat eqn:E; zbool; [|lia]. destruct (IH (2 * n)%nat) as (H1 & H2 & H3); lia.
Qed.
(** The bytes just taken, which are still in the buffer. *)
Definition behind (w : list Z) (r : reader) : Prop := (length w <= rcurr r)%nat /\ slice (rcurr r - length w) (length w) (rbuf r) = w.
Lemma pending_more r n : (rcurr r + rbytes r <= rsize r)%nat -> pending {| rbuf := rbuf r ++ replicate n 0; rcurr := rcurr r; rbytes := rbytes r |} = pending r.
Proof. intros H. unfold pending. cbn. apply slice_app_l. exact H. Qed.
Lemma behind_header r : buf_ok r -> (HEADER_SIZE <= rbytes r)%nat -> behind (take HEADER_SIZE (pending r)) (consume HEADER_SIZE r).
Proof.
  intros Hb Hn. unfold behind. cbn [consume rcurr rbuf]. rewrite length_take, (length_pending _ Hb), Nat.min_l by done. split; [lia|].
  replace (rcurr r + HEADER_SIZE - HEADER_SIZE)%nat with (rcurr r) by lia. unfold pending, slice. rewrite take_take. f_equal. lia.
Qed.

(** The connection after [bin_read_key], when the header is taken. *)
Definition keyed (next : bin_substates) (extra : Z) (b b' : bconn) : Prop :=
  b_state b' = conn_closing /\ b_rd b' = b_rd b \/
  exists r o, b' = b_with_state conn_nread (b_with_rd r (rcurr r + HEADER_SIZE) (b_with_sub next (b_with_item (b_item b) (keylen (b_hdr b) + extra) (b_with_out o b)))) /\
    pending r = pending (b_rd b) /\ buf_ok r /\ rbytes r = rbytes (b_rd b) /\ (rcurr r + HEADER_SIZE + Z.to_nat (keylen (b_hdr b) + extra) <= rsize r)%nat.
Lemma same_out b : b_with_out (b_out b) b = b.
Proof. by destruct b. Qed.
Lemma key_read oom next extra b : buf_ok (b_rd b) -> 0 <= keylen (b_hdr b) + extra -> keyed next extra b (bin_read_key oom next extra b).
Proof.
  intros Hb Hn. unfold bin_read_key. cbv zeta. destruct (_ <? _) eqn:E; zbool.
  2:{ right. exists (b_rd b), (b_out b). split; [by rewrite same_out|]. split_and!; try done. lia. }
  destruct Hb as [Hb1 Hb2]. match goal with |- context [double_until ?f ?sz ?n] => destruct (double_until_spec f sz n) as (D1 & D2 & D3); [done|lia|]; set (size := sz) in *; set (ns := double_until size size n) in * end.
  destruct (ns =? rsize (b_rd b))%nat eqn:En; zbool.
  - right. destruct (pending_compact (b_rd b) (conj Hb1 Hb2)) as (P1 & P2 & P3 & P4 & P5). exists (compact (b_rd b)), (b_out b). split; [by rewrite same_out|].
    rewrite P3, P5. split_and!; try done. specialize (D3 En). unfold size in *. lia.
  - destruct (oom _); [by left|]. right.
    match goal with |- context [compact ?r0] => set (r1 := r0); assert (buf_ok r1) as H1 by (unfold r1, buf_ok, rsize in *; cbn; rewrite length_app, length_replicate; lia) end.
    assert (rsize r1 = ns) as Hs by (unfold r1, rsize in *; cbn; rewrite length_app, length_replicate; lia).
    destruct (pending_compact r1 H1) as (P1 & P2 & P3 & P4 & P5). exists (compact r1). eexists. split; [reflexivity|].
    rewrite P1, P3, P4, P5, Hs. split_and!; try done; [by apply pending_more|]. unfold size in *. lia.
Qed.

(** Requests whose length the server checks.  [STAT] and the SASL commands are not modelled;
    the length of a touch is not checked. *)
Definition touches (op : Z) : bool := (op =? Op.TOUCH) || (op =? Op.GAT) || (op =? Op.GATQ) || (op =? Op.GATK) || (op =? Op.GATKQ).
Definition length_checked (h : bin_header) : Prop :=
  opcode h <> Op.STAT /\ opcode h <> Op.SASL_LIST_MECHS /\ opcode h <> Op.SASL_AUTH /\ opcode h <> Op.SASL_STEP /\
  (touches (opcode h) = true -> bodylen h = keylen h + 4) /\ 0 <= keylen h /\ 0 <= extlen h /\ 0 <= bodylen h < 2 ^ 31.

(** What a command leaves when its header is taken. *)
Definition header_taken (b : bconn) : bconn := b_with_rd (consume HEADER_SIZE (b_rd b)) (b_ritem b) b.
Definition command_left (b b' : bconn) : Prop :=
  pending (b_rd b') = pending (b_rd b) /\
  (b_state b' = conn_nread -> reading (header_taken b') /\ buf_ok (b_rd b') /\ rbytes (b_rd b') = rbytes (b_rd b) /\ b_item b' = 0 /\ b_hdr b' = b_hdr b) /\
  forall l, body_left b' = Some l -> l = bodylen (b_hdr b).

Record fresh (b : bconn) : Prop := {
  fr_buf : buf_ok (b_rd b);
  fr_head : (HEADER_SIZE <= rbytes (b_rd b))%nat;
  fr_item : b_item b = 0;
  fr_sbytes : b_sbytes b <= 0
}.

Lemma answered_left b b' : answered b b' -> bodylen (b_hdr b) = 0 -> command_left b b'.
Proof. intros [[o ->]| ->] H; (split; [done|]; split; [done|]); unfold body_left; cbn; intros l E; injection E as <-; done. Qed.
Lemma closed_left b b' : body_left b' = None -> b_rd b' = b_rd b -> b_state b' <> conn_nread -> command_left b b'.
Proof. intros H1 H2 H3. split; [by rewrite H2|]. split; [done|]. intros l Hl. congruence. Qed.
Lemma protocol_left oom b b' : handle_binary_protocol_error oom b = Some b' -> command_left b b'.
Proof.
  intros H. destruct (protocol_error_closes _ _ _ H) as [H1 H2]. apply closed_left; try done. unfold handle_binary_protocol_error in H. returns H.
  apply error_shape in E as [o ->]. done.
Qed.
Lemma keyed_left next extra b b' : fresh b -> keyed next extra b b' -> plain_sub next -> next <> bin_read_set_value -> 0 <= keylen (b_hdr b) -> 0 <= extra ->
  bodylen (b_hdr b) < 2 ^ 31 -> bodylen (b_hdr b) = keylen (b_hdr b) + extra + match next with bin_reading_set_header => value_len b | _ => 0 end ->
  (next = bin_reading_set_header -> 0 <= value_len b) ->
  (next = bin_reading_set_header -> cmd_code (b_cmd b) = Op.APPEND \/ cmd_code (b_cmd b) = Op.PREPEND -> extlen (b_hdr b) = 0) -> command_left b b'.
Proof.
  intros F [[Hc Hi]|(r & o & -> & P & Hb & Hn & Hr)] Hp Hv H0 H1 H2 Hlen Hval Happ.
  - apply closed_left; unfold body_left; rewrite ?Hc; try done.
  - destruct F as [F1 F2 F3 F4]. set (n := keylen (b_hdr b) + extra) in *. split; [done|]. split.
    + intros _. split_and!; try done. destruct Hb as [Hb1 Hb2].
      split; cbn; unfold rsize in *; try done; try lia. intros ->. specialize (Hval eq_refl). change (0 <= value_len b < 2 ^ 31). lia.
    + intros l. unfold body_left. cbn. unfold value_len in *. cbn. intros E. injection E as <-. lia.
Qed.

Section dispatch.
Context (hash : list Z -> Z) (nchunks : nat) (copy_chunks : nread -> Z -> Z -> Z -> server -> option server).
Context (process_started : Z) (version : list Z) (oom : nat -> bool) (a : alloc_env) (room : option nat) (use_sasl authed flush_enabled : bool).
Context (stat sasl : bconn -> server -> option (bconn * server)).

Lemma loud_range op c : loud op = Some c -> c <> Op.STAT /\ c <> Op.SASL_LIST_MECHS /\ c <> Op.SASL_AUTH /\ c <> Op.SASL_STEP /\ (touches c = true -> touches op = true).
Proof. unfold loud. intros H. repeat (case_match; [injection H as <-; zbool; subst; done|]). done. Qed.
Lemma unknown_left b b' : bin_error oom UNKNOWN_COMMAND (s32 (bodylen (b_hdr b))) b = Some b' -> 0 <= bodylen (b_hdr b) < 2 ^ 31 -> b_sbytes b <= 0 -> command_left b b'.
Proof.
  intros H Hl Hs. rewrite s32_id in H by lia. apply error_shape in H as [o ->]. split; [done|]. split; [done|]. unfold body_left. cbn.
  destruct (0 <? bodylen (b_hdr b)) eqn:E; zbool; intros l El; injection El as <-; lia.
Qed.
Lemma quit_left b b' : (b1 ← write_bin_response oom [] 0 0 b; let b1 := b_with_go conn_closing (b_sbytes b1) b1 in Some (if b_noreply b1 then b_with_state conn_closing b1 else b1)) = Some b' ->
  bodylen (b_hdr b) = 0 -> command_left b b'.
Proof.
  intros H H0. returns H. apply response_shape in E as [[o ->]| ->]; cbn [b_noreply b_with_go b_with_state b_with_out]; (split; [by destruct (b_noreply b)|]);
    (split; [by destruct (b_noreply b)|]); destruct (b_noreply b); unfold body_left; cbn; intros l El; by inversion El.
Qed.
Lemma dispatch_left cmd b s b' s' : fresh b -> length_checked (b_hdr b) -> cmd_code (b_cmd b) = cmd -> cmd = default (opcode (b_hdr b)) (loud (opcode (b_hdr b))) ->
  keylen (b_hdr b) + extlen (b_hdr b) <= bodylen (b_hdr b) ->
  dispatch_command version oom sasl cmd b s = Some (b', s') -> command_left b b'.
Proof.
  intros F (N1 & N2 & N3 & N4 & Ht & Hk & He & Hl) Ec Eop Hlen H. unfold dispatch_command in H. cbv zeta in H.
  assert (forall c r b1 s1, (if c : bool then b2 ← r; Some (b2, s) else b2 ← handle_binary_protocol_error oom b; Some (b2, s)) = Some (b1, s1) ->
    (forall b1, c = true -> r = Some b1 -> command_left b b1) -> command_left b b1) as Hcheck.
  { intros c r b1 s1 E Hc. destruct c; returns E; [by apply Hc|by eapply protocol_left]. }
  assert (forall c next extra b1 s1, (if c : bool then b2 ← Some (bin_read_key oom next extra b); Some (b2, s) else b2 ← handle_binary_protocol_error oom b; Some (b2, s)) = Some (b1, s1) ->
    plain_sub next -> next <> bin_read_set_value ->
    (c = true -> 0 <= extra /\ bodylen (b_hdr b) = keylen (b_hdr b) + extra + match next with bin_reading_set_header => value_len b | _ => 0 end /\
       (next = bin_reading_set_header -> 0 <= value_len b) /\
       (next = bin_reading_set_header -> cmd_code (b_cmd b) = Op.APPEND \/ cmd_code (b_cmd b) = Op.PREPEND -> extlen (b_hdr b) = 0)) -> command_left b b1) as Hkey.
  { intros c next extra b1 s1 E Hp Hv Hc. apply (Hcheck _ _ _ _ E). intros b2 Ecc Eb. injection Eb as <-. destruct (Hc Ecc) as (C1 & C2 & C3 & C4).
    eapply keyed_left; try done; try lia. apply key_read; [by apply F|lia]. }
  assert (cmd <> Op.STAT /\ cmd <> Op.SASL_LIST_MECHS /\ cmd <> Op.SASL_AUTH /\ cmd <> Op.SASL_STEP /\ (touches cmd = true -> touches (opcode (b_hdr b)) = true)) as (M1 & M2 & M3 & M4 & M5).
  { destruct (loud (opcode (b_hdr b))) as [c|] eqn:Eloud; cbn in Eop; subst cmd; rewrite Eop; [by apply loud_range|done]. }
  assert (0 <= bodylen (b_hdr b) < 2 ^ 31) as Hb by lia. clear Eop. unfold value_len in *.
  repeat match type of H with
  | (if ?c then if _ then _ else _ else _) = Some _ => let E := fresh "E" in destruct c eqn:E
  end.
  all: clear N1 N2 N3 N4.
  - apply (Hcheck _ _ _ _ H). intros b1 Hc Hw. zbool. apply answered_left; [by eapply response_shape|done].
  - apply (Hkey _ _ _ _ _ H); [done|done|]. intros Hc. clear - Hc Hk He Hlen. zbool. split_and!; [lia|lia|done|done].
  - apply (Hcheck _ _ _ _ H). intros b1 Hc Hw. zbool. apply answered_left; [by eapply response_shape|done].
  - apply (Hkey _ _ _ _ _ H); [done|done|]. intros Hc. assert (cmd <> Op.APPEND /\ cmd <> Op.PREPEND) as [] by (clear - E2; split; intros ->; done).
    clear E E0 E1 E2. zbool. split_and!; [lia|lia|intros _; lia|]. intros _ Hcmd. rewrite Ec in Hcmd. by destruct Hcmd.
  - apply (Hkey _ _ _ _ _ H); [done|done|]. intros Hc. clear - Hc Hk He Hlen. zbool. split_and!; [lia|lia|done|done].
  - apply (Hkey _ _ _ _ _ H); [done|done|]. intros Hc. clear - Hc Hk He Hlen. zbool. split_and!; [lia|lia|done|done].
  - apply (Hkey _ _ _ _ _ H); [done|done|]. intros Hc. clear - Hc Hk He Hlen. zbool. split_and!; [lia|lia|done|done].
  - apply (Hkey _ _ _ _ _ H); [done|done|]. intros Hc. clear - Hc Hk He Hlen. zbool. split_and!; [lia|lia|intros _; lia|done].
  - zbool. done.
  - apply (Hcheck _ _ _ _ H). intros b1 Hc Hw. zbool. by apply quit_left.
  - zbool. done.
  - apply orb_true_iff in E10 as [E10%Z.eqb_eq|E10%Z.eqb_eq]; [by destruct M3|by destruct M4].
  - apply (Hkey _ _ _ _ _ H); [done|done|]. intros Hc. rewrite (Ht (M5 E11)). clear - Hk. split_and!; [lia|lia|done|done].
  - returns H. apply unknown_left; [done|done|by apply F].
Qed.

Lemma dispatch_bin_left b s b' s' : fresh b -> length_checked (b_hdr b) -> cmd_code (b_cmd b) = opcode (b_hdr b) ->
  dispatch_bin_command version oom use_sasl authed sasl b s = Some (b', s') -> command_left b b'.
Proof.
  intros F L Ec H. unfold dispatch_bin_command in H. cbv zeta in H. returns H.
  - match goal with E : bin_error _ _ _ _ = Some _ |- _ => apply error_shape in E as [o ->] end. by apply closed_left.
  - match goal with E : bin_error _ _ _ _ = Some _ |- _ => apply error_shape in E as [o ->] end. by apply closed_left.
  - by match goal with E : handle_binary_protocol_error _ _ = Some _ |- _ => apply protocol_left in E end.
  - match goal with E : (_ <? _) || _ = false |- _ => apply orb_false_iff in E as [_ ?%Z.ltb_ge] end. rewrite Ec in H.
    destruct (loud (opcode (b_hdr b))) as [c|] eqn:El.
    + eapply (dispatch_left c (b_with_cmd (Opcode c) true b) s b' s'); try done; [by destruct F|]. cbn. by rewrite El.
    + eapply (dispatch_left (opcode (b_hdr b)) (b_with_cmd (Opcode (opcode (b_hdr b))) false b) s b' s'); try done; [by destruct F|]. cbn. by rewrite El.
Qed.

(** A command whose header is in the buffer.  The header is kept behind the position, for
    the handler. *)
Lemma command_taken b s b' s' : fresh b -> length_checked (decode_header (pending (b_rd b))) ->
  try_read_command_binary version oom use_sasl authed sasl b s = Some (1, b', s') ->
  pending (b_rd b') = drop HEADER_SIZE (pending (b_rd b)) /\
  (b_state b' = conn_nread -> reading b' /\ behind (take HEADER_SIZE (pending (b_rd b))) (b_rd b') /\ b_item b' = 0 /\ b_hdr b' = decode_header (pending (b_rd b))) /\
  forall l, body_left b' = Some l -> l = bodylen (decode_header (pending (b_rd b))).
Proof.
  intros F L H. unfold try_read_command_binary in H. cbv zeta in H. returns H; try done. set (h := decode_header (pending (b_rd b))) in *.
  match goal with E : dispatch_bin_command _ _ _ _ _ ?b1 _ = Some _ |- _ => set (b2 := b1) in E; apply dispatch_bin_left in E as (D1 & D2 & D3); [|by destruct F|done|done] end.
  change (b_rd b2) with (b_rd b) in *. change (b_hdr b2) with h in *. split; [cbn [b_rd b_with_rd]; by rewrite pending_consume, D1|]. split; [|exact D3].
  intros Hn. destruct (D2 Hn) as (R1 & R2 & R3 & R4 & R5). split_and!; try done. rewrite <- D1. apply behind_header; [done|]. rewrite R3. apply F.
Qed.
End dispatch.

(** ** The request as the handler finds it *)

Lemma slice_cut off n m (l : list Z) : slice off (n + m) l = slice off n l ++ slice (off + n) m l.
Proof. unfold slice. rewrite <- (take_drop n (take (n + m) (drop off l))), take_take, Nat.min_l by lia. f_equal. rewrite skipn_firstn_comm, drop_drop. f_equal. lia. Qed.
Lemma take_plus n m (l : list Z) : take (n + m) l = take n l ++ take m (drop n l).
Proof. exact (slice_cut 0 n m l). Qed.
Lemma behind_buffer w r n : behind w r -> (n <= rbytes r)%nat -> (rcurr r + rbytes r <= rsize r)%nat ->
  forall r', rbuf r' = rbuf r -> rcurr r' = (rcurr r + n)%nat -> behind (w ++ take n (pending r)) r'.
Proof.
  intros [H1 H2] Hn Hin r' Eb Ec. unfold behind. rewrite Eb, Ec. assert (length (take n (pending r)) = n) as El by (rewrite length_take, pending_length; lia).
  rewrite length_app, El. split; [lia|]. replace (rcurr r + n - (length w + n))%nat with (rcurr r - length w)%nat by lia. rewrite slice_cut, H2. f_equal.
  replace (rcurr r - length w + length w)%nat with (rcurr r) by lia. unfold pending, slice. rewrite take_take. f_equal. lia.
Qed.
Lemma behind_socket w r bs : behind w r -> (rcurr r + length bs <= rsize r)%nat ->
  forall r', rbuf r' = write (rcurr r) bs (rbuf r) -> rcurr r' = (rcurr r + length bs)%nat -> behind (w ++ bs) r'.
Proof.
  intros [H1 H2] Hn r' Eb Ec. unfold behind, rsize in *. rewrite Eb, Ec, length_app. split; [lia|].
  replace (rcurr r + length bs - (length w + length bs))%nat with (rcurr r - length w)%nat by lia. rewrite slice_cut. f_equal.
  - rewrite <- H2 at 3. unfold slice, write. rewrite drop_app_le by (rewrite length_take; lia). rewrite take_app_le by (rewrite length_drop, length_take; lia).
    rewrite skipn_firstn_comm, take_take. f_equal. lia.
  - replace (rcurr r - length w + length w)%nat with (rcurr r) by lia. apply slice_write_same. lia.
Qed.

Section requests.
Context (hash : list Z -> Z) (nchunks : nat) (copy_chunks : nread -> Z -> Z -> Z -> server -> option server).
Context (process_started : Z) (version : list Z) (oom : nat -> bool) (a : alloc_env) (room : option nat) (use_sasl authed flush_enabled : bool).
Context (stat sasl : bconn -> server -> option (bconn * server)).
Abbreviation nread_turn set := (bin_nread set hash nchunks copy_chunks process_started oom a room flush_enabled stat sasl).

Lemma turn_keeps set bs b s b' st s' w : reading b -> nread_turn set bs b s = Some (b', st, s') -> behind w (b_rd b) -> b_item b = 0 ->
  behind (w ++ take (from_buf b) (pending (b_rd b)) ++ take (from_sock bs b) bs) (b_rd b').
Proof.
  intros Hr H Hw Hi. unfold bin_nread in H. pose proof (rg_left _ Hr). pose proof (rg_in _ Hr) as Hin. destruct (b_rlbytes b =? 0) eqn:E0.
  { zbool. apply complete_turn in H as (H1 & H2 & H3); [|done|done]. assert (from_buf b = 0)%nat as -> by (unfold from_buf; lia).
    assert (from_sock bs b = 0)%nat as -> by (unfold from_sock; lia). by rewrite H2, !take_0, app_nil_r. }
  zbool. rewrite (proj2 (Z.ltb_ge _ _)) in H by lia. rewrite Hi in H. cbn [Z.eqb negb andb] in H. destruct (nread_buffered b s) as [b1 s1] eqn:E1.
  destruct (buffered_turn b s b1 s1 Hr E1) as (R1 & P1 & L1 & B1 & Eb & Ec & S1 & H1 & I1 & C1).
  assert (behind (w ++ take (from_buf b) (pending (b_rd b))) (b_rd b1)) as Hw1 by (eapply behind_buffer; try done; unfold from_buf; lia).
  destruct (b_rlbytes b1 =? 0) eqn:E2.
  - injection H as <- <- <-. zbool. assert (from_sock bs b = 0)%nat as -> by (unfold from_sock; lia). by rewrite take_0, app_nil_r.
  - zbool. assert (rbytes (b_rd b1) = 0)%nat as Hb0 by (rewrite B1; unfold from_buf in *; lia).
    destruct (nread_received _ b1 s1) as [b2 s2] eqn:E3. injection H as <- <- <-.
    apply received_turn in E3 as (R2 & P2 & L2 & Ew & _); [|done|done|rewrite length_take; lia]. rewrite I1 in Ew. destruct (Ew Hi) as [Ec2 Eb2].
    assert (take (from_sock bs b) bs = take (Z.to_nat (b_rlbytes b1)) bs) as ->.
    { unfold from_sock. rewrite L1. destruct (decide (length bs <= Z.to_nat (b_rlbytes b - Z.of_nat (from_buf b)))%nat); [rewrite !take_ge by lia; done|f_equal; lia]. }
    rewrite app_assoc. eapply behind_socket; try done. destruct (rg_key _ R1) as [_ Hk]; [by rewrite I1|]. rewrite length_take. lia.
Qed.

Lemma turn_item set bs b s b' st s' : reading b -> nread_turn set bs b s = Some (b', st, s') -> b_item b <> 0 -> b_state b' = conn_nread -> b_item b' <> 0.
Proof.
  intros Hr H Hi Hn. unfold bin_nread in H. pose proof (rg_left _ Hr). destruct (b_rlbytes b =? 0) eqn:E0.
  { unfold complete_nread_binary in H. rewrite (proj1 (rg_item _ Hr) Hi) in H. returns H. apply stored_finished in E as (_ & _ & _ & _ & Hs). done. }
  zbool. rewrite (proj2 (Z.ltb_ge _ _)) in H by lia. destruct (negb _ && _); [done|]. destruct (nread_buffered b s) as [b1 s1] eqn:E1.
  destruct (buffered_turn b s b1 s1 Hr E1) as (R1 & P1 & L1 & B1 & _ & _ & S1 & H1 & I1 & C1). destruct (b_rlbytes b1 =? 0) eqn:E2; [injection H as <- <- <-; congruence|].
  destruct (nread_received _ b1 s1) as [b2 s2] eqn:E3. injection H as <- <- <-. zbool.
  apply received_turn in E3 as (_ & _ & _ & _ & _ & _ & I2 & _); [congruence|done|rewrite B1; unfold from_buf in *; lia|rewrite length_take; lia].
Qed.

(** Turns of [conn_nread], for any sizes of the pieces the socket gives. *)
Inductive reads : item_settings -> bconn -> server -> list Z -> item_settings -> bconn -> server -> list Z -> Prop :=
| reads_done set b s net : reads set b s net set b s net
| reads_turn n set b s net b1 set1 s1 set2 b2 s2 net2 : b_state b = conn_nread -> nread_turn set (take n net) b s = Some (b1, set1, s1) ->
    reads set1 b1 s1 (drop (from_sock (take n net) b) net) set2 b2 s2 net2 -> reads set b s net set2 b2 s2 net2.

(** [W] is the stream from the header of the request on; [t] bytes of it are taken. *)
Record in_request (W net : list Z) (h : bin_header) (t : nat) (b : bconn) : Prop := {
  iq_stream : pending (b_rd b) ++ net = drop t W;
  iq_taken : (t <= length W)%nat;
  iq_reading : b_state b = conn_nread -> reading b;
  iq_behind : b_state b = conn_nread -> b_item b = 0 -> behind (take t W) (b_rd b);
  iq_left : forall l, body_left b = Some l -> l = Z.of_nat HEADER_SIZE + bodylen h - Z.of_nat t
}.
Lemma turn_in_request W net h t n set b s b' st s' : in_request W net h t b -> b_state b = conn_nread -> nread_turn set (take n net) b s = Some (b', st, s') ->
  in_request W (drop (from_sock (take n net) b) net) h (t + from_buf b + from_sock (take n net) b) b'.
Proof.
  intros [Q1 Q2 Q3 Q4 Q5] Hst H. specialize (Q3 Hst). pose proof H as (T1 & T2 & T3)%turn_takes; [|done].
  set (f := from_buf b) in *. set (g := from_sock (take n net) b) in *. pose proof (rg_in _ Q3) as Hin. pose proof (pending_length _ Hin) as Hl.
  assert (f <= rbytes (b_rd b))%nat as Hf by (unfold f, from_buf; lia). assert (g <= length (take n net))%nat as Hg by (unfold g, from_sock; lia). rewrite length_take in Hg.
  assert (take g (take n net) = take g net) as Eg by (rewrite take_take; f_equal; lia).
  assert (g = 0 \/ f = rbytes (b_rd b))%nat as Hfg by (unfold g, f, from_sock, from_buf in *; lia).
  assert (drop f (pending (b_rd b)) ++ drop g net = drop (f + g) (pending (b_rd b) ++ net)) as Ed.
  { destruct Hfg as [-> | ->]; [rewrite drop_0, Nat.add_0_r, drop_app_le by lia; done|]. rewrite drop_ge, <- Hl, drop_app_add by lia. done. }
  assert (length (pending (b_rd b) ++ net) = length W - t)%nat as Hlen by (rewrite Q1, length_drop; done). rewrite length_app in Hlen.
  split; [| |done| |].
  - rewrite T1, Ed, Q1, drop_drop. f_equal. lia.
  - lia.
  - intros Hn Hi'. destruct (decide (b_item b = 0)) as [Hi|Hi]; [|by destruct (turn_item _ _ _ _ _ _ _ Q3 H Hi Hn)].
    pose proof (turn_keeps _ _ _ _ _ _ _ _ Q3 H (Q4 Hst Hi) Hi) as K. fold f g in K. rewrite Eg in K.
    replace (take (t + f + g) W) with (take t W ++ take f (pending (b_rd b)) ++ take g net); [done|].
    rewrite <- Nat.add_assoc, !take_plus, <- Q1. f_equal. rewrite (take_app_le _ net) by lia. f_equal.
    destruct Hfg as [-> | ->]; [done|]. by rewrite <- Hl, drop_app_length.
  - intros l Hl'. specialize (T3 l Hl'). apply Q5 in T3. lia.
Qed.
Lemma reads_in_request W h set b s net set2 b2 s2 net2 : reads set b s net set2 b2 s2 net2 -> forall t, in_request W net h t b ->
  exists t2, in_request W net2 h t2 b2.
Proof. induction 1 as [|n set b s net b1 set1 s1 set2 b2 s2 net2 Hst H R IH]; intros t Q; [by exists t|]. eapply IH. by eapply turn_in_request. Qed.

Lemma body_left_pos b l : (b_state b = conn_nread -> reading b) -> body_left b = Some l -> 0 <= l.
Proof.
  intros Hr. unfold body_left. destruct (b_state b) eqn:E; try (intros [= <-]; lia); try done.
  - destruct (Hr eq_refl) as [_ H1 _ _ _ _ _ H2 _]. intros [= <-]. destruct (b_sub b); try lia. specialize (H2 eq_refl). lia.
  - destruct (b_go b); try (intros [= <-]; lia); done.
Qed.
Lemma decode_header_app p q : (HEADER_SIZE <= length p)%nat -> decode_header (p ++ q) = decode_header p.
Proof.
  intros H. unfold HEADER_SIZE in H. unfold decode_header. rewrite !slice_app_l by lia. unfold byte_at. by rewrite !app_nth1 by lia.
Qed.
Lemma command_in_request b s net b1 s1 (W := pending (b_rd b) ++ net) : fresh b -> length_checked (decode_header (pending (b_rd b))) ->
  try_read_command_binary version oom use_sasl authed sasl b s = Some (1, b1, s1) -> in_request W net (decode_header (pending (b_rd b))) HEADER_SIZE b1.
Proof.
  intros F L H. apply command_taken in H as (C1 & C2 & C3); [|done|done]. pose proof (length_pending _ (fr_buf _ F)) as Hl. pose proof (fr_head _ F).
  split; [| |by intros []%C2| |].
  - rewrite C1. unfold W. by rewrite drop_app_le by lia.
  - unfold W. rewrite length_app. lia.
  - intros Hn Hi. destruct (C2 Hn) as (_ & Hb & _). unfold W. by rewrite take_app_le by lia.
  - intros l Hb. rewrite (C3 l Hb). lia.
Qed.

End requests.

(** ** Headers and their bytes *)

Lemma byte_range b : is_byte b -> 0 <= b < 256.
Proof. intros H. apply Is_true_true, andb_true_iff in H as [?%Z.leb_le ?%Z.ltb_lt]. done. Qed.
Lemma be_bound bs : Forall is_byte bs -> 0 <= be bs < 256 ^ Z.of_nat (length bs).
Proof.
  induction bs as [|b bs IH] using rev_ind; intros H; [done|]. apply Forall_app in H as [H1 H2%Forall_inv]. specialize (IH H1). rewrite be_snoc, length_app, Nat.add_comm.
  cbn [length Nat.add]. rewrite Nat2Z.inj_succ, Z.pow_succ_r by lia. apply byte_range in H2. lia.
Qed.
Lemma to_be_be bs : Forall is_byte bs -> to_be (length bs) (be bs) = bs.
Proof.
  induction bs as [|b bs IH] using rev_ind; intros H; [done|]. apply Forall_app in H as [H1 H2%Forall_inv%byte_range].
  rewrite length_app, Nat.add_comm. cbn [length Nat.add to_be]. rewrite be_snoc. f_equal; [|f_equal].
  - rewrite Z.mul_comm, Z.div_add_l, Z.div_small, Z.add_0_r by lia. exact (IH H1).
  - rewrite Z.mul_comm, Z.add_comm, Z_mod_plus_full. apply Z.mod_small. lia.
Qed.
(** The bytes of a request header, by name. *)
Lemma header_named (b : list Z) : length b = HEADER_SIZE -> exists m o k1 k2 e d r1 r2 l1 l2 l3 l4 q1 q2 q3 q4 c1 c2 c3 c4 c5 c6 c7 c8,
  b = [m; o; k1; k2; e; d; r1; r2; l1; l2; l3; l4; q1; q2; q3; q4; c1; c2; c3; c4; c5; c6; c7; c8].
Proof. intros H. unfold HEADER_SIZE in H. do 24 (destruct b as [|? b]; [done|]). destruct b; [|done]. by repeat eexists. Qed.



Module BinExample.
Import HistoryExample.
Definition no (b : bconn) (s : server) : option (bconn * server) := None.
(** A connection with the bytes [p] in its buffer, of 64 bytes. *)
Definition conn0 (p : list Z) : bconn :=
  {| b_cn := StoreExample.c0; b_noreply := false; b_state := conn_parse_cmd; b_go := conn_new_cmd; b_sbytes := 0; b_item := 0; b_rlbytes := 0;
     b_cmd := Opcode 0; b_sub := bin_no_state; b_hdr := decode_header []; b_out := OutputExample.o0 false;
     b_rd := {| rbuf := p ++ replicate (64 - length p) 0; rcurr := 0; rbytes := length p |}; b_ritem := 0 |}.
Definition request (op kl el bl : Z) : list Z :=
  encode_request {| magic := 128; opcode := op; keylen := kl; extlen := el; datatype := 0; reserved := 0; bodylen := bl; opaque := [1; 2; 3; 4]; hcas := 0 |}.
Abbreviation command := (try_read_command_binary (bytes "1.5") (fun _ => false) false false no).
Abbreviation turn := (bin_nread set sum_hash 0 StoreExample.no_chunks 0 (fun _ => false) StoreExample.env None true no no).
Lemma some_default {A} (o : option A) d : (if o then true else false) = true -> o = Some (default d o).
Proof. by destruct o. Qed.

(** The first half of a get for "BB" is in the buffer; the rest and a noop follow. *)
Definition stream : list Z := request Op.GET 2 0 2 ++ [66; 66] ++ request Op.NOOP 0 0 0.
Definition b0 : bconn := conn0 (take 25 stream).
Definition st1 := default (0, b0, wstore w4.2) (command b0 (wstore w4.2)).
Definition st2 := default (b0, set, wstore w4.2) (turn (take 10 (drop 25 stream)) st1.1.2 st1.2).
Definition st3 := default (b0, set, wstore w4.2) (turn (take 10 (drop 26 stream)) st2.1.1 st2.2).
Lemma st1_eq : command b0 (wstore w4.2) = Some (1, st1.1.2, st1.2).
Proof.
  assert (command b0 (wstore w4.2) = Some st1) as -> by (unfold st1; apply some_default; vm_compute; reflexivity).
  assert (st1.1.1 = 1) as <- by (vm_compute; reflexivity). by rewrite <- !surjective_pairing.
Qed.
Lemma st2_eq : turn (take 10 (drop 25 stream)) st1.1.2 st1.2 = Some (st2.1.1, st2.1.2, st2.2).
Proof.
  assert (turn (take 10 (drop 25 stream)) st1.1.2 st1.2 = Some st2) as -> by (unfold st2; apply some_default; vm_compute; reflexivity). by rewrite <- !surjective_pairing.
Qed.
Lemma st3_eq : turn (take 10 (drop 26 stream)) st2.1.1 st2.2 = Some (st3.1.1, st3.1.2, st3.2).
Proof.
  assert (turn (take 10 (drop 26 stream)) st2.1.1 st2.2 = Some st3) as -> by (unfold st3; apply some_default; vm_compute; reflexivity). by rewrite <- !surjective_pairing.
Qed.
Lemma set2 : st2.1.2 = set.
Proof. vm_compute. reflexivity. Qed.
Lemma checked : length_checked (decode_header stream).
Proof. by vm_compute. Qed.
End BinExample.


(** ** Bodies that are read as requests *)

(** [dispatch_bin_command] does not compare the length of a touch with its key: what its body has
    behind the key is taken for the next header.  Here the body hides a flush. *)
Lemma touch_body_is_a_request :
  let p := BinExample.request Op.GAT 1 4 29 ++ [0; 0; 0; 0] ++ [66] ++ BinExample.request Op.FLUSH 0 0 0 in
  ('(r, b, s) ← BinExample.command (BinExample.conn0 p) (wstore HistoryExample.w4.2);
   '(b, _, s) ← BinExample.turn [] b s;
   '(b, _, _) ← BinExample.turn [] b s;
   Some (b_state b, body_left b, pending (b_rd b))) = Some (conn_mwrite, Some 0, BinExample.request Op.FLUSH 0 0 0).
Proof. vm_compute. reflexivity. Qed.
(** The length of a body is an unsigned number, the number of bytes to skip an int: a body of
    2^31 bytes or more of an unknown command is not skipped. *)
Lemma long_body_is_not_skipped bl : 2 ^ 31 <= bl < 2 ^ 32 ->
  ('(r, b, s) ← BinExample.command (BinExample.conn0 (BinExample.request 200 0 0 (2 ^ 31) ++ BinExample.request Op.FLUSH 0 0 0)) (wstore HistoryExample.w4.2);
   Some (b_state b, b_go b, body_left b, pending (b_rd b))) = Some (conn_mwrite, conn_new_cmd, Some 0, BinExample.request Op.FLUSH 0 0 0) /\ s32 bl < 0.
Proof.
  intros H. split; [vm_compute; reflexivity|]. unfold signed. rewrite wrap_small by lia. case_if; lia.
Qed.
(** The same for the value of a set, whose length becomes negative. *)
Lemma long_value_is_not_skipped :
  let r := {| rbuf := BinExample.request Op.SET 1 8 (2 ^ 31 + 9) ++ replicate 8 0 ++ [66] ++ replicate 31 0; rcurr := 0; rbytes := 33 |} in
  ('(_, b, s) ← BinExample.command (b_with_rd r 0 (BinExample.conn0 [])) (wstore HistoryExample.w4.2);
   '(b, _, s) ← BinExample.turn [] b s;
   '(b, _, _) ← BinExample.turn [] b s;
   Some (value_len b, b_state b, b_go b, b_sbytes b)) = Some (2 ^ 31, conn_mwrite, conn_swallow, 0).
Proof. vm_compute. reflexivity. Qed.
