(* ===== verification/McBinaryReply.v ===== *)
(** The answers of the binary protocol (src/memcached-sr/memcached.c): the bytes of the responses
    the handlers of McBinary put together, and what get, set, add and replace do to the
    item store.  The theorems are about the handlers as they run in a history of the item
    store, with a connection whose arrays can grow. *)
From S2P Require Import Prelude McItoa McUtil McItem McAssoc McLru McSlabs McItems McItemStore McPayload McItemOps McItemHistory.
From S2P Require Import McStore McToken McProto McOutput McGet McConn McBinary.

(** ** The bytes of a response *)

Lemma length_response op err hl kl bl cas opq : length opq = 4%nat -> length (response_header op err hl kl bl cas opq) = 24%nat.
Proof. intros H. unfold response_header. rewrite !length_app, !length_to_be, H. reflexivity. Qed.
Definition literal (t : list Z) : base * Z := (Literal t, Z.of_nat (length t)).
Lemma literal_ok h t : part_ok h (literal t) /\ part_bytes h (literal t) = t.
Proof. unfold part_ok, part_bytes, zslice. cbn. rewrite Nat2Z.id, drop_0, take_ge by lia. split; [split_and!; try done; lia|done]. Qed.

Section replies.
Context (oom : nat -> bool) (Hoom : forall n, oom n = false).

(** What is sent for the parts of an answer. *)
Definition delivers (h : Z -> item) (b b' : bconn) (reply : list Z) : Prop :=
  b_state b' = conn_mwrite /\ exists o, (if is_udp (b_out b') then build_udp_headers oom (b_out b') else Some (true, b_out b')) = Some (true, o) /\
    is_udp o = is_udp (b_out b) /\ answers h (request_id (b_out b)) o reply.
Record bready (b : bconn) : Prop := {
  br_iov : (0 < length (iov (b_out b)))%nat;
  br_msg : (0 < length (msglist (b_out b)))%nat;
  br_opaque : length (opaque (b_hdr b)) = 4%nat
}.
Definition carries (b : bconn) (o : output) (ps : list (base * Z)) : Prop :=
  holds o ps /\ is_udp o = is_udp (b_out b) /\ (is_udp (b_out b) = true -> request_id o = request_id (b_out b)).

Lemma header_carried err hl kl bl cas b : bready b -> exists o,
  add_bin_header oom err hl kl bl cas b = Some (b_with_out o b) /\ carries b o [literal (response_header (opcode (b_hdr b)) err hl kl bl cas (opaque (b_hdr b)))].
Proof.
  intros [H1 H2 H3]. unfold add_bin_header. destruct (holds_start oom Hoom (b_out b) H1 H2) as (o & -> & Ho & Hu & Hi). cbn [mbind option_bind].
  destruct (holds_add oom Hoom o [] (Literal (response_header (opcode (b_hdr b)) err hl kl bl cas (opaque (b_hdr b)))) 24 Ho) as (o1 & -> & Ho1 & Hu1 & Hi1); [done|lia|].
  cbn [mbind option_bind]. exists o1. split; [done|]. unfold literal. rewrite length_response by done. split; [done|]. split; [congruence|].
  intros E. rewrite Hi1 by congruence. by apply Hi.
Qed.
Lemma badd_carried b0 p len b ps : carries b0 (b_out b) ps -> p <> Null -> 0 <= len -> exists o, badd oom p len b = Some (b_with_out o b) /\ carries b0 o (ps ++ [(p, len)]).
Proof.
  intros (H1 & H2 & H3) Hp Hl. unfold badd. destruct (holds_add oom Hoom (b_out b) ps p len H1 Hp Hl) as (o & -> & Ho & Hu & Hi). cbn [mbind option_bind].
  exists o. split; [done|]. split; [done|]. split; [congruence|]. intros E. rewrite Hi by congruence. by apply H3.
Qed.
Lemma carries_delivers h b0 b ps : carries b0 (b_out b) ps -> Forall (part_ok h) ps -> b_state b = conn_mwrite -> delivers h b0 b (concat (map (part_bytes h) ps)).
Proof.
  intros (H1 & H2 & H3) HF Hs. split; [done|]. destruct (holds_finish oom Hoom h (b_out b) ps H1 HF) as (o & E & Ha & _ & Hu). exists o. split_and!; [done|congruence|].
  unfold answers in *. rewrite Hu, H2 in *. destruct (is_udp (b_out b0)) eqn:E0; [by rewrite <- H3|done].
Qed.
(** Texts behind a header. *)
Lemma text_delivered h err hl kl cas text b : bready b -> exists o, (b ← add_bin_header oom err hl kl (Z.of_nat (length text)) cas b; if 0 <? Z.of_nat (length text) then badd oom (Literal text) (Z.of_nat (length text)) b else Some b) = Some (b_with_out o b) /\
  forall b', b_out b' = o -> b_state b' = conn_mwrite -> delivers h b b' (response_header (opcode (b_hdr b)) err hl kl (Z.of_nat (length text)) cas (opaque (b_hdr b)) ++ text).
Proof.
  intros Hb. destruct (header_carried err hl kl (Z.of_nat (length text)) cas b Hb) as (o & -> & Ho). cbn [mbind option_bind]. set (hd := response_header _ _ _ _ _ _ _) in *.
  destruct (0 <? Z.of_nat (length text)) eqn:E; zbool.
  - destruct (badd_carried b (Literal text) (Z.of_nat (length text)) (b_with_out o b) _ Ho) as (o1 & -> & Ho1); [done|lia|]. exists o1. split; [done|].
    intros b' Eo Es. replace (hd ++ text) with (concat (map (part_bytes h) ([literal hd] ++ [literal text]))).
    + apply carries_delivers; [by rewrite Eo|by repeat (apply Forall_cons; split; [apply literal_ok|])|done].
    + cbn [app map concat]. by rewrite !(proj2 (literal_ok h _)), app_nil_r.
  - assert (text = []) as -> by (destruct text; [done|cbn [length] in E; lia]). exists o. split; [done|]. intros b' Eo Es.
    replace (hd ++ []) with (concat (map (part_bytes h) [literal hd])).
    + apply carries_delivers; [by rewrite Eo|by repeat (apply Forall_cons; split; [apply literal_ok|])|done].
    + cbn [map concat]. by rewrite (proj2 (literal_ok h _)).
Qed.
(** The bytes of an error and of a plain response. *)
Definition text_reply (st : bin_status) (text : list Z) (b : bconn) : list Z :=
  response_header (opcode (b_hdr b)) (status_code st) 0 0 (Z.of_nat (length text)) (c_cas (b_cn b)) (opaque (b_hdr b)) ++ text.
Definition error_reply (st : bin_status) (b : bconn) : list Z := text_reply st (error_text st) b.
Definition data_reply (d : list Z) (b : bconn) : list Z :=
  response_header (opcode (b_hdr b)) 0 0 0 (Z.of_nat (length d)) (c_cas (b_cn b)) (opaque (b_hdr b)) ++ d.
Lemma write_error_delivered h st text sw b : bready b -> exists b', write_bin_error oom st text sw b = Some b' /\
  forall b2, b_out b2 = b_out b' -> b_state b2 = conn_mwrite -> delivers h b b2 (text_reply st text b).
Proof.
  intros Hb. unfold write_bin_error, text_reply. destruct (text_delivered h (status_code st) 0 0 (c_cas (b_cn b)) text b Hb) as (o & E & Ho).
  destruct (add_bin_header _ _ _ _ _ _ _) as [b1|]; [|done]. cbn [mbind option_bind] in *. rewrite E. cbn [mbind option_bind]. eexists. split; [done|].
  intros b2 E2. apply Ho. rewrite E2. by destruct (0 <? sw).
Qed.
Lemma error_delivered h st b : bready b -> exists b', bin_error oom st 0 b = Some b' /\ delivers h b b' (error_reply st b) /\ answered b b'.
Proof.
  intros Hb. destruct (write_error_delivered h st (error_text st) 0 b Hb) as (b' & E & Hd). exists b'. split; [done|]. pose proof (no_swallow_answered _ _ _ _ _ E) as Ha.
  split; [|done]. apply Hd; [done|]. apply error_shape in E as [o ->]. done.
Qed.
Lemma response_delivered h d b : bready b -> b_noreply b = false -> exists b', write_bin_response oom d 0 0 b = Some b' /\ delivers h b b' (data_reply d b) /\ answered b b'.
Proof.
  intros Hb Hn. unfold write_bin_response, data_reply. rewrite Hn. cbn [negb orb]. destruct (text_delivered h 0 0 0 (c_cas (b_cn b)) d b Hb) as (o & E & Ho).
  destruct (add_bin_header _ _ _ _ _ _ _) as [b1|]; [|done]. cbn [mbind option_bind] in *. rewrite E. cbn [mbind option_bind]. eexists. split; [done|]. split; [by apply Ho|left; by exists o].
Qed.
(** The key of a miss is sent back to the commands that ask for it. *)
Definition miss_reply (key : list Z) (b : bconn) : list Z :=
  if decide (key = []) then error_reply KEY_ENOENT b
  else response_header (opcode (b_hdr b)) 1 0 (Z.of_nat (length key)) (Z.of_nat (length key)) (c_cas (b_cn b)) (opaque (b_hdr b)) ++ key.
Lemma miss_delivered h key b : bready b -> exists b', write_bin_miss_response oom key b = Some b' /\ delivers h b b' (miss_reply key b) /\ answered b b'.
Proof.
  intros Hb. unfold write_bin_miss_response, miss_reply. destruct (decide (key = [])) as [-> |Hk]; [by apply error_delivered|].
  assert (0 < Z.of_nat (length key)) as Hl by (destruct key; [done|cbn [length]; lia]). rewrite (proj2 (Z.eqb_neq _ _)) by lia. cbn [negb].
  destruct (text_delivered h 1 0 (Z.of_nat (length key)) (c_cas (b_cn b)) key b Hb) as (o & E & Ho). rewrite (proj2 (Z.ltb_lt _ _)) in E by lia. change (status_code KEY_ENOENT) with 1.
  destruct (add_bin_header _ _ _ _ _ _ _) as [b1|]; [|done]. cbn [mbind option_bind] in *. rewrite E. cbn [mbind option_bind]. eexists. split; [done|]. split; [by apply Ho|left; by exists o].
Qed.
End replies.

(** ** Get *)

Definition hit_reply (with_key : bool) (b : bconn) (i : item) : list Z :=
  let k := if with_key then ikey i else [] in
  response_header (opcode (b_hdr b)) 0 4 (Z.of_nat (length k)) (4 + (nbytes i - 2) + Z.of_nat (length k)) (ITEM_get_cas i) (opaque (b_hdr b)) ++
  to_be 4 (FLAGS_CONV i) ++ k ++ take (Z.to_nat (nbytes i - 2)) (value i).

Section get.
Context (set : item_settings) (hash : list Z -> Z) {Hhash : KeyHash hash} (nchunks : nat).
Context (Hpage : 0 < slab_page_size (slab_set set) < 2 ^ 31) (Hrepair : tail_repair_time set = 0).
Context (process_started : Z) (oom : nat -> bool) (Hoom : forall n, oom n = false) (room : option nat).
Abbreviation hist := (history set hash nchunks).
Abbreviation current := (current set hash).

(** The parts of a hit. *)
Definition hit_parts (with_key : bool) (b : bconn) (x : Z) (i : item) : list (base * Z) :=
  let k := if with_key then ikey i else [] in
  [literal (response_header (opcode (b_hdr b)) 0 4 (Z.of_nat (length k)) (4 + (nbytes i - 2) + Z.of_nat (length k)) (ITEM_get_cas i) (opaque (b_hdr b)));
   literal (to_be 4 (FLAGS_CONV i))] ++ (if with_key then [(ItemKey x, nkey i)] else []) ++ [(ItemData x, nbytes i - 2)].
Lemma hit_parts_bytes h with_key b x i : payload (h x) = payload i -> 2 <= nbytes i ->
  concat (map (part_bytes h) (hit_parts with_key b x i)) = hit_reply with_key b i /\ Forall (part_ok h) (hit_parts with_key b x i).
Proof.
  intros Hp Hn. pose proof (value_payload _ _ Hp) as Hvp. assert (ikey (h x) = ikey i) as Hk by (unfold payload in Hp; congruence).
  assert (length (value i) = Z.to_nat (nbytes i)) as Hv by apply length_data_bytes.
  assert (part_ok h (ItemData x, nbytes i - 2) /\ part_bytes h (ItemData x, nbytes i - 2) = take (Z.to_nat (nbytes i - 2)) (value i)) as [V1 V2].
  { unfold part_ok, part_bytes, zslice. cbn [fst snd read]. rewrite Hvp, drop_0. split; [split_and!; try done; lia|done]. }
  assert (part_ok h (ItemKey x, nkey i) /\ part_bytes h (ItemKey x, nkey i) = ikey i) as [K1 K2].
  { unfold part_ok, part_bytes, zslice, nkey. cbn [fst snd read]. rewrite Hk, drop_0, Nat2Z.id, take_ge by lia. split; [split_and!; try done; lia|done]. }
  unfold hit_parts, hit_reply. destruct with_key; cbn [app map concat]; rewrite !(proj2 (literal_ok h _)), ?K2, V2, ?app_nil_r; (split; [done|]);
    repeat (apply Forall_cons; split); try done; apply literal_ok.
Qed.

Lemma count_get_cas key hv sv c : c_cas (count_get set key hv sv c) = c_cas c.
Proof. unfold count_get. by repeat case_match. Qed.
(** The answer to a hit is put together. *)
Lemma hit_carried (with_key : bool) b0 b x i : bready b -> b_hdr b = b_hdr b0 -> b_out b = b_out b0 -> 2 <= nbytes i < 2 ^ 31 -> (length (ikey i) <= KEY_MAX_LENGTH)%nat ->
  let k := if with_key then nkey i else 0 in exists o, (forall f : bconn -> option (bconn * server),
  (b ← add_bin_header oom 0 4 k (u32 (4 + (nbytes i - 2) + k)) (ITEM_get_cas i) b;
   b ← badd oom (Literal (to_be 4 (FLAGS_CONV i))) 4 b;
   b ← (if with_key then badd oom (ItemKey x) (nkey i) b else Some b);
   b ← badd oom (ItemData x) (nbytes i - 2) b; f b) = f (b_with_out o b)) /\ carries b0 o (hit_parts with_key b0 x i).
Proof.
  intros Hb Eh Eo Hn Hk k. assert (k = Z.of_nat (length (if with_key then ikey i else []))) as Ek by (unfold k; by destruct with_key).
  assert (0 <= k <= 250) as Hkr by (unfold KEY_MAX_LENGTH in Hk; unfold k, nkey; destruct with_key; lia). rewrite wrap_small by lia.
  destruct (header_carried oom Hoom 0 4 k (4 + (nbytes i - 2) + k) (ITEM_get_cas i) b Hb) as (o1 & -> & Ho1). cbn [mbind option_bind].
  assert (carries b0 o1 [literal (response_header (opcode (b_hdr b)) 0 4 k (4 + (nbytes i - 2) + k) (ITEM_get_cas i) (opaque (b_hdr b)))]) as H1 by (unfold carries in *; by rewrite <- Eo).
  destruct (badd_carried oom Hoom b0 (Literal (to_be 4 (FLAGS_CONV i))) 4 (b_with_out o1 b) _ H1) as (o2 & -> & Ho2); [done|lia|]. cbn [mbind option_bind].
  unfold hit_parts. rewrite <- Ek, <- Eh. clear Ek. unfold k in *. destruct with_key.
  - destruct (badd_carried oom Hoom b0 (ItemKey x) (nkey i) (b_with_out o2 (b_with_out o1 b)) _ Ho2) as (o3 & -> & Ho3); [done|unfold nkey; lia|]. cbn [mbind option_bind].
    destruct (badd_carried oom Hoom b0 (ItemData x) (nbytes i - 2) (b_with_out o3 (b_with_out o2 (b_with_out o1 b))) _ Ho3) as (o4 & -> & Ho4); [done|lia|]. by exists o4.
  - cbn [mbind option_bind].
    destruct (badd_carried oom Hoom b0 (ItemData x) (nbytes i - 2) (b_with_out o2 (b_with_out o1 b)) _ Ho2) as (o4 & -> & Ho4); [done|lia|]. by exists o4.
Qed.
End get.

(** C36: the get commands of the binary protocol.  In every history, when memory suffices, a
    handler that is given a get for a key answers: for an item that has not expired, a
    response with the opcode and the opaque field of the request, the CAS id, the flags, the
    key if the command asks for it, and the value without its line end, with the length of
    it all in the header; otherwise a response that says so, or nothing for the quiet
    commands.  It takes the item out of the cache only if it has expired.  The
    connection keeps a reference to the item it sends, and the answer stays what it is whatever
    others do meanwhile. *)
Theorem bin_get_answers set hash (Hhash : KeyHash hash) nchunks (Hpage : 0 < slab_page_size (slab_set set) < 2 ^ 31) (Hrepair : tail_repair_time set = 0)
    process_started oom room (with_key : bool) b w (key := binary_get_key b) (x := current set hash w key) (i := item_at (wstore w) x) :
  (forall n, oom n = false) -> history set hash nchunks w -> calm 1 w -> room_ok room (wstore w) -> oldest_live set <> current_time (wstore w) ->
  (x <> 0 -> typed i /\ 2 <= nbytes i) -> (length key <= KEY_MAX_LENGTH)%nat -> key <> [] -> bready b -> b_cmd b = Opcode (if with_key then Op.GETK else Op.GET) ->
  exists b' w', process_bin_get_or_touch set hash nchunks process_started oom room b (wstore w) = Some (b', wstore w') /\
    history set hash nchunks w' /\ (forall k, stored hash w' k = if decide (k = key) then x else stored hash w k) /\
    if decide (x = 0) then
      (forall y, held w' y = held w y) /\ b_item b' = b_item b /\
      if b_noreply b then b_state b' = conn_new_cmd /\ b_out b' = b_out b
      else b_go b' = conn_new_cmd /\ delivers oom (item_at (wstore w')) b b' (miss_reply (if with_key then key else []) b)
    else
      b_item b' = x /\ b_go b' = conn_new_cmd /\ (forall y, held w' y = held w y + if decide (y = x) then 1 else 0) /\
      forall w2, meanwhile set hash nchunks [x] w' w2 -> delivers oom (item_at (wstore w2)) b b' (hit_reply with_key b i).
Proof.
  intros Hoom Hw Hcalm Hroom Hold Hty Hkl Hkn Hb Hcmd.
  destruct (got_fetch set hash nchunks Hpage Hrepair room w [] w key (got_start set hash nchunks w Hw) Hcalm Hroom Hold) as (w1 & E & Hg & _). fold x in E.
  unfold process_bin_get_or_touch. fold key. rewrite Hcmd. cbv zeta. cbn [cmd_code]. set (c := if with_key then _ else _).
  assert ((c =? Op.TOUCH) = false /\ (c =? Op.GAT) = false /\ (c =? Op.GATK) = false /\ (c =? Op.GETK) = with_key) as (-> & -> & -> & ->) by (unfold c; by destruct with_key).
  cbn [orb negb]. rewrite E. cbn [mbind option_bind]. rewrite orb_false_r, andb_true_r. cbn [app] in Hg.
  assert (forall k, stored hash w1 k = if decide (k = key) then x else stored hash w k) as Hst.
  { intros k. rewrite (gt_stored _ _ _ _ _ _ Hg). by repeat case_decide; set_solver. }
  pose proof (hits_snoc set hash w [] key : hits set hash w [key] = if decide (x = 0) then [] else [x]) as Hhits.
  set (b1 := b_with_cn (count_get set key (hash key) (wstore w) (b_cn b)) b).
  destruct (decide (x = 0)) as [H0|H0].
  - rewrite H0. cbn [Z.eqb negb]. rewrite H0 in Hst.
    assert (forall y, held w1 y = held w y) as Hh by (intros y; rewrite (gt_held _ _ _ _ _ _ Hg), Hhits; apply Z.add_0_r).
    change (b_noreply (bcount get_misses (bcount get_cmds b1))) with (b_noreply b). destruct (b_noreply b).
    + eexists _, w1. split; [done|]. split_and!; try done. by apply Hg.
    + destruct (miss_delivered oom Hoom (item_at (wstore w1)) (if with_key then key else []) (bcount get_misses (bcount get_cmds b1))) as (b' & -> & Hd & Ha); [by destruct Hb|].
      cbn [mbind option_bind]. exists b', w1. split; [done|]. split_and!; try done; [by apply Hg|by destruct Ha as [[o ->]| ->]| |].
      * destruct Ha as [[o ->]| ->]; [done|]. by destruct Hd.
      * assert (miss_reply (if with_key then key else []) (bcount get_misses (bcount get_cmds b1)) = miss_reply (if with_key then key else []) b) as Em.
        { unfold miss_reply, error_reply, text_reply. cbn [bcount b_with_cn b_cn b_hdr b1 count c_cas]. by rewrite count_get_cas. }
        by rewrite Em in Hd.
  - rewrite (proj2 (Z.eqb_neq _ _)) by done. cbn [negb]. destruct (Hty H0) as [Ht Hn2].
    assert (used hash w1 x) as Hu by (split; [done|]; right; exists key; by rewrite Hst, decide_True).
    rewrite (not_chunked set hash nchunks Hpage Hrepair w1 x (gt_hist _ _ _ _ _ _ Hg) Hu).
    destruct (gt_same _ _ _ _ _ _ Hg x H0 ltac:(right; by exists key)) as [Hp Hhd]. set (j := item_at (wstore w1) x) in *. fold i in Hp, Hhd.
    assert (ikey j = key) as Hkj by (unfold j; rewrite <- (stored_key set hash nchunks Hpage Hrepair w1 key (gt_hist _ _ _ _ _ _ Hg)); rewrite Hst, decide_True by done; done).
    assert (nbytes j = nbytes i /\ FLAGS_CONV j = FLAGS_CONV i /\ ITEM_get_cas j = ITEM_get_cas i /\ ikey i = ikey j) as (Hn & Hf & Hc & Hk).
    { unfold payload, header, FLAGS_CONV in *. injection Hp as -> -> -> _. injection Hhd as _ -> _ ->. done. }
    destruct (hit_carried oom Hoom with_key b (bcount (lru_hits (slabs_clsid j)) (bcount get_cmds b1)) x i) as (o & Eo & Ho); try done.
    { by destruct Hb. } { destruct Ht. lia. } { by rewrite Hk, Hkj. }
    unfold nkey in Eo. rewrite Hk, Hkj in Eo. rewrite Hn, Hf, Hc, Eo. eexists _, w1. split; [done|]. split_and!; try done; [by apply Hg| |].
    + intros y. rewrite (gt_held _ _ _ _ _ _ Hg), Hhits. f_equal. exact (count_snoc y [] x).
    + intros w2 Hm. destruct (meanwhile_stable set hash nchunks Hpage Hrepair [x] w1 w2 (gt_hist _ _ _ _ _ _ Hg)) as (_ & _ & Hp2); [|done|].
      { intros y. rewrite (gt_held _ _ _ _ _ _ Hg), Hhits. pose proof (history_held set hash nchunks Hpage Hrepair w y Hw). lia. }
      destruct (hit_parts_bytes (item_at (wstore w2)) with_key b x i) as [Hby Hok]; [rewrite Hp2 by set_solver; exact Hp|done|].
      rewrite <- Hby. by apply carries_delivers.
Qed.

(** ** Set, add and replace *)

Section update.
Context (set : item_settings) (hash : list Z -> Z) {Hhash : KeyHash hash} (nchunks : nat).
Context (Hpage : 0 < slab_page_size (slab_set set) < 2 ^ 31) (Hrepair : tail_repair_time set = 0).
Context (process_started : Z) (oom : nat -> bool) (Hoom : forall n, oom n = false).
Context (copy_chunks : nread -> Z -> Z -> Z -> server -> option server) (a : alloc_env).
Abbreviation hist := (history set hash nchunks).
Abbreviation current := (current set hash).
Abbreviation stored := (stored hash).

(** The end of a value. *)
Lemma line_end n d data : length data = n -> (n <= length d)%nat -> take n d = data -> take (n + 2) (write n [13; 10] d ++ replicate (n + 2) 0) = data ++ [13; 10].
Proof.
  intros Hl Hd Ht. unfold write. rewrite Ht, <- Hl. rewrite <- app_assoc, take_app_add. done.
Qed.
(** The answer to a storage command. *)
Definition bin_store_reply (res : store_item_type) (cas : Z) (b : bconn) : list Z :=
  if decide (res = STORED) then response_header (opcode (b_hdr b)) 0 0 0 0 cas (opaque (b_hdr b)) else error_reply (response_of res (b_cmd b)) b.

(** Writing a value changes neither what is found nor how a command decides. *)
Lemma item_written_at it v sv x : item_at (upd_item (set_data v) it sv) x = item_at sv x \/ item_at (upd_item (set_data v) it sv) x = set_data v (item_at sv x).
Proof.
  unfold item_at, upd_item. cbn [mem with_mem]. unfold get. destruct (decide (x = it)) as [-> |Hne]; [|left; by rewrite lookup_alter_ne].
  rewrite lookup_alter_eq. destruct (mem sv !! it); [by right|by left].
Qed.
Lemma written_current w it v key : (forall k, stored (keep (upd_item (set_data v) it (wstore w)) w) k = stored w k) ->
  current (keep (upd_item (set_data v) it (wstore w)) w) key = current w key.
Proof.
  intros Hs. unfold McStore.current, live. rewrite Hs. cbn [keep wstore]. by destruct (item_written_at it v (wstore w) (stored w key)) as [-> | ->].
Qed.
Lemma decision_written comm stale found v i it u w old : decision comm stale found (set_data v i) (item_at (wstore (keep (upd_item (set_data u) it (wstore w)) w)) old) = decision comm stale found i (item_at (wstore w) old).
Proof. cbn [keep wstore]. by destruct (item_written_at it u (wstore w) old) as [-> | ->]. Qed.

Lemma store_answered h res c2 st b comm : bready b -> b_cmd b = Nread comm -> b_noreply b = false -> (res <> STORED -> c_cas c2 = c_cas (b_cn b)) -> exists b1,
  (if bool_decide (res = STORED) then write_bin_response oom [] 0 0 (b_with_cn c2 (bcount st b)) else bin_error oom (response_of res (Nread comm)) 0 (b_with_cn c2 (bcount st b))) = Some b1 /\
  delivers oom h b (b_with_item 0 (b_rlbytes b1) b1) (bin_store_reply res (c_cas c2) b).
Proof.
  intros Hb Hcmd Hn Hc. unfold bin_store_reply. case_bool_decide as E.
  - rewrite decide_True by done. destruct (response_delivered oom Hoom h [] (b_with_cn c2 (bcount st b))) as (b1 & -> & Hd & _); [by destruct Hb|done|].
    exists b1. split; [done|]. unfold data_reply in Hd. by rewrite app_nil_r in Hd.
  - rewrite decide_False by done. destruct (error_delivered oom Hoom h (response_of res (Nread comm)) (b_with_cn c2 (bcount st b))) as (b1 & -> & Hd & _); [by destruct Hb|].
    exists b1. split; [done|]. unfold error_reply, text_reply in *. cbn [b_cn b_with_cn b_hdr bcount] in Hd. rewrite (Hc E) in Hd. by rewrite Hcmd.
Qed.
(** What the release of a reference leaves of a stored item. *)
Lemma release_header w w3 it key : hist w -> hist w3 -> it <> 0 -> wstore w3 = do_item_remove nchunks it (wstore w) -> stored w key = it -> stored w3 key = it ->
  payload (item_at (wstore w3) it) = payload (item_at (wstore w) it) /\ ITEM_get_cas (item_at (wstore w3) it) = ITEM_get_cas (item_at (wstore w) it).
Proof.
  intros Hw Hw3 H0 E Hs Hs3. assert (used hash w it /\ used hash w3 it) as [U1 U3] by (split; (split; [done|]; right; by exists key)).
  destruct (kept_item set hash nchunks Hpage Hrepair keeps_header w w3 it Hw Hw3 U1 U3) as [Hh Hs4]; [rewrite E; apply spays_remove, pays_refl|].
  destruct (kept_item set hash nchunks Hpage Hrepair pays_item w w3 it Hw Hw3 U1 U3) as [Hp _]; [rewrite E; apply spays_remove, pays_refl|].
  split; [done|]. destruct Hh as [Hh|Hh]; [|congruence]. unfold header in Hh. congruence.
Qed.

Lemma bin_value_stored w b comm data : hist w -> few 22 w -> let it := b_item b in let key := key_of w it in let i := item_at (wstore w) it in
  0 < held w it -> is_linked w it = false -> nbytes i = Z.of_nat (length data) + 2 -> has_flag ITEM_CHUNKED i = false ->
  take (length data) (idata i) = data -> (length data <= length (idata i))%nat -> b_cmd b = Nread comm -> combines comm = false ->
  b_noreply b = false -> bready b -> let old := current w key in let res := decision comm (set_stale (b_cn b)) (negb (old =? 0)) i (item_at (wstore w) old) in
  exists b' w', complete_update_bin set hash nchunks copy_chunks oom a b (wstore w) = Some (b', wstore w') /\ hist w' /\
    (forall x, held w' x = held w x - if decide (x = it) then 1 else 0) /\ (forall k, k <> key -> stored w' k = stored w k) /\ b_item b' = 0 /\
    stored w' key = (if decide (res = STORED) then it else old) /\
    (res = STORED -> value (item_at (wstore w') it) = data ++ [13; 10]) /\
    delivers oom (item_at (wstore w')) b b' (bin_store_reply res (if decide (res = STORED) then ITEM_get_cas (item_at (wstore w') it) else 0) b).
Proof.
  intros Hw Hf it key i Hi Hl Hnb Hch Hd1 Hd2 Hcmd Hcb Hn Hb old res.
  unfold complete_update_bin. fold it i. cbv zeta. rewrite Hch.
  destruct (step_write set hash nchunks Hpage Hrepair w it (write (Z.to_nat (nbytes i - 2)) [13; 10] (idata i)) Hw (few_le 22 3 w ltac:(lia) Hf) Hi Hl)
    as (Hw1 & Hs1 & Hr1 & Hsame & Hat). set (w1 := keep _ w) in *.
  cbn [b_cmd bcount b_with_cn b_cn]. rewrite Hcmd.
  assert (key_of w1 it = key) as Hk by (unfold key_of; by rewrite Hat).
  assert (is_linked w1 it = false) as Hl1 by (unfold is_linked; by rewrite Hat).
  assert (current w1 key = old) as Hcur by (by apply written_current).
  assert (value (item_at (wstore w1) it) = data ++ [13; 10]) as Hv.
  { rewrite Hat. fold i. unfold value, data_bytes. cbn [nbytes set_data idata]. rewrite Hnb. rewrite <- (line_end (length data) (idata i) data) by done. f_equal; [lia|]. do 2 f_equal; lia. }
  change (upd_item _ it (wstore w)) with (wstore w1). fold (key_of w1 it).
  destruct (store_item_ok set hash Hhash nchunks Hpage Hrepair copy_chunks a w1 it comm (count (set_cmds (ITEM_clsid i)) (b_cn b)) Hw1)
    as (res' & c2 & w2 & y & E & Hw2 & Hh2 & Hr2 & Hres & Hst & Ho & Hval & Hcas); try done.
  { intros x. specialize (Hf x). specialize (Hr1 x). lia. }
  { by right. }
  assert (res' = res) as ->.
  { destruct Hres as [-> |[_ [? _]]]; [|congruence]. rewrite Hk, Hcur, Hat. unfold res. by apply decision_written. }
  rewrite E. cbn [mbind option_bind]. rewrite Hk, Hcur in *. destruct (release_one set hash nchunks Hpage Hrepair w2 it Hw2) as (w3 & E3 & Hw3 & Hh3 & Hs3 & _ & Hp3).
  { intros x. specialize (Hf x). specialize (Hr1 x). specialize (Hr2 x). lia. }
  { by rewrite Hh2. }
  destruct (store_answered (item_at (wstore w3)) res c2 (set_cmds (ITEM_clsid i)) b comm Hb Hcmd Hn Hcas) as (b1 & -> & Hd). cbn [mbind option_bind]. rewrite <- E3.
  eexists _, w3. split; [done|]. split; [done|]. split; [intros x; by rewrite Hh3, Hh2|].
  split. { intros k Hne. rewrite Hs3. destruct (Ho k Hne) as [-> |[? _]]; [apply Hs1|congruence]. }
  split; [done|]. rewrite Hs3, Hst. destruct (decide (res = STORED)) as [Er|Er].
  2:{ split_and!; try done. unfold bin_store_reply in *. by rewrite decide_False in * by done. }
  destruct (Hval Er) as (Hy0 & Hy & Hc2 & Hvy). rewrite (Hy Hcb) in *. rewrite Hcb in Hvy.
  destruct (release_header w2 w3 it key Hw2 Hw3 Hy0 E3 Hst) as [Hp Hc3]; [by rewrite Hs3|].
  split_and!; [done|intros _; by rewrite (value_payload _ _ Hp), Hvy|]. by rewrite Hc3, <- Hc2.
Qed.

(** No item for the value. *)
Definition no_item_replies (b : bconn) : list (list Z) := [error_reply E2BIG b; text_reply ENOMEM (bytes "Out of memory allocating item") b].
Lemma refusal_delivered key flags vlen b sv : bready b -> 0 <= vlen -> b_sbytes b <= 0 -> exists b', bin_update_failed set oom key flags vlen b sv = Some b' /\
  body_left b' = Some vlen /\ b_state b' = conn_mwrite /\ b_item b' = b_item b /\ cmd_code (b_cmd b') = cmd_code (b_cmd b) /\
  forall h b2, b_out b2 = b_out b' -> b_state b2 = conn_mwrite -> exists r, r ∈ no_item_replies b /\ delivers oom h b b2 r.
Proof.
  intros Hb Hv Hs. destruct (bin_update_failed set oom key flags vlen b sv) as [b'|] eqn:E.
  - exists b'. split; [done|]. pose proof (failed_awaits set oom b key flags vlen b sv b' Hv Hs E eq_refl eq_refl) as [(Hl & _) Hc].
    unfold bin_update_failed, bin_out_of_memory, bin_error in E. destruct (item_size_ok _ _ _ _ _).
    + split; [done|]. assert (forall h, _) as Hd by exact (fun h => write_error_delivered oom Hoom h ENOMEM (bytes "Out of memory allocating item") 0 b Hb).
      destruct (write_bin_error _ _ _ _ _) as [b1|] eqn:E1; [|done]. cbn [mbind option_bind] in E. injection E as <-. apply error_shape in E1 as [o ->].
      do 3 (split; [done|]). intros h b2 E2 S2. destruct (Hd h) as (b3 & [= <-] & Hd3). eexists. split; [|by apply Hd3]. unfold no_item_replies. set_solver.
    + split; [done|]. assert (forall h, _) as Hd by exact (fun h => write_error_delivered oom Hoom h E2BIG (error_text E2BIG) vlen b Hb).
      destruct (write_bin_error _ _ _ _ _) as [b1|] eqn:E1; [|done]. cbn [mbind option_bind] in E. injection E as <-. apply error_shape in E1 as [o ->].
      do 3 (split; [done|]). intros h b2 E2 S2. destruct (Hd h) as (b3 & [= <-] & Hd3). eexists. split; [|by apply Hd3]. unfold no_item_replies, error_reply. set_solver.
  - exfalso. unfold bin_update_failed, bin_out_of_memory, bin_error in E. destruct (item_size_ok _ _ _ _ _).
    + destruct (write_error_delivered oom Hoom (fun _ => blank_item) ENOMEM (bytes "Out of memory allocating item") 0 b Hb) as (b1 & E1 & _). by rewrite E1 in E.
    + destruct (write_error_delivered oom Hoom (fun _ => blank_item) E2BIG (error_text E2BIG) vlen b Hb) as (b1 & E1 & _). by rewrite E1 in E.
Qed.

(** Without an item, a set takes out what is stored. *)
Lemma update_refused w key flags vlen b : hist w -> few 8 w -> bready b -> 0 <= vlen -> b_sbytes b <= 0 -> exists b' w',
  (b ← bin_update_failed set oom key flags vlen b (wstore w);
   if cmd_code (b_cmd b) =? Op.SET then
     let b := b_with_cn (count_get set key (hash key) (wstore w) (b_cn b)) b in
     '(old, s) ← do_item_get set nchunks None key (hash key) false (wstore w);
     if old =? 0 then Some (b, s)
     else s ← do_item_unlink set nchunks old (hash (ikey (item_at s old))) s; Some (b, do_item_remove nchunks old s)
   else Some (b, wstore w)) = Some (b', wstore w') /\ hist w' /\ (forall x, held w' x = held w x) /\ (forall k, k <> key -> stored w' k = stored w k) /\
  (cmd_code (b_cmd b) = Op.SET -> stored w' key = 0) /\ body_left b' = Some vlen /\ b_item b' = b_item b /\
  exists r, r ∈ no_item_replies b /\ delivers oom (item_at (wstore w')) b b' r.
Proof.
  intros Hw Hf Hb Hv Hs. destruct (refusal_delivered key flags vlen b (wstore w) Hb Hv Hs) as (b1 & -> & Hl & Hst & Hi & Hc & Hd). cbn [mbind option_bind]. rewrite Hc.
  destruct (Z.eqb_spec (cmd_code (b_cmd b)) Op.SET) as [Es|Es].
  2:{ exists b1, w. split_and!; try done. by apply Hd. }
  destruct (take_out set hash nchunks Hpage Hrepair w key Hw Hf) as (w1 & E & w' & Hw' & Hh & Hs' & _ & Hcase). cbv zeta. rewrite E. cbn [mbind option_bind].
  exists (b_with_cn (count_get set key (hash key) (wstore w) (b_cn b1)) b1), w'.
  split; [|split; [done|]; split; [done|]; split; [intros k Hk; by rewrite Hs', decide_False|]; split; [intros _; by rewrite Hs', decide_True|]; split; [exact Hl|]; split; [exact Hi|]; by apply Hd].
  destruct (decide (current w key = 0)) as [H0|H0]; [subst w'; by rewrite H0|]. rewrite (proj2 (Z.eqb_neq _ _) H0). destruct Hcase as (-> & s2 & -> & ->). done.
Qed.

(** The item of a value: not linked, held by the connection, with what the request says. *)
Record value_item (w : world) (it : Z) (key : list Z) (flags exp n cas : Z) : Prop := {
  vi_held : 0 < held w it;
  vi_unlinked : is_linked w it = false;
  vi_key : key_of w it = key;
  vi_flags : FLAGS_CONV (item_at (wstore w) it) = flags;
  vi_exp : exptime (item_at (wstore w) it) = exp;
  vi_nbytes : nbytes (item_at (wstore w) it) = n + 2;
  vi_chunked : has_flag ITEM_CHUNKED (item_at (wstore w) it) = false;
  vi_cas : ITEM_get_cas (item_at (wstore w) it) = if has_flag ITEM_CAS (item_at (wstore w) it) then cas else 0
}.
Lemma get_set_cas v i : ITEM_get_cas (ITEM_set_cas v i) = if has_flag ITEM_CAS (ITEM_set_cas v i) then v else 0.
Proof. unfold ITEM_set_cas. destruct (has_flag ITEM_CAS i) eqn:E; unfold ITEM_get_cas; [|by rewrite E]. change (has_flag ITEM_CAS (set_cas v i)) with (has_flag ITEM_CAS i). by rewrite E. Qed.
Lemma item_prepared w wa it key flags e n cas : hist wa -> few 24 wa -> it <> 0 -> 0 < held wa it -> (forall k, stored wa k <> it) -> key_of wa it = key ->
  exptime (item_at (wstore wa) it) = e -> nbytes (item_at (wstore wa) it) = n + 2 -> FLAGS_CONV (item_at (wstore wa) it) = flags ->
  has_flag ITEM_CHUNKED (item_at (wstore wa) it) = false -> (forall x, refs wa x <= refs w x + 2) ->
  let w1 := keep (upd_item (ITEM_set_cas cas) it (wstore wa)) wa in
  hist w1 /\ (forall k, stored w1 k = stored wa k) /\ (forall x, refs w1 x <= refs w x + 4) /\ value_item w1 it key flags e n cas.
Proof.
  intros Hwa Hfa H0 Hhn Hns Hk He Hnb Hfl Hch Hr w1.
  destruct (step_header set hash nchunks Hpage Hrepair wa it (ITEM_set_cas cas) Hwa (few_le 24 3 wa ltac:(lia) Hfa) Hhn (keeps_set_cas cas)) as (Hw1 & Hs1 & Hr1 & _).
  { intros i. unfold ITEM_set_cas. by case_if. }
  fold w1 in Hw1, Hs1, Hr1.
  assert (item_at (wstore w1) it = ITEM_set_cas cas (item_at (wstore wa) it)) as Hat.
  { destruct (history_used set hash nchunks Hpage Hrepair wa it Hwa (held_refs_pos _ _ Hhn)) as (i & Hi & _). by apply (at_upd _ _ _ i). }
  assert (forall i, FLAGS_CONV (ITEM_set_cas cas i) = FLAGS_CONV i /\ exptime (ITEM_set_cas cas i) = exptime i /\ nbytes (ITEM_set_cas cas i) = nbytes i /\
    ikey (ITEM_set_cas cas i) = ikey i /\ has_flag ITEM_CHUNKED (ITEM_set_cas cas i) = has_flag ITEM_CHUNKED i) as Hfields by (intros i; unfold ITEM_set_cas; by case_if).
  destruct (Hfields (item_at (wstore wa) it)) as (F1 & F2 & F3 & F4 & F5). rewrite <- Hat in F1, F2, F3, F4, F5.
  split; [done|]. split; [done|]. split; [intros x; specialize (Hr x); specialize (Hr1 x); lia|]. split; try congruence.
  - exact Hhn.
  - rewrite (linked_stored set hash nchunks Hpage Hrepair w1 it Hw1 (held_refs_pos w1 it Hhn)). apply bool_decide_eq_false_2. rewrite Hs1. apply Hns.
  - unfold key_of in *. congruence.
  - rewrite Hat. apply get_set_cas.
Qed.
Lemma accepted_stores w1 b1 comm key flags e n cas data v : hist w1 -> few 24 w1 -> value_item w1 (b_item b1) key flags e n cas ->
  Z.of_nat (length data) = n -> take (length data) v = data -> (length data <= length v)%nat ->
  b_cmd b1 = Nread comm -> combines comm = false -> b_noreply b1 = false -> bready b1 ->
  let it := b_item b1 in
  let w2 := keep (upd_item (set_data v) it (wstore w1)) w1 in
  let i := item_at (wstore w2) it in
  let old := current w2 key in
  let res := decision comm (set_stale (b_cn b1)) (negb (old =? 0)) i (item_at (wstore w2) old) in
  exists b' w', complete_update_bin set hash nchunks copy_chunks oom a b1 (wstore w2) = Some (b', wstore w') /\ hist w' /\
    (forall x, held w' x = held w1 x - if decide (x = it) then 1 else 0) /\ (forall k, k <> key -> stored w' k = stored w1 k) /\ b_item b' = 0 /\
    stored w' key = (if decide (res = STORED) then it else old) /\ (res = STORED -> value (item_at (wstore w') it) = data ++ [13; 10]) /\
    delivers oom (item_at (wstore w')) b1 b' (bin_store_reply res (if decide (res = STORED) then ITEM_get_cas (item_at (wstore w') it) else 0) b1).
Proof.
  intros Hw Hf [V1 V2 V3 V4 V5 V6 V7 V8] Hn Hv1 Hv2 Hcmd Hcb Hno Hb it w2 i old res.
  destruct (step_write set hash nchunks Hpage Hrepair w1 it v Hw (few_le 24 3 w1 ltac:(lia) Hf) V1 V2) as (Hw2 & Hs2 & Hr2 & _ & Hat). fold w2 in Hw2, Hs2, Hr2, Hat.
  assert (key_of w2 it = key) as Hk by (unfold key_of in *; by rewrite Hat).
  destruct (bin_value_stored w2 b1 comm data Hw2) as (b' & w' & E & Hw' & Hh & Ho & Hi & Hst & Hval & Hd); fold it; rewrite ?Hat; try done.
  - intros x. specialize (Hf x). specialize (Hr2 x). lia.
  - unfold is_linked. by rewrite Hat.
  - cbn [nbytes set_data]. fold it in V6. lia.
  - fold it in Hh, Ho, Hst, Hval, Hd. rewrite Hk in *. exists b', w'. split_and!; try done. intros k Hne. by rewrite (Ho k Hne), Hs2.
Qed.
End update.


(** ** The value as it arrives *)

(** [v] has been read into the item. *)
Record filled (v : list Z) (b : bconn) (s : server) : Prop := {
  fi_item : b_item b <> 0;
  fi_mem : is_Some (mem s !! b_item b);
  fi_nbytes : nbytes (item_at s (b_item b)) = b_rlbytes b + Z.of_nat (length v) + 2;
  fi_chunked : has_flag ITEM_CHUNKED (item_at s (b_item b)) = false;
  fi_data : take (length v) (idata (item_at s (b_item b))) = v
}.
Lemma upd_data_twice it d1 d2 s : upd_item (set_data d2) it (upd_item (set_data d1) it s) = upd_item (set_data d2) it s.
Proof. unfold upd_item, with_mem. f_equal. cbn [mem]. rewrite alter_alter_eq. apply alter_ext. by intros x _. Qed.
Lemma upd_data_same it s : upd_item (set_data (idata (item_at s it))) it s = s.
Proof.
  unfold upd_item, with_mem. rewrite alter_id; [by destruct s|]. intros x Hx. unfold item_at. rewrite (get_Some _ _ _ Hx). by destruct x.
Qed.
Lemma into_filled v bs b s : filled v b s -> (Z.of_nat (length bs) <= b_rlbytes b) -> exists d,
  bin_into bs b s = (b_with_item (b_item b) (b_rlbytes b - Z.of_nat (length bs)) b, upd_item (set_data d) (b_item b) s) /\
  filled (v ++ bs) (b_with_item (b_item b) (b_rlbytes b - Z.of_nat (length bs)) b) (upd_item (set_data d) (b_item b) s).
Proof.
  intros [F1 [i0 F2] F3 F4 F5] Hl. unfold bin_into. rewrite (proj2 (Z.eqb_neq _ _) F1). set (i := item_at s (b_item b)) in *.
  replace (Z.to_nat (nbytes i - 2 - b_rlbytes b)) with (length v) by lia. eexists. split; [done|].
  split; cbn [b_item b_with_item b_rlbytes]; try done; rewrite ?(at_upd _ _ _ _ F2); fold i; cbn [nbytes set_data idata].
  - cbn [upd_item mem with_mem]. rewrite lookup_alter_eq, F2. by eexists.
  - rewrite length_app. lia.
  - done.
  - unfold write. rewrite F5, app_assoc, take_app_length. done.
Qed.

Section values.
Context (hash : list Z -> Z) (nchunks : nat) (copy_chunks : nread -> Z -> Z -> Z -> server -> option server).
Context (process_started : Z) (oom : nat -> bool) (a : alloc_env) (room : option nat) (flush_enabled : bool).
Context (stat sasl : bconn -> server -> option (bconn * server)).
Abbreviation nread_turn set := (bin_nread set hash nchunks copy_chunks process_started oom a room flush_enabled stat sasl).

(** One turn reads the next bytes of the stream into the item. *)
Lemma value_turn set v bs b s : reading b -> filled v b s -> 0 < b_rlbytes b -> exists b' d,
  nread_turn set bs b s = Some (b', set, upd_item (set_data d) (b_item b) s) /\ b_item b' = b_item b /\ b_state b' = conn_nread /\
  filled (v ++ take (from_buf b) (pending (b_rd b)) ++ take (from_sock bs b) bs) b' (upd_item (set_data d) (b_item b) s).
Proof.
  intros Hr Hf Hpos. unfold bin_nread. rewrite (proj2 (Z.eqb_neq _ _)), (proj2 (Z.ltb_ge _ _)) by lia. rewrite (fi_chunked _ _ _ Hf), andb_false_r.
  destruct (nread_buffered b s) as [b1 s1] eqn:E1. pose proof (buffered_turn b s b1 s1 Hr E1) as (R1 & P1 & L1 & B1 & _ & _ & S1 & H1 & I1 & C1).
  assert (exists d, s1 = upd_item (set_data d) (b_item b) s /\ filled (v ++ take (from_buf b) (pending (b_rd b))) b1 s1) as (d1 & -> & Hf1).
  { unfold nread_buffered in E1. fold (from_buf b) in E1. destruct (0 <? rbytes (b_rd b))%nat eqn:E0.
    - destruct (into_filled v (take (from_buf b) (pending (b_rd b))) b s Hf) as (d & Ei & Hf1); [rewrite length_take; unfold from_buf; lia|]. rewrite Ei in E1. injection E1 as <- <-.
      exists d. split; [done|]. by destruct Hf1.
    - injection E1 as <- <-. zbool. assert (from_buf b = 0)%nat as -> by (unfold from_buf; lia). rewrite take_0, app_nil_r. exists (idata (item_at s (b_item b))). split; [|done].
      by rewrite upd_data_same. }
  destruct (b_rlbytes b1 =? 0) eqn:E2; zbool.
  - assert (from_sock bs b = 0)%nat as -> by (unfold from_sock; lia). rewrite take_0, app_nil_r. exists b1, d1. split_and!; try done. apply (rg_state _ R1).
  - assert (rbytes (b_rd b1) = 0)%nat as Hb0 by (rewrite B1; unfold from_buf in *; lia). set (tk := take (Z.to_nat (b_rlbytes b1)) bs).
    assert (take (from_sock bs b) bs = tk) as ->.
    { unfold tk, from_sock. rewrite L1. destruct (decide (length bs <= Z.to_nat (b_rlbytes b - Z.of_nat (from_buf b)))%nat); [rewrite !take_ge by lia; done|f_equal; lia]. }
    unfold nread_received. destruct (into_filled _ tk b1 _ Hf1) as (d & -> & Hf2); [unfold tk; rewrite length_take; pose proof (rg_left _ R1); lia|].
    rewrite (proj2 (Z.eqb_neq _ _) (fi_item _ _ _ Hf1)). cbn [andb]. rewrite I1, upd_data_twice in *. rewrite <- app_assoc in Hf2. eexists _, d. split; [done|]. split_and!; try done. apply (rg_state _ R1).
Qed.

(** The turns that read a value, for any sizes of the pieces. *)
Inductive fills (set : item_settings) : bconn -> server -> list Z -> bconn -> server -> list Z -> Prop :=
| fills_done b s net : fills set b s net b s net
| fills_turn n b s net b1 s1 b2 s2 net2 : 0 < b_rlbytes b -> nread_turn set (take n net) b s = Some (b1, set, s1) ->
    fills set b1 s1 (drop (from_sock (take n net) b) net) b2 s2 net2 -> fills set b s net b2 s2 net2.

Lemma turn_stream set n net b s b' st s' (g := from_sock (take n net) b) : reading b -> nread_turn set (take n net) b s = Some (b', st, s') ->
  pending (b_rd b) ++ net = (take (from_buf b) (pending (b_rd b)) ++ take g (take n net)) ++ pending (b_rd b') ++ drop g net.
Proof.
  intros Hr H. pose proof H as (T1 & _ & _)%turn_takes; [|done]. set (f := from_buf b) in *. rewrite T1, take_take, Nat.min_l by (unfold g, from_sock; rewrite length_take; lia).
  assert (g = 0 \/ f = rbytes (b_rd b))%nat as [-> |E] by (unfold g, f, from_sock, from_buf in *; lia).
  - by rewrite take_0, drop_0, app_nil_r, app_assoc, take_drop.
  - pose proof (pending_length _ (rg_in _ Hr)). rewrite take_ge, drop_ge, <- app_assoc by lia. cbn [app]. by rewrite take_drop.
Qed.
Lemma fills_value set b s net b2 s2 net2 : fills set b s net b2 s2 net2 -> forall v, reading b -> filled v b s -> exists w d,
  pending (b_rd b) ++ net = w ++ pending (b_rd b2) ++ net2 /\ s2 = upd_item (set_data d) (b_item b) s /\ filled (v ++ w) b2 s2 /\ b_item b2 = b_item b.
Proof.
  induction 1 as [|n b s net b1 s1 b2 s2 net2 Hpos H F IH]; intros v Hr Hf.
  - exists [], (idata (item_at s (b_item b))). by rewrite app_nil_r, upd_data_same.
  - destruct (value_turn set v (take n net) b s Hr Hf Hpos) as (b1' & d1 & E & I1 & S1 & Hf1). pose proof H as E'. rewrite E in E'. injection E' as -> <-.
    assert (reading b1) as Hr1 by (pose proof H as (_ & T & _)%turn_takes; [by apply T|done]).
    destruct (IH _ Hr1 Hf1) as (w & d & Es & -> & Hf2 & I2). exists ((take (from_buf b) (pending (b_rd b)) ++ take (from_sock (take n net) b) (take n net)) ++ w), d.
    rewrite I1, upd_data_twice in *. split_and!; [|done| |congruence].
    + rewrite <- app_assoc, <- Es. by eapply turn_stream.
    + by rewrite <- !app_assoc in *.
Qed.
End values.

(** ** Examples *)

Module ReplyExample.
Import HistoryExample BinExample.
(** A request whose header, extras [ex] and key [key] are read. *)
Definition req (op : Z) (ex key : list Z) (n : Z) : bconn :=
  let hd := request op (Z.of_nat (length key)) (Z.of_nat (length ex)) (Z.of_nat (length ex) + Z.of_nat (length key) + n) in
  let b := conn0 (hd ++ ex ++ key) in
  b_with_cmd (Opcode op) false (b_with_hdr (decode_header hd) (b_with_rd {| rbuf := rbuf (b_rd b); rcurr := rbytes (b_rd b); rbytes := 0 |} 0 b)).
Lemma req_ready op ex key n : bready (req op ex key n).
Proof. split; [cbn; lia|cbn; lia|]. done. Qed.
Lemma calm4 : calm 1 w4.2.
Proof. exact (gr_calm _ _ _ _ _ (GetExample.ready4 [[65]] ltac:(cbn; lia) ltac:(constructor; [by left|constructor]))). Qed.
End ReplyExample.

(** "A" is stored with the value "xyz"; the response to a getk has the key. *)
Lemma bin_get_answers_witness : exists b' w',
  process_bin_get_or_touch HistoryExample.set Witness.sum_hash 0 0 (fun _ => false) None (ReplyExample.req Op.GETK [] [65] 0) (wstore HistoryExample.w4.2) = Some (b', wstore w') /\
  delivers (fun _ => false) (item_at (wstore w')) (ReplyExample.req Op.GETK [] [65] 0) b'
    ([129; 12; 0; 1; 4; 0; 0; 0; 0; 0; 0; 8; 1; 2; 3; 4; 0; 0; 0; 0; 0; 0; 0; 1] ++ [0; 0; 0; 0] ++ bytes "A" ++ bytes "xyz").
Proof.
  pose proof (bin_get_answers HistoryExample.set Witness.sum_hash Witness.sum_hash_range 0 SlabExample.page_ok eq_refl 0 (fun _ => false) None true
    (ReplyExample.req Op.GETK [] [65] 0) HistoryExample.w4.2) as H.
  assert (binary_get_key (ReplyExample.req Op.GETK [] [65] 0) = [65]) as Ek by (vm_compute; reflexivity). cbv zeta in H. rewrite Ek in H.
  assert (current HistoryExample.set Witness.sum_hash HistoryExample.w4.2 [65] = 11776) as Ex by (vm_compute; reflexivity). rewrite Ex in H.
  destruct H as (b' & w' & E & _ & _ & H).
  - done.
  - exact HistoryExample.h4.
  - exact ReplyExample.calm4.
  - exact I.
  - vm_compute. discriminate.
  - intros _. split; [|vm_compute; discriminate]. vm_compute. repeat split; discriminate.
  - apply Nat.leb_le. vm_compute. reflexivity.
  - discriminate.
  - apply ReplyExample.req_ready.
  - reflexivity.
  - cbn [decide] in H. destruct (decide (11776 = 0)) as [?|_]; [discriminate|]. destruct H as (_ & _ & _ & Hd). exists b', w'. split; [exact E|].
    specialize (Hd w' (meanwhile_refl _ _ _ _ _)). 
    match type of Hd with delivers _ _ _ _ ?r => replace r with ([129; 12; 0; 1; 4; 0; 0; 0; 0; 0; 0; 8; 1; 2; 3; 4; 0; 0; 0; 0; 0; 0; 0; 1] ++ [0; 0; 0; 0] ++ bytes "A" ++ bytes "xyz") in Hd by (vm_compute; reflexivity) end.
    exact Hd.
Defined.

