(* ===== verification/McPrefix.v ===== *)
(** Statistics by key prefix (src/memcached-sr/stats.c): a table of 256 chains that counts the
    gets, hits, sets and deletes of the keys with a common prefix, up to a delimiter, and
    its text.

    [hash] is the hash function of the table of items, [delimiter] the setting.  The two
    booleans of an operation say whether calloc and malloc succeed.  The lock is not
    modelled: every operation holds it.  The two counters of type int are integers here: they
    count entries and bytes that are in memory. *)
From S2P Require Import Prelude McItoa McUtil.

Definition PREFIX_HASH_SIZE : Z := 256.
Record prefix_entry := { prefix : list Z; num_gets : Z; num_sets : Z; num_deletes : Z; num_hits : Z }.
Record prefix_stats := { chains : list (list prefix_entry); num_prefixes : Z; total_prefix_size : Z }.

Definition stats_prefix_init (st : prefix_stats) : prefix_stats :=
  {| chains := replicate (Z.to_nat PREFIX_HASH_SIZE) []; num_prefixes := num_prefixes st; total_prefix_size := total_prefix_size st |}.
Definition stats_prefix_clear : prefix_stats :=
  {| chains := replicate (Z.to_nat PREFIX_HASH_SIZE) []; num_prefixes := 0; total_prefix_size := 0 |}.

Create HintDb prefix.

Section prefixes.
Context (hash : list Z -> Z) (delimiter : Z).

(** The bytes before the first delimiter, if there is one before the end of the key. *)
Fixpoint prefix_of (key : list Z) : option (list Z) :=
  match key with
  | [] => None
  | c :: key => if c =? 0 then None else if c =? delimiter then Some [] else cons c <$> prefix_of key
  end.
(** [strncmp(pfs->prefix, key, length) == 0], where [p] are the first [length] bytes of the key. *)
Definition matches (p : list Z) (e : prefix_entry) : bool := bool_decide (take (length p) (prefix e) = p).
Fixpoint find_in (p : list Z) (l : list prefix_entry) : option nat :=
  match l with
  | [] => None
  | e :: l => if matches p e then Some 0%nat else S <$> find_in p l
  end.
Definition prefix_bucket (p : list Z) : nat := Z.to_nat (hash p mod PREFIX_HASH_SIZE).

(** The chain and the place in it of the entry for a key, and the table. *)
Definition stats_prefix_find (calloc_ok malloc_ok : bool) (key : list Z) (st : prefix_stats) : option (nat * nat) * prefix_stats :=
  match prefix_of key with
  | None => (None, st)
  | Some p =>
      let b := prefix_bucket p in
      let l := nth b (chains st) [] in
      match find_in p l with
      | Some i => (Some (b, i), st)
      | None =>
          if calloc_ok && malloc_ok then
            let e := {| prefix := p; num_gets := 0; num_sets := 0; num_deletes := 0; num_hits := 0 |} in
            (Some (b, 0%nat), {| chains := <[b := e :: l]> (chains st); num_prefixes := num_prefixes st + 1;
                                 total_prefix_size := total_prefix_size st + Z.of_nat (length p) |})
          else (None, st)
      end
  end.
Definition upd_entry (f : prefix_entry -> prefix_entry) (r : option (nat * nat) * prefix_stats) : prefix_stats :=
  match r with
  | (None, st) => st
  | (Some (b, i), st) =>
      {| chains := alter (alter f i) b (chains st); num_prefixes := num_prefixes st; total_prefix_size := total_prefix_size st |}
  end.
Definition tally_get (is_hit : bool) (e : prefix_entry) : prefix_entry :=
  {| prefix := prefix e; num_gets := u64 (num_gets e + 1); num_sets := num_sets e; num_deletes := num_deletes e;
     num_hits := if is_hit then u64 (num_hits e + 1) else num_hits e |}.
Definition tally_set (e : prefix_entry) : prefix_entry :=
  {| prefix := prefix e; num_gets := num_gets e; num_sets := u64 (num_sets e + 1); num_deletes := num_deletes e; num_hits := num_hits e |}.
Definition tally_delete (e : prefix_entry) : prefix_entry :=
  {| prefix := prefix e; num_gets := num_gets e; num_sets := num_sets e; num_deletes := u64 (num_deletes e + 1); num_hits := num_hits e |}.
Definition stats_prefix_record_get (c m : bool) (key : list Z) (is_hit : bool) (st : prefix_stats) : prefix_stats :=
  upd_entry (tally_get is_hit) (stats_prefix_find c m key st).
Definition stats_prefix_record_delete (c m : bool) (key : list Z) (st : prefix_stats) : prefix_stats :=
  upd_entry tally_delete (stats_prefix_find c m key st).
Definition stats_prefix_record_set (c m : bool) (key : list Z) (st : prefix_stats) : prefix_stats :=
  upd_entry tally_set (stats_prefix_find c m key st).
End prefixes.

(** ** The text *)

Definition line_end : list Z := [13; 10].
Definition prefix_format : list Z := bytes "PREFIX %s get %llu hit %llu set %llu del %llu" ++ line_end.
Definition entry_line (e : prefix_entry) : list Z :=
  bytes "PREFIX " ++ prefix e ++ bytes " get " ++ decimal (num_gets e) ++ bytes " hit " ++ decimal (num_hits e) ++
  bytes " set " ++ decimal (num_sets e) ++ bytes " del " ++ decimal (num_deletes e) ++ line_end.
(** [snprintf(buf + pos, room, ...)]: the text is cut to leave a byte for the NUL. *)
Definition snprintf (pos room : nat) (text buf : list Z) : list Z :=
  if (room =? 0)%nat then buf else write pos (take (room - 1) text ++ [0]) buf.
(** The size of the buffer. *)
Definition dump_size (st : prefix_stats) : Z :=
  Z.of_nat (length prefix_format) + total_prefix_size st + num_prefixes st * (Z.of_nat (length prefix_format) - 2 + 4 * (20 - 4)) + 6.
(** The lines of the entries; [None] is the failure of the assertion. *)
Fixpoint dump_loop (es : list prefix_entry) (size pos : nat) (buf : list Z) : option (nat * list Z) :=
  match es with
  | [] => Some (pos, buf)
  | e :: es =>
      let line := entry_line e in
      let buf := snprintf pos (size - pos) line buf in
      if (pos + length line <? size)%nat then dump_loop es size (pos + length line) buf else None
  end.
(** The buffer and the length of the text.  [fresh] gives the bytes of new memory; the final copy
    needs its 6 bytes. *)
Inductive dump_result := Dump_null | Dump_overrun | Dump_text (buf : list Z) (length : nat).
Definition stats_prefix_dump (malloc_ok : bool) (fresh : nat -> Z) (st : prefix_stats) : dump_result :=
  let size := Z.to_nat (dump_size st) in
  if negb malloc_ok then Dump_null
  else match dump_loop (concat (chains st)) size 0 (map fresh (seq 0 size)) with
       | None => Dump_overrun
       | Some (pos, buf) =>
           if (pos + 6 <=? size)%nat then Dump_text (write pos (bytes "END" ++ line_end ++ [0]) buf) (pos + 5) else Dump_overrun
       end.

(** ** The table *)

Definition sum_lengths (es : list prefix_entry) : Z := foldr (fun e n => Z.of_nat (length (prefix e)) + n) 0 es.
Definition counters_ok (e : prefix_entry) : Prop :=
  0 <= num_gets e < 2 ^ 64 /\ 0 <= num_sets e < 2 ^ 64 /\ 0 <= num_deletes e < 2 ^ 64 /\ 0 <= num_hits e < 2 ^ 64.
(** The form of an update of an entry. *)
Definition counts (f : prefix_entry -> prefix_entry) : Prop := forall e, prefix (f e) = prefix e /\ (counters_ok e -> counters_ok (f e)).

Lemma u64_range x : 0 <= u64 x < 2 ^ 64.
Proof. apply (wrap_range 64). lia. Qed.
Lemma counts_get h : counts (tally_get h).
Proof. intros e. split; [done|]. unfold counters_ok. cbn. pose proof (u64_range (num_gets e + 1)). pose proof (u64_range (num_hits e + 1)). destruct h; intuition lia. Qed.
Lemma counts_set : counts tally_set.
Proof. intros e. split; [done|]. unfold counters_ok. cbn. pose proof (u64_range (num_sets e + 1)). intuition lia. Qed.
Lemma counts_delete : counts tally_delete.
Proof. intros e. split; [done|]. unfold counters_ok. cbn. pose proof (u64_range (num_deletes e + 1)). intuition lia. Qed.
#[export] Hint Resolve counts_get counts_set counts_delete : prefix.

Lemma sum_lengths_app l r : sum_lengths (l ++ r) = sum_lengths l + sum_lengths r.
Proof. induction l as [|e l IH]; [done|]. cbn [app sum_lengths foldr]. fold (sum_lengths (l ++ r)) (sum_lengths l). lia. Qed.

Section table.
Context (hash : list Z -> Z) (delimiter : Z).
Abbreviation pbucket := (prefix_bucket hash).
Abbreviation find := (stats_prefix_find hash delimiter).

Record table_ok (st : prefix_stats) : Prop := {
  to_length : length (chains st) = 256%nat;
  to_place : forall b l e, chains st !! b = Some l -> e ∈ l -> pbucket (prefix e) = b;
  to_distinct : forall b l, chains st !! b = Some l -> NoDup (map prefix l);
  to_counters : Forall counters_ok (concat (chains st));
  to_number : num_prefixes st = Z.of_nat (length (concat (chains st)));
  to_size : total_prefix_size st = sum_lengths (concat (chains st))
}.

Lemma bucket_range p : (pbucket p < 256)%nat.
Proof. unfold prefix_bucket, PREFIX_HASH_SIZE. pose proof (Z.mod_pos_bound (hash p) 256 ltac:(lia)). lia. Qed.
Lemma clear_ok : table_ok stats_prefix_clear.
Proof.
  assert (concat (chains stats_prefix_clear) = []) as E by reflexivity.
  assert (forall b l, chains stats_prefix_clear !! b = Some l -> l = []) as Hl by (intros b l [-> _]%lookup_replicate_1; done).
  split; try done; [intros b l e Hb He|intros b l Hb].
  - rewrite (Hl b l Hb) in He. by apply not_elem_of_nil in He.
  - rewrite (Hl b l Hb). constructor.
Qed.

Lemma find_in_Some p l i : find_in p l = Some i -> exists e, l !! i = Some e /\ matches p e = true.
Proof.
  revert i. induction l as [|e l IH]; intros i E; [done|]. cbn [find_in] in E. destruct (matches p e) eqn:Em.
  - injection E as <-. by exists e.
  - destruct (find_in p l) as [j|]; [|done]. injection E as <-. by apply IH.
Qed.
Lemma find_in_None p l e : find_in p l = None -> e ∈ l -> matches p e = false.
Proof.
  induction l as [|e' l IH]; cbn [find_in]; intros E He; [by apply not_elem_of_nil in He|]. destruct (matches p e') eqn:Em; [done|].
  destruct (find_in p l); [done|]. apply elem_of_cons in He as [-> |He]; [done|]. by apply IH.
Qed.
Lemma matches_self p e : prefix e = p -> matches p e = true.
Proof. intros <-. unfold matches. rewrite take_ge by lia. by apply bool_decide_eq_true. Qed.

(** The chains around one of them. *)
Lemma chains_split st b : (b < length (chains st))%nat -> exists l, chains st !! b = Some l /\ nth b (chains st) [] = l /\
  concat (chains st) = concat (take b (chains st)) ++ l ++ concat (drop (S b) (chains st)) /\
  forall l', concat (<[b := l']> (chains st)) = concat (take b (chains st)) ++ l' ++ concat (drop (S b) (chains st)).
Proof.
  intros Hb. destruct (lookup_lt_is_Some_2 _ _ Hb) as [l Hl]. exists l. split_and!; [done|by rewrite nth_lookup, Hl| |].
  - rewrite <- (take_drop_middle _ _ _ Hl) at 1. by rewrite concat_app, concat_cons.
  - intros l'. by rewrite insert_take_drop, concat_app, concat_cons by done.
Qed.

(** A new entry. *)
Definition new_entry (p : list Z) : prefix_entry := {| prefix := p; num_gets := 0; num_sets := 0; num_deletes := 0; num_hits := 0 |}.
Lemma lookup_set (b b' : nat) (l l' : list prefix_entry) (cs : list (list prefix_entry)) : (b < length cs)%nat ->
  <[b := l]> cs !! b' = Some l' -> b' = b /\ l' = l \/ b' <> b /\ cs !! b' = Some l'.
Proof.
  intros Hb E. destruct (decide (b' = b)) as [-> |Hne]; [rewrite list_lookup_insert_eq in E by done; injection E as <-; by left|].
  rewrite list_lookup_insert_ne in E by done. by right.
Qed.
Lemma set_chain_ok st b l l' n s : table_ok st -> chains st !! b = Some l -> (forall e, e ∈ l' -> pbucket (prefix e) = b) -> NoDup (map prefix l') -> Forall counters_ok l' ->
  n = num_prefixes st + Z.of_nat (length l') - Z.of_nat (length l) -> s = total_prefix_size st + sum_lengths l' - sum_lengths l ->
  table_ok {| chains := <[b := l']> (chains st); num_prefixes := n; total_prefix_size := s |}.
Proof.
  intros [H1 H2 H3 H4 H5 H6] Hl Hp Hd Hc -> ->. pose proof (lookup_lt_Some _ _ _ Hl) as Hb. destruct (chains_split st b Hb) as (l0 & Hl0 & _ & E1 & E2).
  rewrite Hl in Hl0. injection Hl0 as <-. rewrite E1 in *. split; cbn [chains num_prefixes total_prefix_size].
  - by rewrite length_insert.
  - intros b' l1 e E He. destruct (lookup_set b b' l' l1 _ Hb E) as [[-> ->]|[_ E']]; [by apply Hp|by apply (H2 b' l1)].
  - intros b' l1 E. destruct (lookup_set b b' l' l1 _ Hb E) as [[-> ->]|[_ E']]; [done|by apply (H3 b')].
  - rewrite E2. rewrite !Forall_app in *. intuition.
  - rewrite E2, H5, !length_app. lia.
  - rewrite E2, H6, !sum_lengths_app. lia.
Qed.
Lemma map_alter_prefix f i l : (forall e, prefix (f e) = prefix e) -> map prefix (alter f i l) = map prefix l.
Proof. intros Hf. revert i. induction l as [|e l IH]; intros [|i]; cbn; [done|done|by rewrite Hf|]. f_equal. apply IH. Qed.
Lemma sum_map l r : map prefix l = map prefix r -> sum_lengths l = sum_lengths r.
Proof. revert r. induction l as [|e l IH]; intros [|e' r] E; try done. injection E as E1 E2. cbn [sum_lengths foldr]. rewrite E1. f_equal. by apply IH. Qed.
Lemma alter_insert_chain (f : list prefix_entry -> list prefix_entry) b l (cs : list (list prefix_entry)) : cs !! b = Some l -> alter f b cs = <[b := f l]> cs.
Proof. intros Hl. apply list_eq. intros i. destruct (decide (i = b)) as [-> |]; [|by rewrite list_lookup_alter_ne, list_lookup_insert_ne].
  rewrite list_lookup_alter_eq, Hl, list_lookup_insert_eq by (by eapply lookup_lt_Some). done. Qed.

(** An operation is an update of one chain. *)
Lemma record_chain c m key st f : table_ok st -> let st' := upd_entry f (find c m key st) in
  st' = st /\ (prefix_of delimiter key = None \/ c && m = false) \/ exists p l l1 i, prefix_of delimiter key = Some p /\ chains st !! pbucket p = Some l /\ find_in p l1 = Some i /\
    (l1 = l \/ find_in p l = None /\ l1 = new_entry p :: l /\ i = 0%nat) /\
    st' = {| chains := <[pbucket p := alter f i l1]> (chains st); num_prefixes := num_prefixes st + Z.of_nat (length l1) - Z.of_nat (length l);
             total_prefix_size := total_prefix_size st + sum_lengths l1 - sum_lengths l |}.
Proof.
  intros Hok st'. unfold st', stats_prefix_find. destruct (prefix_of delimiter key) as [p|]; [|by left; split; [|left]].
  destruct (chains_split st (pbucket p)) as (l & Hl & Hnth & _); [rewrite (to_length _ Hok); apply bucket_range|]. rewrite Hnth.
  destruct (find_in p l) as [i|] eqn:Ef.
  - right. exists p, l, l, i. split_and!; try done; [by left|]. cbn [upd_entry]. rewrite (alter_insert_chain _ _ l) by done. f_equal; lia.
  - destruct (c && m); [|by left; split; [|right]]. right. exists p, l, (new_entry p :: l), 0%nat. split_and!; try done.
    + cbn [find_in]. by rewrite matches_self.
    + right. done.
    + cbn [upd_entry chains num_prefixes total_prefix_size]. rewrite (alter_insert_chain _ _ (new_entry p :: l)).
      * rewrite list_insert_insert, decide_True by done. cbn [length sum_lengths foldr prefix new_entry]. fold (sum_lengths l). f_equal; lia.
      * apply list_lookup_insert_eq. rewrite (to_length _ Hok). apply bucket_range.
Qed.
Lemma record_ok c m key st f : counts f -> table_ok st -> table_ok (upd_entry f (find c m key st)).
Proof.
  intros Hf Hok. destruct (record_chain c m key st f Hok) as [[-> _]|(p & l & l1 & i & Hp & Hl & Hi & Hl1 & ->)]; [done|].
  assert (map prefix (alter f i l1) = map prefix l1) as Em by (apply map_alter_prefix; intros e; apply Hf).
  pose proof (f_equal length Em) as En. rewrite !length_map in En. pose proof (sum_map _ _ Em) as Es.
  assert (forall e, e ∈ l1 -> pbucket (prefix e) = pbucket p) as Hplace.
  { intros e He. destruct Hl1 as [->|(_ & -> & _)]; [by apply (to_place _ Hok _ l)|]. apply elem_of_cons in He as [-> |He]; [done|by apply (to_place _ Hok _ l)]. }
  assert (Forall counters_ok l1) as Hc.
  { assert (Forall counters_ok l) as Hcl.
    { pose proof (to_counters _ Hok) as Hc. destruct (chains_split st (pbucket p)) as (l0 & Hl0 & _ & E & _); [by eapply lookup_lt_Some|]. rewrite Hl in Hl0. injection Hl0 as <-.
      rewrite E, !Forall_app in Hc. intuition. }
    destruct Hl1 as [->|(_ & -> & _)]; [done|]. constructor; [|done]. unfold counters_ok. cbn. lia. }
  apply (set_chain_ok st (pbucket p) l); try done; [| | | |lia].
  - intros e He. assert (prefix e ∈ map prefix l1) as Hin by (rewrite <- Em; by apply list_elem_of_fmap_2). apply list_elem_of_fmap in Hin as (e' & -> & He'). by apply Hplace.
  - rewrite Em. pose proof (to_distinct _ Hok _ l Hl) as Hd. destruct Hl1 as [->|(Hn & -> & _)]; [done|]. cbn [map]. constructor; [|done]. cbn [prefix new_entry].
    intros (e & Ee & He)%list_elem_of_fmap. pose proof (find_in_None p l e Hn He) as Hm. by rewrite (matches_self p e) in Hm.
  - apply Forall_alter; [done|]. intros e _. apply Hf.
  - rewrite En. lia.
Qed.

Lemma elem_concat (e : prefix_entry) cs : e ∈ concat cs <-> exists l, l ∈ cs /\ e ∈ l.
Proof. rewrite list_elem_of_In, in_concat. by setoid_rewrite list_elem_of_In. Qed.
(** The entries of a prefix. *)
Definition entries (p : list Z) (l : list prefix_entry) : list prefix_entry := filter (fun e => prefix e = p) l.
Lemma entries_none p l : (forall e, e ∈ l -> prefix e <> p) -> entries p l = [].
Proof. induction l as [|e l IH]; intros H; [done|]. unfold entries. rewrite filter_cons_False by (apply H; left). apply IH. intros e' He'. apply H. by right. Qed.
Lemma entries_at p l i e : l !! i = Some e -> prefix e = p -> NoDup (map prefix l) -> entries p l = [e].
Proof.
  intros Hi He Hd. rewrite <- (take_drop_middle l i e Hi) in *. rewrite map_app in Hd. cbn [map] in Hd. apply NoDup_app in Hd as (_ & H1 & [H2 _]%NoDup_cons).
  unfold entries. rewrite filter_app, filter_cons_True by done. fold (entries p (take i l)) (entries p (drop (S i) l)). rewrite !entries_none; [done| |].
  - intros e' He' E. apply H2. rewrite He, <- E. by apply list_elem_of_fmap_2.
  - intros e' He' E. apply (H1 (prefix e')); [by apply list_elem_of_fmap_2|]. rewrite E, <- He. left.
Qed.
Lemma entries_alter q f i l e : l !! i = Some e -> (forall e, prefix (f e) = prefix e) -> q <> prefix e -> entries q (alter f i l) = entries q l.
Proof.
  intros Hi Hf Hq. revert i Hi. induction l as [|e' l IH]; intros [|i] Hi; try done.
  - injection Hi as ->. change (alter f 0%nat (e :: l)) with (f e :: l). unfold entries. rewrite !filter_cons_False; [done|done|]. rewrite Hf. done.
  - change (alter f (S i) (e' :: l)) with (e' :: alter f i l). unfold entries in *. rewrite !filter_cons. by rewrite (IH i Hi).
Qed.
Lemma entries_chain st q l : table_ok st -> chains st !! pbucket q = Some l -> entries q (concat (chains st)) = entries q l.
Proof.
  intros Hok Hl. destruct (chains_split st (pbucket q)) as (l0 & Hl0 & _ & E & _); [by eapply lookup_lt_Some|]. rewrite Hl in Hl0. injection Hl0 as <-.
  rewrite E. unfold entries. rewrite !filter_app. fold (entries q). 
  assert (forall cs, (forall j l', cs !! j = Some l' -> exists j', j' <> pbucket q /\ chains st !! j' = Some l') -> entries q (concat cs) = []) as Hno.
  { intros cs Hcs. apply entries_none. intros e (l' & Hl' & He)%elem_concat Ee. apply list_elem_of_lookup in Hl' as [j Hj]. destruct (Hcs j l' Hj) as (j' & Hne & Hj').
    apply Hne. rewrite <- Ee. symmetry. by apply (to_place _ Hok j' l'). }
  unfold entries in Hno. rewrite !Hno; [by rewrite app_nil_r| |].
  - intros j l'. rewrite lookup_drop. intros Hj. exists (S (pbucket q) + j)%nat. split; [lia|done].
  - intros j l' Hj. apply lookup_take_Some in Hj as [Hj Hlt]. exists j. split; [lia|done].
Qed.

(** The effect of an operation, when the strings of a chain are told apart. *)
Lemma record_entries key p st f : counts f -> table_ok st -> prefix_of delimiter key = Some p ->
  (forall e, e ∈ concat (chains st) -> pbucket (prefix e) = pbucket p -> take (length p) (prefix e) = p -> prefix e = p) ->
  let st' := upd_entry f (find true true key st) in
  entries p (concat (chains st')) = [f (default (new_entry p) (head (entries p (concat (chains st)))))] /\
  forall q, q <> p -> entries q (concat (chains st')) = entries q (concat (chains st)).
Proof.
  intros Hf Hok Hp Hsep st'. pose proof (record_ok true true key st f Hf Hok) as Hok'. fold st' in Hok'.
  destruct (record_chain true true key st f Hok) as [[_ [E|E]]|(p' & l & l1 & i & Hp' & Hl & Hi & Hl1 & E)]; [congruence|done|].
  assert (p' = p) as -> by congruence. fold st' in E.
  assert (chains st' !! pbucket p = Some (alter f i l1)) as Hl' by (rewrite E; cbn [chains]; apply list_lookup_insert_eq; by eapply lookup_lt_Some).
  assert (map prefix (alter f i l1) = map prefix l1) as Em by (apply map_alter_prefix; intros e; apply Hf).
  pose proof (to_distinct _ Hok' _ _ Hl') as Hd. destruct (find_in_Some _ _ _ Hi) as (e & He & Hm).
  assert (prefix e = p) as Hep.
  { destruct Hl1 as [->|(_ & -> & ->)]; [|by injection He as <-]. unfold matches in Hm. apply bool_decide_eq_true in Hm. pose proof (list_elem_of_lookup_2 _ _ _ He) as Hin.
    apply Hsep; [|by apply (to_place _ Hok _ l)|done]. apply elem_concat. exists l. split; [by eapply list_elem_of_lookup_2|done]. }
  split.
  - rewrite (entries_chain st' p _ Hok' Hl'), (entries_chain st p _ Hok Hl). rewrite (entries_at p _ i (f e)); [|by rewrite list_lookup_alter_eq, He|by rewrite (proj1 (Hf e))|done].
    f_equal. f_equal. rewrite Em in Hd. destruct Hl1 as [->|(Hn & -> & ->)].
    + by rewrite (entries_at p l i e).
    + injection He as <-. rewrite entries_none; [done|]. intros e' He' E'. pose proof (find_in_None p l e' Hn He') as H. by rewrite (matches_self p e' E') in H.
  - intros q Hq. destruct (lookup_lt_is_Some_2 (chains st) (pbucket q)) as [lq Hlq]; [rewrite (to_length _ Hok); apply bucket_range|].
    destruct (decide (pbucket q = pbucket p)) as [Eb|Hb].
    + rewrite (entries_chain st' q (alter f i l1)), (entries_chain st q l) by (by rewrite ?Eb). rewrite (entries_alter _ _ _ _ e) by (done || apply Hf || by rewrite Hep).
      destruct Hl1 as [->|(_ & -> & _)]; [done|]. unfold entries. by rewrite filter_cons_False by (intros E'; by apply Hq).
    + rewrite (entries_chain st q lq), (entries_chain st' q lq); [done|done| |done|done]. rewrite E. cbn [chains]. by rewrite list_lookup_insert_ne.
Qed.
End table.

(** ** Histories *)

Section history.
Context (hash : list Z -> Z) (delimiter : Z).

(** What the server records, and its effect when memory is available. *)
Inductive pop := PGet (key : list Z) (is_hit : bool) | PSet (key : list Z) | PDelete (key : list Z) | PClear.
Definition pop_key (o : pop) : option (list Z) := match o with PGet k _ | PSet k | PDelete k => Some k | PClear => None end.
Definition pop_prefix (o : pop) : option (list Z) := k ← pop_key o; prefix_of delimiter k.
Definition tally (o : pop) : prefix_entry -> prefix_entry :=
  match o with PGet _ h => tally_get h | PSet _ => tally_set | PDelete _ => tally_delete | PClear => id end.
Definition pstep (st : prefix_stats) (o : pop) : prefix_stats :=
  match o with
  | PGet k h => stats_prefix_record_get hash delimiter true true k h st
  | PSet k => stats_prefix_record_set hash delimiter true true k st
  | PDelete k => stats_prefix_record_delete hash delimiter true true k st
  | PClear => stats_prefix_clear
  end.
Definition pruns (h : list pop) : prefix_stats := fold_left pstep h stats_prefix_clear.

(** The specification: the operations on a prefix since the last clear, counted. *)
Fixpoint since_clear (h : list pop) (seen : list pop) : list pop :=
  match h with
  | [] => seen
  | PClear :: h => since_clear h []
  | o :: h => since_clear h (seen ++ [o])
  end.
Definition ops_on (p : list Z) (h : list pop) : list pop := filter (fun o => pop_prefix o = Some p) (since_clear h []).
Definition how_many (P : pop -> bool) (l : list pop) : Z := Z.of_nat (length (List.filter P l)).
Definition totals (p : list Z) (l : list pop) : prefix_entry :=
  {| prefix := p;
     num_gets := u64 (how_many (fun o => match o with PGet _ _ => true | _ => false end) l);
     num_sets := u64 (how_many (fun o => match o with PSet _ => true | _ => false end) l);
     num_deletes := u64 (how_many (fun o => match o with PDelete _ => true | _ => false end) l);
     num_hits := u64 (how_many (fun o => match o with PGet _ h => h | _ => false end) l) |}.
Definition expected (p : list Z) (h : list pop) : list prefix_entry :=
  match ops_on p h with [] => [] | l => [totals p l] end.

(** No prefix in use continues another one of the same chain. *)
Definition separated (h : list pop) : Prop := forall o o' p q, o ∈ h -> o' ∈ h -> pop_prefix o = Some p -> pop_prefix o' = Some q ->
  prefix_bucket hash p = prefix_bucket hash q -> take (length p) q = p -> p = q.

Lemma since_clear_snoc h o : forall seen, since_clear (h ++ [o]) seen = match o with PClear => [] | _ => since_clear h seen ++ [o] end.
Proof. induction h as [|o' h IH]; intros seen; [by destruct o|]. destruct o'; cbn [app since_clear]; apply IH. Qed.
Lemma ops_on_snoc p h o : pop_key o <> None -> ops_on p (h ++ [o]) = ops_on p h ++ (if decide (pop_prefix o = Some p) then [o] else []).
Proof. intros Ho. unfold ops_on. rewrite since_clear_snoc. destruct o; [..|done]; rewrite filter_app, filter_cons; done. Qed.
Lemma u64_succ n k : u64 (u64 n + k) = u64 (n + k).
Proof. unfold u64, wrap. by rewrite Zplus_mod_idemp_l. Qed.
Lemma how_many_snoc P l o : how_many P (l ++ [o]) = how_many P l + (if P o then 1 else 0).
Proof. unfold how_many. rewrite List.filter_app, length_app. cbn. destruct (P o); cbn [length]; lia. Qed.
Lemma totals_snoc p l o : totals p (l ++ [o]) = tally o (totals p l).
Proof.
  unfold totals. rewrite !how_many_snoc. destruct o as [k h|k|k|]; [destruct h|..]; unfold tally, tally_get, tally_set, tally_delete;
    cbn [id prefix num_gets num_sets num_deletes num_hits]; rewrite ?u64_succ, ?Z.add_0_r; done.
Qed.
Lemma tally_counts o : counts (tally o).
Proof. destruct o; cbn; auto with prefix. by intros e. Qed.
Lemma pstep_key st o k : pop_key o = Some k -> pstep st o = upd_entry (tally o) (stats_prefix_find hash delimiter true true k st).
Proof. destruct o; intros E; try done; by injection E as <-. Qed.
Lemma separated_snoc h o : separated (h ++ [o]) -> separated h.
Proof. intros H o1 o2 p q H1 H2. apply H; apply elem_of_app; by left. Qed.
Lemma since_clear_sub h : forall seen o, o ∈ since_clear h seen -> o ∈ seen \/ o ∈ h.
Proof.
  induction h as [|o' h IH]; intros seen o Ho; [by left|].
  assert (forall seen', o ∈ since_clear h seen' -> (forall x, x ∈ seen' -> x ∈ seen \/ x = o') -> o ∈ seen \/ o ∈ o' :: h) as K.
  { intros seen' H Hs. destruct (IH seen' o H) as [Hx|Hx]; [destruct (Hs o Hx) as [?| ->]; [by left|right; left]|right; by right]. }
  destruct o'; cbn [since_clear] in Ho; eapply K; eauto; intros x Hx; rewrite ?elem_of_app, ?list_elem_of_singleton in Hx; try tauto; by apply not_elem_of_nil in Hx.
Qed.

(** An entry of the table belongs to an operation of the history. *)
Lemma expected_used h e p : e ∈ expected p h -> prefix e = p /\ exists o, o ∈ h /\ pop_prefix o = Some p.
Proof.
  unfold expected. destruct (ops_on p h) as [|o l] eqn:E; [intros []%not_elem_of_nil|]. intros ->%list_elem_of_singleton. split; [done|]. exists o.
  assert (o ∈ ops_on p h) as Ho by (rewrite E; left). unfold ops_on in Ho. apply list_elem_of_filter in Ho as [Hp Ho]. split; [|done].
  destruct (since_clear_sub h [] o Ho) as [H|H]; [by apply not_elem_of_nil in H|done].
Qed.
Lemma history_exact h : separated h -> table_ok hash (pruns h) /\ forall p, entries p (concat (chains (pruns h))) = expected p h.
Proof.
  induction h as [|o h IH] using rev_ind; intros Hs; [split; [apply clear_ok|done]|].
  destruct (IH (separated_snoc h o Hs)) as [Hok He]. unfold pruns. rewrite fold_left_app. fold (pruns h). cbn [fold_left].
  destruct (pop_key o) as [k|] eqn:Ek.
  2:{ destruct o; try done. cbn [pstep]. split; [apply clear_ok|]. intros p. unfold expected, ops_on. by rewrite since_clear_snoc. }
  rewrite (pstep_key _ _ k Ek). split; [apply record_ok; [apply tally_counts|done]|]. intros q. unfold expected. rewrite ops_on_snoc by congruence.
  destruct (prefix_of delimiter k) as [p|] eqn:Ep.
  2:{ unfold stats_prefix_find. rewrite Ep. cbn [upd_entry]. rewrite He. unfold pop_prefix. rewrite Ek. cbn. rewrite Ep. by rewrite decide_False, app_nil_r by done. }
  assert (pop_prefix o = Some p) as Eo by (unfold pop_prefix; rewrite Ek; cbn; by rewrite Ep).
  destruct (record_entries hash delimiter k p (pruns h) (tally o) (tally_counts o) Hok Ep) as [H1 H2].
  { intros e Hin Hb Ht. assert (e ∈ entries (prefix e) (concat (chains (pruns h)))) as Hin' by (by apply list_elem_of_filter).
    rewrite He in Hin'. apply expected_used in Hin' as (_ & o' & Ho' & Eo'). symmetry. apply (Hs o o'); try done; apply elem_of_app; [by right; left|by left]. }
  destruct (decide (q = p)) as [-> |Hq].
  - rewrite H1, He, decide_True by done. unfold expected. destruct (ops_on p h) as [|o1 l1].
    + cbn [app head default]. by rewrite <- (totals_snoc p []).
    + rewrite <- app_comm_cons. cbn [head default]. by rewrite app_comm_cons, totals_snoc.
  - rewrite (H2 q Hq), He. rewrite decide_False, app_nil_r by congruence. done.
Qed.
End history.

(** ** The text fits *)

Lemma take_written p t r buf : (p + length (t ++ r) <= length buf)%nat -> take (p + length t) (write p (t ++ r) buf) = take p buf ++ t.
Proof.
  rewrite length_app. intros H. unfold write. rewrite <- app_assoc, app_assoc.
  assert (p + length t = length (take p buf ++ t))%nat as -> by (rewrite length_app, length_take; lia). apply take_app_length.
Qed.
Lemma length_entry_line e : counters_ok e -> (length (entry_line e) <= length (prefix e) + 109)%nat.
Proof.
  intros (H1 & H2 & H3 & H4). assert (forall n, 0 <= n < 2 ^ 64 -> (length (decimal n) <= 20)%nat) as Hd by (intros n Hn; apply (length_decimal n 20); cbn; lia).
  pose proof (Hd _ H1). pose proof (Hd _ H2). pose proof (Hd _ H3). pose proof (Hd _ H4). unfold entry_line. rewrite !length_app.
  change (length (bytes "PREFIX ")) with 7%nat. change (length (bytes " get ")) with 5%nat. change (length (bytes " hit ")) with 5%nat.
  change (length (bytes " set ")) with 5%nat. change (length (bytes " del ")) with 5%nat. change (length line_end) with 2%nat. lia.
Qed.
Definition text_of (es : list prefix_entry) : list Z := concat (map entry_line es).
Lemma length_text_of es : Forall counters_ok es -> Z.of_nat (length (text_of es)) <= sum_lengths es + 109 * Z.of_nat (length es).
Proof.
  unfold text_of. induction 1 as [|e es He _ IH]; [done|]. cbn [map concat]. rewrite length_app. cbn [sum_lengths foldr length]. fold (sum_lengths es).
  pose proof (length_entry_line e He). lia.
Qed.
Lemma dump_loop_text es size : forall pos buf, length buf = size -> (pos + length (text_of es) < size)%nat ->
  exists buf', dump_loop es size pos buf = Some (pos + length (text_of es), buf')%nat /\ length buf' = size /\
    take (pos + length (text_of es)) buf' = take pos buf ++ text_of es.
Proof.
  unfold text_of. induction es as [|e es IH]; intros pos buf Hb Hs; cbn [map concat dump_loop] in *.
  - exists buf. rewrite Nat.add_0_r, app_nil_r. done.
  - rewrite length_app in *. replace (pos + length (entry_line e) <? size)%nat with true by (symmetry; apply Nat.ltb_lt; lia).
    unfold snprintf. replace (size - pos =? 0)%nat with false by (symmetry; apply Nat.eqb_neq; lia). rewrite take_ge by lia.
    set (buf1 := write pos (entry_line e ++ [0]) buf). assert (length buf1 = size) as Hb1 by (unfold buf1; rewrite length_write; [done|rewrite length_app; cbn [length]; lia]).
    destruct (IH (pos + length (entry_line e))%nat buf1 Hb1) as (buf' & E & Hl & Ht); [lia|]. exists buf'. rewrite !Nat.add_assoc. split_and!; [done|done|].
    rewrite Ht. unfold buf1. rewrite take_written by (rewrite length_app; cbn [length]; lia). by rewrite app_assoc.
Qed.
Lemma dump_text hash fresh st : table_ok hash st -> exists buf len, stats_prefix_dump true fresh st = Dump_text buf len /\
  take len buf = text_of (concat (chains st)) ++ bytes "END" ++ line_end /\ length buf = Z.to_nat (dump_size st).
Proof.
  intros Hok. set (es := concat (chains st)). pose proof (length_text_of es (to_counters _ _ Hok)) as Hlen.
  assert (dump_size st = 47 + sum_lengths es + 109 * Z.of_nat (length es) + 6) as Hsize.
  { unfold dump_size. rewrite (to_number _ _ Hok), (to_size _ _ Hok). change (Z.of_nat (length prefix_format)) with 47. fold es. lia. }
  unfold stats_prefix_dump. set (size := Z.to_nat (dump_size st)). cbn [negb]. fold es.
  assert (length (text_of es) + 6 <= size)%nat as Hfit by (unfold size; lia).
  destruct (dump_loop_text es size 0 (map fresh (seq 0 size))) as (buf & E & Hl & Ht); [by rewrite length_map, length_seq|lia|]. rewrite E. cbn [Nat.add] in *.
  rewrite (proj2 (Nat.leb_le _ _) Hfit). eexists _, _. split; [done|]. split.
  - change 5%nat with (length (bytes "END" ++ line_end)). rewrite app_assoc, take_written by (cbn; lia). by rewrite Ht.
  - rewrite length_write by (cbn; lia). done.
Qed.


(** ** Examples *)

Module PrefixExample.
Definition colon : Z := 58.
Definition history : list pop :=
  [PClear; PSet (bytes "abc:1"); PGet (bytes "abc:2") false; PGet (bytes "abc:1") true; PDelete (bytes "de:1"); PGet (bytes "nothing") true].
(** A hash with which "abc" and "ab" share a chain. *)
Definition constant_hash (k : list Z) : Z := 3.
End PrefixExample.
Import PrefixExample.


(** The comparison of strncmp stops at the length of the new prefix: after a set of "abc:1", a
    get of "ab:1" in the same chain is counted for "abc". *)
Lemma shorter_prefix_merged : concat (chains (pruns constant_hash colon [PSet (bytes "abc:1"); PGet (bytes "ab:1") true])) =
  [{| prefix := bytes "abc"; num_gets := 1; num_sets := 1; num_deletes := 0; num_hits := 1 |}].
Proof. reflexivity. Qed.
