(* ===== verification/McAutomove.v ===== *)
(** The page automover (src/memcached-sr/slab_automove.c) and the rounds of the thread that
    runs it (lru_maintainer_thread in src/memcached-sr/items.c).

    For every class the automover keeps a ring of observations, one per run: the age of the
    oldest item and whether items were evicted or pages were added since the run before.
    From the other entries of the ring it picks a class with free pages to take a page from,
    or the class with the oldest items as the source and the one with the youngest as the
    destination of a page. *)
From Stdlib Require Import SpecFloat.
From S2P Require Import Prelude McItem McAssoc McLru McSlabs McItems McItemStore McItemOps McItemHistory.

(** ** The policy *)

Record window_data := { wd_age : Z; wd_dirty : Z; wd_evicted : Z }.
Definition no_data : window_data := {| wd_age := 0; wd_dirty := 0; wd_evicted := 0 |}.

(** What the statistics of items.c and slabs.c say of one class. *)
Record class_stats := { cs_outofmemory : Z; cs_evicted : Z; cs_age : Z; cs_chunks_per_page : Z; cs_free_chunks : Z; cs_total_pages : Z }.
Definition no_stats : class_stats :=
  {| cs_outofmemory := 0; cs_evicted := 0; cs_age := 0; cs_chunks_per_page := 0; cs_free_chunks := 0; cs_total_pages := 0 |}.
Definition snapshot := list class_stats.
Definition stats_of (x : snapshot) (n : Z) : class_stats := nth (Z.to_nat n) x no_stats.

(** The structures for the statistics after a run are those before the next one. *)
Record automove := {
  window : list window_data;
  window_size : Z;
  window_cur : Z;
  max_age_ratio : spec_float;
  before : snapshot
}.

Definition MIN_PAGES_FOR_SOURCE : Z := 2.

Definition slab_automove_init (calloc1 calloc2 : bool) (size : Z) (ratio : spec_float) (x : snapshot) : option automove :=
  if negb calloc1 then None
  else if negb calloc2 then None
  else Some {| window := replicate (Z.to_nat (u32 (size * MAX_NUMBER_OF_SLAB_CLASSES))) no_data; window_size := size; window_cur := 0;
               max_age_ratio := ratio; before := x |}.

Definition window_sum (wd : list window_data) (w : window_data) : window_data :=
  fold_left (fun w d => {| wd_age := u64 (wd_age w + wd_age d); wd_dirty := u64 (wd_dirty w + wd_dirty d);
                           wd_evicted := u64 (wd_evicted w + wd_evicted d) |}) wd w.

(** The observation of a class in a run. *)
Definition observe (b a : class_stats) : window_data :=
  let ev := (cs_evicted a - cs_evicted b >? 0) || (cs_outofmemory a - cs_outofmemory b >? 0) in
  {| wd_age := cs_age a;
     wd_dirty := if ev || (cs_total_pages a - cs_total_pages b >? 0) then 1 else 0;
     wd_evicted := if ev then 1 else 0 |}.

(** More free chunks than two and a half pages have; the product is exact in a double. *)
Definition reclaimable (a : class_stats) : bool := 2 * cs_free_chunks a >? 5 * cs_chunks_per_page a.

(** The candidates of a pass, -1 for none. *)
Record picked := { oldest : Z; oldest_age : Z; youngest : Z; youngest_age : Z; youngest_evicting : bool }.
Definition none_picked : picked := {| oldest := -1; oldest_age := 0; youngest := -1; youngest_age := 2 ^ 64 - 1; youngest_evicting := false |}.
Definition consider (size n : Z) (a : class_stats) (w_sum wd : window_data) (k : picked) : picked :=
  let age := wd_age w_sum / size in
  let k := if (age >? oldest_age k) && (cs_total_pages a >? MIN_PAGES_FOR_SOURCE)
           then {| oldest := n; oldest_age := age; youngest := youngest k; youngest_age := youngest_age k; youngest_evicting := youngest_evicting k |}
           else k in
  if (age <? youngest_age k) && (wd_evicted w_sum >? size / 2)
  then {| oldest := oldest k; oldest_age := oldest_age k; youngest := n; youngest_age := age; youngest_evicting := negb (wd_evicted wd =? 0) |}
  else k.

Section run.
Context (size cur : Z) (b a : snapshot).

(** The rings are stored one after the other; a run uses the same place of each. *)
Definition w_offset (n : Z) : nat := Z.to_nat (n * size).
Definition wd_place (n : Z) : nat := (w_offset n + Z.to_nat (cur mod size))%nat.

(** The pass over the classes, and the class it stopped at. *)
Fixpoint classes_loop (ns : list Z) (win : list window_data) (k : picked) : option Z * picked * list window_data :=
  match ns with
  | [] => (None, k, win)
  | n :: ns =>
      let win := <[wd_place n := no_data]> win in
      let w_sum := window_sum (take (Z.to_nat size) (drop (w_offset n) win)) no_data in
      let wd := observe (stats_of b n) (stats_of a n) in
      let win := <[wd_place n := wd]> win in
      if reclaimable (stats_of a n) && (wd_dirty w_sum =? 0) then (Some n, k, win)
      else classes_loop ns win (consider size n (stats_of a n) w_sum wd k)
  end.
End run.

Definition slab_automove_run (x : snapshot) (a : automove) : (Z * Z) * automove :=
  let cur := u32 (window_cur a + 1) in
  let '(stop, k, win) := classes_loop (window_size a) cur (before a) x (seqZ POWER_SMALLEST (MAX_NUMBER_OF_SLAB_CLASSES - POWER_SMALLEST)) (window a) none_picked in
  let d := match stop with Some n => (n, 0) | None => (-1, -1) end in
  let d := if negb (youngest k =? -1) && negb (oldest k =? -1) && (cur >? window_size a)
           then if SFltb (double (youngest_age k)) (SFmul 53 1024 (double (oldest_age k)) (max_age_ratio a)) && youngest_evicting k
                then (oldest k, youngest k) else d
           else d in
  (d, {| window := win; window_size := window_size a; window_cur := cur; max_age_ratio := max_age_ratio a; before := x |}).

(** ** The specification *)

Definition total (f : window_data -> Z) (l : list window_data) : Z := foldr (fun d s => f d + s) 0 l.
Definition all_classes : list Z := seqZ POWER_SMALLEST (MAX_NUMBER_OF_SLAB_CLASSES - POWER_SMALLEST).
Fixpoint upto (p : Z -> bool) (l : list Z) : list Z :=
  match l with
  | [] => []
  | n :: l => if p n then [] else n :: upto p l
  end.

Section spec.
Context (size : Z) (hist : list snapshot).

(** The observation of class [n] in run [i], counted from 1; there is none before. *)
Definition snap (i : Z) : snapshot := nth (Z.to_nat i) hist [].
Definition obs (n i : Z) : window_data := if i <=? 0 then no_data else observe (stats_of (snap (i - 1)) n) (stats_of (snap i) n).
(** The runs that the decision of run [j] looks back to. *)
Definition recent (j n : Z) : list window_data := map (fun d => obs n (j - d)) (seqZ 1 (size - 1)).
Definition average (j n : Z) : Z := total wd_age (recent j n) / size.
Definition frees (j n : Z) : bool := reclaimable (stats_of (snap j) n) && (total wd_dirty (recent j n) =? 0).
Definition source (j n : Z) : Prop := MIN_PAGES_FOR_SOURCE < cs_total_pages (stats_of (snap j) n).
Definition pressed (j n : Z) : Prop := size / 2 < total wd_evicted (recent j n).
(** The classes before the first one with pages to give back. *)
Definition compared (j : Z) : list Z := upto (frees j) all_classes.
Definition is_oldest (j o : Z) (l : list Z) : Prop :=
  o ∈ l /\ source j o /\ 0 < average j o /\ forall n, n ∈ l -> source j n -> average j n <= average j o /\ (average j n = average j o -> o <= n).
Definition is_youngest (j y : Z) (l : list Z) : Prop :=
  y ∈ l /\ pressed j y /\ forall n, n ∈ l -> pressed j n -> average j y <= average j n /\ (average j n = average j y -> y <= n).
Definition moves (ratio : spec_float) (j o y : Z) : Prop :=
  is_oldest j o (compared j) /\ is_youngest j y (compared j) /\ size < j /\ wd_evicted (obs y j) = 1 /\
  SFltb (double (average j y)) (SFmul 53 1024 (double (average j o)) ratio) = true.
End spec.

(** ** Rings *)

Lemma total_perm f l r : l ≡ₚ r -> total f l = total f r.
Proof. induction 1; cbn [total foldr] in *; fold (total f) in *; unfold total in *; cbn; lia. Qed.
Lemma window_sum_fields l : forall w, (forall f, f = wd_age \/ f = wd_dirty \/ f = wd_evicted -> Forall (fun d => 0 <= f d) (w :: l) /\ f w + total f l < 2 ^ 64) ->
  forall f, f = wd_age \/ f = wd_dirty \/ f = wd_evicted -> f (window_sum l w) = f w + total f l.
Proof.
  induction l as [|d l IH]; intros w Hw f Hf; [cbn; lia|]. unfold window_sum. cbn [fold_left]. fold (window_sum l).
  assert (forall f, f = wd_age \/ f = wd_dirty \/ f = wd_evicted -> u64 (f w + f d) = f w + f d) as Hs.
  { intros g Hg. destruct (Hw g Hg) as [(H1 & [H2 H3]%Forall_cons)%Forall_cons Hb]. cbn [total foldr] in Hb. fold (total g l) in Hb.
    assert (0 <= total g l) by (clear -H3; induction H3; cbn [total foldr]; [lia|]; unfold total in *; lia). apply wrap_small. lia. }
  rewrite (Hs wd_age), (Hs wd_dirty), (Hs wd_evicted) by auto. set (w' := {| wd_age := wd_age w + wd_age d |}) in *.
  assert (forall g, g = wd_age \/ g = wd_dirty \/ g = wd_evicted -> g w' = g w + g d) as Hw' by (intros g [-> |[-> | ->]]; done).
  unfold window_sum in IH. rewrite IH; [rewrite (Hw' f Hf); cbn [total foldr]; unfold total; lia| |done].
  intros g Hg. destruct (Hw g Hg) as [(H1 & [H2 H3]%Forall_cons)%Forall_cons Hb]. cbn [total foldr] in Hb. fold (total g l) in Hb.
  rewrite (Hw' g Hg). split; [|lia]. constructor; [rewrite (Hw' g Hg); lia|done].
Qed.

Lemma rotation size j : 0 < size -> map (fun d => (j - d) mod size) (seqZ 0 size) ≡ₚ seqZ 0 size.
Proof.
  intros Hs. symmetry. apply submseteq_length_Permutation; [|by rewrite length_map].
  apply NoDup_submseteq; [apply NoDup_seqZ|]. intros i Hi. apply elem_of_seqZ in Hi. apply list_elem_of_fmap. exists ((j - i) mod size).
  split; [|apply elem_of_seqZ; pose proof (Z.mod_pos_bound (j - i) size Hs); lia].
  rewrite Zminus_mod_idemp_r. replace (j - (j - i)) with i by lia. symmetry. apply Z.mod_small. lia.
Qed.
Lemma list_as_map {A} (d : A) (l : list A) : l = map (fun s => nth (Z.to_nat s) l d) (seqZ 0 (Z.of_nat (length l))).
Proof.
  apply list_eq. intros i. rewrite list_lookup_fmap. destruct (decide (i < length l)%nat) as [H|H].
  - rewrite lookup_seqZ_lt by lia. cbn. destruct (lookup_lt_is_Some_2 l i H) as [x Hx]. replace (Z.to_nat (0 + Z.of_nat i)) with i by lia. by rewrite nth_lookup, Hx.
  - rewrite lookup_seqZ_ge by lia. cbn. apply lookup_ge_None. lia.
Qed.
(** A ring that holds [g (j - d)] at place [(j - d) mod size], as a list of the last values. *)
Lemma ring_perm size j (g : Z -> window_data) (l : list window_data) : 0 < size -> Z.of_nat (length l) = size ->
  (forall d, 0 <= d < size -> l !! Z.to_nat ((j - d) mod size) = Some (g (j - d))) -> l ≡ₚ map (fun d => g (j - d)) (seqZ 0 size).
Proof.
  intros Hs Hl H. rewrite (list_as_map no_data l) at 1. rewrite Hl. rewrite <- (rotation size j Hs) at 1. rewrite map_map.
  match goal with |- ?x ≡ₚ ?y => assert (x = y) as ->; [|done] end. apply map_ext_in. intros d Hd%list_elem_of_In%elem_of_seqZ. rewrite nth_lookup, H by lia. done.
Qed.

(** ** The pass over the classes *)

Definition ring (size n : Z) (win : list window_data) : list window_data := take (Z.to_nat size) (drop (w_offset size n) win).

Section pass.
Context (size cur : Z) (b a : snapshot).
Hypothesis Hsize : 0 < size.
Abbreviation p := (Z.to_nat (cur mod size)).
Abbreviation pl := (wd_place size cur).
Abbreviation ring := (ring size).

Lemma place_in_ring : (p < Z.to_nat size)%nat.
Proof. pose proof (Z.mod_pos_bound cur size Hsize). lia. Qed.
Lemma ring_insert n m x win : 0 <= n -> 0 <= m -> (w_offset size n + Z.to_nat size <= length win)%nat -> (w_offset size m + Z.to_nat size <= length win)%nat ->
  ring n (<[pl m := x]> win) = if decide (n = m) then <[p := x]> (ring n win) else ring n win.
Proof.
  intros Hn Hm Hln Hlm. pose proof place_in_ring as Hp. unfold McAutomove.ring, wd_place. destruct (decide (n = m)) as [-> |Hne].
  - rewrite drop_insert_ge by lia. rewrite Nat.add_sub_swap, Nat.sub_diag by lia. cbn [Nat.add]. by rewrite take_insert_lt by lia.
  - assert (w_offset size n + Z.to_nat size <= w_offset size m \/ w_offset size m + Z.to_nat size <= w_offset size n)%nat as [H|H] by (unfold w_offset in *; nia).
    + rewrite drop_insert_ge by lia. by rewrite take_insert_ge by lia.
    + by rewrite drop_insert_lt by lia.
Qed.

(** What a pass does with a class depends on the ring of this class only. *)
Definition sum_of (win : list window_data) (n : Z) : window_data := window_sum (<[p := no_data]> (ring n win)) no_data.
Definition seen (n : Z) : window_data := observe (stats_of b n) (stats_of a n).
Definition stops (win : list window_data) (n : Z) : bool := reclaimable (stats_of a n) && (wd_dirty (sum_of win n) =? 0).
Definition judged (win : list window_data) (k : picked) (n : Z) : picked := consider size n (stats_of a n) (sum_of win n) (seen n) k.

Lemma insert_clear (l : list window_data) x : <[p := x]> (<[p := no_data]> l) = <[p := x]> l.
Proof. by rewrite list_insert_insert, decide_True. Qed.
Lemma loop_spec ns : forall win k, NoDup ns -> Forall (fun n => 0 <= n /\ (w_offset size n + Z.to_nat size <= length win)%nat) ns ->
  let '(stop, k', win') := classes_loop size cur b a ns win k in
  stop = List.find (stops win) ns /\ k' = fold_left (judged win) (upto (stops win) ns) k /\ length win' = length win /\
  forall n, 0 <= n -> (w_offset size n + Z.to_nat size <= length win)%nat ->
    ring n win' = if decide (n ∈ upto (stops win) ns \/ stop = Some n) then <[p := seen n]> (ring n win) else ring n win.
Proof.
  induction ns as [|m ns IH]; intros win k Hd Hb; cbn [classes_loop].
  { by split_and!. }
  apply NoDup_cons in Hd as [Hm Hd]. apply Forall_cons in Hb as [[Hm0 Hml] Hb].
  set (win1 := <[pl m := no_data]> win). set (win2 := <[pl m := observe (stats_of b m) (stats_of a m)]> win1).
  assert (length win1 = length win /\ length win2 = length win) as [Hl1 Hl2] by (unfold win2, win1; by rewrite !length_insert).
  assert (ring m win1 = <[p := no_data]> (ring m win)) as Er1 by (unfold win1; rewrite ring_insert, decide_True by done; done).
  assert (forall n, 0 <= n -> (w_offset size n + Z.to_nat size <= length win)%nat -> ring n win2 = if decide (n = m) then <[p := seen m]> (ring m win) else ring n win) as Er2.
  { intros n Hn Hln. unfold win2. rewrite ring_insert by (rewrite ?Hl1; done). unfold win1. rewrite ring_insert by done. destruct (decide (n = m)) as [-> |]; [|done]. apply insert_clear. }
  fold (McAutomove.ring size m win1). rewrite Er1. fold (sum_of win m). fold (stops win m). cbn [List.find upto]. destruct (stops win m) eqn:Es.
  - split_and!; try done. intros n Hn Hln. rewrite Er2 by done. destruct (decide (n = m)) as [-> |Hne]; [by rewrite decide_True by (by right)|].
    rewrite decide_False; [done|]. intros [H%not_elem_of_nil|H]; congruence.
  - assert (forall n, n ∈ ns -> sum_of win2 n = sum_of win n) as Hsum.
    { intros n Hn. rewrite Forall_forall in Hb. destruct (Hb n Hn) as [H0 H1]. unfold sum_of. rewrite Er2 by done. rewrite decide_False by congruence. done. }
    assert (forall l, (forall n, n ∈ l -> n ∈ ns) -> List.find (stops win2) l = List.find (stops win) l /\ upto (stops win2) l = upto (stops win) l /\
              forall k, fold_left (judged win2) (upto (stops win) l) k = fold_left (judged win) (upto (stops win) l) k) as Hsame.
    { clear -Hsum. induction l as [|n l IH]; intros Hin; [done|]. assert (stops win2 n = stops win n) as E by (unfold stops; rewrite Hsum; [done|apply Hin; left]).
      destruct IH as (I1 & I2 & I3); [intros x Hx; apply Hin; by right|]. cbn [List.find upto]. rewrite E. destruct (stops win n); [done|]. rewrite I1, I2. split_and!; try done.
      intros k. cbn [fold_left]. rewrite I3. unfold judged at 2 4. rewrite Hsum; [done|apply Hin; left]. }
    specialize (IH win2 (judged win k m) Hd). rewrite Hl2 in IH. specialize (IH Hb). fold (seen m). fold (judged win k m).
    destruct (classes_loop size cur b a ns win2 (judged win k m)) as [[stop k'] win']. destruct IH as (E1 & E2 & E3 & E4).
    destruct (Hsame ns (fun n H => H)) as (S1 & S2 & S3). rewrite S1 in E1. rewrite S2 in E2. rewrite S3 in E2. split_and!; try done.
    intros n Hn Hln. rewrite E4 by done. rewrite S2. rewrite Er2 by done. destruct (decide (n = m)) as [-> |Hne].
    + rewrite (decide_True (P := m ∈ m :: _ \/ _)) by (left; left). case_decide; [|done].
      by rewrite list_insert_insert, decide_True.
    + destruct (decide (n ∈ upto (stops win) ns \/ stop = Some n)) as [H|H]; [rewrite decide_True; [done|]|rewrite decide_False; [done|]].
      * destruct H; [left; by right|by right].
      * intros [[|]%elem_of_cons|]; tauto.
Qed.
End pass.

(** ** Histories *)

Definition run_all (xs : list snapshot) (a : automove) : automove := fold_left (fun a x => (slab_automove_run x a).2) xs a.

Section history.
Context (size : Z) (ratio : spec_float) (hist : list snapshot).
Hypothesis Hsize : 3 <= size < 2 ^ 25.
Hypothesis Hage : forall x, x ∈ hist -> Forall (fun c => 0 <= cs_age c < 2 ^ 32) x.

Abbreviation obs := (obs hist).
Abbreviation recent := (recent size hist).
Abbreviation average := (average size hist).

Lemma stats_age i n : 0 <= cs_age (stats_of (snap hist i) n) < 2 ^ 32.
Proof.
  unfold stats_of, snap, snapshot in *. rewrite !nth_lookup. destruct (hist !! Z.to_nat i) as [x|] eqn:E; cbn [from_option id]; [|rewrite lookup_nil; unfold no_stats; cbn [from_option cs_age]; lia]. destruct (x !! Z.to_nat n) as [c|] eqn:E'; cbn [from_option id]; [|unfold no_stats; cbn [from_option cs_age]; lia].
  apply list_elem_of_lookup_2 in E. apply list_elem_of_lookup_2 in E'. specialize (Hage x E). rewrite Forall_forall in Hage. by apply Hage.
Qed.
Lemma obs_range f n i : f = wd_age \/ f = wd_dirty \/ f = wd_evicted -> 0 <= f (obs n i) < 2 ^ 32.
Proof.
  unfold McAutomove.obs. intros Hf. destruct (i <=? 0); [destruct Hf as [-> |[-> | ->]]; cbn; lia|]. pose proof (stats_age i n).
  destruct Hf as [-> |[-> | ->]]; cbn [observe wd_age wd_dirty wd_evicted]; [done|destruct (_ || _); lia|destruct (_ || _); lia].
Qed.
Lemma total_range f l : (forall d, d ∈ l -> 0 <= f d < 2 ^ 32) -> 0 <= total f l <= Z.of_nat (length l) * 2 ^ 32.
Proof.
  induction l as [|d l IH]; intros H; [cbn; lia|]. cbn [total foldr length]. fold (total f l). assert (0 <= f d < 2 ^ 32) by (apply H; left).
  assert (0 <= total f l <= Z.of_nat (length l) * 2 ^ 32) by (apply IH; intros x Hx; apply H; by right). lia.
Qed.
Lemma recent_range f j n : f = wd_age \/ f = wd_dirty \/ f = wd_evicted -> 0 <= total f (recent j n) < 2 ^ 57.
Proof.
  intros Hf. assert (0 <= total f (recent j n) <= Z.of_nat (length (recent j n)) * 2 ^ 32) as H.
  { apply total_range. intros d Hd. apply list_elem_of_fmap in Hd as (i & -> & _). by apply obs_range. }
  unfold McAutomove.recent in H at 3. rewrite length_map, length_seqZ in H. lia.
Qed.
Lemma average_range j n : 0 <= average j n < 2 ^ 64 - 1.
Proof.
  unfold McAutomove.average. pose proof (recent_range wd_age j n ltac:(auto)). split; [apply Z.div_pos; lia|]. apply Z.div_lt_upper_bound; [lia|]. nia.
Qed.

(** The state after [j] runs that passed all classes. *)
Record history_ok (j : Z) (a : automove) : Prop := {
  ho_size : window_size a = size;
  ho_cur : window_cur a = j;
  ho_ratio : max_age_ratio a = ratio;
  ho_before : before a = snap hist j;
  ho_length : Z.of_nat (length (window a)) = MAX_NUMBER_OF_SLAB_CLASSES * size;
  ho_ring : forall n d, n ∈ all_classes -> 0 <= d < size -> ring size n (window a) !! Z.to_nat ((j - d) mod size) = Some (obs n (j - d))
}.

Lemma class_fits n (win : list window_data) : Z.of_nat (length win) = MAX_NUMBER_OF_SLAB_CLASSES * size -> n ∈ all_classes ->
  0 <= n /\ (w_offset size n + Z.to_nat size <= length win)%nat.
Proof. unfold all_classes, MAX_NUMBER_OF_SLAB_CLASSES, POWER_SMALLEST, w_offset. intros Hl Hn%elem_of_seqZ. split; [lia|]. nia. Qed.
Lemma length_ring n win : Z.of_nat (length win) = MAX_NUMBER_OF_SLAB_CLASSES * size -> n ∈ all_classes -> Z.of_nat (length (ring size n win)) = size.
Proof. intros Hl Hn. destruct (class_fits n win Hl Hn) as [H0 H]. unfold ring. rewrite length_take, length_drop. lia. Qed.

Lemma recent_cons f j n (g : Z -> window_data) : f no_data = 0 -> g j = no_data -> (forall d, 1 <= d < size -> g (j - d) = obs n (j - d)) ->
  total f (map (fun d => g (j - d)) (seqZ 0 size)) = total f (recent j n).
Proof.
  intros Hf Hg H. rewrite (seqZ_cons 0 size) by lia. cbn [map total foldr]. rewrite Z.sub_0_r, Hg, Hf. cbn [Z.add]. replace (Z.succ 0) with 1 by lia. replace (Z.pred size) with (size - 1) by lia.
  fold (total f). unfold McAutomove.recent. rewrite Z.add_0_l. unfold total. f_equal. apply map_ext_in. intros d Hd%list_elem_of_In%elem_of_seqZ. apply H. lia.
Qed.
Lemma sum_recent j a n f : history_ok j a -> n ∈ all_classes -> f = wd_age \/ f = wd_dirty \/ f = wd_evicted -> f (sum_of size (j + 1) (window a) n) = total f (recent (j + 1) n).
Proof.
  intros Ha Hn Hf. set (g := fun i => if decide (i = j + 1) then no_data else obs n i). set (l := <[Z.to_nat ((j + 1) mod size) := no_data]> (ring size n (window a))).
  pose proof (length_ring n _ (ho_length _ _ Ha) Hn) as Hlen.
  assert (l ≡ₚ map (fun d => g (j + 1 - d)) (seqZ 0 size)) as Hperm.
  { apply ring_perm; [lia|unfold l; by rewrite length_insert|]. intros d Hd. unfold l, g. pose proof (Z.mod_pos_bound (j + 1 - d) size ltac:(lia)) as Hm. destruct (decide (j + 1 - d = j + 1)) as [E|Hne].
    - rewrite E. apply list_lookup_insert_eq. rewrite E in Hm. lia.
    - assert ((j + 1) mod size <> (j + 1 - d) mod size) as Hdiff.
      { intros E. apply Hne. assert (d mod size = 0) as Hd0 by (replace d with (j + 1 - (j + 1 - d)) by lia; by rewrite Zminus_mod, E, Z.sub_diag). rewrite Z.mod_small in Hd0 by lia. lia. }
      pose proof (Z.mod_pos_bound (j + 1) size ltac:(lia)). rewrite list_lookup_insert_ne by lia. replace (j + 1 - d) with (j - (d - 1)) by lia. apply (ho_ring _ _ Ha); [done|lia]. }
  assert (forall f, f = wd_age \/ f = wd_dirty \/ f = wd_evicted -> total f l = total f (recent (j + 1) n)) as Htot.
  { intros f' Hf'. rewrite (total_perm f' _ _ Hperm). apply recent_cons; [by destruct Hf' as [-> |[-> | ->]]|unfold g; by rewrite decide_True|]. intros d Hd. unfold g. by rewrite decide_False by lia. }
  unfold sum_of. fold l. rewrite window_sum_fields; [rewrite Htot by done; by destruct Hf as [-> |[-> | ->]]| |done].
  intros f' Hf'. rewrite Htot by done. pose proof (recent_range f' (j + 1) n Hf'). assert (f' no_data = 0) as -> by (by destruct Hf' as [-> |[-> | ->]]). split; [|lia].
  constructor; [by destruct Hf' as [-> |[-> | ->]]|]. rewrite Hperm. apply Forall_map, Forall_forall. intros d _. cbn. unfold g. case_decide; [by destruct Hf' as [-> |[-> | ->]]|].
  by apply obs_range.
Qed.

(** ** The candidates *)

Definition old_ok (j : Z) (l : list Z) (k : picked) : Prop :=
  oldest k = -1 /\ oldest_age k = 0 /\ (forall n, n ∈ l -> source hist j n -> average j n <= 0) \/
  is_oldest size hist j (oldest k) l /\ oldest_age k = average j (oldest k).
Definition young_ok (j : Z) (l : list Z) (k : picked) : Prop :=
  youngest k = -1 /\ youngest_age k = 2 ^ 64 - 1 /\ (forall n, n ∈ l -> ~ pressed size hist j n) \/
  is_youngest size hist j (youngest k) l /\ youngest_age k = average j (youngest k) /\ youngest_evicting k = negb (wd_evicted (obs (youngest k) j) =? 0).

Definition considers (j n : Z) (k k' : picked) : Prop :=
  (if (average j n >? oldest_age k) && (cs_total_pages (stats_of (snap hist j) n) >? MIN_PAGES_FOR_SOURCE)
   then oldest k' = n /\ oldest_age k' = average j n else oldest k' = oldest k /\ oldest_age k' = oldest_age k) /\
  (if (average j n <? youngest_age k) && (total wd_evicted (recent j n) >? size / 2)
   then youngest k' = n /\ youngest_age k' = average j n /\ youngest_evicting k' = negb (wd_evicted (obs n j) =? 0)
   else youngest k' = youngest k /\ youngest_age k' = youngest_age k /\ youngest_evicting k' = youngest_evicting k).

Lemma old_step j l n k k' : (forall m, m ∈ l -> m < n) -> old_ok j l k -> considers j n k k' -> old_ok j (l ++ [n]) k'.
Proof.
  intros Hl Hk [Hc _]. destruct (_ && _) eqn:Et in Hc; destruct Hc as [Ho Ha].
  - zbool. apply Z.gtb_gt in H. apply Z.gtb_gt in H0. right. rewrite Ho, Ha. split; [|done]. split_and!; [apply elem_of_app; right; left|unfold source; lia| |].
    + destruct Hk as [(_ & E & _)|[(_ & _ & Hp & _) E]]; lia.
    + intros m [Hm| ->%list_elem_of_singleton]%elem_of_app Hs; [|lia]. destruct Hk as [(_ & E & Hn)|[(_ & _ & _ & Hn) E]].
      * specialize (Hn m Hm Hs). lia.
      * destruct (Hn m Hm Hs). lia.
  - assert (source hist j n -> average j n <= oldest_age k) as Hn.
    { unfold source. intros Hs. apply andb_false_iff in Et as [Et|Et]; rewrite Z.gtb_ltb in Et; zbool; lia. }
    unfold old_ok. rewrite Ho, Ha. destruct Hk as [(E1 & E2 & Hk)|[(H1 & H2 & H3 & H4) E]].
    + left. split_and!; try done. intros m [Hm| ->%list_elem_of_singleton]%elem_of_app Hs; [by apply Hk|]. rewrite <- E2. by apply Hn.
    + right. split; [|done]. split_and!; [apply elem_of_app; by left|done|done|]. intros m [Hm| ->%list_elem_of_singleton]%elem_of_app Hs; [by apply H4|].
      specialize (Hn Hs). specialize (Hl _ H1). lia.
Qed.
Lemma young_step j l n k k' : (forall m, m ∈ l -> m < n) -> young_ok j l k -> considers j n k k' -> young_ok j (l ++ [n]) k'.
Proof.
  intros Hl Hk [_ Hc]. destruct (_ && _) eqn:Et in Hc; destruct Hc as (Hy & Ha & He).
  - zbool. apply Z.gtb_gt in H0. right. rewrite Hy, Ha. split; [|done]. split_and!; [apply elem_of_app; right; left|unfold pressed; lia|].
    intros m [Hm| ->%list_elem_of_singleton]%elem_of_app Hs; [|lia]. destruct Hk as [(_ & E & Hn)|[(_ & _ & Hn) [E _]]].
    + by destruct (Hn m Hm).
    + destruct (Hn m Hm Hs). lia.
  - assert (pressed size hist j n -> youngest_age k <= average j n) as Hn.
    { unfold pressed. intros Hs. apply andb_false_iff in Et as [Et|Et]; [|rewrite Z.gtb_ltb in Et]; zbool; lia. }
    unfold young_ok. rewrite Hy, Ha, He. destruct Hk as [(E1 & E2 & Hk)|[(H1 & H2 & H3) E]].
    + left. split_and!; try done. intros m [Hm| ->%list_elem_of_singleton]%elem_of_app Hs; [by apply (Hk m)|]. specialize (Hn Hs). pose proof (average_range j n). lia.
    + right. split; [|done]. split_and!; [apply elem_of_app; by left|done|]. intros m [Hm| ->%list_elem_of_singleton]%elem_of_app Hs; [by apply H3|].
      specialize (Hn Hs). specialize (Hl _ H1). lia.
Qed.

Lemma upto_prefix P s n : exists m, 0 <= m <= Z.max 0 n /\ upto P (seqZ s n) = seqZ s m.
Proof.
  destruct (Z.le_gt_cases n 0) as [Hn|Hn]; [exists 0; rewrite (seqZ_nil s n) by done; split; [lia|done]|].
  rewrite <- (Z2Nat.id n) by lia. generalize (Z.to_nat n) as k. clear Hn. intros k. revert s. induction k as [|k IH]; intros s; [by exists 0|].
  rewrite seqZ_cons by lia. cbn [upto]. destruct (P s); [exists 0; split; [lia|done]|]. replace (Z.pred (Z.of_nat (S k))) with (Z.of_nat k) by lia.
  destruct (IH (Z.succ s)) as (m & Hm & E). exists (m + 1). split; [lia|]. rewrite E, (seqZ_cons s (m + 1)) by lia. f_equal. f_equal. lia.
Qed.
Lemma candidates j F m : (forall k n, n ∈ seqZ POWER_SMALLEST m -> considers j n k (F k n)) -> 0 <= m ->
  old_ok j (seqZ POWER_SMALLEST m) (fold_left F (seqZ POWER_SMALLEST m) none_picked) /\
  young_ok j (seqZ POWER_SMALLEST m) (fold_left F (seqZ POWER_SMALLEST m) none_picked).
Proof.
  intros HF Hm. rewrite <- (Z2Nat.id m Hm) in *. generalize dependent (Z.to_nat m). intros i. induction i as [|i IH]; intros HF.
  - split; left; split_and!; try done; intros n Hn; by apply not_elem_of_nil in Hn.
  - replace (Z.of_nat (S i)) with (Z.of_nat i + 1) in * by lia. rewrite seqZ_app in * by lia. replace (seqZ (POWER_SMALLEST + Z.of_nat i) 1) with [POWER_SMALLEST + Z.of_nat i] in * by done.
    rewrite fold_left_app. cbn [fold_left]. destruct IH as [I1 I2]; [intros k n Hn; apply HF; apply elem_of_app; by left|].
    assert (forall x, x ∈ seqZ POWER_SMALLEST (Z.of_nat i) -> x < POWER_SMALLEST + Z.of_nat i) as Hlt by (intros x Hx%elem_of_seqZ; lia).
    set (k := fold_left F (seqZ POWER_SMALLEST (Z.of_nat i)) none_picked) in *. assert (considers j (POWER_SMALLEST + Z.of_nat i) k (F k (POWER_SMALLEST + Z.of_nat i))) as Hc
      by (apply HF, elem_of_app; right; left).
    split; [by apply (old_step j _ _ k)|by apply (young_step j _ _ k)].
Qed.

(** ** A run *)

Lemma find_upto_ext (P Q : Z -> bool) l : (forall n, n ∈ l -> P n = Q n) -> List.find P l = List.find Q l /\ upto P l = upto Q l.
Proof.
  induction l as [|n l IH]; intros H; [done|]. cbn [List.find upto]. rewrite (H n) by left. destruct (Q n); [done|]. destruct IH as [-> ->]; [intros m Hm; apply H; by right|]. done.
Qed.
Lemma upto_all P l : List.find P l = None -> upto P l = l.
Proof. induction l as [|n l IH]; [done|]. cbn [List.find upto]. destruct (P n); [done|]. intros E. by rewrite IH. Qed.
Lemma upto_sub P l n : n ∈ upto P l -> n ∈ l.
Proof. induction l as [|m l IH]; [done|]. cbn [upto]. destruct (P m); [by intros H%not_elem_of_nil|]. intros [-> |H]%elem_of_cons; [left|right; by apply IH]. Qed.

Section step.
Context (j : Z) (a : automove) (Ha : history_ok j a).
Hypothesis Hj : 0 <= j < 2 ^ 32 - 1.
Let win := window a.
Let b := snap hist j.
Let x := snap hist (j + 1).

Lemma obs_now n : obs n (j + 1) = seen b x n.
Proof. unfold McAutomove.obs, seen, b, x. replace (j + 1 <=? 0) with false by (symmetry; apply Z.leb_gt; lia). by replace (j + 1 - 1) with j by lia. Qed.
Lemma stops_frees n : n ∈ all_classes -> stops size (j + 1) x win n = frees size hist (j + 1) n.
Proof. intros Hn. unfold stops, frees, win. by rewrite (sum_recent j a n wd_dirty Ha Hn) by auto. Qed.
Lemma judged_considers k n : n ∈ all_classes -> considers (j + 1) n k (judged size (j + 1) b x win k n).
Proof.
  intros Hn. unfold judged, consider, win. rewrite !(sum_recent j a n wd_age Ha Hn), (sum_recent j a n wd_evicted Ha Hn) by auto. fold (average (j + 1) n).
  unfold considers. rewrite obs_now. fold x. destruct ((average (j + 1) n >? oldest_age k) && _); cbn [youngest_age];
    destruct ((average (j + 1) n <? youngest_age k) && _); cbn [oldest oldest_age youngest youngest_age youngest_evicting]; done.
Qed.

Lemma pass_spec : let '(stop, k, win') := classes_loop size (j + 1) b x all_classes win none_picked in
  stop = List.find (frees size hist (j + 1)) all_classes /\ length win' = length win /\
  old_ok (j + 1) (compared size hist (j + 1)) k /\ young_ok (j + 1) (compared size hist (j + 1)) k /\
  (stop = None -> forall n, n ∈ all_classes -> ring size n win' = <[Z.to_nat ((j + 1) mod size) := obs n (j + 1)]> (ring size n win)).
Proof.
  assert (forall n, n ∈ all_classes -> 0 <= n /\ (w_offset size n + Z.to_nat size <= length win)%nat) as Hfit by (intros n Hn; apply class_fits; [apply (ho_length _ _ Ha)|done]).
  pose proof (loop_spec size (j + 1) b x ltac:(lia) all_classes win none_picked (NoDup_seqZ _ _)) as H.
  rewrite Forall_forall in H. specialize (H Hfit). destruct (classes_loop size (j + 1) b x all_classes win none_picked) as [[stop k] win'].
  destruct (find_upto_ext _ _ all_classes stops_frees) as [E1 E2]. rewrite E1, E2 in H. fold (compared size hist (j + 1)) in H. destruct H as (H1 & H2 & H3 & H4).
  split_and!; [done|done| | |].
  1,2: rewrite H2; unfold compared; destruct (upto_prefix (frees size hist (j + 1)) POWER_SMALLEST (MAX_NUMBER_OF_SLAB_CLASSES - POWER_SMALLEST)) as (m & Hm & E); fold all_classes in E;
    rewrite E; apply candidates; [|lia]; intros k' n Hn; apply judged_considers; rewrite <- E in Hn; by eapply upto_sub.
  intros Hs n Hn. destruct (Hfit n Hn) as [F1 F2]. rewrite H4 by done. rewrite decide_True, obs_now; [done|]. left. unfold compared. rewrite upto_all by congruence. done.
Qed.

Lemma run_unfold : slab_automove_run x a =
  let '(stop, k, win') := classes_loop size (j + 1) b x all_classes win none_picked in
  (if negb (youngest k =? -1) && negb (oldest k =? -1) && (j + 1 >? size)
   then if SFltb (double (youngest_age k)) (SFmul 53 1024 (double (oldest_age k)) ratio) && youngest_evicting k
        then (oldest k, youngest k) else match stop with Some n => (n, 0) | None => (-1, -1) end
   else match stop with Some n => (n, 0) | None => (-1, -1) end,
   {| window := win'; window_size := size; window_cur := j + 1; max_age_ratio := ratio; before := x |}).
Proof.
  unfold slab_automove_run. rewrite (ho_cur _ _ Ha), (ho_size _ _ Ha), (ho_before _ _ Ha), (ho_ratio _ _ Ha). by rewrite (wrap_small 32) by lia.
Qed.

Lemma run_step : List.find (frees size hist (j + 1)) all_classes = None -> history_ok (j + 1) (slab_automove_run x a).2.
Proof.
  intros Hno. rewrite run_unfold. pose proof pass_spec as Hp. destruct (classes_loop size (j + 1) b x all_classes win none_picked) as [[stop k] win'].
  destruct Hp as (E & Hl & _ & _ & Hr). cbn [snd]. split; cbn [window_size window_cur max_age_ratio before window]; try done; [rewrite Hl; apply (ho_length _ _ Ha)|].
  intros n d Hn Hd. rewrite Hr by congruence. pose proof (length_ring n win (ho_length _ _ Ha) Hn) as Hlen. pose proof (Z.mod_pos_bound (j + 1 - d) size ltac:(lia)).
  destruct (decide (d = 0)) as [-> |Hd0]; [rewrite Z.sub_0_r in *; apply list_lookup_insert_eq; lia|].
  assert ((j + 1) mod size <> (j + 1 - d) mod size) as Hdiff.
  { intros Em. apply Hd0. assert (d mod size = 0) as Hm by (replace d with (j + 1 - (j + 1 - d)) by lia; by rewrite Zminus_mod, Em, Z.sub_diag). rewrite Z.mod_small in Hm by lia. lia. }
  pose proof (Z.mod_pos_bound (j + 1) size ltac:(lia)). rewrite list_lookup_insert_ne by lia. replace (j + 1 - d) with (j - (d - 1)) by lia. apply (ho_ring _ _ Ha); [done|lia].
Qed.

Lemma oldest_unique o o' l : is_oldest size hist (j + 1) o l -> is_oldest size hist (j + 1) o' l -> o = o'.
Proof. intros (H1 & H2 & H3 & H4) (I1 & I2 & I3 & I4). destruct (H4 o' I1 I2), (I4 o H1 H2). lia. Qed.
Lemma youngest_unique y y' l : is_youngest size hist (j + 1) y l -> is_youngest size hist (j + 1) y' l -> y = y'.
Proof. intros (H1 & H2 & H3) (I1 & I2 & I3). destruct (H3 y' I1 I2), (I3 y H1 H2). lia. Qed.
Lemma compared_positive n : n ∈ compared size hist (j + 1) -> 0 < n.
Proof. intros H%upto_sub. apply elem_of_seqZ in H. unfold POWER_SMALLEST in H. lia. Qed.

Lemma run_decision : let d := (slab_automove_run x a).1 in
  (exists o y, moves size hist ratio (j + 1) o y /\ d = (o, y)) \/
  (forall o y, ~ moves size hist ratio (j + 1) o y) /\ d = match List.find (frees size hist (j + 1)) all_classes with Some n => (n, 0) | None => (-1, -1) end.
Proof.
  cbn zeta. rewrite run_unfold. pose proof pass_spec as Hp. destruct (classes_loop size (j + 1) b x all_classes win none_picked) as [[stop k] win'].
  destruct Hp as (E & _ & Ho & Hy & _). cbn [fst]. rewrite <- E. clear E.
  destruct Ho as [(Eo & _ & Ho)|[Ho Eao]].
  { right. rewrite Eo, andb_false_r. cbn [Z.eqb Pos.eqb negb andb]. split; [|done]. intros o y ((H1 & H2 & H3 & _) & _). specialize (Ho o H1 H2). lia. }
  destruct Hy as [(Ey & _ & Hy)|(Hy & Eay & Eev)].
  { right. rewrite Ey. cbn [Z.eqb Pos.eqb negb andb]. split; [|done]. intros o y (_ & (H1 & H2 & _) & _). by apply (Hy y). }
  assert (0 < oldest k) by (apply compared_positive, Ho). assert (0 < youngest k) by (apply compared_positive, Hy).
  rewrite (proj2 (Z.eqb_neq (youngest k) (-1))), (proj2 (Z.eqb_neq (oldest k) (-1))) by lia. cbn [negb andb]. rewrite Eao, Eay, Eev.
  assert (forall o y, moves size hist ratio (j + 1) o y -> o = oldest k /\ y = youngest k) as Hu.
  { intros o y (H1 & H2 & _). split; [by eapply oldest_unique|by eapply youngest_unique]. }
  assert (wd_evicted (obs (youngest k) (j + 1)) = 1 <-> negb (wd_evicted (obs (youngest k) (j + 1)) =? 0) = true) as Hev.
  { rewrite obs_now. cbn [seen observe wd_evicted]. by destruct (_ || _). }
  destruct (j + 1 >? size) eqn:Ej.
  2:{ right. split; [|done]. intros o y (_ & _ & Hlt & _). rewrite Z.gtb_ltb in Ej. zbool. lia. }
  apply Z.gtb_gt in Ej. destruct (SFltb _ _) eqn:Er; cbn [andb].
  2:{ right. split; [|done]. intros o y Hm. destruct (Hu o y Hm) as [-> ->]. destruct Hm as (_ & _ & _ & _ & H'). congruence. }
  destruct (negb _) eqn:En; [left|right].
  - exists (oldest k), (youngest k). split; [|done]. split_and!; try done; [lia|by apply Hev].
  - split; [|done]. intros o y Hm. destruct (Hu o y Hm) as [-> ->]. destruct Hm as (_ & _ & _ & H' & _). apply Hev in H'. congruence.
Qed.
End step.
End history.

Lemma init_ok size ratio x0 xs a : 3 <= size < 2 ^ 25 -> slab_automove_init true true size ratio x0 = Some a -> history_ok size ratio (x0 :: xs) 0 a.
Proof.
  intros Hs E. injection E as <-. rewrite (wrap_small 32) by (unfold MAX_NUMBER_OF_SLAB_CLASSES; lia).
  split; cbn [window_size window_cur max_age_ratio before window]; try done; [rewrite length_replicate; unfold MAX_NUMBER_OF_SLAB_CLASSES; lia|].
  intros n d Hn Hd. apply elem_of_seqZ in Hn. unfold POWER_SMALLEST, MAX_NUMBER_OF_SLAB_CLASSES in Hn. pose proof (Z.mod_pos_bound (0 - d) size ltac:(lia)).
  unfold ring, w_offset. rewrite lookup_take_lt, lookup_drop by lia. rewrite lookup_replicate_2 by (unfold MAX_NUMBER_OF_SLAB_CLASSES; nia).
  unfold obs. by replace (0 - d <=? 0) with true by (symmetry; apply Z.leb_le; lia).
Qed.
Lemma runs_ok size ratio x0 xs rest a : let hist := x0 :: xs ++ rest in 3 <= size < 2 ^ 25 -> Z.of_nat (length xs) < 2 ^ 32 - 1 -> (forall x, x ∈ hist -> Forall (fun c => 0 <= cs_age c < 2 ^ 32) x) ->
  (forall i, 1 <= i <= Z.of_nat (length xs) -> List.find (frees size hist i) all_classes = None) -> slab_automove_init true true size ratio x0 = Some a ->
  history_ok size ratio hist (Z.of_nat (length xs)) (run_all xs a).
Proof.
  revert rest. induction xs as [|x xs IH] using rev_ind; intros rest hist Hs Hlen Hage Hun Ei; [by apply init_ok|].
  unfold run_all, hist in *. rewrite fold_left_app, length_app in *. cbn [fold_left length] in *. rewrite <- app_assoc in *. cbn [app] in *.
  specialize (IH (x :: rest) Hs ltac:(lia) Hage ltac:(intros i Hi; apply Hun; lia) Ei). replace (Z.of_nat (length xs + 1)) with (Z.of_nat (length xs) + 1) in * by lia.
  pose proof (run_step size ratio _ Hs Hage _ _ IH ltac:(lia) ltac:(apply Hun; lia)) as Hr.
  replace (snap (x0 :: xs ++ x :: rest) (Z.of_nat (length xs) + 1)) with x in Hr; [exact Hr|].
  unfold snap. replace (Z.to_nat (Z.of_nat (length xs) + 1)) with (S (length xs)) by lia. cbn [nth]. by rewrite app_nth2, Nat.sub_diag by lia.
Qed.

(** C33: the decisions of the automover follow from the last runs.  Let the automover be started
    with a window of at least 3 runs and run on any statistics, no run but the last finding a
    class with pages to give back.  The last run then moves a page from class [o] to class
    [y] exactly when more runs were made than the window holds, [o] is the first class with
    the greatest average age of those with more than two pages, [y] the first with the
    smallest average of those that evicted items in more than half of the window, [y] evicted
    items in this very run, and its average is below the ratio times that of [o]; averages
    and counts are taken over the last [size - 1] runs and only over the classes before the
    first one with pages to give back.  Otherwise it gives a page of this class back to the
    pool, if there is such a class, and does nothing if there is none. *)
Theorem automove_decides size ratio x0 xs x a : let hist := x0 :: xs ++ [x] in let j := Z.of_nat (length xs) + 1 in
  3 <= size < 2 ^ 25 -> j < 2 ^ 32 -> (forall x, x ∈ hist -> Forall (fun c => 0 <= cs_age c < 2 ^ 32) x) -> slab_automove_init true true size ratio x0 = Some a ->
  (forall i, 1 <= i < j -> List.find (frees size hist i) all_classes = None) ->
  let d := (slab_automove_run x (run_all xs a)).1 in
  (exists o y, moves size hist ratio j o y /\ d = (o, y)) \/
  (forall o y, ~ moves size hist ratio j o y) /\ d = match List.find (frees size hist j) all_classes with Some n => (n, 0) | None => (-1, -1) end.
Proof.
  intros hist j Hs Hj Hage Ei Hun d. assert (history_ok size ratio hist (Z.of_nat (length xs)) (run_all xs a)) as Hok by (apply runs_ok; try done; [lia|intros i Hi; apply Hun; lia]).
  pose proof (run_decision size ratio hist Hs Hage _ _ Hok ltac:(lia)) as Hd. fold j in Hd. replace (snap hist j) with x in Hd; [exact Hd|].
  unfold snap, hist, j. replace (Z.to_nat (Z.of_nat (length xs) + 1)) with (S (length xs)) by lia. cbn [nth]. by rewrite app_nth2, Nat.sub_diag by lia.
Qed.

(** ** The maintenance thread *)

Definition MAX_LRU_MAINTAINER_SLEEP : Z := 1000000.
Definition MIN_LRU_MAINTAINER_SLEEP : Z := 1000.

Record maintainer := {
  to_sleep : Z;
  next_juggles : list Z;
  backoff_juggles : list Z;
  last_crawler_check : Z;
  last_automove_check : Z;
  last_ratio : spec_float;
  am : option automove
}.

(** Both statistics of all classes. *)
Definition take_stats (s : server) : snapshot :=
  zip_with (fun (i : Z * Z * Z) (q : Z * Z * Z * Z) =>
      let '(oom, ev, age) := i in let '(perslab, free, pages, _) := q in
      {| cs_outofmemory := oom; cs_evicted := ev; cs_age := age; cs_chunks_per_page := perslab; cs_free_chunks := free; cs_total_pages := pages |})
    (fill_item_stats_automove s) (fill_slab_stats_automove (slab s)).

(** The delay of a class after a pass over it that moved [did_moves] items. *)
Definition new_backoff (did_moves backoff : Z) : Z :=
  if did_moves =? 0 then
    let b := if negb (backoff =? 0) then u32 (backoff + backoff / 8) else MIN_LRU_MAINTAINER_SLEEP in
    if b >? MAX_LRU_MAINTAINER_SLEEP then MAX_LRU_MAINTAINER_SLEEP else b
  else if backoff >? 0 then (if backoff / 2 <? MIN_LRU_MAINTAINER_SLEEP then 0 else backoff / 2)
  else backoff.

Section thread.
(** The settings, the locks, and the start of the crawler. *)
Context (set : item_settings) (hash : list Z -> Z) (nchunks : nat) (slab_automove_window : Z) (slab_automove_ratio : spec_float) (lru_crawler : bool).
Context (trylock : Z -> bool) (locked : bool) (crawler_check : server -> server).

Record juggling := { j_sleep : Z; j_next : list Z; j_backoff : list Z; juggled : list Z }.
(** The loop over the classes. *)
Fixpoint juggle_classes (last_sleep : Z) (ids : list Z) (k : juggling) (s : server) : option (juggling * server) :=
  match ids with
  | [] => Some (k, s)
  | i :: ids =>
      let n := Z.to_nat i in
      let old := nth n (j_next k) 0 in
      let left := if old >? last_sleep then old - last_sleep else 0 in
      if left >? 0 then
        juggle_classes last_sleep ids
          {| j_sleep := if left <? j_sleep k then left else j_sleep k; j_next := <[n := left]> (j_next k); j_backoff := j_backoff k; juggled := juggled k |} s
      else
        match lru_maintainer_juggle set hash nchunks trylock locked i s with
        | None => None
        | Some (did_moves, s) =>
            let b := new_backoff did_moves (nth n (j_backoff k) 0) in
            juggle_classes last_sleep ids
              {| j_sleep := if b <? j_sleep k then b else j_sleep k; j_next := <[n := b]> (j_next k); j_backoff := <[n := b]> (j_backoff k);
                 juggled := juggled k ++ [i] |} s
        end
  end.

(** The automover: [None] is the use of a null pointer, when it could not be started. *)
Definition automove_check (c1 c2 : bool) (t : maintainer) (s : server) : option (maintainer * server) :=
  if (slab_automove set =? 1) && negb (last_automove_check t =? current_time s) then
    let a := if negb (SFeqb (last_ratio t) slab_automove_ratio) then slab_automove_init c1 c2 slab_automove_window slab_automove_ratio (take_stats s) else am t in
    match a with
    | None => None
    | Some a =>
        let '((src, dst), a) := slab_automove_run (take_stats s) a in
        let s' := if negb (src =? -1) && negb (dst =? -1) then snd (slabs_reassign locked src dst s) else s in
        Some ({| to_sleep := if dst =? 0 then 1000 else to_sleep t; next_juggles := next_juggles t; backoff_juggles := backoff_juggles t;
                 last_crawler_check := last_crawler_check t; last_automove_check := if dst =? 0 then last_automove_check t else current_time s;
                 last_ratio := slab_automove_ratio; am := Some a |}, s')
    end
  else Some (t, s).

(** One round of the loop: the classes it juggled, and the state; [ns] are the numbers of
    bumps found in the buffers. *)
Definition maintainer_round (ns : list nat) (c1 c2 : bool) (t : maintainer) (s : server) : option (list Z * maintainer * server) :=
  let last_sleep := if to_sleep t >? 1000 then to_sleep t else 1000 in
  match juggle_classes last_sleep all_classes {| j_sleep := MAX_LRU_MAINTAINER_SLEEP; j_next := next_juggles t; j_backoff := backoff_juggles t; juggled := [] |} s with
  | None => None
  | Some (k, s) =>
      let '(bumped, s) := if lru_segmented set then lru_maintainer_bumps set nchunks ns s else (false, s) in
      let sleep := if bumped && (j_sleep k >? 1000) then 1000 else j_sleep k in
      let check := lru_crawler && negb (last_crawler_check t =? current_time s) in
      let s := if check then crawler_check s else s in
      let t := {| to_sleep := sleep; next_juggles := j_next k; backoff_juggles := j_backoff k;
                  last_crawler_check := if check then current_time s else last_crawler_check t; last_automove_check := last_automove_check t;
                  last_ratio := last_ratio t; am := am t |} in
      match automove_check c1 c2 t s with
      | None => None
      | Some (t, s) => Some (juggled k, t, s)
      end
  end.
End thread.
(** The start of the thread. *)
Definition maintainer_start (am : option automove) (ratio : spec_float) : maintainer :=
  {| to_sleep := MIN_LRU_MAINTAINER_SLEEP; next_juggles := replicate (Z.to_nat MAX_NUMBER_OF_SLAB_CLASSES) 0;
     backoff_juggles := replicate (Z.to_nat MAX_NUMBER_OF_SLAB_CLASSES) 0; last_crawler_check := 0; last_automove_check := 0; last_ratio := ratio; am := am |}.

(** ** Every class is visited in time *)

Definition delay_ok (b : Z) : Prop := b = 0 \/ MIN_LRU_MAINTAINER_SLEEP <= b <= MAX_LRU_MAINTAINER_SLEEP.
Record sched_ok (next backoff : list Z) : Prop := {
  so_next : length next = 64%nat;
  so_backoff : length backoff = 64%nat;
  so_delays : Forall (fun n => 0 <= n <= MAX_LRU_MAINTAINER_SLEEP) next;
  so_backoffs : Forall delay_ok backoff
}.

Lemma new_backoff_ok m b : delay_ok b -> delay_ok (new_backoff m b).
Proof.
  unfold delay_ok, new_backoff, MIN_LRU_MAINTAINER_SLEEP, MAX_LRU_MAINTAINER_SLEEP. intros Hb.
  assert (0 <= b / 8 <= 125000) by (split; [apply Z.div_pos; lia|apply Z.div_le_upper_bound; lia]).
  assert (b / 2 <= 500000) by (apply Z.div_le_upper_bound; lia).
  destruct (m =? 0).
  - destruct (b =? 0) eqn:E; cbn [negb]; [cbn; lia|]. zbool. rewrite (wrap_small 32) by lia. rewrite Z.gtb_ltb. case_if; lia.
  - rewrite Z.gtb_ltb. case_if; [|done]. case_if; lia.
Qed.
Lemma nth_set (l : list Z) n i x : (n < length l)%nat -> nth i (<[n := x]> l) 0 = if decide (i = n) then x else nth i l 0.
Proof.
  intros Hn. rewrite !nth_lookup. destruct (decide (i = n)) as [-> |Hi]; [by rewrite list_lookup_insert_eq|by rewrite list_lookup_insert_ne].
Qed.
Lemma Forall_nth0 (P : Z -> Prop) l i : Forall P l -> P 0 -> P (nth i l 0).
Proof. intros Hl H0. rewrite nth_lookup. destruct (l !! i) eqn:E; [|done]. by apply (Forall_lookup_1 _ _ i _ Hl). Qed.
Lemma sched_set next backoff n x y : sched_ok next backoff -> 0 <= x <= MAX_LRU_MAINTAINER_SLEEP -> delay_ok y -> sched_ok (<[n := x]> next) (<[n := y]> backoff).
Proof. intros [H1 H2 H3 H4] Hx Hy. split; rewrite ?length_insert; try done; by apply Forall_insert. Qed.
Lemma sched_next next backoff n x : sched_ok next backoff -> 0 <= x <= MAX_LRU_MAINTAINER_SLEEP -> sched_ok (<[n := x]> next) backoff.
Proof. intros [H1 H2 H3 H4] Hx. split; rewrite ?length_insert; try done. by apply Forall_insert. Qed.

Section visits.
Context (set : item_settings) (hash : list Z -> Z) (nchunks : nat) (tl : Z -> bool) (lk : bool) (last_sleep : Z).
Hypothesis Hlast : 1000 <= last_sleep.
Abbreviation delay k i := (nth (Z.to_nat i) (j_next k) 0).

Lemma juggle_classes_spec ids : forall k s k' s', Forall (fun i => 0 <= i < 64) ids -> NoDup ids -> sched_ok (j_next k) (j_backoff k) -> 0 <= j_sleep k <= MAX_LRU_MAINTAINER_SLEEP ->
  juggle_classes set hash nchunks tl lk last_sleep ids k s = Some (k', s') ->
  sched_ok (j_next k') (j_backoff k') /\ 0 <= j_sleep k' <= j_sleep k /\ (exists js, juggled k' = juggled k ++ js /\ js ⊆ ids /\
    forall i, i ∈ ids -> j_sleep k' <= delay k' i /\ (i ∈ js \/ delay k' i = delay k i - last_sleep /\ 0 < delay k' i)) /\
  (forall i, 0 <= i -> i ∉ ids -> delay k' i = delay k i).
Proof.
  induction ids as [|i ids IH]; intros k s k' s' Hr Hd Hok Hsl E; cbn [juggle_classes] in E.
  { injection E as <- _. split_and!; try done; [lia|]. exists []. rewrite app_nil_r. split_and!; try done. intros i Hi. by apply not_elem_of_nil in Hi. }
  apply Forall_cons in Hr as [Hi Hr]. apply NoDup_cons in Hd as [Hni Hd].
  assert (Z.to_nat i < length (j_next k))%nat as Hlen by (rewrite (so_next _ _ Hok); lia).
  pose proof (Forall_nth0 _ _ (Z.to_nat i) (so_delays _ _ Hok) ltac:(unfold MAX_LRU_MAINTAINER_SLEEP; lia)) as Hold. cbn beta in Hold.
  assert (forall v k1 js0, j_next k1 = <[Z.to_nat i := v]> (j_next k) -> juggled k1 = juggled k ++ js0 -> js0 ⊆ [i] -> 0 <= v <= MAX_LRU_MAINTAINER_SLEEP ->
    j_sleep k1 = (if v <? j_sleep k then v else j_sleep k) -> sched_ok (j_next k1) (j_backoff k1) -> (i ∈ js0 \/ v = delay k i - last_sleep /\ 0 < v) ->
    forall s1, juggle_classes set hash nchunks tl lk last_sleep ids k1 s1 = Some (k', s') ->
    sched_ok (j_next k') (j_backoff k') /\ 0 <= j_sleep k' <= j_sleep k /\ (exists js, juggled k' = juggled k ++ js /\ js ⊆ i :: ids /\
      forall m, m ∈ i :: ids -> j_sleep k' <= delay k' m /\ (m ∈ js \/ delay k' m = delay k m - last_sleep /\ 0 < delay k' m)) /\
    (forall m, 0 <= m -> m ∉ i :: ids -> delay k' m = delay k m)) as K.
  { intros v k1 js0 En Ej Hsub Hv Es Hok1 Hcase s1 E1.
    assert (0 <= j_sleep k1 <= j_sleep k /\ j_sleep k1 <= v) as [Hs1 Hs2] by (rewrite Es; case_if; lia).
    destruct (IH k1 s1 k' s' Hr Hd Hok1 ltac:(lia) E1) as (H1 & H2 & (js & H3 & H4 & H5) & H6).
    assert (forall m, 0 <= m -> delay k1 m = if decide (m = i) then v else delay k m) as Hdel.
    { intros m Hm. rewrite En, nth_set by done. destruct (decide (m = i)) as [-> |Hne]; [by rewrite decide_True|]. by rewrite decide_False by lia. }
    rewrite Forall_forall in Hr. split_and!; [done|lia|lia| |].
    - exists (js0 ++ js). rewrite H3, Ej, app_assoc. split; [done|]. split; [set_solver|]. intros m [-> |Hm]%elem_of_cons.
      + rewrite (H6 i) by (lia || done). rewrite Hdel, decide_True by (lia || done). split; [lia|]. destruct Hcase; [left; set_solver|by right].
      + destruct (H5 m Hm) as [H7 H8]. split; [done|]. rewrite Hdel in H8 by (apply Hr; done). rewrite decide_False in H8 by congruence. destruct H8; [left; set_solver|by right].
    - intros m Hm Hnot. rewrite H6 by set_solver. rewrite Hdel by done. by rewrite decide_False by set_solver. }
  rewrite !Z.gtb_ltb in E. set (v := if last_sleep <? delay k i then delay k i - last_sleep else 0) in E.
  assert (0 <= v <= MAX_LRU_MAINTAINER_SLEEP /\ (0 < v -> v = delay k i - last_sleep)) as [Hv Hv'] by (unfold v; case_if; lia).
  destruct (0 <? v) eqn:El.
  - zbool. refine (K v _ [] _ _ _ Hv _ _ _ s E); cbn [j_sleep j_next j_backoff juggled]; [done|by rewrite app_nil_r|set_solver|done|by apply sched_next|right; auto].
  - destruct (lru_maintainer_juggle set hash nchunks tl lk i s) as [[m s1]|]; [|done]. set (b := new_backoff m (nth (Z.to_nat i) (j_backoff k) 0)) in E.
    assert (delay_ok b) as Hb by (apply new_backoff_ok, Forall_nth0; [apply (so_backoffs _ _ Hok)|by left]).
    assert (0 <= b <= MAX_LRU_MAINTAINER_SLEEP) as Hb' by (unfold delay_ok, MIN_LRU_MAINTAINER_SLEEP, MAX_LRU_MAINTAINER_SLEEP in *; lia).
    refine (K b _ [i] _ _ _ Hb' _ _ _ s1 E); cbn [j_sleep j_next j_backoff juggled]; [done|done|set_solver|done|by apply sched_set|left; left].
Qed.
End visits.

(** A sequence of rounds with what was slept before each and the classes it juggled.  Between
    two rounds, settings, locks and the store may be anything. *)
Definition slept (t : maintainer) : Z := if to_sleep t >? 1000 then to_sleep t else 1000.
Inductive rounds : maintainer -> list (Z * list Z) -> maintainer -> Prop :=
| rounds_nil t : rounds t [] t
| rounds_cons set hash nchunks size ratio crawler tl lk check ns c1 c2 t s js t' s' log t'' :
    maintainer_round set hash nchunks size ratio crawler tl lk check ns c1 c2 t s = Some (js, t', s') -> rounds t' log t'' ->
    rounds t ((slept t, js) :: log) t''.

Abbreviation due t i := (nth (Z.to_nat i) (next_juggles t) 0).
Definition maintainer_ok (t : maintainer) : Prop := sched_ok (next_juggles t) (backoff_juggles t) /\ 0 <= to_sleep t <= MAX_LRU_MAINTAINER_SLEEP.
Lemma all_classes_range : Forall (fun i => 0 <= i < 64) all_classes.
Proof. apply Forall_forall. intros i Hi%elem_of_seqZ. unfold POWER_SMALLEST, MAX_NUMBER_OF_SLAB_CLASSES in Hi. lia. Qed.

Lemma automove_check_keeps set size ratio lk c1 c2 t s t' s' : automove_check set size ratio lk c1 c2 t s = Some (t', s') ->
  next_juggles t' = next_juggles t /\ backoff_juggles t' = backoff_juggles t /\ (to_sleep t' = to_sleep t \/ to_sleep t' = 1000).
Proof.
  unfold automove_check. case_if; [|intros E; injection E as <- _; auto]. destruct (if negb (SFeqb _ _) then _ else _) as [a|]; [|done].
  destruct (slab_automove_run _ a) as [[src dst] a']. intros E. injection E as <- _. cbn [next_juggles backoff_juggles to_sleep]. case_if; auto.
Qed.
Lemma round_spec set hash nchunks size ratio crawler tl lk check ns c1 c2 t s js t' s' : maintainer_ok t ->
  maintainer_round set hash nchunks size ratio crawler tl lk check ns c1 c2 t s = Some (js, t', s') ->
  maintainer_ok t' /\ 1000 <= slept t <= MAX_LRU_MAINTAINER_SLEEP /\ forall i, i ∈ all_classes ->
    to_sleep t' <= Z.max 1000 (due t' i) /\ (i ∈ js \/ due t' i = due t i - slept t /\ 0 < due t' i).
Proof.
  intros [Hok Hs] E. unfold maintainer_round in E. fold (slept t) in E.
  assert (1000 <= slept t <= MAX_LRU_MAINTAINER_SLEEP) as Hsl by (unfold slept, MAX_LRU_MAINTAINER_SLEEP in *; rewrite Z.gtb_ltb; case_if; lia).
  destruct (juggle_classes _ _ _ _ _ _ _ _ _) as [[k s1]|] eqn:Ej; [|done].
  apply (juggle_classes_spec set hash nchunks tl lk (slept t) (proj1 Hsl)) in Ej as (H1 & H2 & (js' & H3 & _ & H4) & _);
    [|apply all_classes_range|apply NoDup_seqZ|exact Hok|cbn [j_sleep]; unfold MAX_LRU_MAINTAINER_SLEEP; lia]. cbn [juggled j_next j_sleep app] in *. rewrite H3 in E.
  destruct (if lru_segmented set then _ else _) as [bumped s2]. destruct (automove_check _ _ _ _ _ _ _ _) as [[t2 s3]|] eqn:Ea; [|done]. injection E as <- <- <-.
  apply automove_check_keeps in Ea as (E1 & E2 & E3). cbn [next_juggles backoff_juggles to_sleep] in *.
  assert (0 <= to_sleep t2 <= Z.max 1000 (j_sleep k)) as Hsleep.
  { destruct E3 as [-> | ->]; [|lia]. rewrite Z.gtb_ltb. case_if; lia. }
  split; [|split; [done|]].
  - split; [by rewrite E1, E2|]. unfold MAX_LRU_MAINTAINER_SLEEP in *. lia.
  - intros i Hi. destruct (H4 i Hi) as [H5 H6]. rewrite E1. split; [lia|done].
Qed.
Lemma maintainer_start_ok a ratio : maintainer_ok (maintainer_start a ratio).
Proof.
  split; [|cbn; unfold MIN_LRU_MAINTAINER_SLEEP, MAX_LRU_MAINTAINER_SLEEP; lia]. split; try done; apply Forall_replicate; [unfold MAX_LRU_MAINTAINER_SLEEP; lia|by left].
Qed.
Definition time_slept (log : list (Z * list Z)) : Z := foldr (fun r n => r.1 + n) 0 log.
Lemma rounds_quiet t log t' i : rounds t log t' -> maintainer_ok t -> i ∈ all_classes -> Forall (fun r => i ∉ r.2) log ->
  maintainer_ok t' /\ due t' i = due t i - time_slept log /\ 1000 * Z.of_nat (length log) <= time_slept log /\ (log <> [] -> 0 < due t' i).
Proof.
  induction 1 as [t|set hash nchunks size ratio crawler tl lk check ns c1 c2 t s js t' s' log t'' E Hr IH]; intros Hok Hi Hq.
  - split_and!; [done|cbn; lia|cbn; lia|done].
  - apply Forall_cons in Hq as [Hq1 Hq2]. destruct (round_spec _ _ _ _ _ _ _ _ _ _ _ _ _ _ _ _ _ Hok E) as (Hok' & Hsl & Hcl). destruct (Hcl i Hi) as [_ [H|[H1 H2]]]; [done|].
    destruct (IH Hok' Hi Hq2) as (I1 & I2 & I3 & I4). cbn [time_slept foldr fst length]. fold (time_slept log). split_and!; [done|lia|lia|]. intros _.
    destruct log; [|by apply I4]. cbn in I2. lia.
Qed.
Lemma rounds_app t l1 l2 t'' : rounds t (l1 ++ l2) t'' -> exists t', rounds t l1 t' /\ rounds t' l2 t''.
Proof.
  revert t. induction l1 as [|r l1 IH]; intros t Hr; [exists t; split; [constructor|done]|].
  inversion Hr; subst. destruct (IH _ H4) as (t1 & Ha & Hb). exists t1. split; [by econstructor|done].
Qed.
Lemma rounds_ok t log t' : rounds t log t' -> maintainer_ok t -> maintainer_ok t'.
Proof. induction 1 as [|set hash nchunks size ratio crawler tl lk check ns c1 c2 t s js t' s' log t'' E Hr IH]; [done|]. intros Hok. apply IH. by eapply round_spec. Qed.

(** C34: the maintenance thread comes to every class in time.  Whatever the settings, the locks,
    the store and the delays of other classes do: in a sequence of rounds that do not juggle
    the queues of a class, the thread sleeps less than one second in all and makes at most
    999 rounds.  No sleep is longer than a second, or than what is left until the next
    class is due (but a millisecond). *)
Theorem classes_juggled_in_time a ratio log quiet t i : rounds (maintainer_start a ratio) (log ++ quiet) t -> quiet <> [] -> i ∈ all_classes ->
  Forall (fun r => i ∉ r.2) quiet ->
  time_slept quiet < 1000000 /\ (length quiet <= 999)%nat /\ 0 <= to_sleep t <= 1000000.
Proof.
  intros Hr Hne Hi Hq. apply rounds_app in Hr as (t1 & H1 & H2). pose proof (rounds_ok _ _ _ H1 (maintainer_start_ok a ratio)) as Hok.
  destruct (rounds_quiet _ _ _ i H2 Hok Hi Hq) as (I1 & I2 & I3 & I4). specialize (I4 Hne).
  pose proof (Forall_nth0 _ _ (Z.to_nat i) (so_delays _ _ (proj1 Hok)) ltac:(unfold MAX_LRU_MAINTAINER_SLEEP; lia)) as Hd. cbn beta in Hd.
  pose proof (proj2 I1). unfold MAX_LRU_MAINTAINER_SLEEP in *. split_and!; lia.
Qed.

(** ** Rounds do not fail *)

Section total.
Context (set : item_settings) (hash : list Z -> Z) {Hhash : KeyHash hash} (nchunks : nat).
Context (Hpage : 0 < slab_page_size (slab_set set) < 2 ^ 31) (Hrepair : tail_repair_time set = 0).

Lemma juggle_classes_total tl lk last R ids : (forall x, R x + 3 < 2 ^ 16) -> Forall (fun i => 0 <= i < 64) ids -> forall k s M Q F U, wf set hash s M Q F U R ->
  exists k' s' M' Q' F' U', juggle_classes set hash nchunks tl lk last ids k s = Some (k', s') /\ wf set hash s' M' Q' F' U' R /\ bumps s' = bumps s.
Proof.
  intros HR. induction 1 as [|i ids Hi _ IH]; intros k s M Q F U Hw; cbn [juggle_classes]; [by exists k, s, M, Q, F, U|].
  set (left := if _ >? last then _ else _). destruct (left >? 0); [by eapply IH|].
  destruct (wf_juggle set hash nchunks Hpage Hrepair tl lk i Hi R HR s M Q F U Hw) as (r & s1 & E & M1 & Q1 & F1 & U1 & Hw1 & _ & Hb1). rewrite E.
  match goal with |- context [juggle_classes _ _ _ _ _ _ ids ?k1 s1] => destruct (IH k1 s1 M1 Q1 F1 U1 Hw1) as (k' & s' & M' & Q' & F' & U' & E' & Hw' & Hb') end.
  exists k', s', M', Q', F', U'. split_and!; [done|done|congruence].
Qed.

(** On a consistent store, with a started automover and no crawler, a round ends and leaves a
    consistent store. *)
Lemma round_total size ratio tl lk check ns c1 c2 t w M : winv set hash w M -> (forall x, refs w x + 3 < 2 ^ 16) ->
  (am t <> None /\ SFeqb (last_ratio t) ratio = true \/ c1 && c2 = true /\ SFeqb (last_ratio t) ratio = false) ->
  exists js t' s' M', maintainer_round set hash nchunks size ratio false tl lk check ns c1 c2 t (wstore w) = Some (js, t', s') /\ winv set hash (keep s' w) M'.
Proof.
  intros [Hh (Q & F & U & Hw)] Hfew Ham. unfold maintainer_round.
  match goal with |- context [juggle_classes _ _ _ _ _ ?l all_classes ?k0 _] =>
    destruct (juggle_classes_total tl lk l (refs w) all_classes Hfew all_classes_range k0 _ M Q F U Hw) as (k & s1 & M1 & Q1 & F1 & U1 & E & Hw1 & Hb1) end.
  rewrite E. pose proof (winv_keep set hash w M s1 M1 Q1 F1 U1 (conj Hh (ex_intro _ Q (ex_intro _ F (ex_intro _ U Hw)))) Hw1 Hb1) as Hi1.
  assert (exists b s2 M2, (if lru_segmented set then lru_maintainer_bumps set nchunks ns s1 else (false, s1)) = (b, s2) /\ winv set hash (keep s2 w) M2) as (bumped & s2 & M2 & -> & Hi2).
  { destruct (lru_segmented set); [|by exists false, s1, M1].
    assert (allowed set hash (OpBumps ns) (keep s1 w)) as Hal by (split; [intros x; unfold refs; cbn [keep wstore held]; rewrite Hb1; apply Hfew|done]).
    destruct (good_OpBumps set hash nchunks Hpage ns (keep s1 w) M1 Hi1 Hal) as (r & w' & M' & Ex & Hi' & _).
    cbn [exec] in Ex. injection Ex as <- <-. exists (lru_maintainer_bumps set nchunks ns s1).1, (lru_maintainer_bumps set nchunks ns s1).2, M'. split; [apply surjective_pairing|exact Hi']. }
  cbn [andb]. unfold automove_check. cbn [am last_ratio last_automove_check]. case_if; [|by eexists _, _, s2, M2].
  set (a := if negb (SFeqb (last_ratio t) ratio) then _ else _). assert (exists a', a = Some a') as [a' ->].
  { unfold a. destruct Ham as [[Ha ->]|[Hc ->]]; cbn [negb]; [destruct (am t); [by eexists|done]|]. apply andb_true_iff in Hc as [-> ->]. by eexists. }
  destruct (slab_automove_run (take_stats s2) a') as [[src dst] a2].
  eexists _, _, _, M2. split; [reflexivity|]. case_if; [|done]. destruct Hi2 as [_ (Q2 & F2 & U2 & Hw2)]. split; [exact Hh|]. exists Q2, F2, U2.
  cbn [keep wstore] in *. eapply wf_R; [|apply wf_reassign; exact Hw2]. intros x. unfold refs. cbn [keep wstore held]. by rewrite bumps_reassign.
Qed.
End total.

(** ** Examples *)

Module AutomoveExample.
Definition ratio : spec_float := SFdiv 53 1024 (double 8) (double 10).
(** A class with old items, and one that evicts items in every run. *)
Definition quiet_class : class_stats := {| cs_outofmemory := 0; cs_evicted := 0; cs_age := 1000; cs_chunks_per_page := 100; cs_free_chunks := 0; cs_total_pages := 5 |}.
Definition busy_class (evicted : Z) : class_stats := {| cs_outofmemory := 0; cs_evicted := evicted; cs_age := 10; cs_chunks_per_page := 50; cs_free_chunks := 3; cs_total_pages := 4 |}.
Definition at_run (i : Z) : snapshot := [no_stats; quiet_class; busy_class i].
Definition start : automove := default {| window := []; window_size := 0; window_cur := 0; max_age_ratio := ratio; before := [] |}
  (slab_automove_init true true 3 ratio (at_run 0)).
(** A class with three free pages. *)
Definition free_class : class_stats := {| cs_outofmemory := 0; cs_evicted := 0; cs_age := 5; cs_chunks_per_page := 100; cs_free_chunks := 300; cs_total_pages := 5 |}.

(** Three rounds on an empty store.  The second one finds a bump, which shortens the sleep, so
    that nothing is due in the third. *)
Definition store0 : server := wstore HistoryExample.w0.
Definition round_of (ns : list nat) (t : maintainer) : option (list Z * maintainer * server) :=
  maintainer_round HistoryExample.set Witness.sum_hash 0 3 ratio false (fun _ => true) false id ns true true t store0.
Definition after (ns : list nat) (t : maintainer) : maintainer := (default ([], t, store0) (round_of ns t)).1.2.
Definition t0 : maintainer := maintainer_start (slab_automove_init true true 3 ratio []) ratio.
Definition t1 := after [] t0.
Definition t2 := after [1%nat] t1.
Definition t3 := after [] t2.
Lemma one_round ns t t1 x js log t' : t1 = after ns t -> slept t = x -> (fun r => r.1.1) <$> round_of ns t = Some js -> rounds t1 log t' -> rounds t ((x, js) :: log) t'.
Proof.
  intros -> <-. unfold after. destruct (round_of ns t) as [[[js' t1] s']|] eqn:E; [|done]. intros Hj Hr. injection Hj as <-. exact (rounds_cons _ _ _ _ _ _ _ _ _ _ _ _ _ _ _ _ _ _ _ E Hr).
Qed.
End AutomoveExample.
Import AutomoveExample.

(** In the fourth run the class with old items gives a page to the one that evicts. *)
Lemma automove_decides_witness : moves 3 (map at_run [0; 1; 2; 3; 4]) ratio 4 1 2 /\ (slab_automove_run (at_run 4) (run_all (map at_run [1; 2; 3]) start)).1 = (1, 2).
Proof.
  destruct (automove_decides 3 ratio (at_run 0) (map at_run [1; 2; 3]) (at_run 4) start) as [(o & y & Hm & E)|[_ E]].
  - lia.
  - vm_compute. reflexivity.
  - intros x Hx. change (x ∈ map at_run [0; 1; 2; 3; 4]) in Hx. apply list_elem_of_fmap in Hx as (i & -> & _). unfold at_run, no_stats, quiet_class, busy_class.
    repeat constructor; cbn [cs_age]; lia.
  - vm_compute. reflexivity.
  - intros i Hi. change (Z.of_nat (length (map at_run [1; 2; 3])) + 1) with 4 in Hi. assert (i = 1 \/ i = 2 \/ i = 3) as [-> |[-> | ->]] by lia; vm_compute; reflexivity.
  - assert ((o, y) = (1, 2)) as [= -> ->] by (rewrite <- E; vm_compute; reflexivity). split; [exact Hm|exact E].
  - exfalso. vm_compute in E. discriminate E.
Defined.

(** A run that finds a class with free pages stops there: the eviction of a later class in this
    run enters no window, although the statistics it is computed from are replaced. *)
Lemma eviction_not_recorded :
  let a := run_all [[no_stats; free_class; busy_class 1]; [no_stats; quiet_class; busy_class 1]] (default start (slab_automove_init true true 3 ratio [no_stats; free_class; busy_class 0])) in
  map wd_evicted (ring 3 2 (window a)) = [0; 0; 0].
Proof. vm_compute. reflexivity. Qed.

(** No class is juggled in the third round. *)
Lemma classes_juggled_in_time_witness : rounds t0 ([(1000, all_classes); (1000, all_classes)] ++ [(1000, [])]) t3 /\ time_slept [(1000, [])] < 1000000 /\ to_sleep t3 = 125.
Proof.
  assert (rounds t0 ([(1000, all_classes); (1000, all_classes)] ++ [(1000, [])]) t3) as Hr.
  { cbn [app]. apply (one_round [] t0 t1); [reflexivity|vm_compute; reflexivity|vm_compute; reflexivity|].
    apply (one_round [1%nat] t1 t2); [reflexivity|vm_compute; reflexivity|vm_compute; reflexivity|].
    apply (one_round [] t2 t3); [reflexivity|vm_compute; reflexivity|vm_compute; reflexivity|]. constructor. }
  destruct (classes_juggled_in_time (slab_automove_init true true 3 ratio []) ratio [(1000, all_classes); (1000, all_classes)] [(1000, [])] t3 5 Hr) as (H & _).
  - discriminate.
  - apply elem_of_seqZ. vm_compute. split; [discriminate|reflexivity].
  - constructor; [|constructor]. cbn. apply not_elem_of_nil.
  - split; [exact Hr|]. split; [exact H|]. vm_compute. reflexivity.
Defined.
