(* ===== verification/BmcMemcached.v ===== *)
(** The two halves of the system together.  What memcached sends for a "get" over UDP
    (McGet, McOutput) leaves the host through the egress program, and the receive programs
    answer the next request for the key from what they copied. *)
From S2P Require Import Prelude BmcCommon BmcKern BmcLoops BmcCache BmcPipeline BmcCoherence BmcExamples.
From S2P Require Import McItoa McUtil McItem McAssoc McSlabs McItems McItemStore McPayload McItemHistory McStore McToken McProto McOutput McGet.

Lemma parts_bytes_size h ps : Forall (part_ok h) ps -> Z.of_nat (length (concat (map (part_bytes h) ps))) = parts_size ps.
Proof.
  induction 1 as [|[b len] ps (H1 & H2 & H3) _ IH]; [done|]. cbn [map concat parts_size foldr fst snd] in *. fold (parts_size ps).
  rewrite length_app, Nat2Z.inj_add, IH. f_equal. unfold part_bytes, zslice. cbn [fst snd]. rewrite length_take, length_drop. lia.
Qed.
Lemma digits_no_newline u : 0 <= u < 10 ^ 20 -> Forall (fun c => c <> LF) (decimal u).
Proof.
  intros Hu. unfold decimal. destruct (ndigits_range 20 u) as (n & -> & _); [lia..|]. eapply Forall_impl; [apply dpad_digits|].
  intros c Hc. apply isdigit_range in Hc. unfold LF. lia.
Qed.

(** The answer to one key in the form the egress program reads. *)
Definition line_args (i : item) : list Z := (if has_flag ITEM_CFLAGS i then decimal (iflags i) else [48]) ++ [32] ++ decimal (u32 (nbytes i - 2)).
Lemma block_lines i v : value i = v ++ [CR; LF] -> block false i = value_line (ikey i) (line_args i) ++ LF :: (v ++ [CR]) ++ [LF].
Proof.
  intros Hv. unfold block, suffix_text, value_line, line_args. rewrite Hv. unfold CR, LF, SPACE. cbn [app]. rewrite <- !app_assoc. cbn [app]. rewrite <- !app_assoc. cbn [app]. by rewrite <- !app_assoc.
Qed.
Lemma args_no_newline i : typed i -> Forall (fun c => c <> LF) (line_args i).
Proof.
  intros (H1 & _ & _). unfold line_args. repeat (apply Forall_app; split).
  - destruct (has_flag _ _); [apply digits_no_newline; lia|]. by repeat constructor.
  - by repeat constructor.
  - apply digits_no_newline. unfold u32, wrap. pose proof (Z.mod_pos_bound (nbytes i - 2) (2 ^ 32) ltac:(lia)). lia.
Qed.

(** The link, IP and UDP headers of a datagram from the server's port. *)
Definition server_headers (eth : list Z) : Prop :=
  length eth = (ETH_HLEN + IP_HLEN + UDP_HLEN)%nat /\ byte_at eth (ETH_HLEN + 9) = IPPROTO_UDP /\ be16 eth (ETH_HLEN + IP_HLEN) = MEMCACHED_PORT.
Lemma server_reply_header eth id : server_headers eth -> udp_reply_header (eth ++ udp_header id 0 1).
Proof.
  intros (Hl & Hp & Hs). split; [rewrite length_app, Hl; reflexivity|]. unfold be16 in *. rewrite !byte_at_app_l by (rewrite Hl; unfold ETH_HLEN, IP_HLEN, UDP_HLEN; lia). done.
Qed.

Section System.
Context `{HL : BpfHelpersLaws} {HR : BpfRoom H}.

(** The datagram [eth ++ udp_header ++ two lines ++ END] through both programs. *)
Lemma datagram_served id eth k args v m b rroom rq rest tl : let answer := (value_line k args ++ LF :: (v ++ [CR]) ++ [LF]) ++ END in
  server_headers eth -> key_ok k -> Forall (fun c => c <> LF) k -> Forall (fun c => c <> LF) args -> Forall (fun c => c <> LF) v ->
  (length eth + 8 + length answer <= 1353)%nat -> cache_wf (map_kcache m) -> keys_wf (map_keys m) -> predicted (map_kcache m) k = false ->
  udp_request_header rq -> (128 <= length rroom)%nat -> (14 <= length k + 1 + length rest)%nat -> (length rest <= 2000)%nat ->
  (length answer + 9 <= 133 + length k + length rest)%nat -> (4 <= b)%nat ->
  let frame := eth ++ udp_header id 0 1 ++ answer in
  let m1 := (tc_run b (mk_skb (Z.of_nat (length frame)) frame) m).2 in
  exists ctx' m' rq', xdp_run b (get_frame rroom rq [k] rest tl) m1 = (XDP_TX, ctx', m') /\
    xdp_pkt ctx' = rq' ++ answer /\ reply_header rq rq' (Z.of_nat (length answer)).
Proof.
  intros answer Heth Hk Hkn Han Hvn Hlen Hcw Hkw Hcold Hrq Hroom H14 H2000 Hfit Hb. cbv zeta.
  assert (length answer = length (value_line k args ++ LF :: (v ++ [CR]) ++ [LF]) + 5)%nat as Hl1 by (unfold answer; by rewrite length_app).
  assert (length (value_line k args ++ LF :: (v ++ [CR]) ++ [LF]) = length k + length args + length v + 11)%nat as Hl2.
  { unfold value_line. repeat (rewrite length_app; cbn [length]). change (length (bytes "VALUE ")) with 6%nat. lia. }
  pose proof (server_reply_header eth id Heth) as Hh. destruct Heth as (He & _). unfold ETH_HLEN, IP_HLEN, UDP_HLEN in He.
  replace (Z.of_nat (length (eth ++ udp_header id 0 1 ++ answer))) with (Z.of_nat (50 + length answer)) by (rewrite !length_app, He; done).
  replace (eth ++ udp_header id 0 1 ++ answer) with ((eth ++ udp_header id 0 1) ++ value_line k args ++ LF :: (v ++ [CR]) ++ LF :: END)
    by (unfold answer; rewrite <- !app_assoc; cbn [app]; by rewrite <- !app_assoc).
  assert (Z.of_nat (50 + length answer) <= 1353) as Hn by lia. unfold answer in *. change END with END_LINE in *.
  apply relayed_reply; try done; rewrite ?length_app in *; cbn [length] in *; try lia.
  apply Forall_app. split; [done|by repeat constructor].
Qed.

End System.

#[local] Existing Instance plain_helpers.
#[local] Existing Instance plain_helpers_laws.
#[local] Existing Instance plain_helpers_room.

